(* ===== verification/_CoqProject ===== *)
-Q . S2P
Prelude.v
Hart.v
SpinLock.v
ListH.v
ListSplice.v
HListH.v
ListEntry.v
VmSystem.v
Mem.v
Str.v
Kalloc.v
PageTable.v
PageTableSpec.v
Kvm.v
UserCopy.v
UserCopySpec.v
State.v
Critical.v
Sleep.v
SleepSpec.v
RwLock.v
CpuMessage.v
ProcGroup.v
Scheduler.v
Uart.v
UartSpec.v
Kprint.v
Virtio.v
VirtioSpec.v
Uvm.v
UvmSpec.v
Bio.v
BioSpec.v
DiskService.v
Log.v
LogSpec.v
Fs.v
PathSpec.v
FsSpec.v
FsWrite.v
Grep.v
File.v
Loader.v
Process.v
ProcessSpec.v
Sysfile.v
FileSpec.v
PipeSpec.v
Syscall.v
SyscallSpec.v
Trap.v
Boot.v
TrapSpec.v
DemoMachine.v
VmExamples.v
DemoKernel.v
KernelExamples.v
PipeExamples.v
FsExamples.v
VirtioExamples.v
TrapExamples.v
UserSys.v
Ulib.v
UlibSpec.v
Shell.v
ShellSyntax.v
ShellSpec.v
ShellRun.v
Malloc.v
MallocSpec.v
Mkfs.v
MkfsSpec.v
Tools.v
ToolsSpec.v
Xargs.v
Find.v
FindSpec.v
