(* ===== verification/Prelude.v ===== *)
(** * myv6: a verification library for the kernel and its user programs

    myv6 is a RISC-V teaching kernel for several harts (Sv39 paging, processes in
    groups that own harts, an xv6-style file system with a log, a console, a disk
    driver) with its user programs.  This library translates the kernel's C code,
    function by function, into executable definitions over an explicit state, and
    proves what makes its components correct.

    ** How code is represented

    [M S A] is a state monad over [outcome S A]: [Ret] (the value and the new state),
    [Panic], [Undef] (undefined behaviour of C: an index out of range, a NULL
    pointer), [Spin] (a busy-wait that this state never leaves), [NoFuel] (the bound of
    a loop of the model ran out) and [Switch s k] (the hart went to the scheduler with
    state [s]; [k] is the rest of the function, run from whatever state the machine has
    when the process is scheduled again).  Integers are Z with the wrap-around of their
    type written out ([u8] ... [u64], [i32]); memory is a byte map; pointers into static
    arrays are indices, other pointers are addresses.  A component keeps its own state
    and is lifted into a larger one by a [lens] and [zoom]: [hw] (registers, harts,
    locks) inside [kmem] (memory and free list) inside [kst] (all kernel tables)
    inside [vst] (with the disk driver) inside [tst] (with the trap registers) inside
    [bst] (with the page table register and the flag of the boot).

    A user program is a tree [utree] of its system calls, with a branch for every
    answer of the kernel; the monad [U S A] adds the memory of the program as a state.  [interp] runs a
    program against one kernel.  The theorems on user programs hold for every tree of
    answers, or name the kernel they need.

    ** Files and what they model

    - Prelude: outcomes, the monad, loops, total-correctness rules ([runs]), lenses,
      machine integers.
    - Hart, SpinLock: include/cpus.h, trap/introff.c, lock/spin_lock.c; first one
      hart's view, in which other harts are locks with another owner, then the atomic
      steps of all harts interleaved.  RwLock: lock/rw_r_lock.c as critical sections
      of concurrent threads.
    - ListH, ListSplice, HListH, ListEntry: include/util/list.h (the operations on
      circular lists with their hardening checks, splices and cuts, lists with a
      single-pointer head, iterators) and include/util/list_include.h.
    - VmSystem, Mem, Str, Kalloc, PageTable (PageTableSpec), UserCopy (UserCopySpec):
      riscv/vm_system.h, vm/vm.c, vm/kalloc.c, util/string.c.  Kvm: vm/kvm.c and
      start/start.c.
    - State, Critical: the kernel's tables and how critical sections act on them.
    - Sleep (SleepSpec): trap/intr_handler.c (switching), scheduler/sleep.c,
      lock/sleeplock.c.  CpuMessage, ProcGroup, Scheduler: process/cpu_message.c,
      process/proc_group.c, scheduler/scheduler.c.
    - Uart (UartSpec), Kprint: driver/uart.c, io/console/console.c, util/kprint.c.
      Virtio (VirtioSpec): driver/virtio_disk.c.
    - Uvm (UvmSpec), Process (ProcessSpec), Loader: syscall/uvm.c, process/process.c,
      process/process_loader.c.
    - Bio (BioSpec), Log (LogSpec), Fs (PathSpec, FsSpec, FsWrite), File (PipeSpec),
      Sysfile (FileSpec): fs/bio.c, fs/log.c, fs/fs.c, fs/file.c and fs/pipe.c,
      fs/sysfile.c.  DiskService: the driver as the buffer cache uses it.
    - Syscall (SyscallSpec), Trap (TrapSpec): syscall/syscall.c, trap/kernel_trap.c,
      trap/user_trap_handler.c, trap/intr_handler.c, riscv/plic.c.
    - Boot: main.c, with the page table of a hart and [panic_2str].
    - DemoMachine, DemoKernel and the Examples files: a small concrete machine on
      which the theorems are applied.
    - UserSys: user_space/ulib/sys_calls.h.  Ulib (UlibSpec): the user library,
      user_space/ulib_link/user_lib.c and statistics.c.  Malloc (MallocSpec):
      user_space/ulib_link/malloc.c.
    - Shell, ShellSyntax, ShellSpec, ShellRun: user_space/sh.c, the language of its
      lines, its parser, the processes it starts.
    - Grep: the pattern matcher of user_space/grep.c.  Tools (ToolsSpec): cat, wc, grep
      and the other utilities.  Xargs: xargs.c, primes.c.  Find (FindSpec): ls.c,
      find.c.  Mkfs (MkfsSpec): mkfs/mkfs.c.

    Definitions carry the names of the functions they translate.  Where a function is
    split (a loop body, a tail after a [goto]) the piece has a name of its own next to
    it.

    ** What is proved

    - Memory and paging: [memmove] for every overlap; the free list as a stack of
      valid pages, its construction at boot; [map_page], [map_n_pages] (all or
      nothing) and unmapping against the abstract translation of an address, the
      tables staying a tree disjoint from the free list; copies from and to user
      memory exact up to the first page that is not mapped; [brk] keeping the heap's
      invariant; entries as a bijection with their fields.
    - Concurrency: mutual exclusion of the spin lock under every interleaving, the
      nesting discipline of locks and interrupts as one abstract state, the
      reader-writer lock safe and free of lost wake-ups, with progress when nobody asks
      again and for writers among readers (readers can starve); [sleep] with no moment
      before its switch at which a waker on another hart passes the process; [wake_up]
      and sleep locks.
    - The file system: the buffer cache as a store of blocks (with the LRU list by its
      pointers), a commit of the log as atomic for a crash at any write, followed by
      any number of recoveries that are themselves cut; [log_write] absorbing a block
      that the transaction has; [readi] and [writei] on the bytes of a file, through
      direct and indirect blocks, with the inode on disk; names in directories; paths
      split as their reference definition says; a pipe as a bounded queue; descriptors
      and open files counted, and the errors of the calls on them.
    - Lists: the operations on circular lists as operations on sequences, whole lists
      joined and cut, lists with a single-pointer head.
    - Devices and printing: the console's line discipline, numbers that read back,
      disk requests that reach the device as asked for.
    - Processes and traps: pids as a set, [kill], the mailbox of the harts as a queue,
      a system call that returns to its caller in user mode with its result, the boot
      of a hart and the order in which harts are let go, the segments the loader
      accepts.
    - User programs: the parser of the shell accepts exactly its grammar and builds the
      tree of the line; the processes of a line exec what the line denotes, and every
      command ends in an exit; [malloc] and [free] on the ring of free blocks; the text
      [fprintf] writes; the input and output of wc, grep and find, however the kernel
      cuts the input up, where the matcher of grep decides the language of its pattern;
      the image that mkfs builds, in the format the kernel reads.

    ** Bounds and fuel

    Loops over fixed arrays run over their length.  [while_loop] takes a number of
    rounds: [copy_fuel], [path_fuel] and the like are larger than what the data allow,
    and the theorems prove that the loop ends.  [WaitFuel] is how often a process
    tests its condition before it goes on; a theorem about a waiting process asks for
    the tests it needs.  A process that sleeps leaves the model by [Switch].  User
    programs that loop over their input, or recur on it, take a [fuel]; their theorems
    ask for a fuel that the length of the input, or the depth of the tree, bounds.

    ** Assumptions

    Code outside src/ appears as a parameter: the linker's addresses ([KernelImage],
    [KernelData], [DiskData]) and the compiler's place for address-taken locals of a
    system call (fixed slots in the kernel's RAM).  Bio.disk_rw is the service of the
    disk as the buffer cache uses it: the block is transferred when the request is
    done.  Virtio models the driver, and DiskService proves that the driver with a device
    that serves the requests it is given has that effect; the transactions of Log and Fs
    are not interleaved with the wait.  Other harts act
    only where code busy-waits or switches, and in SpinLock and RwLock, which
    interleave them step by step.  Code that runs on the kernel's page table takes the
    table's root as an argument; Boot compares it with the root that [kvm_init] makes.
    Static buffers and locals whose address is taken have their addresses as parameters
    in user programs.

    ** Not modelled

    Assembler (entry code, context switch, trampoline): [swtch] is [Switch], a trap
    handler ends with the argument of the exit code.  Fences, TLB flushes and [wfi]
    have no effect here.  vmprint is left out, and so are what mkfs prints, which nothing
    else reads, and the message of [kfree] before its panic.  list_for_each_rcu of list.h has no user and only differs from
    list_for_each by the compiler's ordering of its loads.  The programs ut, usertest,
    ct, grind, stressfs and forktest are tests of the system, not part of it: they
    call what is modelled here and print what they see.
    One function at a time is related to its specification for the parts that have
    one; path lookup with [ilock] and the calls of sysfile.c that create and remove
    names have definitions, but no specification that spans a whole call. *)

From Stdlib Require Export ZArith Lia.
From stdpp Require Export base tactics option numbers list gmap strings.
#[global] Open Scope Z_scope.

(** [lia] knows [/] and [mod] by constants. *)
Ltac Zify.zify_post_hook ::= Z.div_mod_to_equations.

(** Arithmetic on symbolic machine words stays folded in proofs. *)
#[global] Arguments Z.land _ _ : simpl never.
#[global] Arguments Z.lor _ _ : simpl never.
#[global] Arguments Z.lnot _ : simpl never.
#[global] Arguments Z.shiftl _ _ : simpl never.
#[global] Arguments Z.shiftr _ _ : simpl never.
#[global] Arguments Z.pow _ _ : simpl never.
#[global] Arguments Z.modulo _ _ : simpl never.
#[global] Arguments Z.div _ _ : simpl never.
#[global] Arguments Z.mul _ _ : simpl never.
#[global] Arguments Z.add _ _ : simpl never.
#[global] Arguments Z.sub _ _ : simpl never.
#[global] Arguments Z.of_nat _ : simpl never.
#[global] Arguments Z.to_nat _ : simpl never.
#[global] Arguments Z.eqb _ _ : simpl nomatch.

(** ** Outcomes and the kernel monad

    [outcome S A] is what a piece of kernel code does from a given state.  Code
    that sleeps hands its state to the rest of the machine and resumes with the
    state the machine has at the time it is scheduled again, hence the
    continuation of [Switch]. *)

Inductive outcome (S A : Type) : Type :=
| Ret (a : A) (s : S)            (** the function returns [a] *)
| Panic (msg : string)           (** [panic] / [PANIC_FN]: the machine stops *)
| Undef                          (** undefined behaviour of C: the model stops *)
| Spin                           (** a busy-wait that this state never leaves *)
| NoFuel                         (** the bound on a loop of the model ran out *)
| Switch (s : S) (k : S -> outcome S A).  (** switched to the scheduler; [k] resumes *)
Arguments Ret {S A} a s.
Arguments Panic {S A} msg.
Arguments Undef {S A}.
Arguments Spin {S A}.
Arguments NoFuel {S A}.
Arguments Switch {S A} s k.

Definition M (S A : Type) : Type := S -> outcome S A.

Fixpoint obind {S A B} (o : outcome S A) (f : A -> M S B) : outcome S B :=
  match o with
  | Ret a s => f a s
  | Panic msg => Panic msg
  | Undef => Undef
  | Spin => Spin
  | NoFuel => NoFuel
  | Switch s k => Switch s (fun s' => obind (k s') f)
  end.

#[export] Instance M_ret S : MRet (M S) := fun A (a : A) s => Ret a s.
#[export] Instance M_bind S : MBind (M S) := fun A B f (m : M S A) s => obind (m s) f.

Definition get {S} : M S S := fun s => Ret s s.
Definition put {S} (s : S) : M S unit := fun _ => Ret tt s.
Definition gets {S A} (f : S -> A) : M S A := fun s => Ret (f s) s.
Definition modify {S} (f : S -> S) : M S unit := fun s => Ret tt (f s).
Definition panic {S A} (msg : string) : M S A := fun _ => Panic msg.
Definition undef {S A} : M S A := fun _ => Undef.
Definition spin {S A} : M S A := fun _ => Spin.
Definition no_fuel {S A} : M S A := fun _ => NoFuel.
Definition when {S} (b : bool) (m : M S unit) : M S unit :=
  if b then m else mret tt.
(** Lookup in an array: reading out of bounds is undefined in C. *)
Definition lift_opt {S A} (o : option A) : M S A :=
  match o with Some a => mret a | None => undef end.

(** [for (i = lo; i < lo + n; i++) body]; [body] answers [Some r] to [return r]
    (or [break] with [r]) and [None] to go on. *)
Fixpoint for_loop {S R} (n : nat) (i : Z) (body : Z -> M S (option R)) : M S (option R) :=
  match n with
  | O => mret None
  | S n' => r ← body i;
            match r with
            | Some v => mret (Some v)
            | None => for_loop n' (i + 1) body
            end
  end.

(** The same without an early exit. *)
Fixpoint for_each {S} (n : nat) (i : Z) (body : Z -> M S unit) : M S unit :=
  match n with
  | O => mret tt
  | S n' => body i ;; for_each n' (i + 1) body
  end.

(** [while (1) body] over loop variables [a]: [inl] goes round again with new
    values, [inr] leaves.  [fuel] bounds the number of rounds. *)
Fixpoint while_loop {S A R} (fuel : nat) (a : A) (body : A -> M S (A + R)) : M S R :=
  match fuel with
  | O => no_fuel
  | S fuel' => r ← body a;
               match r with
               | inl a' => while_loop fuel' a' body
               | inr v => mret v
               end
  end.

(** ** Total-correctness reasoning

    [runs m s Q]: from [s] the code [m] returns (no panic, no undefined
    behaviour, no blocking, enough fuel), and [Q] holds of what it returns. *)

Definition oruns {S A} (o : outcome S A) (Q : A -> S -> Prop) : Prop :=
  match o with Ret a s => Q a s | _ => False end.
Definition runs {S A} (m : M S A) (s : S) (Q : A -> S -> Prop) : Prop := oruns (m s) Q.

Section Runs.
Context {S : Type}.

Lemma bind_eq {A B} (m : M S A) (f : A -> M S B) s :
  (m ≫= f) s = obind (m s) f.
Proof. reflexivity. Qed.

Lemma bind_Ret {A B} (m : M S A) (f : A -> M S B) s a s' :
  m s = Ret a s' -> (m ≫= f) s = f a s'.
Proof. intros H. by rewrite bind_eq, H. Qed.

Lemma bind_mret {A B} (a : A) (f : A -> M S B) s : ((mret a : M S A) ≫= f) s = f a s.
Proof. reflexivity. Qed.

(** One round of a loop. *)
Lemma while_S {A R} n a (body : A -> M S (A + R)) :
  while_loop (Datatypes.S n) a body = (r ← body a; match r with inl a' => while_loop n a' body | inr v => mret v end).
Proof. reflexivity. Qed.

Lemma bind_Switch {A B} (m : M S A) (f : A -> M S B) s s1 k :
  m s = Switch s1 k -> (m ≫= f) s = Switch s1 (fun s' => obind (k s') f).
Proof. intros H. by rewrite bind_eq, H. Qed.

Lemma bind_Panic {A B} (m : M S A) (f : A -> M S B) s msg :
  m s = Panic msg -> (m ≫= f) s = Panic msg.
Proof. intros H. by rewrite bind_eq, H. Qed.

Lemma bind_Ret_inv {A B} (m : M S A) (f : A -> M S B) s b s'' :
  (m ≫= f) s = Ret b s'' -> exists a s', m s = Ret a s' /\ f a s' = Ret b s''.
Proof. rewrite bind_eq. destruct (m s); cbn; intros H; try discriminate H; eauto. Qed.

Lemma runs_Ret {A} (m : M S A) s (Q : A -> S -> Prop) :
  runs m s Q <-> exists a s', m s = Ret a s' /\ Q a s'.
Proof.
  unfold runs, oruns. split.
  - destruct (m s); cbn; try contradiction. eauto.
  - intros (a & s' & -> & H). exact H.
Qed.

Lemma runs_elim {A} (m : M S A) s (Q : A -> S -> Prop) :
  runs m s Q -> exists a s', m s = Ret a s' /\ Q a s'.
Proof. apply runs_Ret. Qed.

Lemma runs_eq {A} (m : M S A) s a s' (Q : A -> S -> Prop) :
  m s = Ret a s' -> Q a s' -> runs m s Q.
Proof. intros H HQ. unfold runs. by rewrite H. Qed.

Lemma runs_mono {A} (m : M S A) s (Q Q' : A -> S -> Prop) :
  runs m s Q -> (forall a s', Q a s' -> Q' a s') -> runs m s Q'.
Proof. unfold runs, oruns. destruct (m s); auto. Qed.

Lemma runs_ret {A} (a : A) s (Q : A -> S -> Prop) : Q a s -> runs (mret a) s Q.
Proof. done. Qed.

Lemma runs_bind {A B} (m : M S A) (f : A -> M S B) s (Q : B -> S -> Prop) :
  runs m s (fun a s' => runs (f a) s' Q) -> runs (m ≫= f) s Q.
Proof. unfold runs. rewrite bind_eq. by destruct (m s). Qed.

Lemma runs_conj {A} (m : M S A) s (P Q : A -> S -> Prop) :
  runs m s P -> runs m s Q -> runs m s (fun a s' => P a s' /\ Q a s').
Proof. unfold runs, oruns. destruct (m s); auto. Qed.

Lemma obind_assoc {A B C} (o : outcome S A) (f : A -> M S B) (g : B -> M S C) :
  (forall s k, o <> Switch s k) ->
  obind (obind o f) g = obind o (fun a s => obind (f a s) g).
Proof. destruct o; intros H; try done. by destruct (H s k). Qed.

(** Invariant rule for [for_loop]: [I i] holds before iteration [i]; an early
    exit with [r] establishes [Q (Some r)], running to the end [Q None]. *)
Lemma runs_for_loop {R} (n : nat) (lo : Z) (body : Z -> M S (option R))
    (I : Z -> S -> Prop) (Q : option R -> S -> Prop) s :
  I lo s ->
  (forall i s, lo <= i < lo + Z.of_nat n -> I i s ->
     runs (body i) s (fun r s' => match r with Some _ => Q r s' | None => I (i + 1) s' end)) ->
  (forall s, I (lo + Z.of_nat n) s -> Q None s) ->
  runs (for_loop n lo body) s Q.
Proof.
  revert lo s. induction n as [|n IH]; intros lo s HI Hbody Hend.
  - cbn. apply Hend. by rewrite Z.add_0_r.
  - cbn [for_loop]. apply runs_bind. eapply runs_mono; [apply Hbody; [lia|done]|].
    intros [r|] s' Hr; cbn beta iota in *; [done|].
    apply IH; [done| |].
    + intros i s0 Hi. apply Hbody. lia.
    + intros s0. replace (lo + 1 + Z.of_nat n) with (lo + Z.of_nat (Datatypes.S n)) by lia.
      apply Hend.
Qed.

(** Iterations that do not leave the loop, with the state after each as a function
    of the index. *)
Lemma for_loop_skip {R} (j m : nat) (lo : Z) (body : Z -> M S (option R)) (f : Z -> S) :
  (forall i, lo <= i < lo + Z.of_nat j -> body i (f i) = Ret None (f (i + 1))) ->
  for_loop (j + m) lo body (f lo) = for_loop m (lo + Z.of_nat j) body (f (lo + Z.of_nat j)).
Proof.
  revert lo. induction j as [|j IH]; intros lo Hbody.
  - by rewrite Z.add_0_r.
  - cbn [for_loop Nat.add]. rewrite (bind_Ret _ _ _ _ _ (Hbody lo ltac:(lia))).
    rewrite IH by (intros; apply Hbody; lia). f_equal; [lia|f_equal; lia].
Qed.

Lemma for_loop_exit {R} (j n : nat) (lo : Z) (body : Z -> M S (option R)) (f : Z -> S) r s' :
  (j < n)%nat ->
  (forall i, lo <= i < lo + Z.of_nat j -> body i (f i) = Ret None (f (i + 1))) ->
  body (lo + Z.of_nat j) (f (lo + Z.of_nat j)) = Ret (Some r) s' ->
  for_loop n lo body (f lo) = Ret (Some r) s'.
Proof.
  intros Hj Hbody Hr. replace n with (j + Datatypes.S (n - j - 1))%nat by lia.
  rewrite (for_loop_skip j _ lo body f Hbody). cbn [for_loop]. by rewrite (bind_Ret _ _ _ _ _ Hr).
Qed.

Lemma for_loop_end {R} (n : nat) (lo : Z) (body : Z -> M S (option R)) (f : Z -> S) :
  (forall i, lo <= i < lo + Z.of_nat n -> body i (f i) = Ret None (f (i + 1))) ->
  for_loop n lo body (f lo) = Ret None (f (lo + Z.of_nat n)).
Proof. intros H. by rewrite <- (Nat.add_0_r n), (for_loop_skip n 0 lo body f H), Nat.add_0_r. Qed.

(** The state after [i] iterations, as a function of [i]. *)
Lemma for_each_eq (n : nat) (lo : Z) (body : Z -> M S unit) (f : Z -> S) :
  (forall i, lo <= i < lo + Z.of_nat n -> body i (f i) = Ret tt (f (i + 1))) ->
  for_each n lo body (f lo) = Ret tt (f (lo + Z.of_nat n)).
Proof.
  revert lo. induction n as [|n IH]; intros lo Hbody.
  - by rewrite Z.add_0_r.
  - cbn [for_each]. rewrite (bind_Ret _ _ _ _ _ (Hbody lo ltac:(lia))).
    rewrite IH by (intros; apply Hbody; lia). f_equal. f_equal. lia.
Qed.

Lemma runs_for_each (n : nat) (lo : Z) (body : Z -> M S unit)
    (I : Z -> S -> Prop) (Q : unit -> S -> Prop) s :
  I lo s ->
  (forall i s, lo <= i < lo + Z.of_nat n -> I i s ->
     runs (body i) s (fun _ s' => I (i + 1) s')) ->
  (forall s, I (lo + Z.of_nat n) s -> Q tt s) ->
  runs (for_each n lo body) s Q.
Proof.
  revert lo s. induction n as [|n IH]; intros lo s HI Hbody Hend.
  - cbn. apply Hend. by rewrite Z.add_0_r.
  - cbn [for_each]. apply runs_bind. eapply runs_mono; [apply Hbody; [lia|done]|].
    intros [] s' Hr; cbn beta in *. apply IH; [done| |].
    + intros i s0 Hi. apply Hbody. lia.
    + intros s0. replace (lo + 1 + Z.of_nat n) with (lo + Z.of_nat (Datatypes.S n)) by lia.
      apply Hend.
Qed.

(** Variant rule for [while_loop]: the measure bounds the rounds, so fuel above
    the measure is enough. *)
Lemma runs_while_loop {A R} (body : A -> M S (A + R)) (measure : A -> S -> Z)
    (I : A -> S -> Prop) (Q : R -> S -> Prop) :
  (forall a s, I a s -> 0 <= measure a s /\
     runs (body a) s (fun r s' => match r with
                                  | inl a' => I a' s' /\ measure a' s' < measure a s
                                  | inr v => Q v s'
                                  end)) ->
  forall fuel a s, I a s -> measure a s < Z.of_nat fuel ->
  runs (while_loop fuel a body) s Q.
Proof.
  intros Hbody fuel. induction fuel as [|fuel IH]; intros a s HI Hf.
  - destruct (Hbody a s HI); lia.
  - cbn [while_loop]. destruct (Hbody a s HI) as [_ Hr]. apply runs_bind.
    eapply runs_mono; [exact Hr|]. intros [a'|v] s'; cbn beta iota; [|done].
    intros [HI' Hm]. apply IH; [done|lia].
Qed.
End Runs.

Create HintDb myv6.
#[export] Hint Resolve runs_ret runs_eq : myv6.

(** *** Scans *)

(** The first index of a list that satisfies a test. *)
Definition first_index {A} (P : A -> bool) (l : list A) : option nat := fst <$> list_find P l.

Lemma first_index_Some {A} (P : A -> bool) (l : list A) i :
  first_index P l = Some i ->
  (exists x, l !! i = Some x /\ P x = true) /\
  (forall j x, (j < i)%nat -> l !! j = Some x -> P x = false).
Proof.
  unfold first_index. intros ([i' x] & (Hx & HP & Hb)%list_find_Some & ->)%fmap_Some.
  split; [exists x; split; [done|by destruct (P x)]|].
  intros j y Hj Hy. specialize (Hb j y Hy Hj). by destruct (P y).
Qed.

Lemma first_index_None {A} (P : A -> bool) (l : list A) :
  first_index P l = None -> forall j x, l !! j = Some x -> P x = false.
Proof.
  unfold first_index. intros H%fmap_None j x Hx. rewrite list_find_None in H.
  rewrite Forall_lookup in H. specialize (H j x Hx). by destruct (P x).
Qed.

Lemma first_index_lt {A} (P : A -> bool) (l : list A) i : first_index P l = Some i -> (i < length l)%nat.
Proof. intros [(x & Hx & _) _]%first_index_Some. by eapply lookup_lt_Some. Qed.

(** A loop over an array that stops at the first element with the test. *)
Lemma for_loop_scan {S A R} (P : A -> bool) (l : list A) (body : Z -> M S (option R)) s r g :
  (forall i x, l !! i = Some x -> body (Z.of_nat i) s =
     if P x then Ret (Some (r i)) (g i) else Ret None s) ->
  for_loop (length l) 0 body s =
  match first_index P l with Some i => Ret (Some (r i)) (g i) | None => Ret None s end.
Proof.
  intros Hb. destruct (first_index P l) as [i|] eqn:E.
  - pose proof (first_index_lt _ _ _ E) as Hlt.
    apply first_index_Some in E as [(x & Hx & HP) Hbefore].
    apply (for_loop_exit i (length l) 0 body (fun _ => s)); [done| |].
    + intros j Hj. destruct (lookup_lt_is_Some_2 l (Z.to_nat j)) as [y Hy]; [lia|].
      rewrite <- (Z2Nat.id j) by lia. rewrite (Hb _ _ Hy).
      by rewrite (Hbefore (Z.to_nat j) y ltac:(lia) Hy).
    + rewrite Z.add_0_l, (Hb _ _ Hx). by rewrite HP.
  - apply (for_loop_end (length l) 0 body (fun _ => s)). intros j Hj.
    destruct (lookup_lt_is_Some_2 l (Z.to_nat j)) as [y Hy]; [lia|].
    rewrite <- (Z2Nat.id j) by lia. rewrite (Hb _ _ Hy).
    by rewrite (first_index_None _ _ E _ _ Hy).
Qed.

(** One step of symbolic execution under [runs]. *)
Ltac rstep :=
  lazymatch goal with
  | |- runs (_ ≫= _) _ _ => apply runs_bind
  | |- runs (mret _) _ _ => apply runs_ret
  | |- runs get _ _ => change (runs get) with (fun (s : _) (Q : _ -> _ -> Prop) => Q s s); cbn beta
  | |- runs (if ?b then _ else _) _ _ => destruct b eqn:?
  end.

(** Evaluate the monad operations of a goal. *)
Ltac mrung :=
  unfold when, lift_opt;
  unfold mbind, M_bind, mret, M_ret, gets, get, put, modify, panic, undef, spin, no_fuel;
  cbn.

(** Close what a hypothesis states outright ([done] computes with big numerals). *)
Ltac triv := try first [assumption | reflexivity].

(** Rewrite the head of a bind with an equation [m s = Ret a s']. *)
Ltac mret_rw H := rewrite (bind_Ret _ _ _ _ _ H); cbn beta iota.

(** Invert a hypothesis that a bind returned. *)
Ltac minv H :=
  let a := fresh "a" in let s := fresh "s" in let H1 := fresh H in
  apply bind_Ret_inv in H as (a & s & H1 & H).

(** ** State lenses

    A component keeps a small state of its own; a caller holds it as a part of a
    larger state and [zoom]s into it. *)

Record lens (S T : Type) : Type := Lens { lget : S -> T; lset : T -> S -> S }.
Arguments Lens {S T} _ _.
Arguments lget {S T} _ _.
Arguments lset {S T} _ _ _.

Class LensLaws {S T} (l : lens S T) : Prop := {
  lget_lset : forall t s, lget l (lset l t s) = t;
  lset_lget : forall s, lset l (lget l s) s = s;
  lset_lset : forall t t' s, lset l t (lset l t' s) = lset l t s }.

Fixpoint ozoom {S T A} (l : lens S T) (o : outcome T A) (s : S) : outcome S A :=
  match o with
  | Ret a t => Ret a (lset l t s)
  | Panic msg => Panic msg
  | Undef => Undef
  | Spin => Spin
  | NoFuel => NoFuel
  | Switch t k => Switch (lset l t s) (fun s' => ozoom l (k (lget l s')) s')
  end.

Definition zoom {S T A} (l : lens S T) (m : M T A) : M S A :=
  fun s => ozoom l (m (lget l s)) s.

Lemma zoom_Ret {S T A} (l : lens S T) (m : M T A) s a t :
  m (lget l s) = Ret a t -> zoom l m s = Ret a (lset l t s).
Proof. intros H. unfold zoom. by rewrite H. Qed.

Lemma zoom_runs {S T A} (l : lens S T) (m : M T A) s (Q : A -> S -> Prop) :
  runs m (lget l s) (fun a t => Q a (lset l t s)) -> runs (zoom l m) s Q.
Proof. unfold runs, zoom. by destruct (m (lget l s)). Qed.

(** ** Machine integers

    Unsigned C integers wrap around; [int] values are kept in Z where the code
    cannot leave the range (overflow of a signed integer is undefined) and
    converted with [i32] where the code narrows. *)

Definition u8 (x : Z) : Z := x mod 2 ^ 8.
Definition u16 (x : Z) : Z := x mod 2 ^ 16.
Definition u32 (x : Z) : Z := x mod 2 ^ 32.
Definition u64 (x : Z) : Z := x mod 2 ^ 64.
Definition i32 (x : Z) : Z := (x + 2 ^ 31) mod 2 ^ 32 - 2 ^ 31.
Definition i16 (x : Z) : Z := (x + 2 ^ 15) mod 2 ^ 16 - 2 ^ 15.

Lemma u64_small x : 0 <= x < 2 ^ 64 -> u64 x = x.
Proof. apply Z.mod_small. Qed.
Lemma u32_small x : 0 <= x < 2 ^ 32 -> u32 x = x.
Proof. apply Z.mod_small. Qed.
Lemma u8_small x : 0 <= x < 2 ^ 8 -> u8 x = x.
Proof. apply Z.mod_small. Qed.
Lemma u64_range x : 0 <= u64 x < 2 ^ 64.
Proof. apply Z.mod_pos_bound. lia. Qed.
Lemma u32_range x : 0 <= u32 x < 2 ^ 32.
Proof. apply Z.mod_pos_bound. lia. Qed.
Lemma u8_range x : 0 <= u8 x < 2 ^ 8.
Proof. apply Z.mod_pos_bound. lia. Qed.
Lemma i32_small x : - 2 ^ 31 <= x < 2 ^ 31 -> i32 x = x.
Proof. unfold i32. intros. rewrite Z.mod_small; lia. Qed.

#[export] Hint Resolve u64_range u32_range u8_range : myv6.

(** ** Bit fields as arithmetic *)

Lemma land_mask x n : 0 <= n -> Z.land x (Z.shiftl 1 n - 1) = x mod 2 ^ n.
Proof.
  intros Hn. by rewrite <- Z.land_ones.
Qed.

Lemma land_lnot_mask x n : 0 <= n -> Z.land x (Z.lnot (Z.shiftl 1 n - 1)) = x - x mod 2 ^ n.
Proof.
  intros Hn. rewrite <- Z.ldiff_land.
  assert (Z.shiftl 1 n - 1 = Z.ones n) as -> by (rewrite Z.ones_equiv, Z.shiftl_1_l; lia).
  rewrite Z.ldiff_ones_r by done. rewrite Z.shiftr_div_pow2, Z.shiftl_mul_pow2 by done.
  pose proof (Z.div_mod x (2 ^ n)). nia.
Qed.

Lemma land_field x k n :
  0 <= k -> 0 <= n ->
  Z.land x (Z.shiftl (Z.shiftl 1 n - 1) k) = (x / 2 ^ k) mod 2 ^ n * 2 ^ k.
Proof.
  intros Hk Hn. rewrite <- (land_mask _ n) by done.
  rewrite <- Z.shiftl_mul_pow2 by done.
  apply Z.bits_inj'; intros i Hi.
  rewrite Z.land_spec, !Z.shiftl_spec by done.
  destruct (Z.ltb_spec (i - k) 0).
  - rewrite !(Z.testbit_neg_r _ (i - k)) by done. apply andb_false_r.
  - rewrite Z.land_spec. f_equal. rewrite <- Z.shiftr_div_pow2 by done.
    rewrite Z.shiftr_spec by done. f_equal. lia.
Qed.

Lemma lor_add a b n : 0 <= n -> 0 <= b < 2 ^ n -> Z.lor (a * 2 ^ n) b = a * 2 ^ n + b.
Proof.
  intros Hn Hb. rewrite <- Z.add_lor_land. enough (Z.land (a * 2 ^ n) b = 0) by lia.
  apply Z.bits_inj'; intros i Hi. rewrite Z.land_spec, Z.bits_0.
  destruct (Z.ltb_spec i n).
  - by rewrite Z.mul_pow2_bits_low by done.
  - rewrite <- (Z.mod_small b (2 ^ n)) by done.
    rewrite Z.mod_pow2_bits_high by lia. apply andb_false_r.
Qed.

Lemma testbit_land_pow2 x k : 0 <= k -> Z.land x (2 ^ k) = if Z.testbit x k then 2 ^ k else 0.
Proof.
  intros Hk. apply Z.bits_inj'; intros i Hi. rewrite Z.land_spec, Z.pow2_bits_eqb by done.
  destruct (Z.eqb_spec k i) as [->|Hne].
  - rewrite andb_true_r. destruct (Z.testbit x i) eqn:E;
      [by rewrite Z.pow2_bits_true|by rewrite Z.bits_0].
  - rewrite andb_false_r. destruct (Z.testbit x k); [|by rewrite Z.bits_0].
    by rewrite Z.pow2_bits_false by lia.
Qed.
