(* ===== verification/Hart.v ===== *)
(** * Harts, interrupt nesting and spin locks

    include/cpus.h, include/trap/introff.h, kernel/trap/introff.c,
    include/lock/spin_lock.h and kernel/lock/spin_lock.c.  The state [hw] is what
    the code of one hart sees: its [tp] and [sstatus]/[sie] registers, the array
    [cpus] and the table of all spin locks.  Other harts appear as locks whose
    owner is another [tp]: acquiring one of those busy-waits ([Spin]). *)

From S2P Require Import Prelude.

(** ** Data *)

(** The spin locks of the kernel, by the object they sit in. *)
Inductive lock_id :=
| LkMem | LkPid | LkTick | LkFreeCpus | LkMsgBox | LkLog | LkBcache | LkIcache
| LkFtable | LkVdisk | LkUartIn | LkUartOut | LkInputLines | LkKprintf
| LkProc (i : nat) | LkGroup (i : nat) | LkBuf (i : nat) | LkInode (i : nat)
| LkPipe (addr : Z).

#[export] Instance lock_id_eq_dec : EqDecision lock_id.
Proof. solve_decision. Defined.

Definition lock_id_code (l : lock_id) : nat * Z :=
  match l with
  | LkMem => (0%nat, 0) | LkPid => (1%nat, 0) | LkTick => (2%nat, 0)
  | LkFreeCpus => (3%nat, 0) | LkMsgBox => (4%nat, 0) | LkLog => (5%nat, 0)
  | LkBcache => (6%nat, 0) | LkIcache => (7%nat, 0) | LkFtable => (8%nat, 0)
  | LkVdisk => (9%nat, 0) | LkUartIn => (10%nat, 0) | LkUartOut => (11%nat, 0)
  | LkInputLines => (12%nat, 0) | LkKprintf => (13%nat, 0)
  | LkProc i => (14%nat, Z.of_nat i) | LkGroup i => (15%nat, Z.of_nat i)
  | LkBuf i => (16%nat, Z.of_nat i) | LkInode i => (17%nat, Z.of_nat i)
  | LkPipe a => (18%nat, a)
  end.

Definition lock_id_decode (p : nat * Z) : lock_id :=
  match p with
  | (0%nat, _) => LkMem | (1%nat, _) => LkPid | (2%nat, _) => LkTick
  | (3%nat, _) => LkFreeCpus | (4%nat, _) => LkMsgBox | (5%nat, _) => LkLog
  | (6%nat, _) => LkBcache | (7%nat, _) => LkIcache | (8%nat, _) => LkFtable
  | (9%nat, _) => LkVdisk | (10%nat, _) => LkUartIn | (11%nat, _) => LkUartOut
  | (12%nat, _) => LkInputLines | (13%nat, _) => LkKprintf
  | (14%nat, i) => LkProc (Z.to_nat i) | (15%nat, i) => LkGroup (Z.to_nat i)
  | (16%nat, i) => LkBuf (Z.to_nat i) | (17%nat, i) => LkInode (Z.to_nat i)
  | (_, a) => LkPipe a
  end.

#[export] Instance lock_id_countable : Countable lock_id.
Proof.
  apply (inj_countable' lock_id_code lock_id_decode).
  intros []; cbn; rewrite ?Nat2Z.id; reflexivity.
Defined.

Record spin_lock := mk_spin_lock { sl_locked : Z; sl_cpu_id : Z }.

#[export] Instance spin_lock_eq_dec : EqDecision spin_lock.
Proof. solve_decision. Defined.

Record cpu := mk_cpu {
  c_cpu_id : Z;
  c_pgroup_id : Z;
  c_my_proc : option nat;   (** index into [proc_set]; [None] is NULL *)
  c_origin_ie : Z;
  c_introff_n : Z }.

Record hw := mk_hw {
  hw_tp : Z;
  hw_sstatus : Z;
  hw_sie : Z;
  hw_cpus : list cpu;
  hw_locks : gmap lock_id spin_lock }.

Definition MAX_CPU_NUM : Z := 8.
Definition XSTATUS_SIE : Z := Z.shiftl 1 1.
Definition XSTATUS_SPIE : Z := Z.shiftl 1 5.
Definition XSTATUS_SPP : Z := Z.shiftl 1 8.
Definition XIE_SSIE : Z := Z.shiftl 1 1.
Definition XIE_SEIE : Z := Z.shiftl 1 9.

Definition w_sstatus (x : Z) : M hw unit :=
  modify (fun h => mk_hw (hw_tp h) x (hw_sie h) (hw_cpus h) (hw_locks h)).
Definition w_sie (x : Z) : M hw unit :=
  modify (fun h => mk_hw (hw_tp h) (hw_sstatus h) x (hw_cpus h) (hw_locks h)).
Definition set_cpus (cs : list cpu) (h : hw) : hw :=
  mk_hw (hw_tp h) (hw_sstatus h) (hw_sie h) cs (hw_locks h).
Definition set_locks (ls : gmap lock_id spin_lock) (h : hw) : hw :=
  mk_hw (hw_tp h) (hw_sstatus h) (hw_sie h) (hw_cpus h) ls.

(** ** include/trap/introff.h *)

Definition get_intr : M hw Z :=
  sst ← gets hw_sstatus; mret (Z.land sst XSTATUS_SIE).
Definition intr_is_on : M hw Z := get_intr.
Definition intron : M hw unit :=
  sst ← gets hw_sstatus; w_sstatus (Z.lor sst XSTATUS_SIE).
Definition introff : M hw unit :=
  sst ← gets hw_sstatus; w_sstatus (Z.land sst (Z.lnot XSTATUS_SIE)).
Definition enable_soft_intr : M hw unit := w_sie XIE_SSIE.
Definition enable_soft_n_external_intr : M hw unit := w_sie (Z.lor XIE_SEIE XIE_SSIE).

(** ** include/cpus.h

    A [struct cpu *] is the index of the entry. *)

Definition cpu_id : M hw Z :=
  ie ← intr_is_on;
  if negb (ie =? 0) then spin else gets hw_tp.
Definition cpu_id_unsafe : M hw Z := gets hw_tp.
Definition my_cpu : M hw Z := cpu_id.
Definition my_cpu_unsafe : M hw Z := cpu_id_unsafe.

Definition read_cpu (i : Z) : M hw cpu :=
  cs ← gets hw_cpus; lift_opt (cs !! Z.to_nat i).
Definition write_cpu (i : Z) (c : cpu) : M hw unit :=
  _ ← read_cpu i;
  modify (fun h => set_cpus (<[Z.to_nat i := c]> (hw_cpus h)) h).

(** ** kernel/trap/introff.c *)

Definition push_introff : M hw unit :=
  origin_ie ← get_intr;
  introff ;;
  cur_cpu ← my_cpu;
  c ← read_cpu cur_cpu;
  (if c_introff_n c =? 0
   then write_cpu cur_cpu (mk_cpu (c_cpu_id c) (c_pgroup_id c) (c_my_proc c)
                                  origin_ie (c_introff_n c))
   else mret tt) ;;
  c ← read_cpu cur_cpu;
  write_cpu cur_cpu (mk_cpu (c_cpu_id c) (c_pgroup_id c) (c_my_proc c)
                            (c_origin_ie c) (c_introff_n c + 1)).

Definition pop_introff : M hw unit :=
  cur_cpu ← my_cpu;
  ie ← get_intr;
  if negb (ie =? 0) then panic "pop_introff when status(sie) != 0" else
  c ← read_cpu cur_cpu;
  if c_introff_n c <=? 0 then panic "pop_introff without push_introff before" else
  write_cpu cur_cpu (mk_cpu (c_cpu_id c) (c_pgroup_id c) (c_my_proc c)
                            (c_origin_ie c) (c_introff_n c - 1)) ;;
  c ← read_cpu cur_cpu;
  if (c_introff_n c =? 0) && negb (c_origin_ie c =? 0) then intron else mret tt.

Definition my_proc : M hw (option nat) :=
  push_introff ;;
  i ← my_cpu;
  c ← read_cpu i;
  pop_introff ;;
  mret (c_my_proc c).

(** ** include/lock/spin_lock.h, kernel/lock/spin_lock.c *)

Definition init_spin_lock (l : lock_id) : M hw unit :=
  modify (fun h => set_locks (<[l := mk_spin_lock 0 (u64 (-1))]> (hw_locks h)) h).

Definition read_lock (l : lock_id) : M hw spin_lock :=
  ls ← gets hw_locks; lift_opt (ls !! l).
Definition write_lock (l : lock_id) (v : spin_lock) : M hw unit :=
  modify (fun h => set_locks (<[l := v]> (hw_locks h)) h).

Definition check_not_hold (l : lock_id) : M hw unit :=
  lk ← read_lock l;
  id ← cpu_id;
  if sl_cpu_id lk =? id then panic "check_not_hold: acquired holding lock" else mret tt.

Definition check_hold (l : lock_id) : M hw unit :=
  lk ← read_lock l;
  if negb (sl_locked lk =? 1) then panic "check_hold: release spin_lock never acquired" else
  id ← cpu_id;
  if negb (sl_cpu_id lk =? id) then panic "check_hold: release spin_lock not hold by this cpu"
  else mret tt.

(** The loop on the atomic test-and-set leaves at once on a free lock; nothing
    this hart does can free a lock held elsewhere, so it spins there. *)
Definition acquire_spin_lock (l : lock_id) : M hw unit :=
  push_introff ;;
  check_not_hold l ;;
  lk ← read_lock l;
  write_lock l (mk_spin_lock 1 (sl_cpu_id lk)) ;;
  (if negb (sl_locked lk =? 0) then spin else mret tt) ;;
  id ← cpu_id;
  write_lock l (mk_spin_lock 1 id).

Definition release_spin_lock (l : lock_id) : M hw unit :=
  check_hold l ;;
  lk ← read_lock l;
  write_lock l (mk_spin_lock (sl_locked lk) (u64 (-1))) ;;
  write_lock l (mk_spin_lock 0 (u64 (-1))) ;;
  pop_introff.

(** ** include/cpus.h: boot *)

Definition init_cpus : M hw unit :=
  for_each (Z.to_nat MAX_CPU_NUM) 0 (fun i =>
    c ← read_cpu i;
    write_cpu i (mk_cpu (-1) (-1) (c_my_proc c) (c_origin_ie c) (c_introff_n c))).

Definition init_my_cpu : M hw unit :=
  i ← my_cpu;
  id ← cpu_id;
  c ← read_cpu i;
  write_cpu i (mk_cpu id (c_pgroup_id c) (c_my_proc c) (c_origin_ie c) (c_introff_n c)) ;;
  i ← my_cpu;
  c ← read_cpu i;
  write_cpu i (mk_cpu (c_cpu_id c) (-1) (c_my_proc c) (c_origin_ie c) (c_introff_n c)).

(** ** Theory: what a critical section does to the hart *)

Definition free_lock : spin_lock := mk_spin_lock 0 (u64 (-1)).
Definition cur_cpu (h : hw) : option cpu := hw_cpus h !! Z.to_nat (hw_tp h).

(** The hart is running with a [cpus] entry of its own, and interrupts are off
    while the nesting count is positive. *)
Definition hw_wf (h : hw) : Prop :=
  0 <= hw_tp h < MAX_CPU_NUM /\
  exists c, cur_cpu h = Some c /\ 0 <= c_introff_n c /\
            (0 < c_introff_n c -> Z.land (hw_sstatus h) XSTATUS_SIE = 0).

Definition nest (n : Z) (ie : Z) (c : cpu) : cpu :=
  mk_cpu (c_cpu_id c) (c_pgroup_id c) (c_my_proc c)
         (if c_introff_n c =? 0 then ie else c_origin_ie c) (c_introff_n c + n).

(** [nested n h]: [h] inside [n] levels of [push_introff].  At level 0 the only
    trace left is the scratch field [origin_ie] of an un-nested hart. *)
Definition nested (n : Z) (h : hw) : hw :=
  match cur_cpu h with
  | None => h
  | Some c =>
      mk_hw (hw_tp h)
            (if n =? 0 then hw_sstatus h else Z.land (hw_sstatus h) (Z.lnot XSTATUS_SIE))
            (hw_sie h)
            (<[Z.to_nat (hw_tp h) := nest n (Z.land (hw_sstatus h) XSTATUS_SIE) c]> (hw_cpus h))
            (hw_locks h)
  end.

Definition lock_all (tp : Z) (L : list lock_id) (ls : gmap lock_id spin_lock) :=
  foldr (fun l m => <[l := mk_spin_lock 1 tp]> m) ls L.

(** [held_hw k L h]: [h] after [k] open [push_introff]s and with the locks [L]
    held by this hart. *)
Definition held_hw (k : nat) (L : list lock_id) (h : hw) : hw :=
  set_locks (lock_all (hw_tp h) L (hw_locks h)) (nested (Z.of_nat (k + length L)) h).

(** What remains of a hart after a balanced critical section. *)
Definition settle (h : hw) : hw := held_hw 0 [] h.

Lemma sie_off_id x : Z.land x XSTATUS_SIE = 0 -> Z.land x (Z.lnot XSTATUS_SIE) = x.
Proof.
  intros H. apply Z.bits_inj'; intros i Hi.
  apply (f_equal (fun z => Z.testbit z i)) in H.
  rewrite Z.land_spec, Z.bits_0 in H. rewrite Z.land_spec, Z.lnot_spec by done.
  destruct (Z.testbit x i), (Z.testbit XSTATUS_SIE i); done.
Qed.

Lemma sie_on_id x :
  Z.land x XSTATUS_SIE <> 0 -> Z.lor (Z.land x (Z.lnot XSTATUS_SIE)) XSTATUS_SIE = x.
Proof.
  change XSTATUS_SIE with (2 ^ 1). intros H.
  assert (Z.testbit x 1 = true) as Hb.
  { destruct (Z.testbit x 1) eqn:E; [done|]. destruct H.
    apply Z.bits_inj'; intros i Hi. rewrite Z.land_spec, Z.bits_0, Z.pow2_bits_eqb by done.
    destruct (Z.eqb_spec 1 i) as [<-|]; [by rewrite E|by destruct (Z.testbit x i)]. }
  apply Z.bits_inj'; intros i Hi.
  rewrite Z.lor_spec, Z.land_spec, Z.lnot_spec, Z.pow2_bits_eqb by done.
  destruct (Z.eqb_spec 1 i) as [<-|]; [by rewrite Hb|by destruct (Z.testbit x i)].
Qed.

Lemma sie_cleared x : Z.land (Z.land x (Z.lnot XSTATUS_SIE)) XSTATUS_SIE = 0.
Proof. rewrite <- Z.land_assoc. change (Z.land (Z.lnot XSTATUS_SIE) XSTATUS_SIE) with 0. apply Z.land_0_r. Qed.

Lemma sie_clear_twice x :
  Z.land (Z.land x (Z.lnot XSTATUS_SIE)) (Z.lnot XSTATUS_SIE) = Z.land x (Z.lnot XSTATUS_SIE).
Proof. rewrite <- Z.land_assoc. by rewrite Z.land_diag. Qed.

Lemma set_cpus_hw h cs : hw_cpus (set_cpus cs h) = cs.
Proof. done. Qed.

Section Critical.
Variable h : hw.
Hypothesis Hwf : hw_wf h.

Lemma hw_wf_cpu : exists c, cur_cpu h = Some c /\ 0 <= c_introff_n c /\
   (0 < c_introff_n c -> Z.land (hw_sstatus h) XSTATUS_SIE = 0) /\
   (Z.to_nat (hw_tp h) < length (hw_cpus h))%nat.
Proof.
  destruct Hwf as (_ & c & Hc & H0 & H1). exists c. repeat split; auto.
  by eapply lookup_lt_Some.
Qed.

Lemma push_introff_nested1 : push_introff h = Ret tt (nested 1 h).
Proof.
  destruct hw_wf_cpu as (c & Hc & Hn & Hoff & Hlen).
  unfold push_introff, my_cpu, cpu_id, intr_is_on, get_intr, introff, w_sstatus,
    read_cpu, write_cpu, read_cpu, nested.
  rewrite Hc. destruct h as [tp sst sie cs ls], c as [cid pg mp oie n].
  unfold cur_cpu in *. cbn in Hc, Hoff, Hlen, Hn. unfold nest, set_cpus.
  mrung. rewrite sie_cleared. cbn. rewrite Hc. cbn.
  destruct (n =? 0) eqn:E; cbn;
    repeat first [rewrite Hc | rewrite list_insert_insert_eq | rewrite list_lookup_insert_eq by done | progress cbn];
    by rewrite ?list_insert_insert_eq.
Qed.

(** Leaving the last level restores the interrupt enable, and every inner level
    restores the level below. *)
Lemma pop_introff_nested n :
  0 <= n -> pop_introff (nested (n + 1) h) = Ret tt (nested n h).
Proof.
  intros Hn0. destruct hw_wf_cpu as (c & Hc & Hn & Hoff & Hlen).
  unfold pop_introff, my_cpu, cpu_id, intr_is_on, get_intr, intron, w_sstatus,
    read_cpu, write_cpu, read_cpu, nested.
  rewrite Hc. destruct h as [tp sst sie cs ls], c as [cid pg mp oie k].
  unfold cur_cpu in *. cbn in Hc, Hoff, Hlen, Hn. unfold nest, set_cpus. cbn.
  replace (n + 1 =? 0) with false by lia.
  mrung.
  repeat first [rewrite sie_cleared | rewrite list_insert_insert_eq | rewrite list_lookup_insert_eq by done
               | progress replace (k + (n + 1) <=? 0) with false by lia | progress cbn].
  replace (k + (n + 1) - 1) with (k + n) by lia.
  rewrite ?list_insert_insert_eq.
  destruct (Z.eqb_spec n 0) as [->|Hne].
  - rewrite Z.add_0_r. destruct (Z.eqb_spec k 0) as [->|Hk]; cbn.
    + destruct (Z.eqb_spec (Z.land sst XSTATUS_SIE) 0) as [He|He]; cbn.
      * by rewrite sie_off_id.
      * by rewrite sie_on_id.
    + rewrite sie_off_id by (apply Hoff; lia). done.
  - replace (k + n =? 0) with false by lia. done.
Qed.
End Critical.

Lemma nested_cur n h c :
  cur_cpu h = Some c -> cur_cpu (nested n h) = Some (nest n (Z.land (hw_sstatus h) XSTATUS_SIE) c).
Proof.
  intros Hc. unfold nested. rewrite Hc. unfold cur_cpu in *; cbn.
  apply list_lookup_insert_eq. by eapply lookup_lt_Some.
Qed.

Lemma nested_wf n h : 0 <= n -> hw_wf h -> hw_wf (nested n h).
Proof.
  intros Hn0 [Htp (c & Hc & Hn & Hoff)]. split.
  { unfold nested. by rewrite Hc. }
  exists (nest n (Z.land (hw_sstatus h) XSTATUS_SIE) c).
  split; [by apply nested_cur|]. split; [cbn; lia|]. intros Hpos.
  unfold nested. rewrite Hc. cbn. destruct (Z.eqb_spec n 0) as [->|]; [|apply sie_cleared].
  apply Hoff. cbn in Hpos. lia.
Qed.

Lemma nested_nested n m h : 0 <= n -> 0 <= m -> hw_wf h -> nested m (nested n h) = nested (n + m) h.
Proof.
  intros Hn0 Hm0 [Htp (c & Hc & Hn & Hoff)]. unfold nested at 1.
  rewrite (nested_cur n h c Hc). unfold nested. rewrite Hc.
  destruct h as [tp sst sie cs ls], c as [cid pg mp oie k]. unfold cur_cpu in *.
  unfold nest. cbn in *.
  rewrite list_insert_insert_eq. f_equal.
  - destruct (Z.eqb_spec n 0), (Z.eqb_spec m 0), (Z.eqb_spec (n + m) 0); try lia; auto.
    apply sie_clear_twice.
  - f_equal. f_equal; [|lia].
    destruct (Z.eqb_spec k 0), (Z.eqb_spec (k + n) 0); try lia; auto.
    destruct (Z.eqb_spec n 0); [done|lia].
Qed.

Lemma nested_set_locks n ls h : nested n (set_locks ls h) = set_locks ls (nested n h).
Proof. unfold nested, cur_cpu; cbn. by destruct (hw_cpus h !! Z.to_nat (hw_tp h)). Qed.

Lemma nested_tp n h : hw_tp (nested n h) = hw_tp h.
Proof. unfold nested. by destruct (cur_cpu h). Qed.

Lemma nested_locks n h : hw_locks (nested n h) = hw_locks h.
Proof. unfold nested. by destruct (cur_cpu h). Qed.

Lemma nested_sie_off n h :
  0 < n -> hw_wf h -> Z.land (hw_sstatus (nested n h)) XSTATUS_SIE = 0.
Proof.
  intros Hn (_ & c & Hc & _). unfold nested. rewrite Hc. cbn.
  replace (n =? 0) with false by lia. apply sie_cleared.
Qed.

Lemma set_locks_wf ls h : hw_wf h -> hw_wf (set_locks ls h).
Proof. done. Qed.

Lemma set_locks_set_locks ls ls' h : set_locks ls (set_locks ls' h) = set_locks ls h.
Proof. done. Qed.

Lemma cpu_id_off h : Z.land (hw_sstatus h) XSTATUS_SIE = 0 -> cpu_id h = Ret (hw_tp h) h.
Proof. intros H. unfold cpu_id, intr_is_on, get_intr. mrung. by rewrite H. Qed.

Lemma tp_not_free h : hw_wf h -> (u64 (-1) =? hw_tp h) = false.
Proof. intros [[H0 H1] _]. change (u64 (-1)) with 18446744073709551615. unfold MAX_CPU_NUM in H1. lia. Qed.

Lemma acquire_free h l :
  hw_wf h -> hw_locks h !! l = Some free_lock ->
  acquire_spin_lock l h =
  Ret tt (set_locks (<[l := mk_spin_lock 1 (hw_tp h)]> (hw_locks h)) (nested 1 h)).
Proof.
  intros Hwf Hl. unfold acquire_spin_lock, check_not_hold, read_lock, write_lock.
  rewrite (bind_Ret _ _ _ _ _ (push_introff_nested1 h Hwf)).
  mrung. rewrite nested_locks, Hl. cbn.
  rewrite cpu_id_off by (apply nested_sie_off; [lia|done]). cbn.
  rewrite nested_tp, tp_not_free by done. cbn. rewrite nested_locks, Hl. cbn.
  rewrite cpu_id_off by (apply nested_sie_off; [lia|done]). cbn.
  rewrite nested_tp, insert_insert_eq, set_locks_set_locks. by rewrite nested_locks.
Qed.

(** Re-acquiring a lock this hart holds panics; a lock held by another hart is
    waited for. *)
Lemma acquire_holding h l v :
  hw_wf h -> hw_locks h !! l = Some (mk_spin_lock v (hw_tp h)) ->
  acquire_spin_lock l h = Panic "check_not_hold: acquired holding lock".
Proof.
  intros Hwf Hl. unfold acquire_spin_lock, check_not_hold, read_lock, write_lock.
  rewrite (bind_Ret _ _ _ _ _ (push_introff_nested1 h Hwf)).
  mrung. rewrite nested_locks, Hl. cbn.
  rewrite cpu_id_off by (apply nested_sie_off; [lia|done]). cbn.
  by rewrite nested_tp, Z.eqb_refl.
Qed.

Lemma acquire_other h l id :
  hw_wf h -> hw_locks h !! l = Some (mk_spin_lock 1 id) -> id <> hw_tp h ->
  acquire_spin_lock l h = Spin.
Proof.
  intros Hwf Hl Hne. unfold acquire_spin_lock, check_not_hold, read_lock, write_lock.
  rewrite (bind_Ret _ _ _ _ _ (push_introff_nested1 h Hwf)).
  mrung. rewrite nested_locks, Hl. cbn.
  rewrite cpu_id_off by (apply nested_sie_off; [lia|done]). cbn.
  rewrite nested_tp. replace (id =? hw_tp h) with false by lia. cbn.
  by rewrite nested_locks, Hl.
Qed.

Lemma release_nested h l ls n :
  hw_wf h -> 0 <= n -> ls !! l = Some (mk_spin_lock 1 (hw_tp h)) ->
  release_spin_lock l (set_locks ls (nested (n + 1) h)) =
  Ret tt (set_locks (<[l := free_lock]> ls) (nested n h)).
Proof.
  intros Hwf Hn Hl. unfold release_spin_lock, check_hold, read_lock, write_lock.
  mrung. rewrite Hl. cbn.
  rewrite cpu_id_off by (apply (nested_sie_off (n + 1)); [lia|done]). cbn.
  rewrite nested_tp, Z.eqb_refl. cbn. rewrite Hl. cbn.
  rewrite insert_insert_eq. fold free_lock.
  replace (set_locks (<[l:=free_lock]> ls) (set_locks (<[l:=mk_spin_lock 1 (u64 (-1))]> ls)
       (set_locks ls (nested (n + 1) h))))
    with (nested (n + 1) (set_locks (<[l:=free_lock]> ls) h)) by (by rewrite nested_set_locks).
  rewrite pop_introff_nested by (by try apply set_locks_wf). by rewrite nested_set_locks.
Qed.

(** Releasing a free lock, or another hart's, panics. *)
Lemma release_not_held h l lk :
  hw_wf h -> Z.land (hw_sstatus h) XSTATUS_SIE = 0 -> hw_locks h !! l = Some lk ->
  lk <> mk_spin_lock 1 (hw_tp h) ->
  exists msg, release_spin_lock l h = Panic msg.
Proof.
  intros Hwf Hoff Hl Hne. unfold release_spin_lock, check_hold, read_lock, write_lock.
  mrung. rewrite Hl. cbn. destruct lk as [v id]; cbn.
  destruct (Z.eqb_spec v 1) as [->|]; cbn; [|eauto].
  rewrite cpu_id_off by done. cbn.
  destruct (Z.eqb_spec id (hw_tp h)) as [->|]; cbn; [by destruct Hne|eauto].
Qed.

(** *** Held locks *)

Definition remove_lock (l : lock_id) (L : list lock_id) : list lock_id := filter (fun x => x <> l) L.

Lemma lock_all_in tp L ls l : l ∈ L -> lock_all tp L ls !! l = Some (mk_spin_lock 1 tp).
Proof.
  induction L as [|x L IH]; intros Hin; [by rewrite elem_of_nil in Hin|]. cbn. destruct (decide (x = l)) as [->|Hne]; [apply lookup_insert_eq|].
  rewrite lookup_insert_ne by done. apply IH.
  apply elem_of_cons in Hin as [->|]; done.
Qed.

Lemma lock_all_notin tp L ls l : l ∉ L -> lock_all tp L ls !! l = ls !! l.
Proof.
  induction L as [|x L IH]; [done|]. intros Hin. cbn.
  rewrite lookup_insert_ne by set_solver. apply IH. set_solver.
Qed.

Lemma lock_all_cons tp l L ls :
  lock_all tp (l :: L) ls = <[l := mk_spin_lock 1 tp]> (lock_all tp L ls).
Proof. done. Qed.

Lemma remove_lock_cons_eq l L : remove_lock l (l :: L) = remove_lock l L.
Proof. unfold remove_lock. by rewrite filter_cons_False by auto. Qed.

Lemma remove_lock_cons_ne l x L : x <> l -> remove_lock l (x :: L) = x :: remove_lock l L.
Proof. intros H. unfold remove_lock. by rewrite filter_cons_True by done. Qed.

Lemma remove_lock_notin l L : l ∉ L -> remove_lock l L = L.
Proof.
  induction L as [|x L IH]; intros Hn; [done|].
  rewrite remove_lock_cons_ne by set_solver. by rewrite IH by set_solver.
Qed.

Lemma lock_all_release tp L ls l :
  ls !! l = Some free_lock -> <[l := free_lock]> (lock_all tp L ls) = lock_all tp (remove_lock l L) ls.
Proof.
  intros Hl. induction L as [|x L IH]; [by apply insert_id|].
  destruct (decide (x = l)) as [->|Hne].
  - by rewrite lock_all_cons, insert_insert_eq, IH, remove_lock_cons_eq.
  - rewrite remove_lock_cons_ne, !lock_all_cons by done.
    by rewrite insert_insert_ne, IH by done.
Qed.

Lemma length_remove_lock l L : NoDup L -> l ∈ L -> length L = S (length (remove_lock l L)).
Proof.
  induction L as [|x L IH]; intros HND Hin; [by destruct (not_elem_of_nil l)|].
  apply NoDup_cons in HND as [Hx HL]. destruct (decide (x = l)) as [->|Hne].
  - by rewrite remove_lock_cons_eq, remove_lock_notin.
  - rewrite remove_lock_cons_ne by done. cbn. f_equal. apply IH; [done|set_solver].
Qed.

(** A hart whose locks [Ls] are all free: the starting point of a kernel call. *)
Definition locks_free (Ls : list lock_id) (h : hw) : Prop :=
  forall l, l ∈ Ls -> hw_locks h !! l = Some free_lock.

Section Held.
Variable h : hw.
Hypothesis Hwf : hw_wf h.

Lemma held_wf k L : hw_wf (held_hw k L h).
Proof. apply set_locks_wf, nested_wf; [lia|done]. Qed.

Lemma held_tp k L : hw_tp (held_hw k L h) = hw_tp h.
Proof. apply nested_tp. Qed.

Lemma held_sie_off k L :
  (0 < k + length L)%nat -> Z.land (hw_sstatus (held_hw k L h)) XSTATUS_SIE = 0.
Proof. intros. apply (nested_sie_off (Z.of_nat (k + length L))); [lia|done]. Qed.

Lemma held_free k L l :
  hw_locks h !! l = Some free_lock -> l ∉ L -> hw_locks (held_hw k L h) !! l = Some free_lock.
Proof. intros Hl Hn. cbn. by rewrite lock_all_notin. Qed.

Lemma cpu_id_held k L :
  (0 < k + length L)%nat -> cpu_id (held_hw k L h) = Ret (hw_tp h) (held_hw k L h).
Proof. intros. rewrite cpu_id_off by by apply held_sie_off. by rewrite held_tp. Qed.

Lemma push_held k L : push_introff (held_hw k L h) = Ret tt (held_hw (S k) L h).
Proof.
  rewrite push_introff_nested1 by apply held_wf. f_equal. unfold held_hw.
  rewrite nested_set_locks, nested_nested by (done || lia).
  f_equal. f_equal. lia.
Qed.

Lemma push_first : push_introff h = Ret tt (held_hw 1 [] h).
Proof.
  rewrite push_introff_nested1 by done. f_equal. unfold held_hw. cbn.
  rewrite <- nested_set_locks. by destruct h.
Qed.

Lemma pop_held k L : pop_introff (held_hw (S k) L h) = Ret tt (held_hw k L h).
Proof.
  unfold held_hw. rewrite <- !nested_set_locks.
  replace (Z.of_nat (S k + length L)) with (Z.of_nat (k + length L) + 1) by lia.
  apply pop_introff_nested; [by apply set_locks_wf|lia].
Qed.

Lemma acquire_held k L l :
  hw_locks h !! l = Some free_lock -> l ∉ L ->
  acquire_spin_lock l (held_hw k L h) = Ret tt (held_hw k (l :: L) h).
Proof.
  intros Hl Hn. rewrite acquire_free by (apply held_wf || by apply held_free).
  f_equal. unfold held_hw. rewrite nested_set_locks, nested_nested by (done || lia).
  rewrite set_locks_set_locks. cbn. rewrite nested_tp. f_equal. f_equal. lia.
Qed.

Lemma acquire_first l :
  hw_locks h !! l = Some free_lock ->
  acquire_spin_lock l h = Ret tt (held_hw 0 [l] h).
Proof. intros Hl. rewrite acquire_free by done. f_equal. Qed.

Lemma release_held k L l :
  hw_locks h !! l = Some free_lock -> NoDup L -> l ∈ L ->
  release_spin_lock l (held_hw k L h) = Ret tt (held_hw k (remove_lock l L) h).
Proof.
  intros Hl HND Hin. unfold held_hw.
  rewrite (length_remove_lock l L) by done.
  replace (Z.of_nat (k + S (length (remove_lock l L))))
    with (Z.of_nat (k + length (remove_lock l L)) + 1) by lia.
  rewrite release_nested by (done || lia || by apply lock_all_in).
  by rewrite lock_all_release.
Qed.

(** The whole of a one-lock critical section. *)
Lemma release_one k l :
  hw_locks h !! l = Some free_lock ->
  release_spin_lock l (held_hw k [l] h) = Ret tt (held_hw k [] h).
Proof.
  intros Hl. rewrite release_held by (done || apply NoDup_singleton || set_solver).
  by rewrite remove_lock_cons_eq.
Qed.

Lemma release_settle l :
  hw_locks h !! l = Some free_lock ->
  release_spin_lock l (held_hw 0 [l] h) = Ret tt (settle h).
Proof. apply release_one. Qed.

Lemma read_cpu_held k L c :
  cur_cpu h = Some c ->
  read_cpu (hw_tp h) (held_hw k L h) =
  Ret (nest (Z.of_nat (k + length L)) (Z.land (hw_sstatus h) XSTATUS_SIE) c) (held_hw k L h).
Proof.
  intros Hc. pose proof (nested_cur (Z.of_nat (k + length L)) h c Hc) as Hcur.
  unfold cur_cpu in Hcur. rewrite nested_tp in Hcur.
  unfold read_cpu, gets, held_hw, lift_opt, mbind, M_bind. cbn [obind hw_cpus set_locks].
  by rewrite Hcur.
Qed.

Lemma my_proc_held k L c :
  cur_cpu h = Some c -> my_proc (held_hw k L h) = Ret (c_my_proc c) (held_hw k L h).
Proof.
  intros Hc. unfold my_proc, my_cpu.
  rewrite (bind_Ret _ _ _ _ _ (push_held k L)).
  rewrite (bind_Ret _ _ _ _ _ (cpu_id_held (S k) L ltac:(lia))).
  rewrite (bind_Ret _ _ _ _ _ (read_cpu_held (S k) L c Hc)).
  by rewrite (bind_Ret _ _ _ _ _ (pop_held k L)).
Qed.

Lemma my_proc_first c :
  cur_cpu h = Some c -> my_proc h = Ret (c_my_proc c) (settle h).
Proof.
  intros Hc. pose proof (my_proc_held 0 [] c Hc) as H. unfold my_proc in *.
  rewrite (bind_Ret _ _ _ _ _ push_first).
  by rewrite (bind_Ret _ _ _ _ _ (push_held 0 [])) in H.
Qed.
End Held.

Lemma settle_wf h : hw_wf h -> hw_wf (settle h).
Proof. intros. by apply held_wf. Qed.

Lemma settle_locks h : hw_locks (settle h) = hw_locks h.
Proof. done. Qed.

Lemma settle_tp h : hw_tp (settle h) = hw_tp h.
Proof. apply nested_tp. Qed.

Lemma held_settle k L h : hw_wf h -> held_hw k L (settle h) = held_hw k L h.
Proof.
  intros Hwf. unfold settle, held_hw at 1 2. cbn.
  change (Z.of_nat 0) with 0. rewrite nested_set_locks, nested_nested by (done || lia).
  rewrite set_locks_set_locks, nested_tp. done.
Qed.

Lemma settle_settle h : hw_wf h -> settle (settle h) = settle h.
Proof. apply held_settle. Qed.
