(* ===== verification/SpinLock.v ===== *)
(** * What spin locks promise: kernel/lock/spin_lock.c, kernel/trap/introff.c

    On one hart: sequences of [acquire_spin_lock], [release_spin_lock],
    [push_introff] and [pop_introff] behave as a nesting depth and a set of held
    locks.  Between harts: the atomic steps of the two lock functions, interleaved
    in any order, keep the lock exclusive. *)

From S2P Require Import Prelude Hart.

(** ** One hart *)

Inductive lop := LAcq (l : lock_id) | LRel (l : lock_id) | LPush | LPop.

Definition run_lop (o : lop) : M hw unit :=
  match o with
  | LAcq l => acquire_spin_lock l
  | LRel l => release_spin_lock l
  | LPush => push_introff
  | LPop => pop_introff
  end.

Fixpoint run_lops (os : list lop) : M hw unit :=
  match os with [] => mret tt | o :: os' => run_lop o ;; run_lops os' end.

(** The abstract state: open [push_introff]s and held locks.  [None]: misuse. *)
Definition crit : Type := nat * list lock_id.

Definition abs_lop (o : lop) (c : crit) : option crit :=
  let '(k, L) := c in
  match o with
  | LAcq l => if decide (l ∈ L) then None else Some (k, l :: L)
  | LRel l => if decide (l ∈ L) then Some (k, remove_lock l L) else None
  | LPush => Some (S k, L)
  | LPop => match k with S k' => Some (k', L) | O => None end
  end.

Fixpoint abs_lops (os : list lop) (c : crit) : option crit :=
  match os with [] => Some c | o :: os' => c' ← abs_lop o c; abs_lops os' c' end.

Definition lop_lock (o : lop) : list lock_id :=
  match o with LAcq l | LRel l => [l] | _ => [] end.

Lemma NoDup_remove_lock l L : NoDup L -> NoDup (remove_lock l L).
Proof. apply NoDup_filter. Qed.

Section OneHart.
Variable h : hw.
Hypothesis Hwf : hw_wf h.

Lemma run_lop_held o k L k' L' :
  locks_free (lop_lock o) h -> NoDup L -> abs_lop o (k, L) = Some (k', L') ->
  run_lop o (held_hw k L h) = Ret tt (held_hw k' L' h) /\ NoDup L'.
Proof.
  intros Hf HND. destruct o as [l|l| |]; cbn.
  - case_decide as Hin; intros [= <- <-]. split; [|by constructor].
    apply acquire_held; [done| |done]. apply Hf. set_solver.
  - case_decide as Hin; intros [= <- <-]. split; [|by apply NoDup_remove_lock].
    apply release_held; [done| |done|done]. apply Hf. set_solver.
  - intros [= <- <-]. split; [by apply push_held|done].
  - destruct k as [|k0]; intros [= <- <-]. split; [by apply pop_held|done].
Qed.

Lemma run_lops_held os : forall k L k' L',
  locks_free (concat (map lop_lock os)) h -> NoDup L ->
  abs_lops os (k, L) = Some (k', L') ->
  run_lops os (held_hw k L h) = Ret tt (held_hw k' L' h).
Proof.
  induction os as [|o os IH]; intros k L k' L' Hf HND; cbn [abs_lops run_lops].
  - by intros [= <- <-].
  - destruct (abs_lop o (k, L)) as [[k1 L1]|] eqn:E; [|done]. cbn.
    destruct (run_lop_held o k L k1 L1) as [H1 HND1]; [|done|done|].
    { intros l Hl. apply Hf. cbn. set_solver. }
    intros H2. rewrite (bind_Ret _ _ _ _ _ H1). apply IH; [|done|done].
    intros l Hl. apply Hf. cbn. set_solver.
Qed.

(** The first operation finds the hart as it is. *)
Lemma run_lop_first o k L :
  locks_free (lop_lock o) h -> abs_lop o (0%nat, []) = Some (k, L) ->
  run_lop o h = Ret tt (held_hw k L h) /\ NoDup L.
Proof.
  intros Hf. destruct o as [l|l| |]; cbn.
  - rewrite decide_False by apply not_elem_of_nil. intros [= <- <-].
    split; [|apply NoDup_singleton]. apply acquire_first; [done|]. apply Hf. set_solver.
  - by rewrite decide_False by apply not_elem_of_nil.
  - intros [= <- <-]. split; [by apply push_first|constructor].
  - done.
Qed.

Lemma held_sstatus k L :
  hw_sstatus (held_hw k L h) =
  if (k + length L =? 0)%nat then hw_sstatus h else Z.land (hw_sstatus h) (Z.lnot XSTATUS_SIE).
Proof.
  destruct Hwf as (_ & c & Hc & _). unfold held_hw, nested. cbn. rewrite Hc. cbn.
  destruct (Nat.eqb_spec (k + length L) 0) as [->|Hne]; [done|].
  destruct (Z.eqb_spec (Z.of_nat (k + length L)) 0); [lia|done].
Qed.
End OneHart.

(** C26: used with discipline (no lock acquired twice, only held locks released, no
    more pops than pushes), the spin locks and the interrupt nesting of a hart work
    as one counter and one set: the calls never panic, spin or deadlock on free
    locks; while a lock is held or a push is open interrupts are off; after the
    last one, in whatever order they were released, the interrupt enable is what it
    was and every lock is free again. *)
Theorem lock_discipline h os k L :
  hw_wf h -> os <> [] -> locks_free (concat (map lop_lock os)) h ->
  abs_lops os (0%nat, []) = Some (k, L) ->
  run_lops os h = Ret tt (held_hw k L h) /\
  hw_sstatus (held_hw k L h) =
    (if (k + length L =? 0)%nat then hw_sstatus h
     else Z.land (hw_sstatus h) (Z.lnot XSTATUS_SIE)) /\
  (forall l, hw_locks (held_hw k L h) !! l =
     if decide (l ∈ L) then Some (mk_spin_lock 1 (hw_tp h)) else hw_locks h !! l).
Proof.
  intros Hwf Hne Hf Ha. split_and!.
  - destruct os as [|o os]; [done|]. cbn [abs_lops] in Ha.
    destruct (abs_lop o (0%nat, [])) as [[k1 L1]|] eqn:E; [|done].
    destruct (run_lop_first h Hwf o k1 L1) as [H1 HND]; [|done|].
    { intros l Hl. apply Hf. cbn. set_solver. }
    cbn [run_lops]. rewrite (bind_Ret _ _ _ _ _ H1).
    eapply run_lops_held; [done| |done|exact Ha].
    intros l Hl. apply Hf. cbn. set_solver.
  - by apply held_sstatus.
  - intros l. cbn. case_decide; [by apply lock_all_in|by apply lock_all_notin].
Qed.

(** misuse stops the machine: acquiring a lock this hart already holds and
    releasing one it does not hold (free, or held by another hart) panic. *)
Theorem lock_misuse_panics h l lk :
  hw_wf h -> hw_locks h !! l = Some lk ->
  (sl_cpu_id lk = hw_tp h ->
   acquire_spin_lock l h = Panic "check_not_hold: acquired holding lock") /\
  (Z.land (hw_sstatus h) XSTATUS_SIE = 0 -> lk <> mk_spin_lock 1 (hw_tp h) ->
   exists msg, release_spin_lock l h = Panic msg).
Proof.
  intros Hwf Hl. split.
  - intros Hid. destruct lk as [v id]; cbn in Hid; subst. by eapply acquire_holding.
  - intros Hoff Hne. by eapply release_not_held.
Qed.

(** ** Many harts

    The shared fields of one lock and, per hart, the place it has reached in
    [acquire_spin_lock] or [release_spin_lock].  Every read or write of a shared
    field is one step; [push_introff] and [pop_introff] touch only the hart's own
    state and are part of the step next to them. *)

Inductive lock_pc :=
| Outside        (** not using the lock *)
| Entering       (** in [acquire_spin_lock], before [check_not_hold] *)
| Spinning       (** at the test-and-set *)
| Taken          (** test-and-set done, [cpu_id] not yet written *)
| Inside         (** in the critical section *)
| Leaving        (** [check_hold] has read [locked] *)
| Leaving2       (** [check_hold] has read [cpu_id] *)
| Cleared        (** [cpu_id] reset, [locked] still set *)
| Panicked.

#[export] Instance lock_pc_eq_dec : EqDecision lock_pc.
Proof. solve_decision. Defined.

Record shared_lock := mk_shared_lock { sh_lock : spin_lock; sh_pcs : list lock_pc }.

Definition no_cpu : Z := u64 (-1).

(** The next step of hart [i] at [pc], as a function of the lock's fields. *)
Definition lock_step (i : nat) (pc : lock_pc) (lk : spin_lock) : lock_pc * spin_lock :=
  match pc with
  | Outside => (Entering, lk)
  | Entering => (if sl_cpu_id lk =? Z.of_nat i then Panicked else Spinning, lk)
  | Spinning => (if sl_locked lk =? 0 then Taken else Spinning, mk_spin_lock 1 (sl_cpu_id lk))
  | Taken => (Inside, mk_spin_lock (sl_locked lk) (Z.of_nat i))
  | Inside => (if negb (sl_locked lk =? 1) then Panicked else Leaving, lk)
  | Leaving => (if negb (sl_cpu_id lk =? Z.of_nat i) then Panicked else Leaving2, lk)
  | Leaving2 => (Cleared, mk_spin_lock (sl_locked lk) no_cpu)
  | Cleared => (Outside, mk_spin_lock 0 (sl_cpu_id lk))
  | Panicked => (Panicked, lk)
  end.

Definition hart_step (s : shared_lock) (i : nat) : shared_lock :=
  match sh_pcs s !! i with
  | None => s
  | Some pc =>
      let '(pc', lk') := lock_step i pc (sh_lock s) in
      mk_shared_lock lk' (<[i := pc']> (sh_pcs s))
  end.

(** A schedule says which hart moves next. *)
Definition run_schedule (sched : list nat) (s : shared_lock) : shared_lock :=
  foldl hart_step s sched.

Definition lock_initial : shared_lock :=
  mk_shared_lock free_lock (replicate (Z.to_nat MAX_CPU_NUM) Outside).

(** The harts that have won the test-and-set and not yet given the lock back. *)
Definition owns (pc : lock_pc) : bool :=
  match pc with Taken | Inside | Leaving | Leaving2 | Cleared => true | _ => false end.

(** What the lock's fields say at each place of its owner. *)
Definition owner_id (i : nat) (pc : lock_pc) : Z :=
  match pc with Inside | Leaving | Leaving2 => Z.of_nat i | _ => no_cpu end.

Record mutex_inv (s : shared_lock) : Prop := {
  mi_len : length (sh_pcs s) = Z.to_nat MAX_CPU_NUM;
  mi_excl : forall i j pi pj, sh_pcs s !! i = Some pi -> sh_pcs s !! j = Some pj ->
    owns pi = true -> owns pj = true -> i = j;
  mi_owned : forall i pc, sh_pcs s !! i = Some pc -> owns pc = true ->
    sh_lock s = mk_spin_lock 1 (owner_id i pc);
  mi_free : (forall i pc, sh_pcs s !! i = Some pc -> owns pc = false) -> sh_lock s = free_lock;
  mi_sane : forall i pc, sh_pcs s !! i = Some pc -> pc <> Panicked }.

Lemma mutex_initial : mutex_inv lock_initial.
Proof.
  assert (forall i pc, replicate (Z.to_nat MAX_CPU_NUM) Outside !! i = Some pc -> pc = Outside) as H.
  { intros i pc Hp. by apply lookup_replicate in Hp as [-> _]. }
  split; cbn [sh_pcs sh_lock lock_initial].
  - apply length_replicate.
  - intros i j pi pj Hi Hj. apply H in Hi as ->. done.
  - intros i pc Hi. apply H in Hi as ->. done.
  - done.
  - intros i pc Hi. apply H in Hi as ->. done.
Qed.

(** Either some hart owns the lock or it is free. *)
Lemma owner_dec (pcs : list lock_pc) :
  (exists i pc, pcs !! i = Some pc /\ owns pc = true) \/
  (forall i pc, pcs !! i = Some pc -> owns pc = false).
Proof.
  destruct (decide (Exists (fun pc => owns pc = true) pcs)) as [He|Hn].
  - left. apply Exists_exists in He as (pc & Hin & Ho).
    apply list_elem_of_lookup in Hin as [i Hi]. eauto.
  - right. intros i pc Hi. destruct (owns pc) eqn:E; [|done]. destruct Hn.
    apply Exists_exists. exists pc. split; [by eapply list_elem_of_lookup_2|done].
Qed.

Section MutexStep.
Variables (s : shared_lock) (i : nat) (pc : lock_pc).
Hypothesis Hinv : mutex_inv s.
Hypothesis Hi : sh_pcs s !! i = Some pc.

Definition others (P : nat -> lock_pc -> Prop) : Prop :=
  forall j pj, j <> i -> sh_pcs s !! j = Some pj -> P j pj.

(** What a step has to establish of the new place and the new fields. *)
Lemma mutex_move pc' lk' :
  pc' <> Panicked ->
  (owns pc' = true -> others (fun _ pj => owns pj = false) /\ lk' = mk_spin_lock 1 (owner_id i pc')) ->
  (owns pc' = false ->
     others (fun j pj => owns pj = true -> lk' = mk_spin_lock 1 (owner_id j pj)) /\
     (others (fun _ pj => owns pj = false) -> lk' = free_lock)) ->
  mutex_inv (mk_shared_lock lk' (<[i := pc']> (sh_pcs s))).
Proof.
  intros Hp Ho Hn. destruct Hinv as [Hlen Hex Hown Hfree Hsane].
  assert (forall j pj, <[i := pc']> (sh_pcs s) !! j = Some pj ->
            (j = i /\ pj = pc') \/ (j <> i /\ sh_pcs s !! j = Some pj)) as Hlook.
  { intros j pj Hj. apply list_lookup_insert_Some in Hj as [(<- & <- & _)|[Hne Hj]]; auto. }
  split; cbn [sh_pcs sh_lock].
  - by rewrite length_insert.
  - intros j j' pj pj' Hj Hj' Oj Oj'.
    apply Hlook in Hj as [[-> ->]|[Hne Hj]]; apply Hlook in Hj' as [[-> ->]|[Hne' Hj']]; try done.
    + destruct (Ho Oj) as [Hoth _]. by rewrite (Hoth _ _ Hne' Hj') in Oj'.
    + destruct (Ho Oj') as [Hoth _]. by rewrite (Hoth _ _ Hne Hj) in Oj.
    + by eapply Hex.
  - intros j pj Hj Oj. apply Hlook in Hj as [[-> ->]|[Hne Hj]]; [by apply Ho|].
    destruct (owns pc') eqn:E.
    + destruct (Ho eq_refl) as [Hoth _]. by rewrite (Hoth _ _ Hne Hj) in Oj.
    + by apply (Hn eq_refl).
  - intros Hnone. assert (owns pc' = false) as E.
    { apply (Hnone i). apply list_lookup_insert_eq. by eapply lookup_lt_Some. }
    apply (Hn E). intros j pj Hne Hj. apply (Hnone j). by rewrite list_lookup_insert_ne.
  - intros j pj Hj. apply Hlook in Hj as [[-> ->]|[_ Hj]]; [done|by eapply Hsane].
Qed.

Lemma others_idle : owns pc = true -> others (fun _ pj => owns pj = false).
Proof.
  intros Ho j pj Hne Hj. destruct (owns pj) eqn:E; [|done].
  destruct Hne. by eapply (mi_excl s Hinv).
Qed.

Lemma nobody : owns pc = false -> others (fun _ pj => owns pj = false) -> sh_lock s = free_lock.
Proof.
  intros Ho Hoth. apply (mi_free s Hinv). intros j pj Hj. destruct (decide (j = i)) as [->|Hne].
  - congruence.
  - by eapply Hoth.
Qed.

Lemma hart_lt : Z.of_nat i < MAX_CPU_NUM.
Proof. apply lookup_lt_Some in Hi. rewrite (mi_len s Hinv) in Hi. unfold MAX_CPU_NUM in *. lia. Qed.

(** Moving without changing the lock or its ownership. *)
Lemma mutex_stay pc' :
  pc' <> Panicked -> owns pc = false -> owns pc' = false ->
  mutex_inv (mk_shared_lock (sh_lock s) (<[i := pc']> (sh_pcs s))).
Proof.
  intros Hp Ho Ho'. apply mutex_move; [done|by rewrite Ho'|]. intros _. split.
  - intros j pj _ Hj Oj. by apply (mi_owned s Hinv).
  - by apply nobody.
Qed.

(** The owner moves on and stays the owner. *)
Lemma mutex_own pc' :
  pc' <> Panicked -> owns pc = true -> owns pc' = true ->
  mutex_inv (mk_shared_lock (mk_spin_lock 1 (owner_id i pc')) (<[i := pc']> (sh_pcs s))).
Proof.
  intros Hp Ho Ho'. apply mutex_move; [done| |by rewrite Ho'].
  intros _. split; [by apply others_idle|done].
Qed.

Lemma entering_ok : owns pc = false -> sl_cpu_id (sh_lock s) <> Z.of_nat i.
Proof.
  intros Ho Hid. pose proof hart_lt as Hlt. unfold MAX_CPU_NUM in Hlt.
  assert (no_cpu = 18446744073709551615) as Hno by reflexivity.
  destruct (owner_dec (sh_pcs s)) as [(j & pj & Hj & Oj)|Hfree].
  - rewrite (mi_owned s Hinv j pj Hj Oj) in Hid. cbn [sl_cpu_id] in Hid.
    destruct (decide (j = i)) as [->|Hne]; [congruence|].
    destruct pj; cbn [owner_id] in Hid; lia.
  - rewrite (mi_free s Hinv Hfree) in Hid. change (sl_cpu_id free_lock) with no_cpu in Hid. lia.
Qed.

End MutexStep.

Lemma mutex_step_at s i pc :
  mutex_inv s -> sh_pcs s !! i = Some pc -> mutex_inv (hart_step s i).
Proof.
  intros Hinv Hi. unfold hart_step. rewrite Hi. pose proof (mi_owned s Hinv i pc Hi) as Hown.
  pose proof (mutex_stay s i pc Hinv Hi) as Hstay. pose proof (mutex_own s i pc Hinv Hi) as Hgo.
  pose proof (entering_ok s i pc Hinv Hi) as Henter. pose proof (mutex_move s i pc Hinv Hi) as Hmove.
  pose proof (others_idle s i pc Hinv Hi) as Hidle.
  destruct pc; cbn [lock_step owns] in *.
  - by apply Hstay.
  - rewrite (proj2 (Z.eqb_neq _ _)) by by apply Henter. by apply Hstay.
  - destruct (owner_dec (sh_pcs s)) as [(j & pj & Hj & Oj)|Hfree].
    + rewrite (mi_owned s Hinv j pj Hj Oj). cbn. rewrite <- (mi_owned s Hinv j pj Hj Oj).
      by apply Hstay.
    + rewrite (mi_free s Hinv Hfree). cbn. apply Hmove; [done| |done].
      intros _. split; [|done]. intros j pj _. apply Hfree.
  - rewrite (Hown eq_refl). cbn. by apply (Hgo Inside).
  - rewrite (Hown eq_refl). cbn. by apply (Hgo Leaving).
  - rewrite (Hown eq_refl). cbn. rewrite Z.eqb_refl. cbn. by apply (Hgo Leaving2).
  - rewrite (Hown eq_refl). cbn. by apply (Hgo Cleared).
  - rewrite (Hown eq_refl). cbn. apply Hmove; [done|done|]. intros _. split; [|done].
    intros j pj Hne Hj Oj. by rewrite (Hidle eq_refl j pj Hne Hj) in Oj.
  - by destruct (mi_sane s Hinv i Panicked).
Qed.

Lemma mutex_step s i : mutex_inv s -> mutex_inv (hart_step s i).
Proof.
  intros Hinv. destruct (sh_pcs s !! i) as [pc|] eqn:Hi; [by eapply mutex_step_at|].
  unfold hart_step. by rewrite Hi.
Qed.

Lemma mutex_run sched : forall s, mutex_inv s -> mutex_inv (run_schedule sched s).
Proof. induction sched as [|i sched IH]; intros s H; [done|]. apply IH. by apply mutex_step. Qed.

(** C21: under every interleaving of the harts' atomic steps, at most one hart is
    between its winning test-and-set and the end of its release; the debug checks
    of the code never fire on a hart that uses the lock properly (nobody panics,
    even though [cpu_id] is read without the lock); the lock's fields always say
    who is inside; and when nobody is, the next hart to try takes the lock. *)
Theorem spin_lock_mutex sched i j pi pj :
  let s := run_schedule sched lock_initial in
  sh_pcs s !! i = Some pi -> sh_pcs s !! j = Some pj ->
  pi <> Panicked /\
  (owns pi = true -> sh_lock s = mk_spin_lock 1 (owner_id i pi)) /\
  (owns pi = true -> owns pj = true -> i = j) /\
  (pi = Spinning -> (forall k pk, sh_pcs s !! k = Some pk -> owns pk = false) ->
   sh_pcs (hart_step s i) !! i = Some Taken).
Proof.
  cbn zeta. intros Hi Hj. pose proof (mutex_run sched _ mutex_initial) as H. split_and!.
  - by eapply mi_sane.
  - intros Ho. by eapply mi_owned.
  - intros Ho Ho'. by eapply mi_excl.
  - intros -> Hfree. unfold hart_step. rewrite Hi. cbn [lock_step].
    rewrite (mi_free _ H Hfree). cbn. apply list_lookup_insert_eq. by eapply lookup_lt_Some.
Qed.
