(* ===== verification/ListH.v ===== *)
(** * Circular doubly linked lists: include/util/list.h, kernel/util/list.c

    The intrusive [struct list_head] cells live in a heap from cells to their
    [next] and [prev] pointers.  [dll h head l] relates a heap to the sequence of
    entries of a list; the operations are proved to act on that sequence.

    The compiled configuration is the one of list_include.h: CONFIG_LIST_HARDENED,
    with [IS_ENABLED(x)] = 0, so the inline checks run and their slow path panics. *)

From S2P Require Import Prelude.

Section ListH.
Context {N : Type} `{Countable N} (LIST_POISON1 LIST_POISON2 : N).

Abbreviation heap := (gmap N (N * N)).

Definition get_next (n : N) : M heap N := h ← get; lift_opt (fst <$> h !! n).
Definition get_prev (n : N) : M heap N := h ← get; lift_opt (snd <$> h !! n).
Definition set_next (n v : N) : M heap unit :=
  _ ← get_next n; modify (alter (fun p => (v, snd p)) n).
Definition set_prev (n v : N) : M heap unit :=
  _ ← get_next n; modify (alter (fun p => (fst p, v)) n).

Definition INIT_LIST_HEAD (l : N) : M heap unit := set_next l l ;; set_prev l l.

Definition list_add_valid (new prev next : N) : M heap unit :=
  np ← get_prev next;
  pn ← get_next prev;
  if bool_decide (np = prev) && bool_decide (pn = next) && bool_decide (new <> prev)
     && bool_decide (new <> next)
  then mret tt else panic "__list_add_valid_or_report".

Definition list_del_entry_valid (entry : N) : M heap unit :=
  prev ← get_prev entry;
  next ← get_next entry;
  pn ← get_next prev;
  np ← get_prev next;
  if bool_decide (pn = entry) && bool_decide (np = entry)
  then mret tt else panic "__list_del_entry_valid_or_report".

Definition list_add_between (new prev next : N) : M heap unit :=
  list_add_valid new prev next ;;
  set_prev next new ;;
  set_next new next ;;
  set_prev new prev ;;
  set_next prev new.

Definition list_add (new head : N) : M heap unit :=
  next ← get_next head; list_add_between new head next.
Definition list_add_tail (new head : N) : M heap unit :=
  prev ← get_prev head; list_add_between new prev head.

Definition list_del_between (prev next : N) : M heap unit :=
  set_prev next prev ;; set_next prev next.
Definition list_del_entry (entry : N) : M heap unit :=
  list_del_entry_valid entry ;;
  prev ← get_prev entry;
  next ← get_next entry;
  list_del_between prev next.
Definition list_del (entry : N) : M heap unit :=
  list_del_entry entry ;;
  set_next entry LIST_POISON1 ;;
  set_prev entry LIST_POISON2.

Definition list_replace (old new : N) : M heap unit :=
  n ← get_next old; set_next new n ;;
  n ← get_next new; set_prev n new ;;
  p ← get_prev old; set_prev new p ;;
  p ← get_prev new; set_next p new.
Definition list_replace_init (old new : N) : M heap unit :=
  list_replace old new ;; INIT_LIST_HEAD old.
Definition list_swap (entry1 entry2 : N) : M heap unit :=
  pos ← get_prev entry2;
  list_del entry2 ;;
  list_replace entry1 entry2 ;;
  list_add entry1 (if bool_decide (pos = entry1) then entry2 else pos).
Definition list_del_init (entry : N) : M heap unit :=
  list_del_entry entry ;; INIT_LIST_HEAD entry.
Definition list_move (l head : N) : M heap unit := list_del_entry l ;; list_add l head.
Definition list_move_tail (l head : N) : M heap unit := list_del_entry l ;; list_add_tail l head.

Definition list_is_first (l head : N) : M heap bool :=
  p ← get_prev l; mret (bool_decide (p = head)).
Definition list_is_last (l head : N) : M heap bool :=
  n ← get_next l; mret (bool_decide (n = head)).
Definition list_is_head (l head : N) : bool := bool_decide (l = head).
Definition list_empty (head : N) : M heap bool :=
  n ← get_next head; mret (bool_decide (n = head)).
Definition list_rotate_left (head : N) : M heap unit :=
  e ← list_empty head;
  if (e : bool) then mret tt else first ← get_next head; list_move_tail first head.
Definition list_is_singular (head : N) : M heap bool :=
  e ← list_empty head;
  if (e : bool) then mret false else
  n ← get_next head; p ← get_prev head; mret (bool_decide (n = p)).

(** [list_for_each]: [fuel] bounds the number of entries. *)
Definition list_for_each {R} (fuel : nat) (head : N) (body : N -> M heap (option R)) : M heap (option R) :=
  first ← get_next head;
  while_loop fuel first (fun pos =>
    if list_is_head pos head then mret (inr None) else
    r ← body pos;
    match r with
    | Some v => mret (inr (Some v))
    | None => n ← get_next pos; mret (inl n)
    end).

Definition list_count_nodes (fuel : nat) (head : N) : M heap Z :=
  first ← get_next head;
  while_loop fuel (first, 0) (fun '(pos, count) =>
    if list_is_head pos head then mret (inr count) else
    n ← get_next pos; mret (inl (n, count + 1))).

(** ** The sequence a heap represents *)

Definition nxt (h : heap) (a b : N) : Prop := fst <$> h !! a = Some b.
Definition prv (h : heap) (a b : N) : Prop := snd <$> h !! a = Some b.

(** From cell [a] over the entries [l] to cell [b], with the way back. *)
Fixpoint seg (h : heap) (a : N) (l : list N) (b : N) : Prop :=
  match l with
  | [] => nxt h a b /\ prv h b a
  | x :: l' => nxt h a x /\ prv h x a /\ seg h x l' b
  end.

Definition dll (h : heap) (head : N) (l : list N) : Prop := NoDup (head :: l) /\ seg h head l head.

(** Heaps that differ only in the cells of [P]. *)
Definition same_cells (P : N -> Prop) (h h' : heap) : Prop := forall a, ~ P a -> h' !! a = h !! a.

Lemma seg_app h a l1 x l2 b : seg h a (l1 ++ x :: l2) b <-> seg h a l1 x /\ seg h x l2 b.
Proof. revert a. induction l1 as [|y l1 IH]; intros a; cbn; [tauto|]. rewrite IH. tauto. Qed.

Lemma seg_frame h h' a l b :
  (forall c, c ∈ a :: l -> forall d, nxt h c d -> nxt h' c d) ->
  (forall c, c ∈ l ++ [b] -> forall d, prv h c d -> prv h' c d) ->
  seg h a l b -> seg h' a l b.
Proof.
  revert a. induction l as [|x l IH]; intros a Hn Hp; cbn.
  - intros [H1 H2]. split; [apply Hn; [set_solver|done]|apply Hp; [set_solver|done]].
  - intros (H1 & H2 & H3). split_and!; [apply Hn; [set_solver|done]|apply Hp; [set_solver|done]|].
    apply IH; [intros; apply Hn; set_solver|intros; apply Hp; set_solver|done].
Qed.

Lemma get_next_eq h a b : nxt h a b -> get_next a h = Ret b h.
Proof. unfold nxt, get_next. mrung. by intros ->. Qed.
Lemma get_prev_eq h a b : prv h a b -> get_prev a h = Ret b h.
Proof. unfold prv, get_prev. mrung. by intros ->. Qed.

Definition upd_next (n v : N) (h : heap) : heap := alter (fun p => (v, snd p)) n h.
Definition upd_prev (n v : N) (h : heap) : heap := alter (fun p => (fst p, v)) n h.

Lemma set_next_eq h n v : is_Some (h !! n) -> set_next n v h = Ret tt (upd_next n v h).
Proof. intros [p Hp]. unfold set_next, get_next. mrung. by rewrite Hp. Qed.
Lemma set_prev_eq h n v : is_Some (h !! n) -> set_prev n v h = Ret tt (upd_prev n v h).
Proof. intros [p Hp]. unfold set_prev, get_next. mrung. by rewrite Hp. Qed.

Lemma nxt_upd_next h n v a b :
  nxt (upd_next n v h) a b <-> if decide (a = n) then is_Some (h !! n) /\ b = v else nxt h a b.
Proof.
  unfold nxt, upd_next. case_decide as E.
  - subst. rewrite lookup_alter_eq. destruct (h !! n); cbn; split; try done.
    + intros [= <-]. split; [by eexists|done].
    + by intros [_ ->].
    + intros [[? ?] _]. done.
  - by rewrite lookup_alter_ne.
Qed.
Lemma prv_upd_next h n v a b : prv (upd_next n v h) a b <-> prv h a b.
Proof.
  unfold prv, upd_next. destruct (decide (a = n)) as [->|]; [|by rewrite lookup_alter_ne].
  rewrite lookup_alter_eq. by destruct (h !! n).
Qed.
Lemma prv_upd_prev h n v a b :
  prv (upd_prev n v h) a b <-> if decide (a = n) then is_Some (h !! n) /\ b = v else prv h a b.
Proof.
  unfold prv, upd_prev. case_decide as E.
  - subst. rewrite lookup_alter_eq. destruct (h !! n); cbn; split; try done.
    + intros [= <-]. split; [by eexists|done].
    + by intros [_ ->].
    + intros [[? ?] _]. done.
  - by rewrite lookup_alter_ne.
Qed.
Lemma nxt_upd_prev h n v a b : nxt (upd_prev n v h) a b <-> nxt h a b.
Proof.
  unfold nxt, upd_prev. destruct (decide (a = n)) as [->|]; [|by rewrite lookup_alter_ne].
  rewrite lookup_alter_eq. by destruct (h !! n).
Qed.

Lemma is_Some_upd_next h n v a : is_Some (upd_next n v h !! a) <-> is_Some (h !! a).
Proof. unfold upd_next. by rewrite lookup_alter_is_Some. Qed.
Lemma is_Some_upd_prev h n v a : is_Some (upd_prev n v h !! a) <-> is_Some (h !! a).
Proof. unfold upd_prev. by rewrite lookup_alter_is_Some. Qed.

Lemma nxt_is_Some h a b : nxt h a b -> is_Some (h !! a).
Proof. unfold nxt. destruct (h !! a); [by eexists|done]. Qed.
Lemma prv_is_Some h a b : prv h a b -> is_Some (h !! a).
Proof. unfold prv. destruct (h !! a); [by eexists|done]. Qed.

(** ** Splicing a cell in and out *)

Definition added (new p n : N) (h : heap) : heap :=
  upd_next p new (upd_prev new p (upd_next new n (upd_prev n new h))).

Lemma add_between_eq h new p n :
  nxt h p n -> prv h n p -> new <> p -> new <> n -> is_Some (h !! new) ->
  list_add_between new p n h = Ret tt (added new p n h).
Proof.
  intros Hn Hp H1 H2 Hs. unfold list_add_between, list_add_valid, added.
  rewrite bind_eq. mret_rw (get_prev_eq _ _ _ Hp). mret_rw (get_next_eq _ _ _ Hn).
  rewrite !bool_decide_true by done. cbn [obind andb mret M_ret].
  mret_rw (set_prev_eq h n new (prv_is_Some _ _ _ Hp)).
  rewrite (bind_Ret _ _ _ _ _ (set_next_eq _ new n (proj2 (is_Some_upd_prev h n new new) Hs))).
  erewrite bind_Ret; [|apply set_prev_eq; by rewrite is_Some_upd_next, is_Some_upd_prev].
  apply set_next_eq. rewrite is_Some_upd_prev, is_Some_upd_next, is_Some_upd_prev.
  by eapply nxt_is_Some.
Qed.

Lemma nxt_added h new p n a b :
  is_Some (h !! p) -> is_Some (h !! new) ->
  nxt (added new p n h) a b <->
  if decide (a = p) then b = new else if decide (a = new) then b = n else nxt h a b.
Proof.
  intros Hp Hs. unfold added.
  rewrite nxt_upd_next. case_decide.
  { rewrite is_Some_upd_prev, is_Some_upd_next, is_Some_upd_prev. tauto. }
  rewrite nxt_upd_prev, nxt_upd_next. case_decide; [rewrite is_Some_upd_prev; tauto|].
  by rewrite nxt_upd_prev.
Qed.

Lemma prv_added h new p n a b :
  is_Some (h !! n) -> is_Some (h !! new) ->
  prv (added new p n h) a b <->
  if decide (a = new) then b = p else if decide (a = n) then b = new else prv h a b.
Proof.
  intros Hp Hs. unfold added.
  rewrite prv_upd_next, prv_upd_prev. case_decide.
  { rewrite is_Some_upd_next, is_Some_upd_prev. tauto. }
  rewrite prv_upd_next, prv_upd_prev. case_decide; tauto.
Qed.

Lemma same_cells_added h new p n : same_cells (fun a => a = new \/ a = p \/ a = n) h (added new p n h).
Proof.
  intros a Ha. unfold added, upd_next, upd_prev. by rewrite !lookup_alter_ne by naive_solver.
Qed.

Lemma seg_is_Some h a l b : seg h a l b -> is_Some (h !! a) /\ is_Some (h !! b).
Proof.
  revert a. induction l as [|x l IH]; intros a; cbn.
  - intros [Hn Hp]. split; [by eapply nxt_is_Some|by eapply prv_is_Some].
  - intros (Hn & _ & Hs). split; [by eapply nxt_is_Some|by eapply IH].
Qed.

(** The last edge of a segment. *)
Lemma seg_last h a l b :
  seg h a l b -> exists l' p, a :: l = l' ++ [p] /\ nxt h p b /\ prv h b p /\
    match l' with [] => p = a | c :: l0 => c = a /\ seg h a l0 p end.
Proof.
  revert a. induction l as [|x l IH]; intros a; cbn.
  - intros [Hn Hp]. by exists [], a.
  - intros (Hn & Hp & Hs). destruct (IH x Hs) as (l' & p & E & Hn' & Hp' & Hl').
    exists (a :: l'), p. cbn. rewrite <- E. split_and!; try done.
    destruct l' as [|c l0]; cbn in *; [subst p; done|]. destruct Hl' as [-> Hs']. done.
Qed.

(** [list_add] puts the cell at the front. *)
Lemma list_add_spec h head l new :
  dll h head l -> new ∉ head :: l -> is_Some (h !! new) ->
  exists h', list_add new head h = Ret tt h' /\ dll h' head (new :: l) /\
    same_cells (fun a => a = new \/ a ∈ head :: l) h h'.
Proof.
  intros [Hnd Hs] Hnew Hsome.
  assert (exists n, nxt h head n /\ prv h n head /\ n ∈ head :: l) as (n & Hn & Hp & Hin).
  { destruct l as [|x l]; cbn in Hs; [exists head; set_solver|exists x; set_solver]. }
  unfold list_add. mret_rw (get_next_eq _ _ _ Hn).
  rewrite (add_between_eq h new head n) by (done || set_solver).
  eexists. split; [done|]. split.
  2:{ intros a Ha. apply same_cells_added. set_solver. }
  assert (is_Some (h !! head)) as Hh by by eapply nxt_is_Some.
  assert (is_Some (h !! n)) as Hns by by eapply prv_is_Some.
  assert (NoDup (head :: new :: l)) as Hnd'.
  { apply NoDup_cons in Hnd as [H1 H2]. apply NoDup_cons. split; [set_solver|].
    apply NoDup_cons. set_solver. }
  split; [done|]. cbn. rewrite nxt_added, prv_added by done.
  rewrite !decide_True by done. split_and!; [done..|].
  apply NoDup_cons in Hnd as [Hhl Hnd].
  destruct l as [|x l]; cbn in *.
  - destruct Hs as [Hs1 Hs2]. assert (n = head) as -> by set_solver.
    rewrite nxt_added, prv_added by done.
    rewrite (decide_False (P := new = head)), (decide_True (P := new = new)),
      (decide_False (P := head = new)), decide_True by set_solver. done.
  - destruct Hs as (Hs1 & Hs2 & Hs3).
    assert (n = x) as -> by (unfold nxt in *; congruence).
    rewrite nxt_added, prv_added by done.
    rewrite (decide_False (P := new = head)), (decide_True (P := new = new)),
      (decide_False (P := x = new)), decide_True by set_solver.
    split_and!; [done..|]. apply NoDup_cons in Hnd as [Hxl Hnd].
    eapply seg_frame; [| |exact Hs3]; intros c Hc d Hd.
    + rewrite nxt_added by done. rewrite !decide_False by set_solver. done.
    + rewrite prv_added by done. rewrite !decide_False by set_solver. done.
Qed.

(** [list_add_tail] puts the cell at the back. *)
Lemma list_add_tail_spec h head l new :
  dll h head l -> new ∉ head :: l -> is_Some (h !! new) ->
  exists h', list_add_tail new head h = Ret tt h' /\ dll h' head (l ++ [new]) /\
    same_cells (fun a => a = new \/ a ∈ head :: l) h h'.
Proof.
  intros [Hnd Hs] Hnew Hsome.
  destruct (seg_last _ _ _ _ Hs) as (l' & p & E & Hn & Hp & Hl').
  assert (p ∈ head :: l) as Hin by (rewrite E; set_solver).
  unfold list_add_tail. mret_rw (get_prev_eq _ _ _ Hp).
  rewrite (add_between_eq h new p head) by (done || set_solver).
  assert (is_Some (h !! head)) as Hh by by eapply prv_is_Some.
  assert (is_Some (h !! p)) as Hps by by eapply nxt_is_Some.
  eexists. split; [done|]. split.
  2:{ intros a Ha. apply same_cells_added. set_solver. }
  split.
  { rewrite app_comm_cons. apply NoDup_app. split_and!; [done| |apply NoDup_singleton].
    intros c Hc ->%list_elem_of_singleton. done. }
  assert (nxt (added new p head h) p new /\ prv (added new p head h) new p /\
          nxt (added new p head h) new head /\ prv (added new p head h) head new) as (A1 & A2 & A3 & A4).
  { rewrite !nxt_added, !prv_added by done.
    rewrite (decide_False (P := new = p)), (decide_False (P := head = new)), !decide_True by set_solver. done. }
  destruct l' as [|c l0].
  - subst p. injection E as ->. cbn. done.
  - injection E as <- ->. destruct Hl' as [_ Hs0].
    rewrite <- app_assoc. cbn [app]. apply seg_app. cbn [seg]. split_and!; try done.
    apply NoDup_cons in Hnd as [Hh0 Hnd]. apply NoDup_app in Hnd as (_ & Hd & _).
    eapply seg_frame; [| |exact Hs0]; intros c Hc d Hcd.
    + rewrite nxt_added by done. rewrite !decide_False by set_solver. done.
    + rewrite prv_added by done. rewrite !decide_False by set_solver. done.
Qed.

(** [list_del_entry] takes a cell out, wherever it is. *)
Lemma list_del_entry_spec h head l1 x l2 :
  dll h head (l1 ++ x :: l2) ->
  exists h', list_del_entry x h = Ret tt h' /\ dll h' head (l1 ++ l2) /\ is_Some (h' !! x) /\
    same_cells (fun a => a ∈ head :: l1 ++ l2) h h'.
Proof.
  intros [Hnd Hs]. pose proof Hs as [Hs1 Hs2]%seg_app.
  destruct (seg_last _ _ _ _ Hs1) as (l' & p & E & Hn & Hp & Hl').
  assert (exists n, nxt h x n /\ prv h n x /\ match l2 with [] => n = head | y :: _ => n = y end)
    as (n & Hxn & Hnx & Hl2) by (destruct l2; cbn in Hs2; naive_solver).
  assert (p ∈ head :: l1) as Hpin by (rewrite E; set_solver).
  assert (n ∈ l2 ++ [head]) as Hnin by (destruct l2; set_solver).
  apply NoDup_cons in Hnd as [Hh0 Hnd]. apply NoDup_app in Hnd as (Hnd1 & Hd & Hnd2).
  apply NoDup_cons in Hnd2 as [Hx2 Hnd2].
  assert (is_Some (h !! p)) as Hps by by eapply nxt_is_Some.
  assert (is_Some (h !! n)) as Hns by by eapply prv_is_Some.
  set (h1 := upd_next p n (upd_prev n p h)).
  exists h1. split_and!.
  - unfold list_del_entry, list_del_entry_valid, list_del_between. rewrite bind_eq.
    mret_rw (get_prev_eq _ _ _ Hp). mret_rw (get_next_eq _ _ _ Hxn).
    mret_rw (get_next_eq _ _ _ Hn). mret_rw (get_prev_eq _ _ _ Hnx).
    rewrite !bool_decide_true by done. cbn [obind andb mret M_ret].
    mret_rw (get_prev_eq _ _ _ Hp). mret_rw (get_next_eq _ _ _ Hxn).
    mret_rw (set_prev_eq h n p Hns). apply set_next_eq. by rewrite is_Some_upd_prev.
  - assert (nxt h1 p n) as H1.
    { unfold h1. rewrite nxt_upd_next, decide_True by done. by rewrite is_Some_upd_prev. }
    assert (prv h1 n p) as H2.
    { unfold h1. rewrite prv_upd_next, prv_upd_prev, decide_True by done. done. }
    assert (forall c d, c <> p -> nxt h c d -> nxt h1 c d) as Fn.
    { intros c d Hc Hcd. unfold h1. rewrite nxt_upd_next, decide_False, nxt_upd_prev by done. done. }
    assert (forall c d, c <> n -> prv h c d -> prv h1 c d) as Fp.
    { intros c d Hc Hcd. unfold h1. rewrite prv_upd_next, prv_upd_prev, decide_False by done. done. }
    assert (seg h1 p l2 head) as Ht.
    { destruct l2 as [|y l2]; subst n; [done|]. cbn in Hs2 |- *. split_and!; [done..|].
      apply NoDup_cons in Hnd2 as [Hy Hnd2].
      eapply seg_frame; [| |apply Hs2]; intros c Hc d Hcd; [apply Fn|apply Fp]; set_solver. }
    assert (NoDup (head :: l1 ++ l2)) as Hnd'.
    { apply NoDup_cons. split; [set_solver|]. apply NoDup_app. set_solver. }
    split; [done|]. destruct l' as [|c l0].
    + subst p. injection E as ->. done.
    + injection E as <- ->. destruct Hl' as [_ Hs0]. rewrite <- app_assoc. cbn [app].
      apply seg_app. split; [|done]. apply NoDup_app in Hnd1 as (_ & Hdp & _).
      assert (n ∉ l0 ++ [p]) as Hn0.
      { intros Hin. apply elem_of_app in Hnin as [Hnin| ->%list_elem_of_singleton]; [|set_solver].
        apply (Hd n Hin). set_solver. }
      eapply seg_frame; [| |exact Hs0]; intros c Hc d Hcd; [apply Fn|apply Fp]; try done; set_solver.
  - unfold h1. rewrite is_Some_upd_next, is_Some_upd_prev. by eapply prv_is_Some.
  - intros a Ha. unfold h1, upd_next, upd_prev. rewrite !lookup_alter_ne by set_solver. done.
Qed.

Lemma dll_frame h h' head l :
  (forall a, a ∈ head :: l -> h' !! a = h !! a) -> dll h head l -> dll h' head l.
Proof.
  intros Hf [Hnd Hs]. split; [done|]. eapply seg_frame; [| |exact Hs]; intros c Hc d.
  - unfold nxt. by rewrite Hf.
  - unfold prv. rewrite Hf; [done|set_solver].
Qed.

Definition poisoned (x : N) (h : heap) : heap := upd_prev x LIST_POISON2 (upd_next x LIST_POISON1 h).

Lemma list_del_spec h head l1 x l2 :
  dll h head (l1 ++ x :: l2) ->
  exists h', list_del x h = Ret tt h' /\ dll h' head (l1 ++ l2) /\ is_Some (h' !! x) /\
    same_cells (fun a => a ∈ head :: l1 ++ x :: l2) h h'.
Proof.
  intros Hd. destruct (list_del_entry_spec _ _ _ _ _ Hd) as (h1 & E & Hd1 & Hx & Hsame).
  exists (poisoned x h1). unfold list_del, poisoned. mret_rw E.
  mret_rw (set_next_eq h1 x LIST_POISON1 Hx). split_and!.
  - apply set_prev_eq. by rewrite is_Some_upd_next.
  - eapply dll_frame; [|exact Hd1]. intros a Ha. unfold upd_prev, upd_next.
    destruct Hd as [Hnd _]. rewrite app_comm_cons in Hnd.
    apply NoDup_app in Hnd as (_ & Hd0 & Hnd2). apply NoDup_cons in Hnd2 as [Hx2 _].
    rewrite !lookup_alter_ne; [done| |]; intros <-; apply elem_of_cons in Ha as [->|Ha];
      try (apply (Hd0 head); set_solver); apply elem_of_app in Ha as [Ha|Ha]; try done;
      by apply (Hd0 x); set_solver.
  - by rewrite is_Some_upd_prev, is_Some_upd_next.
  - intros a Ha. unfold upd_prev, upd_next. rewrite !lookup_alter_ne by set_solver. apply Hsame. set_solver.
Qed.

Lemma list_empty_spec h head l :
  dll h head l -> list_empty head h = Ret (bool_decide (l = [])) h.
Proof.
  intros [Hnd Hs]. unfold list_empty. destruct l as [|x l]; cbn in Hs.
  - mret_rw (get_next_eq h head head (proj1 Hs)). by rewrite !bool_decide_true.
  - mret_rw (get_next_eq h head x (proj1 Hs)).
    rewrite bool_decide_false, bool_decide_false; [done|done|].
    apply NoDup_cons in Hnd as [Hn _]. set_solver.
Qed.

Lemma count_from h head a l fuel c :
  head ∉ l -> seg h a l head -> (length l < fuel)%nat ->
  (first ← get_next a;
   while_loop fuel (first, c) (fun '(pos, count) =>
     if list_is_head pos head then mret (inr count) else
     n ← get_next pos; mret (inl (n, count + 1)))) h = Ret (c + Z.of_nat (length l)) h.
Proof.
  revert a fuel c. induction l as [|x l IH]; intros a fuel c Hn Hs Hf; cbn in Hs.
  - mret_rw (get_next_eq h a head (proj1 Hs)). destruct fuel as [|fuel]; [lia|]. cbn [while_loop].
    unfold list_is_head. rewrite bool_decide_true by done. mrung. f_equal. lia.
  - destruct Hs as (Hax & _ & Hs). mret_rw (get_next_eq h a x Hax).
    destruct fuel as [|fuel]; [cbn in Hf; lia|]. cbn [while_loop].
    assert (list_is_head x head = false) as -> by (apply bool_decide_eq_false_2; set_solver).
    cbn [length] in *. replace (c + Z.of_nat (S (length l))) with (c + 1 + Z.of_nat (length l)) by lia.
    rewrite <- (IH x fuel (c + 1)) by (done || set_solver || lia).
    rewrite !bind_eq. unfold get_next, get. mrung. by destruct (h !! x).
Qed.

(** The count of entries, with fuel above the length. *)
Lemma list_count_spec h head l fuel :
  dll h head l -> (length l < fuel)%nat ->
  list_count_nodes fuel head h = Ret (Z.of_nat (length l)) h.
Proof.
  intros [Hnd Hs] Hf. apply NoDup_cons in Hnd as [Hn _].
  apply (count_from h head head l fuel 0 Hn Hs Hf).
Qed.

(** ** Refinement: each operation acts on the sequence *)

Inductive list_op := OpAdd (new : N) | OpAddTail (new : N) | OpDel (x : N) | OpMove (x : N) | OpMoveTail (x : N).

Definition run_op (head : N) (op : list_op) : M heap unit :=
  match op with
  | OpAdd new => list_add new head
  | OpAddTail new => list_add_tail new head
  | OpDel x => list_del x
  | OpMove x => list_move x head
  | OpMoveTail x => list_move_tail x head
  end.

Definition op_ok (h : heap) (head : N) (l : list N) (op : list_op) : Prop :=
  match op with
  | OpAdd new | OpAddTail new => (new ∉ head :: l) /\ is_Some (h !! new)
  | OpDel x | OpMove x | OpMoveTail x => x ∈ l
  end.

Definition without (x : N) (l : list N) : list N := filter (fun y => y <> x) l.

Definition spec_op (op : list_op) (l : list N) : list N :=
  match op with
  | OpAdd new => new :: l
  | OpAddTail new => l ++ [new]
  | OpDel x => without x l
  | OpMove x => x :: without x l
  | OpMoveTail x => without x l ++ [x]
  end.

Lemma without_split l1 x l2 : NoDup (l1 ++ x :: l2) -> without x (l1 ++ x :: l2) = l1 ++ l2.
Proof.
  intros (_ & Hd & Hnd2)%NoDup_app. apply NoDup_cons in Hnd2 as [Hx _]. unfold without.
  assert (forall l : list N, x ∉ l -> filter (fun y => y <> x) l = l) as Hid.
  { induction l as [|y l IH]; intros Hn; [done|]. rewrite filter_cons_True by set_solver.
    by rewrite IH by set_solver. }
  rewrite filter_app, filter_cons_False by tauto. rewrite !Hid; [done|done|].
  intros Hin. apply (Hd x Hin). set_solver.
Qed.

(** C25: the list primitives of list.h implement sequences: on a well-formed circular
    list each operation returns without its hardening check firing, leaves a
    well-formed list whose entries are exactly those of the abstract operation
    (insertion at either end, removal from anywhere, moving to the front or to the
    back), and touches only cells of that list and the inserted cell. *)
Theorem list_op_refines h head l op :
  dll h head l -> op_ok h head l op ->
  exists h', run_op head op h = Ret tt h' /\ dll h' head (spec_op op l) /\
    forall a, a ∉ head :: l -> (match op with OpAdd n | OpAddTail n => a <> n | _ => True end) ->
      h' !! a = h !! a.
Proof.
  intros Hd Hok.
  assert (forall x, x ∈ l -> exists l1 l2, l = l1 ++ x :: l2 /\ without x l = l1 ++ l2 /\ x ∉ head :: l1 ++ l2)
    as Hsplit.
  { intros x (l1 & l2 & ->)%list_elem_of_split. exists l1, l2. destruct Hd as [Hnd _].
    apply NoDup_cons in Hnd as [Hh Hnd]. split_and!; [done|by apply without_split|].
    apply NoDup_app in Hnd as (_ & Hdj & Hnd2). apply NoDup_cons in Hnd2 as [Hx _].
    rewrite elem_of_cons, elem_of_app. intros [->|[Hx1|Hx2]]; [set_solver| |done].
    apply (Hdj x Hx1). set_solver. }
  destruct op as [new|new|x|x|x]; cbn [run_op op_ok spec_op] in *.
  - destruct Hok as [Hn Hs]. destruct (list_add_spec _ _ _ _ Hd Hn Hs) as (h' & E & Hd' & Hf).
    exists h'. split_and!; try done. intros a Ha Hne. apply Hf. naive_solver.
  - destruct Hok as [Hn Hs]. destruct (list_add_tail_spec _ _ _ _ Hd Hn Hs) as (h' & E & Hd' & Hf).
    exists h'. split_and!; try done. intros a Ha Hne. apply Hf. naive_solver.
  - destruct (Hsplit x Hok) as (l1 & l2 & -> & -> & _).
    destruct (list_del_spec _ _ _ _ _ Hd) as (h' & E & Hd' & _ & Hf).
    exists h'. split_and!; try done. intros a Ha _. by apply Hf.
  - destruct (Hsplit x Hok) as (l1 & l2 & -> & -> & Hn).
    destruct (list_del_entry_spec _ _ _ _ _ Hd) as (h1 & E & Hd1 & Hx & Hf).
    destruct (list_add_spec _ _ _ _ Hd1 Hn Hx) as (h' & E' & Hd' & Hf').
    exists h'. unfold list_move. mret_rw E. split_and!; try done.
    intros a Ha _. rewrite Hf', Hf; set_solver.
  - destruct (Hsplit x Hok) as (l1 & l2 & -> & -> & Hn).
    destruct (list_del_entry_spec _ _ _ _ _ Hd) as (h1 & E & Hd1 & Hx & Hf).
    destruct (list_add_tail_spec _ _ _ _ Hd1 Hn Hx) as (h' & E' & Hd' & Hf').
    exists h'. unfold list_move_tail. mret_rw E. split_and!; try done.
    intros a Ha _. rewrite Hf', Hf; set_solver.
Qed.

End ListH.
