(* ===== verification/ListSplice.v ===== *)
(** * Whole lists: include/util/list.h (joining, cutting, rotating and walking lists)

    The operations of list.h that move more than one entry, and its iterators.  The
    proofs go by [chain]: a row of cells linked to one another in both directions. *)

From S2P Require Import Prelude ListH.

Section ListSplice.
Context {N : Type} `{Countable N} (NULLN : N).

Abbreviation heap := (gmap N (N * N)).

Definition list_del_clearprev (entry : N) : M heap unit :=
  prev ← get_prev entry; next ← get_next entry;
  list_del_between prev next ;;
  set_prev entry NULLN.

Definition list_bulk_move_tail (head first last : N) : M heap unit :=
  p ← get_prev first; n ← get_next last; set_next p n ;;
  n ← get_next last; p ← get_prev first; set_prev n p ;;
  hp ← get_prev head; set_next hp first ;;
  hp ← get_prev head; set_prev first hp ;;
  set_next last head ;;
  set_prev head last.

Definition list_del_init_careful (entry : N) : M heap unit :=
  list_del_entry entry ;; set_prev entry entry ;; set_next entry entry.

Definition list_empty_careful (head : N) : M heap bool :=
  next ← get_next head;
  if list_is_head next head then p ← get_prev head; mret (bool_decide (next = p)) else mret false.

Definition list_rotate_to_front (l head : N) : M heap unit := list_move_tail head l.

Definition list_cut_position_inner (list head entry : N) : M heap unit :=
  new_first ← get_next entry;
  n ← get_next head; set_next list n ;;
  n ← get_next list; set_prev n list ;;
  set_prev list entry ;;
  set_next entry list ;;
  set_next head new_first ;;
  set_prev new_first head.

Definition list_cut_position (list head entry : N) : M heap unit :=
  e ← list_empty head;
  if (e : bool) then mret tt else
  one ← list_is_singular head;
  skip ← (if (one : bool) && negb (list_is_head entry head)
          then n ← get_next head; mret (bool_decide (entry <> n)) else mret false);
  if (skip : bool) then mret tt else
  if list_is_head entry head then INIT_LIST_HEAD list else list_cut_position_inner list head entry.

Definition list_cut_before (list head entry : N) : M heap unit :=
  n ← get_next head;
  if bool_decide (n = entry) then INIT_LIST_HEAD list else
  n ← get_next head; set_next list n ;;
  n ← get_next list; set_prev n list ;;
  p ← get_prev entry; set_prev list p ;;
  p ← get_prev list; set_next p list ;;
  set_next head entry ;;
  set_prev entry head.

Definition list_splice_between (list prev next : N) : M heap unit :=
  first ← get_next list; last ← get_prev list;
  set_prev first prev ;;
  set_next prev first ;;
  set_next last next ;;
  set_prev next last.

Definition list_splice (list head : N) : M heap unit :=
  e ← list_empty list;
  if (e : bool) then mret tt else n ← get_next head; list_splice_between list head n.
Definition list_splice_tail (list head : N) : M heap unit :=
  e ← list_empty list;
  if (e : bool) then mret tt else p ← get_prev head; list_splice_between list p head.
Definition list_splice_init (list head : N) : M heap unit :=
  e ← list_empty list;
  if (e : bool) then mret tt else n ← get_next head; list_splice_between list head n ;; INIT_LIST_HEAD list.
Definition list_splice_tail_init (list head : N) : M heap unit :=
  e ← list_empty list;
  if (e : bool) then mret tt else p ← get_prev head; list_splice_between list p head ;; INIT_LIST_HEAD list.

(** ** Iterators: [fuel] bounds the number of steps; a body that answers stops the loop. *)

(** From [pos] by [step] to the head. *)
Definition list_walk {R} (step : N -> M heap N) (fuel : nat) (pos head : N) (body : N -> M heap (option R)) : M heap (option R) :=
  while_loop fuel pos (fun pos =>
    if list_is_head pos head then mret (inr None) else
    r ← body pos;
    match r with
    | Some v => mret (inr (Some v))
    | None => n ← step pos; mret (inl n)
    end).

(** The same with the next cell read before the body runs. *)
Definition list_walk_safe {R} (step : N -> M heap N) (fuel : nat) (pos head : N) (body : N -> M heap (option R)) : M heap (option R) :=
  n ← step pos;
  while_loop fuel (pos, n) (fun '(pos, n) =>
    if list_is_head pos head then mret (inr None) else
    r ← body pos;
    match r with
    | Some v => mret (inr (Some v))
    | None => n' ← step n; mret (inl (n, n'))
    end).

Definition list_for_each_continue {R} fuel (pos head : N) (body : N -> M heap (option R)) : M heap (option R) :=
  first ← get_next pos; list_walk get_next fuel first head body.
Definition list_for_each_prev {R} fuel (head : N) (body : N -> M heap (option R)) : M heap (option R) :=
  last ← get_prev head; list_walk get_prev fuel last head body.
Definition list_for_each_safe {R} fuel (head : N) (body : N -> M heap (option R)) : M heap (option R) :=
  first ← get_next head; list_walk_safe get_next fuel first head body.
Definition list_for_each_prev_safe {R} fuel (head : N) (body : N -> M heap (option R)) : M heap (option R) :=
  last ← get_prev head; list_walk_safe get_prev fuel last head body.

(** ** Rows of cells *)

Fixpoint chain (h : heap) (l : list N) : Prop :=
  match l with
  | x :: (y :: _) as l' => nxt h x y /\ prv h y x /\ chain h l'
  | _ => True
  end.

Lemma chain_seg h a l b : seg h a l b <-> chain h (a :: l ++ [b]).
Proof. revert a. induction l as [|x l IH]; intros a; cbn [seg app chain]; [tauto|]. rewrite IH. cbn [app]. tauto. Qed.

Lemma chain_app h l1 x y l2 : chain h (l1 ++ [x]) -> chain h (y :: l2) -> nxt h x y -> prv h y x -> chain h (l1 ++ [x] ++ y :: l2).
Proof.
  intros Hc1 Hc2 Hn Hp. induction l1 as [|a l1 IH]; [done|]. destruct l1 as [|b l1]; cbn [app chain] in *; [tauto|]. destruct Hc1 as (E1 & E2 & E3). split_and!; [done|done|by apply IH].
Qed.

Lemma chain_split h l1 x y l2 : chain h (l1 ++ [x] ++ y :: l2) -> chain h (l1 ++ [x]) /\ chain h (y :: l2) /\ nxt h x y /\ prv h y x.
Proof.
  induction l1 as [|a l1 IH]; [cbn; tauto|]. destruct l1 as [|b l1]; [cbn; tauto|].
  intros (Hn & Hp & Hc). destruct (IH Hc) as (A & B & C & D). split_and!; done.
Qed.

(** A row survives a change that keeps what its links are: the [next] of all cells but
    the last, the [prev] of all but the first. *)
Lemma chain_keep h h' l : NoDup l -> chain h l ->
  (forall a b, a ∈ l -> last l <> Some a -> nxt h a b -> nxt h' a b) -> (forall a b, a ∈ l -> hd_error l <> Some a -> prv h a b -> prv h' a b) -> chain h' l.
Proof.
  intros Hnd Hc Hn Hp. induction l as [|x l IH]; [done|]. destruct l as [|y l]; [done|]. apply NoDup_cons in Hnd as [Hx Hnd]. destruct Hc as (Hxy & Hyx & Hc). cbn [chain]. split_and!.
  - apply Hn; [set_solver| |done]. intros E. apply Hx. apply last_Some_elem_of. exact E.
  - apply Hp; [set_solver| |done]. cbn. intros [= ->]. set_solver.
  - apply IH; [done|done| |].
    + intros a b Ha Hl. apply Hn; [set_solver|done].
    + intros a b Ha Hh. apply Hp; [set_solver|]. cbn. intros [= ->]. done.
Qed.

Lemma dll_chain h head l : dll h head l <-> NoDup (head :: l) /\ chain h (head :: l ++ [head]).
Proof. unfold dll. by rewrite chain_seg. Qed.

Lemma chain_mid h a l b : l <> [] -> chain h (a :: l ++ [b]) -> chain h l.
Proof.
  destruct l as [|x l]; [done|]. intros _ Hc. change (chain h ([] ++ [a] ++ x :: (l ++ [b]))) in Hc. apply chain_split in Hc as (_ & Hc & _).
  destruct (exists_last (l := x :: l) ltac:(done)) as (i & z & E). change (x :: l ++ [b]) with ((x :: l) ++ [b]) in Hc. rewrite E in Hc |- *. rewrite <- app_assoc in Hc.
  by apply chain_split in Hc as (Hc & _).
Qed.

(** The first and the last entry of a list that is not empty. *)
Lemma dll_ends h head l : dll h head l -> l <> [] -> exists f t i p, l = f :: t /\ l = i ++ [p] /\ nxt h head f /\ prv h f head /\ nxt h p head /\ prv h head p /\ chain h l.
Proof.
  intros [Hnd Hc]%dll_chain Hne. destruct l as [|f t]; [done|]. destruct (exists_last (l := f :: t) ltac:(done)) as (i & p & E). exists f, t, i, p.
  pose proof (chain_mid h head _ head Hne Hc) as Hm. cbn [app] in Hc. destruct Hc as (Hn1 & Hp1 & Hc). change (chain h ((f :: t) ++ [head])) in Hc. rewrite E, <- app_assoc in Hc.
  apply chain_split in Hc as (_ & _ & Hn2 & Hp2). by split_and!.
Qed.

(** Both ends of a list stand next to its head. *)
Lemma dll_around h head l1 l2 : dll h head (l1 ++ l2) -> exists A pr nx B, head :: l1 = A ++ [pr] /\ l2 ++ [head] = nx :: B /\
  nxt h pr nx /\ prv h nx pr /\ chain h (A ++ [pr]) /\ chain h (nx :: B).
Proof.
  intros [Hnd Hc]%dll_chain. destruct (exists_last (l := head :: l1) ltac:(done)) as (A & pr & E1).
  destruct (l2 ++ [head]) as [|nx B] eqn:E2; [by destruct l2|]. exists A, pr, nx, B. rewrite <- app_assoc, E2, app_comm_cons, E1, <- app_assoc in Hc.
  apply chain_split in Hc as (Hc1 & Hc2 & Hn & Hp). by split_and!.
Qed.

Definition joined (f p prev next : N) (h : heap) : heap :=
  upd_prev next p (upd_next p next (upd_next prev f (upd_prev f prev h))).

Lemma nxt_joined h f p prev next a b : is_Some (h !! p) -> is_Some (h !! prev) ->
  nxt (joined f p prev next h) a b <-> if decide (a = p) then b = next else if decide (a = prev) then b = f else nxt h a b.
Proof.
  intros H1' H2'. unfold joined. rewrite nxt_upd_prev, nxt_upd_next. case_decide; [rewrite is_Some_upd_next, is_Some_upd_prev; tauto|].
  rewrite nxt_upd_next. case_decide; [rewrite is_Some_upd_prev; tauto|]. by rewrite nxt_upd_prev.
Qed.
Lemma prv_joined h f p prev next a b : is_Some (h !! f) -> is_Some (h !! next) ->
  prv (joined f p prev next h) a b <-> if decide (a = next) then b = p else if decide (a = f) then b = prev else prv h a b.
Proof.
  intros H1' H2'. unfold joined. rewrite prv_upd_prev. case_decide; [rewrite !is_Some_upd_next, is_Some_upd_prev; tauto|].
  rewrite !prv_upd_next, prv_upd_prev. case_decide; tauto.
Qed.
Lemma joined_other h f p prev next a : a <> f -> a <> p -> a <> prev -> a <> next -> joined f p prev next h !! a = h !! a.
Proof. intros. unfold joined, upd_prev, upd_next. by rewrite !lookup_alter_ne. Qed.

Lemma splice_between_eq h lst f p prev next : nxt h lst f -> prv h lst p -> is_Some (h !! f) -> is_Some (h !! p) -> is_Some (h !! prev) -> is_Some (h !! next) ->
  list_splice_between lst prev next h = Ret tt (joined f p prev next h).
Proof.
  intros Hf Hp S1 S2 S3 S4. unfold list_splice_between, joined. mret_rw (get_next_eq _ _ _ Hf). mret_rw (get_prev_eq _ _ _ Hp).
  mret_rw (set_prev_eq h f prev S1). rewrite (bind_Ret _ _ _ _ _ (set_next_eq _ prev f (proj2 (is_Some_upd_prev h f prev prev) S3))).
  erewrite bind_Ret; [|apply set_next_eq; by rewrite is_Some_upd_next, is_Some_upd_prev].
  apply set_prev_eq. by rewrite !is_Some_upd_next, is_Some_upd_prev.
Qed.

(** A list put in between two neighbours of another one. *)
Lemma joined_ok h head l1 l2 ls f t i p A pr nx B : dll h head (l1 ++ l2) -> NoDup ((head :: l1 ++ l2) ++ ls) ->
  ls = f :: t -> ls = i ++ [p] -> chain h ls -> head :: l1 = A ++ [pr] -> l2 ++ [head] = nx :: B -> nxt h pr nx -> prv h nx pr -> chain h (A ++ [pr]) -> chain h (nx :: B) ->
  is_Some (h !! f) -> is_Some (h !! p) -> dll (joined f p pr nx h) head (l1 ++ ls ++ l2).
Proof.
  intros Hd Hnd Ef Ep Hls EA EB Hn Hp HcA HcB S3 S1.
  assert (is_Some (h !! pr) /\ is_Some (h !! nx)) as [S2 S4] by (split; [by eapply nxt_is_Some|by eapply prv_is_Some]).
  apply NoDup_app in Hnd as (Hnd1 & Hdj & Hnd2). apply NoDup_cons in Hnd1 as [Hh Hnd1]. apply NoDup_app in Hnd1 as (HndA & Hdj1 & HndB).
  assert (f ∈ ls /\ p ∈ ls) as [Hfin Hpin] by (split; [rewrite Ef; set_solver|rewrite Ep; set_solver]).
  assert (pr ∈ head :: l1) as Hprin by (rewrite EA; set_solver). assert (nx ∈ l2 ++ [head]) as Hnxin by (rewrite EB; set_solver).
  assert (head ∉ ls) as Hhls by (intros Hin; apply (Hdj head); set_solver).
  assert (forall a, a ∈ l1 -> a ∉ l2) as Hd12 by (intros a Ha; by apply Hdj1). assert (forall a, a ∈ l1 \/ a ∈ l2 -> a ∉ ls) as Hdls by (intros a Ha; apply Hdj; set_solver).
  assert (pr ∉ ls) as Hprl by (apply elem_of_cons in Hprin as [->|Hin]; [done|apply Hdls; by left]).
  assert (nx ∉ ls) as Hnxl by (apply elem_of_app in Hnxin as [Hin|Hin%list_elem_of_singleton]; [apply Hdls; by right|by subst]).
  apply dll_chain. split.
  { apply NoDup_cons. split; [set_solver|]. apply NoDup_app. split_and!; [done|set_solver|]. apply NoDup_app. set_solver. }
  replace (head :: (l1 ++ ls ++ l2) ++ [head]) with ((head :: l1) ++ ls ++ (l2 ++ [head])) by (cbn; by rewrite <- !app_assoc). rewrite EA, EB.
  set (h' := joined f p pr nx h).
  assert (chain h' (A ++ [pr])) as C1.
  { apply (chain_keep h); [rewrite <- EA; apply NoDup_cons; set_solver|done| |]; rewrite <- EA.
    - intros a b Ha Hl Hab. unfold h'. rewrite nxt_joined by done. rewrite !decide_False; [done| |].
      + intros ->. apply Hl. rewrite EA. apply last_snoc.
      + intros ->. apply elem_of_cons in Ha as [->|Ha]; [done|]. by apply (Hdls p); [left|].
    - intros a b Ha Hl Hab. unfold h'. rewrite prv_joined by done. rewrite !decide_False; [done| |].
      + intros ->. apply elem_of_cons in Ha as [->|Ha]; [done|]. by apply (Hdls f); [left|].
      + intros ->. apply elem_of_cons in Ha as [->|Ha]; [by apply Hl|]. apply elem_of_app in Hnxin as [Hin|Hin%list_elem_of_singleton]; [by apply (Hd12 nx)|subst; set_solver]. }
  assert (chain h' (nx :: B)) as C2.
  { rewrite <- EB in HcB |- *. apply (chain_keep h); [apply NoDup_app; split_and!; [done|set_solver|apply NoDup_singleton]|done| |].
    - intros a b Ha Hl Hab. unfold h'. rewrite nxt_joined by done. assert (a <> head) as Hah by (intros ->; apply Hl, last_snoc). assert (a ∈ l2) as Ha2 by set_solver. rewrite !decide_False; [done| |].
      + intros ->. apply elem_of_cons in Hprin as [->|Hin]; [done|]. by apply (Hd12 pr).
      + intros ->. by apply (Hdls p); [right|].
    - intros a b Ha Hl Hab. unfold h'. rewrite prv_joined by done. rewrite !decide_False; [done| |].
      + intros ->. apply elem_of_app in Ha as [Ha|Ha%list_elem_of_singleton]; [by apply (Hdls f); [right|]|by subst].
      + intros ->. apply Hl. by rewrite EB. }
  assert (chain h' ls) as C3.
  { apply (chain_keep h); [done|done| |].
    - intros a b Ha Hl Hab. unfold h'. rewrite nxt_joined by done. rewrite !decide_False; [done| |]; intros ->; [done|]. apply Hl. rewrite Ep. apply last_snoc.
    - intros a b Ha Hl Hab. unfold h'. rewrite prv_joined by done. rewrite !decide_False; [done| |]; intros ->; [|done]. apply Hl. by rewrite Ef. }
  assert (nxt h' p nx /\ prv h' nx p /\ nxt h' pr f /\ prv h' f pr) as (L1 & L2 & L3 & L4).
  { unfold h'. rewrite !nxt_joined, !prv_joined by done. rewrite (decide_False (P := pr = p)) by (intros ->; done). rewrite (decide_False (P := f = nx)) by (intros ->; done). by rewrite !decide_True. }
  rewrite <- app_assoc. assert (chain h' (ls ++ nx :: B)) as C4.
  { rewrite Ep, <- app_assoc. apply chain_app; [by rewrite <- Ep|done|done|done]. }
  rewrite Ef in C4 |- *. by apply (chain_app h' A pr f (t ++ nx :: B)).
Qed.

(** ** Joining *)

Inductive splice_op := Splice | SpliceTail | SpliceInit | SpliceTailInit.

Definition run_splice (op : splice_op) (lst head : N) : M heap unit :=
  match op with
  | Splice => list_splice lst head
  | SpliceTail => list_splice_tail lst head
  | SpliceInit => list_splice_init lst head
  | SpliceTailInit => list_splice_tail_init lst head
  end.
Definition spliced (op : splice_op) (l ls : list N) : list N :=
  match op with Splice | SpliceInit => ls ++ l | SpliceTail | SpliceTailInit => l ++ ls end.
Definition emptied (op : splice_op) : bool := match op with SpliceInit | SpliceTailInit => true | _ => false end.

Lemma init_ok (h : heap) x : is_Some (h !! x) -> exists h' : heap, INIT_LIST_HEAD x h = Ret tt h' /\ dll h' x [] /\ forall a, a <> x -> h' !! a = h !! a.
Proof.
  intros Hs. exists (upd_prev x x (upd_next x x h)). split.
  - unfold INIT_LIST_HEAD. mret_rw (set_next_eq h x x Hs). apply set_prev_eq. by rewrite is_Some_upd_next.
  - split.
    + split; [apply NoDup_singleton|]. cbn [seg]. rewrite nxt_upd_prev, nxt_upd_next, prv_upd_prev. case_decide; [|done]. by rewrite is_Some_upd_next.
    + intros a Ha. unfold upd_prev, upd_next. by rewrite !lookup_alter_ne.
Qed.

(** What a splice does to two lists that have no cell in common. *)
Lemma splice_ok op (h : heap) head l lst ls : dll h head l -> dll h lst ls -> NoDup ((head :: l) ++ lst :: ls) ->
  exists h' : heap, run_splice op lst head h = Ret tt h' /\ dll h' head (spliced op l ls) /\ (emptied op = true -> dll h' lst []) /\
    forall a, a ∉ head :: l ++ lst :: ls -> h' !! a = h !! a.
Proof.
  intros Hd Hls Hnd. pose proof (list_empty_spec h lst ls Hls) as Ee. destruct (decide (ls = [])) as [->|Hne].
  { exists h. split; [|split; [|split; [|done] ] ].
    - destruct op; cbn [run_splice]; unfold list_splice, list_splice_tail, list_splice_init, list_splice_tail_init; rewrite (bind_Ret _ _ _ _ _ Ee); by rewrite bool_decide_true.
    - destruct op; cbn [spliced app]; by rewrite ?app_nil_r.
    - done. }
  rewrite bool_decide_false in Ee by done.
  destruct (dll_ends h lst ls Hls Hne) as (f & t & i & p & Ef & Ep & Hlf & Hfl & Hpl & Hlp & Hch).
  assert (is_Some (h !! f) /\ is_Some (h !! p)) as [S1 S2] by (split; [by eapply prv_is_Some|by eapply nxt_is_Some]).
  assert (exists pr nx, (match op with Splice | SpliceInit => n ← get_next head; list_splice_between lst head n | _ => p ← get_prev head; list_splice_between lst p head end) h = Ret tt (joined f p pr nx h) /\
    dll (joined f p pr nx h) head (spliced op l ls) /\ pr ∈ head :: l /\ nx ∈ head :: l) as (pr & nx & E & Hd' & Hpr & Hnx).
  { assert (NoDup ((head :: l) ++ ls)) as Hnd2.
    { apply NoDup_app in Hnd as (N1 & N2 & N3). apply NoDup_app. split_and!; [done|intros a Ha Hin; apply (N2 a Ha); set_solver|by apply NoDup_cons in N3 as [_ N3] ]. }
    set (l1 := match op with Splice | SpliceInit => [] | _ => l end). set (l2 := match op with Splice | SpliceInit => l | _ => [] end).
    assert (l = l1 ++ l2) as El by (unfold l1, l2; destruct op; by rewrite ?app_nil_r). rewrite El in Hd, Hnd2.
    destruct (dll_around h head l1 l2 Hd) as (A & pr & nx & B & EA & EB & Hn & Hp & C1 & C2). exists pr, nx.
    assert (is_Some (h !! pr) /\ is_Some (h !! nx)) as [S3 S4] by (split; [by eapply nxt_is_Some|by eapply prv_is_Some]).
    pose proof (joined_ok h head l1 l2 ls f t i p A pr nx B Hd Hnd2 Ef Ep Hch EA EB Hn Hp C1 C2 S1 S2) as Hj.
    pose proof (splice_between_eq h lst f p pr nx Hlf Hlp S1 S2 S3 S4) as Eb.
    assert (pr ∈ head :: l1) as Hpr by (rewrite EA; set_solver). assert (nx ∈ l2 ++ [head]) as Hnx by (rewrite EB; set_solver).
    split; [|split; [|split; [rewrite El; set_solver|rewrite El; set_solver] ] ].
    - destruct op; unfold l1, l2 in *; cbn [app] in *.
      1,3: (assert (pr = head) as -> by set_solver; mret_rw (get_next_eq _ _ _ Hn); exact Eb).
      all: injection EB as <- _; mret_rw (get_prev_eq _ _ _ Hp); exact Eb.
    - destruct op; unfold l1, l2 in *; cbn [spliced app] in *; by rewrite ?app_nil_r in Hj. }
  assert (forall a, a ∉ head :: l ++ lst :: ls -> joined f p pr nx h !! a = h !! a) as Hframe.
  { intros a Ha. assert (f ∈ ls /\ p ∈ ls) as [Hfin Hpin] by (split; [rewrite Ef; set_solver|rewrite Ep; set_solver]). apply joined_other; intros ->; set_solver. }
  apply NoDup_app in Hnd as (_ & Hdj & Hnd3). apply NoDup_cons in Hnd3 as [Hlst _].
  destruct (emptied op) eqn:Ei.
  - assert (is_Some (joined f p pr nx h !! lst)) as Sl.
    { unfold joined. rewrite is_Some_upd_prev, is_Some_upd_next, is_Some_upd_next, is_Some_upd_prev. by eapply nxt_is_Some. }
    destruct (init_ok _ lst Sl) as (h2 & E2 & Hl2 & Hf2). exists h2. split; [|split; [|split; [done|] ] ].
    + destruct op; try done; cbn [run_splice]; unfold list_splice_init, list_splice_tail_init; rewrite (bind_Ret _ _ _ _ _ Ee); cbv iota.
      * apply bind_Ret_inv in E as (n & h0 & En & Eb). rewrite (bind_Ret _ _ _ _ _ En). by rewrite (bind_Ret _ _ _ _ _ Eb).
      * apply bind_Ret_inv in E as (n & h0 & En & Eb). rewrite (bind_Ret _ _ _ _ _ En). by rewrite (bind_Ret _ _ _ _ _ Eb).
    + eapply dll_frame; [|exact Hd']. intros a Ha. apply Hf2. intros ->. apply elem_of_cons in Ha as [->|Ha]; [apply (Hdj head); set_solver|].
      assert (lst ∈ l \/ lst ∈ ls) as [Hin|Hin]; [destruct op; cbn [spliced] in Ha; set_solver|apply (Hdj lst); set_solver|done].
    + intros a Ha. rewrite Hf2 by set_solver. by apply Hframe.
  - exists (joined f p pr nx h). split; [|by split].
    destruct op; try done; cbn [run_splice]; unfold list_splice, list_splice_tail; rewrite (bind_Ret _ _ _ _ _ Ee); exact E.
Qed.

(** ** Cutting *)

(** [lst] takes the entries from [f] to [e] of the list at [head], which goes on at [nx]. *)
Definition cut_off (lst head f e nx : N) (h : heap) : heap :=
  upd_prev nx head (upd_next head nx (upd_next e lst (upd_prev lst e (upd_prev f lst (upd_next lst f h))))).

Lemma nxt_cut lst head f e nx (h : heap) a b : is_Some (h !! lst) -> is_Some (h !! head) -> is_Some (h !! e) -> 
  nxt (cut_off lst head f e nx h) a b <-> if decide (a = head) then b = nx else if decide (a = e) then b = lst else if decide (a = lst) then b = f else nxt h a b.
Proof.
  intros S1 S2 S3. unfold cut_off. rewrite nxt_upd_prev, nxt_upd_next. case_decide; [rewrite is_Some_upd_next, !is_Some_upd_prev, is_Some_upd_next; tauto|].
  rewrite nxt_upd_next. case_decide; [rewrite !is_Some_upd_prev, is_Some_upd_next; tauto|]. rewrite !nxt_upd_prev, nxt_upd_next. case_decide; tauto.
Qed.
Lemma prv_cut lst head f e nx (h : heap) a b : is_Some (h !! lst) -> is_Some (h !! f) -> is_Some (h !! nx) -> 
  prv (cut_off lst head f e nx h) a b <-> if decide (a = nx) then b = head else if decide (a = lst) then b = e else if decide (a = f) then b = lst else prv h a b.
Proof.
  intros S1 S2 S3. unfold cut_off. rewrite prv_upd_prev. case_decide; [rewrite !is_Some_upd_next, !is_Some_upd_prev, is_Some_upd_next; tauto|].
  rewrite !prv_upd_next, prv_upd_prev. case_decide; [rewrite is_Some_upd_prev, is_Some_upd_next; tauto|].
  rewrite prv_upd_prev. case_decide; [rewrite is_Some_upd_next; tauto|]. by rewrite prv_upd_next.
Qed.

Lemma cut_ok (h : heap) head P R lst f t i e nx B : dll h head (P ++ R) -> lst ∉ head :: P ++ R -> is_Some (h !! lst) ->
  P = f :: t -> P = i ++ [e] -> R ++ [head] = nx :: B ->
  dll (cut_off lst head f e nx h) lst P /\ dll (cut_off lst head f e nx h) head R.
Proof.
  intros Hd Hlst Sl Ef Ee EB. pose proof Hd as [Hnd Hc]%dll_chain.
  replace (head :: (P ++ R) ++ [head]) with ((head :: P) ++ (R ++ [head])) in Hc by (cbn; by rewrite <- app_assoc).
  assert (head :: P = (head :: i) ++ [e]) as Ehp by (cbn; by rewrite Ee). rewrite Ehp, EB, <- app_assoc in Hc. apply chain_split in Hc as (HcP & HcR & Hn & Hp).
  rewrite <- Ehp in HcP. assert (chain h P /\ nxt h head f /\ prv h f head) as (HcP' & Hhf & Hfh) by (rewrite Ef in HcP |- *; cbn [chain] in HcP; tauto).
  assert (is_Some (h !! head) /\ is_Some (h !! e) /\ is_Some (h !! f) /\ is_Some (h !! nx)) as (S1 & S2 & S3 & S4) by (split_and!; first [by eapply nxt_is_Some|by eapply prv_is_Some]).
  apply NoDup_cons in Hnd as [Hh Hnd]. apply NoDup_app in Hnd as (HndP & Hdj & HndR).
  assert (f ∈ P /\ e ∈ P) as [Hfin Hein] by (split; [rewrite Ef; set_solver|rewrite Ee; set_solver]). assert (nx ∈ R ++ [head]) as Hnxin by (rewrite EB; set_solver).
  assert (lst <> head /\ (lst ∉ P) /\ (lst ∉ R)) as (Hl1 & Hl2 & Hl3) by set_solver. assert ((head ∉ P) /\ (head ∉ R)) as [Hh1 Hh2] by set_solver.
  assert (nx ∉ P) as HnxP by (intros Hin; apply elem_of_app in Hnxin as [Hin2|Hin2%list_elem_of_singleton]; [by apply (Hdj nx)|by subst]).
  assert (nx <> lst) as Hnxl by (intros ->; set_solver). set (h' := cut_off lst head f e nx h).
  assert (chain h' P) as CP.
  { apply (chain_keep h); [done|done| |]; intros a b Ha Hl Hab; unfold h'.
    - rewrite nxt_cut by done. rewrite !decide_False; [done| | |]; intros ->; [done| |done]. apply Hl. rewrite Ee. apply last_snoc.
    - rewrite prv_cut by done. rewrite !decide_False; [done| | |]; intros ->; [|done|done]. apply Hl. by rewrite Ef. }
  assert (chain h' (nx :: B)) as CR.
  { rewrite <- EB in HcR |- *. apply (chain_keep h); [apply NoDup_app; split_and!; [done|set_solver|apply NoDup_singleton]|done| |]; intros a b Ha Hl Hab; unfold h'.
    - assert (a <> head) as Hah by (intros ->; apply Hl, last_snoc). assert (a ∈ R) as HaR by set_solver. rewrite nxt_cut by done. rewrite !decide_False; [done| | |done]; intros ->; [done|]. by apply (Hdj e).
    - rewrite prv_cut by done. rewrite !decide_False; [done| | |].
      + intros ->. apply elem_of_app in Ha as [Ha|Ha%list_elem_of_singleton]; [by apply (Hdj f)|by subst].
      + intros ->. set_solver.
      + intros ->. apply Hl. by rewrite EB. }
  assert (nxt h' head nx /\ prv h' nx head /\ nxt h' e lst /\ prv h' lst e /\ nxt h' lst f /\ prv h' f lst) as (L1 & L2 & L3 & L4 & L5 & L6).
  { unfold h'. rewrite !nxt_cut, !prv_cut by done. rewrite (decide_False (P := e = head)) by (intros ->; done). rewrite (decide_False (P := lst = head)) by done.
    rewrite (decide_False (P := lst = e)) by (intros ->; done). rewrite (decide_False (P := lst = nx)) by done. rewrite (decide_False (P := f = nx)), (decide_False (P := f = lst)) by (intros ->; done). by rewrite !decide_True. }
  split; apply dll_chain; split.
  - apply NoDup_cons. by split.
  - rewrite Ef. cbn [app chain]. split_and!; [done|done|]. change (chain h' ((f :: t) ++ [lst])). rewrite <- Ef, Ee, <- app_assoc. apply chain_app; [by rewrite <- Ee|done|done|done].
  - apply NoDup_cons. by split.
  - rewrite EB. cbn [chain]. by split_and!.
Qed.

(** The six stores that both cuts end in. *)
Lemma cut_stores (h : heap) lst head f e nx : lst <> head -> lst <> e -> lst <> f -> nxt h head f ->
  is_Some (h !! lst) -> is_Some (h !! f) -> is_Some (h !! e) -> is_Some (h !! head) -> is_Some (h !! nx) ->
  (n ← get_next head; set_next lst n ;; n ← get_next lst; set_prev n lst ;; set_prev lst e ;; set_next e lst ;; set_next head nx ;; set_prev nx head) h =
  Ret tt (cut_off lst head f e nx h).
Proof.
  intros N1 N2 N3 Hf S1 S2 S3 S4 S5. mret_rw (get_next_eq _ _ _ Hf). rewrite (bind_Ret _ _ _ _ _ (set_next_eq h lst f S1)).
  assert (nxt (upd_next lst f h) lst f) as Hlf by (rewrite nxt_upd_next; by rewrite decide_True). rewrite (bind_Ret _ _ _ _ _ (get_next_eq _ _ _ Hlf)).
  unfold cut_off. do 4 (erewrite bind_Ret; [|first [apply set_prev_eq|apply set_next_eq]; rewrite ?is_Some_upd_next, ?is_Some_upd_prev, ?is_Some_upd_next; done]).
  apply set_prev_eq. by rewrite !is_Some_upd_next, !is_Some_upd_prev, is_Some_upd_next.
Qed.

Lemma cut_other lst head f e nx (h : heap) a : a <> lst -> a <> f -> a <> e -> a <> head -> a <> nx -> cut_off lst head f e nx h !! a = h !! a.
Proof. intros. unfold cut_off, upd_prev, upd_next. by rewrite !lookup_alter_ne. Qed.

(** The cells around a cut after [P]. *)
Lemma cut_cells (h : heap) head P R lst : dll h head (P ++ R) -> P <> [] -> lst ∉ head :: P ++ R -> is_Some (h !! lst) ->
  exists f e nx, P = f :: tail P /\ (exists i, P = i ++ [e]) /\ nx = default head (hd_error R) /\ nxt h head f /\ nxt h e nx /\ prv h nx e /\
    dll (cut_off lst head f e nx h) lst P /\ dll (cut_off lst head f e nx h) head R /\
    (forall a, a ∉ lst :: head :: P ++ R -> cut_off lst head f e nx h !! a = h !! a) /\
    (lst <> head /\ lst <> e /\ lst <> f) /\ is_Some (h !! f) /\ is_Some (h !! e) /\ is_Some (h !! head) /\ is_Some (h !! nx).
Proof.
  intros Hd HP Hlst Sl. destruct P as [|f t]; [done|]. destruct (exists_last (l := f :: t) ltac:(done)) as (i & e & Ee).
  assert (exists nx B, R ++ [head] = nx :: B /\ nx = default head (hd_error R)) as (nx & B & EB & Enx) by (destruct R as [|y R]; [by exists head, []|by exists y, (R ++ [head])]).
  destruct (cut_ok h head (f :: t) R lst f t i e nx B Hd Hlst Sl eq_refl Ee EB) as [D1 D2]. exists f, e, nx.
  assert (f ∈ f :: t /\ e ∈ f :: t) as [Hf He] by (split; [set_solver|rewrite Ee; set_solver]). assert (nx ∈ R ++ [head]) as Hnx by (rewrite EB; set_solver).
  pose proof Hd as [_ Hc]%dll_chain. replace (head :: ((f :: t) ++ R) ++ [head]) with ((head :: f :: t) ++ (R ++ [head])) in Hc by (cbn; by rewrite <- app_assoc).
  rewrite EB in Hc. assert (head :: f :: t = (head :: i) ++ [e]) as Ehp by (cbn; by rewrite Ee). rewrite Ehp, <- app_assoc in Hc. apply chain_split in Hc as (HcP & _ & Hn & Hp).
  rewrite <- Ehp in HcP. cbn [chain] in HcP. destruct HcP as (Hhf & Hfh & _).
  split; [done|]. split; [by exists i|]. split; [done|]. do 5 (split; [done|]). split.
  { intros a Ha. apply cut_other; intros ->; set_solver. }
  split; [split_and!; set_solver|]. split_and!; first [by eapply nxt_is_Some|by eapply prv_is_Some].
Qed.

(** The list at [lst] takes everything up to the entry. *)
Lemma cut_position_ok (h : heap) head l1 e l2 lst : dll h head (l1 ++ e :: l2) -> lst ∉ head :: l1 ++ e :: l2 -> is_Some (h !! lst) ->
  exists h' : heap, list_cut_position lst head e h = Ret tt h' /\ dll h' lst (l1 ++ [e]) /\ dll h' head l2 /\
    forall a, a ∉ lst :: head :: l1 ++ e :: l2 -> h' !! a = h !! a.
Proof.
  intros Hd Hlst Sl. pose proof (list_empty_spec h head _ Hd) as Ee. rewrite bool_decide_false in Ee by (by destruct l1).
  destruct (dll_ends h head _ Hd ltac:(by destruct l1)) as (f0 & t0 & i0 & p0 & Ef0 & Ep0 & Hhf & _ & _ & Hhp & _).
  pose proof Hd as [Hnd _]. apply NoDup_cons in Hnd as [Hh Hnd]. assert (e <> head) as Heh by (intros ->; set_solver).
  replace (l1 ++ e :: l2) with ((l1 ++ [e]) ++ l2) in Hd, Hlst |- * by (by rewrite <- app_assoc).
  destruct (cut_cells h head (l1 ++ [e]) l2 lst Hd ltac:(by destruct l1) Hlst Sl) as (f & e' & nx & Ef & (i & Ei) & _ & Hf & Hn & Hp & D1 & D2 & Hfr & (N1 & N2 & N3) & S1 & S2 & S3 & S4).
  apply app_inj_tail in Ei as [_ <-]. exists (cut_off lst head f e nx h). split; [|by split_and!].
  unfold list_cut_position, list_is_head. rewrite (bind_Ret _ _ _ _ _ Ee). cbv iota.
  assert (list_is_singular head h = Ret (bool_decide (f0 = p0)) h) as Es.
  { unfold list_is_singular. rewrite (bind_Ret _ _ _ _ _ Ee). cbv iota. mret_rw (get_next_eq _ _ _ Hhf). by mret_rw (get_prev_eq _ _ _ Hhp). }
  rewrite (bind_Ret _ _ _ _ _ Es). rewrite (bool_decide_false (e = head)) by done. cbn [negb]. rewrite andb_true_r.
  match goal with |- (?c ≫= _) h = _ => assert (c h = Ret false h) as Ec end.
  { case_bool_decide as Efp; [|done]. mret_rw (get_next_eq _ _ _ Hhf). rewrite bool_decide_false; [done|]. intros Hne. apply Hne.
    rewrite Ef0 in Hnd. destruct t0 as [|y t0]; [destruct l1 as [|? [|? ?] ]; injection Ef0; intros; try done; by subst|].
    exfalso. apply NoDup_cons in Hnd as [Hnin _]. apply Hnin. subst p0. assert (last (f0 :: y :: t0) = Some f0) as El by (rewrite <- Ef0, Ep0; apply last_snoc).
    apply last_Some_elem_of. exact El. }
  rewrite (bind_Ret _ _ _ _ _ Ec). unfold list_cut_position_inner. mret_rw (get_next_eq _ _ _ Hn). by apply cut_stores.
Qed.

(** The list at [lst] takes everything before the entry. *)
Lemma cut_before_ok (h : heap) head l1 e l2 lst : dll h head (l1 ++ e :: l2) -> lst ∉ head :: l1 ++ e :: l2 -> is_Some (h !! lst) ->
  exists h' : heap, list_cut_before lst head e h = Ret tt h' /\ dll h' lst l1 /\ dll h' head (e :: l2) /\
    forall a, a ∉ lst :: head :: l1 ++ e :: l2 -> h' !! a = h !! a.
Proof.
  intros Hd Hlst Sl. pose proof Hd as [Hnd _]. apply NoDup_cons in Hnd as [Hh Hnd]. destruct l1 as [|f1 l1].
  - destruct (init_ok h lst Sl) as (h' & E & Dl & Hf). assert (nxt h head e) as Hhe by apply Hd. exists h'. unfold list_cut_before. mret_rw (get_next_eq _ _ _ Hhe). rewrite bool_decide_true by done.
    split; [done|]. split; [done|]. split; [|intros a Ha; apply Hf; set_solver]. eapply dll_frame; [|exact Hd]. intros a Ha. apply Hf. intros ->. done.
  - destruct (cut_cells h head (f1 :: l1) (e :: l2) lst Hd ltac:(done) Hlst Sl) as (f & p & nx & Ef & _ & -> & Hf & Hn & Hp & D1 & D2 & Hfr & (N1 & N2 & N3) & S1 & S2 & S3 & S4).
    injection Ef as <-. cbn [hd_error default] in *. unfold id in *. exists (cut_off lst head f1 p e h). split; [|by split_and!].
    unfold list_cut_before. mret_rw (get_next_eq _ _ _ Hf). rewrite bool_decide_false by (intros ->; apply NoDup_cons in Hnd as [Hn1 _]; set_solver).
    rewrite <- (cut_stores h lst head f1 p e N1 N2 N3 Hf Sl S1 S2 S3 S4). mret_rw (get_next_eq _ _ _ Hf). mret_rw (get_next_eq _ _ _ Hf).
    rewrite !(bind_Ret _ _ _ _ _ (set_next_eq h lst f1 Sl)). set (h1 := upd_next lst f1 h).
    assert (nxt h1 lst f1) as Hlf by (unfold h1; rewrite nxt_upd_next; by rewrite decide_True). rewrite !(bind_Ret _ _ _ _ _ (get_next_eq _ _ _ Hlf)).
    assert (is_Some (h1 !! f1)) as S1' by (by unfold h1; rewrite is_Some_upd_next). rewrite !(bind_Ret _ _ _ _ _ (set_prev_eq h1 f1 lst S1')). set (h2 := upd_prev f1 lst h1).
    assert (prv h2 e p) as Hep.
    { unfold h2, h1. rewrite prv_upd_prev. rewrite decide_False; [by rewrite prv_upd_next|]. intros ->. apply NoDup_cons in Hnd as [Hn1 _]. set_solver. }
    mret_rw (get_prev_eq _ _ _ Hep). assert (is_Some (h2 !! lst)) as Sl2 by (by unfold h2, h1; rewrite is_Some_upd_prev, is_Some_upd_next).
    rewrite !(bind_Ret _ _ _ _ _ (set_prev_eq h2 lst p Sl2)). set (h3 := upd_prev lst p h2).
    assert (prv h3 lst p) as Hlp by (unfold h3; rewrite prv_upd_prev; by rewrite decide_True). by mret_rw (get_prev_eq _ _ _ Hlp).
Qed.

(** ** Rotating and moving *)

Lemma dll_rotate (h : heap) head l1 x l2 : dll h head (l1 ++ x :: l2) -> dll h x (l2 ++ head :: l1).
Proof.
  intros [Hnd Hs]. apply seg_app in Hs as [Hs1 Hs2]. split; [|by apply seg_app].
  change (NoDup ((head :: l1) ++ (x :: l2))) in Hnd. change (NoDup ((x :: l2) ++ (head :: l1))). by rewrite Permutation_app_comm.
Qed.

Lemma rotate_to_front_ok (h : heap) head l1 x l2 : dll h head (l1 ++ x :: l2) ->
  exists h' : heap, list_rotate_to_front x head h = Ret tt h' /\ dll h' head (x :: l2 ++ l1) /\ forall a, a ∉ head :: l1 ++ x :: l2 -> h' !! a = h !! a.
Proof.
  intros Hd%dll_rotate. destruct (list_del_entry_spec h x l2 head l1 Hd) as (h1 & E1 & D1 & S1 & F1).
  destruct Hd as [Hnd _]. assert (head ∉ x :: l2 ++ l1) as Hh.
  { change (NoDup ((x :: l2) ++ (head :: l1))) in Hnd. rewrite Permutation_app_comm in Hnd. cbn [app] in Hnd. apply NoDup_cons in Hnd as [Hnin _]. set_solver. }
  destruct (list_add_tail_spec h1 x (l2 ++ l1) head D1 Hh S1) as (h2 & E2 & D2 & F2). exists h2.
  split; [unfold list_rotate_to_front, list_move_tail; by mret_rw E1|]. split; [exact (dll_rotate h2 x (l2 ++ l1) head [] D2)|].
  intros a Ha. rewrite F2 by set_solver. apply F1. set_solver.
Qed.

Lemma del_init_careful_ok (h : heap) head l1 x l2 : dll h head (l1 ++ x :: l2) ->
  exists h' : heap, list_del_init_careful x h = Ret tt h' /\ dll h' head (l1 ++ l2) /\ list_empty_careful x h' = Ret true h'.
Proof.
  intros Hd. destruct (list_del_entry_spec h head l1 x l2 Hd) as (h1 & E1 & D1 & S1 & F1). exists (upd_next x x (upd_prev x x h1)).
  assert (x ∉ head :: l1 ++ l2) as Hx.
  { destruct Hd as [Hnd _]. change (NoDup ((head :: l1) ++ (x :: l2))) in Hnd. rewrite Permutation_app_comm in Hnd. cbn [app] in Hnd. apply NoDup_cons in Hnd as [Hnin _]. set_solver. }
  split; [|split].
  - unfold list_del_init_careful. mret_rw E1. mret_rw (set_prev_eq h1 x x S1). apply set_next_eq. by rewrite is_Some_upd_prev.
  - eapply dll_frame; [|exact D1]. intros a Ha. unfold upd_next, upd_prev. rewrite !lookup_alter_ne; [done| |]; intros ->; done.
  - set (h' := upd_next x x (upd_prev x x h1)). assert (nxt h' x x) as Hn by (unfold h'; rewrite nxt_upd_next; rewrite decide_True by done; by rewrite is_Some_upd_prev).
    assert (prv h' x x) as Hp by (unfold h'; rewrite prv_upd_next, prv_upd_prev; by rewrite decide_True).
    unfold list_empty_careful, list_is_head. mret_rw (get_next_eq _ _ _ Hn). rewrite bool_decide_true by done. mret_rw (get_prev_eq _ _ _ Hp). by rewrite bool_decide_true.
Qed.

(** Joining the neighbours of a row of cells takes it out. *)
Lemma unlink_ok (h : heap) head l1 P l2 A pr nx B : dll h head (l1 ++ P ++ l2) -> P <> [] -> head :: l1 = A ++ [pr] -> l2 ++ [head] = nx :: B ->
  dll (upd_prev nx pr (upd_next pr nx h)) head (l1 ++ l2) /\ chain (upd_prev nx pr (upd_next pr nx h)) P /\ exists f t i p, P = f :: t /\ P = i ++ [p] /\
    nxt h pr f /\ prv h f pr /\ nxt h p nx /\ prv h nx p.
Proof.
  intros [Hnd Hc]%dll_chain HP EA EB. destruct P as [|f t]; [done|]. destruct (exists_last (l := f :: t) ltac:(done)) as (i & p & Ep).
  replace (head :: (l1 ++ (f :: t) ++ l2) ++ [head]) with ((head :: l1) ++ (f :: t) ++ (l2 ++ [head])) in Hc by (cbn; rewrite <- !app_assoc; cbn; by rewrite <- ?app_assoc). rewrite EA, EB, <- app_assoc in Hc. cbn [app] in Hc.
  change (chain h (A ++ [pr] ++ f :: (t ++ nx :: B))) in Hc. apply chain_split in Hc as (HcA & Hc & Hn1 & Hp1).
  change (chain h ((f :: t) ++ nx :: B)) in Hc. rewrite Ep, <- app_assoc in Hc. apply chain_split in Hc as (HcP & HcB & Hn2 & Hp2). rewrite <- Ep in HcP.
  assert (is_Some (h !! pr) /\ is_Some (h !! nx)) as [S1 S2] by (split; [by eapply nxt_is_Some|by eapply prv_is_Some]).
  assert (pr ∈ head :: l1) as Hprin by (rewrite EA; set_solver). assert (nx ∈ l2 ++ [head]) as Hnxin by (rewrite EB; set_solver).
  apply NoDup_cons in Hnd as [Hh Hnd]. apply NoDup_app in Hnd as (Hnd1 & Hdj1 & Hnd). apply NoDup_app in Hnd as (HndP & HdjP & Hnd2).
  assert (forall a, a ∈ l1 -> (a ∉ f :: t) /\ (a ∉ l2)) as Hd1 by (intros a Ha; specialize (Hdj1 a Ha); set_solver).
  assert ((head ∉ l1) /\ (head ∉ f :: t) /\ (head ∉ l2)) as (Hh1 & Hh2 & Hh3) by set_solver.
  assert ((pr ∉ f :: t) /\ (nx ∉ f :: t)) as [HprP HnxP].
  { split; [apply elem_of_cons in Hprin as [->|Hin]; [done|by apply Hd1]|]. apply elem_of_app in Hnxin as [Hin|Hin%list_elem_of_singleton]; [intros Hin2; by apply (HdjP nx)|by subst]. }
  set (h' := upd_prev nx pr (upd_next pr nx h)).
  assert (forall a b, a <> pr -> nxt h a b -> nxt h' a b) as Kn by (intros a b Ha Hab; unfold h'; rewrite nxt_upd_prev, nxt_upd_next; by rewrite decide_False).
  assert (forall a b, a <> nx -> prv h a b -> prv h' a b) as Kp by (intros a b Ha Hab; unfold h'; rewrite prv_upd_prev; rewrite decide_False by done; by rewrite prv_upd_next).
  assert (nxt h' pr nx /\ prv h' nx pr) as [L1 L2].
  { unfold h'. rewrite nxt_upd_prev, nxt_upd_next, prv_upd_prev. rewrite !decide_True by done. by rewrite is_Some_upd_next. }
  split; [|split; [|exists f, t, i, p; by split_and!] ].
  - apply dll_chain. split; [apply NoDup_cons; split; [set_solver|]; apply NoDup_app; split_and!; [done|intros a Ha; by apply Hd1|done]|].
    rewrite <- app_assoc, app_comm_cons, EA, EB, <- app_assoc. apply chain_app; [| |done|done].
    + apply (chain_keep h); [rewrite <- EA; by apply NoDup_cons|done| |]; intros a b Ha Hl Hab; [apply Kn|apply Kp]; try done; intros ->.
      * apply Hl, last_snoc.
      * rewrite <- EA in Ha, Hl. apply elem_of_cons in Ha as [->|Ha]; [done|]. apply elem_of_app in Hnxin as [Hin|Hin%list_elem_of_singleton]; [by apply (Hd1 nx)|by subst].
    + apply (chain_keep h); [rewrite <- EB; apply NoDup_app; split_and!; [done|set_solver|apply NoDup_singleton]|done| |]; intros a b Ha Hl Hab; [apply Kn|apply Kp]; try done; intros ->.
      * rewrite <- EB in Ha, Hl. apply elem_of_cons in Hprin as [->|Hin]; [apply Hl, last_snoc|]. apply elem_of_app in Ha as [Ha|Ha%list_elem_of_singleton]; [by apply (Hd1 pr)|by subst].
      * done.
  - apply (chain_keep h); [done|done| |]; intros a b Ha Hl Hab; [apply Kn|apply Kp]; try done; intros ->; done.
Qed.

Lemma bulk_move_tail_ok (h : heap) head l1 P l2 f t i p : dll h head (l1 ++ P ++ l2) -> P = f :: t -> P = i ++ [p] ->
  exists h' : heap, list_bulk_move_tail head f p h = Ret tt h' /\ dll h' head (l1 ++ l2 ++ P) /\ forall a, a ∉ head :: l1 ++ P ++ l2 -> h' !! a = h !! a.
Proof.
  intros Hd Ef Ep. destruct (exists_last (l := head :: l1) ltac:(done)) as (A & pr & EA). destruct (l2 ++ [head]) as [|nx B] eqn:EB; [by destruct l2|].
  destruct (unlink_ok h head l1 P l2 A pr nx B Hd ltac:(by subst) EA EB) as (D1 & C1 & f0 & t0 & i0 & p0 & Ef0 & Ep0 & Hn1 & Hp1 & Hn2 & Hp2).
  rewrite Ef in Ef0. injection Ef0 as <- <-. rewrite Ep in Ep0. apply app_inj_tail in Ep0 as [<- <-]. set (h1 := upd_prev nx pr (upd_next pr nx h)) in *.
  pose proof (dll_around h1 head (l1 ++ l2) [] ltac:(by rewrite app_nil_r)) as (A2 & q & nx2 & B2 & EA2 & EB2 & Hn & Hp & CA & CB). injection EB2 as <- <-.
  assert (is_Some (h !! f) /\ is_Some (h !! p) /\ is_Some (h !! pr) /\ is_Some (h !! nx)) as (S1 & S2 & S3 & S4) by (split_and!; first [by eapply nxt_is_Some|by eapply prv_is_Some]).
  assert (is_Some (h1 !! f) /\ is_Some (h1 !! p)) as [S5 S6] by (by unfold h1; rewrite !is_Some_upd_prev, !is_Some_upd_next).
  assert (is_Some (h1 !! q) /\ is_Some (h1 !! head)) as [S7 S8] by (split; [by eapply nxt_is_Some|by eapply prv_is_Some]).
  assert (NoDup ((head :: (l1 ++ l2) ++ []) ++ P)) as Hnd2.
  { destruct Hd as [Hnd _]. rewrite app_nil_r. cbn [app]. rewrite <- app_assoc. by rewrite (Permutation_app_comm l2 P). }
  assert ((head ∉ P) /\ (pr ∉ P)) as [HhP HprP].
  { apply NoDup_app in Hnd2 as (_ & Hdj & _). assert (pr ∈ head :: l1) as Hin by (rewrite EA; set_solver). split; apply Hdj; set_solver. }
  assert (f ∈ P /\ p ∈ P) as [Hfin Hpin] by (split; [rewrite Ef; set_solver|rewrite Ep; set_solver]).
  exists (joined f p q head h1). split; [|split].
  - unfold list_bulk_move_tail. mret_rw (get_prev_eq _ _ _ Hp1). mret_rw (get_next_eq _ _ _ Hn2). mret_rw (set_next_eq h pr nx S3).
    assert (nxt (upd_next pr nx h) p nx) as Hn2' by (rewrite nxt_upd_next; rewrite decide_False; [done|intros ->; done]). mret_rw (get_next_eq _ _ _ Hn2').
    assert (prv (upd_next pr nx h) f pr) as Hp1' by (by rewrite prv_upd_next). mret_rw (get_prev_eq _ _ _ Hp1').
    rewrite (bind_Ret _ _ _ _ _ (set_prev_eq (upd_next pr nx h) nx pr (proj2 (is_Some_upd_next h pr nx nx) S4))). fold h1.
    mret_rw (get_prev_eq _ _ _ Hp). mret_rw (set_next_eq h1 q f S7). assert (prv (upd_next q f h1) head q) as Hp' by (by rewrite prv_upd_next). mret_rw (get_prev_eq _ _ _ Hp').
    assert (upd_prev f q (upd_next q f h1) = upd_next q f (upd_prev f q h1)) as Ecomm.
    { apply map_eq. intros a. unfold upd_prev, upd_next. destruct (decide (a = f)) as [->|Na], (decide (f = q)) as [<-|Nq]; try (destruct (decide (a = q)) as [->|Nb]);
        rewrite ?lookup_alter_eq, ?lookup_alter_ne, ?lookup_alter_eq, ?lookup_alter_ne by done; try done; by destruct (h1 !! _). }
    rewrite (bind_Ret _ _ _ _ _ (set_prev_eq _ f q (proj2 (is_Some_upd_next h1 q f f) S5))). rewrite Ecomm.
    erewrite bind_Ret; [|apply set_next_eq; by rewrite is_Some_upd_next, is_Some_upd_prev]. apply set_prev_eq. by rewrite !is_Some_upd_next, is_Some_upd_prev.
  - pose proof (joined_ok h1 head (l1 ++ l2) [] P f t i p A2 q head [] ltac:(by rewrite app_nil_r) Hnd2 Ef Ep C1 EA2 eq_refl Hn Hp CA CB S5 S6) as Hj. by rewrite app_nil_r, <- app_assoc in Hj.
  - intros a Ha. assert (q ∈ head :: l1 ++ l2) as Hq by (rewrite EA2; set_solver). rewrite joined_other by (intros ->; set_solver).
    assert (pr ∈ head :: l1) as Hpr by (rewrite EA; set_solver). assert (nx ∈ l2 ++ [head]) as Hnx by (rewrite EB; set_solver).
    unfold h1, upd_prev, upd_next. by rewrite !lookup_alter_ne by (intros ->; set_solver).
Qed.

(** ** Walking *)

Fixpoint row (step : N -> M heap N) (h : heap) (a : N) (l : list N) (b : N) : Prop :=
  match l with [] => step a h = Ret b h | x :: l' => step a h = Ret x h /\ row step h x l' b end.

Lemma row_snoc step h a l x b : row step h a l x -> step x h = Ret b h -> row step h a (l ++ [x]) b.
Proof. revert a. induction l as [|y l IH]; intros a; cbn [row app]; [done|]. intros [Hy Hr] Hx. split; [done|by apply IH]. Qed.

Lemma row_next h a l b : seg h a l b -> row get_next h a l b.
Proof. revert a. induction l as [|x l IH]; intros a; cbn [seg row]; [intros [Hn _]; by apply get_next_eq|]. intros (Hn & _ & Hs). split; [by apply get_next_eq|by apply IH]. Qed.
Lemma row_prev h a l b : seg h a l b -> row get_prev h b (rev l) a.
Proof.
  revert a. induction l as [|x l IH]; intros a; cbn [seg rev row]; [intros [_ Hp]; by apply get_prev_eq|]. intros (_ & Hp & Hs). apply row_snoc; [by apply IH|by apply get_prev_eq].
Qed.

(** A walk that looks for something finds the first entry in its direction. *)
Lemma walk_find step (P : N -> bool) head (h : heap) : forall l fuel a, row step h a l head -> head ∉ l -> (length l < fuel)%nat ->
  (first ← step a; list_walk step fuel first head (fun pos => mret (if P pos then Some pos else None))) h = Ret (find P l) h.
Proof.
  induction l as [|x l IH]; intros fuel a Hr Hh Hf; cbn [row] in Hr; (destruct fuel as [|fuel]; [cbn in Hf; lia|]); unfold list_walk.
  - rewrite (bind_Ret _ _ _ _ _ Hr). rewrite while_S, bind_eq. unfold list_is_head. by rewrite bool_decide_true.
  - destruct Hr as [Hx Hr]. rewrite (bind_Ret _ _ _ _ _ Hx). rewrite while_S, bind_eq. unfold list_is_head at 1. rewrite bool_decide_false by set_solver.
    rewrite bind_mret. cbn [find]. destruct (P x); [done|]. rewrite <- (IH fuel x Hr ltac:(set_solver) ltac:(cbn in Hf; lia)).
    assert (exists y, step x h = Ret y h) as [y Hy] by (destruct l; [by exists head|by eexists; apply Hr]). rewrite !(bind_Ret _ _ _ _ _ Hy). done.
Qed.

Lemma for_each_find h head l fuel (P : N -> bool) : dll h head l -> (length l < fuel)%nat ->
  list_for_each_continue fuel head head (fun pos => mret (if P pos then Some pos else None)) h = Ret (find P l) h /\
  list_for_each_prev fuel head (fun pos => mret (if P pos then Some pos else None)) h = Ret (find P (rev l)) h.
Proof.
  intros [Hnd Hs] Hf. apply NoDup_cons in Hnd as [Hh _]. split.
  - apply walk_find; [by apply row_next|done|done].
  - apply walk_find; [by apply row_prev| |by rewrite length_rev]. by rewrite list_elem_of_In, <- in_rev, <- list_elem_of_In.
Qed.

(** The safe walk may delete every entry it comes to. *)
Lemma drain_loop (P1 P2 head : N) : forall l (h : heap) fuel pos n, dll h head l -> pos = default head (hd_error l) -> n = default head (hd_error (tail l)) -> (length l < fuel)%nat ->
  exists h' : heap, while_loop fuel (pos, n) (fun '(pos, n) =>
    if list_is_head pos head then mret (inr None) else
    r ← (list_del P1 P2 pos ;; mret None : M heap (option unit));
    match r with
    | Some v => mret (inr (Some v))
    | None => n' ← get_next n; mret (inl (n, n'))
    end) h = Ret None h' /\ dll h' head [].
Proof.
  induction l as [|x l IH]; intros h fuel pos n Hd -> -> Hf; (destruct fuel as [|fuel]; [cbn in Hf; lia|]); rewrite while_S, bind_eq; unfold list_is_head; cbn [hd_error default tail]; unfold id.
  - rewrite bool_decide_true by done. by exists h.
  - assert (x <> head) as Hx by (destruct Hd as [Hnd _]; apply NoDup_cons in Hnd as [Hnin _]; set_solver). rewrite bool_decide_false by done.
    destruct (list_del_spec P1 P2 h head [] x l Hd) as (h1 & E1 & D1 & _ & _). cbn [app] in D1. set (n := default head (hd_error l)).
    assert (exists y, get_next n h1 = Ret y h1 /\ y = default head (hd_error (tail l))) as (y & Ey & Hy).
    { destruct D1 as [_ Hs]. destruct l as [|z l]; cbn [seg] in Hs; unfold n; cbn; unfold id.
      - exists head. split; [apply get_next_eq, Hs|done].
      - destruct Hs as (_ & _ & Hs). destruct l as [|w l]; cbn [seg] in Hs; cbn; unfold id; eexists; (split; [apply get_next_eq; apply Hs|done]). }
    assert ((list_del P1 P2 x ;; mret None : M heap (option unit)) h = Ret None h1) as E2 by (by rewrite (bind_Ret _ _ _ _ _ E1)).
    rewrite (bind_Ret _ _ _ _ _ E2). rewrite (bind_Ret _ _ _ _ _ Ey). cbn [obind mret M_ret]. apply (IH h1); [done|done|done|cbn in Hf; lia].
Qed.

Lemma for_each_safe_drains P1 P2 (h : heap) head l fuel : dll h head l -> (length l < fuel)%nat ->
  exists h' : heap, list_for_each_safe fuel head (fun pos => list_del P1 P2 pos ;; mret None : M heap (option unit)) h = Ret None h' /\ dll h' head [].
Proof.
  intros Hd Hf. pose proof Hd as [_ Hs]. unfold list_for_each_safe, list_walk_safe.
  assert (exists x y, get_next head h = Ret x h /\ get_next x h = Ret y h /\ x = default head (hd_error l) /\ y = default head (hd_error (tail l))) as (x & y & Ex & Ey & Hx & Hy).
  { destruct l as [|z l]; cbn [seg] in Hs; cbn; unfold id.
    - exists head, head. split_and!; try done; apply get_next_eq, Hs.
    - destruct Hs as (Hz & _ & Hs). destruct l as [|w l]; cbn [seg] in Hs; cbn; unfold id; eexists _, _; (split; [by apply get_next_eq|]); (split; [by apply get_next_eq; apply Hs|done]). }
  rewrite (bind_Ret _ _ _ _ _ Ex). rewrite (bind_Ret _ _ _ _ _ Ey). by apply (drain_loop P1 P2 head l).
Qed.

(** Joining and cutting whole lists.  For two lists without a common cell, each of
    the four splices puts the entries of one, in their order, before or after those of
    the other, and the [_init] ones leave the first list empty; a cut at an entry moves
    the entries up to it, with it or without it, to another head and leaves the rest
    behind.  All links of both lists are right in both directions, and no other cell
    changes. *)
Theorem lists_join_and_cut (h : heap) head l lst : dll h head l -> lst ∉ head :: l ->
  (forall op ls, dll h lst ls -> NoDup ((head :: l) ++ lst :: ls) ->
    exists h' : heap, run_splice op lst head h = Ret tt h' /\ dll h' head (spliced op l ls) /\ (emptied op = true -> dll h' lst []) /\
      forall a, a ∉ head :: l ++ lst :: ls -> h' !! a = h !! a) /\
  (forall l1 e l2, l = l1 ++ e :: l2 -> is_Some (h !! lst) ->
    (exists h' : heap, list_cut_position lst head e h = Ret tt h' /\ dll h' lst (l1 ++ [e]) /\ dll h' head l2 /\ forall a, a ∉ lst :: head :: l -> h' !! a = h !! a) /\
    (exists h' : heap, list_cut_before lst head e h = Ret tt h' /\ dll h' lst l1 /\ dll h' head (e :: l2) /\ forall a, a ∉ lst :: head :: l -> h' !! a = h !! a)).
Proof.
  intros Hd Hlst. split.
  - intros op ls Hls Hnd. by apply splice_ok.
  - intros l1 e l2 -> Sl. split; [by apply cut_position_ok|by apply cut_before_ok].
Qed.
End ListSplice.
