(* ===== verification/HListH.v ===== *)
(** * Lists with a single-pointer head: include/util/list.h (hlist_...)

    A node knows the next node and the place that points to it: the [first] of a head or
    the [next] of another node.  [hlist h head l] relates heads and nodes to a sequence. *)

From S2P Require Import Prelude.

Section HListH.
Context {N : Type} `{Countable N} (LIST_POISON1 : N).

(** What a [pprev] may point to; [LPoison2] is LIST_POISON2, which is no place. *)
Inductive hloc := LFirst (h : N) | LNext (n : N) | LPoison2.
#[global] Instance hloc_eq_dec : EqDecision hloc.
Proof. solve_decision. Defined.

Record hlist_node := mk_hlist_node { hn_next : option N; hn_pprev : option hloc }.
Record hheap := mk_hheap { hh_first : gmap N (option N); hh_node : gmap N hlist_node }.

Definition get_hnode (n : N) : M hheap hlist_node := h ← get; lift_opt (hh_node h !! n).
Definition put_hnode (n : N) (x : hlist_node) : M hheap unit :=
  _ ← get_hnode n; modify (fun h => mk_hheap (hh_first h) (<[n := x]> (hh_node h))).
Definition set_hnext (n : N) (v : option N) : M hheap unit := x ← get_hnode n; put_hnode n (mk_hlist_node v (hn_pprev x)).
Definition set_hpprev (n : N) (v : option hloc) : M hheap unit := x ← get_hnode n; put_hnode n (mk_hlist_node (hn_next x) v).

(** [*pp] and [*pp = v]. *)
Definition get_first (h : N) : M hheap (option N) := s ← get; lift_opt (hh_first s !! h).
Definition set_first (h : N) (v : option N) : M hheap unit :=
  _ ← get_first h; modify (fun s => mk_hheap (<[h := v]> (hh_first s)) (hh_node s)).
Definition store_loc (pp : option hloc) (v : option N) : M hheap unit :=
  match pp with
  | Some (LFirst h) => set_first h v
  | Some (LNext n) => set_hnext n v
  | _ => lift_opt None
  end.

Definition INIT_HLIST_HEAD (h : N) : M hheap unit := set_first h None.
Definition INIT_HLIST_NODE (n : N) : M hheap unit := set_hnext n None ;; set_hpprev n None.

Definition hlist_unhashed (n : N) : M hheap bool := x ← get_hnode n; mret (bool_decide (hn_pprev x = None)).
Definition hlist_unhashed_lockless (n : N) : M hheap bool := x ← get_hnode n; mret (bool_decide (hn_pprev x = None)).
Definition hlist_empty (h : N) : M hheap bool := f ← get_first h; mret (bool_decide (f = None)).

Definition hlist_del_links (n : N) : M hheap unit :=
  x ← get_hnode n;
  let next := hn_next x in let pprev := hn_pprev x in
  store_loc pprev next ;;
  match next with Some m => set_hpprev m pprev | None => mret tt end.
Definition hlist_del (n : N) : M hheap unit :=
  hlist_del_links n ;; set_hnext n (Some LIST_POISON1) ;; set_hpprev n (Some LPoison2).
Definition hlist_del_init (n : N) : M hheap unit :=
  u ← hlist_unhashed n;
  if (u : bool) then mret tt else hlist_del_links n ;; INIT_HLIST_NODE n.

Definition hlist_add_head (n h : N) : M hheap unit :=
  first ← get_first h;
  set_hnext n first ;;
  match first with Some f => set_hpprev f (Some (LNext n)) | None => mret tt end ;;
  set_first h (Some n) ;;
  set_hpprev n (Some (LFirst h)).

Definition hlist_add_before (n next : N) : M hheap unit :=
  x ← get_hnode next;
  set_hpprev n (hn_pprev x) ;;
  set_hnext n (Some next) ;;
  set_hpprev next (Some (LNext n)) ;;
  y ← get_hnode n;
  store_loc (hn_pprev y) (Some n).

Definition hlist_add_behind (n prev : N) : M hheap unit :=
  x ← get_hnode prev;
  set_hnext n (hn_next x) ;;
  set_hnext prev (Some n) ;;
  set_hpprev n (Some (LNext prev)) ;;
  y ← get_hnode n;
  match hn_next y with Some m => set_hpprev m (Some (LNext n)) | None => mret tt end.

Definition hlist_add_fake (n : N) : M hheap unit := set_hpprev n (Some (LNext n)).
Definition hlist_fake (n : N) : M hheap bool := x ← get_hnode n; mret (bool_decide (hn_pprev x = Some (LNext n))).
Definition hlist_is_singular_node (n h : N) : M hheap bool :=
  x ← get_hnode n; mret (bool_decide (hn_next x = None) && bool_decide (hn_pprev x = Some (LFirst h))).

Definition hlist_move_list (old new : N) : M hheap unit :=
  f ← get_first old; set_first new f ;;
  f ← get_first new;
  match f with Some x => set_hpprev x (Some (LFirst new)) | None => mret tt end ;;
  set_first old None.

Definition hlist_splice_init (from last to : N) : M hheap unit :=
  t ← get_first to;
  match t with Some x => set_hpprev x (Some (LNext last)) | None => mret tt end ;;
  t ← get_first to; set_hnext last t ;;
  f ← get_first from; set_first to f ;;
  f ← get_first from;
  match f with Some x => set_hpprev x (Some (LFirst to)) | None => lift_opt None end ;;
  set_first from None.

(** [hlist_for_each] with [fuel] above the number of nodes; the body may stop the loop. *)
Definition hlist_for_each {R} (fuel : nat) (h : N) (body : N -> M hheap (option R)) : M hheap (option R) :=
  f ← get_first h;
  while_loop fuel f (fun pos =>
    match pos with
    | None => mret (inr None)
    | Some n =>
        r ← body n;
        match r with Some v => mret (inr (Some v)) | None => x ← get_hnode n; mret (inl (hn_next x)) end
    end).

Definition hlist_count_nodes (fuel : nat) (h : N) : M hheap Z :=
  f ← get_first h;
  while_loop fuel (f, 0) (fun '(pos, count) =>
    match pos with
    | None => mret (inr count)
    | Some n => x ← get_hnode n; mret (inl (hn_next x, count + 1))
    end).

(** ** The sequence *)

Definition at_loc (s : hheap) (p : hloc) : option (option N) :=
  match p with LFirst h => hh_first s !! h | LNext n => hn_next <$> hh_node s !! n | LPoison2 => None end.
Definition back (s : hheap) (n : N) : option (option hloc) := hn_pprev <$> hh_node s !! n.

(** From the place [p] over the nodes [l] to a null pointer. *)
Fixpoint hseg (s : hheap) (p : hloc) (l : list N) : Prop :=
  match l with
  | [] => at_loc s p = Some None
  | x :: l' => at_loc s p = Some (Some x) /\ back s x = Some (Some p) /\ hseg s (LNext x) l'
  end.
Definition hlist (s : hheap) (h : N) (l : list N) : Prop := NoDup l /\ hseg s (LFirst h) l.

(** The place at the end of some nodes. *)
Definition end_loc (p : hloc) (l : list N) : hloc := match last l with Some x => LNext x | None => p end.

(** The same without the end. *)
Fixpoint hpre (s : hheap) (p : hloc) (l : list N) : Prop :=
  match l with
  | [] => True
  | x :: l' => at_loc s p = Some (Some x) /\ back s x = Some (Some p) /\ hpre s (LNext x) l'
  end.

Lemma end_loc_cons p x l : end_loc p (x :: l) = end_loc (LNext x) l.
Proof. unfold end_loc. destruct l as [|y l]; [done|]. change (last (x :: y :: l)) with (last (y :: l)). destruct (last (y :: l)) eqn:E; [done|]. by apply last_None in E. Qed.

Lemma hseg_app s p l1 l2 : hseg s p (l1 ++ l2) <-> hpre s p l1 /\ hseg s (end_loc p l1) l2.
Proof. revert p. induction l1 as [|x l1 IH]; intros p; cbn [app hseg hpre]; [by unfold end_loc; cbn; tauto|]. rewrite IH, end_loc_cons. tauto. Qed.

Lemma end_loc_in p l : end_loc p l = p \/ exists x, x ∈ l /\ end_loc p l = LNext x.
Proof. unfold end_loc. destruct (last l) as [x|] eqn:E; [right|by left]. exists x. split; [by apply last_Some_elem_of|done]. Qed.

(** What may change: nothing at the places and back pointers of the nodes. *)
Lemma hseg_keep s s' p l : at_loc s' p = at_loc s p -> (forall x, x ∈ l -> at_loc s' (LNext x) = at_loc s (LNext x) /\ back s' x = back s x) -> hseg s p l -> hseg s' p l.
Proof.
  revert p. induction l as [|x l IH]; intros p Hp Hx; cbn [hseg]; [by rewrite Hp|]. destruct (Hx x ltac:(set_solver)) as [E1 E2]. rewrite Hp, E2. intros (A & B & C). split_and!; [done|done|].
  apply IH; [done| |done]. intros y Hy. apply Hx. set_solver.
Qed.
Lemma hpre_keep s s' p l : NoDup l -> (l <> [] -> at_loc s' p = at_loc s p) -> (forall x, x ∈ l -> (last l <> Some x -> at_loc s' (LNext x) = at_loc s (LNext x)) /\ back s' x = back s x) -> hpre s p l -> hpre s' p l.
Proof.
  revert p. induction l as [|x l IH]; intros p Hnd Hp Hx; cbn [hpre]; [done|]. apply NoDup_cons in Hnd as [Hn Hnd]. destruct (Hx x ltac:(set_solver)) as [E1 E2]. rewrite (Hp ltac:(done)), E2. intros (A & B & C). split_and!; [done|done|].
  apply IH; [done| | |done].
  - intros Hne. apply E1. intros E. apply Hn. destruct l as [|y l]; [done|]. apply last_Some_elem_of. exact E.
  - intros y Hy. destruct (Hx y ltac:(set_solver)) as [F1 F2]. split; [|done]. intros Hl. apply F1. destruct l as [|z l]; [by apply elem_of_nil in Hy|exact Hl].
Qed.

(** ** Single steps *)

Definition with_next (n : N) (v : option N) (s : hheap) : hheap :=
  mk_hheap (hh_first s) (alter (fun x => mk_hlist_node v (hn_pprev x)) n (hh_node s)).
Definition with_pprev (n : N) (v : option hloc) (s : hheap) : hheap :=
  mk_hheap (hh_first s) (alter (fun x => mk_hlist_node (hn_next x) v) n (hh_node s)).
Definition with_first (h : N) (v : option N) (s : hheap) : hheap := mk_hheap (<[h := v]> (hh_first s)) (hh_node s).
Definition with_loc (p : hloc) (v : option N) (s : hheap) : hheap :=
  match p with LFirst h => with_first h v s | LNext n => with_next n v s | LPoison2 => s end.

Lemma set_hnext_eq s n v : is_Some (hh_node s !! n) -> set_hnext n v s = Ret tt (with_next n v s).
Proof.
  intros [x Hx]. unfold set_hnext, put_hnode, get_hnode, with_next. mrung. rewrite Hx. mrung. rewrite Hx. mrung. do 2 f_equal.
  apply map_eq. intros a. destruct (decide (n = a)) as [<-|]; [by rewrite lookup_insert_eq, lookup_alter_eq, Hx|by rewrite lookup_insert_ne, lookup_alter_ne].
Qed.
Lemma set_hpprev_eq s n v : is_Some (hh_node s !! n) -> set_hpprev n v s = Ret tt (with_pprev n v s).
Proof.
  intros [x Hx]. unfold set_hpprev, put_hnode, get_hnode, with_pprev. mrung. rewrite Hx. mrung. rewrite Hx. mrung. do 2 f_equal.
  apply map_eq. intros a. destruct (decide (n = a)) as [<-|]; [by rewrite lookup_insert_eq, lookup_alter_eq, Hx|by rewrite lookup_insert_ne, lookup_alter_ne].
Qed.
Lemma store_loc_eq s p v o : at_loc s p = Some o -> store_loc (Some p) v s = Ret tt (with_loc p v s).
Proof.
  destruct p as [h|n|]; cbn [at_loc store_loc with_loc]; [| |done].
  - intros Hx. unfold set_first, get_first. mrung. by rewrite Hx.
  - intros Hx. apply set_hnext_eq. destruct (hh_node s !! n); [by eexists|done].
Qed.

Lemma at_with_next s n v p : is_Some (hh_node s !! n) -> at_loc (with_next n v s) p = if decide (p = LNext n) then Some v else at_loc s p.
Proof.
  intros [x Hx]. destruct p as [h|m|]; [by rewrite decide_False| |by rewrite decide_False]. cbn [at_loc with_next hh_node]. destruct (decide (LNext m = LNext n)) as [E|Hne].
  - injection E as ->. by rewrite lookup_alter_eq, Hx.
  - rewrite lookup_alter_ne by congruence. done.
Qed.
Lemma back_with_next s n v x : back (with_next n v s) x = back s x.
Proof. unfold back. cbn [with_next hh_node]. destruct (decide (n = x)) as [->|]; [rewrite lookup_alter_eq; by destruct (hh_node s !! x)|by rewrite lookup_alter_ne]. Qed.
Lemma at_with_pprev s n v p : at_loc (with_pprev n v s) p = at_loc s p.
Proof.
  destruct p as [h|m|]; [done| |done]. cbn [at_loc with_pprev hh_node]. destruct (decide (n = m)) as [->|]; [rewrite lookup_alter_eq; by destruct (hh_node s !! m)|by rewrite lookup_alter_ne].
Qed.
Lemma back_with_pprev s n v x : is_Some (hh_node s !! n) -> back (with_pprev n v s) x = if decide (x = n) then Some v else back s x.
Proof.
  intros [y Hy]. unfold back. cbn [with_pprev hh_node]. destruct (decide (x = n)) as [->|]; [by rewrite lookup_alter_eq, Hy|by rewrite lookup_alter_ne].
Qed.
Lemma at_with_loc s p v o q : at_loc s p = Some o -> at_loc (with_loc p v s) q = if decide (q = p) then Some v else at_loc s q.
Proof.
  destruct p as [h|n|]; cbn [at_loc with_loc]; [| |done].
  - intros Hp. destruct q as [h'|m|]; [|by rewrite decide_False..]. cbn [at_loc with_first hh_first]. destruct (decide (LFirst h' = LFirst h)) as [E|Hne].
    + injection E as ->. by rewrite lookup_insert_eq.
    + rewrite lookup_insert_ne by congruence. done.
  - intros Hp. apply at_with_next. destruct (hh_node s !! n); [by eexists|done].
Qed.
Lemma back_with_loc s p v x : back (with_loc p v s) x = back s x.
Proof. destruct p as [h|n|]; [done|apply back_with_next|done]. Qed.

Definition node (s : hheap) (n : N) : Prop := is_Some (hh_node s !! n).
Lemma node_with_next s m v n : node (with_next m v s) n <-> node s n.
Proof. unfold node. cbn. by rewrite lookup_alter_is_Some. Qed.
Lemma node_with_pprev s m v n : node (with_pprev m v s) n <-> node s n.
Proof. unfold node. cbn. by rewrite lookup_alter_is_Some. Qed.
Lemma node_with_loc s p v n : node (with_loc p v s) n <-> node s n.
Proof. destruct p; [done|apply node_with_next|done]. Qed.
Lemma back_node s x p : back s x = Some p -> node s x.
Proof. unfold back, node. destruct (hh_node s !! x); [by eexists|done]. Qed.

Lemma hseg_at s p l : hseg s p l -> at_loc s p = Some (hd_error l).
Proof. destruct l; cbn; tauto. Qed.

(** ** Inserting and removing *)

(** [s'] has [n] in front of [l2], behind the place [e]. *)
Record put_in (s s' : hheap) (e : hloc) (n : N) (l2 : list N) : Prop := {
  pi_at q : at_loc s' q = if decide (q = e) then Some (Some n) else if decide (q = LNext n) then Some (hd_error l2) else at_loc s q;
  pi_back x : back s' x = if decide (x = n) then Some (Some e) else if decide (Some x = hd_error l2) then Some (Some (LNext n)) else back s x }.

Lemma put_in_ok s s' h l1 n l2 : hlist s h (l1 ++ l2) -> n ∉ l1 ++ l2 -> put_in s s' (end_loc (LFirst h) l1) n l2 -> hlist s' h (l1 ++ n :: l2).
Proof.
  intros [Hnd Hs] Hn [Ha Hb]. apply NoDup_app in Hnd as (Hnd1 & Hdj & Hnd2). apply hseg_app in Hs as [H1' H2']. split.
  { apply NoDup_app. split_and!; [done|set_solver|]. apply NoDup_cons. set_solver. }
  set (e := end_loc (LFirst h) l1) in *. assert (forall x, x ∈ l2 -> LNext x <> e) as Hne.
  { intros x Hx E. destruct (end_loc_in (LFirst h) l1) as [E2|(y & Hy & E2)]; fold e in E2; rewrite E2 in E; [done|]. injection E as ->. by apply (Hdj y). }
  assert (LNext n <> e) as Hnn. { intros E. destruct (end_loc_in (LFirst h) l1) as [E2|(y & Hy & E2)]; fold e in E2; rewrite E2 in E; [done|]. injection E as ->. set_solver. }
  apply hseg_app. split.
  - apply (hpre_keep s); [done| | |done].
    + intros Hl. rewrite Ha, !decide_False; [done|done|]. intros E. unfold e, end_loc in E. destruct (last l1) eqn:El; [done|]. by apply last_None in El.
    + intros x Hx. split.
      * intros Hl. rewrite Ha, !decide_False; [done|intros [= ->]; set_solver|]. intros E. apply Hl. unfold e, end_loc in E. destruct (last l1); [by injection E as <-|done].
      * rewrite Hb, !decide_False; [done| |set_solver]. intros E. apply (Hdj x Hx). destruct l2 as [|y l2]; [done|]. injection E as ->. set_solver.
  - fold e. cbn [hseg]. rewrite Ha, Hb, !decide_True by done. split_and!; [done|done|]. destruct l2 as [|y l2]; cbn [hseg] in *.
    + by rewrite Ha, decide_False, decide_True.
    + destruct H2' as (A & B & C). apply NoDup_cons in Hnd2 as [Hy Hnd2]. rewrite Ha, decide_False, decide_True by done. rewrite Hb, decide_False, decide_True by (done || set_solver). split_and!; [done|done|].
      apply (hseg_keep s); [rewrite Ha, !decide_False; [done|intros [= ->]; set_solver|apply Hne; set_solver]| |done]. intros x Hx. split.
      * rewrite Ha, !decide_False; [done|intros [= ->]; set_solver|apply Hne; set_solver].
      * rewrite Hb, !decide_False; [done|intros [= ->]; done|set_solver].
Qed.

(** [s'] goes on from [e] to [l2]; nothing is said of the node [x], which was between. *)
Record taken_out (s s' : hheap) (e : hloc) (x : N) (l2 : list N) : Prop := {
  to_at q : q <> LNext x -> at_loc s' q = if decide (q = e) then Some (hd_error l2) else at_loc s q;
  to_back y : y <> x -> back s' y = if decide (Some y = hd_error l2) then Some (Some e) else back s y }.

Lemma taken_out_ok s s' h l1 x l2 : hlist s h (l1 ++ x :: l2) -> taken_out s s' (end_loc (LFirst h) l1) x l2 -> hlist s' h (l1 ++ l2).
Proof.
  intros [Hnd Hs] [Ha Hb]. apply NoDup_app in Hnd as (Hnd1 & Hdj & Hnd2). apply NoDup_cons in Hnd2 as [Hx Hnd2]. apply hseg_app in Hs as [H1' (_ & _ & H2')]. split.
  { apply NoDup_app. split_and!; [done|set_solver|done]. }
  assert (x ∉ l1) as Hx1 by (intros Hin; apply (Hdj x Hin); set_solver).
  set (e := end_loc (LFirst h) l1) in *. assert (forall y, y ∉ l1 -> LNext y <> e) as Hne.
  { intros y Hy E. destruct (end_loc_in (LFirst h) l1) as [E2|(z & Hz & E2)]; fold e in E2; rewrite E2 in E; [done|]. by injection E as ->. }
  apply hseg_app. split.
  - apply (hpre_keep s); [done| | |done].
    + intros Hl. rewrite Ha, decide_False; [done| |done]. intros E. unfold e, end_loc in E. destruct (last l1) eqn:El; [done|]. by apply last_None in El.
    + intros y Hy. split.
      * intros Hl. rewrite Ha, decide_False; [done| |intros [= ->]; done]. intros E. apply Hl. unfold e, end_loc in E. destruct (last l1); [by injection E as <-|done].
      * rewrite Hb, decide_False; [done| |intros ->; done]. intros E. apply (Hdj y Hy). destruct l2 as [|z l2]; [done|]. injection E as ->. set_solver.
  - fold e. assert (e <> LNext x) as Hex by (intros E; by apply (Hne x)). destruct l2 as [|y l2]; cbn [hseg] in *.
    + by rewrite Ha, decide_True.
    + destruct H2' as (A & B & C). apply NoDup_cons in Hnd2 as [Hy Hnd2]. rewrite Ha, decide_True by done. rewrite Hb, decide_True by (done || set_solver). split_and!; [done|done|].
      assert (forall z, z ∈ y :: l2 -> at_loc s' (LNext z) = at_loc s (LNext z)) as Hz.
      { intros z Hz. rewrite Ha, decide_False; [done| |intros [= ->]; set_solver]. apply Hne. intros Hin. apply (Hdj z Hin). set_solver. }
      apply (hseg_keep s); [apply Hz; set_solver| |done]. intros z Hin. split; [apply Hz; set_solver|]. rewrite Hb, decide_False; [done|intros [= ->]; done|set_solver].
Qed.

(** ** The operations *)

Lemma get_hnode_Ret s n x : hh_node s !! n = Some x -> get_hnode n s = Ret x s.
Proof. intros Hx. unfold get_hnode. mrung. by rewrite Hx. Qed.
Lemma get_first_Ret s h o : at_loc s (LFirst h) = Some o -> get_first h s = Ret o s.
Proof. cbn [at_loc]. intros Ho. unfold get_first. mrung. by rewrite Ho. Qed.
Lemma node_is s n o b : at_loc s (LNext n) = Some o -> back s n = Some b -> hh_node s !! n = Some (mk_hlist_node o b).
Proof. cbn [at_loc]. unfold back. destruct (hh_node s !! n) as [ [] |]; [|done]. cbn. by intros [= ->] [= ->]. Qed.

(** The back pointer of the node that follows, if there is one. *)
Definition with_back (o : option N) (p : hloc) (s : hheap) : hheap := match o with Some m => with_pprev m (Some p) s | None => s end.
Lemma with_back_eq s o p : (forall m, o = Some m -> node s m) -> match o with Some m => set_hpprev m (Some p) | None => mret tt end s = Ret tt (with_back o p s).
Proof. intros Hn. destruct o as [m|]; [|done]. by apply set_hpprev_eq, Hn. Qed.
Lemma at_with_back s o p q : at_loc (with_back o p s) q = at_loc s q.
Proof. destruct o; [apply at_with_pprev|done]. Qed.
Lemma back_with_back s o p x : (forall m, o = Some m -> node s m) -> back (with_back o p s) x = if decide (Some x = o) then Some (Some p) else back s x.
Proof.
  intros Hn. destruct o as [m|]; cbn [with_back]; [|by rewrite decide_False]. rewrite back_with_pprev by (by apply Hn).
  destruct (decide (x = m)) as [->|]; [by rewrite decide_True|by rewrite decide_False by congruence].
Qed.
Lemma node_with_back s o p n : node (with_back o p s) n <-> node s n.
Proof. destruct o; [apply node_with_pprev|done]. Qed.

Lemma hseg_nodes s p l : hseg s p l -> forall m, m ∈ l -> node s m.
Proof. revert p. induction l as [|x l IH]; intros p; cbn [hseg]; [set_solver|]. intros (_ & Hb & Hs) m [->|Hm]%elem_of_cons; [by eapply back_node|by eapply IH]. Qed.
Lemma hd_in (l : list N) m : hd_error l = Some m -> m ∈ l.
Proof. destruct l; [done|]. intros [= ->]. set_solver. Qed.

Lemma add_head_ok s h n l : hlist s h l -> n ∉ l -> node s n -> exists s', hlist_add_head n h s = Ret tt s' /\ put_in s s' (LFirst h) n l.
Proof.
  intros [Hnd Hs] Hn Sn. pose proof (hseg_at _ _ _ Hs) as Hf. set (s1 := with_next n (hd_error l) s). set (s2 := with_back (hd_error l) (LNext n) s1).
  assert (forall m, hd_error l = Some m -> node s1 m) as Hm by (intros m Hm; apply node_with_next; by eapply hseg_nodes, hd_in).
  exists (with_pprev n (Some (LFirst h)) (with_loc (LFirst h) (Some n) s2)). split.
  - unfold hlist_add_head. rewrite (bind_Ret _ _ _ _ _ (get_first_Ret _ _ _ Hf)). rewrite (bind_Ret _ _ _ _ _ (set_hnext_eq s n (hd_error l) Sn)). fold s1.
    rewrite (bind_Ret _ _ _ _ _ (with_back_eq s1 (hd_error l) (LNext n) Hm)). fold s2.
    assert (at_loc s2 (LFirst h) = Some (hd_error l)) as H2' by (unfold s2, s1; by rewrite at_with_back, at_with_next, decide_False by done).
    rewrite (bind_Ret _ _ _ _ _ (store_loc_eq s2 (LFirst h) (Some n) _ H2')). apply set_hpprev_eq. apply node_with_loc, node_with_back. by apply node_with_next.
  - assert (at_loc s2 (LFirst h) = Some (hd_error l)) as H2' by (unfold s2, s1; by rewrite at_with_back, at_with_next, decide_False by done). split.
    + intros q. rewrite at_with_pprev, (at_with_loc _ _ _ _ _ H2'). case_decide; [done|]. unfold s2, s1. by rewrite at_with_back, at_with_next.
    + intros x. rewrite back_with_pprev by (apply node_with_loc, node_with_back; by apply node_with_next). case_decide; [done|]. rewrite back_with_loc. unfold s2. rewrite back_with_back by done.
      case_decide; [done|]. apply back_with_next.
Qed.

Lemma add_before_ok s h l1 x l2 n : hlist s h (l1 ++ x :: l2) -> n ∉ l1 ++ x :: l2 -> node s n ->
  exists s', hlist_add_before n x s = Ret tt s' /\ put_in s s' (end_loc (LFirst h) l1) n (x :: l2).
Proof.
  intros [Hnd Hs] Hn Sn. apply hseg_app in Hs as [_ Hs]. set (e := end_loc (LFirst h) l1) in *. pose proof Hs as (He & Hb & Hs2). pose proof (node_is _ _ _ _ (hseg_at _ _ _ Hs2) Hb) as Hx.
  assert (x <> n) as Hxn by set_solver. assert (e <> LNext n) as Hen.
  { intros E. destruct (end_loc_in (LFirst h) l1) as [E2|(z & Hz & E2)]; fold e in E2; rewrite E2 in E; [done|]. injection E as ->. set_solver. }
  set (s1 := with_pprev n (Some e) s). set (s2 := with_next n (Some x) s1). set (s3 := with_pprev x (Some (LNext n)) s2).
  assert (node s1 n /\ node s2 x) as [S1 S2] by (split; [by apply node_with_pprev|apply node_with_next, node_with_pprev; by eexists]).
  assert (at_loc s3 e = Some (Some x)) as H3' by (unfold s3, s2, s1; by rewrite at_with_pprev, at_with_next, decide_False, at_with_pprev).
  assert (hh_node s3 !! n = Some (mk_hlist_node (Some x) (Some e))) as Hn3.
  { apply node_is; unfold s3, s2, s1; [by rewrite at_with_pprev, at_with_next, decide_True|]. rewrite back_with_pprev, decide_False by done. by rewrite back_with_next, back_with_pprev, decide_True. }
  exists (with_loc e (Some n) s3). split.
  - unfold hlist_add_before. rewrite (bind_Ret _ _ _ _ _ (get_hnode_Ret _ _ _ Hx)). cbn [hn_pprev]. rewrite (bind_Ret _ _ _ _ _ (set_hpprev_eq s n (Some e) Sn)). fold s1.
    rewrite (bind_Ret _ _ _ _ _ (set_hnext_eq s1 n (Some x) S1)). fold s2. rewrite (bind_Ret _ _ _ _ _ (set_hpprev_eq s2 x (Some (LNext n)) S2)). fold s3.
    rewrite (bind_Ret _ _ _ _ _ (get_hnode_Ret _ _ _ Hn3)). by eapply store_loc_eq.
  - split.
    + intros q. rewrite (at_with_loc _ _ _ _ _ H3'). case_decide; [done|]. unfold s3, s2, s1. rewrite at_with_pprev, at_with_next by done. by rewrite at_with_pprev.
    + intros y. rewrite back_with_loc. unfold s3, s2. rewrite back_with_pprev, back_with_next by done. unfold s1. cbn [hd_error]. destruct (decide (y = n)) as [->|Hy].
      * rewrite decide_False by done. rewrite back_with_pprev by done. by rewrite decide_True.
      * destruct (decide (y = x)) as [->|Hyx]; [by rewrite decide_True|]. rewrite (decide_False (P := Some y = Some x)) by congruence. rewrite back_with_pprev by done. by rewrite decide_False.
Qed.

Lemma add_behind_ok s h l1 x l2 n : hlist s h (l1 ++ x :: l2) -> n ∉ l1 ++ x :: l2 -> node s n ->
  exists s', hlist_add_behind n x s = Ret tt s' /\ put_in s s' (end_loc (LFirst h) (l1 ++ [x])) n l2.
Proof.
  intros [Hnd Hs] Hn Sn. assert (end_loc (LFirst h) (l1 ++ [x]) = LNext x) as -> by (unfold end_loc; by rewrite last_snoc).
  apply hseg_app in Hs as [_ (_ & Hb & Hs2)]. pose proof (hseg_at _ _ _ Hs2) as Hf. pose proof (node_is _ _ _ _ Hf Hb) as Hx. assert (x <> n) as Hxn by set_solver.
  set (s1 := with_next n (hd_error l2) s). set (s2 := with_next x (Some n) s1). set (s3 := with_pprev n (Some (LNext x)) s2).
  assert (node s1 x /\ node s1 n /\ node s2 n) as (S1 & S1' & S2) by (split_and!; repeat apply node_with_next; done || by eexists).
  assert (forall m, hd_error l2 = Some m -> node s3 m) as Hm by (intros m Hm; apply node_with_pprev, node_with_next, node_with_next; by eapply hseg_nodes, hd_in).
  assert (hh_node s3 !! n = Some (mk_hlist_node (hd_error l2) (Some (LNext x)))) as Hn3.
  { apply node_is; unfold s3; [|by rewrite back_with_pprev, decide_True]. rewrite at_with_pprev. unfold s2. rewrite at_with_next, decide_False by (done || congruence). unfold s1. by rewrite at_with_next, decide_True. }
  exists (with_back (hd_error l2) (LNext n) s3). split.
  - unfold hlist_add_behind. rewrite (bind_Ret _ _ _ _ _ (get_hnode_Ret _ _ _ Hx)). cbn [hn_next]. rewrite (bind_Ret _ _ _ _ _ (set_hnext_eq s n (hd_error l2) Sn)). fold s1.
    rewrite (bind_Ret _ _ _ _ _ (set_hnext_eq s1 x (Some n) S1)). fold s2. rewrite (bind_Ret _ _ _ _ _ (set_hpprev_eq s2 n (Some (LNext x)) S2)). fold s3.
    rewrite (bind_Ret _ _ _ _ _ (get_hnode_Ret _ _ _ Hn3)). by apply with_back_eq.
  - split.
    + intros q. rewrite at_with_back. unfold s3, s2, s1. rewrite at_with_pprev, at_with_next by done. case_decide; [done|]. by rewrite at_with_next.
    + intros y. rewrite back_with_back by done. assert (Some n <> hd_error l2) as Hnl by (intros E; symmetry in E; apply hd_in in E; set_solver).
      unfold s3. destruct (decide (y = n)) as [->|Hy]; [rewrite decide_False by done; by rewrite back_with_pprev, decide_True|].
      case_decide; [done|]. rewrite back_with_pprev, decide_False by done. unfold s2, s1. by rewrite !back_with_next.
Qed.

Lemma del_links_ok s h l1 x l2 : hlist s h (l1 ++ x :: l2) -> exists s', hlist_del_links x s = Ret tt s' /\ taken_out s s' (end_loc (LFirst h) l1) x l2 /\ node s' x.
Proof.
  intros [Hnd Hs]. apply hseg_app in Hs as [_ (He & Hb & Hs2)]. set (e := end_loc (LFirst h) l1) in *. pose proof (hseg_at _ _ _ Hs2) as Hf. pose proof (node_is _ _ _ _ Hf Hb) as Hx.
  set (s1 := with_loc e (hd_error l2) s). assert (forall m, hd_error l2 = Some m -> node s1 m) as Hm by (intros m Hm; apply node_with_loc; by eapply hseg_nodes, hd_in).
  exists (with_back (hd_error l2) e s1). split; [|split].
  - unfold hlist_del_links. rewrite (bind_Ret _ _ _ _ _ (get_hnode_Ret _ _ _ Hx)). cbn [hn_next hn_pprev]. rewrite (bind_Ret _ _ _ _ _ (store_loc_eq s e (hd_error l2) _ He)). fold s1. by apply with_back_eq.
  - split.
    + intros q Hq. rewrite at_with_back. unfold s1. by rewrite (at_with_loc _ _ _ _ _ He).
    + intros y Hy. rewrite back_with_back by done. case_decide; [done|]. apply back_with_loc.
  - apply node_with_back, node_with_loc. by eexists.
Qed.

Lemma taken_out_touch s s' s'' e x l2 : taken_out s s' e x l2 -> (forall q, q <> LNext x -> at_loc s'' q = at_loc s' q) -> (forall y, y <> x -> back s'' y = back s' y) -> taken_out s s'' e x l2.
Proof. intros [Ha Hb] H1' H2'. split; [intros q Hq; by rewrite H1', Ha|intros y Hy; by rewrite H2', Hb]. Qed.

(** Two stores into the removed node. *)
Lemma touch_ok s s' e x l2 a b : taken_out s s' e x l2 -> node s' x -> exists s'', (set_hnext x a ;; set_hpprev x b) s' = Ret tt s'' /\ taken_out s s'' e x l2.
Proof.
  intros Ht Sx. exists (with_pprev x b (with_next x a s')). split.
  - rewrite (bind_Ret _ _ _ _ _ (set_hnext_eq s' x a Sx)). apply set_hpprev_eq. by apply node_with_next.
  - apply (taken_out_touch _ _ _ _ _ _ Ht).
    + intros q Hq. rewrite at_with_pprev, at_with_next by done. by rewrite decide_False.
    + intros y Hy. rewrite back_with_pprev by (by apply node_with_next). rewrite decide_False by done. apply back_with_next.
Qed.

Inductive hlist_op := HAddHead (n : N) | HAddBefore (n x : N) | HAddBehind (n x : N) | HDel (x : N) | HDelInit (x : N).

Definition run_hlist (h : N) (op : hlist_op) : M hheap unit :=
  match op with
  | HAddHead n => hlist_add_head n h
  | HAddBefore n x => hlist_add_before n x
  | HAddBehind n x => hlist_add_behind n x
  | HDel x => hlist_del x
  | HDelInit x => hlist_del_init x
  end.

(** What an operation at the entry between [l1] and [l2] makes of the sequence. *)
Definition hlist_after (op : hlist_op) (l1 : list N) (x : N) (l2 : list N) : list N :=
  match op with
  | HAddHead n => n :: l1 ++ x :: l2
  | HAddBefore n _ => l1 ++ n :: x :: l2
  | HAddBehind n _ => l1 ++ x :: n :: l2
  | HDel _ | HDelInit _ => l1 ++ l2
  end.
Definition hlist_op_ok (s : hheap) (op : hlist_op) (l1 : list N) (x : N) (l2 : list N) : Prop :=
  match op with
  | HAddHead n => (n ∉ l1 ++ x :: l2) /\ node s n
  | HAddBefore n y | HAddBehind n y => y = x /\ (n ∉ l1 ++ x :: l2) /\ node s n
  | HDel y | HDelInit y => y = x
  end.

(** The lists with a single-pointer head implement sequences: adding at the front, before
    or behind an entry, and removing an entry, wherever it is, do to the sequence what
    they say, and every back pointer points to the place that points to its node. *)
Theorem hlist_op_refines s h l1 x l2 op : hlist s h (l1 ++ x :: l2) -> hlist_op_ok s op l1 x l2 ->
  exists s', run_hlist h op s = Ret tt s' /\ hlist s' h (hlist_after op l1 x l2).
Proof.
  intros Hl Hok. destruct op as [n|n y|n y|y|y]; cbn [run_hlist hlist_after hlist_op_ok] in *.
  - destruct Hok as [Hn Sn]. destruct (add_head_ok s h n _ Hl Hn Sn) as (s' & E & Hp). exists s'. split; [done|]. by apply (put_in_ok s s' h [] n).
  - destruct Hok as (-> & Hn & Sn). destruct (add_before_ok s h l1 x l2 n Hl Hn Sn) as (s' & E & Hp). exists s'. split; [done|]. by apply (put_in_ok s s' h l1 n (x :: l2)).
  - destruct Hok as (-> & Hn & Sn). destruct (add_behind_ok s h l1 x l2 n Hl Hn Sn) as (s' & E & Hp). exists s'. split; [done|].
    assert (l1 ++ x :: n :: l2 = (l1 ++ [x]) ++ n :: l2) as -> by (by rewrite <- app_assoc). apply (put_in_ok s s' h); [by rewrite <- app_assoc|by rewrite <- app_assoc|done].
  - subst y. destruct (del_links_ok s h l1 x l2 Hl) as (s1 & E1 & Ht & Sx). destruct (touch_ok s s1 _ x l2 (Some LIST_POISON1) (Some LPoison2) Ht Sx) as (s2 & E2 & Ht2).
    exists s2. split; [unfold hlist_del; by rewrite (bind_Ret _ _ _ _ _ E1)|by apply (taken_out_ok s s2 h l1 x l2)].
  - subst y. destruct (del_links_ok s h l1 x l2 Hl) as (s1 & E1 & Ht & Sx). destruct (touch_ok s s1 _ x l2 None None Ht Sx) as (s2 & E2 & Ht2).
    exists s2. split; [|by apply (taken_out_ok s s2 h l1 x l2)]. destruct Hl as [_ Hs]. apply hseg_app in Hs as [_ (_ & Hb & Hs2)]. pose proof (node_is _ _ _ _ (hseg_at _ _ _ Hs2) Hb) as Hx.
    unfold hlist_del_init, hlist_unhashed. rewrite bind_eq, (bind_Ret _ _ _ _ _ (get_hnode_Ret _ _ _ Hx)). cbn. by rewrite (bind_Ret _ _ _ _ _ E1).
Qed.

(** The count of the nodes, with fuel above it. *)
Lemma hlist_count_ok s h l fuel : hlist s h l -> (length l < fuel)%nat -> hlist_count_nodes fuel h s = Ret (Z.of_nat (length l)) s.
Proof.
  intros [_ Hs] Hf. unfold hlist_count_nodes. rewrite (bind_Ret _ _ _ _ _ (get_first_Ret _ _ _ (hseg_at _ _ _ Hs))).
  assert (forall l p fuel c, hseg s p l -> (length l < fuel)%nat -> while_loop fuel (hd_error l, c) (fun '(pos, count) =>
    match pos with None => mret (inr count) | Some n => x ← get_hnode n; mret (inl (hn_next x, count + 1)) end) s = Ret (c + Z.of_nat (length l)) s) as Hc.
  { clear. induction l as [|x l IH]; intros p fuel c Hs Hf; (destruct fuel as [|fuel]; [cbn in Hf; lia|]); rewrite while_S, bind_eq; cbn [hd_error].
    - cbn. f_equal. lia.
    - destruct Hs as (_ & Hb & Hs). rewrite (bind_Ret _ _ _ _ _ (get_hnode_Ret _ _ _ (node_is _ _ _ _ (hseg_at _ _ _ Hs) Hb))). cbn [obind mret M_ret hn_next].
      rewrite (IH _ fuel (c + 1) Hs) by (cbn in Hf; lia). f_equal. cbn [length]. lia. }
  by apply (Hc l _ fuel 0 Hs).
Qed.
End HListH.
