(* ===== verification/ListEntry.v ===== *)
(** * Entries of lists: include/util/list.h (list_entry and the iterators over entries), list_include.h (container_of)

    A structure with a [struct list_head] inside is found from the cell by the offset of
    its member; pointers are 64-bit words.  Walking over the entries is walking over the
    cells. *)

From S2P Require Import Prelude ListH ListSplice.

Abbreviation heap := (gmap Z (Z * Z)).

(** [&pos->member], for a member at the offset [member]. *)
Definition member_of (pos member : Z) : Z := u64 (pos + member).

Definition container_of (ptr member : Z) : Z := u64 (ptr - member).
Definition list_entry (ptr member : Z) : Z := container_of ptr member.
Definition list_first_entry (ptr member : Z) : M heap Z := n ← get_next ptr; mret (list_entry n member).
Definition list_last_entry (ptr member : Z) : M heap Z := p ← get_prev ptr; mret (list_entry p member).
Definition list_first_entry_or_null (ptr member : Z) : M heap Z :=
  pos ← get_next ptr; mret (if negb (pos =? ptr) then list_entry pos member else 0).
Definition list_next_entry (pos member : Z) : M heap Z := n ← get_next (member_of pos member); mret (list_entry n member).
Definition list_prev_entry (pos member : Z) : M heap Z := p ← get_prev (member_of pos member); mret (list_entry p member).
Definition list_next_entry_circular (pos head member : Z) : M heap Z :=
  l ← list_is_last (member_of pos member) head;
  if (l : bool) then list_first_entry head member else list_next_entry pos member.
Definition list_prev_entry_circular (pos head member : Z) : M heap Z :=
  f ← list_is_first (member_of pos member) head;
  if (f : bool) then list_last_entry head member else list_prev_entry pos member.
Definition list_entry_is_head (pos head member : Z) : bool := list_is_head (member_of pos member) head.
Definition list_prepare_entry (pos head member : Z) : Z := if negb (pos =? 0) then pos else list_entry head member.
Definition list_safe_reset_next (pos member : Z) : M heap Z := list_next_entry pos member.

(** The loops: [step] is [list_next_entry] or [list_prev_entry]. *)
Definition entry_walk {R} (step : Z -> Z -> M heap Z) (fuel : nat) (pos head member : Z) (body : Z -> M heap (option R)) : M heap (option R) :=
  while_loop fuel pos (fun pos =>
    if list_entry_is_head pos head member then mret (inr None) else
    r ← body pos;
    match r with Some v => mret (inr (Some v)) | None => n ← step pos member; mret (inl n) end).
Definition entry_walk_safe {R} (step : Z -> Z -> M heap Z) (fuel : nat) (pos head member : Z) (body : Z -> M heap (option R)) : M heap (option R) :=
  n ← step pos member;
  while_loop fuel (pos, n) (fun '(pos, n) =>
    if list_entry_is_head pos head member then mret (inr None) else
    r ← body pos;
    match r with Some v => mret (inr (Some v)) | None => n' ← step n member; mret (inl (n, n')) end).

Section Loops.
Context {R : Type} (fuel : nat).
Definition list_for_each_entry (head member : Z) (body : Z -> M heap (option R)) : M heap (option R) :=
  pos ← list_first_entry head member; entry_walk list_next_entry fuel pos head member body.
Definition list_for_each_entry_reverse (head member : Z) (body : Z -> M heap (option R)) : M heap (option R) :=
  pos ← list_last_entry head member; entry_walk list_prev_entry fuel pos head member body.
Definition list_for_each_entry_continue (pos head member : Z) (body : Z -> M heap (option R)) : M heap (option R) :=
  pos ← list_next_entry pos member; entry_walk list_next_entry fuel pos head member body.
Definition list_for_each_entry_continue_reverse (pos head member : Z) (body : Z -> M heap (option R)) : M heap (option R) :=
  pos ← list_prev_entry pos member; entry_walk list_prev_entry fuel pos head member body.
Definition list_for_each_entry_from (pos head member : Z) (body : Z -> M heap (option R)) : M heap (option R) :=
  entry_walk list_next_entry fuel pos head member body.
Definition list_for_each_entry_from_reverse (pos head member : Z) (body : Z -> M heap (option R)) : M heap (option R) :=
  entry_walk list_prev_entry fuel pos head member body.
Definition list_for_each_entry_safe (head member : Z) (body : Z -> M heap (option R)) : M heap (option R) :=
  pos ← list_first_entry head member; entry_walk_safe list_next_entry fuel pos head member body.
Definition list_for_each_entry_safe_continue (pos head member : Z) (body : Z -> M heap (option R)) : M heap (option R) :=
  pos ← list_next_entry pos member; entry_walk_safe list_next_entry fuel pos head member body.
Definition list_for_each_entry_safe_from (pos head member : Z) (body : Z -> M heap (option R)) : M heap (option R) :=
  entry_walk_safe list_next_entry fuel pos head member body.
Definition list_for_each_entry_safe_reverse (head member : Z) (body : Z -> M heap (option R)) : M heap (option R) :=
  pos ← list_last_entry head member; entry_walk_safe list_prev_entry fuel pos head member body.
End Loops.

(** ** Entries and cells *)

Lemma member_container p member : 0 <= p < 2 ^ 64 -> member_of (container_of p member) member = p.
Proof. intros Hp. unfold member_of, container_of, u64 in *. rewrite Zplus_mod_idemp_l. rewrite Z.sub_add. by apply Z.mod_small. Qed.

(** Looking for an entry from either end finds the one of the first cell in that direction. *)
Theorem entry_find (h : heap) head l fuel member (P : Z -> bool) : dll h head l -> Forall (fun a => 0 <= a < 2 ^ 64) (head :: l) -> (length l < fuel)%nat ->
  let body := fun pos => mret (if P pos then Some pos else None) in
  list_for_each_entry fuel head member body h = Ret (find P (map (fun a => container_of a member) l)) h /\
  list_for_each_entry_reverse fuel head member body h = Ret (find P (map (fun a => container_of a member) (rev l))) h.
Proof.
  intros [Hnd Hs] HF Hf body. apply Forall_cons in HF as [Hh HF]. apply NoDup_cons in Hnd as [Hn _].
  assert (forall (step : Z -> M heap Z) estep, (forall a, 0 <= a < 2 ^ 64 -> estep (container_of a member) member = (n ← step a; mret (list_entry n member))) ->
    forall l fuel a, row step h a l head -> Forall (fun a => 0 <= a < 2 ^ 64) l -> head ∉ l -> (length l < fuel)%nat ->
    (n ← step a; entry_walk estep fuel (list_entry n member) head member body) h = Ret (find P (map (fun a => container_of a member) l)) h) as Hw.
  { clear -Hh. intros step estep Hst. induction l as [|x l IH]; intros fuel a Hr HF Hn Hf; cbn [row] in Hr; (destruct fuel as [|fuel]; [cbn in Hf; lia|]); unfold entry_walk.
    - rewrite (bind_Ret _ _ _ _ _ Hr). rewrite while_S, bind_eq. unfold list_entry_is_head, list_entry, list_is_head. rewrite member_container by done. by rewrite bool_decide_true.
    - apply Forall_cons in HF as [Hx HF]. destruct Hr as [Ex Hr]. rewrite (bind_Ret _ _ _ _ _ Ex). rewrite while_S, bind_eq. unfold list_entry_is_head at 1, list_entry, list_is_head.
      rewrite member_container by done. rewrite bool_decide_false by set_solver. unfold body at 1. rewrite bind_mret. cbn [map find]. destruct (P (container_of x member)); [done|].
      rewrite Hst by done. specialize (IH fuel x Hr HF ltac:(set_solver) ltac:(cbn in Hf; lia)). rewrite <- IH.
      assert (exists y, step x h = Ret y h) as [y Hy] by (destruct l; [by exists head|by eexists; apply Hr]). rewrite bind_eq, !(bind_Ret _ _ _ _ _ Hy). done. }
  assert (forall (c : M heap Z) (k : Z -> M heap (option Z)) x, c h = Ret x h -> ((n ← c; mret (list_entry n member)) ≫= k) h = (n ← c; k (list_entry n member)) h) as Ha.
  { intros c k x Hx. by rewrite bind_eq, !(bind_Ret _ _ _ _ _ Hx). }
  pose proof (row_next _ _ _ _ Hs) as Rn. pose proof (row_prev _ _ _ _ Hs) as Rp.
  assert (forall step l, row step h head l head -> exists x, step head h = Ret x h) as Hx by (intros step [|y k] Hr; [by exists head|exists y; apply Hr]).
  destruct (Hx _ _ Rn) as [x Ex]. destruct (Hx _ _ Rp) as [y Ey].
  split; unfold list_for_each_entry, list_for_each_entry_reverse, list_first_entry, list_last_entry; erewrite Ha by done.
  - apply (Hw get_next); [intros a Ha2; unfold list_next_entry; by rewrite member_container|done|done|done|done].
  - apply (Hw get_prev); [intros a Ha2; unfold list_prev_entry; by rewrite member_container|done|by apply Forall_rev| |by rewrite length_rev]. by rewrite list_elem_of_In, <- in_rev, <- list_elem_of_In.
Qed.
