(* ===== verification/VmSystem.v ===== *)
(** * Sv39 page-table entries and the address map

    include/riscv/vm_system.h, include/vm/memory_layout.h, the rounding macros of
    include/vm/vm.h, and the linker symbols they rest on. *)

From S2P Require Import Prelude.

(** ** Constants *)

Definition PGSIZE_BITS : Z := 12.
Definition PGSIZE : Z := Z.shiftl 1 PGSIZE_BITS.
Definition PGSIZE_MASK : Z := Z.shiftl 1 PGSIZE_BITS - 1.
Definition VA_END : Z := Z.shiftl 1 38.
Definition MAX_VA : Z := VA_END - 1.
Definition MAX_LEVEL : Z := 2.

Definition PTE_V : Z := Z.shiftl 1 0.
Definition PTE_R : Z := Z.shiftl 1 1.
Definition PTE_W : Z := Z.shiftl 1 2.
Definition PTE_X : Z := Z.shiftl 1 3.
Definition PTE_U : Z := Z.shiftl 1 4.

Definition PTE_ATTRIBUTE_BITS : Z := 10.
Definition PTE_ATTRIBUTE_MASK : Z := Z.shiftl 1 PTE_ATTRIBUTE_BITS - 1.
Definition PTE_PPN_BITS : Z := 44.
Definition PTE_PPN_MASK : Z := Z.shiftl (Z.shiftl 1 PTE_PPN_BITS - 1) PTE_ATTRIBUTE_BITS.

Definition VPN_LEVEL_N_BITS : Z := 9.
Definition VPN_LEVEL_N_MASK : Z := Z.shiftl 1 VPN_LEVEL_N_BITS - 1.

Definition KERNEL_BASE : Z := 0x80000000.
Definition MEMORY_SIZE : Z := 128 * Z.shiftl 1 20.
Definition MEMORY_END : Z := KERNEL_BASE + MEMORY_SIZE.
Definition TRAMPOLINE_BASE : Z := VA_END - PGSIZE.
Definition PROC_VA_START : Z := 0x1000.
Definition PROC_VA_END : Z := VA_END - PGSIZE * 4.
Definition USTACK_BASE : Z := VA_END - PGSIZE * 3.
Definition TRAPFRAME_BASE : Z := VA_END - PGSIZE * 2.

(** ** Macros *)

Definition VPN_LEVEL_N (va level : Z) : Z :=
  Z.land (Z.shiftr va (PGSIZE_BITS + level * VPN_LEVEL_N_BITS)) VPN_LEVEL_N_MASK.

Definition PTE_GET_PPN (pte : Z) : Z := Z.shiftr (Z.land pte PTE_PPN_MASK) PTE_ATTRIBUTE_BITS.
Definition PTE_GET_ATTRIBUTE (pte : Z) : Z := Z.land pte PTE_ATTRIBUTE_MASK.
Definition PTE_GET_PA (pte : Z) : Z := u64 (Z.shiftl (PTE_GET_PPN pte) PGSIZE_BITS).

Definition MAKE_PTE (pa attribute : Z) : Z :=
  Z.lor (Z.land (u64 (Z.shiftl (Z.shiftr (u64 pa) PGSIZE_BITS) PTE_ATTRIBUTE_BITS)) PTE_PPN_MASK)
        (Z.land attribute PTE_ATTRIBUTE_MASK).

Definition SATP_MODE_SV39 : Z := 8.
Definition SATP_MODE_BITS : Z := 60.
Definition SATP_PPN_MASK : Z := Z.shiftl 1 44 - 1.
Definition MAKE_SATP (pgtb : Z) : Z :=
  Z.lor (u64 (Z.shiftl SATP_MODE_SV39 SATP_MODE_BITS))
        (Z.land (Z.shiftr pgtb PGSIZE_BITS) SATP_PPN_MASK).

Definition ROUND_UP_PGSIZE (addr : Z) : Z :=
  Z.land (u64 (u64 addr + PGSIZE - 1)) (Z.lnot PGSIZE_MASK).
Definition ROUND_DOWN_PGSIZE (addr : Z) : Z := Z.land (u64 addr) (Z.lnot PGSIZE_MASK).
Definition GET_TRAMPOLINE_FN_VA (fn : Z) : Z := u64 (TRAMPOLINE_BASE + fn mod PGSIZE).

(** Replace the constants by their values, for [lia]. *)
Ltac vmconst :=
  change PGSIZE with 4096 in *; change PGSIZE_BITS with 12 in *;
  change VA_END with 274877906944 in *; change MAX_VA with 274877906943 in *;
  change MAX_LEVEL with 2 in *; change KERNEL_BASE with 2147483648 in *;
  change MEMORY_END with 2281701376 in *; change TRAMPOLINE_BASE with 274877902848 in *;
  change PROC_VA_START with 4096 in *; change PROC_VA_END with 274877890560 in *;
  change USTACK_BASE with 274877894656 in *; change TRAPFRAME_BASE with 274877898752 in *;
  change (2 ^ 64) with 18446744073709551616 in *; change (2 ^ 56) with 72057594037927936 in *;
  change (2 ^ 39) with 549755813888 in *; change (2 ^ 32) with 4294967296 in *.
Ltac vmlia := vmconst; lia.

(** ** Arithmetic readings *)

Lemma VPN_LEVEL_N_eq va level :
  0 <= level -> VPN_LEVEL_N va level = va / 2 ^ (12 + level * 9) mod 512.
Proof.
  intros Hl. unfold VPN_LEVEL_N, VPN_LEVEL_N_MASK, VPN_LEVEL_N_BITS, PGSIZE_BITS.
  rewrite land_mask, Z.shiftr_div_pow2 by lia. done.
Qed.

Lemma VPN_LEVEL_N_range va level : 0 <= level -> 0 <= VPN_LEVEL_N va level < 512.
Proof. intros Hl. rewrite VPN_LEVEL_N_eq by done. apply Z.mod_pos_bound. lia. Qed.

Lemma PTE_GET_PPN_eq pte : PTE_GET_PPN pte = pte / 2 ^ 10 mod 2 ^ 44.
Proof.
  unfold PTE_GET_PPN, PTE_PPN_MASK, PTE_PPN_BITS, PTE_ATTRIBUTE_BITS.
  rewrite land_field, Z.shiftr_div_pow2, Z.div_mul by lia. done.
Qed.

Lemma PTE_GET_PA_eq pte : PTE_GET_PA pte = pte / 2 ^ 10 mod 2 ^ 44 * 4096.
Proof.
  unfold PTE_GET_PA. rewrite PTE_GET_PPN_eq, Z.shiftl_mul_pow2 by done.
  change (2 ^ PGSIZE_BITS) with 4096. apply u64_small.
  pose proof (Z.mod_pos_bound (pte / 2 ^ 10) (2 ^ 44)). lia.
Qed.

Lemma PTE_GET_ATTRIBUTE_eq pte : PTE_GET_ATTRIBUTE pte = pte mod 1024.
Proof.
  unfold PTE_GET_ATTRIBUTE, PTE_ATTRIBUTE_MASK, PTE_ATTRIBUTE_BITS. by rewrite land_mask.
Qed.

Lemma MAKE_PTE_eq pa attribute :
  0 <= pa < 2 ^ 64 ->
  MAKE_PTE pa attribute = pa / 4096 mod 2 ^ 44 * 1024 + attribute mod 1024.
Proof.
  intros Hpa. unfold MAKE_PTE, PTE_PPN_MASK, PTE_PPN_BITS, PTE_ATTRIBUTE_MASK, PTE_ATTRIBUTE_BITS.
  rewrite land_field, land_mask by lia.
  rewrite lor_add by (try apply Z.mod_pos_bound; lia).
  rewrite Z.shiftr_div_pow2, Z.shiftl_mul_pow2 by done. rewrite (u64_small pa) by done.
  change (2 ^ PGSIZE_BITS) with 4096. change (2 ^ 10) with 1024. f_equal. f_equal.
  rewrite u64_small by lia. by rewrite Z.div_mul.
Qed.

Lemma MAKE_PTE_range pa attribute : 0 <= pa < 2 ^ 64 -> 0 <= MAKE_PTE pa attribute < 2 ^ 64.
Proof.
  intros Hpa. rewrite MAKE_PTE_eq by done.
  pose proof (Z.mod_pos_bound (pa / 4096) (2 ^ 44)). pose proof (Z.mod_pos_bound attribute 1024).
  lia.
Qed.

Lemma ROUND_UP_eq a : 0 <= a -> a + 4095 < 2 ^ 64 -> ROUND_UP_PGSIZE a = (a + 4095) / 4096 * 4096.
Proof.
  intros H0 H1. unfold ROUND_UP_PGSIZE, PGSIZE_MASK.
  rewrite land_lnot_mask by done. vmconst.
  rewrite (u64_small a) by vmlia. rewrite u64_small by vmlia.
  change (2 ^ 12) with 4096. lia.
Qed.

Lemma ROUND_DOWN_eq a : 0 <= a < 2 ^ 64 -> ROUND_DOWN_PGSIZE a = a / 4096 * 4096.
Proof.
  intros H0. unfold ROUND_DOWN_PGSIZE, PGSIZE_MASK.
  rewrite land_lnot_mask by done. vmconst. rewrite u64_small by vmlia.
  change (2 ^ 12) with 4096. lia.
Qed.

(** ** Round trips *)

Definition page_aligned (a : Z) : Prop := a mod PGSIZE = 0.

#[export] Instance page_aligned_dec a : Decision (page_aligned a).
Proof. unfold page_aligned. apply _. Defined.

Lemma PTE_GET_PA_MAKE_PTE pa attribute :
  page_aligned pa -> 0 <= pa < 2 ^ 56 -> PTE_GET_PA (MAKE_PTE pa attribute) = pa.
Proof.
  unfold page_aligned. intros Ha Hr. rewrite PTE_GET_PA_eq, MAKE_PTE_eq by vmlia.
  change (2 ^ 10) with 1024. pose proof (Z.mod_pos_bound attribute 1024).
  rewrite Z.div_add_l, (Z.div_small (attribute mod 1024)) by lia.
  rewrite Z.add_0_r, Z.mod_mod by done. rewrite (Z.mod_small (pa / 4096)) by lia. vmlia.
Qed.

Lemma PTE_GET_ATTRIBUTE_MAKE_PTE pa attribute :
  0 <= pa < 2 ^ 64 -> PTE_GET_ATTRIBUTE (MAKE_PTE pa attribute) = Z.land attribute PTE_ATTRIBUTE_MASK.
Proof.
  intros Hr. rewrite PTE_GET_ATTRIBUTE_eq, MAKE_PTE_eq by done.
  unfold PTE_ATTRIBUTE_MASK, PTE_ATTRIBUTE_BITS. rewrite land_mask by done.
  change (2 ^ 10) with 1024. lia.
Qed.

(** The valid bit of an entry. *)
Definition pte_valid (pte : Z) : bool := negb (Z.land pte PTE_V =? 0).

Lemma pte_valid_eq pte : pte_valid pte = Z.odd pte.
Proof.
  unfold pte_valid. change PTE_V with (2 ^ 0). rewrite testbit_land_pow2 by done.
  rewrite Z.bit0_odd. by destruct (Z.odd pte).
Qed.

Lemma pte_valid_MAKE_PTE pa attribute :
  0 <= pa < 2 ^ 64 -> pte_valid (MAKE_PTE pa attribute) = Z.odd attribute.
Proof.
  intros Hr. rewrite pte_valid_eq, MAKE_PTE_eq by done.
  rewrite <- !Z.bit0_odd, !Z.testbit_odd, !Z.shiftr_0_r.
  rewrite Z.odd_add, Z.odd_mul. change (Z.odd 1024) with false. rewrite andb_false_r.
  change (xorb false ?b) with b. cbn [xorb].
  rewrite (Z.div_mod attribute 1024) at 2 by done.
  rewrite Z.odd_add, Z.odd_mul. by change (Z.odd 1024) with false.
Qed.

Lemma MAKE_PTE_V_valid pa attribute :
  0 <= pa < 2 ^ 64 -> pte_valid (MAKE_PTE pa (Z.lor attribute PTE_V)) = true.
Proof.
  intros Hr. rewrite pte_valid_MAKE_PTE by done.
  by rewrite <- Z.bit0_odd, Z.lor_spec, orb_true_r.
Qed.

(** Two addresses below [VA_END] with the same three indices lie in one page. *)
Lemma VPN_inj va va' :
  0 <= va <= MAX_VA -> 0 <= va' <= MAX_VA ->
  VPN_LEVEL_N va 2 = VPN_LEVEL_N va' 2 -> VPN_LEVEL_N va 1 = VPN_LEVEL_N va' 1 ->
  VPN_LEVEL_N va 0 = VPN_LEVEL_N va' 0 -> va / PGSIZE = va' / PGSIZE.
Proof.
  intros H H'. rewrite !VPN_LEVEL_N_eq by done. vmconst.
  change (2 ^ (12 + 2 * 9)) with 1073741824. change (2 ^ (12 + 1 * 9)) with 2097152.
  change (2 ^ (12 + 0 * 9)) with 4096. lia.
Qed.

Lemma VPN_same_page va va' level :
  0 <= level -> va / PGSIZE = va' / PGSIZE -> VPN_LEVEL_N va level = VPN_LEVEL_N va' level.
Proof.
  intros Hl Hp. rewrite !VPN_LEVEL_N_eq by done.
  rewrite Z.pow_add_r, <- !Z.div_div by lia. change (2 ^ 12) with PGSIZE. by rewrite Hp.
Qed.

(** C38: The entry macros are a bijection between entries and their fields.  Every entry of
    54 bits is a page-aligned physical address of 56 bits and ten attribute bits, and is
    made of exactly these; every such pair makes an entry of 54 bits that gives the pair
    back, valid exactly if the valid bit is among the attributes.  The three table
    indices and the page offset are in range and together are the virtual address. *)
Theorem sv39_encoding pte pa attribute va :
  0 <= pte < 2 ^ 54 -> page_aligned pa -> 0 <= pa < 2 ^ 56 -> 0 <= attribute < 2 ^ 10 -> 0 <= va < 2 ^ 39 ->
  (page_aligned (PTE_GET_PA pte) /\ 0 <= PTE_GET_PA pte < 2 ^ 56 /\ 0 <= PTE_GET_ATTRIBUTE pte < 2 ^ 10 /\
   MAKE_PTE (PTE_GET_PA pte) (PTE_GET_ATTRIBUTE pte) = pte) /\
  (0 <= MAKE_PTE pa attribute < 2 ^ 54 /\ PTE_GET_PA (MAKE_PTE pa attribute) = pa /\
   PTE_GET_ATTRIBUTE (MAKE_PTE pa attribute) = attribute /\
   pte_valid (MAKE_PTE pa attribute) = Z.odd attribute) /\
  (forall level, 0 <= level <= 2 -> 0 <= VPN_LEVEL_N va level < 512) /\
  va = ((VPN_LEVEL_N va 2 * 512 + VPN_LEVEL_N va 1) * 512 + VPN_LEVEL_N va 0) * PGSIZE + va mod PGSIZE.
Proof.
  intros Hp Ha Hpa Hat Hva. split; [|split; [|split]].
  - rewrite PTE_GET_PA_eq, PTE_GET_ATTRIBUTE_eq, Z.mod_small by lia. unfold page_aligned. vmconst.
    split; [lia|]. split; [lia|]. split; [lia|]. rewrite MAKE_PTE_eq by lia.
    rewrite Z.div_mul, Z.mod_mod, Z.mod_small by lia. change (2 ^ 10) with 1024. lia.
  - split; [|split; [by apply PTE_GET_PA_MAKE_PTE|split; [|apply pte_valid_MAKE_PTE; lia]]].
    + rewrite MAKE_PTE_eq by lia. rewrite (Z.mod_small attribute), Z.mod_small by lia. lia.
    + rewrite PTE_GET_ATTRIBUTE_MAKE_PTE by lia. unfold PTE_ATTRIBUTE_MASK, PTE_ATTRIBUTE_BITS.
      rewrite land_mask by done. by apply Z.mod_small.
  - intros level Hl. apply VPN_LEVEL_N_range. lia.
  - rewrite !VPN_LEVEL_N_eq by done. vmconst. change (2 ^ (12 + 2 * 9)) with 1073741824.
    change (2 ^ (12 + 1 * 9)) with 2097152. change (2 ^ (12 + 0 * 9)) with 4096. lia.
Qed.

(** ** Linker symbols

    [kernel_end], [etext] and the trampoline's code come from the linker script
    and the assembler sources; what the C code relies on is stated here. *)
Class KernelImage := {
  kernel_end : Z;
  etext : Z;
  user_trap_entry : Z;
  kernel_end_range : KERNEL_BASE <= kernel_end <= MEMORY_END;
  etext_range : KERNEL_BASE <= etext <= kernel_end;
  user_trap_entry_range : KERNEL_BASE <= user_trap_entry < MEMORY_END }.

(** A page the allocator may own: aligned, above the kernel, inside RAM. *)
Definition valid_page `{KernelImage} (p : Z) : Prop :=
  kernel_end <= p < MEMORY_END /\ page_aligned p.

Definition in_page (p a : Z) : Prop := p <= a < p + PGSIZE.

#[export] Instance in_page_dec p a : Decision (in_page p a).
Proof. unfold in_page. apply _. Defined.

Lemma pages_disjoint p q a : page_aligned p -> page_aligned q -> in_page p a -> in_page q a -> p = q.
Proof. unfold page_aligned, in_page. intros. vmlia. Qed.

Lemma valid_page_range `{KernelImage} p : valid_page p -> 2147483648 <= p < 2281701376 /\ p mod 4096 = 0.
Proof. intros [H1 H2]. pose proof kernel_end_range. unfold page_aligned in H2. vmlia. Qed.
