(* ===== verification/Mem.v ===== *)
(** * Physical memory: bytes, little-endian words, memset, memcpy, memmove

    kernel/vm/vm.c lines 16-49.  Memory is a finite map from byte addresses;
    pointers are their addresses (pointer arithmetic of C does not wrap). *)

From S2P Require Import Prelude.

Abbreviation mem := (gmap Z Z).

Definition ld8 (m : mem) (a : Z) : Z := u8 (default 0 (m !! a)).
Definition st8 (m : mem) (a v : Z) : mem := <[a := u8 v]> m.

Fixpoint load_le (n : nat) (m : mem) (a : Z) : Z :=
  match n with
  | O => 0
  | S n' => ld8 m a + 256 * load_le n' m (a + 1)
  end.

Fixpoint store_le (n : nat) (m : mem) (a v : Z) : mem :=
  match n with
  | O => m
  | S n' => store_le n' (st8 m a (v mod 256)) (a + 1) (v / 256)
  end.

Definition ld64 (m : mem) (a : Z) : Z := load_le 8 m a.
Definition st64 (m : mem) (a v : Z) : mem := store_le 8 m a v.
Definition ld32 (m : mem) (a : Z) : Z := load_le 4 m a.
Definition st32 (m : mem) (a v : Z) : mem := store_le 4 m a v.
Definition ld16 (m : mem) (a : Z) : Z := load_le 2 m a.
Definition st16 (m : mem) (a v : Z) : mem := store_le 2 m a v.

#[global] Arguments ld64 _ _ : simpl never.
#[global] Arguments st64 _ _ _ : simpl never.
#[global] Arguments ld32 _ _ : simpl never.
#[global] Arguments st32 _ _ _ : simpl never.
#[global] Arguments ld16 _ _ : simpl never.
#[global] Arguments st16 _ _ _ : simpl never.

(** ** kernel/vm/vm.c *)

Fixpoint memset_loop (n : nat) (m : mem) (p val i : Z) : mem :=
  match n with
  | O => m
  | S n' => memset_loop n' (st8 m (p + i) val) p val (i + 1)
  end.
Definition memset (m : mem) (p val len : Z) : mem := memset_loop (Z.to_nat len) m p val 0.

Fixpoint memcpy_loop (n : nat) (m : mem) (dest src i : Z) : mem :=
  match n with
  | O => m
  | S n' => memcpy_loop n' (st8 m (dest + i) (ld8 m (src + i))) dest src (i + 1)
  end.
Definition memcpy (m : mem) (dest src len : Z) : mem := memcpy_loop (Z.to_nat len) m dest src 0.

(** [while (n-- > 0) *dst++ = *src++] *)
Fixpoint copy_up (n : nat) (m : mem) (dst src : Z) : mem :=
  match n with
  | O => m
  | S n' => copy_up n' (st8 m dst (ld8 m src)) (dst + 1) (src + 1)
  end.
(** [while (n-- > 0) *--dst = *--src] *)
Fixpoint copy_down (n : nat) (m : mem) (dst src : Z) : mem :=
  match n with
  | O => m
  | S n' => copy_down n' (st8 m (dst - 1) (ld8 m (src - 1))) (dst - 1) (src - 1)
  end.
Definition memmove (m : mem) (vdst vsrc n : Z) : mem :=
  if vdst <? vsrc then copy_up (Z.to_nat n) m vdst vsrc
  else copy_down (Z.to_nat n) m (vdst + n) (vsrc + n).

(** ** Bytes *)

(** Memories that hold the same bytes. *)
Definition mem_eq (m m' : mem) : Prop := forall a, ld8 m a = ld8 m' a.

#[export] Instance mem_eq_equiv : Equivalence mem_eq.
Proof. split; unfold mem_eq; [intros ??|intros ????|intros ??????]; congruence. Qed.

#[export] Instance ld8_proper : Proper (mem_eq ==> eq ==> eq) ld8.
Proof. intros m m' H a ? <-. apply H. Qed.

Lemma ld8_range m a : 0 <= ld8 m a < 256.
Proof. apply u8_range. Qed.

Lemma ld8_st8 m a v b : ld8 (st8 m a v) b = if decide (a = b) then u8 v else ld8 m b.
Proof.
  unfold ld8, st8. rewrite lookup_insert. case_decide; [|done]. cbn. unfold u8. lia.
Qed.

#[export] Instance st8_proper : Proper (mem_eq ==> eq ==> eq ==> mem_eq) st8.
Proof. intros m m' H a ? <- v ? <- b. rewrite !ld8_st8. by rewrite H. Qed.

#[export] Instance load_le_proper n : Proper (mem_eq ==> eq ==> eq) (load_le n).
Proof.
  intros m m' H a ? <-. revert a. induction n as [|n IH]; intros a; [done|].
  cbn. by rewrite (H a), IH.
Qed.

(** [m'] differs from [m] at most inside [P]. *)
Definition same_outside (P : Z -> Prop) (m m' : mem) : Prop :=
  forall a, ~ P a -> ld8 m' a = ld8 m a.

Lemma load_le_ext n m m' a :
  (forall b, a <= b < a + Z.of_nat n -> ld8 m b = ld8 m' b) -> load_le n m a = load_le n m' a.
Proof.
  revert a. induction n as [|n IH]; intros a H; [done|]. cbn.
  rewrite H by lia. f_equal. f_equal. apply IH. intros. apply H. lia.
Qed.

Lemma load_le_range n m a : 0 <= load_le n m a < 256 ^ Z.of_nat n.
Proof.
  revert a. induction n as [|n IH]; intros a; [cbn; lia|]. cbn [load_le].
  pose proof (ld8_range m a). specialize (IH (a + 1)).
  replace (256 ^ Z.of_nat (S n)) with (256 * 256 ^ Z.of_nat n)
    by (rewrite Nat2Z.inj_succ, Z.pow_succ_r by lia; done). lia.
Qed.

Lemma ld8_store_le_outside n m a v b :
  b < a \/ a + Z.of_nat n <= b -> ld8 (store_le n m a v) b = ld8 m b.
Proof.
  revert m a v. induction n as [|n IH]; intros m a v H; [done|]. cbn [store_le].
  rewrite IH, ld8_st8 by lia. case_decide; [lia|done].
Qed.

Lemma load_store_le n m a v : load_le n (store_le n m a v) a = v mod 256 ^ Z.of_nat n.
Proof.
  revert m a v. induction n as [|n IH]; intros m a v.
  - cbn. symmetry. apply Z.mod_1_r.
  - cbn [load_le store_le]. rewrite ld8_store_le_outside by lia.
    rewrite IH, ld8_st8. rewrite decide_True by done.
    rewrite Nat2Z.inj_succ, Z.pow_succ_r by lia. rewrite Z.rem_mul_r by lia.
    unfold u8. change (2 ^ 8) with 256. by rewrite Z.mod_mod.
Qed.

Lemma ld64_range m a : 0 <= ld64 m a < 2 ^ 64.
Proof. apply (load_le_range 8). Qed.

Lemma ld64_st64 m a v : 0 <= v < 2 ^ 64 -> ld64 (st64 m a v) a = v.
Proof.
  intros H. unfold ld64, st64. rewrite load_store_le. by apply Z.mod_small.
Qed.

Lemma ld8_st64_outside m a v b : b < a \/ a + 8 <= b -> ld8 (st64 m a v) b = ld8 m b.
Proof. apply (ld8_store_le_outside 8). Qed.

Lemma ld64_st64_outside m a v b : b + 8 <= a \/ a + 8 <= b -> ld64 (st64 m a v) b = ld64 m b.
Proof.
  intros H. apply (load_le_ext 8). intros c Hc. apply ld8_st64_outside. lia.
Qed.

Lemma ld64_ext m m' a :
  (forall b, a <= b < a + 8 -> ld8 m b = ld8 m' b) -> ld64 m a = ld64 m' a.
Proof. apply (load_le_ext 8). Qed.

(** ** Block operations *)

Lemma ld8_memset_loop n m p val i a :
  ld8 (memset_loop n m p val i) a =
  if decide (p + i <= a < p + i + Z.of_nat n) then u8 val else ld8 m a.
Proof.
  revert m i. induction n as [|n IH]; intros m i; cbn [memset_loop].
  - case_decide; [lia|done].
  - rewrite IH, ld8_st8. repeat case_decide; try lia; done.
Qed.

Lemma ld8_memset m p val len a :
  ld8 (memset m p val len) a = if decide (p <= a < p + len) then u8 val else ld8 m a.
Proof.
  unfold memset. rewrite ld8_memset_loop.
  repeat case_decide; try lia; done.
Qed.

Lemma ld8_memcpy_loop n m dest src i a :
  dest + i + Z.of_nat n <= src + i \/ src + i + Z.of_nat n <= dest + i ->
  ld8 (memcpy_loop n m dest src i) a =
  if decide (dest + i <= a < dest + i + Z.of_nat n) then ld8 m (a - dest + src) else ld8 m a.
Proof.
  revert m i. induction n as [|n IH]; intros m i Hd; cbn [memcpy_loop].
  - case_decide; [lia|done].
  - rewrite IH by lia. rewrite !ld8_st8.
    pose proof (ld8_range m (src + i)). repeat case_decide; try lia; try done.
    subst a. rewrite u8_small by (change (2 ^ 8) with 256; lia). f_equal. lia.
Qed.

(** [memcpy] copies between disjoint blocks. *)
Lemma ld8_memcpy m dest src len a :
  dest + len <= src \/ src + len <= dest ->
  ld8 (memcpy m dest src len) a =
  if decide (dest <= a < dest + len) then ld8 m (a - dest + src) else ld8 m a.
Proof.
  intros Hd. destruct (Z.le_gt_cases 0 len).
  - unfold memcpy. rewrite ld8_memcpy_loop by lia. repeat case_decide; try lia; done.
  - unfold memcpy. rewrite Z2Nat.nonpos by lia. cbn. case_decide; [lia|done].
Qed.

Lemma ld8_copy_up n m dst src a :
  dst <= src ->
  ld8 (copy_up n m dst src) a =
  if decide (dst <= a < dst + Z.of_nat n) then ld8 m (a - dst + src) else ld8 m a.
Proof.
  revert m dst src. induction n as [|n IH]; intros m dst src Hd; cbn [copy_up].
  - case_decide; [lia|done].
  - rewrite IH by lia. rewrite !ld8_st8. pose proof (ld8_range m src).
    rewrite (u8_small (ld8 m src)) by (change (2 ^ 8) with 256; lia).
    repeat case_decide; try lia; try done; f_equal; lia.
Qed.

Lemma ld8_copy_down n m dst src a :
  src <= dst ->
  ld8 (copy_down n m dst src) a =
  if decide (dst - Z.of_nat n <= a < dst) then ld8 m (a - dst + src) else ld8 m a.
Proof.
  revert m dst src. induction n as [|n IH]; intros m dst src Hd; cbn [copy_down].
  - case_decide; [lia|done].
  - rewrite IH by lia. rewrite !ld8_st8. pose proof (ld8_range m (src - 1)).
    rewrite (u8_small (ld8 m (src - 1))) by (change (2 ^ 8) with 256; lia).
    repeat case_decide; try lia; try done; f_equal; lia.
Qed.

Lemma memmove_ok m vdst vsrc n a :
  ld8 (memmove m vdst vsrc n) a =
  if decide (vdst <= a < vdst + n) then ld8 m (a - vdst + vsrc) else ld8 m a.
Proof.
  unfold memmove. destruct (Z.ltb_spec vdst vsrc).
  - rewrite ld8_copy_up by lia. repeat case_decide; try lia; done.
  - destruct (Z.le_gt_cases 0 n).
    + rewrite ld8_copy_down by lia. repeat case_decide; try lia; try done. f_equal. lia.
    + rewrite Z2Nat.nonpos by lia. cbn. case_decide; [lia|done].
Qed.

(** [memmove] copies [n] bytes from [vsrc] to [vdst] whatever the overlap of
    the two blocks: every destination byte gets the byte its source held before
    the call, and no other byte changes. *)
Theorem memmove_correct m vdst vsrc n a :
  ld8 (memmove m vdst vsrc n) a =
  if decide (vdst <= a < vdst + n) then ld8 m (a - vdst + vsrc) else ld8 m a.
Proof. intros. by apply memmove_ok. Qed.
