(* ===== verification/Str.v ===== *)
(** * C strings of the kernel: kernel/util/string.c

    Strings are bytes in memory ([char] is unsigned on RISC-V).  [cstr m a l] says
    that the characters at [a] up to the terminator are [l]. *)

From S2P Require Import Prelude Mem.

(** [while (n > 0 && *p && *p == *q) n--, p++, q++], then the difference. *)
Fixpoint strncmp_loop (n : nat) (m : mem) (p q : Z) : Z :=
  match n with
  | O => 0
  | S n' => if negb (ld8 m p =? 0) && (ld8 m p =? ld8 m q) then strncmp_loop n' m (p + 1) (q + 1)
            else ld8 m p - ld8 m q
  end.
Definition strncmp (m : mem) (p q n : Z) : Z := strncmp_loop (Z.to_nat n) m p q.

(** [while (n-- > 0) *s++ = 0] *)
Fixpoint zero_fill (n : nat) (m : mem) (s : Z) : mem :=
  match n with
  | O => m
  | S n' => zero_fill n' (st8 m s 0) (s + 1)
  end.

Fixpoint strncpy_loop (n : nat) (m : mem) (s t : Z) : mem :=
  match n with
  | O => m
  | S n' => let c := ld8 m t in
            let m' := st8 m s c in
            if c =? 0 then zero_fill n' m' (s + 1) else strncpy_loop n' m' (s + 1) (t + 1)
  end.
Definition strncpy (m : mem) (s t n : Z) : mem := strncpy_loop (Z.to_nat n) m s t.

(** [--n > 0]: at most [n - 1] characters, then the terminator. *)
Fixpoint safestrcpy_loop (n : nat) (m : mem) (s t : Z) : mem :=
  match n with
  | O => st8 m s 0
  | S n' => let c := ld8 m t in
            let m' := st8 m s c in
            if c =? 0 then st8 m' (s + 1) 0 else safestrcpy_loop n' m' (s + 1) (t + 1)
  end.
Definition safestrcpy (m : mem) (s t n : Z) : mem :=
  if n <=? 0 then m else safestrcpy_loop (Z.to_nat (n - 1)) m s t.

(** [fuel] bounds the length; [None] when no terminator is found within it. *)
Fixpoint strlen_loop (fuel : nat) (m : mem) (s n : Z) : option Z :=
  match fuel with
  | O => None
  | S fuel' => if ld8 m (s + n) =? 0 then Some n else strlen_loop fuel' m s (n + 1)
  end.
Definition strlen (fuel : nat) (m : mem) (s : Z) : option Z := strlen_loop fuel m s 0.

(** ** The strings behind the bytes *)

Fixpoint cstr (m : mem) (a : Z) (l : list Z) : Prop :=
  match l with
  | [] => ld8 m a = 0
  | c :: l' => c <> 0 /\ ld8 m a = c /\ cstr m (a + 1) l'
  end.

Lemma strlen_cstr fuel m a l :
  cstr m a l -> (length l < fuel)%nat -> strlen fuel m a = Some (Z.of_nat (length l)).
Proof.
  unfold strlen. intros Hc Hf. rewrite <- (Z.add_0_l (Z.of_nat _)).
  rewrite <- (Z.add_0_r a) in Hc. revert Hc Hf. generalize 0 as n.
  revert fuel. induction l as [|c l IH]; intros fuel n Hc Hf; (destruct fuel as [|fuel]; [cbn in Hf; lia|]).
  - cbn in *. rewrite Hc. cbn. f_equal. lia.
  - cbn [cstr strlen_loop length] in *. destruct Hc as (Hc0 & Hc & Hl). rewrite Hc.
    replace (c =? 0) with false by lia. rewrite (IH fuel (n + 1)); [f_equal; lia| |lia].
    by rewrite Z.add_assoc.
Qed.

(** [strncpy] writes exactly [n] bytes: the characters of the source up to its
    terminator, then zeros. *)
Fixpoint padded (n : nat) (l : list Z) : list Z :=
  match n with
  | O => []
  | S n' => match l with [] => 0 :: padded n' [] | c :: l' => c :: padded n' l' end
  end.

Lemma ld8_zero_fill n m s a :
  ld8 (zero_fill n m s) a = if decide (s <= a < s + Z.of_nat n) then 0 else ld8 m a.
Proof.
  revert m s. induction n as [|n IH]; intros m s; cbn [zero_fill].
  - case_decide; [lia|done].
  - rewrite IH, ld8_st8. repeat case_decide; try lia; try done.
Qed.

Lemma padded_nil n i : padded n [] !! i = if decide (i < n)%nat then Some 0 else None.
Proof.
  revert i. induction n as [|n IH]; intros i; cbn; [by case_decide; [lia|]|].
  destruct i as [|i]; cbn; [by rewrite decide_True by lia|]. rewrite IH.
  repeat case_decide; lia || done.
Qed.

Lemma cstr_app m a l1 l2 : cstr m a (l1 ++ l2) -> cstr m (a + Z.of_nat (length l1)) l2.
Proof.
  revert a. induction l1 as [|c l1 IH]; intros a; cbn [app length cstr].
  - by rewrite Z.add_0_r.
  - intros (_ & _ & H). specialize (IH _ H). by replace (a + Z.of_nat (S (length l1))) with (a + 1 + Z.of_nat (length l1)) by lia.
Qed.

Lemma cstr_lookup m a l i c : cstr m a l -> l !! i = Some c -> ld8 m (a + Z.of_nat i) = c /\ c <> 0.
Proof.
  revert a i. induction l as [|x l IH]; intros a [|i] Hc Hi; try done; cbn in Hc; destruct Hc as (Hx & Ha & Hl).
  - injection Hi as ->. by rewrite Z.add_0_r.
  - destruct (IH (a + 1) i Hl Hi) as [H ?]. replace (a + Z.of_nat (S i)) with (a + 1 + Z.of_nat i) by lia. done.
Qed.

Lemma cstr_head m a l : cstr m a l -> ld8 m a = match l with [] => 0 | c :: _ => c end.
Proof. destruct l; cbn; tauto. Qed.

Lemma cstr_frame m m' a l :
  (forall b, a <= b <= a + Z.of_nat (length l) -> ld8 m' b = ld8 m b) -> cstr m a l -> cstr m' a l.
Proof.
  revert a. induction l as [|c l IH]; intros a Hf; cbn [cstr length] in *.
  - intros H. rewrite Hf by lia. done.
  - intros (H0 & H1 & H2). split_and!; [done|rewrite Hf by lia; done|].
    apply IH; [|done]. intros b Hb. apply Hf. lia.
Qed.

Lemma strncpy_loop_spec n m s t l a :
  cstr m t l -> s + Z.of_nat n <= t \/ t + Z.of_nat (length l) < s ->
  ld8 (strncpy_loop n m s t) a =
  if decide (s <= a < s + Z.of_nat n) then default 0 (padded n l !! Z.to_nat (a - s)) else ld8 m a.
Proof.
  revert m s t l. induction n as [|n IH]; intros m s t l Hc Hd.
  - cbn. case_decide; [lia|done].
  - cbn [strncpy_loop]. destruct l as [|c l].
    + cbn in Hc. rewrite Hc. cbn [Z.eqb]. rewrite ld8_zero_fill, ld8_st8.
      repeat case_decide; try lia; try done.
      * change (0 :: padded n []) with (padded (S n) []). cbn [padded].
        replace (Z.to_nat (a - s)) with (S (Z.to_nat (a - (s + 1)))) by lia. cbn [lookup list_lookup].
        rewrite padded_nil. by case_decide.
      * subst. cbn [padded]. by rewrite Z.sub_diag.
    + destruct Hc as (Hc0 & Hct & Hl). rewrite Hct. replace (c =? 0) with false by lia.
      cbn [length] in Hd.
      rewrite (IH _ _ _ l); [|eapply cstr_frame; [|exact Hl]|lia].
      2:{ intros b Hb. rewrite ld8_st8. case_decide; [lia|done]. }
      rewrite ld8_st8. cbn [padded]. repeat case_decide; try lia; try done.
      * replace (Z.to_nat (a - s)) with (S (Z.to_nat (a - (s + 1)))) by lia. done.
      * subst. rewrite Z.sub_diag. cbn. unfold ld8, u8. by rewrite Z.mod_mod.
Qed.
