(* ===== verification/Kalloc.v ===== *)
(** * The page allocator: kernel/vm/kalloc.c

    Free pages form a singly linked list threaded through their own first eight
    bytes, with its head in [mem_container.head]. *)

From S2P Require Import Prelude Hart VmSystem Mem.

Record kmem := mk_kmem { km_hw : hw; km_mem : mem; km_head : Z }.

Definition km_hwL : lens kmem hw :=
  Lens km_hw (fun h s => mk_kmem h (km_mem s) (km_head s)).
Definition set_mem (m : mem) (s : kmem) : kmem := mk_kmem (km_hw s) m (km_head s).
Definition set_head (p : Z) (s : kmem) : kmem := mk_kmem (km_hw s) (km_mem s) p.
Definition set_hw (h : hw) (s : kmem) : kmem := mk_kmem h (km_mem s) (km_head s).

#[export] Instance km_hwL_laws : LensLaws km_hwL.
Proof. split; [done|by intros []|done]. Qed.

Definition NULL : Z := 0.

Section Kalloc.
Context `{KernelImage}.

Definition make_garbage_value (m : Z) : M kmem unit :=
  modify (fun s => set_mem (memset (km_mem s) m 0x5 PGSIZE) s).

Definition kfree (mem : Z) : M kmem unit :=
  if (mem <? kernel_end) || (mem >=? MEMORY_END) || negb (mem mod PGSIZE =? 0)
  then panic "kfree: free invalid page" else
  if mem =? NULL then mret tt else
  zoom km_hwL (acquire_spin_lock LkMem) ;;
  head ← gets km_head;
  modify (fun s => set_mem (st64 (km_mem s) mem head) s) ;;
  modify (set_head mem) ;;
  zoom km_hwL (release_spin_lock LkMem).

Definition kalloc : M kmem Z :=
  zoom km_hwL (acquire_spin_lock LkMem) ;;
  head ← gets km_head;
  if head =? NULL then
    zoom km_hwL (release_spin_lock LkMem) ;; mret NULL
  else
    next ← gets (fun s => ld64 (km_mem s) head);
    modify (set_head next) ;;
    zoom km_hwL (release_spin_lock LkMem) ;;
    make_garbage_value head ;;
    mret head.

(** The loop of [kalloc_init] runs until [cur_page == end]. *)
Definition kalloc_init (fuel : nat) : M kmem unit :=
  zoom km_hwL (init_spin_lock LkMem) ;;
  modify (set_head NULL) ;;
  if negb (MEMORY_END mod PGSIZE =? 0)
  then panic "kalloc_init: MEMORY_END is not aligned to PGSIZE" else
  while_loop fuel (ROUND_UP_PGSIZE kernel_end) (fun cur_page =>
    if cur_page =? MEMORY_END then mret (inr tt)
    else kfree cur_page ;; mret (inl (cur_page + PGSIZE))).

(** include/vm/vm.h: [get_clear_page], [get_pagetable], [init_page_table]. *)
Definition get_clear_page : M kmem Z :=
  pg ← kalloc;
  if pg =? NULL then mret NULL
  else modify (fun s => set_mem (memset (km_mem s) pg 0 PGSIZE) s) ;; mret pg.
Definition get_pagetable : M kmem Z := get_clear_page.

(** ** The free list as a stack of pages *)

Fixpoint free_list (m : mem) (head : Z) (l : list Z) : Prop :=
  match l with
  | [] => head = NULL
  | p :: l' => head = p /\ free_list m (ld64 m p) l'
  end.

Record km_inv (l : list Z) (s : kmem) : Prop := {
  inv_hw : hw_wf (km_hw s);
  inv_lock : hw_locks (km_hw s) !! LkMem = Some free_lock;
  inv_list : free_list (km_mem s) (km_head s) l;
  inv_valid : Forall valid_page l;
  inv_nodup : NoDup l }.

Lemma valid_page_nonnull p : valid_page p -> (p =? NULL) = false.
Proof. intros Hp. apply valid_page_range in Hp. unfold NULL. lia. Qed.

Lemma free_list_ext m m' head l :
  (forall p a, p ∈ l -> p <= a < p + 8 -> ld8 m a = ld8 m' a) ->
  free_list m head l -> free_list m' head l.
Proof.
  revert head. induction l as [|p l IH]; intros head Hext; [done|].
  intros [-> Hl]. split; [done|].
  rewrite <- (ld64_ext m m' p) by (intros b Hb; apply (Hext p); [set_solver|done]).
  apply IH; [|done]. intros q a Hq. apply Hext. set_solver.
Qed.

(** Writing inside a page that is not free leaves the list alone. *)
Lemma free_list_frame m m' head l p :
  page_aligned p -> Forall valid_page l -> p ∉ l -> same_outside (in_page p) m m' ->
  free_list m head l -> free_list m' head l.
Proof.
  intros Hp Hv Hn Hs. apply free_list_ext. intros q a Hq Ha.
  symmetry. apply Hs. intros Hin. apply Hn.
  rewrite Forall_forall in Hv. destruct (Hv q Hq) as [_ Hq2].
  rewrite (pages_disjoint p q a); try done. unfold in_page. vmlia.
Qed.

Lemma acquire_km l s :
  hw_wf (km_hw s) -> hw_locks (km_hw s) !! l = Some free_lock ->
  zoom km_hwL (acquire_spin_lock l) s = Ret tt (set_hw (held_hw 0 [l] (km_hw s)) s).
Proof. intros Hwf Hl. apply zoom_Ret. by apply acquire_first. Qed.

Lemma release_km l s h :
  hw_wf h -> hw_locks h !! l = Some free_lock -> km_hw s = held_hw 0 [l] h ->
  zoom km_hwL (release_spin_lock l) s = Ret tt (set_hw (settle h) s).
Proof. intros Hwf Hl Hs. apply zoom_Ret. cbn. rewrite Hs. by apply release_settle. Qed.

(** ** Behaviour of each operation *)

Lemma kalloc_empty s :
  km_inv [] s -> kalloc s = Ret NULL (set_hw (settle (km_hw s)) s).
Proof.
  intros [Hwf Hl Hlist _ _]. unfold kalloc.
  mret_rw (acquire_km _ _ Hwf Hl).
  change (km_head s = NULL) in Hlist.
  unfold gets at 1. mrung. rewrite Hlist. cbn.
  by rewrite (release_km LkMem _ (km_hw s)).
Qed.

Lemma kalloc_cons p l s :
  km_inv (p :: l) s ->
  kalloc s = Ret p (mk_kmem (settle (km_hw s)) (memset (km_mem s) p 5 PGSIZE) (ld64 (km_mem s) p)).
Proof.
  intros [Hwf Hl [Hhead _] Hv _]. inversion_clear Hv as [|?? Hp _]. unfold kalloc.
  mret_rw (acquire_km _ _ Hwf Hl).
  unfold make_garbage_value. mrung. rewrite Hhead, (valid_page_nonnull p Hp). cbn.
  by rewrite (release_km LkMem _ (km_hw s)).
Qed.

Lemma kfree_eq p s :
  valid_page p -> hw_wf (km_hw s) -> hw_locks (km_hw s) !! LkMem = Some free_lock ->
  kfree p s = Ret tt (mk_kmem (settle (km_hw s)) (st64 (km_mem s) p (km_head s)) p).
Proof.
  intros Hp Hwf Hl. unfold kfree. pose proof Hp as [Hr Ha].
  replace ((p <? kernel_end) || (p >=? MEMORY_END) || negb (p mod PGSIZE =? 0)) with false
    by (unfold page_aligned in Ha; lia).
  rewrite (valid_page_nonnull p Hp).
  mret_rw (acquire_km _ _ Hwf Hl). mrung.
  by rewrite (release_km LkMem _ (km_hw s)).
Qed.

(** The hart state after any balanced call. *)
Lemma set_hw_settle_inv l s :
  km_inv l s -> km_inv l (set_hw (settle (km_hw s)) s).
Proof. intros [? ? ? ? ?]. split; try done. by apply settle_wf. Qed.

Lemma kalloc_ok l s :
  km_inv l s ->
  runs kalloc s (fun p s' =>
    km_hw s' = settle (km_hw s) /\
    match l with
    | [] => p = NULL /\ km_mem s' = km_mem s /\ km_inv [] s'
    | p0 :: l' => p = p0 /\ valid_page p /\ (p ∉ l') /\ km_inv l' s' /\
        forall a, ld8 (km_mem s') a = if decide (in_page p a) then 5 else ld8 (km_mem s) a
    end).
Proof.
  intros Hinv. destruct l as [|p l].
  - eapply runs_eq; [by apply kalloc_empty|]. split_and!; triv.
    by apply set_hw_settle_inv.
  - eapply runs_eq; [by eapply kalloc_cons|]. cbn.
    destruct Hinv as [Hwf Hl [Hhead Hlist] Hv Hnd].
    inversion_clear Hv as [|?? Hp Hv']. apply NoDup_cons in Hnd as [Hn Hnd].
    split_and!; triv.
    + split; triv; [by apply settle_wf|]. cbn.
      eapply free_list_frame; [apply Hp|done..| |exact Hlist].
      intros a Ha. rewrite ld8_memset. case_decide; [by destruct Ha|done].
    + intros a. rewrite ld8_memset. unfold in_page. by repeat case_decide.
Qed.

(** [kalloc] pops the free list: with no free page it answers NULL and changes
    nothing; otherwise it hands out the first free page, filled with the garbage
    byte 5, touches no byte outside that page, and what is left is exactly the rest
    of the list.  In both cases the lock is released and the interrupt state is
    what it was before the call. *)
Theorem kalloc_spec l s :
  km_inv l s ->
  runs kalloc s (fun p s' =>
    km_hw s' = settle (km_hw s) /\
    match l with
    | [] => p = NULL /\ km_mem s' = km_mem s /\ km_inv [] s'
    | p0 :: l' => p = p0 /\ valid_page p /\ (p ∉ l') /\ km_inv l' s' /\
        forall a, ld8 (km_mem s') a = if decide (in_page p a) then 5 else ld8 (km_mem s) a
    end).
Proof. intros. by apply kalloc_ok. Qed.

Lemma kfree_ok p l s :
  km_inv l s -> valid_page p -> p ∉ l ->
  runs (kfree p) s (fun _ s' =>
    km_inv (p :: l) s' /\ km_hw s' = settle (km_hw s) /\
    same_outside (fun a => p <= a < p + 8) (km_mem s) (km_mem s')).
Proof.
  intros [Hwf Hl Hlist Hv Hnd] Hp Hn. eapply runs_eq; [by apply kfree_eq|].
  assert (same_outside (fun a => p <= a < p + 8) (km_mem s) (st64 (km_mem s) p (km_head s)))
    as Hout by (intros a Ha; apply ld8_st64_outside; lia).
  assert (0 <= km_head s < 2 ^ 64) as Hhd.
  { destruct l as [|q l]; cbn in Hlist; [rewrite Hlist; unfold NULL; lia|].
    destruct Hlist as [-> _]. inversion_clear Hv as [|?? Hq _].
    apply valid_page_range in Hq. vmlia. }
  split; [|done]. split; cbn; try done.
  - by apply settle_wf.
  - split; [done|]. rewrite ld64_st64 by done.
    eapply free_list_frame; [apply Hp|done..| |exact Hlist].
    intros a Ha. apply Hout. unfold in_page in Ha. vmlia.
  - by constructor.
  - by apply NoDup_cons.
Qed.

(** [kfree] of a page the allocator does not hold pushes it: the page becomes
    the head of the free list, and no byte outside its first eight changes. *)
Theorem kfree_spec p l s :
  km_inv l s -> valid_page p -> p ∉ l ->
  runs (kfree p) s (fun _ s' =>
    km_inv (p :: l) s' /\ km_hw s' = settle (km_hw s) /\
    same_outside (fun a => p <= a < p + 8) (km_mem s) (km_mem s')).
Proof. intros. by apply kfree_ok. Qed.

(** [kfree] refuses, by panicking, every address that is not a page of the
    allocator: below [kernel_end], beyond RAM or not page aligned. *)
Theorem kfree_invalid p s : ~ valid_page p -> kfree p s = Panic "kfree: free invalid page".
Proof.
  intros Hp. unfold kfree, valid_page, page_aligned in *.
  destruct (Z.ltb_spec p kernel_end), (Z.geb_spec p MEMORY_END), (Z.eqb_spec (p mod PGSIZE) 0);
    try done.
  destruct Hp. split; [lia|done].
Qed.

(** Allocating what was just freed gives the same page back (LIFO). *)
Lemma kfree_kalloc p l s :
  km_inv l s -> valid_page p -> p ∉ l ->
  runs (kfree p ;; kalloc) s (fun q s' => q = p /\ km_inv l s').
Proof.
  intros Hinv Hp Hn. apply runs_bind.
  eapply runs_mono; [by eapply kfree_ok|]. intros [] s1 (Hinv1 & _ & _).
  eapply runs_mono; [by eapply kalloc_ok|]. cbn. intros q s2 (_ & -> & _ & _ & Hinv2 & _).
  done.
Qed.

(** [get_clear_page]: a zeroed page, or NULL when no page is free. *)
Lemma get_clear_page_spec l s :
  km_inv l s ->
  runs get_clear_page s (fun p s' =>
    km_hw s' = settle (km_hw s) /\
    match l with
    | [] => p = NULL /\ km_mem s' = km_mem s /\ km_inv [] s'
    | p0 :: l' => p = p0 /\ valid_page p /\ (p ∉ l') /\ km_inv l' s' /\
        forall a, ld8 (km_mem s') a = if decide (in_page p a) then 0 else ld8 (km_mem s) a
    end).
Proof.
  intros Hinv. unfold get_clear_page. apply runs_bind.
  eapply runs_mono; [by apply kalloc_ok|]. intros p s1 [Hhw H1].
  destruct l as [|p0 l].
  - destruct H1 as (-> & Hm & Hi). done.
  - destruct H1 as (-> & Hp & Hn & Hi & Hm). rewrite (valid_page_nonnull p0 Hp).
    apply runs_bind. mrung. split; [done|].
    assert (forall a, ld8 (memset (km_mem s1) p0 0 PGSIZE) a =
              if decide (in_page p0 a) then 0 else ld8 (km_mem s1) a) as Hz.
    { intros a. rewrite ld8_memset. unfold in_page. by repeat case_decide. }
    split_and!; triv.
    + destruct Hi as [? ? ? ? ?]. split; triv. cbn.
      eapply free_list_frame; [apply Hp|done..| |done].
      intros a Ha. rewrite Hz. by rewrite decide_False.
    + intros a. rewrite Hz, Hm. by case_decide.
Qed.

(** The first page above the kernel. *)
Lemma first_page_spec :
  kernel_end <= ROUND_UP_PGSIZE kernel_end <= MEMORY_END /\
  page_aligned (ROUND_UP_PGSIZE kernel_end) /\
  (forall p, valid_page p -> ROUND_UP_PGSIZE kernel_end <= p).
Proof.
  pose proof kernel_end_range as Hr. unfold valid_page, page_aligned.
  rewrite ROUND_UP_eq by vmlia. vmconst. split_and!; intros; lia.
Qed.

(** after [kalloc_init] the allocator owns exactly the valid pages, each once:
    the loop over RAM stops at [MEMORY_END] (a round per page is enough fuel) and
    never panics. *)
Theorem kalloc_init_spec fuel s :
  hw_wf (km_hw s) ->
  (MEMORY_END - ROUND_UP_PGSIZE kernel_end) / PGSIZE < Z.of_nat fuel ->
  runs (kalloc_init fuel) s (fun _ s' =>
    exists l, km_inv l s' /\ (forall p, p ∈ l <-> valid_page p)).
Proof.
  intros Hwf Hfuel. destruct first_page_spec as (Hr & Ha & Hmin).
  set (start := ROUND_UP_PGSIZE kernel_end) in *.
  unfold kalloc_init. fold start.
  replace (negb (MEMORY_END mod PGSIZE =? 0)) with false by done.
  apply runs_bind. eapply runs_eq; [by apply zoom_Ret|]. apply runs_bind.
  eapply runs_eq; [done|].
  eapply (runs_while_loop _ (fun cur _ => (MEMORY_END - cur) / PGSIZE)
    (fun cur s => page_aligned cur /\ start <= cur <= MEMORY_END /\
       exists l, km_inv l s /\ forall p, p ∈ l <-> valid_page p /\ p < cur)).
  - intros cur s1 (Hca & Hcr & l & Hinv & Hl). split; [vmlia|].
    destruct (Z.eqb_spec cur MEMORY_END) as [->|Hne].
    { apply runs_ret. exists l. split; [done|]. intros p. rewrite Hl.
      split; [tauto|]. intros Hp. split; [done|]. apply Hp. }
    assert (valid_page cur) as Hcv by (split; [lia|done]).
    apply runs_bind. eapply runs_mono; [apply kfree_ok; [exact Hinv|done|]|].
    { rewrite Hl. lia. }
    intros [] s2 (Hinv2 & _ & _). unfold page_aligned in *. cbn beta iota.
    assert ((cur + PGSIZE) mod PGSIZE = 0 /\ cur + PGSIZE <= MEMORY_END) as [Hn1 Hn2] by vmlia.
    split; [|vmlia]. split_and!; try vmlia. exists (cur :: l). split; [done|].
    intros p. rewrite elem_of_cons, Hl. split.
    + intros [->|[Hp Hlt]]; (split; [done|vmlia]).
    + intros [Hp Hlt]. destruct (decide (p = cur)) as [->|Hne']; [by left|right].
      split; [done|]. destruct Hp as [_ Hp]. unfold page_aligned in Hp. vmlia.
  - split_and!; try done; try lia. exists []. split.
    + split; cbn; try done; try apply lookup_insert_eq; constructor.
    + intros p. split; [intros Hp; by destruct (not_elem_of_nil p)|]. intros [Hp Hlt]. specialize (Hmin p Hp). lia.
  - done.
Qed.

End Kalloc.
