(* ===== verification/PageTable.v ===== *)
(** * Sv39 page tables: kernel/vm/vm.c lines 51-290 (definitions)

    A page table is the address of its root page; an entry is a 64-bit word in
    memory, so the code below reads and writes [km_mem]. *)

From S2P Require Import Prelude Hart VmSystem Mem Kalloc.

Definition NO_ALLOC : Z := 0.
Definition ALLOC : Z := 1.
Definition NO_FREE : Z := 0.
Definition FREE : Z := 1.
Definition NO_PANIC : Z := 0.
Definition PANIC : Z := 1.

Definition load64 (a : Z) : M kmem Z := gets (fun s => ld64 (km_mem s) a).
Definition store64 (a v : Z) : M kmem unit := modify (fun s => set_mem (st64 (km_mem s) a v) s).

Section PageTable.
Context `{KernelImage}.

(** The [while (1)] of [walk] makes at most one round per level. *)
Definition walk (pgtable va alloc : Z) : M kmem Z :=
  if va >? MAX_VA then mret NULL else
  while_loop 3 (MAX_LEVEL, pgtable) (fun '(level, cur_table) =>
    let cur_pte := cur_table + 8 * VPN_LEVEL_N va level in
    if level =? 0 then mret (inr cur_pte) else
    e ← load64 cur_pte;
    stop ← (if Z.land e PTE_V =? 0 then
              if negb (alloc =? ALLOC) then mret true else
              pg ← get_clear_page;
              if pg =? NULL then mret true else
              store64 cur_pte (MAKE_PTE pg PTE_V) ;; mret false
            else mret false);
    if (stop : bool) then mret (inr NULL) else
    e ← load64 cur_pte;
    mret (inl (level - 1, PTE_GET_PA e))).

Definition map_page (pgtable va pa attribute : Z) : M kmem Z :=
  target ← walk pgtable va ALLOC;
  if target =? NULL then mret (-1) else
  e ← load64 target;
  if negb (Z.land e PTE_V =? 0)
  then panic "map_page: try to map page that has been mapped" else
  store64 target (MAKE_PTE pa (Z.lor attribute PTE_V)) ;;
  mret 0.

Definition unmap_page_flex (pgtable va free panic_when_unmap : Z) : M kmem unit :=
  target ← walk pgtable va NO_ALLOC;
  unmapped ← (if target =? NULL then mret true else
              e ← load64 target; mret (Z.land e PTE_V =? 0));
  if (unmapped : bool) then
    if panic_when_unmap =? PANIC then panic "unmap_page_flex: unmap unmaped page" else mret tt
  else
    (if free =? FREE then e ← load64 target; kfree (PTE_GET_PA e) else mret tt) ;;
    store64 target 0.

Definition unmap_page (pgtable va : Z) : M kmem unit := unmap_page_flex pgtable va NO_FREE PANIC.
Definition unmap_page_free (pgtable va : Z) : M kmem unit := unmap_page_flex pgtable va FREE PANIC.

(** [va += PGSIZE] after each round: round [i] works on [va + i * PGSIZE]. *)
Definition unmap_n_pages_flex (pgtable va n free panic_when_unmap : Z) : M kmem unit :=
  for_each (Z.to_nat n) 0 (fun i =>
    unmap_page_flex pgtable (u64 (va + i * PGSIZE)) free panic_when_unmap).
Definition unmap_n_pages (pgtable va n : Z) : M kmem unit :=
  unmap_n_pages_flex pgtable va n NO_FREE PANIC.
Definition unmap_n_pages_free (pgtable va n : Z) : M kmem unit :=
  unmap_n_pages_flex pgtable va n FREE PANIC.
Definition unmap_n_pages_free_hole (pgtable va n : Z) : M kmem unit :=
  unmap_n_pages_flex pgtable va n FREE NO_PANIC.

Definition map_n_pages (pgtable va n pa attribute : Z) : M kmem Z :=
  r ← for_loop (Z.to_nat n) 0 (fun i =>
        err ← map_page pgtable (u64 (va + i * PGSIZE)) (u64 (pa + i * PGSIZE)) attribute;
        if negb (err =? 0) then unmap_n_pages pgtable va i ;; mret (Some (-1)) else mret None);
  mret (default 0 r).

(** [fuel] bounds the recursion over levels; 3 is enough from [MAX_LEVEL]. *)
Fixpoint free_page_table_aux (fuel : nat) (pgtable level : Z) : M kmem unit :=
  match fuel with
  | O => no_fuel
  | S fuel' =>
      for_each 512 0 (fun i =>
        pte ← load64 (pgtable + 8 * i);
        if Z.land pte PTE_V =? 0 then mret tt else
        let cur_table := PTE_GET_PA pte in
        if level =? 1 then kfree cur_table else free_page_table_aux fuel' cur_table (level - 1)) ;;
      kfree pgtable
  end.
Definition free_page_table (pgtable : Z) : M kmem unit := free_page_table_aux 3 pgtable MAX_LEVEL.

(** [(page_table)-1] marks a failed copy, NULL an empty one. *)
Definition copy_failed : Z := u64 (-1).

Fixpoint copy_page_table_aux (fuel : nat) (pgtable level : Z) : M kmem Z :=
  match fuel with
  | O => no_fuel
  | S fuel' =>
      copy_table ← get_pagetable;
      if copy_table =? NULL then mret copy_failed else
      (* has_sub_page and the early return travel in the loop's result *)
      r ← while_loop 513 (0, false) (fun '(i, has_sub_page) =>
            if i >=? 512 then mret (inr (inl has_sub_page)) else
            pte ← load64 (pgtable + 8 * i);
            if Z.land pte PTE_V =? 0 then mret (inl (i + 1, has_sub_page)) else
            let sub_table_or_page := PTE_GET_PA pte in
            let attribute := PTE_GET_ATTRIBUTE pte in
            if level =? 0 then
              page ← kalloc;
              if page =? NULL then
                free_page_table_aux fuel copy_table 0 ;; mret (inr (inr copy_failed))
              else
                modify (fun s => set_mem (memcpy (km_mem s) page sub_table_or_page PGSIZE) s) ;;
                store64 (copy_table + 8 * i) (MAKE_PTE page attribute) ;;
                mret (inl (i + 1, true))
            else
              sub_table ← copy_page_table_aux fuel' sub_table_or_page (level - 1);
              if sub_table =? NULL then mret (inl (i + 1, true)) else
              if sub_table =? copy_failed then
                free_page_table_aux fuel copy_table level ;; mret (inr (inr copy_failed))
              else
                store64 (copy_table + 8 * i) (MAKE_PTE sub_table attribute) ;;
                mret (inl (i + 1, true)));
      match r with
      | inl has_sub_page =>
          if (has_sub_page : bool) then mret copy_table else kfree copy_table ;; mret NULL
      | inr v => mret v
      end
  end.
Definition copy_page_table (pgtable : Z) : M kmem Z :=
  ret ← copy_page_table_aux 3 pgtable MAX_LEVEL;
  mret (if (ret =? NULL) || (ret =? copy_failed) then NULL else ret).

(** The loop variable is [cur_mem]; [fuel] is a bound on the number of pages. *)
Definition merge_page_table_in_interval (fuel : nat) (mapped_table pgtable start end_ : Z)
  : M kmem Z :=
  let err_ret cur_mem :=
    unmap_n_pages_free_hole mapped_table start (i32 (u64 (cur_mem - start) / PGSIZE)) ;;
    mret (inr (-1)) in
  while_loop fuel start (fun cur_mem =>
    if cur_mem >=? end_ then mret (inr 0) else
    pte ← walk pgtable cur_mem NO_ALLOC;
    if pte =? NULL then mret (inl (u64 (cur_mem + PGSIZE))) else
    e ← load64 pte;
    let origin_page := PTE_GET_PA e in
    let attribute := PTE_GET_ATTRIBUTE e in
    copy_page ← kalloc;
    if copy_page =? NULL then err_ret cur_mem else
    modify (fun s => set_mem (memcpy (km_mem s) copy_page origin_page PGSIZE) s) ;;
    err ← map_page mapped_table cur_mem copy_page attribute;
    if negb (err =? 0) then err_ret cur_mem else mret (inl (u64 (cur_mem + PGSIZE)))).

End PageTable.
