(* ===== verification/PageTableSpec.v ===== *)
(** * Page tables as trees, and what walk, map and unmap do to them

    [T] maps the path of indices of a table (root first) to the page that holds it;
    [pt_rep m T] says that memory [m] holds exactly that tree.  [leaf] reads the
    last-level entry of an address. *)

From S2P Require Import Prelude Hart VmSystem Mem Kalloc PageTable.

Abbreviation tree := (gmap (list Z) Z).

(** The table an address goes through at [level], from the root. *)
Definition vpn_path (va : Z) (level : nat) : list Z :=
  take (2 - level) [VPN_LEVEL_N va 2; VPN_LEVEL_N va 1].

Definition pte_addr (p i : Z) : Z := p + 8 * i.

Section Spec.
Context `{KernelImage}.

Record pt_rep (m : mem) (T : tree) : Prop := {
  rep_root : is_Some (T !! []);
  rep_page k p : T !! k = Some p -> valid_page p /\ (length k <= 2)%nat;
  rep_entry k p i : T !! k = Some p -> (length k < 2)%nat -> 0 <= i < 512 ->
    T !! (k ++ [i]) = (if pte_valid (ld64 m (pte_addr p i))
                       then Some (PTE_GET_PA (ld64 m (pte_addr p i))) else None);
  rep_index k i : is_Some (T !! (k ++ [i])) -> 0 <= i < 512 /\ is_Some (T !! k);
  rep_inj k k' p : T !! k = Some p -> T !! k' = Some p -> k = k' }.

Definition leaf_addr (T : tree) (va : Z) : option Z :=
  p ← T !! vpn_path va 0; Some (pte_addr p (VPN_LEVEL_N va 0)).
Definition leaf (m : mem) (T : tree) (va : Z) : Z :=
  match leaf_addr T va with Some a => ld64 m a | None => 0 end.

(** The allocator, the tree and their separation. *)
Record vm_inv (T : tree) (l : list Z) (s : kmem) : Prop := {
  vm_km : km_inv l s;
  vm_rep : pt_rep (km_mem s) T;
  vm_sep k p : T !! k = Some p -> p ∉ l }.

Definition in_tree (T : tree) (a : Z) : Prop := exists k p, T !! k = Some p /\ in_page p a.
Definition in_pages (ps : list Z) (a : Z) : Prop := exists p, p ∈ ps /\ in_page p a.

(** Harts that differ only in the scratch field of an un-nested interrupt count. *)
Definition hw_equiv (h h' : hw) : Prop := settle h = settle h'.

#[export] Instance hw_equiv_equiv : Equivalence hw_equiv.
Proof. split; unfold hw_equiv; [intros ?|intros ???|intros ?????]; congruence. Qed.

(** What a page-table operation may do to the rest of the machine: take pages from
    the front of the free list, write those and the tables of the tree. *)
Record vm_step (T : tree) (l : list Z) (s : kmem) (T' : tree) (l' : list Z) (s' : kmem) : Prop := {
  step_inv : vm_inv T' l' s';
  step_sub : T ⊆ T';
  step_hw : hw_equiv (km_hw s) (km_hw s');
  step_new : exists new, l = new ++ l' /\
    (forall k p, T' !! k = Some p -> T !! k = Some p \/ p ∈ new) /\
    (forall a, ~ in_pages new a -> ~ in_tree T a -> ld8 (km_mem s') a = ld8 (km_mem s) a) }.

Lemma vm_step_refl T l s : vm_inv T l s -> vm_step T l s T l s.
Proof.
  intros Hinv. split; [done..|]. exists []. split_and!; [done| |done]. by left.
Qed.

Lemma vm_step_trans T l s T1 l1 s1 T2 l2 s2 :
  vm_step T l s T1 l1 s1 -> vm_step T1 l1 s1 T2 l2 s2 -> vm_step T l s T2 l2 s2.
Proof.
  intros [Hi1 Hs1 Hh1 (n1 & -> & Hn1 & Hm1)] [Hi2 Hs2 Hh2 (n2 & -> & Hn2 & Hm2)].
  split; [done|by etrans|by etrans|].
  exists (n1 ++ n2). split_and!; [by rewrite app_assoc| |].
  - intros k p Hk. destruct (Hn2 k p Hk) as [Hk1|]; [|set_solver].
    destruct (Hn1 k p Hk1); set_solver.
  - intros a Hnp Hnt. rewrite Hm2, Hm1; [done| | | |].
    + intros (p & Hp & Ha). apply Hnp. exists p. set_solver.
    + done.
    + intros (p & Hp & Ha). apply Hnp. exists p. set_solver.
    + intros (k & p & Hk & Ha). destruct (Hn1 k p Hk) as [Hk0|Hin].
      * apply Hnt. by exists k, p.
      * apply Hnp. exists p. set_solver.
Qed.

(** ** Entries *)

Lemma pte_addr_in_page p i b :
  0 <= i < 512 -> pte_addr p i <= b < pte_addr p i + 8 -> in_page p b.
Proof. unfold pte_addr, in_page. vmlia. Qed.

Lemma load_le_zero n m a : (forall b, a <= b < a + Z.of_nat n -> ld8 m b = 0) -> load_le n m a = 0.
Proof.
  revert a. induction n as [|n IH]; intros a Hz; [done|]. cbn [load_le].
  rewrite Hz, IH by (intros; try apply Hz; lia). done.
Qed.

Lemma entry_other_page m m' p q i :
  page_aligned p -> page_aligned q -> p <> q -> 0 <= i < 512 ->
  same_outside (in_page q) m m' -> ld64 m' (pte_addr p i) = ld64 m (pte_addr p i).
Proof.
  intros Hp Hq Hne Hi Hs. apply ld64_ext. intros b Hb. apply Hs. intros Hq'. apply Hne.
  eapply pages_disjoint; [done|done| |exact Hq']. by eapply pte_addr_in_page.
Qed.

Lemma entry_st64 m p i q j v :
  page_aligned p -> page_aligned q -> 0 <= i < 512 -> 0 <= j < 512 -> 0 <= v < 2 ^ 64 ->
  ld64 (st64 m (pte_addr p i) v) (pte_addr q j) =
  if decide (p = q /\ i = j) then v else ld64 m (pte_addr q j).
Proof.
  intros Hp Hq Hi Hj Hv. case_decide as Hd.
  - destruct Hd as [-> ->]. by apply ld64_st64.
  - apply ld64_st64_outside. unfold pte_addr, page_aligned in *.
    assert (p <> q \/ i <> j) by (destruct (decide (p = q)), (decide (i = j)); tauto). vmlia.
Qed.

Lemma vpn_path_S va level :
  (level < 2)%nat ->
  vpn_path va level = vpn_path va (S level) ++ [VPN_LEVEL_N va (Z.of_nat (S level))].
Proof. intros Hl. destruct level as [|[|]]; [done|done|lia]. Qed.

Lemma length_vpn_path va level : length (vpn_path va level) = (2 - level)%nat.
Proof. unfold vpn_path. rewrite length_take. cbn. lia. Qed.

Lemma table_neq (T : tree) (l : list Z) k p q :
  (forall k p, T !! k = Some p -> p ∉ l) -> T !! k = Some p -> q ∈ l -> p <> q.
Proof. intros Hs Hk Hq ->. by apply (Hs k q). Qed.

Lemma MAKE_PTE_table pg :
  valid_page pg ->
  pte_valid (MAKE_PTE pg PTE_V) = true /\ PTE_GET_PA (MAKE_PTE pg PTE_V) = pg.
Proof.
  intros Hp. pose proof (valid_page_range _ Hp). split.
  - apply (MAKE_PTE_V_valid pg 0). vmlia.
  - apply PTE_GET_PA_MAKE_PTE; [apply Hp|vmlia].
Qed.

(** Installing an empty table in an unused entry. *)
Lemma pt_rep_extend m m' T k p i pg :
  pt_rep m T -> T !! k = Some p -> (length k < 2)%nat -> 0 <= i < 512 ->
  pte_valid (ld64 m (pte_addr p i)) = false ->
  valid_page pg -> (forall k' q, T !! k' = Some q -> q <> pg) ->
  ld64 m' (pte_addr p i) = MAKE_PTE pg PTE_V ->
  (forall j, 0 <= j < 512 -> ld64 m' (pte_addr pg j) = 0) ->
  (forall k' q j, T !! k' = Some q -> 0 <= j < 512 -> ~ (q = p /\ j = i) ->
     ld64 m' (pte_addr q j) = ld64 m (pte_addr q j)) ->
  pt_rep m' (<[k ++ [i] := pg]> T).
Proof.
  intros [Hr Hp He Hi Hj] Hk Hlen Hi0 Hinv Hpg Hnew Hin Hz Ho.
  destruct (MAKE_PTE_table pg Hpg) as [Hv Hpa].
  assert (T !! (k ++ [i]) = None) as Hnone by (by rewrite (He k p i), Hinv).
  split.
  - rewrite lookup_insert_ne by (intros E; by destruct k). done.
  - intros k' q. rewrite lookup_insert. case_decide as E.
    + intros [= <-]. split; [done|]. rewrite <- E, length_app. cbn. lia.
    + apply Hp.
  - intros k' q j. rewrite lookup_insert. case_decide as E.
    + intros [= <-] Hl Hj0. subst k'. rewrite Hz by done. cbn.
      rewrite lookup_insert_ne by (intros E%(f_equal length); rewrite !length_app in E; cbn in E; lia).
      apply eq_None_not_Some. intros Hs. apply Hi in Hs as [_ Hs]. rewrite Hnone in Hs. by destruct Hs.
    + intros Hq Hl Hj0. rewrite lookup_insert. case_decide as E2.
      * apply app_inj_tail in E2 as [<- <-]. rewrite Hk in Hq. injection Hq as <-.
        by rewrite Hin, Hv, Hpa.
      * rewrite (Ho k' q j Hq Hj0); [by apply He|]. intros [-> ->]. apply E2.
        by rewrite (Hj k k' p).
  - intros k' j. rewrite lookup_insert. case_decide as E.
    + intros _. apply app_inj_tail in E as [<- <-]. split; [done|].
      rewrite lookup_insert_ne by (intros E%(f_equal length); rewrite length_app in E; cbn in E; lia).
      by eexists.
    + intros Hs. apply Hi in Hs as [Hj0 Hs]. split; [done|].
      rewrite lookup_insert. case_decide; [by eexists|done].
  - intros k1 k2 q. rewrite !lookup_insert. repeat case_decide; try congruence.
    + intros [= <-] Hq. by destruct (Hnew _ _ Hq).
    + intros Hq [= <-]. by destruct (Hnew _ _ Hq).
    + apply Hj.
Qed.

(** ** [walk] *)

(** A round of [walk]'s loop. *)
Definition walk_round (va alloc : Z) : Z * Z -> M kmem (Z * Z + Z) :=
  fun '(level, cur_table) =>
    let cur_pte := cur_table + 8 * VPN_LEVEL_N va level in
    if level =? 0 then mret (inr cur_pte) else
    e ← load64 cur_pte;
    stop ← (if Z.land e PTE_V =? 0 then
              if negb (alloc =? ALLOC) then mret true else
              pg ← get_clear_page;
              if pg =? NULL then mret true else
              store64 cur_pte (MAKE_PTE pg PTE_V) ;; mret false
            else mret false);
    if (stop : bool) then mret (inr NULL) else
    e ← load64 cur_pte;
    mret (inl (level - 1, PTE_GET_PA e)).

Lemma walk_unfold pgtable va alloc :
  va <= MAX_VA -> walk pgtable va alloc = while_loop 3 (Z.of_nat 2, pgtable) (walk_round va alloc).
Proof. intros Hva. unfold walk. by replace (va >? MAX_VA) with false by lia. Qed.

Lemma path_prefix m T va level :
  pt_rep m T -> (level < 2)%nat ->
  is_Some (T !! vpn_path va level) -> is_Some (T !! vpn_path va (S level)).
Proof. intros Hr Hl. rewrite vpn_path_S by done. by intros [_ ?]%(rep_index _ _ Hr). Qed.

Lemma path_entry m T va level p :
  pt_rep m T -> (level < 2)%nat -> T !! vpn_path va (S level) = Some p ->
  let e := ld64 m (pte_addr p (VPN_LEVEL_N va (Z.of_nat (S level)))) in
  T !! vpn_path va level = if pte_valid e then Some (PTE_GET_PA e) else None.
Proof.
  intros Hr Hl Hp. rewrite vpn_path_S by done.
  apply (rep_entry _ _ Hr); [done|rewrite length_vpn_path; lia|]. apply VPN_LEVEL_N_range. lia.
Qed.

Lemma level_ne_0 level : (Z.of_nat (S level) =? 0) = false.
Proof. apply Z.eqb_neq. lia. Qed.

(** A round at an interior level whose entry is valid goes down one level. *)
Lemma walk_round_down va alloc level p s :
  let e := ld64 (km_mem s) (pte_addr p (VPN_LEVEL_N va (Z.of_nat (S level)))) in
  pte_valid e = true ->
  walk_round va alloc (Z.of_nat (S level), p) s = Ret (inl (Z.of_nat level, PTE_GET_PA e)) s.
Proof.
  intros e Hv. unfold walk_round. rewrite level_ne_0.
  unfold load64. mrung. fold (pte_addr p (VPN_LEVEL_N va (Z.of_nat (S level)))). fold e.
  unfold pte_valid in Hv. apply negb_true_iff in Hv. rewrite Hv. cbn. do 3 f_equal. lia.
Qed.

Definition walk_result (T : tree) (va : Z) : Z :=
  match leaf_addr T va with Some a => a | None => NULL end.

Lemma walk_no_alloc_from T va s level p :
  pt_rep (km_mem s) T -> (level <= 2)%nat -> T !! vpn_path va level = Some p ->
  while_loop (S level) (Z.of_nat level, p) (walk_round va NO_ALLOC) s = Ret (walk_result T va) s.
Proof.
  intros Hr. unfold walk_result, leaf_addr. revert p.
  induction level as [|level IH]; intros p Hl Hp.
  - rewrite Hp. done.
  - pose proof (path_entry _ _ va level p Hr Hl Hp) as He. cbv zeta in He.
    remember (S level) as n. cbn [while_loop]. subst n.
    destruct (pte_valid _) eqn:Hv.
    + mret_rw (walk_round_down va NO_ALLOC level p s Hv). apply IH; [lia|done].
    + assert (T !! vpn_path va 0 = None) as ->.
      { destruct (T !! vpn_path va 0) as [q|] eqn:E0; [|done].
        assert (is_Some (T !! vpn_path va level)) as [? ?]; [|congruence].
        assert (level = 0 \/ level = 1)%nat as [->| ->] by lia; [by eexists|].
        eapply path_prefix; [done|lia|by eexists]. }
      unfold walk_round. rewrite level_ne_0.
      unfold load64, NO_ALLOC, ALLOC. mrung.
      fold (pte_addr p (VPN_LEVEL_N va (Z.of_nat (S level)))).
      unfold pte_valid in Hv. apply negb_false_iff in Hv. by rewrite Hv.
Qed.

(** [walk] without allocation reads the tree and changes nothing. *)
Lemma walk_no_alloc T root va s :
  pt_rep (km_mem s) T -> T !! [] = Some root -> va <= MAX_VA ->
  walk root va NO_ALLOC s = Ret (walk_result T va) s.
Proof.
  intros Hr Hroot Hva. rewrite walk_unfold by done. apply walk_no_alloc_from; [done|lia|done].
Qed.

Lemma walk_beyond root va alloc s : MAX_VA < va -> walk root va alloc s = Ret NULL s.
Proof. intros Hva. unfold walk. by replace (va >? MAX_VA) with true by lia. Qed.

Lemma hw_equiv_settle h : hw_wf h -> hw_equiv h (settle h).
Proof. intros Hwf. unfold hw_equiv. by rewrite settle_settle. Qed.

Lemma leaf_page T va p : leaf_addr T va = Some p ->
  exists q, T !! vpn_path va 0 = Some q /\ p = pte_addr q (VPN_LEVEL_N va 0).
Proof. unfold leaf_addr. destruct (T !! vpn_path va 0); cbn; [|done]. intros [= <-]. by eexists. Qed.

(** ** Installing a table *)

Lemma km_inv_store l s p i v :
  km_inv l s -> page_aligned p -> p ∉ l -> 0 <= i < 512 ->
  km_inv l (set_mem (st64 (km_mem s) (pte_addr p i) v) s).
Proof.
  intros [Hwf Hl Hlist Hv Hnd] Hp Hn Hi. split; triv. cbn.
  eapply free_list_frame; [exact Hp|done|done| |exact Hlist].
  intros a Ha. apply ld8_st64_outside.
  destruct (decide (a < pte_addr p i \/ pte_addr p i + 8 <= a)); [done|].
  destruct Ha. apply (pte_addr_in_page p i); [done|lia].
Qed.

(** No address reads a different last-level entry. *)
Definition same_leaves (m : mem) (T : tree) (m' : mem) (T' : tree) : Prop :=
  forall va, leaf m' T' va = leaf m T va.

Lemma install_leaves m m' T k p i pg :
  pt_rep m T -> T !! k = Some p -> (length k < 2)%nat -> T !! (k ++ [i]) = None ->
  (forall j, 0 <= j < 512 -> ld64 m' (pte_addr pg j) = 0) ->
  (forall k' q j, T !! k' = Some q -> 0 <= j < 512 -> ~ (q = p /\ j = i) ->
     ld64 m' (pte_addr q j) = ld64 m (pte_addr q j)) ->
  same_leaves m T m' (<[k ++ [i] := pg]> T).
Proof.
  intros Hr Hk Hl Hnone Hz Ho va. unfold leaf, leaf_addr. rewrite lookup_insert.
  case_decide as E.
  - rewrite <- E, Hnone. cbn. apply Hz, VPN_LEVEL_N_range. lia.
  - destruct (T !! vpn_path va 0) as [q|] eqn:Hq; [|done]. cbn.
    apply (Ho _ _ _ Hq); [apply VPN_LEVEL_N_range; lia|]. intros [-> _].
    pose proof (rep_inj _ _ Hr _ _ _ Hk Hq) as ->. rewrite length_vpn_path in Hl. lia.
Qed.

Lemma install_step T pg l s s1 k p i :
  vm_inv T (pg :: l) s -> T !! k = Some p -> (length k < 2)%nat -> 0 <= i < 512 ->
  pte_valid (ld64 (km_mem s) (pte_addr p i)) = false ->
  km_inv l s1 -> hw_equiv (km_hw s) (km_hw s1) ->
  (forall a, ld8 (km_mem s1) a = if decide (in_page pg a) then 0 else ld8 (km_mem s) a) ->
  let T' := <[k ++ [i] := pg]> T in
  let s2 := set_mem (st64 (km_mem s1) (pte_addr p i) (MAKE_PTE pg PTE_V)) s1 in
  vm_step T (pg :: l) s T' l s2 /\ same_leaves (km_mem s) T (km_mem s2) T'.
Proof.
  intros [Hkm Hr Hsep] Hk Hl Hi Hinv Hkm1 Hhw Hm T' s2.
  destruct Hkm as [_ _ _ Hv Hnd]. inversion_clear Hv as [|?? Hpg Hv'].
  apply NoDup_cons in Hnd as [Hn Hnd].
  assert (forall k' q, T !! k' = Some q -> page_aligned q /\ q <> pg /\ q ∉ l) as HT.
  { intros k' q Hq. destruct (rep_page _ _ Hr _ _ Hq) as [[_ Ha] _].
    specialize (Hsep _ _ Hq). set_solver. }
  destruct (HT _ _ Hk) as (Hpa & Hpne & Hpl).
  assert (T !! (k ++ [i]) = None) as Hnone by by rewrite (rep_entry _ _ Hr k p i), Hinv.
  pose proof (valid_page_range _ Hpg) as Hpr.
  assert (0 <= MAKE_PTE pg PTE_V < 2 ^ 64) as Hmr by (apply MAKE_PTE_range; vmlia).
  assert (forall j, 0 <= j < 512 -> ld64 (km_mem s2) (pte_addr pg j) = 0) as Hz.
  { intros j Hj. unfold s2; cbn. rewrite entry_st64 by (done || apply Hpg).
    rewrite decide_False by tauto. apply load_le_zero. intros b Hb. rewrite Hm.
    rewrite decide_True; [done|]. by apply (pte_addr_in_page pg j). }
  assert (forall k' q j, T !! k' = Some q -> 0 <= j < 512 -> ~ (q = p /\ j = i) ->
     ld64 (km_mem s2) (pte_addr q j) = ld64 (km_mem s) (pte_addr q j)) as Ho.
  { intros k' q j Hq Hj Hne. destruct (HT _ _ Hq) as (Hqa & Hqne & _). unfold s2; cbn.
    rewrite entry_st64 by done. rewrite decide_False by (intros [-> ->]; tauto).
    apply (entry_other_page _ _ q pg); try done; [apply Hpg|].
    intros a Ha. rewrite Hm. by rewrite decide_False. }
  split; [|by eapply install_leaves].
  split.
  - split; [by apply km_inv_store| |].
    + apply (pt_rep_extend (km_mem s) _ T k p i pg); try done.
      * intros k' q Hq. by destruct (HT _ _ Hq) as (_ & ? & _).
      * unfold s2; cbn. by rewrite ld64_st64.
    + intros k' q. unfold T'. rewrite lookup_insert. case_decide; [by intros [= <-]|].
      intros Hq. by destruct (HT _ _ Hq) as (_ & _ & ?).
  - by apply insert_subseteq.
  - done.
  - exists [pg]. split_and!; [done| |].
    + intros k' q. unfold T'. rewrite lookup_insert. case_decide; [|by left].
      intros [= <-]. right. set_solver.
    + intros a Hna Hnt. unfold s2; cbn. rewrite ld8_st64_outside, Hm.
      * rewrite decide_False; [done|]. intros Ha. apply Hna. exists pg. set_solver.
      * destruct (decide (a < pte_addr p i \/ pte_addr p i + 8 <= a)); [done|].
        destruct Hnt. exists k, p. split; [done|]. apply (pte_addr_in_page p i); [done|lia].
Qed.

(** ** [walk] with allocation *)

(** A round at an interior level whose entry is unused. *)
Lemma walk_round_alloc va T l s level p :
  vm_inv T l s -> (level < 2)%nat -> T !! vpn_path va (S level) = Some p ->
  pte_valid (ld64 (km_mem s) (pte_addr p (VPN_LEVEL_N va (Z.of_nat (S level))))) = false ->
  runs (walk_round va ALLOC (Z.of_nat (S level), p)) s (fun r s' =>
    match l with
    | [] => r = inr NULL /\ vm_step T [] s T [] s' /\ km_mem s' = km_mem s
    | pg :: l' => r = inl (Z.of_nat level, pg) /\
        vm_step T l s (<[vpn_path va level := pg]> T) l' s' /\
        same_leaves (km_mem s) T (km_mem s') (<[vpn_path va level := pg]> T)
    end).
Proof.
  intros Hinv Hl Hp Hv. pose proof Hinv as [Hkm Hr Hsep].
  pose proof (inv_hw _ _ Hkm) as Hwf.
  assert (0 <= VPN_LEVEL_N va (Z.of_nat (S level)) < 512) as Hi by (apply VPN_LEVEL_N_range; lia).
  set (i := VPN_LEVEL_N va (Z.of_nat (S level))) in *.
  unfold walk_round. rewrite level_ne_0. fold i. fold (pte_addr p i).
  apply runs_bind. eapply runs_eq; [reflexivity|].
  unfold pte_valid in Hv. pose proof Hv as Hv'. apply negb_false_iff in Hv'. rewrite Hv'.
  change (negb (ALLOC =? ALLOC)) with false. cbv iota.
  apply runs_bind, runs_bind. eapply runs_mono; [by apply get_clear_page_spec|].
  intros pg s1 [Hhw H1]. destruct l as [|pg' l].
  - destruct H1 as (-> & Hm & Hi1). change (NULL =? NULL) with true. cbv iota.
    apply runs_ret. apply runs_ret. split_and!; [done| |done].
    split; [split; [done|by rewrite Hm|done]|done|rewrite Hhw; by apply hw_equiv_settle|].
    exists []. split_and!; [done|by left|by rewrite Hm].
  - destruct H1 as (-> & Hpg & Hn & Hi1 & Hm). rewrite (valid_page_nonnull pg' Hpg).
    destruct (install_step T pg' l s s1 (vpn_path va (S level)) p i) as [Hstep Hleaf]; try done.
    { rewrite length_vpn_path. lia. }
    { rewrite Hhw. by apply hw_equiv_settle. }
    apply runs_bind. eapply runs_eq; [reflexivity|]. apply runs_ret.
    apply runs_bind. eapply runs_eq; [reflexivity|]. apply runs_ret.
    unfold i in *. rewrite <- (vpn_path_S va level) in Hstep, Hleaf by done.
    split_and!; [|done|done]. f_equal. f_equal; [lia|]. cbn.
    rewrite ld64_st64 by (apply MAKE_PTE_range; apply valid_page_range in Hpg; vmlia).
    by apply MAKE_PTE_table.
Qed.

(** The specification of [walk] with allocation: no last-level entry changes
    value; the answer is the address of [va]'s entry in the grown tree, or NULL
    with the free list exhausted and [va] still unmapped. *)
Definition walk_alloc_post (T : tree) (l : list Z) (s : kmem) (va : Z) (r : Z) (s' : kmem) : Prop :=
  exists T' l', vm_step T l s T' l' s' /\ same_leaves (km_mem s) T (km_mem s') T' /\
    ((r = NULL /\ l' = [] /\ leaf_addr T' va = None) \/ leaf_addr T' va = Some r).

Lemma walk_alloc_from va level : forall T l s p,
  vm_inv T l s -> (level <= 2)%nat -> T !! vpn_path va level = Some p ->
  runs (while_loop (S level) (Z.of_nat level, p) (walk_round va ALLOC)) s (walk_alloc_post T l s va).
Proof.
  induction level as [|level IH]; intros T l s p Hinv Hl Hp.
  - eapply runs_eq; [reflexivity|]. exists T, l.
    split_and!; [by apply vm_step_refl|done|]. right. unfold leaf_addr. by rewrite Hp.
  - pose proof (path_entry _ _ va level p (vm_rep _ _ _ Hinv) Hl Hp) as He. cbv zeta in He.
    remember (S level) as n. cbn [while_loop]. subst n. apply runs_bind.
    destruct (pte_valid _) eqn:Hv.
    + eapply runs_eq; [by apply walk_round_down|]. apply IH; [done|lia|done].
    + eapply runs_mono; [by apply walk_round_alloc|]. intros r s1. destruct l as [|pg l].
      * intros (-> & Hstep & Hm). apply runs_ret. exists T, []. split_and!; [done|by rewrite Hm|].
        left. split_and!; [done..|]. unfold leaf_addr.
        destruct (T !! vpn_path va 0) as [q|] eqn:E0; [|done].
        assert (is_Some (T !! vpn_path va level)) as [? ?]; [|congruence].
        assert (level = 0 \/ level = 1)%nat as [->| ->] by lia; [by eexists|].
        eapply path_prefix; [by destruct Hinv|lia|by eexists].
      * intros (-> & Hstep & Hleaf). cbv iota beta.
        eapply runs_mono; [apply IH; [apply Hstep|lia|apply lookup_insert_eq]|].
        intros r s2 (T2 & l2 & Hstep2 & Hleaf2 & Hres). exists T2, l2.
        split_and!; [by eapply vm_step_trans| |done].
        intros va'. by rewrite Hleaf2.
Qed.

Lemma walk_alloc va T l s root :
  vm_inv T l s -> T !! [] = Some root -> va <= MAX_VA ->
  runs (walk root va ALLOC) s (walk_alloc_post T l s va).
Proof.
  intros Hinv Hroot Hva. rewrite walk_unfold by done. by apply walk_alloc_from.
Qed.

(** ** Writing a last-level entry *)

Definition same_page (va va' : Z) : Prop := va / PGSIZE = va' / PGSIZE.

#[export] Instance same_page_dec va va' : Decision (same_page va va').
Proof. unfold same_page. apply _. Defined.

Definition user_range (va : Z) : Prop := 0 <= va <= MAX_VA.

Lemma leaf_addr_inj m T va va' a :
  pt_rep m T -> user_range va -> user_range va' ->
  leaf_addr T va = Some a -> leaf_addr T va' = Some a -> same_page va va'.
Proof.
  intros Hr H1 H2 (q & Hq & Ha)%leaf_page (q' & Hq' & Ha')%leaf_page.
  pose proof (VPN_LEVEL_N_range va 0). pose proof (VPN_LEVEL_N_range va' 0).
  destruct (rep_page _ _ Hr _ _ Hq) as [[_ Hqa] _], (rep_page _ _ Hr _ _ Hq') as [[_ Hqa'] _].
  assert (q = q') as <- by (unfold page_aligned, pte_addr in *; vmlia).
  pose proof (rep_inj _ _ Hr _ _ _ Hq Hq') as Hk. unfold vpn_path in Hk. cbn in Hk.
  injection Hk as E2 E1. apply VPN_inj; try done. unfold pte_addr in *. lia.
Qed.

Lemma leaf_addr_same_page T va va' : same_page va va' -> leaf_addr T va = leaf_addr T va'.
Proof.
  intros Hs. unfold leaf_addr, vpn_path.
  by rewrite !(VPN_same_page va va') by (done || lia).
Qed.

Lemma store_leaf T l s va a v :
  vm_inv T l s -> user_range va -> leaf_addr T va = Some a -> 0 <= v < 2 ^ 64 ->
  let s' := set_mem (st64 (km_mem s) a v) s in
  vm_step T l s T l s' /\
  (forall va', user_range va' ->
     leaf (km_mem s') T va' = if decide (same_page va va') then v else leaf (km_mem s) T va').
Proof.
  intros [Hkm Hr Hsep] Hva Ha Hv s'. pose proof Ha as (q & Hq & ->)%leaf_page.
  assert (0 <= VPN_LEVEL_N va 0 < 512) as Hi by (apply VPN_LEVEL_N_range; lia).
  destruct (rep_page _ _ Hr _ _ Hq) as [[_ Hqa] _]. split.
  - split; [|done|done|].
    + split; [apply km_inv_store; eauto| |done].
      split; try apply Hr. intros k p j Hk Hl Hj. unfold s'; cbn.
      destruct (rep_page _ _ Hr _ _ Hk) as [[_ Hpa] _].
      rewrite entry_st64 by done. rewrite decide_False; [by apply Hr|].
      intros [-> _]. pose proof (rep_inj _ _ Hr _ _ _ Hk Hq) as ->.
      rewrite length_vpn_path in Hl. lia.
    + exists []. split_and!; [done|by left|]. intros b _ Hb. apply ld8_st64_outside.
      destruct (decide (b < pte_addr q (VPN_LEVEL_N va 0) \/ pte_addr q (VPN_LEVEL_N va 0) + 8 <= b));
        [done|].
      destruct Hb. exists (vpn_path va 0), q. split; [done|].
      apply (pte_addr_in_page q (VPN_LEVEL_N va 0)); [done|lia].
  - intros va' Hva'. unfold leaf at 1. case_decide as Hs.
    + rewrite <- (leaf_addr_same_page T va va') by done. rewrite Ha. unfold s'; cbn.
      by apply ld64_st64.
    + unfold leaf. destruct (leaf_addr T va') as [a'|] eqn:Ha'; [|done].
      unfold s'; cbn. pose proof Ha' as (q' & Hq' & ->)%leaf_page.
      destruct (rep_page _ _ Hr _ _ Hq') as [[_ Hqa'] _].
      rewrite entry_st64 by (done || apply VPN_LEVEL_N_range; lia).
      rewrite decide_False; [done|]. intros [-> E]. apply Hs.
      rewrite <- E in Ha'. by apply (leaf_addr_inj (km_mem s) T va va' _ Hr Hva Hva' Ha Ha').
Qed.

Lemma leaf_mono T T' m va a :
  T ⊆ T' -> leaf_addr T va = Some a -> leaf_addr T' va = Some a /\ leaf m T' va = leaf m T va.
Proof.
  intros Hsub Ha. assert (leaf_addr T' va = Some a) as Ha'.
  { apply leaf_page in Ha as (q & Hq & ->). unfold leaf_addr.
    by rewrite (lookup_weaken _ _ _ _ Hq Hsub). }
  split; [done|]. unfold leaf. by rewrite Ha, Ha'.
Qed.

(** ** [map_page] *)

Definition mapped (m : mem) (T : tree) (va : Z) : bool := pte_valid (leaf m T va).

(** The tables after mapping [va] to [pa] and nothing else. *)
Definition maps_one (m : mem) (T : tree) (m' : mem) (T' : tree) (va e : Z) : Prop :=
  forall va', user_range va' ->
    leaf m' T' va' = if decide (same_page va va') then e else leaf m T va'.

Lemma leaf_addr_nonnull T l s va a :
  vm_inv T l s -> leaf_addr T va = Some a -> (a =? NULL) = false.
Proof.
  intros Hinv (q & Hq & ->)%leaf_page.
  apply (rep_page _ _ (vm_rep _ _ _ Hinv)) in Hq as [Hq _].
  apply valid_page_range in Hq. pose proof (VPN_LEVEL_N_range va 0). unfold pte_addr, NULL. lia.
Qed.

Lemma map_page_ok T l s root va pa attribute :
  vm_inv T l s -> T !! [] = Some root -> user_range va -> 0 <= pa < 2 ^ 64 ->
  mapped (km_mem s) T va = false ->
  runs (map_page root va pa attribute) s (fun r s' =>
    exists T' l', vm_step T l s T' l' s' /\
      ((r = 0 /\ maps_one (km_mem s) T (km_mem s') T' va (MAKE_PTE pa (Z.lor attribute PTE_V))) \/
       (r = -1 /\ l' = [] /\ same_leaves (km_mem s) T (km_mem s') T'))).
Proof.
  intros Hinv Hroot Hva Hpa Hun. unfold map_page. apply runs_bind.
  eapply runs_mono; [apply walk_alloc; [done|done|apply Hva]|].
  intros target s1 (T1 & l1 & Hstep & Hleaf & [(-> & -> & Hnone)|Ha]).
  - change (NULL =? NULL) with true. apply runs_ret. exists T1, []. split; [done|]. by right.
  - assert ((target =? NULL) = false) as ->.
    { eapply leaf_addr_nonnull; [|exact Ha]. apply Hstep. }
    apply runs_bind. eapply runs_eq; [reflexivity|].
    assert (ld64 (km_mem s1) target = leaf (km_mem s) T va) as ->
      by (rewrite <- (Hleaf va); unfold leaf; by rewrite Ha).
    unfold mapped, pte_valid in Hun. rewrite Hun.
    apply runs_bind. eapply runs_eq; [reflexivity|]. apply runs_ret.
    destruct (store_leaf T1 l1 s1 va target (MAKE_PTE pa (Z.lor attribute PTE_V))) as [Hst Hl2];
      try done; [apply Hstep|by apply MAKE_PTE_range|].
    exists T1, l1. split; [by eapply vm_step_trans|]. left. split; [done|].
    intros va' Hva'. rewrite Hl2 by done. case_decide; [done|apply Hleaf].
Qed.

(** C3: [map_page] of an unmapped page installs exactly one translation: on success
    the entry of [va]'s page is [pa] with the attributes and the valid bit, every
    other page of the address space keeps its entry, the tables stay a tree whose
    new tables come from the free list, and memory outside the tables and the pages
    taken is untouched.  It fails, with -1 and no translation changed, only when the
    free list has run out. *)
Theorem map_page_spec T l s root va pa attribute :
  vm_inv T l s -> T !! [] = Some root -> user_range va -> 0 <= pa < 2 ^ 64 ->
  mapped (km_mem s) T va = false ->
  runs (map_page root va pa attribute) s (fun r s' =>
    exists T' l', vm_step T l s T' l' s' /\
      ((r = 0 /\ maps_one (km_mem s) T (km_mem s') T' va (MAKE_PTE pa (Z.lor attribute PTE_V))) \/
       (r = -1 /\ l' = [] /\ same_leaves (km_mem s) T (km_mem s') T'))).
Proof. intros. by apply map_page_ok. Qed.

(** Mapping a page that is mapped already panics. *)
Lemma map_page_remap T l s root va pa attribute :
  vm_inv T l s -> T !! [] = Some root -> user_range va -> mapped (km_mem s) T va = true ->
  map_page root va pa attribute s = Panic "map_page: try to map page that has been mapped".
Proof.
  intros Hinv Hroot Hva Hm. pose proof (walk_alloc va T l s root Hinv Hroot (proj2 Hva)) as Hw.
  apply runs_Ret in Hw as (target & s1 & Hw & T1 & l1 & Hstep & Hleaf & Hres).
  assert (leaf_addr T1 va = Some target) as Ha.
  { destruct Hres as [(-> & -> & Hnone)|]; [|done]. unfold mapped in Hm.
    rewrite <- (Hleaf va) in Hm. unfold leaf in Hm. by rewrite Hnone in Hm. }
  unfold map_page. mret_rw Hw.
  rewrite (leaf_addr_nonnull T1 l1 s1 va) by (done || apply Hstep).
  assert (ld64 (km_mem s1) target = leaf (km_mem s) T va) as He
    by (rewrite <- (Hleaf va); unfold leaf; by rewrite Ha).
  unfold load64. mrung. rewrite He. unfold mapped, pte_valid in Hm. by rewrite Hm.
Qed.

Lemma map_page_beyond root va pa attribute s :
  MAX_VA < va -> map_page root va pa attribute s = Ret (-1) s.
Proof. intros Hva. unfold map_page. by mret_rw (walk_beyond root va ALLOC s Hva). Qed.

(** ** [unmap_page_flex] *)

(** The entry of a mapped page, as [unmap_page_flex] finds it. *)
Lemma mapped_leaf m T va :
  mapped m T va = true -> exists a, leaf_addr T va = Some a /\ ld64 m a = leaf m T va.
Proof.
  unfold mapped, leaf. destruct (leaf_addr T va) as [a|]; [|done]. by exists a.
Qed.

(** The common part: up to the test that the page is mapped. *)
Lemma unmap_prefix T l s root va :
  vm_inv T l s -> T !! [] = Some root -> user_range va ->
  walk root va NO_ALLOC s = Ret (walk_result T va) s /\
  (if walk_result T va =? NULL then mret true
   else e ← load64 (walk_result T va); mret (Z.land e PTE_V =? 0)) s
  = Ret (negb (mapped (km_mem s) T va)) s.
Proof.
  intros Hinv Hroot Hva. split; [apply walk_no_alloc; [apply Hinv|done|apply Hva]|].
  unfold walk_result, mapped, leaf. destruct (leaf_addr T va) as [a|] eqn:Ha; [|done].
  rewrite (leaf_addr_nonnull T l s va a) by done. unfold load64. mrung.
  unfold pte_valid. by rewrite negb_involutive.
Qed.

Lemma unmap_unmapped T l s root va free pw :
  vm_inv T l s -> T !! [] = Some root -> user_range va -> mapped (km_mem s) T va = false ->
  unmap_page_flex root va free pw s =
  if pw =? PANIC then Panic "unmap_page_flex: unmap unmaped page" else Ret tt s.
Proof.
  intros Hinv Hroot Hva Hm. destruct (unmap_prefix T l s root va) as [Hw Ht]; try done.
  unfold unmap_page_flex. mret_rw Hw. mret_rw Ht. rewrite Hm. cbn. by destruct (pw =? PANIC).
Qed.

(** Clearing the entry without freeing the page. *)
Lemma unmap_no_free T l s root va pw :
  vm_inv T l s -> T !! [] = Some root -> user_range va -> mapped (km_mem s) T va = true ->
  runs (unmap_page_flex root va NO_FREE pw) s (fun _ s' =>
    vm_step T l s T l s' /\ maps_one (km_mem s) T (km_mem s') T va 0).
Proof.
  intros Hinv Hroot Hva Hm. destruct (unmap_prefix T l s root va) as [Hw Ht]; try done.
  destruct (mapped_leaf _ _ _ Hm) as (a & Ha & He).
  unfold unmap_page_flex. apply runs_bind. eapply runs_eq; [exact Hw|].
  apply runs_bind. eapply runs_eq; [exact Ht|]. rewrite Hm. cbn [negb].
  change (NO_FREE =? FREE) with false. cbv iota. apply runs_bind. apply runs_ret.
  eapply runs_eq; [reflexivity|]. unfold walk_result. rewrite Ha.
  by apply store_leaf.
Qed.

(** Memory changes outside the tables leave the tree and its entries alone. *)
Lemma entry_frame m m' T k p i :
  pt_rep m T -> (forall a, in_tree T a -> ld8 m' a = ld8 m a) -> T !! k = Some p -> 0 <= i < 512 ->
  ld64 m' (pte_addr p i) = ld64 m (pte_addr p i).
Proof.
  intros Hr Hm Hk Hi. apply ld64_ext. intros b Hb. apply Hm. exists k, p.
  split; [done|]. by eapply pte_addr_in_page.
Qed.

Lemma pt_rep_frame m m' T :
  pt_rep m T -> (forall a, in_tree T a -> ld8 m' a = ld8 m a) ->
  pt_rep m' T /\ same_leaves m T m' T.
Proof.
  intros Hr Hm. split.
  - split; try apply Hr. intros k p i Hk Hl Hi.
    rewrite (entry_frame m m' T k p i) by done. by apply Hr.
  - intros va. unfold leaf. destruct (leaf_addr T va) as [a|] eqn:Ha; [|done].
    apply leaf_page in Ha as (q & Hq & ->).
    apply (entry_frame m m' T (vpn_path va 0) q); [done..|]. apply VPN_LEVEL_N_range. lia.
Qed.

Lemma kfree_vm T l s p :
  vm_inv T l s -> valid_page p -> p ∉ l -> (forall k q, T !! k = Some q -> q <> p) ->
  runs (kfree p) s (fun _ s' =>
    vm_inv T (p :: l) s' /\ hw_equiv (km_hw s) (km_hw s') /\ same_leaves (km_mem s) T (km_mem s') T).
Proof.
  intros [Hkm Hr Hsep] Hp Hl Ht. eapply runs_mono; [by eapply kfree_ok|].
  intros [] s1 (Hkm1 & Hhw & Hout).
  destruct (pt_rep_frame (km_mem s) (km_mem s1) T Hr) as [Hr1 Hleaf].
  { intros a (k & q & Hk & Ha). apply Hout. intros Ha'. apply (Ht k q Hk).
    destruct (rep_page _ _ Hr _ _ Hk) as [[_ Hqa] _].
    apply (pages_disjoint q p a); [done|apply Hp|done|unfold in_page; vmlia]. }
  split_and!; [|rewrite Hhw; apply hw_equiv_settle, Hkm|done].
  split; [done|done|]. intros k q Hk. rewrite not_elem_of_cons. split; [by eapply Ht|by eapply Hsep].
Qed.

Lemma unmap_page_free_ok T l s root va pa :
  vm_inv T l s -> T !! [] = Some root -> user_range va -> mapped (km_mem s) T va = true ->
  pa = PTE_GET_PA (leaf (km_mem s) T va) -> valid_page pa -> pa ∉ l ->
  (forall k q, T !! k = Some q -> q <> pa) ->
  runs (unmap_page_free root va) s (fun _ s' =>
    vm_inv T (pa :: l) s' /\ hw_equiv (km_hw s) (km_hw s') /\
    maps_one (km_mem s) T (km_mem s') T va 0).
Proof.
  intros Hinv Hroot Hva Hm Hpa Hp Hl Ht. destruct (unmap_prefix T l s root va) as [Hw Hu]; try done.
  destruct (mapped_leaf _ _ _ Hm) as (a & Ha & He).
  unfold unmap_page_free, unmap_page_flex. apply runs_bind. eapply runs_eq; [exact Hw|].
  apply runs_bind. eapply runs_eq; [exact Hu|]. rewrite Hm. cbn [negb].
  change (FREE =? FREE) with true. cbv iota. apply runs_bind, runs_bind.
  unfold walk_result. rewrite Ha. eapply runs_eq; [reflexivity|]. rewrite He, <- Hpa.
  eapply runs_mono; [by apply (kfree_vm T l)|]. intros [] s1 (Hinv1 & Hhw & Hleaf).
  eapply runs_eq; [reflexivity|].
  destruct (store_leaf T (pa :: l) s1 va a 0) as [Hst Hl2]; try done.
  split_and!; [apply Hst|etrans; [done|apply Hst]|].
  intros va' Hva'. rewrite Hl2 by done. case_decide; [done|apply Hleaf].
Qed.

(** unmapping with [FREE] a page that is mapped clears exactly that page's entry
    and gives the physical page back: it becomes the head of the free list; the
    tables and all other translations stay. *)
Theorem unmap_page_free_spec T l s root va pa :
  vm_inv T l s -> T !! [] = Some root -> user_range va -> mapped (km_mem s) T va = true ->
  pa = PTE_GET_PA (leaf (km_mem s) T va) -> valid_page pa -> pa ∉ l ->
  (forall k q, T !! k = Some q -> q <> pa) ->
  runs (unmap_page_free root va) s (fun _ s' =>
    vm_inv T (pa :: l) s' /\ hw_equiv (km_hw s) (km_hw s') /\
    maps_one (km_mem s) T (km_mem s') T va 0).
Proof. intros. by apply unmap_page_free_ok. Qed.

(** ** [map_n_pages]: all or nothing *)

(** Same mapped pages with the same entries. *)
Definition same_translation (m : mem) (T : tree) (m' : mem) (T' : tree) : Prop :=
  forall va, user_range va ->
    mapped m' T' va = mapped m T va /\ (mapped m T va = true -> leaf m' T' va = leaf m T va).

Definition in_block (va n va' : Z) : Prop := va <= va' < va + n * PGSIZE.
#[export] Instance in_block_dec va n va' : Decision (in_block va n va').
Proof. unfold in_block. apply _. Defined.

Lemma in_block_S va i va' :
  page_aligned va -> 0 <= i ->
  in_block va (i + 1) va' <-> in_block va i va' \/ same_page (va + i * PGSIZE) va'.
Proof. unfold page_aligned, in_block, same_page. intros. vmconst. split; intros; lia. Qed.

Definition block_entry (va pa attribute va' : Z) : Z :=
  MAKE_PTE (pa + (va' - va) / PGSIZE * PGSIZE) (Z.lor attribute PTE_V).

(** The pages of the block are mapped as asked, the rest is as before. *)
Definition maps_block (m : mem) (T : tree) (m' : mem) (T' : tree) (va n pa attribute : Z) : Prop :=
  forall va', user_range va' ->
    leaf m' T' va' = if decide (in_block va n va') then block_entry va pa attribute va' else leaf m T va'.

Lemma unmap_n_pages_spec T l s root va n :
  vm_inv T l s -> T !! [] = Some root -> page_aligned va -> 0 <= va -> 0 <= n ->
  va + n * PGSIZE <= VA_END ->
  (forall va', in_block va n va' -> mapped (km_mem s) T va' = true) ->
  runs (unmap_n_pages root va n) s (fun _ s' =>
    vm_step T l s T l s' /\
    forall va', user_range va' ->
      leaf (km_mem s') T va' = if decide (in_block va n va') then 0 else leaf (km_mem s) T va').
Proof.
  intros Hinv Hroot Hal Hva Hn Hend Hm. unfold unmap_n_pages, unmap_n_pages_flex.
  eapply (runs_for_each _ _ _ (fun i s' => vm_step T l s T l s' /\
    forall va', user_range va' ->
      leaf (km_mem s') T va' = if decide (in_block va i va') then 0 else leaf (km_mem s) T va')).
  - split; [by apply vm_step_refl|]. intros va' _. rewrite decide_False; [done|].
    unfold in_block. lia.
  - intros i s1 Hi [Hst Hl]. rewrite u64_small by vmlia.
    assert (user_range (va + i * PGSIZE)) as Hr by (unfold user_range; vmlia).
    eapply runs_mono; [apply (unmap_no_free T l); [apply Hst|done|done|]|].
    + unfold mapped. rewrite Hl by done. rewrite decide_False by (unfold in_block; lia).
      apply Hm. unfold in_block. vmlia.
    + intros [] s2 [Hst2 Hl2]. split; [by eapply vm_step_trans|].
      intros va' Hva'. rewrite Hl2, Hl by done.
      rewrite (decide_ext _ _ _ _ (in_block_S va i va' Hal ltac:(lia))).
      repeat case_decide; tauto.
  - intros s1 [Hst Hl]. split; [done|]. intros va' Hva'. rewrite Hl by done.
    replace (0 + Z.of_nat (Z.to_nat n)) with n by lia. done.
Qed.

Section MapN.
Variables (T : tree) (l : list Z) (s : kmem) (root va n pa attribute : Z).
Hypotheses (Hinv : vm_inv T l s) (Hroot : T !! [] = Some root)
  (Hal : page_aligned va) (Hva : 0 <= va) (Hend : va + n * PGSIZE <= VA_END)
  (Hpa : 0 <= pa) (Hpend : pa + n * PGSIZE < 2 ^ 64)
  (Hun : forall va', in_block va n va' -> mapped (km_mem s) T va' = false).

Lemma block_entry_valid i va' :
  i <= n -> in_block va i va' -> pte_valid (block_entry va pa attribute va') = true.
Proof using Hpa Hpend.
  clear Hinv Hun. unfold in_block, block_entry. intros Hi Hb. apply MAKE_PTE_V_valid. vmlia.
Qed.

(** Progress of the loop: a page more. *)
Lemma maps_block_S i m1 T1 m2 T2 :
  0 <= i -> maps_block (km_mem s) T m1 T1 va i pa attribute ->
  maps_one m1 T1 m2 T2 (va + i * PGSIZE) (MAKE_PTE (pa + i * PGSIZE) (Z.lor attribute PTE_V)) ->
  maps_block (km_mem s) T m2 T2 va (i + 1) pa attribute.
Proof using Hal.
  clear Hinv Hun. intros Hi Hb Ho va' Hva'. rewrite Ho by done. rewrite Hb by done.
  rewrite (decide_ext _ _ _ _ (in_block_S va i va' Hal Hi)).
  destruct (decide (same_page (va + i * PGSIZE) va')) as [Hs|Hs].
  - rewrite decide_True by tauto. unfold block_entry. f_equal. f_equal.
    unfold same_page, page_aligned in *. vmlia.
  - repeat case_decide; tauto.
Qed.

(** Roll-back: the block is unmapped again, nothing else moved. *)
Lemma rollback_same i m1 T1 m2 T2 :
  i <= n -> maps_block (km_mem s) T m1 T1 va i pa attribute ->
  (forall va', user_range va' ->
    leaf m2 T2 va' = if decide (in_block va i va') then 0 else leaf m1 T1 va') ->
  same_translation (km_mem s) T m2 T2.
Proof using Hun.
  intros Hi Hb Hu va' Hva'. unfold mapped. rewrite Hu, Hb by done.
  case_decide as Hd; [|done].
  assert (mapped (km_mem s) T va' = false) as Hf by (apply Hun; unfold in_block in *; vmlia).
  unfold mapped in Hf. rewrite Hf. done.
Qed.

Lemma map_n_round i s1 :
  0 <= i < n ->
  (exists T1 l1, vm_step T l s T1 l1 s1 /\ maps_block (km_mem s) T (km_mem s1) T1 va i pa attribute) ->
  runs (err ← map_page root (u64 (va + i * PGSIZE)) (u64 (pa + i * PGSIZE)) attribute;
        if negb (err =? 0) then unmap_n_pages root va i ;; mret (Some (-1)) else mret None) s1
    (fun r s2 => exists T2 l2, vm_step T l s T2 l2 s2 /\
       match r with
       | Some v => v = -1 /\ same_translation (km_mem s) T (km_mem s2) T2
       | None => maps_block (km_mem s) T (km_mem s2) T2 va (i + 1) pa attribute
       end).
Proof using All.
  intros Hi (T1 & l1 & Hst & Hb).
  rewrite !u64_small by vmlia.
  assert (T1 !! [] = Some root) as Hroot1 by (eapply lookup_weaken; [done|apply Hst]).
  assert (user_range (va + i * PGSIZE)) as Hr by (unfold user_range; vmlia).
  apply runs_bind. eapply runs_mono; [apply (map_page_ok T1 l1); try done; [apply Hst|vmlia|]|].
  { unfold mapped. rewrite Hb by done. rewrite decide_False by (unfold in_block; lia).
    apply Hun. unfold in_block. vmlia. }
  intros r s2 (T2 & l2 & Hst2 & [[-> Hone]|(-> & -> & Hleaf)]);
    [change (negb (0 =? 0)) with false|change (negb (-1 =? 0)) with true]; cbv iota.
  - apply runs_ret. exists T2, l2. split; [by eapply vm_step_trans|].
    eapply maps_block_S; [lia|done|done].
  - assert (T2 !! [] = Some root) as Hroot2 by (eapply lookup_weaken; [done|apply Hst2]).
    apply runs_bind. eapply runs_mono; [apply (unmap_n_pages_spec T2 []); try done|].
    + apply Hst2.
    + lia.
    + vmlia.
    + intros va' Hva'. unfold mapped. rewrite Hleaf, Hb by (unfold user_range, in_block in *; vmlia).
      rewrite decide_True by done. eapply block_entry_valid; [|done]. lia.
    + intros [] s3 [Hst3 Hu]. apply runs_ret. exists T2, [].
      split; [eapply vm_step_trans; [|done]; by eapply vm_step_trans|]. split; [done|].
      eapply (rollback_same i (km_mem s1) T1); [lia|done|].
      intros va' Hva'. rewrite Hu by done. case_decide; [done|apply Hleaf].
Qed.
End MapN.

Lemma map_n_pages_ok T l s root va n pa attribute :
  vm_inv T l s -> T !! [] = Some root -> page_aligned va -> 0 <= va ->
  va + n * PGSIZE <= VA_END -> 0 <= pa -> pa + n * PGSIZE < 2 ^ 64 ->
  (forall va', in_block va n va' -> mapped (km_mem s) T va' = false) ->
  runs (map_n_pages root va n pa attribute) s (fun r s' =>
    exists T' l', vm_step T l s T' l' s' /\
      ((r = 0 /\ maps_block (km_mem s) T (km_mem s') T' va n pa attribute) \/
       (r = -1 /\ same_translation (km_mem s) T (km_mem s') T'))).
Proof.
  intros Hinv Hroot Hal Hva Hend Hpa Hpend Hun. unfold map_n_pages. apply runs_bind.
  eapply (runs_for_loop _ _ _ (fun i s1 => exists T1 l1, vm_step T l s T1 l1 s1 /\
    maps_block (km_mem s) T (km_mem s1) T1 va i pa attribute)).
  - exists T, l. split; [by apply vm_step_refl|]. intros va' _.
    rewrite decide_False; [done|]. unfold in_block. lia.
  - intros i s1 Hi Hb. eapply runs_mono; [eapply map_n_round; try done; lia|].
    intros [v|] s2 (T2 & l2 & Hst & H2).
    + apply runs_ret. destruct H2 as [-> H2]. exists T2, l2. by split; [|right].
    + by exists T2, l2.
  - intros s1 (T1 & l1 & Hst & Hb). apply runs_ret. exists T1, l1. split; [done|]. left.
    split; [done|]. destruct (Z.le_gt_cases 0 n).
    + by replace (0 + Z.of_nat (Z.to_nat n)) with n in Hb by lia.
    + intros va' Hva'. rewrite Hb by done.
      rewrite !decide_False by (unfold in_block; vmlia). done.
Qed.

(** C4: [map_n_pages] is all or nothing: it maps the [n] consecutive pages and
    changes no other translation, or it returns -1 and every page of the address
    space, the block included, is translated as before the call (the pages mapped
    before the failure are unmapped again). *)
Theorem map_n_pages_spec T l s root va n pa attribute :
  vm_inv T l s -> T !! [] = Some root -> page_aligned va -> 0 <= va ->
  va + n * PGSIZE <= VA_END -> 0 <= pa -> pa + n * PGSIZE < 2 ^ 64 ->
  (forall va', in_block va n va' -> mapped (km_mem s) T va' = false) ->
  runs (map_n_pages root va n pa attribute) s (fun r s' =>
    exists T' l', vm_step T l s T' l' s' /\
      ((r = 0 /\ maps_block (km_mem s) T (km_mem s') T' va n pa attribute) \/
       (r = -1 /\ same_translation (km_mem s) T (km_mem s') T'))).
Proof. intros. by apply map_n_pages_ok. Qed.

End Spec.
