(* ===== verification/Kvm.v ===== *)
(** * The kernel's page table and the boot of a hart

    kernel/vm/kvm.c: [kvm_init] answers the root it stores in [kernel_page_table].
    kernel/start/start.c: a hart in machine mode, by its control registers, until its
    [mret]. *)

From S2P Require Import Prelude Hart VmSystem Mem Kalloc PageTable.

Definition CLINT_BASE : Z := 0x2000000.
Definition CLINT_SIZE : Z := 0x10000.
Definition CLINT_MTIMECMP (hart : Z) : Z := CLINT_BASE + 0x4000 + 8 * hart.
Definition CLINT_MTIME : Z := CLINT_BASE + 0xBFF8.
Definition PLIC_BASE : Z := 0x0c000000.
Definition PLIC_SIZE : Z := 0x4000000.
Definition UART_BASE : Z := 0x10000000.
Definition UART_SIZE : Z := 0x100.
Definition VIRTIO0 : Z := 0x10001000.

Section Kvm.
Context `{KernelImage}.

Definition kvm_init : M kmem Z :=
  kernel_page_table ← get_pagetable;
  if kernel_page_table =? NULL then panic "kvm_init: fail to init kernel_page_table" else
  if negb (etext mod PGSIZE =? 0) then panic "kvm_init: etext is not aligned to PGSIZE" else
  e1 ← map_n_pages kernel_page_table CLINT_BASE (ROUND_UP_PGSIZE CLINT_SIZE / PGSIZE) CLINT_BASE (Z.lor PTE_R PTE_W);
  e2 ← map_n_pages kernel_page_table PLIC_BASE (ROUND_UP_PGSIZE PLIC_SIZE / PGSIZE) PLIC_BASE (Z.lor PTE_R PTE_W);
  e3 ← map_n_pages kernel_page_table UART_BASE (ROUND_UP_PGSIZE UART_SIZE / PGSIZE) UART_BASE (Z.lor PTE_R PTE_W);
  e4 ← map_n_pages kernel_page_table VIRTIO0 PGSIZE VIRTIO0 (Z.lor PTE_R PTE_W);
  e5 ← map_n_pages kernel_page_table KERNEL_BASE ((etext - KERNEL_BASE) / PGSIZE) KERNEL_BASE (Z.lor PTE_R PTE_X);
  e6 ← map_n_pages kernel_page_table etext ((MEMORY_END - etext) / PGSIZE) etext (Z.lor PTE_R PTE_W);
  e7 ← map_n_pages kernel_page_table TRAMPOLINE_BASE 1 (ROUND_DOWN_PGSIZE user_trap_entry) (Z.lor PTE_R PTE_X);
  if negb (Z.lor (Z.lor (Z.lor (Z.lor (Z.lor (Z.lor e1 e2) e3) e4) e5) e6) e7 =? 0)
  then panic "kvm_init: kernel_page_table init fail" else
  mret kernel_page_table.
End Kvm.

(** ** kernel/start/start.c *)

Definition TIME_TRAP_INTERVAL : Z := 1000000.
Definition XSTATUS_MPRV : Z := Z.shiftl 1 17.
Definition XSTATUS_SUM : Z := Z.shiftl 1 18.
Definition XSTATUS_MXR : Z := Z.shiftl 1 19.
Definition XSTATUS_TVM : Z := Z.shiftl 1 20.
Definition XSTATUS_TW : Z := Z.shiftl 1 21.
Definition XSTATUS_TSR : Z := Z.shiftl 1 22.
Definition XSTATUS_MPP_0 : Z := Z.shiftl 1 11.
Definition XSTATUS_MPP_1 : Z := Z.shiftl 1 12.
Definition XSTATUS_MPIE : Z := Z.shiftl 1 7.
Definition XIE_MTIE : Z := Z.shiftl 1 7.

(** [m_mtime] is the clock of the CLINT, [m_mtimecmp] its compare registers by address
    and [m_setting] the array [mtime_setting]. *)
Record mstate := mk_mstate {
  m_tp : Z; m_mstatus : Z; m_mepc : Z; m_satp : Z; m_medeleg : Z; m_mideleg : Z;
  m_mie : Z; m_mscratch : Z; m_mtvec : Z;
  m_mtime : Z; m_mtimecmp : gmap Z Z; m_setting : list (list Z) }.

Definition set_m_mstatus (x : Z) (m : mstate) : mstate :=
  mk_mstate (m_tp m) x (m_mepc m) (m_satp m) (m_medeleg m) (m_mideleg m) (m_mie m) (m_mscratch m) (m_mtvec m)
    (m_mtime m) (m_mtimecmp m) (m_setting m).

(** [sstatus] is a view of [mstatus]: the bits that supervisor mode may see. *)
Definition SSTATUS_BITS : Z := 0x80000003000DE762.
Definition m_sstatus (m : mstate) : Z := Z.land (m_mstatus m) SSTATUS_BITS.
Definition w_m_sstatus (x : Z) (m : mstate) : mstate :=
  set_m_mstatus (Z.lor (Z.land (m_mstatus m) (Z.lnot SSTATUS_BITS)) (Z.land x SSTATUS_BITS)) m.

Section Start.
(** The addresses of [main], [time_trap_vec] and [mtime_setting]. *)
Variables (main_fn time_trap_vec mtime_setting : Z).

Definition set_m_n_s_csrs (m : mstate) : mstate :=
  let ms := m_mstatus m in
  let ms := Z.land ms (Z.lnot XSTATUS_MPRV) in
  let ms := Z.land ms (Z.lnot XSTATUS_SUM) in
  let ms := Z.land ms (Z.lnot XSTATUS_MXR) in
  let ms := Z.land ms (Z.lnot XSTATUS_TVM) in
  let ms := Z.land ms (Z.lnot XSTATUS_TW) in
  let ms := Z.land ms (Z.lnot XSTATUS_TSR) in
  let ms := Z.lor ms XSTATUS_MPP_0 in
  let ms := Z.land ms (Z.lnot XSTATUS_MPP_1) in
  let m := set_m_mstatus ms m in
  let m := mk_mstate (m_tp m) (m_mstatus m) main_fn 0 (m_medeleg m) (m_mideleg m) (m_mie m) (m_mscratch m)
             (m_mtvec m) (m_mtime m) (m_mtimecmp m) (m_setting m) in
  let m := w_m_sstatus (Z.land (m_sstatus m) (Z.lnot XSTATUS_SIE)) m in
  mk_mstate (m_tp m) (m_mstatus m) (m_mepc m) (m_satp m) 0xffff 0xffff (m_mie m) (m_mscratch m)
    (m_mtvec m) (m_mtime m) (m_mtimecmp m) (m_setting m).

(** [None]: [mtime_setting] has no row for the hart. *)
Definition setup_time_trap (m : mstate) : option mstate :=
  let m := set_m_mstatus (Z.lor (m_mstatus m) XSTATUS_MPIE) m in
  let hart_id := m_tp m in
  let next_intr_time := u64 (m_mtime m + TIME_TRAP_INTERVAL) in
  row ← m_setting m !! Z.to_nat hart_id;
  let row := [CLINT_MTIMECMP hart_id; CLINT_MTIME; TIME_TRAP_INTERVAL] ++ drop 3 row in
  Some (mk_mstate (m_tp m) (m_mstatus m) (m_mepc m) (m_satp m) (m_medeleg m) (m_mideleg m)
    (Z.lor (m_mie m) XIE_MTIE) (mtime_setting + 48 * hart_id) time_trap_vec
    (m_mtime m) (<[CLINT_MTIMECMP hart_id := next_intr_time]> (m_mtimecmp m))
    (<[Z.to_nat hart_id := row]> (m_setting m))).

(** The state at the [mret]; a hart beyond the table of harts spins. *)
Definition start : M mstate unit :=
  m ← get;
  if u64 (m_tp m + 1) >? MAX_CPU_NUM then spin else
  match setup_time_trap (set_m_n_s_csrs m) with Some m' => put m' | None => undef end.
End Start.

(** *** Bits of [mstatus] *)

Definition clear_bit (k x : Z) : Z := Z.land x (Z.lnot (Z.shiftl 1 k)).

Lemma testbit_clear k x i : 0 <= k -> 0 <= i -> Z.testbit (clear_bit k x) i = Z.testbit x i && negb (i =? k).
Proof.
  intros Hk Hi. unfold clear_bit. rewrite Z.land_spec, Z.lnot_spec, Z.shiftl_1_l, Z.pow2_bits_eqb by lia.
  by rewrite Z.eqb_sym.
Qed.
Lemma testbit_set k x i : 0 <= k -> 0 <= i -> Z.testbit (Z.lor x (Z.shiftl 1 k)) i = Z.testbit x i || (i =? k).
Proof.
  intros Hk Hi. rewrite Z.lor_spec, Z.shiftl_1_l, Z.pow2_bits_eqb by lia. by rewrite Z.eqb_sym.
Qed.

Lemma start_bits x i : 0 <= i ->
  let y := clear_bit 12 (Z.lor (clear_bit 22 (clear_bit 21 (clear_bit 20 (clear_bit 19 (clear_bit 18 (clear_bit 17 x)))))) (Z.shiftl 1 11)) in
  Z.testbit (Z.lor (Z.lor (Z.land y (Z.lnot SSTATUS_BITS)) (Z.land (clear_bit 1 (Z.land y SSTATUS_BITS)) SSTATUS_BITS)) (Z.shiftl 1 7)) i =
  if bool_decide (i ∈ [1; 12; 17; 18; 19; 20; 21; 22]) then false
  else if bool_decide (i ∈ [7; 11]) then true else Z.testbit x i.
Proof.
  intros Hi y. rewrite testbit_set, Z.lor_spec, !Z.land_spec, Z.lnot_spec, testbit_clear, Z.land_spec by lia.
  unfold y. rewrite testbit_clear, testbit_set, !testbit_clear by lia.
  destruct (decide (i ∈ [1; 7; 11; 12; 17; 18; 19; 20; 21; 22])) as [Hin|Hout].
  - repeat (apply elem_of_cons in Hin as [->|Hin]; [by (destruct (Z.testbit x _); vm_compute)|]). by apply elem_of_nil in Hin.
  - rewrite !elem_of_cons in Hout. rewrite !bool_decide_false by (rewrite !elem_of_cons; tauto).
    replace (i =? 7) with false by lia. replace (i =? 12) with false by lia. replace (i =? 11) with false by lia.
    replace (i =? 1) with false by lia. replace (i =? 17) with false by lia. replace (i =? 18) with false by lia.
    replace (i =? 19) with false by lia. replace (i =? 20) with false by lia. replace (i =? 21) with false by lia.
    replace (i =? 22) with false by lia.
    by destruct (Z.testbit x i), (Z.testbit SSTATUS_BITS i).
Qed.

(** [start] hands a hart of the table over to [main] in supervisor mode: at the [mret]
    MPP is 1, MPIE is set and SIE clear, every trap of the supervisor is delegated,
    paging is off, memory protection and virtualisation bits of [mstatus] are off and
    all its other bits are kept; the hart's timer fires one interval from now, alone
    among the timers, and finds the hart's own row of [mtime_setting].  A hart beyond
    the table never leaves [start]. *)
Theorem start_spec main_fn time_trap_vec mtime_setting m row :
  0 <= m_tp m < 2 ^ 63 -> (m_tp m < MAX_CPU_NUM -> m_setting m !! Z.to_nat (m_tp m) = Some row) ->
  if m_tp m <? MAX_CPU_NUM then
    exists m', start main_fn time_trap_vec mtime_setting m = Ret tt m' /\
      (forall i, 0 <= i -> Z.testbit (m_mstatus m') i =
        if bool_decide (i ∈ [1; 12; 17; 18; 19; 20; 21; 22]) then false
        else if bool_decide (i ∈ [7; 11]) then true else Z.testbit (m_mstatus m) i) /\
      m_mepc m' = main_fn /\ m_satp m' = 0 /\ m_medeleg m' = 0xffff /\ m_mideleg m' = 0xffff /\
      m_mtvec m' = time_trap_vec /\ Z.testbit (m_mie m') 7 = true /\
      m_mtimecmp m' !! CLINT_MTIMECMP (m_tp m) = Some (u64 (m_mtime m + TIME_TRAP_INTERVAL)) /\
      (forall a, a <> CLINT_MTIMECMP (m_tp m) -> m_mtimecmp m' !! a = m_mtimecmp m !! a) /\
      take 3 <$> m_setting m' !! Z.to_nat (m_tp m) = Some [CLINT_MTIMECMP (m_tp m); CLINT_MTIME; TIME_TRAP_INTERVAL] /\
      m_mscratch m' = mtime_setting + 48 * m_tp m
  else start main_fn time_trap_vec mtime_setting m = Spin.
Proof.
  intros Htp Hrow. unfold start. rewrite bind_eq. cbn [get obind]. rewrite u64_small by lia.
  change MAX_CPU_NUM with 8 in *. destruct (Z.ltb_spec (m_tp m) 8) as [Hlt|Hge].
  2:{ replace (m_tp m + 1 >? 8) with true by lia. done. }
  replace (m_tp m + 1 >? 8) with false by lia. unfold setup_time_trap. cbv zeta.
  change (m_setting (set_m_mstatus _ _)) with (m_setting m). change (m_tp (set_m_mstatus _ _)) with (m_tp m).
  rewrite (Hrow Hlt). cbn [mbind option_bind]. eexists. split; [reflexivity|].
  split; [intros i Hi; exact (start_bits (m_mstatus m) i Hi)|].
  do 5 (split; [done|]). split; [exact (eq_trans (Z.lor_spec (m_mie m) XIE_MTIE 7) (orb_true_r _))|].
  split; [apply lookup_insert_eq|]. split; [intros a Ha; by apply lookup_insert_ne|].
  split; [|done]. cbn. rewrite list_lookup_insert_eq; [done|]. by eapply lookup_lt_Some, Hrow.
Qed.
