(* ===== verification/UserCopy.v ===== *)
(** * Copying between kernel and user memory: kernel/vm/vm.c lines 292-443 *)

From S2P Require Import Prelude Hart VmSystem Mem Kalloc PageTable.

Inductive copy_way := COPY_IN | COPY_OUT | COPY_IN_STR | COPY_OUT_STR.
Inductive copy_status := COPY_SUCCESS | COPY_FAIL | COPY_FINISH.
Inductive ptr_kind := KPTR | UPTR.

#[export] Instance copy_way_eq_dec : EqDecision copy_way.
Proof. solve_decision. Defined.

Definition load8 (a : Z) : M kmem Z := gets (fun s => ld8 (km_mem s) a).
Definition store8 (a v : Z) : M kmem unit := modify (fun s => set_mem (st8 (km_mem s) a v) s).

Definition check_uva_attribute_valid (attribute : Z) : Z :=
  if Z.land attribute PTE_U =? 0 then -1 else
  if (Z.land attribute PTE_R =? 0) && (Z.land attribute PTE_X =? 0) then -1 else 0.

(** [i < copy_size] compares an [int] with a [uint64]; [copy_size] is at most a
    page.  [mem_start++; kva++] appear as the offset [i]. *)
Definition copy_str_in_page (mem_start kva copy_size : Z) (meet_end : bool) (way : copy_way)
  : M kmem copy_status :=
  r ← for_loop (Z.to_nat copy_size) 0 (fun i =>
        copy_char ← (match way with
                     | COPY_IN_STR =>
                         c ← load8 (mem_start + i); store8 (kva + i) c ;; mret c
                     | _ => c ← load8 (kva + i); store8 (mem_start + i) c ;; mret c
                     end);
        mret (if copy_char =? 0 then Some COPY_FINISH else None));
  mret (match r with
        | Some v => v
        | None => if meet_end then COPY_FAIL else COPY_SUCCESS
        end).

Definition handle_copy_for_page_with_way (mem_start kva copy_size size : Z) (way : copy_way)
  : M kmem copy_status :=
  match way with
  | COPY_IN =>
      modify (fun s => set_mem (memcpy (km_mem s) kva mem_start copy_size) s) ;; mret COPY_SUCCESS
  | COPY_OUT =>
      modify (fun s => set_mem (memcpy (km_mem s) mem_start kva copy_size) s) ;; mret COPY_SUCCESS
  | COPY_IN_STR => copy_str_in_page mem_start kva copy_size (size =? copy_size) COPY_IN_STR
  | COPY_OUT_STR => copy_str_in_page mem_start kva copy_size (size =? copy_size) COPY_OUT_STR
  end.

Section UserCopy.
Context `{KernelImage}.

(** A round of the loop handles the rest of one page: [size / PGSIZE + 2] rounds
    are enough. *)
Definition copy_round (upgtable : Z) (way : copy_way)
  : Z * Z * Z -> M kmem (Z * Z * Z + Z) :=
  fun '(uva, kva, size) =>
    if size =? 0 then mret (inr 0) else
    pte ← walk upgtable uva NO_ALLOC;
    if pte =? NULL then mret (inr (-1)) else
    e ← load64 pte;
    let attribute := PTE_GET_ATTRIBUTE e in
    if negb (check_uva_attribute_valid attribute =? 0) then mret (inr (-1)) else
    let page := PTE_GET_PA e in
    let mem_start := page + uva mod PGSIZE in
    let page_mem_size := PGSIZE - uva mod PGSIZE in
    let copy_size := Z.min page_mem_size size in
    r ← handle_copy_for_page_with_way mem_start kva copy_size size way;
    match r with
    | COPY_SUCCESS => mret (inl (u64 (uva + copy_size), kva + copy_size, size - copy_size))
    | COPY_FAIL => mret (inr (-1))
    | COPY_FINISH => mret (inr 0)
    end.

Definition copy_fuel (size : Z) : nat := Z.to_nat (size / PGSIZE + 3).

Definition copy_in_or_out_may_str (upgtable uva kva size : Z) (way : copy_way) : M kmem Z :=
  while_loop (copy_fuel size) (uva, kva, size) (copy_round upgtable way).

Definition copy_in (upgtable uva kva size : Z) : M kmem Z :=
  copy_in_or_out_may_str upgtable uva kva size COPY_IN.
Definition copy_out (upgtable uva kva size : Z) : M kmem Z :=
  copy_in_or_out_may_str upgtable uva kva size COPY_OUT.
Definition copy_in_str (upgtable uva kva size : Z) : M kmem Z :=
  copy_in_or_out_may_str upgtable uva kva size COPY_IN_STR.
Definition copy_out_str (upgtable uva kva size : Z) : M kmem Z :=
  copy_in_or_out_may_str upgtable uva kva size COPY_OUT_STR.

Definition copyin (pgtable dst src size : Z) : M kmem Z := copy_in pgtable src dst size.
Definition copyout (pgtable dst src size : Z) : M kmem Z := copy_out pgtable dst src size.
Definition copyinstr (pgtable dst src size : Z) : M kmem Z := copy_in_str pgtable src dst size.
Definition copyoutstr (upgtable dst src size : Z) : M kmem Z := copy_out_str upgtable dst src size.

(** [memmove] takes an [int]: [size] is narrowed. *)
Definition copyout_uork (pgtable dst src size : Z) (user_dst : ptr_kind) : M kmem Z :=
  match user_dst with
  | UPTR => copyout pgtable dst src size
  | KPTR => modify (fun s => set_mem (memmove (km_mem s) dst src (i32 size)) s) ;; mret 0
  end.
Definition copyin_uork (pgtable dst src size : Z) (user_src : ptr_kind) : M kmem Z :=
  match user_src with
  | UPTR => copyin pgtable dst src size
  | KPTR => modify (fun s => set_mem (memmove (km_mem s) dst src (i32 size)) s) ;; mret 0
  end.

End UserCopy.
