(* ===== verification/UserCopySpec.v ===== *)
(** * What the copies between kernel and user memory promise: UserCopy.v

    [user_addr m T va] is where the byte of user address [va] is, when user code may
    read it; the copies move exactly the bytes asked for, page by page, or stop with
    -1 at the first byte that is not accessible. *)

From S2P Require Import Prelude Hart VmSystem Mem Kalloc PageTable PageTableSpec UserCopy.

Section Spec.
Context `{KernelImage}.

(** An entry that lets user code read (or execute) its page. *)
Definition user_ok (e : Z) : bool := check_uva_attribute_valid (PTE_GET_ATTRIBUTE e) =? 0.

Definition user_addr (m : mem) (T : tree) (va : Z) : option Z :=
  if va >? MAX_VA then None else
  if user_ok (leaf m T va) then Some (PTE_GET_PA (leaf m T va) + va mod PGSIZE) else None.

Lemma user_ok_0 : user_ok 0 = false.
Proof. reflexivity. Qed.

(** Inside a page the physical addresses follow the virtual ones. *)
Lemma user_addr_page m T va a i :
  0 <= va -> user_addr m T va = Some a -> 0 <= i < PGSIZE - va mod PGSIZE ->
  user_addr m T (va + i) = Some (a + i).
Proof.
  intros Hva Ha Hi. unfold user_addr in *.
  destruct (Z.gtb_spec va MAX_VA) as [|Hle]; [done|].
  assert (va + i <= MAX_VA) as Hle'.
  { vmlia. }
  destruct (Z.gtb_spec (va + i) MAX_VA) as [|_]; [lia|].
  assert (leaf m T (va + i) = leaf m T va) as ->.
  { unfold leaf. rewrite (leaf_addr_same_page T (va + i) va); [done|]. unfold same_page. vmlia. }
  destruct (user_ok (leaf m T va)); [|done]. injection Ha as <-. f_equal. vmlia.
Qed.

Lemma user_addr_frame m m' T va :
  pt_rep m T -> (forall a, in_tree T a -> ld8 m' a = ld8 m a) -> user_addr m' T va = user_addr m T va.
Proof.
  intros Hr Hm. destruct (pt_rep_frame m m' T Hr Hm) as [_ Hl]. unfold user_addr. by rewrite !(Hl va).
Qed.

(** A round of the copy, up to the transfer inside the page. *)
Lemma copy_round_eq T root way uva kva size s :
  pt_rep (km_mem s) T -> T !! [] = Some root -> size <> 0 ->
  copy_round root way (uva, kva, size) s =
  match user_addr (km_mem s) T uva with
  | None => Ret (inr (-1)) s
  | Some a =>
      let n := Z.min (PGSIZE - uva mod PGSIZE) size in
      obind (handle_copy_for_page_with_way a kva n size way s) (fun r =>
        match r with
        | COPY_SUCCESS => mret (inl (u64 (uva + n), kva + n, size - n))
        | COPY_FAIL => mret (inr (-1))
        | COPY_FINISH => mret (inr 0)
        end)
  end.
Proof.
  intros Hr Hroot Hsz. unfold copy_round. rewrite (proj2 (Z.eqb_neq _ _) Hsz).
  unfold user_addr. destruct (Z.gtb_spec uva MAX_VA) as [Hgt|Hle].
  - by rewrite (bind_Ret _ _ _ _ _ (walk_beyond root uva NO_ALLOC s Hgt)).
  - rewrite (bind_Ret _ _ _ _ _ (walk_no_alloc T root uva s Hr Hroot Hle)).
    unfold walk_result, leaf. destruct (leaf_addr T uva) as [a|] eqn:Ea; [|done].
    assert ((a =? NULL) = false) as ->.
    { apply Z.eqb_neq. apply leaf_page in Ea as (q & Hq & ->).
      destruct (rep_page _ _ Hr _ _ Hq) as [Hv _]. apply valid_page_range in Hv.
      pose proof (VPN_LEVEL_N_range uva 0). unfold pte_addr, NULL. lia. }
    unfold load64 at 1. rewrite bind_eq. unfold gets at 1. cbn [obind].
    fold (user_ok (ld64 (km_mem s) a)).
    change (check_uva_attribute_valid (PTE_GET_ATTRIBUTE (ld64 (km_mem s) a)) =? 0)
      with (user_ok (ld64 (km_mem s) a)).
    destruct (user_ok _); done.
Qed.

(** ** Copying bytes

    Both directions at once: byte [i] of the request goes from [csrc i] to
    [cdst i], where the user's side is found in the memory before the copy. *)

Section Copy.
Variables (T : tree) (root : Z) (way : copy_way) (uva kva size : Z) (s0 : kmem).

Definition uaddr (i : Z) : option Z := user_addr (km_mem s0) T (uva + i).
Definition cdst (i : Z) : Z :=
  match way with COPY_IN => kva + i | _ => default 0 (uaddr i) end.
Definition csrc (i : Z) : Z :=
  match way with COPY_IN => default 0 (uaddr i) | _ => kva + i end.

(** The first [d] bytes are accessible and have been copied. *)
Record copied (d : Z) (m : mem) : Prop := {
  cp_acc i : 0 <= i < d -> is_Some (uaddr i);
  cp_done i : 0 <= i < d -> ld8 m (cdst i) = ld8 (km_mem s0) (csrc i);
  cp_frame a : (forall i, 0 <= i < d -> cdst i <> a) -> ld8 m a = ld8 (km_mem s0) a }.

Hypothesis Hrep : pt_rep (km_mem s0) T.
Hypothesis Hroot : T !! [] = Some root.
Hypothesis Hway : way = COPY_IN \/ way = COPY_OUT.
Hypothesis Huva : 0 <= uva.
Hypothesis Hend : uva + size < 2 ^ 64.
Hypothesis Hdst : forall i j, 0 <= i < size -> 0 <= j < size -> is_Some (uaddr i) -> is_Some (uaddr j) ->
  cdst i = cdst j -> i = j.
Hypothesis Hsep : forall i j, 0 <= i < size -> 0 <= j < size -> is_Some (uaddr i) -> is_Some (uaddr j) ->
  cdst i <> csrc j.
Hypothesis Htree : forall i, 0 <= i < size -> is_Some (uaddr i) -> ~ in_tree T (cdst i).

Lemma copied_0 : copied 0 (km_mem s0).
Proof. split; (lia || done). Qed.

Lemma copied_rep d m : d <= size -> copied d m -> pt_rep m T /\ forall va, user_addr m T va = user_addr (km_mem s0) T va.
Proof.
  intros Hd Hc. assert (forall a, in_tree T a -> ld8 m a = ld8 (km_mem s0) a) as Hm.
  { intros a Ha. apply (cp_frame _ _ Hc). intros i Hi <-.
    apply (Htree i); [lia|apply (cp_acc _ _ Hc); lia|done]. }
  split; [by apply (pt_rep_frame (km_mem s0))|]. intros va. by apply user_addr_frame.
Qed.

(** The offsets that one round covers follow each other on both sides. *)
Lemma round_addr d a i :
  0 <= d -> uaddr d = Some a -> 0 <= i < PGSIZE - (uva + d) mod PGSIZE ->
  uaddr (d + i) = Some (a + i) /\ cdst (d + i) = cdst d + i /\ csrc (d + i) = csrc d + i.
Proof.
  intros Hd Ha Hi. assert (uaddr (d + i) = Some (a + i)) as E.
  { unfold uaddr in *. rewrite Z.add_assoc. apply user_addr_page; [lia|done|done]. }
  split; [done|]. unfold cdst, csrc. rewrite Ha, E. cbn. destruct Hway as [-> | ->]; cbn; lia.
Qed.

Lemma copied_round d m n a :
  0 <= d -> d + n <= size -> 0 < n <= PGSIZE - (uva + d) mod PGSIZE -> uaddr d = Some a -> copied d m ->
  copied (d + n) (memcpy m (cdst d) (csrc d) n).
Proof.
  intros Hd Hn Hr Ha Hc.
  assert (forall i, 0 <= i < n -> is_Some (uaddr (d + i)) /\ cdst (d + i) = cdst d + i /\ csrc (d + i) = csrc d + i) as Hi.
  { intros i Hi. destruct (round_addr d a i) as (E & E1 & E2); [lia|done|lia|]. by rewrite E. }
  assert (cdst d + n <= csrc d \/ csrc d + n <= cdst d) as Hdis.
  { destruct (Z.lt_ge_cases (csrc d) (cdst d)) as [Hlt|Hge].
    - right. apply Z.nlt_ge. intros Hlt'.
      destruct (Hi (cdst d - csrc d)) as (Hs & _ & E); [lia|].
      apply (Hsep d (d + (cdst d - csrc d))); [lia|lia|by exists a|done|lia].
    - left. apply Z.nlt_ge. intros Hlt'.
      destruct (Hi (csrc d - cdst d)) as (Hs & E & _); [lia|].
      apply (Hsep (d + (csrc d - cdst d)) d); [lia|lia|done|by exists a|lia]. }
  split.
  - intros i Hid. destruct (Z.lt_ge_cases i d); [apply (cp_acc _ _ Hc); lia|].
    replace i with (d + (i - d)) by lia. apply Hi. lia.
  - intros i Hid. rewrite ld8_memcpy by done. destruct (Z.lt_ge_cases i d) as [Hlt|Hge].
    + rewrite decide_False; [apply (cp_done _ _ Hc); lia|]. intros Hin.
      destruct (Hi (cdst i - cdst d)) as (Hs & E & _); [lia|].
      assert (i = d + (cdst i - cdst d)); [|lia].
      apply Hdst; [lia|lia|apply (cp_acc _ _ Hc); lia|done|lia].
    + replace i with (d + (i - d)) by lia. destruct (Hi (i - d)) as (Hs & -> & ->); [lia|].
      rewrite decide_True by lia. replace (cdst d + (i - d) - cdst d + csrc d) with (csrc d + (i - d)) by lia.
      apply (cp_frame _ _ Hc). intros j Hj.
      destruct (Hi (i - d)) as (_ & _ & <-); [lia|].
      apply Hsep; [lia|lia|apply (cp_acc _ _ Hc); lia|done].
  - intros b Hb. rewrite ld8_memcpy by done. rewrite decide_False.
    + apply (cp_frame _ _ Hc). intros i Hid. apply Hb. lia.
    + intros Hin. destruct (Hi (b - cdst d)) as (_ & E & _); [lia|].
      apply (Hb (d + (b - cdst d))); lia.
Qed.

(** *** The loop *)

Definition rounds (uva' size' : Z) : Z :=
  if size' =? 0 then 0 else (uva' mod PGSIZE + size' + PGSIZE - 1) / PGSIZE.

Definition copy_post (r : Z) (s' : kmem) : Prop :=
  exists m, s' = set_mem m s0 /\
  ((r = 0 /\ copied size m) \/
   (r = -1 /\ exists d, 0 <= d < size /\ uaddr d = None /\ copied d m)).

Lemma handle_copy_eq d n s a :
  uaddr d = Some a ->
  handle_copy_for_page_with_way a (kva + d) n (size - d) way s =
  Ret COPY_SUCCESS (set_mem (memcpy (km_mem s) (cdst d) (csrc d) n) s).
Proof.
  intros Ha. unfold cdst, csrc. rewrite Ha. by destruct Hway as [-> | ->].
Qed.

Lemma copy_loop fuel d m :
  0 <= d <= size -> copied d m -> rounds (uva + d) (size - d) < Z.of_nat fuel ->
  runs (while_loop fuel (uva + d, kva + d, size - d) (copy_round root way)) (set_mem m s0) copy_post.
Proof.
  revert d m. induction fuel as [|fuel IH]; intros d m Hd Hc Hf.
  { unfold rounds in Hf. destruct (Z.eqb_spec (size - d) 0); vmlia. }
  cbn [while_loop]. apply runs_bind. destruct (Z.eqb_spec (size - d) 0) as [Ez|Ez].
  - eapply runs_eq; [cbn [copy_round]; rewrite (proj2 (Z.eqb_eq _ _) Ez); reflexivity|].
    cbn beta iota. apply runs_ret. exists m. split; [done|left].
    by replace size with d by lia.
  - destruct (copied_rep d m ltac:(lia) Hc) as [Hr Hu].
    pose proof (copy_round_eq T root way (uva + d) (kva + d) (size - d) (set_mem m s0) Hr Hroot Ez) as E.
    cbn [km_mem set_mem] in E. rewrite Hu in E. change (user_addr (km_mem s0) T (uva + d)) with (uaddr d) in E.
    destruct (uaddr d) as [a|] eqn:Ha.
    + cbv zeta in E. rewrite (handle_copy_eq d _ _ a Ha) in E.
      cbn [obind] in E. eapply runs_eq; [exact E|]. cbn beta iota.
      set (n := Z.min (PGSIZE - (uva + d) mod PGSIZE) (size - d)) in *.
      assert (0 < n <= PGSIZE - (uva + d) mod PGSIZE) as Hn by (unfold n; vmlia).
      assert (n <= size - d) as Hn' by (unfold n; lia).
      cbn [km_mem set_mem km_hw km_head].
      replace (u64 (uva + d + n)) with (uva + (d + n)) by (rewrite u64_small; lia).
      replace (kva + d + n) with (kva + (d + n)) by lia.
      replace (size - d - n) with (size - (d + n)) by lia.
      apply (IH (d + n) (memcpy m (cdst d) (csrc d) n)); [lia|by apply (copied_round d m n a); [lia|lia|..]|].
      unfold rounds in Hf |- *. rewrite (proj2 (Z.eqb_neq _ _) Ez) in Hf.
      destruct (Z.eqb_spec (size - (d + n)) 0); [vmlia|]. unfold n in *. vmlia.
    + eapply runs_eq; [exact E|]. cbn beta iota. apply runs_ret. exists m. split; [done|right].
      split; [done|]. exists d. split; [lia|done].
Qed.

Lemma copy_any : 0 <= size -> runs (copy_in_or_out_may_str root uva kva size way) s0 copy_post.
Proof.
  intros Hsz. unfold copy_in_or_out_may_str.
  pose proof (copy_loop (copy_fuel size) 0 (km_mem s0)) as H1.
  rewrite !Z.add_0_r, Z.sub_0_r in H1.
  replace (set_mem (km_mem s0) s0) with s0 in H1 by (by destruct s0).
  apply H1; [lia|apply copied_0|].
  unfold copy_fuel, rounds. destruct (Z.eqb_spec size 0); vmlia.
Qed.
End Copy.

(** C28: [copy_in] is all or an error: it answers 0 exactly when every byte of the
    user range can be read by user code, and then the kernel buffer holds the
    range's bytes, page by page wherever they are; otherwise it answers -1.  Memory
    outside the buffer does not change, whatever the answer. *)
Theorem copy_in_spec T l s root uva kva size :
  vm_inv T l s -> T !! [] = Some root -> 0 <= uva -> 0 <= size -> uva + size < 2 ^ 64 ->
  (forall i j a, 0 <= i < size -> 0 <= j < size ->
     user_addr (km_mem s) T (uva + j) = Some a -> a <> kva + i) ->
  (forall i, 0 <= i < size -> ~ in_tree T (kva + i)) ->
  runs (copy_in root uva kva size) s (fun r s' =>
    km_hw s' = km_hw s /\ km_head s' = km_head s /\
    (forall a, ~ (kva <= a < kva + size) -> ld8 (km_mem s') a = ld8 (km_mem s) a) /\
    ((r = 0 /\ forall i, 0 <= i < size -> exists a, user_addr (km_mem s) T (uva + i) = Some a /\
        ld8 (km_mem s') (kva + i) = ld8 (km_mem s) a) \/
     (r = -1 /\ exists i, 0 <= i < size /\ user_addr (km_mem s) T (uva + i) = None))).
Proof.
  intros [Hkm Hr Hsep0] Hroot Huva Hsz Hend Hsep Htree.
  eapply runs_mono.
  - apply (copy_any T root COPY_IN uva kva size s); try done; [by left| | |].
    + intros i j _ _ _ _. cbn. lia.
    + intros i j Hi Hj _ [a Ha]. cbn. rewrite Ha. cbn. intros E. by apply (Hsep i j a Hi Hj Ha).
    + intros i Hi _. by apply Htree.
  - intros r s' (m & -> & Hres). cbn [km_hw km_head km_mem set_mem]. split; [done|]. split; [done|].
    assert (forall d, d <= size -> copied T COPY_IN uva kva s d m ->
              forall a, ~ (kva <= a < kva + size) -> ld8 m a = ld8 (km_mem s) a) as Hframe.
    { intros d Hd Hc a Ha. apply (cp_frame _ _ _ _ _ _ _ Hc). intros i Hi E. cbn in E. lia. }
    destruct Hres as [[-> Hc]|(-> & d & Hd & Hnone & Hc)]; (split; [eapply Hframe; [|exact Hc]; lia|]).
    + left. split; [done|]. intros i Hi. destruct (cp_acc _ _ _ _ _ _ _ Hc i Hi) as [a Ha].
      exists a. split; [done|]. pose proof (cp_done _ _ _ _ _ _ _ Hc i Hi) as E. cbn in E.
      by rewrite Ha in E.
    + right. split; [done|]. by exists d.
Qed.

(** C29: [copy_out] is all or an error as well: 0 exactly when every byte of the user
    range is accessible, and then each of them holds its byte of the kernel buffer;
    otherwise -1.  It writes only to bytes of the user range. *)
Theorem copy_out_spec T l s root uva kva size :
  vm_inv T l s -> T !! [] = Some root -> 0 <= uva -> 0 <= size -> uva + size < 2 ^ 64 ->
  (forall i j a, 0 <= i < size -> 0 <= j < size ->
     user_addr (km_mem s) T (uva + i) = Some a -> user_addr (km_mem s) T (uva + j) = Some a -> i = j) ->
  (forall i j a, 0 <= i < size -> 0 <= j < size ->
     user_addr (km_mem s) T (uva + i) = Some a -> a <> kva + j /\ ~ in_tree T a) ->
  runs (copy_out root uva kva size) s (fun r s' =>
    km_hw s' = km_hw s /\ km_head s' = km_head s /\
    (forall a, (forall i, 0 <= i < size -> user_addr (km_mem s) T (uva + i) <> Some a) ->
       ld8 (km_mem s') a = ld8 (km_mem s) a) /\
    ((r = 0 /\ forall i, 0 <= i < size -> exists a, user_addr (km_mem s) T (uva + i) = Some a /\
        ld8 (km_mem s') a = ld8 (km_mem s) (kva + i)) \/
     (r = -1 /\ exists i, 0 <= i < size /\ user_addr (km_mem s) T (uva + i) = None))).
Proof.
  intros [Hkm Hr Hsep0] Hroot Huva Hsz Hend Hinj Hsep.
  eapply runs_mono.
  - apply (copy_any T root COPY_OUT uva kva size s); try done; [by right| | |].
    + intros i j Hi Hj [a Ha] [b Hb]. cbn. rewrite Ha, Hb. cbn. intros ->. by apply (Hinj i j b).
    + intros i j Hi Hj [a Ha] _. cbn. rewrite Ha. cbn. by apply (Hsep i j a).
    + intros i Hi [a Ha]. cbn. rewrite Ha. cbn. by apply (Hsep i i a).
  - intros r s' (m & -> & Hres). cbn [km_hw km_head km_mem set_mem]. split; [done|]. split; [done|].
    assert (forall d, d <= size -> copied T COPY_OUT uva kva s d m ->
              forall a, (forall i, 0 <= i < size -> user_addr (km_mem s) T (uva + i) <> Some a) ->
              ld8 m a = ld8 (km_mem s) a) as Hframe.
    { intros d Hd Hc a Ha. apply (cp_frame _ _ _ _ _ _ _ Hc). intros i Hi.
      destruct (cp_acc _ _ _ _ _ _ _ Hc i Hi) as [b Hb]. cbn. rewrite Hb. cbn. intros ->.
      apply (Ha i); [lia|done]. }
    destruct Hres as [[-> Hc]|(-> & d & Hd & Hnone & Hc)]; (split; [eapply Hframe; [|exact Hc]; lia|]).
    + left. split; [done|]. intros i Hi. destruct (cp_acc _ _ _ _ _ _ _ Hc i Hi) as [a Ha].
      exists a. split; [done|]. pose proof (cp_done _ _ _ _ _ _ _ Hc i Hi) as E. cbn in E.
      by rewrite Ha in E.
    + right. split; [done|]. by exists d.
Qed.

(** ** Strings from user memory *)

Section CopyStr.
Variables (T : tree) (root : Z) (uva kva size : Z) (s0 : kmem).
Hypothesis Hrep : pt_rep (km_mem s0) T.
Hypothesis Hroot : T !! [] = Some root.
Hypothesis Huva : 0 <= uva.
Hypothesis Hend : uva + size < 2 ^ 64.
Hypothesis Hsep : forall i j a, 0 <= i < size -> 0 <= j < size ->
  user_addr (km_mem s0) T (uva + j) = Some a -> a <> kva + i.
Hypothesis Htree : forall i, 0 <= i < size -> ~ in_tree T (kva + i).

Abbreviation ua := (uaddr T uva s0).
Abbreviation cp := (copied T COPY_IN uva kva s0).

(** The user's byte [i], when it is accessible. *)
Definition ubyte (i : Z) : Z := ld8 (km_mem s0) (default 0 (ua i)).
Definition no_nul (d : Z) : Prop := forall i, 0 <= i < d -> ubyte i <> 0.

Lemma cp_rep d m : d <= size -> cp d m -> pt_rep m T /\ forall va, user_addr m T va = user_addr (km_mem s0) T va.
Proof. intros Hd Hc. eapply copied_rep; [done| |exact Hd|exact Hc]. intros i Hi _. by apply Htree. Qed.

Lemma cp_read d m a i :
  0 <= d <= size -> cp d m -> ua i = Some a -> 0 <= i < size -> ld8 m a = ubyte i.
Proof.
  intros Hd Hc Ha Hi. unfold ubyte. rewrite Ha. cbn. apply (cp_frame _ _ _ _ _ _ _ Hc).
  intros j Hj. cbn. intros E. apply (Hsep j i a); [lia|done|done|done].
Qed.

Lemma cp_step d m a :
  0 <= d < size -> cp d m -> ua d = Some a -> cp (d + 1) (st8 m (kva + d) (ld8 m a)).
Proof.
  intros Hd Hc Ha.
  assert (st8 m (kva + d) (ld8 m a) = memcpy m (cdst T COPY_IN uva kva s0 d) (csrc T COPY_IN uva kva s0 d) 1) as ->.
  { cbn [cdst csrc]. rewrite Ha. cbn [default]. unfold memcpy.
    change (Z.to_nat 1) with 1%nat. cbn [memcpy_loop]. by rewrite !Z.add_0_r. }
  apply (copied_round T COPY_IN uva kva size s0) with (a := a); try done; try lia; [by left| | | ].
  - intros i j _ _ _ _. cbn. lia.
  - intros i j Hi Hj _ [b Hb]. cbn. rewrite Hb. cbn. intros E. by apply (Hsep i j b Hi Hj Hb).
  - vmlia.
Qed.

(** The characters of one page. *)
Lemma copy_str_page d n m a meet_end :
  0 <= d -> 0 <= n -> d + n <= size -> n <= PGSIZE - (uva + d) mod PGSIZE -> cp d m -> no_nul d -> ua d = Some a ->
  runs (copy_str_in_page a (kva + d) n meet_end COPY_IN_STR) (set_mem m s0) (fun r s' =>
    exists m', s' = set_mem m' s0 /\
    ((r = COPY_FINISH /\ exists e, d <= e < d + n /\ no_nul e /\ ubyte e = 0 /\ cp (e + 1) m') \/
     (r = (if meet_end then COPY_FAIL else COPY_SUCCESS) /\ no_nul (d + n) /\ cp (d + n) m'))).
Proof.
  intros Hd Hn Hdn Hpg Hc Hz Ha. unfold copy_str_in_page. apply runs_bind.
  apply (runs_for_loop (Z.to_nat n) 0 _
    (fun i s' => exists m', s' = set_mem m' s0 /\ cp (d + i) m' /\ no_nul (d + i))).
  - exists m. by rewrite Z.add_0_r.
  - intros i s' Hi (m' & -> & Hc' & Hz'). rewrite Z2Nat.id in Hi by lia.
    destruct (round_addr T COPY_IN uva kva s0 (or_introl eq_refl) Huva d a i) as (Hai & _); [lia|done|lia|].
    assert (ld8 m' (a + i) = ubyte (d + i)) as Hb by (apply (cp_read (d + i)); [lia|done..|lia]).
    pose proof (cp_step (d + i) m' (a + i) ltac:(lia) Hc' Hai) as Hs.
    rewrite Hb in Hs.
    eapply runs_eq.
    { unfold load8, store8. mrung. unfold mbind, M_bind. cbn. rewrite Hb. reflexivity. }
    rewrite <- (Z.add_assoc kva d i).
    destruct (Z.eqb_spec (ubyte (d + i)) 0) as [E|E].
    + eexists. split; [reflexivity|]. left. split; [done|]. exists (d + i). split; [lia|]. done.
    + eexists. split; [reflexivity|]. rewrite Z.add_assoc. split; [done|].
      intros j Hj. destruct (Z.eq_dec j (d + i)) as [->|Hne]; [done|]. apply Hz'. lia.
  - intros s' (m' & -> & Hc' & Hz'). rewrite Z2Nat.id in Hc', Hz' by lia.
    apply runs_ret. exists m'. split; [done|]. right. by rewrite Z.add_0_l in Hc', Hz'.
Qed.

Definition str_post (r : Z) (s' : kmem) : Prop :=
  exists m, s' = set_mem m s0 /\
  ((r = 0 /\ exists e, 0 <= e < size /\ no_nul e /\ ubyte e = 0 /\ cp (e + 1) m) \/
   (r = -1 /\ exists d, 0 <= d <= size /\ no_nul d /\ (d = size \/ ua d = None) /\ cp d m)).

Lemma copy_str_loop fuel d m :
  0 <= d < size -> cp d m -> no_nul d -> rounds (uva + d) (size - d) < Z.of_nat fuel ->
  runs (while_loop fuel (uva + d, kva + d, size - d) (copy_round root COPY_IN_STR)) (set_mem m s0) str_post.
Proof.
  revert d m. induction fuel as [|fuel IH]; intros d m Hd Hc Hz Hf.
  { unfold rounds in Hf. destruct (Z.eqb_spec (size - d) 0); vmlia. }
  cbn [while_loop]. apply runs_bind.
  destruct (cp_rep d m ltac:(lia) Hc) as [Hr Hu].
  pose proof (copy_round_eq T root COPY_IN_STR (uva + d) (kva + d) (size - d) (set_mem m s0)
    Hr Hroot ltac:(lia)) as E.
  cbn [km_mem set_mem] in E. rewrite Hu in E. change (user_addr (km_mem s0) T (uva + d)) with (ua d) in E.
  destruct (ua d) as [a|] eqn:Ha.
  2:{ eapply runs_eq; [exact E|]. cbn beta iota. apply runs_ret. exists m. split; [done|right].
      split; [done|]. exists d. split_and!; [lia|lia|done|by right|done]. }
  cbv zeta in E. cbn [handle_copy_for_page_with_way] in E.
  set (n := Z.min (PGSIZE - (uva + d) mod PGSIZE) (size - d)) in *.
  assert (0 < n <= PGSIZE - (uva + d) mod PGSIZE) as Hn by (unfold n; vmlia).
  assert (n <= size - d) as Hn' by (unfold n; lia).
  destruct (runs_elim _ _ _ (copy_str_page d n m a (size - d =? n) ltac:(lia) ltac:(lia) ltac:(lia)
    ltac:(lia) Hc Hz Ha)) as (r & s' & Er & m' & -> & Hres).
  rewrite Er in E. cbn [obind] in E.
  destruct Hres as [(-> & e & He & Hze & Hbe & Hce)|(-> & Hz' & Hc')].
  - eapply runs_eq; [exact E|]. cbn beta iota. apply runs_ret. exists m'. split; [done|left].
    split; [done|]. exists e. split; [lia|done].
  - destruct (Z.eqb_spec (size - d) n) as [En|En].
    + eapply runs_eq; [exact E|]. cbn beta iota. apply runs_ret. exists m'. split; [done|right].
      split; [done|]. exists (d + n). split_and!; [lia|lia|done|left; lia|done].
    + eapply runs_eq; [exact E|]. cbn beta iota.
      replace (u64 (uva + d + n)) with (uva + (d + n)) by (rewrite u64_small; lia).
      replace (kva + d + n) with (kva + (d + n)) by lia.
      replace (size - d - n) with (size - (d + n)) by lia.
      apply IH; [lia|done|done|].
      unfold rounds in Hf |- *. rewrite (proj2 (Z.eqb_neq (size - d) 0)) in Hf by lia.
      rewrite (proj2 (Z.eqb_neq (size - (d + n)) 0)) by lia. unfold n in *. vmlia.
Qed.

Lemma copy_str_any : 0 < size -> runs (copy_in_str root uva kva size) s0 str_post.
Proof.
  intros Hsz. unfold copy_in_str, copy_in_or_out_may_str.
  pose proof (copy_str_loop (copy_fuel size) 0 (km_mem s0)) as H1.
  rewrite !Z.add_0_r, Z.sub_0_r in H1.
  replace (set_mem (km_mem s0) s0) with s0 in H1 by (by destruct s0).
  apply H1; [lia|by apply copied_0|intros i Hi; lia|].
  unfold copy_fuel, rounds. destruct (Z.eqb_spec size 0); vmlia.
Qed.
End CopyStr.

(** [copy_in_str] fetches a C string of at most [size] bytes with its
    terminator: it answers 0 exactly when a terminator comes before the end of the
    buffer and before the first inaccessible byte, and then the buffer starts with
    the string; otherwise it answers -1.  Memory outside the buffer does not
    change. *)
Theorem copy_in_str_spec T l s root uva kva size :
  vm_inv T l s -> T !! [] = Some root -> 0 <= uva -> 0 < size -> uva + size < 2 ^ 64 ->
  (forall i j a, 0 <= i < size -> 0 <= j < size ->
     user_addr (km_mem s) T (uva + j) = Some a -> a <> kva + i) ->
  (forall i, 0 <= i < size -> ~ in_tree T (kva + i)) ->
  runs (copy_in_str root uva kva size) s (fun r s' =>
    km_hw s' = km_hw s /\ km_head s' = km_head s /\
    (forall a, ~ (kva <= a < kva + size) -> ld8 (km_mem s') a = ld8 (km_mem s) a) /\
    ((r = 0 /\ exists e, 0 <= e < size /\ ld8 (km_mem s') (kva + e) = 0 /\
        forall i, 0 <= i <= e -> exists a, user_addr (km_mem s) T (uva + i) = Some a /\
          ld8 (km_mem s') (kva + i) = ld8 (km_mem s) a /\ (i < e -> ld8 (km_mem s) a <> 0)) \/
     (r = -1 /\ exists d, 0 <= d <= size /\ (d = size \/ user_addr (km_mem s) T (uva + d) = None) /\
        forall i, 0 <= i < d -> exists a, user_addr (km_mem s) T (uva + i) = Some a /\
          ld8 (km_mem s) a <> 0))).
Proof.
  intros [Hkm Hr Hsep0] Hroot Huva Hsz Hend Hsep Htree.
  eapply runs_mono; [by apply (copy_str_any T root uva kva size s)|].
  intros r s' (m & -> & Hres). cbn [km_hw km_head km_mem set_mem]. split; [done|]. split; [done|].
  assert (forall d, d <= size -> copied T COPY_IN uva kva s d m ->
            forall a, ~ (kva <= a < kva + size) -> ld8 m a = ld8 (km_mem s) a) as Hframe.
  { intros d Hd Hc a Ha. apply (cp_frame _ _ _ _ _ _ _ Hc). intros i Hi E. cbn in E. lia. }
  destruct Hres as [(-> & e & He & Hz & Hb & Hc)|(-> & d & Hd & Hz & Hor & Hc)];
    (split; [eapply Hframe; [|exact Hc]; lia|]).
  - assert (forall i, 0 <= i <= e -> exists a, user_addr (km_mem s) T (uva + i) = Some a /\
        ld8 m (kva + i) = ld8 (km_mem s) a /\ ubyte T uva s i = ld8 (km_mem s) a) as Hi.
    { intros i Hi. destruct (cp_acc _ _ _ _ _ _ _ Hc i ltac:(lia)) as [a Ha]. exists a. split; [done|].
      pose proof (cp_done _ _ _ _ _ _ _ Hc i ltac:(lia)) as E. cbn in E.
      unfold ubyte. by rewrite Ha in E |- *. }
    left. split; [done|]. exists e. split; [done|]. split.
    + destruct (Hi e ltac:(lia)) as (a & _ & -> & <-). done.
    + intros i Hie. destruct (Hi i Hie) as (a & Ha & E & Eu). exists a. split_and!; [done|done|].
      intros Hlt. rewrite <- Eu. apply Hz. lia.
  - right. split; [done|]. exists d. split; [done|]. split; [done|]. intros i Hi.
    destruct (cp_acc _ _ _ _ _ _ _ Hc i Hi) as [a Ha]. exists a. split; [done|].
    specialize (Hz i Hi). unfold ubyte in Hz. by rewrite Ha in Hz.
Qed.
End Spec.
