(* ===== verification/State.v ===== *)
(** * The state of the kernel

    The data of every component above the hart and the allocator: processes and
    their groups (include/process/), the buffer cache, the log, inodes, files
    (include/fs/), and the kernel-wide state [kst] that the code of a system call
    works on.  A pointer to an element of a static array is the element's index. *)

From S2P Require Import Prelude Hart VmSystem Mem Kalloc.

(** ** Processes *)

(** What a process can sleep on: the addresses passed to [sleep]. *)
Inductive chan :=
| ChNull | ChLog | ChBuf (i : nat) | ChInode (i : nat) | ChTick | ChVdisk (i : Z)
| ChVfree | ChPipeRead (addr : Z) | ChPipeWrite (addr : Z) | ChUartOut | ChUartIn | ChInputLines
| ChMessage (i : nat).

#[export] Instance chan_eq_dec : EqDecision chan.
Proof. solve_decision. Defined.

(** include/process/process.h *)
Inductive proc_status := UNUSED | USED | RUNABLE | RUNNING | SLEEP | ZOMBIE.

#[export] Instance proc_status_eq_dec : EqDecision proc_status.
Proof. solve_decision. Defined.

Record context := mk_context {
  ctx_ra : Z;
  ctx_sp : Z;
  ctx_s : list Z }.
Definition set_ctx_ra (v : Z) (r : context) : context :=
  mk_context v (ctx_sp r) (ctx_s r).
Definition set_ctx_sp (v : Z) (r : context) : context :=
  mk_context (ctx_ra r) v (ctx_s r).
Definition set_ctx_s (v : list Z) (r : context) : context :=
  mk_context (ctx_ra r) (ctx_sp r) v.

Record process := mk_process {
  p_pid : Z;
  p_status : proc_status;
  p_killed : Z;
  p_xstatus : Z;
  p_chain : chan;
  p_parent : option nat;
  p_ustack : Z;
  p_mem_start : Z;
  p_mem_brk : Z;
  p_mem_end : Z;
  p_pgtable : Z;
  p_ofile : list (option nat);
  p_cwd : option nat;
  p_kstack : Z;
  p_trap_frame : Z;
  p_context : context;
  p_pgroup_id : Z }.
Definition set_p_pid (v : Z) (r : process) : process :=
  mk_process v (p_status r) (p_killed r) (p_xstatus r) (p_chain r) (p_parent r) (p_ustack r)
    (p_mem_start r) (p_mem_brk r) (p_mem_end r) (p_pgtable r) (p_ofile r) (p_cwd r) (p_kstack r)
    (p_trap_frame r) (p_context r) (p_pgroup_id r).
Definition set_p_status (v : proc_status) (r : process) : process :=
  mk_process (p_pid r) v (p_killed r) (p_xstatus r) (p_chain r) (p_parent r) (p_ustack r)
    (p_mem_start r) (p_mem_brk r) (p_mem_end r) (p_pgtable r) (p_ofile r) (p_cwd r) (p_kstack r)
    (p_trap_frame r) (p_context r) (p_pgroup_id r).
Definition set_p_killed (v : Z) (r : process) : process :=
  mk_process (p_pid r) (p_status r) v (p_xstatus r) (p_chain r) (p_parent r) (p_ustack r)
    (p_mem_start r) (p_mem_brk r) (p_mem_end r) (p_pgtable r) (p_ofile r) (p_cwd r) (p_kstack r)
    (p_trap_frame r) (p_context r) (p_pgroup_id r).
Definition set_p_xstatus (v : Z) (r : process) : process :=
  mk_process (p_pid r) (p_status r) (p_killed r) v (p_chain r) (p_parent r) (p_ustack r)
    (p_mem_start r) (p_mem_brk r) (p_mem_end r) (p_pgtable r) (p_ofile r) (p_cwd r) (p_kstack r)
    (p_trap_frame r) (p_context r) (p_pgroup_id r).
Definition set_p_chain (v : chan) (r : process) : process :=
  mk_process (p_pid r) (p_status r) (p_killed r) (p_xstatus r) v (p_parent r) (p_ustack r)
    (p_mem_start r) (p_mem_brk r) (p_mem_end r) (p_pgtable r) (p_ofile r) (p_cwd r) (p_kstack r)
    (p_trap_frame r) (p_context r) (p_pgroup_id r).
Definition set_p_parent (v : option nat) (r : process) : process :=
  mk_process (p_pid r) (p_status r) (p_killed r) (p_xstatus r) (p_chain r) v (p_ustack r)
    (p_mem_start r) (p_mem_brk r) (p_mem_end r) (p_pgtable r) (p_ofile r) (p_cwd r) (p_kstack r)
    (p_trap_frame r) (p_context r) (p_pgroup_id r).
Definition set_p_ustack (v : Z) (r : process) : process :=
  mk_process (p_pid r) (p_status r) (p_killed r) (p_xstatus r) (p_chain r) (p_parent r) v
    (p_mem_start r) (p_mem_brk r) (p_mem_end r) (p_pgtable r) (p_ofile r) (p_cwd r) (p_kstack r)
    (p_trap_frame r) (p_context r) (p_pgroup_id r).
Definition set_p_mem_start (v : Z) (r : process) : process :=
  mk_process (p_pid r) (p_status r) (p_killed r) (p_xstatus r) (p_chain r) (p_parent r) (p_ustack
    r) v (p_mem_brk r) (p_mem_end r) (p_pgtable r) (p_ofile r) (p_cwd r) (p_kstack r) (p_trap_frame
    r) (p_context r) (p_pgroup_id r).
Definition set_p_mem_brk (v : Z) (r : process) : process :=
  mk_process (p_pid r) (p_status r) (p_killed r) (p_xstatus r) (p_chain r) (p_parent r) (p_ustack
    r) (p_mem_start r) v (p_mem_end r) (p_pgtable r) (p_ofile r) (p_cwd r) (p_kstack r)
    (p_trap_frame r) (p_context r) (p_pgroup_id r).
Definition set_p_mem_end (v : Z) (r : process) : process :=
  mk_process (p_pid r) (p_status r) (p_killed r) (p_xstatus r) (p_chain r) (p_parent r) (p_ustack
    r) (p_mem_start r) (p_mem_brk r) v (p_pgtable r) (p_ofile r) (p_cwd r) (p_kstack r)
    (p_trap_frame r) (p_context r) (p_pgroup_id r).
Definition set_p_pgtable (v : Z) (r : process) : process :=
  mk_process (p_pid r) (p_status r) (p_killed r) (p_xstatus r) (p_chain r) (p_parent r) (p_ustack
    r) (p_mem_start r) (p_mem_brk r) (p_mem_end r) v (p_ofile r) (p_cwd r) (p_kstack r)
    (p_trap_frame r) (p_context r) (p_pgroup_id r).
Definition set_p_ofile (v : list (option nat)) (r : process) : process :=
  mk_process (p_pid r) (p_status r) (p_killed r) (p_xstatus r) (p_chain r) (p_parent r) (p_ustack
    r) (p_mem_start r) (p_mem_brk r) (p_mem_end r) (p_pgtable r) v (p_cwd r) (p_kstack r)
    (p_trap_frame r) (p_context r) (p_pgroup_id r).
Definition set_p_cwd (v : option nat) (r : process) : process :=
  mk_process (p_pid r) (p_status r) (p_killed r) (p_xstatus r) (p_chain r) (p_parent r) (p_ustack
    r) (p_mem_start r) (p_mem_brk r) (p_mem_end r) (p_pgtable r) (p_ofile r) v (p_kstack r)
    (p_trap_frame r) (p_context r) (p_pgroup_id r).
Definition set_p_kstack (v : Z) (r : process) : process :=
  mk_process (p_pid r) (p_status r) (p_killed r) (p_xstatus r) (p_chain r) (p_parent r) (p_ustack
    r) (p_mem_start r) (p_mem_brk r) (p_mem_end r) (p_pgtable r) (p_ofile r) (p_cwd r) v
    (p_trap_frame r) (p_context r) (p_pgroup_id r).
Definition set_p_trap_frame (v : Z) (r : process) : process :=
  mk_process (p_pid r) (p_status r) (p_killed r) (p_xstatus r) (p_chain r) (p_parent r) (p_ustack
    r) (p_mem_start r) (p_mem_brk r) (p_mem_end r) (p_pgtable r) (p_ofile r) (p_cwd r) (p_kstack r)
    v (p_context r) (p_pgroup_id r).
Definition set_p_context (v : context) (r : process) : process :=
  mk_process (p_pid r) (p_status r) (p_killed r) (p_xstatus r) (p_chain r) (p_parent r) (p_ustack
    r) (p_mem_start r) (p_mem_brk r) (p_mem_end r) (p_pgtable r) (p_ofile r) (p_cwd r) (p_kstack r)
    (p_trap_frame r) v (p_pgroup_id r).
Definition set_p_pgroup_id (v : Z) (r : process) : process :=
  mk_process (p_pid r) (p_status r) (p_killed r) (p_xstatus r) (p_chain r) (p_parent r) (p_ustack
    r) (p_mem_start r) (p_mem_brk r) (p_mem_end r) (p_pgtable r) (p_ofile r) (p_cwd r) (p_kstack r)
    (p_trap_frame r) (p_context r) v.

(** A [struct list_head] of the process groups: the head inside group [i] or the
    link inside process [i]. *)
Inductive lnode := LHead (i : nat) | LProc (i : nat) | LPoison1 | LPoison2.

#[export] Instance lnode_eq_dec : EqDecision lnode.
Proof. solve_decision. Defined.
#[export] Instance lnode_countable : Countable lnode.
Proof.
  apply (inj_countable'
    (fun n => match n with LHead i => (0%nat, i) | LProc i => (1%nat, i)
                         | LPoison1 => (2%nat, 0%nat) | LPoison2 => (3%nat, 0%nat) end)
    (fun p => match p with (0%nat, i) => LHead i | (1%nat, i) => LProc i
                         | (2%nat, _) => LPoison1 | _ => LPoison2 end)).
  by intros [].
Defined.

(** include/process/proc_group.h *)
Record proc_group := mk_proc_group {
  g_id : Z;
  g_cpus : list Z;
  g_exclusively_occupy : Z }.
Definition set_g_id (v : Z) (r : proc_group) : proc_group :=
  mk_proc_group v (g_cpus r) (g_exclusively_occupy r).
Definition set_g_cpus (v : list Z) (r : proc_group) : proc_group :=
  mk_proc_group (g_id r) v (g_exclusively_occupy r).
Definition set_g_exclusively_occupy (v : Z) (r : proc_group) : proc_group :=
  mk_proc_group (g_id r) (g_cpus r) v.

(** include/process/cpu_message.h: a message and what it points to. *)
Inductive cpu_message_type := EMP_MESSAGE | NEED_CPU | NEED_CPU_FLEX.
#[export] Instance cpu_message_type_eq_dec : EqDecision cpu_message_type.
Proof. solve_decision. Defined.

Record cpu_message := mk_cpu_message {
  m_type : cpu_message_type;
  m_sleep_chain : chan;
  m_pgroup_id : Z }.
Definition set_m_type (v : cpu_message_type) (r : cpu_message) : cpu_message :=
  mk_cpu_message v (m_sleep_chain r) (m_pgroup_id r).
Definition set_m_sleep_chain (v : chan) (r : cpu_message) : cpu_message :=
  mk_cpu_message (m_type r) v (m_pgroup_id r).
Definition set_m_pgroup_id (v : Z) (r : cpu_message) : cpu_message :=
  mk_cpu_message (m_type r) (m_sleep_chain r) v.
Record message_box := mk_message_box {
  mb_box : list cpu_message;
  mb_beg : Z;
  mb_end : Z;
  mb_size : Z }.
Definition set_mb_box (v : list cpu_message) (r : message_box) : message_box :=
  mk_message_box v (mb_beg r) (mb_end r) (mb_size r).
Definition set_mb_beg (v : Z) (r : message_box) : message_box :=
  mk_message_box (mb_box r) v (mb_end r) (mb_size r).
Definition set_mb_end (v : Z) (r : message_box) : message_box :=
  mk_message_box (mb_box r) (mb_beg r) v (mb_size r).
Definition set_mb_size (v : Z) (r : message_box) : message_box :=
  mk_message_box (mb_box r) (mb_beg r) (mb_end r) v.

(** ** The file system *)

Definition BSIZE : Z := 1024.
Definition NDIRECT : Z := 12.
Definition NINDIRECT : Z := BSIZE / 4.
Definition MAXFILE : Z := NDIRECT + NINDIRECT.
Definition NBUF : Z := 30.
Definition NINODE : Z := 50.
Definition NFILE : Z := 100.
Definition NOFILE : Z := 16.
Definition NDEV : Z := 10.
Definition LOGSIZE : Z := 30.
Definition MAXOPBLOCKS : Z := 10.
Definition ROOTDEV : Z := 1.
Definition ROOTINO : Z := 1.
Definition DIRSIZ : Z := 14.
Definition FSMAGIC : Z := 0x10203040.
Definition STATIC_PROC_NUM : Z := 64.

(** include/lock/sleeplock.h; its spin lock sits in [hw_locks]. *)
Record sleeplock := mk_sleeplock {
  slk_locked : Z;
  slk_pid : Z }.
Definition set_slk_locked (v : Z) (r : sleeplock) : sleeplock :=
  mk_sleeplock v (slk_pid r).
Definition set_slk_pid (v : Z) (r : sleeplock) : sleeplock :=
  mk_sleeplock (slk_locked r) v.

(** include/fs/buf.h; the data bytes are in memory, at [buf_data].  A [struct buf *]
    is [BHead] for [&bcache.head] or [BBuf i] for [&bcache.buf[i]]. *)
Inductive bptr := BHead | BBuf (i : nat).
#[export] Instance bptr_eq_dec : EqDecision bptr.
Proof. solve_decision. Defined.

Record buf := mk_buf {
  b_valid : Z;
  b_disk : Z;
  b_dev : Z;
  b_blockno : Z;
  b_lock : sleeplock;
  b_refcnt : Z;
  b_prev : bptr;
  b_next : bptr }.
Definition set_b_valid (v : Z) (r : buf) : buf :=
  mk_buf v (b_disk r) (b_dev r) (b_blockno r) (b_lock r) (b_refcnt r) (b_prev r) (b_next r).
Definition set_b_disk (v : Z) (r : buf) : buf :=
  mk_buf (b_valid r) v (b_dev r) (b_blockno r) (b_lock r) (b_refcnt r) (b_prev r) (b_next r).
Definition set_b_dev (v : Z) (r : buf) : buf :=
  mk_buf (b_valid r) (b_disk r) v (b_blockno r) (b_lock r) (b_refcnt r) (b_prev r) (b_next r).
Definition set_b_blockno (v : Z) (r : buf) : buf :=
  mk_buf (b_valid r) (b_disk r) (b_dev r) v (b_lock r) (b_refcnt r) (b_prev r) (b_next r).
Definition set_b_lock (v : sleeplock) (r : buf) : buf :=
  mk_buf (b_valid r) (b_disk r) (b_dev r) (b_blockno r) v (b_refcnt r) (b_prev r) (b_next r).
Definition set_b_refcnt (v : Z) (r : buf) : buf :=
  mk_buf (b_valid r) (b_disk r) (b_dev r) (b_blockno r) (b_lock r) v (b_prev r) (b_next r).
Definition set_b_prev (v : bptr) (r : buf) : buf :=
  mk_buf (b_valid r) (b_disk r) (b_dev r) (b_blockno r) (b_lock r) (b_refcnt r) v (b_next r).
Definition set_b_next (v : bptr) (r : buf) : buf :=
  mk_buf (b_valid r) (b_disk r) (b_dev r) (b_blockno r) (b_lock r) (b_refcnt r) (b_prev r) v.

(** kernel/fs/log.c *)
Record log_st := mk_log {
  lg_start : Z;
  lg_size : Z;
  lg_outstanding : Z;
  lg_committing : Z;
  lg_dev : Z;
  lg_n : Z;
  lg_block : list Z }.
Definition set_lg_start (v : Z) (r : log_st) : log_st :=
  mk_log v (lg_size r) (lg_outstanding r) (lg_committing r) (lg_dev r) (lg_n r) (lg_block r).
Definition set_lg_size (v : Z) (r : log_st) : log_st :=
  mk_log (lg_start r) v (lg_outstanding r) (lg_committing r) (lg_dev r) (lg_n r) (lg_block r).
Definition set_lg_outstanding (v : Z) (r : log_st) : log_st :=
  mk_log (lg_start r) (lg_size r) v (lg_committing r) (lg_dev r) (lg_n r) (lg_block r).
Definition set_lg_committing (v : Z) (r : log_st) : log_st :=
  mk_log (lg_start r) (lg_size r) (lg_outstanding r) v (lg_dev r) (lg_n r) (lg_block r).
Definition set_lg_dev (v : Z) (r : log_st) : log_st :=
  mk_log (lg_start r) (lg_size r) (lg_outstanding r) (lg_committing r) v (lg_n r) (lg_block r).
Definition set_lg_n (v : Z) (r : log_st) : log_st :=
  mk_log (lg_start r) (lg_size r) (lg_outstanding r) (lg_committing r) (lg_dev r) v (lg_block r).
Definition set_lg_block (v : list Z) (r : log_st) : log_st :=
  mk_log (lg_start r) (lg_size r) (lg_outstanding r) (lg_committing r) (lg_dev r) (lg_n r) v.

(** include/fs/fs.h *)
Record superblock := mk_superblock {
  sb_magic : Z;
  sb_size : Z;
  sb_nblocks : Z;
  sb_ninodes : Z;
  sb_nlog : Z;
  sb_logstart : Z;
  sb_inodestart : Z;
  sb_bmapstart : Z }.
Definition set_sb_magic (v : Z) (r : superblock) : superblock :=
  mk_superblock v (sb_size r) (sb_nblocks r) (sb_ninodes r) (sb_nlog r) (sb_logstart r)
    (sb_inodestart r) (sb_bmapstart r).
Definition set_sb_size (v : Z) (r : superblock) : superblock :=
  mk_superblock (sb_magic r) v (sb_nblocks r) (sb_ninodes r) (sb_nlog r) (sb_logstart r)
    (sb_inodestart r) (sb_bmapstart r).
Definition set_sb_nblocks (v : Z) (r : superblock) : superblock :=
  mk_superblock (sb_magic r) (sb_size r) v (sb_ninodes r) (sb_nlog r) (sb_logstart r)
    (sb_inodestart r) (sb_bmapstart r).
Definition set_sb_ninodes (v : Z) (r : superblock) : superblock :=
  mk_superblock (sb_magic r) (sb_size r) (sb_nblocks r) v (sb_nlog r) (sb_logstart r)
    (sb_inodestart r) (sb_bmapstart r).
Definition set_sb_nlog (v : Z) (r : superblock) : superblock :=
  mk_superblock (sb_magic r) (sb_size r) (sb_nblocks r) (sb_ninodes r) v (sb_logstart r)
    (sb_inodestart r) (sb_bmapstart r).
Definition set_sb_logstart (v : Z) (r : superblock) : superblock :=
  mk_superblock (sb_magic r) (sb_size r) (sb_nblocks r) (sb_ninodes r) (sb_nlog r) v (sb_inodestart
    r) (sb_bmapstart r).
Definition set_sb_inodestart (v : Z) (r : superblock) : superblock :=
  mk_superblock (sb_magic r) (sb_size r) (sb_nblocks r) (sb_ninodes r) (sb_nlog r) (sb_logstart r)
    v (sb_bmapstart r).
Definition set_sb_bmapstart (v : Z) (r : superblock) : superblock :=
  mk_superblock (sb_magic r) (sb_size r) (sb_nblocks r) (sb_ninodes r) (sb_nlog r) (sb_logstart r)
    (sb_inodestart r) v.

(** include/fs/file.h *)
Record inode := mk_inode {
  i_dev : Z;
  i_inum : Z;
  i_ref : Z;
  i_lock : sleeplock;
  i_valid : Z;
  i_type : Z;
  i_major : Z;
  i_minor : Z;
  i_nlink : Z;
  i_size : Z;
  i_addrs : list Z }.
Definition set_i_dev (v : Z) (r : inode) : inode :=
  mk_inode v (i_inum r) (i_ref r) (i_lock r) (i_valid r) (i_type r) (i_major r) (i_minor r)
    (i_nlink r) (i_size r) (i_addrs r).
Definition set_i_inum (v : Z) (r : inode) : inode :=
  mk_inode (i_dev r) v (i_ref r) (i_lock r) (i_valid r) (i_type r) (i_major r) (i_minor r) (i_nlink
    r) (i_size r) (i_addrs r).
Definition set_i_ref (v : Z) (r : inode) : inode :=
  mk_inode (i_dev r) (i_inum r) v (i_lock r) (i_valid r) (i_type r) (i_major r) (i_minor r)
    (i_nlink r) (i_size r) (i_addrs r).
Definition set_i_lock (v : sleeplock) (r : inode) : inode :=
  mk_inode (i_dev r) (i_inum r) (i_ref r) v (i_valid r) (i_type r) (i_major r) (i_minor r) (i_nlink
    r) (i_size r) (i_addrs r).
Definition set_i_valid (v : Z) (r : inode) : inode :=
  mk_inode (i_dev r) (i_inum r) (i_ref r) (i_lock r) v (i_type r) (i_major r) (i_minor r) (i_nlink
    r) (i_size r) (i_addrs r).
Definition set_i_type (v : Z) (r : inode) : inode :=
  mk_inode (i_dev r) (i_inum r) (i_ref r) (i_lock r) (i_valid r) v (i_major r) (i_minor r) (i_nlink
    r) (i_size r) (i_addrs r).
Definition set_i_major (v : Z) (r : inode) : inode :=
  mk_inode (i_dev r) (i_inum r) (i_ref r) (i_lock r) (i_valid r) (i_type r) v (i_minor r) (i_nlink
    r) (i_size r) (i_addrs r).
Definition set_i_minor (v : Z) (r : inode) : inode :=
  mk_inode (i_dev r) (i_inum r) (i_ref r) (i_lock r) (i_valid r) (i_type r) (i_major r) v (i_nlink
    r) (i_size r) (i_addrs r).
Definition set_i_nlink (v : Z) (r : inode) : inode :=
  mk_inode (i_dev r) (i_inum r) (i_ref r) (i_lock r) (i_valid r) (i_type r) (i_major r) (i_minor r)
    v (i_size r) (i_addrs r).
Definition set_i_size (v : Z) (r : inode) : inode :=
  mk_inode (i_dev r) (i_inum r) (i_ref r) (i_lock r) (i_valid r) (i_type r) (i_major r) (i_minor r)
    (i_nlink r) v (i_addrs r).
Definition set_i_addrs (v : list Z) (r : inode) : inode :=
  mk_inode (i_dev r) (i_inum r) (i_ref r) (i_lock r) (i_valid r) (i_type r) (i_major r) (i_minor r)
    (i_nlink r) (i_size r) v.

Inductive file_type := FD_NONE | FD_PIPE | FD_INODE | FD_DEVICE.
#[export] Instance file_type_eq_dec : EqDecision file_type.
Proof. solve_decision. Defined.

Record file := mk_file {
  f_type : file_type;
  f_ref : Z;
  f_readable : Z;
  f_writable : Z;
  f_pipe : Z;
  f_ip : option nat;
  f_off : Z;
  f_major : Z }.
Definition set_f_type (v : file_type) (r : file) : file :=
  mk_file v (f_ref r) (f_readable r) (f_writable r) (f_pipe r) (f_ip r) (f_off r) (f_major r).
Definition set_f_ref (v : Z) (r : file) : file :=
  mk_file (f_type r) v (f_readable r) (f_writable r) (f_pipe r) (f_ip r) (f_off r) (f_major r).
Definition set_f_readable (v : Z) (r : file) : file :=
  mk_file (f_type r) (f_ref r) v (f_writable r) (f_pipe r) (f_ip r) (f_off r) (f_major r).
Definition set_f_writable (v : Z) (r : file) : file :=
  mk_file (f_type r) (f_ref r) (f_readable r) v (f_pipe r) (f_ip r) (f_off r) (f_major r).
Definition set_f_pipe (v : Z) (r : file) : file :=
  mk_file (f_type r) (f_ref r) (f_readable r) (f_writable r) v (f_ip r) (f_off r) (f_major r).
Definition set_f_ip (v : option nat) (r : file) : file :=
  mk_file (f_type r) (f_ref r) (f_readable r) (f_writable r) (f_pipe r) v (f_off r) (f_major r).
Definition set_f_off (v : Z) (r : file) : file :=
  mk_file (f_type r) (f_ref r) (f_readable r) (f_writable r) (f_pipe r) (f_ip r) v (f_major r).
Definition set_f_major (v : Z) (r : file) : file :=
  mk_file (f_type r) (f_ref r) (f_readable r) (f_writable r) (f_pipe r) (f_ip r) (f_off r) v.

(** The disk: the bytes of each block, and the block writes since boot in order
    (the newest first), which the crash theorems cut anywhere. *)
Record disk_st := mk_disk {
  d_blocks : gmap Z (list Z);
  d_trace : list (Z * list Z) }.
Definition set_d_blocks (v : gmap Z (list Z)) (r : disk_st) : disk_st :=
  mk_disk v (d_trace r).
Definition set_d_trace (v : list (Z * list Z)) (r : disk_st) : disk_st :=
  mk_disk (d_blocks r) v.

(** ** The console

    kernel/driver/uart.c and kernel/io/console/console.c, with the device behind the
    UART registers: [rx] the received bytes not yet read, [room] the bytes the
    transmitter takes before it is busy, [tx] what was transmitted (newest first). *)
Record uart_dev := mk_uart_dev {
  ud_rx : list Z;
  ud_room : nat;
  ud_tx : list Z }.
Definition set_ud_rx (v : list Z) (r : uart_dev) : uart_dev :=
  mk_uart_dev v (ud_room r) (ud_tx r).
Definition set_ud_room (v : nat) (r : uart_dev) : uart_dev :=
  mk_uart_dev (ud_rx r) v (ud_tx r).
Definition set_ud_tx (v : list Z) (r : uart_dev) : uart_dev :=
  mk_uart_dev (ud_rx r) (ud_room r) v.
Record console_st := mk_console {
  cs_dev : uart_dev;
  cs_oq : list Z;
  cs_oq_beg : Z;
  cs_oq_end : Z;
  cs_iq : list Z;
  cs_iq_beg : Z;
  cs_iq_end : Z;
  cs_input_lines : Z }.
Definition set_cs_dev (v : uart_dev) (r : console_st) : console_st :=
  mk_console v (cs_oq r) (cs_oq_beg r) (cs_oq_end r) (cs_iq r) (cs_iq_beg r) (cs_iq_end r)
    (cs_input_lines r).
Definition set_cs_oq (v : list Z) (r : console_st) : console_st :=
  mk_console (cs_dev r) v (cs_oq_beg r) (cs_oq_end r) (cs_iq r) (cs_iq_beg r) (cs_iq_end r)
    (cs_input_lines r).
Definition set_cs_oq_beg (v : Z) (r : console_st) : console_st :=
  mk_console (cs_dev r) (cs_oq r) v (cs_oq_end r) (cs_iq r) (cs_iq_beg r) (cs_iq_end r)
    (cs_input_lines r).
Definition set_cs_oq_end (v : Z) (r : console_st) : console_st :=
  mk_console (cs_dev r) (cs_oq r) (cs_oq_beg r) v (cs_iq r) (cs_iq_beg r) (cs_iq_end r)
    (cs_input_lines r).
Definition set_cs_iq (v : list Z) (r : console_st) : console_st :=
  mk_console (cs_dev r) (cs_oq r) (cs_oq_beg r) (cs_oq_end r) v (cs_iq_beg r) (cs_iq_end r)
    (cs_input_lines r).
Definition set_cs_iq_beg (v : Z) (r : console_st) : console_st :=
  mk_console (cs_dev r) (cs_oq r) (cs_oq_beg r) (cs_oq_end r) (cs_iq r) v (cs_iq_end r)
    (cs_input_lines r).
Definition set_cs_iq_end (v : Z) (r : console_st) : console_st :=
  mk_console (cs_dev r) (cs_oq r) (cs_oq_beg r) (cs_oq_end r) (cs_iq r) (cs_iq_beg r) v
    (cs_input_lines r).
Definition set_cs_input_lines (v : Z) (r : console_st) : console_st :=
  mk_console (cs_dev r) (cs_oq r) (cs_oq_beg r) (cs_oq_end r) (cs_iq r) (cs_iq_beg r) (cs_iq_end r)
    v.

(** ** The kernel *)

Record kst := mk_kst {
  k_km : kmem;
  k_procs : list process;
  k_pids : list Z;
  k_groups : list proc_group;
  k_links : gmap lnode (lnode * lnode);
  k_free_cpus : Z;
  k_box : message_box;
  k_ticks : Z;
  k_bufs : list buf;
  k_bhead : bptr * bptr;
  k_log : log_st;
  k_sb : superblock;
  k_inodes : list inode;
  k_files : list file;
  k_disk : disk_st;
  k_init_fs : Z;
  k_con : console_st;
  k_devsw : list bool }.
Definition set_k_km (v : kmem) (r : kst) : kst :=
  mk_kst v (k_procs r) (k_pids r) (k_groups r) (k_links r) (k_free_cpus r) (k_box r) (k_ticks r)
    (k_bufs r) (k_bhead r) (k_log r) (k_sb r) (k_inodes r) (k_files r) (k_disk r) (k_init_fs r)
    (k_con r) (k_devsw r).
Definition set_k_procs (v : list process) (r : kst) : kst :=
  mk_kst (k_km r) v (k_pids r) (k_groups r) (k_links r) (k_free_cpus r) (k_box r) (k_ticks r)
    (k_bufs r) (k_bhead r) (k_log r) (k_sb r) (k_inodes r) (k_files r) (k_disk r) (k_init_fs r)
    (k_con r) (k_devsw r).
Definition set_k_pids (v : list Z) (r : kst) : kst :=
  mk_kst (k_km r) (k_procs r) v (k_groups r) (k_links r) (k_free_cpus r) (k_box r) (k_ticks r)
    (k_bufs r) (k_bhead r) (k_log r) (k_sb r) (k_inodes r) (k_files r) (k_disk r) (k_init_fs r)
    (k_con r) (k_devsw r).
Definition set_k_groups (v : list proc_group) (r : kst) : kst :=
  mk_kst (k_km r) (k_procs r) (k_pids r) v (k_links r) (k_free_cpus r) (k_box r) (k_ticks r)
    (k_bufs r) (k_bhead r) (k_log r) (k_sb r) (k_inodes r) (k_files r) (k_disk r) (k_init_fs r)
    (k_con r) (k_devsw r).
Definition set_k_links (v : gmap lnode (lnode * lnode)) (r : kst) : kst :=
  mk_kst (k_km r) (k_procs r) (k_pids r) (k_groups r) v (k_free_cpus r) (k_box r) (k_ticks r)
    (k_bufs r) (k_bhead r) (k_log r) (k_sb r) (k_inodes r) (k_files r) (k_disk r) (k_init_fs r)
    (k_con r) (k_devsw r).
Definition set_k_free_cpus (v : Z) (r : kst) : kst :=
  mk_kst (k_km r) (k_procs r) (k_pids r) (k_groups r) (k_links r) v (k_box r) (k_ticks r) (k_bufs
    r) (k_bhead r) (k_log r) (k_sb r) (k_inodes r) (k_files r) (k_disk r) (k_init_fs r) (k_con r)
    (k_devsw r).
Definition set_k_box (v : message_box) (r : kst) : kst :=
  mk_kst (k_km r) (k_procs r) (k_pids r) (k_groups r) (k_links r) (k_free_cpus r) v (k_ticks r)
    (k_bufs r) (k_bhead r) (k_log r) (k_sb r) (k_inodes r) (k_files r) (k_disk r) (k_init_fs r)
    (k_con r) (k_devsw r).
Definition set_k_ticks (v : Z) (r : kst) : kst :=
  mk_kst (k_km r) (k_procs r) (k_pids r) (k_groups r) (k_links r) (k_free_cpus r) (k_box r) v
    (k_bufs r) (k_bhead r) (k_log r) (k_sb r) (k_inodes r) (k_files r) (k_disk r) (k_init_fs r)
    (k_con r) (k_devsw r).
Definition set_k_bufs (v : list buf) (r : kst) : kst :=
  mk_kst (k_km r) (k_procs r) (k_pids r) (k_groups r) (k_links r) (k_free_cpus r) (k_box r)
    (k_ticks r) v (k_bhead r) (k_log r) (k_sb r) (k_inodes r) (k_files r) (k_disk r) (k_init_fs r)
    (k_con r) (k_devsw r).
Definition set_k_bhead (v : bptr * bptr) (r : kst) : kst :=
  mk_kst (k_km r) (k_procs r) (k_pids r) (k_groups r) (k_links r) (k_free_cpus r) (k_box r)
    (k_ticks r) (k_bufs r) v (k_log r) (k_sb r) (k_inodes r) (k_files r) (k_disk r) (k_init_fs r)
    (k_con r) (k_devsw r).
Definition set_k_log (v : log_st) (r : kst) : kst :=
  mk_kst (k_km r) (k_procs r) (k_pids r) (k_groups r) (k_links r) (k_free_cpus r) (k_box r)
    (k_ticks r) (k_bufs r) (k_bhead r) v (k_sb r) (k_inodes r) (k_files r) (k_disk r) (k_init_fs r)
    (k_con r) (k_devsw r).
Definition set_k_sb (v : superblock) (r : kst) : kst :=
  mk_kst (k_km r) (k_procs r) (k_pids r) (k_groups r) (k_links r) (k_free_cpus r) (k_box r)
    (k_ticks r) (k_bufs r) (k_bhead r) (k_log r) v (k_inodes r) (k_files r) (k_disk r) (k_init_fs
    r) (k_con r) (k_devsw r).
Definition set_k_inodes (v : list inode) (r : kst) : kst :=
  mk_kst (k_km r) (k_procs r) (k_pids r) (k_groups r) (k_links r) (k_free_cpus r) (k_box r)
    (k_ticks r) (k_bufs r) (k_bhead r) (k_log r) (k_sb r) v (k_files r) (k_disk r) (k_init_fs r)
    (k_con r) (k_devsw r).
Definition set_k_files (v : list file) (r : kst) : kst :=
  mk_kst (k_km r) (k_procs r) (k_pids r) (k_groups r) (k_links r) (k_free_cpus r) (k_box r)
    (k_ticks r) (k_bufs r) (k_bhead r) (k_log r) (k_sb r) (k_inodes r) v (k_disk r) (k_init_fs r)
    (k_con r) (k_devsw r).
Definition set_k_disk (v : disk_st) (r : kst) : kst :=
  mk_kst (k_km r) (k_procs r) (k_pids r) (k_groups r) (k_links r) (k_free_cpus r) (k_box r)
    (k_ticks r) (k_bufs r) (k_bhead r) (k_log r) (k_sb r) (k_inodes r) (k_files r) v (k_init_fs r)
    (k_con r) (k_devsw r).
Definition set_k_init_fs (v : Z) (r : kst) : kst :=
  mk_kst (k_km r) (k_procs r) (k_pids r) (k_groups r) (k_links r) (k_free_cpus r) (k_box r)
    (k_ticks r) (k_bufs r) (k_bhead r) (k_log r) (k_sb r) (k_inodes r) (k_files r) (k_disk r) v
    (k_con r) (k_devsw r).
Definition set_k_con (v : console_st) (r : kst) : kst :=
  mk_kst (k_km r) (k_procs r) (k_pids r) (k_groups r) (k_links r) (k_free_cpus r) (k_box r)
    (k_ticks r) (k_bufs r) (k_bhead r) (k_log r) (k_sb r) (k_inodes r) (k_files r) (k_disk r)
    (k_init_fs r) v (k_devsw r).
Definition set_k_devsw (v : list bool) (r : kst) : kst :=
  mk_kst (k_km r) (k_procs r) (k_pids r) (k_groups r) (k_links r) (k_free_cpus r) (k_box r)
    (k_ticks r) (k_bufs r) (k_bhead r) (k_log r) (k_sb r) (k_inodes r) (k_files r) (k_disk r)
    (k_init_fs r) (k_con r) v.

Definition kmL : lens kst kmem := Lens k_km set_k_km.
Definition hwL : lens kst hw :=
  Lens (fun s => km_hw (k_km s)) (fun h s => set_k_km (set_hw h (k_km s)) s).

#[export] Instance kmL_laws : LensLaws kmL.
Proof. split; [done|by intros []|done]. Qed.
#[export] Instance hwL_laws : LensLaws hwL.
Proof. split; [done|by intros [[]]|done]. Qed.

Definition k_mem (s : kst) : mem := km_mem (k_km s).
Definition k_hw (s : kst) : hw := km_hw (k_km s).
Definition set_k_mem (m : mem) (s : kst) : kst := set_k_km (set_mem m (k_km s)) s.
Definition set_k_hw (h : hw) (s : kst) : kst := set_k_km (set_hw h (k_km s)) s.

Definition hwdo {A} (m : M hw A) : M kst A := zoom hwL m.
Definition kmdo {A} (m : M kmem A) : M kst A := zoom kmL m.

Definition acquire (l : lock_id) : M kst unit := hwdo (acquire_spin_lock l).
Definition release (l : lock_id) : M kst unit := hwdo (release_spin_lock l).

(** *** Elements of the static arrays *)

Definition read_proc (i : nat) : M kst process :=
  ps ← gets k_procs; lift_opt (ps !! i).
Definition upd_proc (i : nat) (f : process -> process) : M kst unit :=
  _ ← read_proc i; modify (fun s => set_k_procs (alter f i (k_procs s)) s).
Definition read_group (i : nat) : M kst proc_group :=
  gs ← gets k_groups; lift_opt (gs !! i).
Definition upd_group (i : nat) (f : proc_group -> proc_group) : M kst unit :=
  _ ← read_group i; modify (fun s => set_k_groups (alter f i (k_groups s)) s).
Definition read_buf (i : nat) : M kst buf :=
  bs ← gets k_bufs; lift_opt (bs !! i).
Definition upd_buf (i : nat) (f : buf -> buf) : M kst unit :=
  _ ← read_buf i; modify (fun s => set_k_bufs (alter f i (k_bufs s)) s).
Definition read_inode (i : nat) : M kst inode :=
  xs ← gets k_inodes; lift_opt (xs !! i).
Definition upd_inode (i : nat) (f : inode -> inode) : M kst unit :=
  _ ← read_inode i; modify (fun s => set_k_inodes (alter f i (k_inodes s)) s).
Definition read_file (i : nat) : M kst file :=
  xs ← gets k_files; lift_opt (xs !! i).
Definition upd_file (i : nat) (f : file -> file) : M kst unit :=
  _ ← read_file i; modify (fun s => set_k_files (alter f i (k_files s)) s).
Definition upd_log (f : log_st -> log_st) : M kst unit :=
  modify (fun s => set_k_log (f (k_log s)) s).

Definition upd_con (f : console_st -> console_st) : M kst unit :=
  modify (fun s => set_k_con (f (k_con s)) s).

(** [my_proc()], dereferenced: NULL is undefined behaviour. *)
Definition cur_proc : M kst nat := p ← hwdo my_proc; lift_opt p.

(** Memory of the kernel. *)
Definition kld8 (a : Z) : M kst Z := gets (fun s => ld8 (k_mem s) a).
Definition kst8 (a v : Z) : M kst unit := modify (fun s => set_k_mem (st8 (k_mem s) a v) s).
Definition kld16 (a : Z) : M kst Z := gets (fun s => ld16 (k_mem s) a).
Definition kst16 (a v : Z) : M kst unit := modify (fun s => set_k_mem (st16 (k_mem s) a v) s).
Definition kld32 (a : Z) : M kst Z := gets (fun s => ld32 (k_mem s) a).
Definition kst32 (a v : Z) : M kst unit := modify (fun s => set_k_mem (st32 (k_mem s) a v) s).
Definition kld64 (a : Z) : M kst Z := gets (fun s => ld64 (k_mem s) a).
Definition kst64 (a v : Z) : M kst unit := modify (fun s => set_k_mem (st64 (k_mem s) a v) s).
Definition kmemmove (dst src n : Z) : M kst unit :=
  modify (fun s => set_k_mem (memmove (k_mem s) dst src (i32 n)) s).
Definition kmemset (p v n : Z) : M kst unit :=
  modify (fun s => set_k_mem (memset (k_mem s) p v n) s).
Definition kmemcpy (dst src n : Z) : M kst unit :=
  modify (fun s => set_k_mem (memcpy (k_mem s) dst src n) s).

(** ** Kernel objects with an address

    The linker places the buffer cache; the address-taken locals of the running
    system call sit in its kernel stack.  Only what the code relies on is stated:
    both lie in the kernel's part of RAM, below the allocator's pages. *)
Class KernelData `{KernelImage} := {
  buf_data : nat -> Z;   (** [bcache.buf[i].data] *)
  locals_addr : Z;
  lit_dot : Z;           (** the string literals ".", "..", "/" *)
  lit_dotdot : Z;
  lit_root : Z;
  kernel_page_table : Z;
  kernel_trap_entry : Z;
  user_trap_handler_ptr : Z;
  user_proc_entry_ptr : Z;
  buf_data_range i : Z.of_nat i < NBUF ->
    KERNEL_BASE <= buf_data i /\ buf_data i + BSIZE <= locals_addr;
  buf_data_order i j : (i < j)%nat -> Z.of_nat j < NBUF -> buf_data i + BSIZE <= buf_data j;
  locals_range : locals_addr + PGSIZE <= kernel_end }.

(** Slots for the address-taken locals of the file-system calls. *)
Definition local_ch `{KernelData} : Z := locals_addr.
Definition local_de `{KernelData} : Z := locals_addr + 16.
Definition local_st `{KernelData} : Z := locals_addr + 32.
Definition local_name `{KernelData} : Z := locals_addr + 64.
Definition local_path `{KernelData} : Z := locals_addr + 128.
Definition local_new `{KernelData} : Z := locals_addr + 256.
Definition local_old `{KernelData} : Z := locals_addr + 384.
Definition local_argv `{KernelData} : Z := locals_addr + 512.
Definition local_ehdr `{KernelData} : Z := locals_addr + 640.
Definition local_phdr `{KernelData} : Z := locals_addr + 704.
