(* ===== verification/Critical.v ===== *)
(** * Critical sections of the kernel state

    How [acquire], [release], [my_proc] and the updates of the static arrays act on
    a kernel state whose hart is inside a critical section: the shared part of the
    proofs about every component that uses locks.  [at_hw h s] is [s] with the hart
    state [h]. *)

From S2P Require Import Prelude Hart VmSystem Mem Kalloc State.

Lemma at_hw_id s : set_k_hw (k_hw s) s = s.
Proof. by destruct s as [[] ]. Qed.

Lemma hwdo_at {A} (m : M hw A) h s a h' :
  m h = Ret a h' -> hwdo m (set_k_hw h s) = Ret a (set_k_hw h' s).
Proof.
  intros H. unfold hwdo, zoom. change (lget hwL (set_k_hw h s)) with h. by rewrite H.
Qed.

Lemma hwdo_Ret {A} (m : M hw A) s a h : m (k_hw s) = Ret a h -> hwdo m s = Ret a (set_k_hw h s).
Proof. intros H. unfold hwdo. by apply zoom_Ret. Qed.

Lemma kmdo_Ret {A} (m : M kmem A) s a km : m (k_km s) = Ret a km -> kmdo m s = Ret a (set_k_km km s).
Proof. intros H. unfold kmdo. by apply zoom_Ret. Qed.

Lemma kmdo_runs {A} (m : M kmem A) km s0 (Q : A -> kmem -> Prop) :
  runs m km Q -> runs (kmdo m) (set_k_km km s0) (fun a s' => exists km', s' = set_k_km km' s0 /\ Q a km').
Proof.
  intros (a & km' & E & HQ)%runs_elim. eapply runs_eq; [by apply kmdo_Ret|].
  exists km'. split; [by destruct s0|done].
Qed.

Lemma kmdo_runs_self {A} (m : M kmem A) s (Q : A -> kmem -> Prop) :
  runs m (k_km s) Q -> runs (kmdo m) s (fun a s' => exists km', s' = set_k_km km' s /\ Q a km').
Proof.
  intros H. pose proof (kmdo_runs m (k_km s) s Q H) as H1.
  by replace (set_k_km (k_km s) s) with s in H1 by (by destruct s).
Qed.

Lemma hwdo_Panic {A} (m : M hw A) s msg : m (k_hw s) = Panic msg -> hwdo m s = Panic msg.
Proof.
  intros H. unfold hwdo, zoom. change (lget hwL s) with (k_hw s). by rewrite H.
Qed.

(** A process is running on the hart. *)
Definition running (h : hw) (p : nat) : Prop :=
  exists c, cur_cpu h = Some c /\ c_my_proc c = Some p.

Section Held.
Variable h : hw.
Hypothesis Hwf : hw_wf h.

Lemma acquire_at k L l s :
  hw_locks h !! l = Some free_lock -> l ∉ L ->
  acquire l (set_k_hw (held_hw k L h) s) = Ret tt (set_k_hw (held_hw k (l :: L) h) s).
Proof. intros Hl Hn. apply hwdo_at. by apply acquire_held. Qed.

Lemma release_at k L l s :
  hw_locks h !! l = Some free_lock -> NoDup L -> l ∈ L ->
  release l (set_k_hw (held_hw k L h) s) = Ret tt (set_k_hw (held_hw k (remove_lock l L) h) s).
Proof. intros Hl HND Hin. apply hwdo_at. by apply release_held. Qed.

Lemma release_top k L l s :
  hw_locks h !! l = Some free_lock -> l ∉ L -> NoDup L ->
  release l (set_k_hw (held_hw k (l :: L) h) s) = Ret tt (set_k_hw (held_hw k L h) s).
Proof.
  intros Hl Hn HND. rewrite release_at by (done || by constructor || set_solver).
  by rewrite remove_lock_cons_eq, remove_lock_notin.
Qed.

Lemma cur_proc_at k L p s :
  running h p -> cur_proc (set_k_hw (held_hw k L h) s) = Ret p (set_k_hw (held_hw k L h) s).
Proof.
  intros (c & Hc & Hp). unfold cur_proc.
  rewrite (bind_Ret _ _ _ _ _ (hwdo_at my_proc _ _ _ _ (my_proc_held h Hwf k L c Hc))).
  by rewrite Hp.
Qed.

(** The hart before a critical section of level [k], [L]: at level 0 it may still
    carry an old [origin_ie]. *)
Definition at_lvl (k : nat) (L : list lock_id) (x : hw) : Prop :=
  x = held_hw k L h \/ (k = 0%nat /\ L = [] /\ x = h).

Lemma at_lvl_held k L : at_lvl k L (held_hw k L h).
Proof. by left. Qed.

Lemma at_lvl_0 : at_lvl 0 [] h.
Proof. by right. Qed.

Lemma acquire_lvl k L l s :
  at_lvl k L (k_hw s) -> hw_locks h !! l = Some free_lock -> l ∉ L ->
  acquire l s = Ret tt (set_k_hw (held_hw k (l :: L) h) s).
Proof.
  intros [Hs|(-> & -> & Hs)] Hl Hn; apply hwdo_Ret; rewrite Hs;
    [by apply acquire_held|by apply acquire_first].
Qed.

Lemma push_lvl k L s :
  at_lvl k L (k_hw s) -> hwdo push_introff s = Ret tt (set_k_hw (held_hw (S k) L h) s).
Proof.
  intros [Hs|(-> & -> & Hs)]; apply hwdo_Ret; rewrite Hs; [by apply push_held|by apply push_first].
Qed.

Lemma pop_at k L s :
  hwdo pop_introff (set_k_hw (held_hw (S k) L h) s) = Ret tt (set_k_hw (held_hw k L h) s).
Proof. apply hwdo_at. by apply pop_held. Qed.

Lemma cur_proc_lvl k L p s :
  at_lvl k L (k_hw s) -> running h p -> cur_proc s = Ret p (set_k_hw (held_hw k L h) s).
Proof.
  intros Hs (c & Hc & Hp). unfold cur_proc.
  assert (hwdo my_proc s = Ret (c_my_proc c) (set_k_hw (held_hw k L h) s)) as E.
  { apply hwdo_Ret. destruct Hs as [Hs|(-> & -> & Hs)]; rewrite Hs;
      [by apply my_proc_held|by apply my_proc_first]. }
  rewrite (bind_Ret _ _ _ _ _ E). by rewrite Hp.
Qed.

Lemma running_settle p : running h p -> running (settle h) p.
Proof.
  intros (c & Hc & Hp). eexists. split; [apply (nested_cur 0 h c Hc)|done].
Qed.
End Held.

(** *** The static arrays *)

Lemma alter_at {A} (f : A -> A) (l : list A) i x : l !! i = Some x -> alter f i l = <[i := f x]> l.
Proof.
  revert i. induction l as [|y l IH]; intros [|i] H; try done.
  - by injection H as ->.
  - cbn. f_equal. by apply IH.
Qed.

Lemma read_proc_Ret i p s : k_procs s !! i = Some p -> read_proc i s = Ret p s.
Proof. intros H. unfold read_proc, lift_opt, gets, mbind, M_bind. cbn [obind]. by rewrite H. Qed.

Lemma upd_proc_Ret i p f s :
  k_procs s !! i = Some p -> upd_proc i f s = Ret tt (set_k_procs (<[i := f p]> (k_procs s)) s).
Proof.
  intros H. unfold upd_proc. rewrite (bind_Ret _ _ _ _ _ (read_proc_Ret i p s H)).
  rewrite <- (alter_at _ _ _ _ H). done.
Qed.

Lemma read_buf_Ret i b s : k_bufs s !! i = Some b -> read_buf i s = Ret b s.
Proof. intros H. unfold read_buf, lift_opt, gets, mbind, M_bind. cbn [obind]. by rewrite H. Qed.

Lemma upd_buf_Ret i b f s :
  k_bufs s !! i = Some b -> upd_buf i f s = Ret tt (set_k_bufs (<[i := f b]> (k_bufs s)) s).
Proof.
  intros H. unfold upd_buf. rewrite (bind_Ret _ _ _ _ _ (read_buf_Ret i b s H)).
  rewrite <- (alter_at _ _ _ _ H). done.
Qed.

Lemma read_inode_Ret i x s : k_inodes s !! i = Some x -> read_inode i s = Ret x s.
Proof. intros H. unfold read_inode, lift_opt, gets, mbind, M_bind. cbn [obind]. by rewrite H. Qed.

Lemma upd_inode_Ret i x f s :
  k_inodes s !! i = Some x -> upd_inode i f s = Ret tt (set_k_inodes (<[i := f x]> (k_inodes s)) s).
Proof.
  intros H. unfold upd_inode. rewrite (bind_Ret _ _ _ _ _ (read_inode_Ret i x s H)).
  rewrite <- (alter_at _ _ _ _ H). done.
Qed.

Lemma read_file_Ret i x s : k_files s !! i = Some x -> read_file i s = Ret x s.
Proof. intros H. unfold read_file, lift_opt, gets, mbind, M_bind. cbn [obind]. by rewrite H. Qed.

Lemma upd_file_Ret i x f s :
  k_files s !! i = Some x -> upd_file i f s = Ret tt (set_k_files (<[i := f x]> (k_files s)) s).
Proof.
  intros H. unfold upd_file. rewrite (bind_Ret _ _ _ _ _ (read_file_Ret i x s H)).
  rewrite <- (alter_at _ _ _ _ H). done.
Qed.

Lemma read_group_Ret i x s : k_groups s !! i = Some x -> read_group i s = Ret x s.
Proof. intros H. unfold read_group, lift_opt, gets, mbind, M_bind. cbn [obind]. by rewrite H. Qed.

Lemma upd_group_Ret i x f s :
  k_groups s !! i = Some x -> upd_group i f s = Ret tt (set_k_groups (<[i := f x]> (k_groups s)) s).
Proof.
  intros H. unfold upd_group. rewrite (bind_Ret _ _ _ _ _ (read_group_Ret i x s H)).
  rewrite <- (alter_at _ _ _ _ H). done.
Qed.

(** Execute the call at the head of a bind, given what it returns. *)
Ltac rret H := rewrite (bind_Ret _ _ _ _ _ H).
Ltac rdone H := apply runs_bind; eapply runs_eq; [apply H|].

(** A scan of a static array under one lock at a time: the first iteration starts
    from [s], every later one from [s1]. *)
Lemma for_loop_scan_locked {A R} (P : A -> bool) (l : list A) (body : Z -> M kst (option R)) s s1 r g :
  l <> [] ->
  (forall i x st, l !! i = Some x -> st = s \/ st = s1 -> body (Z.of_nat i) st =
     if P x then Ret (Some (r i)) (g i) else Ret None s1) ->
  for_loop (length l) 0 body s =
  match first_index P l with Some i => Ret (Some (r i)) (g i) | None => Ret None s1 end.
Proof.
  intros Hne Hb. set (f := fun i : Z => if decide (i = 0) then s else s1).
  assert (forall i, f i = s \/ f i = s1) as Hf by (intros i; unfold f; case_decide; auto).
  assert (forall i, 0 < i -> f i = s1) as Hf1 by (intros i Hi; unfold f; by rewrite decide_False by lia).
  change (for_loop (length l) 0 body (f 0) =
    match first_index P l with Some i => Ret (Some (r i)) (g i) | None => Ret None s1 end).
  assert (forall i, (forall j x, (j < i)%nat -> l !! j = Some x -> P x = false) -> (i <= length l)%nat ->
            forall j, 0 <= j < 0 + Z.of_nat i -> body j (f j) = Ret None (f (j + 1))) as Hskip.
  { intros i HP Hi j Hj. destruct (lookup_lt_is_Some_2 l (Z.to_nat j)) as [y Hy]; [lia|].
    rewrite <- (Z2Nat.id j) at 1 by lia. rewrite (Hb _ y (f j) Hy (Hf j)).
    by rewrite (HP (Z.to_nat j) y ltac:(lia) Hy), Hf1 by lia. }
  destruct (first_index P l) as [i|] eqn:E.
  - pose proof (first_index_lt _ _ _ E) as Hlt.
    apply first_index_Some in E as [(x & Hx & HP) Hbefore].
    apply (for_loop_exit i (length l) 0 body f); [done|apply Hskip; [done|lia]|].
    rewrite Z.add_0_l, (Hb _ _ _ Hx (Hf _)). by rewrite HP.
  - rewrite (for_loop_end (length l) 0 body f).
    + rewrite Hf1; [done|]. destruct l; [done|cbn; lia].
    + apply Hskip; [|lia]. intros j x _ Hx. by eapply first_index_None.
Qed.
