(* ===== verification/Sleep.v ===== *)
(** * Sleeping, waking and sleep locks

    kernel/trap/intr_handler.c (switch_to_scheduler, yield, get_ticks),
    kernel/scheduler/sleep.c, kernel/lock/sleeplock.c.  [swtch] to the scheduler is
    the outcome [Switch]: the rest of the function is its continuation, run from
    the state the machine has when this process is scheduled again. *)

From S2P Require Import Prelude Hart VmSystem Mem Kalloc State.

(** A process that waits tests its condition again after every wake-up; nothing
    bounds how often it finds it false.  [wait_fuel] is the number of tests the
    model makes before it answers [NoFuel]: one is enough for a process that does
    not have to wait. *)
Class WaitFuel := { wait_fuel : nat; wait_fuel_pos : (0 < wait_fuel)%nat }.

(** ** kernel/trap/intr_handler.c *)

Definition set_origin_ie (i v : Z) : M hw unit :=
  c ← read_cpu i;
  write_cpu i (mk_cpu (c_cpu_id c) (c_pgroup_id c) (c_my_proc c) v (c_introff_n c)).

Definition get_ticks : M kst Z := gets k_ticks.

Definition swtch : M kst unit := fun s => Switch s (fun s' => Ret tt s').

Definition switch_to_scheduler : M kst unit :=
  _ ← hwdo my_proc;
  mycpu ← hwdo my_cpu;
  sst ← gets (fun s => hw_sstatus (k_hw s));
  if negb (Z.land sst XSTATUS_SIE =? 0) then panic "switch_to_scheduler: sstatus(sie) != 0" else
  c ← hwdo (read_cpu mycpu);
  if negb (c_introff_n c =? 1) then panic "switch_to_scheduler: introff_n != 1" else
  let origin_ie := c_origin_ie c in
  hwdo (set_origin_ie mycpu 0) ;;
  swtch ;;
  mycpu ← hwdo my_cpu;
  hwdo (set_origin_ie mycpu origin_ie).

Definition yield (status : proc_status) : M kst unit :=
  hwdo push_introff ;;
  proc ← cur_proc;
  hwdo pop_introff ;;
  acquire (LkProc proc) ;;
  upd_proc proc (set_p_status status) ;;
  switch_to_scheduler ;;
  release (LkProc proc).

(** ** kernel/scheduler/sleep.c *)

(** The operations on spin locks are parameters: SleepSpec also runs the function with
    operations between which the other harts act. *)
Section Sleep.
Context (acquire release : lock_id -> M kst unit).

Definition sleep_with (lock : lock_id) (chain : chan) : M kst unit :=
  proc ← cur_proc;
  p ← read_proc proc;
  if negb (bool_decide (p_chain p = ChNull)) then panic "sleep: sleep when sleeping" else
  (if bool_decide (lock = LkProc proc) then mret tt
   else acquire (LkProc proc) ;; release lock) ;;
  upd_proc proc (set_p_status SLEEP) ;;
  upd_proc proc (set_p_chain chain) ;;
  switch_to_scheduler ;;
  (if bool_decide (lock = LkProc proc) then mret tt
   else release (LkProc proc) ;; acquire lock).
End Sleep.
Definition sleep : lock_id -> chan -> M kst unit := sleep_with acquire release.

(** fs/defs.h: [sleep_r(chan, lock)]. *)
Definition sleep_r (chain : chan) (lock : lock_id) : M kst unit := sleep lock chain.

Definition wake_up (chain : chan) : M kst unit :=
  for_each (Z.to_nat STATIC_PROC_NUM) 0 (fun i =>
    let i := Z.to_nat i in
    acquire (LkProc i) ;;
    p ← read_proc i;
    (if bool_decide (p_status p = SLEEP) && bool_decide (p_chain p = chain)
     then upd_proc i (set_p_status RUNABLE) ;; upd_proc i (set_p_chain ChNull)
     else mret tt) ;;
    release (LkProc i)).

(** ** kernel/lock/sleeplock.c

    A [struct sleeplock *] is the sleep lock of a buffer or of an inode. *)

Inductive slk_ref := SlkBuf (i : nat) | SlkInode (i : nat).

Definition slk_lk (r : slk_ref) : lock_id :=
  match r with SlkBuf i => LkBuf i | SlkInode i => LkInode i end.
Definition slk_chan (r : slk_ref) : chan :=
  match r with SlkBuf i => ChBuf i | SlkInode i => ChInode i end.
Definition read_slk (r : slk_ref) : M kst sleeplock :=
  match r with
  | SlkBuf i => b ← read_buf i; mret (b_lock b)
  | SlkInode i => ip ← read_inode i; mret (i_lock ip)
  end.
Definition write_slk (r : slk_ref) (v : sleeplock) : M kst unit :=
  match r with
  | SlkBuf i => upd_buf i (set_b_lock v)
  | SlkInode i => upd_inode i (set_i_lock v)
  end.

Definition initsleeplock (r : slk_ref) : M kst unit :=
  hwdo (init_spin_lock (slk_lk r)) ;;
  write_slk r (mk_sleeplock 0 0).

Definition acquiresleep `{WaitFuel} (r : slk_ref) : M kst unit :=
  acquire (slk_lk r) ;;
  while_loop wait_fuel tt (fun _ =>
    lk ← read_slk r;
    if negb (slk_locked lk =? 0) then sleep_r (slk_chan r) (slk_lk r) ;; mret (inl tt)
    else mret (inr tt)) ;;
  lk ← read_slk r;
  write_slk r (mk_sleeplock 1 (slk_pid lk)) ;;
  me ← cur_proc;
  p ← read_proc me;
  write_slk r (mk_sleeplock 1 (p_pid p)) ;;
  release (slk_lk r).

Definition releasesleep (r : slk_ref) : M kst unit :=
  acquire (slk_lk r) ;;
  lk ← read_slk r;
  write_slk r (mk_sleeplock 0 (slk_pid lk)) ;;
  write_slk r (mk_sleeplock 0 0) ;;
  wake_up (slk_chan r) ;;
  release (slk_lk r).

Definition holdingsleep (r : slk_ref) : M kst bool :=
  acquire (slk_lk r) ;;
  lk ← read_slk r;
  h ← (if slk_locked lk =? 0 then mret false else
       me ← cur_proc;
       p ← read_proc me;
       mret (slk_pid lk =? p_pid p));
  release (slk_lk r) ;;
  mret h.
