(* ===== verification/SleepSpec.v ===== *)
(** * What sleeping, waking and sleep locks promise: Sleep.v

    [wake_up] makes exactly the processes asleep on the chain runnable; [sleep] has the
    lock of its condition or that of the process until the process is marked, so that no
    waker passes it unseen, and has the lock of its condition again when it returns; a sleep lock has at most one owner, known by its pid. *)

From S2P Require Import Prelude Hart VmSystem Mem Kalloc State Critical Sleep.

Definition nprocs : nat := Z.to_nat STATIC_PROC_NUM.

Definition wake (chain : chan) (p : process) : process :=
  if decide (p_status p = SLEEP /\ p_chain p = chain)
  then set_p_chain ChNull (set_p_status RUNABLE p) else p.

(** All process locks are free. *)
Definition procs_free (h : hw) (L : list lock_id) : Prop :=
  forall i, (i < nprocs)%nat -> hw_locks h !! LkProc i = Some free_lock /\ LkProc i ∉ L.

Definition woken (n : nat) (chain : chan) (ps : list process) : list process :=
  map (wake chain) (take n ps) ++ drop n ps.

Lemma woken_lookup n chain ps i p :
  ps !! i = Some p -> woken n chain ps !! i = Some (if decide (i < n)%nat then wake chain p else p).
Proof.
  intros Hp. unfold woken. case_decide as Hi.
  - rewrite lookup_app_l, list_lookup_fmap.
    + by rewrite lookup_take_lt, Hp.
    + rewrite length_map, length_take. apply lookup_lt_Some in Hp. lia.
  - rewrite lookup_app_r; rewrite length_map, length_take; [|lia].
    rewrite lookup_drop. rewrite <- Hp. f_equal.
    apply lookup_lt_Some in Hp. lia.
Qed.

Lemma woken_S n chain ps p :
  ps !! n = Some p -> woken (S n) chain ps = <[n := wake chain p]> (woken n chain ps).
Proof.
  intros Hp. unfold woken. rewrite (take_S_r _ _ _ Hp), map_app. cbn [map].
  rewrite insert_app_r_alt by (rewrite length_map, length_take; apply lookup_lt_Some in Hp; lia).
  rewrite length_map, length_take_le by (apply lookup_lt_Some in Hp; lia).
  rewrite Nat.sub_diag, (drop_S _ _ _ Hp). cbn. by rewrite <- app_assoc.
Qed.

Lemma woken_all chain ps : woken (length ps) chain ps = map (wake chain) ps.
Proof. unfold woken. by rewrite firstn_all, drop_all, app_nil_r. Qed.

(** The body of [wake_up]'s loop on process [i]. *)
Definition wake_one (chain : chan) (i : nat) : M kst unit :=
  acquire (LkProc i) ;;
  p ← read_proc i;
  (if bool_decide (p_status p = SLEEP) && bool_decide (p_chain p = chain)
   then upd_proc i (set_p_status RUNABLE) ;; upd_proc i (set_p_chain ChNull)
   else mret tt) ;;
  release (LkProc i).

Section Wake.
Variable h : hw.
Hypothesis Hwf : hw_wf h.

Lemma wake_one_eq k L chain i p s :
  at_lvl h k L (k_hw s) -> NoDup L -> hw_locks h !! LkProc i = Some free_lock -> LkProc i ∉ L ->
  k_procs s !! i = Some p ->
  wake_one chain i s =
  Ret tt (set_k_hw (held_hw k L h) (set_k_procs (<[i := wake chain p]> (k_procs s)) s)).
Proof.
  intros Hs HND Hl Hn Hp. unfold wake_one.
  rret (acquire_lvl h Hwf k L (LkProc i) s Hs Hl Hn).
  set (s1 := set_k_hw _ s).
  assert (k_procs s1 !! i = Some p) as Hp1 by done.
  rret (read_proc_Ret i p s1 Hp1). unfold wake.
  destruct (bool_decide_reflect (p_status p = SLEEP)) as [Hst|Hst];
    [destruct (bool_decide_reflect (p_chain p = chain)) as [Hch|Hch]|]; cbn [andb].
  - rewrite decide_True by done.
    pose proof (upd_proc_Ret i p (set_p_status RUNABLE) s1 Hp1) as E1.
    set (s2 := set_k_procs _ s1) in E1.
    assert (k_procs s2 !! i = Some (set_p_status RUNABLE p)) as Hp2.
    { unfold s2; cbn [k_procs set_k_procs]. apply list_lookup_insert_eq. by eapply lookup_lt_Some. }
    pose proof (upd_proc_Ret i _ (set_p_chain ChNull) s2 Hp2) as E2.
    pose proof (bind_Ret _ (fun _ => upd_proc i (set_p_chain ChNull)) _ _ _ E1) as E. cbn beta in E.
    rewrite E2 in E. rret E.
    unfold s2; cbn [k_procs set_k_procs]. rewrite list_insert_insert_eq.
    apply (release_top h Hwf k L (LkProc i) (set_k_procs _ s) Hl Hn HND).
  - rewrite decide_False by tauto. rewrite list_insert_id by done.
    rewrite bind_mret. apply (release_top h Hwf k L (LkProc i) s Hl Hn HND).
  - rewrite decide_False by tauto. rewrite list_insert_id by done.
    rewrite bind_mret. apply (release_top h Hwf k L (LkProc i) s Hl Hn HND).
Qed.
Lemma wake_up_eq k L chain s :
  at_lvl h k L (k_hw s) -> NoDup L -> procs_free h L -> length (k_procs s) = nprocs ->
  wake_up chain s =
  Ret tt (set_k_hw (held_hw k L h) (set_k_procs (map (wake chain) (k_procs s)) s)).
Proof.
  intros Hs HND Hf Hlen.
  set (f := fun i : Z => if decide (i = 0) then s else
              set_k_hw (held_hw k L h) (set_k_procs (woken (Z.to_nat i) chain (k_procs s)) s)).
  assert (forall i, k_procs (f i) = woken (Z.to_nat i) chain (k_procs s)) as Hfp.
  { intros i. unfold f. case_decide; [subst|done]. done. }
  pose proof (for_each_eq nprocs 0 (fun i => wake_one chain (Z.to_nat i)) f) as E.
  change (wake_up chain s = Ret tt (set_k_hw (held_hw k L h)
            (set_k_procs (map (wake chain) (k_procs s)) s))).
  change (wake_up chain) with (for_each nprocs 0 (fun i => wake_one chain (Z.to_nat i))).
  change (for_each nprocs 0 (fun i => wake_one chain (Z.to_nat i)) (f 0) = Ret tt
            (set_k_hw (held_hw k L h) (set_k_procs (map (wake chain) (k_procs s)) s))).
  rewrite E.
  - f_equal. unfold f. rewrite decide_False by (unfold nprocs, STATIC_PROC_NUM; lia).
    by rewrite Z.add_0_l, Nat2Z.id, <- Hlen, woken_all.
  - intros i Hi. assert (Z.to_nat i < nprocs)%nat as Hin by lia.
    destruct (Hf _ Hin) as [Hl Hn].
    destruct (lookup_lt_is_Some_2 (k_procs s) (Z.to_nat i)) as [p Hp]; [lia|].
    assert (k_procs (f i) !! Z.to_nat i = Some p) as Hpf.
    { rewrite Hfp, (woken_lookup _ _ _ _ _ Hp). by rewrite decide_False by lia. }
    rewrite (wake_one_eq k L chain (Z.to_nat i) p (f i)); [|unfold f; case_decide; [done|by left]|done..].
    f_equal. rewrite Hfp. unfold f at 2. rewrite decide_False by lia.
    replace (Z.to_nat (i + 1)) with (S (Z.to_nat i)) by lia.
    rewrite (woken_S _ _ _ _ Hp). unfold f. by case_decide.
Qed.
End Wake.

(** [wake_up] makes runnable exactly the processes that sleep on the chain, and
    takes them off it: every other process, every lock and the rest of the kernel
    are as before, whatever locks (not the processes' own) the caller holds. *)
Theorem wake_up_spec h k L chain s :
  hw_wf h -> at_lvl h k L (k_hw s) -> NoDup L -> procs_free h L -> length (k_procs s) = nprocs ->
  exists s', wake_up chain s = Ret tt s' /\
    k_hw s' = held_hw k L h /\ set_k_hw (k_hw s) (set_k_procs (k_procs s) s') = s /\
    forall i p, k_procs s !! i = Some p ->
      if decide (p_status p = SLEEP /\ p_chain p = chain)
      then exists p', k_procs s' !! i = Some p' /\ p_status p' = RUNABLE /\ p_chain p' = ChNull /\
             set_p_status (p_status p) (set_p_chain (p_chain p) p') = p
      else k_procs s' !! i = Some p.
Proof.
  intros Hwf Hs HND Hf Hlen. eexists. split; [by eapply wake_up_eq|]. split_and!; [done| |].
  - by destruct s as [[] ].
  - intros i p Hp. cbn [k_procs set_k_procs set_k_hw set_k_km].
    rewrite list_lookup_fmap, Hp. cbn. unfold wake. case_decide; [|done].
    eexists. split; [done|]. by destruct p.
Qed.

(** ** Giving up the hart *)

(** [h] with the interrupt enable [v], 0 or [XSTATUS_SIE]. *)
Definition with_ie (v : Z) (h : hw) : hw :=
  mk_hw (hw_tp h) (Z.lor (Z.land (hw_sstatus h) (Z.lnot XSTATUS_SIE)) v) (hw_sie h)
        (hw_cpus h) (hw_locks h).
Definition ie_of (h : hw) : Z := Z.land (hw_sstatus h) XSTATUS_SIE.
Definition ie_value (v : Z) : Prop := v = 0 \/ v = XSTATUS_SIE.

(** The hart is not nested: interrupts are governed by this call alone. *)
Definition unnested (h : hw) : Prop := exists c, cur_cpu h = Some c /\ c_introff_n c = 0.

Lemma ie_of_value h : ie_value (ie_of h).
Proof.
  unfold ie_value, ie_of. change XSTATUS_SIE with (2 ^ 1). rewrite testbit_land_pow2 by lia.
  destruct (Z.testbit _ 1); auto.
Qed.

Lemma with_ie_bits v x :
  ie_value v ->
  Z.land (Z.lor (Z.land x (Z.lnot XSTATUS_SIE)) v) XSTATUS_SIE = v /\
  Z.land (Z.lor (Z.land x (Z.lnot XSTATUS_SIE)) v) (Z.lnot XSTATUS_SIE) = Z.land x (Z.lnot XSTATUS_SIE).
Proof.
  intros [->| ->].
  - rewrite Z.lor_0_r. split; [apply sie_cleared|apply sie_clear_twice].
  - rewrite !Z.land_lor_distr_l, sie_cleared, sie_clear_twice, Z.land_diag, Z.land_lnot_diag, Z.lor_0_r.
    done.
Qed.

Lemma with_ie_of v h : ie_value v -> ie_of (with_ie v h) = v.
Proof. intros Hv. apply (with_ie_bits v _ Hv). Qed.

Lemma with_ie_wf v h : unnested h -> hw_wf h -> hw_wf (with_ie v h).
Proof.
  intros (c & Hc & Hn) [Htp _]. split; [done|]. exists c. split; [done|]. lia.
Qed.

Lemma set_origin_held v l h :
  hw_wf h -> unnested h -> ie_value v ->
  set_origin_ie (hw_tp h) v (held_hw 0 [l] h) = Ret tt (held_hw 0 [l] (with_ie v h)).
Proof.
  intros Hwf (c & Hc & Hn) Hv. unfold set_origin_ie.
  rret (read_cpu_held h 0 [l] c Hc). unfold write_cpu.
  rret (read_cpu_held h 0 [l] c Hc). unfold modify. f_equal.
  unfold held_hw, nested, nest. cbn [length Nat.add].
  assert (cur_cpu (with_ie v h) = Some c) as -> by done. rewrite Hc, Hn.
  unfold set_locks, set_cpus, with_ie; cbn. rewrite list_insert_insert_eq.
  destruct (with_ie_bits v (hw_sstatus h) Hv) as [-> ->]. done.
Qed.

(** What [switch_to_scheduler] does when the process is scheduled again. *)
Definition resume (v : Z) : M kst unit := mycpu ← hwdo my_cpu; hwdo (set_origin_ie mycpu v).

Lemma my_cpu_at h k L s :
  hw_wf h -> (0 < k + length L)%nat ->
  hwdo my_cpu (set_k_hw (held_hw k L h) s) = Ret (hw_tp h) (set_k_hw (held_hw k L h) s).
Proof. intros Hwf Hn. apply hwdo_at. by apply cpu_id_held. Qed.

Lemma resume_eq h l v s :
  hw_wf h -> unnested h -> ie_value v ->
  resume v (set_k_hw (held_hw 0 [l] h) s) = Ret tt (set_k_hw (held_hw 0 [l] (with_ie v h)) s).
Proof.
  intros Hwf Hun Hv. unfold resume.
  rret (my_cpu_at h 0 [l] s Hwf ltac:(cbn; lia)).
  apply hwdo_at. by apply set_origin_held.
Qed.

Lemma switch_eq h l p s :
  hw_wf h -> unnested h -> running h p ->
  switch_to_scheduler (set_k_hw (held_hw 0 [l] h) s) =
  Switch (set_k_hw (held_hw 0 [l] (with_ie 0 h)) s)
         (fun s' => obind (Ret tt s') (fun _ => resume (ie_of h))).
Proof.
  intros Hwf (c & Hc & Hn) (c' & Hc' & Hp). unfold switch_to_scheduler.
  assert (hwdo my_proc (set_k_hw (held_hw 0 [l] h) s) = Ret (c_my_proc c') (set_k_hw (held_hw 0 [l] h) s)) as E.
  { apply hwdo_at. by apply my_proc_held. }
  rret E. rret (my_cpu_at h 0 [l] s Hwf ltac:(cbn; lia)).
  rret (eq_refl : gets (fun s => hw_sstatus (k_hw s)) (set_k_hw (held_hw 0 [l] h) s) =
                  Ret (hw_sstatus (held_hw 0 [l] h)) (set_k_hw (held_hw 0 [l] h) s)).
  rewrite (held_sie_off h Hwf 0 [l]) by (cbn; lia). cbn [negb Z.eqb].
  rret (hwdo_at (read_cpu (hw_tp h)) _ s _ _ (read_cpu_held h 0 [l] c Hc)).
  cbn [nest c_introff_n c_origin_ie]. rewrite Hn.
  change (negb (0 + Z.of_nat (0 + length [l]) =? 1)) with false. cbn beta iota. rewrite Z.eqb_refl.
  assert (unnested h) as Hun by (by exists c).
  rret (hwdo_at _ _ s _ _ (set_origin_held 0 l h Hwf Hun (or_introl eq_refl))).
  reflexivity.
Qed.

Definition asleep (chain : chan) (p : process) : process := set_p_chain chain (set_p_status SLEEP p).

(** The end of [sleep], once the process holds its own lock. *)
Definition sleep_tail (lock : lock_id) (me : nat) (chain : chan) : M kst unit :=
  upd_proc me (set_p_status SLEEP) ;;
  upd_proc me (set_p_chain chain) ;;
  switch_to_scheduler ;;
  (if bool_decide (lock = LkProc me) then mret tt
   else release (LkProc me) ;; acquire lock).

(** Once the process holds its own lock it marks itself and goes to the scheduler. *)
Lemma sleep_mark_eq h me chain p s (rest : M kst unit) :
  hw_wf h -> unnested h -> running h me -> k_procs s !! me = Some p ->
  (upd_proc me (set_p_status SLEEP) ;; upd_proc me (set_p_chain chain) ;; switch_to_scheduler ;; rest)
    (set_k_hw (held_hw 0 [LkProc me] h) s) =
  Switch (set_k_hw (held_hw 0 [LkProc me] (with_ie 0 h)) (set_k_procs (<[me := asleep chain p]> (k_procs s)) s))
    (fun s' => obind (obind (Ret tt s') (fun _ => resume (ie_of h))) (fun _ => rest)).
Proof.
  intros Hwf Hun Hrun Hp. set (s0 := set_k_hw (held_hw 0 [LkProc me] h) s).
  rewrite (bind_Ret _ _ _ _ _ (upd_proc_Ret me p (set_p_status SLEEP) s0 Hp)).
  erewrite bind_Ret.
  2:{ apply upd_proc_Ret. cbn [k_procs set_k_procs]. apply list_lookup_insert_eq. by eapply lookup_lt_Some. }
  cbn [k_procs set_k_procs]. rewrite list_insert_insert_eq.
  apply bind_Switch. apply (switch_eq h (LkProc me) me (set_k_procs _ s) Hwf Hun Hrun).
Qed.

Lemma sleep_tail_eq h me lock chain p s :
  hw_wf h -> unnested h -> running h me -> k_procs s !! me = Some p ->
  exists k, sleep_tail lock me chain (set_k_hw (held_hw 0 [LkProc me] h) s) =
    Switch (set_k_hw (held_hw 0 [LkProc me] (with_ie 0 h))
              (set_k_procs (<[me := asleep chain p]> (k_procs s)) s)) k /\
  forall h2 s2, hw_wf h2 -> unnested h2 -> hw_locks h2 !! lock = Some free_lock ->
    hw_locks h2 !! LkProc me = Some free_lock ->
    k (set_k_hw (held_hw 0 [LkProc me] h2) s2) =
    Ret tt (set_k_hw (held_hw 0 [lock] (with_ie (ie_of h) h2)) s2).
Proof.
  intros Hwf Hun Hrun Hp. eexists. split.
  - by apply sleep_mark_eq.
  - intros h2 s2 Hwf2 Hun2 Hl Hm. cbn [obind].
    assert (hw_wf (with_ie (ie_of h) h2)) as Hwf3 by by apply with_ie_wf.
    rewrite (resume_eq h2 (LkProc me) (ie_of h) s2 Hwf2 Hun2 (ie_of_value h)). cbn [obind].
    destruct (bool_decide_reflect (lock = LkProc me)) as [->|Hne]; [done|].
    rret (release_top _ Hwf3 0 [] (LkProc me) s2 Hm ltac:(set_solver) ltac:(constructor)).
    rewrite (acquire_at _ Hwf3 0 [] lock s2) by (done || set_solver). done.
Qed.

(** [sleep] as one step to the scheduler and one back. *)
Lemma sleep_eq h me lock chain p s :
  hw_wf h -> unnested h -> running h me -> k_hw s = held_hw 0 [lock] h ->
  hw_locks h !! lock = Some free_lock -> hw_locks h !! LkProc me = Some free_lock ->
  k_procs s !! me = Some p -> p_chain p = ChNull ->
  exists k, sleep lock chain s = Switch (set_k_hw (held_hw 0 [LkProc me] (with_ie 0 h))
              (set_k_procs (<[me := asleep chain p]> (k_procs s)) s)) k /\
    forall h2 s2, hw_wf h2 -> unnested h2 -> hw_locks h2 !! lock = Some free_lock ->
      hw_locks h2 !! LkProc me = Some free_lock -> k_hw s2 = held_hw 0 [LkProc me] h2 ->
      k s2 = Ret tt (set_k_hw (held_hw 0 [lock] (with_ie (ie_of h) h2)) s2).
Proof.
  intros Hwf Hun Hrun Hs Hl Hm Hp Hch.
  destruct (sleep_tail_eq h me lock chain p s Hwf Hun Hrun Hp) as (k & E & Hk).
  exists k. split.
  2:{ intros h2 s2 Hwf2 Hun2 Hl2 Hm2 Hs2. rewrite <- (at_hw_id s2) at 1. rewrite Hs2. by apply Hk. }
  rewrite <- (at_hw_id s) at 1. rewrite Hs. unfold sleep, sleep_with.
  rret (cur_proc_at h Hwf 0 [lock] me s Hrun).
  rret (read_proc_Ret me p (set_k_hw (held_hw 0 [lock] h) s) Hp).
  rewrite Hch, bool_decide_true by done. cbn [negb].
  destruct (bool_decide_reflect (lock = LkProc me)) as [->|Hne].
  - rewrite bind_mret. revert E. unfold sleep_tail. rewrite bool_decide_true by done. done.
  - rewrite (bind_Ret _ _ _ tt (set_k_hw (held_hw 0 [LkProc me] h) s)).
    + revert E. unfold sleep_tail. by rewrite bool_decide_false by done.
    + rret (acquire_at h Hwf 0 [lock] (LkProc me) s Hm ltac:(set_solver)).
      rewrite (release_at h Hwf 0 [LkProc me; lock] lock s Hl)
        by (repeat constructor; set_solver).
      rewrite remove_lock_cons_ne, remove_lock_cons_eq by done. done.
Qed.

(** *** Wakers on other harts

    [stops n o]: the states in which [o] lets other harts act, up to [n], when they leave
    the machine as it is. *)
Fixpoint stops {A} (n : nat) (o : outcome kst A) : list kst :=
  match n, o with
  | S n', Switch s k => s :: stops n' (k s)
  | _, _ => []
  end.

(** An operation with a stop before it and after it. *)
Definition stopping (m : M kst unit) : M kst unit := swtch ;; m ;; swtch.

(** [sleep] where other harts act around every operation on a lock. *)
Definition sleep_stopping : lock_id -> chan -> M kst unit :=
  sleep_with (fun l => stopping (acquire l)) (fun l => stopping (release l)).

(** The machine as the hart [b] sees it, with its own registers. *)
Definition hart_view (b sst sie : Z) (x : hw) : hw := mk_hw b sst sie (hw_cpus x) (hw_locks x).
Definition seen_from (b sst sie : Z) (s : kst) : kst := set_k_hw (hart_view b sst sie (k_hw s)) s.

(** Somebody makes the condition true: [f] is the change, under the condition's lock. *)
Definition waker (lock : lock_id) (f : kst -> kst) (chain : chan) : M kst unit :=
  acquire lock ;; modify f ;; wake_up chain ;; release lock.

Lemma stops_assoc {A B C} n (o : outcome kst A) (g : A -> M kst B) (f : B -> M kst C) :
  stops n (obind (obind o g) f) = stops n (obind o (fun a s => obind (g a s) f)).
Proof.
  revert o. induction n as [|n IH]; intros o; [done|]. destruct o as [| | | | |s k]; try done.
  cbn [obind stops]. f_equal. apply IH.
Qed.

(** The two stops of an operation that returns. *)
Lemma stops_stopping {A} n (m : M kst unit) (f : unit -> M kst A) s s' :
  m s = Ret tt s' -> stops (S (S n)) ((stopping m ≫= f) s) = s :: s' :: stops n (f tt s').
Proof.
  intros E. change ((stopping m ≫= f) s) with (Switch s (fun x => obind (obind (Ret tt x) (fun _ => m ≫= (fun _ => swtch))) f)).
  cbn [stops obind]. f_equal. rewrite (bind_Ret _ _ _ _ _ E). reflexivity.
Qed.

Lemma for_each_spins {St} j n lo (body : Z -> M St unit) (f : Z -> St) : (j < n)%nat ->
  (forall i, lo <= i < lo + Z.of_nat j -> body i (f i) = Ret tt (f (i + 1))) ->
  body (lo + Z.of_nat j) (f (lo + Z.of_nat j)) = Spin -> for_each n lo body (f lo) = Spin.
Proof.
  revert n lo. induction j as [|j IH]; intros [|n] lo Hj Hbody Hspin; try lia; cbn [for_each].
  - rewrite Z.add_0_r in Hspin. by rewrite bind_eq, Hspin.
  - rewrite (bind_Ret _ _ _ _ _ (Hbody lo ltac:(lia))). apply IH; [lia|intros; apply Hbody; lia|].
    by replace (lo + 1 + Z.of_nat j) with (lo + Z.of_nat (S j)) by lia.
Qed.

Section Waker.
Context (h : hw) (Hwf : hw_wf h) (me : nat) (a : Z) (Ha : a <> hw_tp h).

Lemma acquire_waits l s v : at_lvl h 0 [] (k_hw s) -> hw_locks h !! l = Some (mk_spin_lock 1 v) -> v <> hw_tp h ->
  acquire l s = Spin.
Proof.
  intros [Hs|(_ & _ & Hs)] Hl Hv; unfold acquire, hwdo, zoom; change (lget hwL s) with (k_hw s); rewrite Hs.
  - by rewrite (acquire_other _ l v (held_wf h Hwf 0 []) Hl) by (rewrite held_tp; done).
  - by rewrite (acquire_other h l v Hwf Hl).
Qed.

(** [wake_up] waits at a process whose lock another hart holds. *)
Lemma wake_up_waits lock chain s :
  k_hw s = held_hw 0 [lock] h -> (forall i, lock <> LkProc i) -> (me < nprocs)%nat -> length (k_procs s) = nprocs ->
  (forall i, i <> me -> (i < nprocs)%nat -> hw_locks h !! LkProc i = Some free_lock) ->
  hw_locks h !! LkProc me = Some (mk_spin_lock 1 a) -> wake_up chain s = Spin.
Proof.
  intros Hs Hlk Hme Hlen Hf Hm.
  set (f := fun i : Z => set_k_procs (woken (Z.to_nat i) chain (k_procs s)) s).
  assert (f 0 = s) as E0 by (unfold f; by destruct s).
  rewrite <- E0. apply (for_each_spins me nprocs 0 (fun i => wake_one chain (Z.to_nat i)) f); [done| |].
  - intros i Hi. assert (Z.to_nat i <> me) as Hne by lia.
    destruct (lookup_lt_is_Some_2 (k_procs s) (Z.to_nat i)) as [p Hp]; [lia|].
    rewrite (wake_one_eq h Hwf 0 [lock] chain (Z.to_nat i) p (f i)); [|by left|apply NoDup_singleton|apply Hf; lia|set_solver|].
    + f_equal. unfold f. replace (Z.to_nat (i + 1)) with (S (Z.to_nat i)) by lia.
      cbn [k_procs set_k_procs]. rewrite (woken_S _ _ _ _ Hp), <- Hs. by destruct s as [[] ].
    + unfold f. cbn [k_procs set_k_procs]. rewrite (woken_lookup _ _ _ _ _ Hp). by rewrite decide_False by lia.
  - rewrite Z.add_0_l, Nat2Z.id. unfold wake_one. rewrite bind_eq. set (s1 := f (Z.of_nat me)).
    assert (acquire (LkProc me) s1 = Spin) as ->; [|done].
    unfold acquire, hwdo, zoom. change (lget hwL s1) with (k_hw s). rewrite Hs.
    rewrite (acquire_other _ (LkProc me) a (held_wf h Hwf 0 [lock])); [done| |by rewrite held_tp].
    cbn. by rewrite lookup_insert_ne.
Qed.
End Waker.

(** The change of a waker leaves the harts and the processes alone. *)
Definition keeps_procs (f : kst -> kst) : Prop := forall s, k_hw (f s) = k_hw s /\ k_procs (f s) = k_procs s.

Section Views.
Context (h : hw) (Hwf : hw_wf h) (b sst sie : Z) (Hb : b <> hw_tp h) (Hv : hw_wf (hart_view b sst sie h)).
Context (lock : lock_id) (Hlk : forall i, lock <> LkProc i) (Hlock : hw_locks h !! lock = Some free_lock).
Context (f : kst -> kst) (Hf : keeps_procs f) (chain : chan).

Lemma view_wf k L : hw_wf (hart_view b sst sie (held_hw k L h)).
Proof.
  destruct Hv as [Hr (c & Hc & Hn)]. split; [done|]. exists c. split; [|done]. rewrite <- Hc.
  unfold cur_cpu, hart_view, held_hw, nested. cbn [hw_cpus hw_tp set_locks].
  destruct (cur_cpu h) as [c'|]; [|done]. cbn [hw_cpus]. apply list_lookup_insert_ne.
  destruct Hwf as [Ht _]. cbn in Hr. lia.
Qed.

Lemma view_locks k L l : hw_locks (hart_view b sst sie (held_hw k L h)) !! l = lock_all (hw_tp h) L (hw_locks h) !! l.
Proof. done. Qed.

(** While this hart has the condition's lock. *)
Lemma waker_waits_lock L s : k_hw s = held_hw 0 L h -> lock ∈ L -> waker lock f chain (seen_from b sst sie s) = Spin.
Proof.
  intros Hs Hin. unfold waker. rewrite bind_eq. unfold seen_from. rewrite Hs.
  rewrite (acquire_waits _ (view_wf 0 L) lock _ (hw_tp h)); [done|by right| |done].
  rewrite view_locks. by apply lock_all_in.
Qed.

(** The waker has the condition's lock and goes on. *)
Lemma waker_acquires L s : k_hw s = held_hw 0 L h -> lock ∉ L ->
  exists s1, waker lock f chain (seen_from b sst sie s) = (wake_up chain ;; release lock) s1 /\
    k_hw s1 = held_hw 0 [lock] (hart_view b sst sie (k_hw s)) /\ k_procs s1 = k_procs s.
Proof.
  intros Hs Hn. set (s0 := set_k_hw (held_hw 0 [lock] (hart_view b sst sie (k_hw s))) (seen_from b sst sie s)).
  exists (f s0). destruct (Hf s0) as [E1 E2]. split; [|by rewrite E1, E2].
  unfold waker. rewrite (bind_Ret _ _ _ tt s0); [done|].
  apply (acquire_lvl (hart_view b sst sie (k_hw s))); [rewrite Hs; apply view_wf|by right| |set_solver].
  rewrite Hs, view_locks. by rewrite lock_all_notin.
Qed.

(** While it has the process's lock. *)
Lemma waker_waits_proc me s : k_hw s = held_hw 0 [LkProc me] h -> procs_free h [] -> (me < nprocs)%nat ->
  length (k_procs s) = nprocs -> waker lock f chain (seen_from b sst sie s) = Spin.
Proof.
  intros Hs Hpf Hme Hlen. destruct (waker_acquires [LkProc me] s Hs) as (s1 & -> & Hs1 & Hps); [set_solver|].
  rewrite bind_eq. rewrite Hs in Hs1. rewrite (wake_up_waits _ (view_wf 0 [LkProc me]) me (hw_tp h) (not_eq_sym Hb) lock chain s1 Hs1 Hlk Hme); [done|by rewrite Hps| |].
  - intros i Hi Hl. rewrite view_locks, lock_all_notin by set_solver. apply Hpf, Hl.
  - rewrite view_locks. by apply lock_all_in, list_elem_of_singleton.
Qed.

(** When nothing is held the waker runs through. *)
Lemma waker_runs s : k_hw s = held_hw 0 [] h -> procs_free h [] -> length (k_procs s) = nprocs ->
  exists s', waker lock f chain (seen_from b sst sie s) = Ret tt s' /\ k_procs s' = map (wake chain) (k_procs s).
Proof.
  intros Hs Hpf Hlen. destruct (waker_acquires [] s Hs) as (s1 & -> & Hs1 & Hps); [set_solver|].
  rewrite Hs in Hs1. rewrite <- Hps in Hlen |- *.
  rret (wake_up_eq _ (view_wf 0 []) 0 [lock] chain s1 (or_introl Hs1) (NoDup_singleton _)
    ltac:(intros i Hi; split; [exact (proj1 (Hpf i Hi))|set_solver]) Hlen).
  eexists. split; [apply (release_top _ (view_wf 0 []) 0 [] lock (set_k_procs _ s1)); [done|set_solver|constructor]|]. done.
Qed.
End Views.

(** Where [sleep] can be stopped on its way to the scheduler. *)
Lemma sleep_stops h me lock chain p s :
  hw_wf h -> unnested h -> running h me -> k_hw s = held_hw 0 [lock] h ->
  hw_locks h !! lock = Some free_lock -> hw_locks h !! LkProc me = Some free_lock ->
  k_procs s !! me = Some p -> p_chain p = ChNull ->
  let s1 := set_k_hw (held_hw 0 [LkProc me] (with_ie 0 h)) (set_k_procs (<[me := asleep chain p]> (k_procs s)) s) in
  let sL := set_k_hw (held_hw 0 [LkProc me; lock] h) s in
  if decide (lock = LkProc me) then stops 1 (sleep_stopping lock chain s) = [s1]
  else stops 5 (sleep_stopping lock chain s) = [s; sL; sL; set_k_hw (held_hw 0 [LkProc me] h) s; s1].
Proof.
  intros Hwf Hun Hrun Hs Hl Hm Hp Hch s1 sL. pose proof (sleep_mark_eq h me chain p s) as Emark.
  assert (cur_proc s = Ret me s) as E0.
  { rewrite <- (at_hw_id s), Hs. apply (cur_proc_at h Hwf 0 [lock] me s Hrun). }
  unfold sleep_stopping, sleep_with. rret E0. rret (read_proc_Ret me p s Hp).
  rewrite Hch, bool_decide_true by done. cbn [negb]. case_decide as Hne.
  - rewrite bool_decide_true by done. rewrite bind_mret, <- (at_hw_id s) at 1. rewrite Hs, Hne.
    by rewrite Emark.
  - rewrite bool_decide_false by done.
    assert (acquire (LkProc me) s = Ret tt sL) as E1.
    { rewrite <- (at_hw_id s) at 1. rewrite Hs. apply (acquire_at h Hwf 0 [lock] (LkProc me) s Hm). set_solver. }
    assert (release lock sL = Ret tt (set_k_hw (held_hw 0 [LkProc me] h) s)) as E2.
    { unfold sL. rewrite (release_at h Hwf 0 [LkProc me; lock] lock s Hl) by (repeat constructor; set_solver).
      by rewrite remove_lock_cons_ne, remove_lock_cons_eq. }
    rewrite bind_eq, bind_eq, stops_assoc, <- bind_eq, (stops_stopping _ _ _ _ _ E1), <- bind_eq, (stops_stopping _ _ _ _ _ E2).
    by rewrite Emark.
Qed.

(** C14: [sleep] gives up its condition's lock without losing a wake-up.  When the hart
    switches to the scheduler the process is marked asleep on the chain and the only lock
    held is the process's own, with the interrupt enable saved; whenever it is scheduled
    again, on whichever hart, [sleep] returns holding exactly the condition's lock, the
    saved interrupt enable restored.  [pre] are the states in which other harts can act
    before the switch, around every operation of [sleep] on a lock: in each of them a
    process on another hart that makes the condition true and calls [wake_up] has to wait
    (for the condition's lock, or for the process's), so none passes the process before
    it is marked; and when the scheduler has released the process's lock the waker runs
    through and the process is runnable. *)
Theorem sleep_spec h me lock chain p s :
  hw_wf h -> unnested h -> running h me -> k_hw s = held_hw 0 [lock] h ->
  hw_locks h !! lock = Some free_lock -> hw_locks h !! LkProc me = Some free_lock ->
  k_procs s !! me = Some p -> p_chain p = ChNull ->
  exists s1 k, sleep lock chain s = Switch s1 k /\
    k_hw s1 = held_hw 0 [LkProc me] (with_ie 0 h) /\
    s1 = set_k_hw (k_hw s1) (set_k_procs (<[me := asleep chain p]> (k_procs s)) s) /\
    (forall h2 s2, hw_wf h2 -> unnested h2 -> hw_locks h2 !! lock = Some free_lock ->
      hw_locks h2 !! LkProc me = Some free_lock -> k_hw s2 = held_hw 0 [LkProc me] h2 ->
      exists h3 s3, k s2 = Ret tt s3 /\ k_hw s3 = held_hw 0 [lock] h3 /\ ie_of h3 = ie_of h /\
        hw_locks h3 = hw_locks h2 /\ set_k_hw (k_hw s2) s3 = s2) /\
    exists pre, stops (S (length pre)) (sleep_stopping lock chain s) = pre ++ [s1] /\
      forall b sst sie f, b <> hw_tp h -> hw_wf (hart_view b sst sie h) -> keeps_procs f ->
        (forall i, lock <> LkProc i) -> procs_free h [] -> length (k_procs s) = nprocs ->
        (forall u, u ∈ pre -> waker lock f chain (seen_from b sst sie u) = Spin) /\
        exists s2 s3, release (LkProc me) s1 = Ret tt s2 /\
          waker lock f chain (seen_from b sst sie s2) = Ret tt s3 /\
          k_procs s3 !! me = Some (set_p_chain ChNull (set_p_status RUNABLE p)).
Proof.
  intros Hwf Hun Hrun Hs Hl Hm Hp Hch.
  destruct (sleep_eq h me lock chain p s Hwf Hun Hrun Hs Hl Hm Hp Hch) as (k & E & Hk).
  pose proof (sleep_stops h me lock chain p s Hwf Hun Hrun Hs Hl Hm Hp Hch) as Est. cbv zeta in Est.
  eexists _, k. split; [exact E|]. split; [done|]. split; [done|]. split.
  - intros h2 s2 Hwf2 Hun2 Hl2 Hm2 Hs2. exists (with_ie (ie_of h) h2). eexists.
    split; [by apply (Hk h2)|]. split; [done|]. split; [apply with_ie_of, ie_of_value|].
    split; [done|]. by destruct s2 as [[] ].
  - case_decide as Hne; [exists []; split; [exact Est|]; intros b sst sie f _ _ _ Hlk; by destruct (Hlk me)|].
    exists [s; set_k_hw (held_hw 0 [LkProc me; lock] h) s; set_k_hw (held_hw 0 [LkProc me; lock] h) s; set_k_hw (held_hw 0 [LkProc me] h) s].
    split; [exact Est|]. intros b sst sie f Hb Hv Hf Hlk Hpf Hlen. split.
    + assert (me < nprocs)%nat as Hme by (rewrite <- Hlen; by eapply lookup_lt_Some).
      assert (forall L u, k_hw u = held_hw 0 L h -> lock ∈ L -> waker lock f chain (seen_from b sst sie u) = Spin) as HL
        by exact (waker_waits_lock h Hwf b sst sie Hb Hv lock f chain).
      apply Forall_forall. repeat apply Forall_cons_2; try by apply Forall_nil.
      * by apply (HL [lock]); [|set_solver].
      * by apply (HL [LkProc me; lock]); [|set_solver].
      * by apply (HL [LkProc me; lock]); [|set_solver].
      * by apply (waker_waits_proc h Hwf b sst sie Hb Hv lock Hlk Hl f Hf chain me).
    + eexists. pose proof (with_ie_wf 0 h Hun Hwf) as Hwf0.
      destruct (waker_runs (with_ie 0 h) Hwf0 b sst sie Hb Hv lock Hlk Hl f Hf chain
        (set_k_hw (held_hw 0 [] (with_ie 0 h)) (set_k_procs (<[me := asleep chain p]> (k_procs s)) s))) as (s3 & E3 & Hps);
        [done|done|cbn; by rewrite length_insert|].
      exists s3. split; [|split; [exact E3|]].
      * apply (release_top (with_ie 0 h) Hwf0 0 [] (LkProc me) (set_k_procs _ s)); [done|set_solver|constructor].
      * rewrite Hps. cbn. rewrite list_lookup_fmap, list_lookup_insert_eq by (by eapply lookup_lt_Some).
        cbn. unfold wake. rewrite decide_True by done. by destruct p.
Qed.

(** ** Sleep locks *)

Definition get_slk (r : slk_ref) (s : kst) : option sleeplock :=
  match r with SlkBuf i => b_lock <$> k_bufs s !! i | SlkInode i => i_lock <$> k_inodes s !! i end.
Definition put_slk (r : slk_ref) (v : sleeplock) (s : kst) : kst :=
  match r with
  | SlkBuf i => set_k_bufs (alter (set_b_lock v) i (k_bufs s)) s
  | SlkInode i => set_k_inodes (alter (set_i_lock v) i (k_inodes s)) s
  end.

Lemma read_slk_Ret r v s : get_slk r s = Some v -> read_slk r s = Ret v s.
Proof.
  destruct r as [i|i]; cbn [get_slk read_slk]; intros (x & Hx & ->)%fmap_Some.
  - by rret (read_buf_Ret i x s Hx).
  - by rret (read_inode_Ret i x s Hx).
Qed.

Lemma write_slk_Ret r v w s : get_slk r s = Some v -> write_slk r w s = Ret tt (put_slk r w s).
Proof.
  destruct r as [i|i]; cbn [get_slk write_slk put_slk]; intros (x & Hx & _)%fmap_Some.
  - rewrite (upd_buf_Ret i x _ s Hx). by rewrite (alter_at _ _ _ _ Hx).
  - rewrite (upd_inode_Ret i x _ s Hx). by rewrite (alter_at _ _ _ _ Hx).
Qed.

Lemma get_put_slk r v w s : get_slk r s = Some v -> get_slk r (put_slk r w s) = Some w.
Proof.
  destruct r as [i|i]; cbn [get_slk put_slk k_bufs k_inodes set_k_bufs set_k_inodes];
    intros (x & Hx & _)%fmap_Some; by rewrite list_lookup_alter, decide_True, Hx.
Qed.

Lemma put_put_slk r v w s : put_slk r v (put_slk r w s) = put_slk r v s.
Proof.
  destruct r as [i|i]; cbn [put_slk k_bufs k_inodes set_k_bufs set_k_inodes];
    rewrite list_alter_alter_eq; done.
Qed.

Lemma put_slk_hw r v h s : put_slk r v (set_k_hw h s) = set_k_hw h (put_slk r v s).
Proof. by destruct r. Qed.

Lemma get_slk_hw r h s : get_slk r (set_k_hw h s) = get_slk r s.
Proof. by destruct r. Qed.

Lemma get_slk_set_procs r ps s : get_slk r (set_k_procs ps s) = get_slk r s.
Proof. by destruct r. Qed.

Lemma put_slk_set_procs r v ps s : put_slk r v (set_k_procs ps s) = set_k_procs ps (put_slk r v s).
Proof. by destruct r. Qed.

Lemma put_get_slk r v s : get_slk r s = Some v -> put_slk r v s = s.
Proof.
  destruct r as [i|i]; cbn [get_slk put_slk]; intros (x & Hx & ->)%fmap_Some;
    rewrite (alter_at _ _ _ _ Hx), list_insert_id by (rewrite Hx; by destruct x);
    by destruct s.
Qed.

Lemma put_slk_procs r v s : k_procs (put_slk r v s) = k_procs s.
Proof. by destruct r. Qed.

Lemma while_once `{WaitFuel} {A R} (a : A) (body : A -> M kst (A + R)) s v s' :
  body a s = Ret (inr v) s' -> while_loop wait_fuel a body s = Ret v s'.
Proof.
  intros E. pose proof wait_fuel_pos. destruct wait_fuel as [|n]; [lia|]. cbn [while_loop].
  by rewrite (bind_Ret _ _ _ _ _ E).
Qed.

Lemma slk_lk_proc r i : slk_lk r <> LkProc i.
Proof. by destruct r. Qed.

Section SleepLock.
Context `{WaitFuel}.
Variables (h : hw) (me : nat) (p : process) (k : nat) (L : list lock_id) (r : slk_ref) (s : kst).
Hypothesis Hwf : hw_wf h.
Hypothesis Hrun : running h me.
Hypothesis Hs : at_lvl h k L (k_hw s).
Hypothesis HND : NoDup L.
Hypothesis Hl : hw_locks h !! slk_lk r = Some free_lock.
Hypothesis Hn : slk_lk r ∉ L.
Hypothesis Hp : k_procs s !! me = Some p.

Lemma holdingsleep_eq v :
  get_slk r s = Some v ->
  holdingsleep r s =
  Ret (negb (slk_locked v =? 0) && (slk_pid v =? p_pid p)) (set_k_hw (held_hw k L h) s).
Proof.
  intros Hv. unfold holdingsleep. rret (acquire_lvl h Hwf k L (slk_lk r) s Hs Hl Hn).
  set (s1 := set_k_hw _ s). assert (get_slk r s1 = Some v) as Hv1 by (unfold s1; by rewrite get_slk_hw).
  rret (read_slk_Ret r v s1 Hv1).
  destruct (Z.eqb_spec (slk_locked v) 0) as [E|E]; cbn [negb andb].
  - rewrite bind_mret. rret (release_top h Hwf k L (slk_lk r) s Hl Hn HND). done.
  - assert ((me ← cur_proc; p ← read_proc me; mret (slk_pid v =? p_pid p)) s1 =
            Ret (slk_pid v =? p_pid p) s1) as E1.
    { rret (cur_proc_at h Hwf k (slk_lk r :: L) me s Hrun).
      by rret (read_proc_Ret me p s1 Hp). }
    rret E1. rret (release_top h Hwf k L (slk_lk r) s Hl Hn HND). done.
Qed.

Lemma acquiresleep_eq v :
  get_slk r s = Some v -> slk_locked v = 0 ->
  acquiresleep r s =
  Ret tt (set_k_hw (held_hw k L h) (put_slk r (mk_sleeplock 1 (p_pid p)) s)).
Proof.
  intros Hv H0. unfold acquiresleep. rret (acquire_lvl h Hwf k L (slk_lk r) s Hs Hl Hn).
  set (s1 := set_k_hw _ s). assert (get_slk r s1 = Some v) as Hv1 by (unfold s1; by rewrite get_slk_hw).
  erewrite bind_Ret.
  2:{ apply while_once. rret (read_slk_Ret r v s1 Hv1). rewrite H0. reflexivity. }
  rret (read_slk_Ret r v s1 Hv1). rret (write_slk_Ret r v (mk_sleeplock 1 (slk_pid v)) s1 Hv1).
  unfold s1 at 1. rewrite put_slk_hw.
  rret (cur_proc_at h Hwf k (slk_lk r :: L) me (put_slk r (mk_sleeplock 1 (slk_pid v)) s) Hrun).
  set (s2 := set_k_hw _ (put_slk _ _ s)).
  assert (k_procs s2 !! me = Some p) as Hp2.
  { unfold s2. cbn [k_procs set_k_hw set_k_km]. by rewrite put_slk_procs. }
  rret (read_proc_Ret me p s2 Hp2).
  assert (get_slk r s2 = Some (mk_sleeplock 1 (slk_pid v))) as Hv2.
  { unfold s2. rewrite get_slk_hw. by apply (get_put_slk r v). }
  rret (write_slk_Ret r _ (mk_sleeplock 1 (p_pid p)) s2 Hv2).
  unfold s2. rewrite put_slk_hw, put_put_slk.
  apply (release_top h Hwf k L (slk_lk r) _ Hl Hn HND).
Qed.

Lemma releasesleep_eq v :
  get_slk r s = Some v -> procs_free h L -> length (k_procs s) = nprocs ->
  releasesleep r s =
  Ret tt (set_k_hw (held_hw k L h) (set_k_procs (map (wake (slk_chan r)) (k_procs s))
            (put_slk r (mk_sleeplock 0 0) s))).
Proof.
  intros Hv Hf Hlen. unfold releasesleep. rret (acquire_lvl h Hwf k L (slk_lk r) s Hs Hl Hn).
  set (s1 := set_k_hw _ s). assert (get_slk r s1 = Some v) as Hv1 by (unfold s1; by rewrite get_slk_hw).
  rret (read_slk_Ret r v s1 Hv1). rret (write_slk_Ret r v (mk_sleeplock 0 (slk_pid v)) s1 Hv1).
  assert (get_slk r (put_slk r (mk_sleeplock 0 (slk_pid v)) s1) = Some (mk_sleeplock 0 (slk_pid v))) as Hv2
    by by apply (get_put_slk r v).
  rret (write_slk_Ret r _ (mk_sleeplock 0 0) _ Hv2). rewrite put_put_slk. unfold s1. rewrite put_slk_hw.
  set (s2 := put_slk r (mk_sleeplock 0 0) s).
  assert (procs_free h (slk_lk r :: L)) as Hf2.
  { intros i Hi. destruct (Hf i Hi) as [H1 H2]. split; [done|].
    apply not_elem_of_cons. split; [|done]. apply not_eq_sym, slk_lk_proc. }
  assert (length (k_procs s2) = nprocs) as Hlen2 by (unfold s2; by rewrite put_slk_procs).
  pose proof (wake_up_eq h Hwf k (slk_lk r :: L) (slk_chan r) (set_k_hw (held_hw k (slk_lk r :: L) h) s2)
    (at_lvl_held h k _) ltac:(by constructor) Hf2 Hlen2) as E.
  rret E.
  change (k_procs (set_k_hw (held_hw k (slk_lk r :: L) h) s2)) with (k_procs s2).
  unfold s2 at 1. rewrite put_slk_procs.
  apply (release_top h Hwf k L (slk_lk r) (set_k_procs _ s2) Hl Hn HND).
Qed.
End SleepLock.

Lemma while_switch `{WaitFuel} {A R} (a : A) (body : A -> M kst (A + R)) s s1 k :
  body a s = Switch s1 k -> exists k', while_loop wait_fuel a body s = Switch s1 k'.
Proof.
  intros E. pose proof wait_fuel_pos. destruct wait_fuel as [|n]; [lia|]. cbn [while_loop].
  rewrite (bind_Switch _ _ _ _ _ E). by eexists.
Qed.

(** [acquiresleep] on a free sleep lock takes it for the running process, which
    then (and no process with another pid) passes [holdingsleep]; on a taken one it
    puts the process to sleep on the lock, with the lock's own spin lock given
    back and nothing else changed. *)
Theorem acquiresleep_spec `{WaitFuel} h me p r v s :
  hw_wf h -> unnested h -> running h me -> at_lvl h 0 [] (k_hw s) ->
  hw_locks h !! slk_lk r = Some free_lock -> hw_locks h !! LkProc me = Some free_lock ->
  k_procs s !! me = Some p -> p_chain p = ChNull -> get_slk r s = Some v ->
  if slk_locked v =? 0 then
    exists s', acquiresleep r s = Ret tt s' /\ s' = set_k_hw (settle h) (put_slk r (mk_sleeplock 1 (p_pid p)) s) /\
      holdingsleep r s' = Ret true s' /\
      forall h2 me2 p2 s2, hw_wf h2 -> running h2 me2 -> k_hw s2 = h2 ->
        hw_locks h2 !! slk_lk r = Some free_lock -> get_slk r s2 = get_slk r s' ->
        k_procs s2 !! me2 = Some p2 -> p_pid p2 <> p_pid p ->
        holdingsleep r s2 = Ret false (set_k_hw (settle h2) s2)
  else
    exists s1 k, acquiresleep r s = Switch s1 k /\
      s1 = set_k_hw (held_hw 0 [LkProc me] (with_ie 0 h))
             (set_k_procs (<[me := asleep (slk_chan r) p]> (k_procs s)) s).
Proof.
  intros Hwf Hun Hrun Hs Hl Hm Hp Hch Hv. destruct (Z.eqb_spec (slk_locked v) 0) as [E|E].
  - eexists. split_and!; [|done| |].
    + by eapply acquiresleep_eq; try done; [constructor|set_solver].
    + erewrite (holdingsleep_eq h me p 0 [] r _ Hwf Hrun) with (v := mk_sleeplock 1 (p_pid p)).
      * cbn [slk_locked slk_pid]. rewrite Z.eqb_refl. done.
      * by left.
      * constructor.
      * done.
      * set_solver.
      * cbn [k_procs set_k_hw set_k_km]. by rewrite put_slk_procs.
      * rewrite get_slk_hw. by eapply get_put_slk.
    + intros h2 me2 p2 s2 Hwf2 Hrun2 Hs2 Hl2 Hg Hp2 Hne.
      rewrite get_slk_hw, (get_put_slk r v) in Hg by done.
      erewrite (holdingsleep_eq h2 me2 p2 0 [] r s2 Hwf2 Hrun2); [|by right|constructor|done|set_solver|done|exact Hg].
      cbn [slk_locked slk_pid]. by rewrite (proj2 (Z.eqb_neq (p_pid p) (p_pid p2))) by congruence.
  - unfold acquiresleep. rret (acquire_lvl h Hwf 0 [] (slk_lk r) s Hs Hl ltac:(set_solver)).
    set (s0 := set_k_hw _ s). assert (get_slk r s0 = Some v) as Hv0 by (unfold s0; by rewrite get_slk_hw).
    destruct (sleep_eq h me (slk_lk r) (slk_chan r) p s0 Hwf Hun Hrun eq_refl Hl Hm Hp Hch) as (k & E1 & _).
    match type of E1 with _ = Switch ?x _ => set (s1 := x) in E1 end.
    destruct (while_switch tt (fun _ : unit =>
      lk ← read_slk r;
      if negb (slk_locked lk =? 0) then sleep_r (slk_chan r) (slk_lk r) ;; mret (inl tt)
      else mret (inr tt)) s0 s1 (fun s' => obind (k s') (fun _ => mret (inl tt)))) as [k' E2].
    { rret (read_slk_Ret r v s0 Hv0). rewrite (proj2 (Z.eqb_neq _ _) E). cbn [negb].
      by apply bind_Switch. }
    eexists s1, _. split; [by apply bind_Switch|]. done.
Qed.

(** [releasesleep] frees the sleep lock and makes exactly the processes that
    sleep on it runnable. *)
Theorem releasesleep_spec h k L r v s :
  hw_wf h -> at_lvl h k L (k_hw s) -> NoDup L -> hw_locks h !! slk_lk r = Some free_lock ->
  slk_lk r ∉ L -> procs_free h L -> length (k_procs s) = nprocs -> get_slk r s = Some v ->
  exists s', releasesleep r s = Ret tt s' /\ k_hw s' = held_hw k L h /\
    get_slk r s' = Some (mk_sleeplock 0 0) /\
    k_procs s' = map (wake (slk_chan r)) (k_procs s) /\
    set_k_hw (k_hw s) (set_k_procs (k_procs s) (put_slk r v s')) = s.
Proof.
  intros Hwf Hs HND Hl Hn Hf Hlen Hv. eexists. split; [by eapply releasesleep_eq|]. split_and!.
  - done.
  - rewrite get_slk_hw, get_slk_set_procs. by eapply get_put_slk.
  - done.
  - rewrite put_slk_hw, put_slk_set_procs, put_put_slk, (put_get_slk r v s Hv). by destruct s as [[] ].
Qed.
