(* ===== verification/RwLock.v ===== *)
(** * The reader-writer lock: kernel/lock/rw_r_lock.c

    Every function of the lock is one critical section of the spin lock inside it,
    cut where it sleeps ([sleep] gives the spin lock up and takes it again, see
    [SleepSpec.sleep_spec]); so an execution is an interleaving of such sections.
    The two channels are the addresses of two of the lock's fields. *)

From Stdlib Require Import ZifyBool.
From S2P Require Import Prelude.

Record rw_r_lock := mk_rw { read_count : Z; write_active : Z; write_wait_count : Z }.
Inductive rw_chan := ChReadCount | ChWriteWaitCount.

(** How a critical section ends. *)
Inductive section :=
| Leaves (rw : rw_r_lock) (woken : option rw_chan)
| Sleeps (rw : rw_r_lock) (on : rw_chan)
| Panics (msg : string).

Definition init_rw_r_lock : rw_r_lock := mk_rw 0 0 0.

(** From a test of the [while] loop on. *)
Definition read_wait (rw : rw_r_lock) : section :=
  if negb (write_active rw =? 0) || (write_wait_count rw >? 0) then Sleeps rw ChWriteWaitCount
  else Leaves (mk_rw (read_count rw + 1) (write_active rw) (write_wait_count rw)) None.
Definition acquire_rw_r_read_lock (rw : rw_r_lock) : section := read_wait rw.

Definition write_wait (rw : rw_r_lock) : section :=
  if (read_count rw >? 0) || negb (write_active rw =? 0) then Sleeps rw ChReadCount
  else Leaves (mk_rw (read_count rw) 1 (write_wait_count rw - 1)) None.
Definition acquire_rw_r_write_lock (rw : rw_r_lock) : section :=
  write_wait (mk_rw (read_count rw) (write_active rw) (write_wait_count rw + 1)).

Definition release_rw_r_read_lock (rw : rw_r_lock) : section :=
  if negb (write_active rw =? 0) || (read_count rw =? 0)
  then Panics "read_unlock: we should be reading" else
  let rw := mk_rw (read_count rw - 1) (write_active rw) (write_wait_count rw) in
  Leaves rw (if (read_count rw =? 0) && (write_wait_count rw >? 0) then Some ChReadCount else None).

Definition release_rw_r_write_lock (rw : rw_r_lock) : section :=
  if (write_active rw =? 0) || (read_count rw >? 0)
  then Panics "write_unlock: we should be writting" else
  let rw := mk_rw (read_count rw) 0 (write_wait_count rw) in
  Leaves rw (Some (if write_wait_count rw >? 0 then ChReadCount else ChWriteWaitCount)).

(** ** Threads that use the lock *)

Inductive rw_pc := Idle | Reading | Writing | RAsleep | WAsleep | RWoken | WWoken.
#[export] Instance rw_pc_eq_dec : EqDecision rw_pc.
Proof. solve_decision. Defined.

Inductive rw_op := WantRead | WantWrite | Proceed.

Record rw_sys := mk_rw_sys { sys_rw : rw_r_lock; sys_pcs : list rw_pc }.

(** [wake_up] on a channel of the lock. *)
Definition wake_pc (c : rw_chan) (pc : rw_pc) : rw_pc :=
  match c, pc with
  | ChReadCount, WAsleep => WWoken
  | ChWriteWaitCount, RAsleep => RWoken
  | _, _ => pc
  end.

Definition asleep_on (c : rw_chan) : rw_pc :=
  match c with ChReadCount => WAsleep | ChWriteWaitCount => RAsleep end.

Definition finish (i : nat) (next : rw_pc) (pcs : list rw_pc) (r : section) : string + rw_sys :=
  match r with
  | Leaves rw woken =>
      inr (mk_rw_sys rw (<[i := next]> (match woken with Some c => map (wake_pc c) pcs | None => pcs end)))
  | Sleeps rw c => inr (mk_rw_sys rw (<[i := asleep_on c]> pcs))
  | Panics msg => inl msg
  end.

(** The section that thread [i] runs next; [None] when it cannot run. *)
Definition rw_step (i : nat) (op : rw_op) (s : rw_sys) : option (string + rw_sys) :=
  let run next r := Some (finish i next (sys_pcs s) (r (sys_rw s))) in
  match sys_pcs s !! i, op with
  | Some Idle, WantRead => run Reading acquire_rw_r_read_lock
  | Some Idle, WantWrite => run Writing acquire_rw_r_write_lock
  | Some RWoken, Proceed => run Reading read_wait
  | Some WWoken, Proceed => run Writing write_wait
  | Some Reading, Proceed => run Idle release_rw_r_read_lock
  | Some Writing, Proceed => run Idle release_rw_r_write_lock
  | _, _ => None
  end.

(** A schedule; steps that are not possible are skipped. *)
Fixpoint rw_run (sched : list (nat * rw_op)) (s : rw_sys) : string + rw_sys :=
  match sched with
  | [] => inr s
  | (i, op) :: sched' =>
      match rw_step i op s with
      | None => rw_run sched' s
      | Some (inr s') => rw_run sched' s'
      | Some (inl msg) => inl msg
      end
  end.

Definition rw_initial (n : nat) : rw_sys := mk_rw_sys init_rw_r_lock (replicate n Idle).

(** ** The invariant *)

Definition count (P : rw_pc -> bool) (l : list rw_pc) : Z :=
  Z.of_nat (length (List.filter P l)).
Definition at_pc (x y : rw_pc) : bool :=
  match x, y with
  | Idle, Idle | Reading, Reading | Writing, Writing | RAsleep, RAsleep | WAsleep, WAsleep
  | RWoken, RWoken | WWoken, WWoken => true
  | _, _ => false
  end.
Definition wants_write (x : rw_pc) : bool := at_pc WAsleep x || at_pc WWoken x.

Record rw_inv (s : rw_sys) : Prop := {
  ri_readers : count (at_pc Reading) (sys_pcs s) = read_count (sys_rw s);
  ri_writers : count (at_pc Writing) (sys_pcs s) = write_active (sys_rw s);
  ri_waiting : count wants_write (sys_pcs s) = write_wait_count (sys_rw s);
  ri_exclusive : write_active (sys_rw s) = 0 \/ write_active (sys_rw s) = 1 /\ read_count (sys_rw s) = 0;
  (** no lost wake-up *)
  ri_writer_wakes : 0 < count (at_pc WAsleep) (sys_pcs s) ->
    0 < read_count (sys_rw s) \/ write_active (sys_rw s) = 1 \/ 0 < count (at_pc WWoken) (sys_pcs s);
  ri_reader_wakes : 0 < count (at_pc RAsleep) (sys_pcs s) ->
    write_active (sys_rw s) = 1 \/ 0 < write_wait_count (sys_rw s) }.

Lemma count_nonneg P l : 0 <= count P l.
Proof. unfold count. lia. Qed.

Lemma count_cons P x l : count P (x :: l) = Z.b2z (P x) + count P l.
Proof. unfold count. cbn [List.filter]. destruct (P x); cbn [length Z.b2z]; lia. Qed.

Lemma count_insert P l i x y :
  l !! i = Some x -> count P (<[i := y]> l) = count P l - Z.b2z (P x) + Z.b2z (P y).
Proof.
  revert i. induction l as [|z l IH]; intros [|i] H; try done.
  - injection H as ->. change (<[0%nat := y]> (x :: l)) with (y :: l). rewrite !count_cons. lia.
  - change (<[S i := y]> (z :: l)) with (z :: <[i := y]> l). rewrite !count_cons, (IH i H). lia.
Qed.

Lemma count_map P f l : count P (map f l) = count (fun x => P (f x)) l.
Proof. induction l as [|x l IH]; [done|]. cbn [map]. by rewrite !count_cons, IH. Qed.

Lemma count_ext P Q l : (forall x, P x = Q x) -> count P l = count Q l.
Proof. intros H. induction l as [|x l IH]; [done|]. by rewrite !count_cons, IH, H. Qed.

Lemma count_pos P l : 0 < count P l -> exists i x, l !! i = Some x /\ P x = true.
Proof.
  induction l as [|x l IH]; [done|]. rewrite count_cons. destruct (P x) eqn:E; cbn [Z.b2z].
  - intros _. by exists 0%nat, x.
  - intros H. destruct IH as (i & y & Hy & Hp); [lia|]. by exists (S i), y.
Qed.

Lemma count_lookup P l i x : l !! i = Some x -> P x = true -> 0 < count P l.
Proof.
  revert i. induction l as [|y l IH]; intros [|i] H HP; try done; rewrite count_cons.
  - injection H as ->. rewrite HP. pose proof (count_nonneg P l). cbn. lia.
  - specialize (IH i H HP). destruct (P y); cbn; lia.
Qed.

Lemma wants_write_split l : count wants_write l = count (at_pc WAsleep) l + count (at_pc WWoken) l.
Proof.
  induction l as [|x l IH]; [done|]. rewrite !count_cons, IH. destruct x; cbn; lia.
Qed.

(** The counts after a wake-up. *)
Lemma wake_readers l :
  count (at_pc Reading) (map (wake_pc ChWriteWaitCount) l) = count (at_pc Reading) l /\
  count (at_pc Writing) (map (wake_pc ChWriteWaitCount) l) = count (at_pc Writing) l /\
  count (at_pc WAsleep) (map (wake_pc ChWriteWaitCount) l) = count (at_pc WAsleep) l /\
  count (at_pc WWoken) (map (wake_pc ChWriteWaitCount) l) = count (at_pc WWoken) l /\
  count (at_pc RAsleep) (map (wake_pc ChWriteWaitCount) l) = 0 /\
  count (at_pc Idle) (map (wake_pc ChWriteWaitCount) l) = count (at_pc Idle) l.
Proof.
  induction l as [|x l (H1 & H2 & H3 & H4 & H5 & H6)]; [done|]. cbn [map].
  rewrite !count_cons. destruct x; cbn; lia.
Qed.
Lemma wake_writers l :
  count (at_pc Reading) (map (wake_pc ChReadCount) l) = count (at_pc Reading) l /\
  count (at_pc Writing) (map (wake_pc ChReadCount) l) = count (at_pc Writing) l /\
  count (at_pc WAsleep) (map (wake_pc ChReadCount) l) = 0 /\
  count (at_pc WWoken) (map (wake_pc ChReadCount) l) = count (at_pc WAsleep) l + count (at_pc WWoken) l /\
  count (at_pc RAsleep) (map (wake_pc ChReadCount) l) = count (at_pc RAsleep) l /\
  count (at_pc Idle) (map (wake_pc ChReadCount) l) = count (at_pc Idle) l.
Proof.
  induction l as [|x l (H1 & H2 & H3 & H4 & H5 & H6)]; [done|]. cbn [map].
  rewrite !count_cons. destruct x; cbn; lia.
Qed.

Lemma rw_initial_inv n : rw_inv (rw_initial n).
Proof.
  assert (forall P, P Idle = false -> count P (replicate n Idle) = 0) as H.
  { intros P HP. induction n as [|n IH]; [done|]. cbn [replicate]. rewrite count_cons, HP, IH. done. }
  split; cbn [rw_initial sys_rw sys_pcs init_rw_r_lock read_count write_active write_wait_count];
    rewrite ?H by done; try done; by left.
Qed.

(** Facts about all the counts of one list of threads. *)
Ltac counts l :=
  pose proof (wants_write_split l); pose proof (count_nonneg (at_pc WAsleep) l);
  pose proof (count_nonneg (at_pc WWoken) l); pose proof (count_nonneg (at_pc RAsleep) l);
  pose proof (count_nonneg (at_pc Reading) l); pose proof (count_nonneg (at_pc Writing) l).

Lemma rw_step_inv i op s r :
  rw_inv s -> rw_step i op s = Some r -> exists s', r = inr s' /\ rw_inv s'.
Proof.
  destruct s as [[rc wa ww] pcs]. intros [H1 H2 H3 H4 H5 H6] Hs.
  cbn [sys_rw sys_pcs read_count write_active write_wait_count] in *.
  unfold rw_step in Hs. cbn [sys_rw sys_pcs] in Hs. counts pcs.
  destruct (pcs !! i) as [x|] eqn:Hx; [|done].
  assert (forall P, count P (<[i := asleep_on ChReadCount]> pcs) = count P pcs - Z.b2z (P x) + Z.b2z (P WAsleep)) as Ew
    by (intros P; by apply count_insert).
  assert (forall P, count P (<[i := asleep_on ChWriteWaitCount]> pcs) = count P pcs - Z.b2z (P x) + Z.b2z (P RAsleep)) as Er
    by (intros P; by apply count_insert).
  assert (forall P y, count P (<[i := y]> pcs) = count P pcs - Z.b2z (P x) + Z.b2z (P y)) as Ey
    by (intros P y; by apply count_insert).
  assert (forall P c y, count P (<[i := y]> (map (wake_pc c) pcs)) =
            count P (map (wake_pc c) pcs) - Z.b2z (P (wake_pc c x)) + Z.b2z (P y)) as Em.
  { intros P c y. apply count_insert. by rewrite list_lookup_fmap, Hx. }
  assert (0 < count (at_pc x) pcs) as Hpos by (eapply count_lookup; [done|by destruct x]).
  destruct (wake_readers pcs) as (R1 & R2 & R3 & R4 & R5 & _).
  destruct (wake_writers pcs) as (W1 & W2 & W3 & W4 & W5 & _).
  destruct x, op; try done; injection Hs as <-;
    unfold acquire_rw_r_read_lock, acquire_rw_r_write_lock, read_wait, write_wait, release_rw_r_read_lock, release_rw_r_write_lock;
    cbn [read_count write_active write_wait_count].
  all: repeat match goal with |- context [if ?b then _ else _] => destruct b eqn:?; cbn [finish read_count write_active write_wait_count] end.
  all: try (exfalso; cbn [at_pc] in Hpos; lia).
  all: eexists; split; [reflexivity|]; split; cbn [sys_rw sys_pcs read_count write_active write_wait_count].
  all: rewrite ?wants_write_split, ?Ew, ?Er, ?Em, ?Ey; cbn [at_pc wants_write Z.b2z orb wake_pc]; lia.
Qed.

Lemma rw_run_inv sched s : rw_inv s -> exists s', rw_run sched s = inr s' /\ rw_inv s'.
Proof.
  revert s. induction sched as [|[i op] sched IH]; intros s Hs; [by exists s|]. cbn [rw_run].
  destruct (rw_step i op s) as [r|] eqn:E; [|by apply IH].
  destruct (rw_step_inv i op s r Hs E) as (s' & -> & Hs'). by apply IH.
Qed.

Lemma count_two P l i j x y :
  l !! i = Some x -> l !! j = Some y -> i <> j -> P x = true -> P y = true -> 2 <= count P l.
Proof.
  revert i j. induction l as [|z l IH]; intros [|i] [|j] Hi Hj Hne HPx HPy; try done; rewrite count_cons.
  - injection Hi as ->. rewrite HPx. pose proof (count_lookup P l j y Hj HPy). cbn. lia.
  - injection Hj as ->. rewrite HPy. pose proof (count_lookup P l i x Hi HPx). cbn. lia.
  - specialize (IH i j Hi Hj ltac:(congruence) HPx HPy). destruct (P z); cbn; lia.
Qed.

(** C13: the reader-writer lock is safe under every interleaving of its critical
    sections by any number of threads: no release panics, [read_count] is the number
    of readers, [write_wait_count] the number of writers that wait, a writer is alone,
    and a thread sleeps only while another one is going to wake it. *)
Theorem rw_lock_safe n sched :
  exists s, rw_run sched (rw_initial n) = inr s /\ rw_inv s /\
    forall i j, sys_pcs s !! i = Some Writing -> i <> j ->
      sys_pcs s !! j <> Some Writing /\ sys_pcs s !! j <> Some Reading.
Proof.
  destruct (rw_run_inv sched (rw_initial n) (rw_initial_inv n)) as (s & E & Hs).
  exists s. split; [done|]. split; [done|]. intros i j Hi Hne.
  destruct Hs as [H1 H2 _ H4 _ _].
  pose proof (count_lookup (at_pc Writing) _ i _ Hi eq_refl) as Hw. split; intros Hj.
  - pose proof (count_two (at_pc Writing) _ i j _ _ Hi Hj Hne eq_refl eq_refl). lia.
  - pose proof (count_lookup (at_pc Reading) _ j _ Hj eq_refl). lia.
Qed.

(** ** Progress *)

(** One step of a thread that is not idle. *)
Definition rw_proceeds (s s' : rw_sys) : Prop := exists i, rw_step i Proceed s = Some (inr s').

Definition weight (l : list rw_pc) : Z :=
  count (at_pc Reading) l + count (at_pc Writing) l + 2 * count (at_pc RWoken) l + 2 * count (at_pc WWoken) l.
Definition busy (l : list rw_pc) : Z := Z.of_nat (length l) - count (at_pc Idle) l.
Definition measure (s : rw_sys) : Z :=
  (2 * Z.of_nat (length (sys_pcs s)) + 2) * busy (sys_pcs s) + weight (sys_pcs s).

Lemma weight_bounds l : 0 <= weight l <= 2 * busy l.
Proof.
  unfold weight, busy. induction l as [|x l IH]; [done|]. rewrite !count_cons. cbn [length].
  destruct x; cbn [at_pc Z.b2z]; lia.
Qed.
Lemma busy_bounds l : 0 <= busy l <= Z.of_nat (length l).
Proof.
  unfold busy. induction l as [|x l IH]; [done|]. rewrite !count_cons. cbn [length].
  destruct x; cbn [at_pc Z.b2z]; lia.
Qed.

Lemma finish_measure i x y l l' :
  l !! i = Some x -> l' = l /\ weight (<[i := y]> l) < weight l /\ busy (<[i := y]> l) = busy l \/
    busy (<[i := y]> l') = busy l - 1 /\ length l' = length l ->
  forall rw rw', measure (mk_rw_sys rw' (<[i := y]> l')) < measure (mk_rw_sys rw l).
Proof.
  intros Hx Hcase rw rw'. unfold measure. cbn [sys_pcs]. rewrite length_insert.
  pose proof (weight_bounds l). pose proof (weight_bounds (<[i := y]> l')).
  pose proof (busy_bounds l). pose proof (busy_bounds (<[i := y]> l')).
  destruct Hcase as [(El & Hw & Hb)|(Hb & El)]; [subst l'; rewrite Hb; by apply Z.add_lt_mono_l|].
  rewrite Hb, El in *. nia.
Qed.

Lemma proceeds_measure s s' : rw_proceeds s s' -> 0 <= measure s' < measure s /\ length (sys_pcs s') = length (sys_pcs s).
Proof.
  intros [i Hs]. split; [split|].
  - unfold measure. pose proof (weight_bounds (sys_pcs s')). pose proof (busy_bounds (sys_pcs s')). nia.
  - destruct s as [[rc wa ww] pcs]. unfold rw_step in Hs. cbn [sys_rw sys_pcs] in Hs.
    destruct (pcs !! i) as [x|] eqn:Hx; [|done].
    assert (forall P c y, count P (<[i := y]> (map (wake_pc c) pcs)) =
            count P (map (wake_pc c) pcs) - Z.b2z (P (wake_pc c x)) + Z.b2z (P y)) as Em.
    { intros P c y. apply count_insert. by rewrite list_lookup_fmap, Hx. }
    destruct (wake_readers pcs) as (_ & _ & _ & _ & _ & R6). destruct (wake_writers pcs) as (_ & _ & _ & _ & _ & W6).
    destruct x; try done; injection Hs as Hs; revert Hs;
      unfold read_wait, write_wait, release_rw_r_read_lock, release_rw_r_write_lock;
      cbn [read_count write_active write_wait_count].
    all: repeat match goal with |- context [if ?b then _ else _] => destruct b eqn:?; cbn [finish read_count write_active write_wait_count] end.
    all: intros Hs; first [discriminate Hs|injection Hs as <-]; apply (finish_measure i _ _ pcs _ Hx).
    all: try (left; split; [done|]; unfold weight, busy; rewrite length_insert, !(count_insert _ _ _ _ _ Hx); cbn [at_pc Z.b2z asleep_on]; lia).
    all: right; rewrite ?length_map; split; [|done]; unfold busy; rewrite length_insert, ?length_map;
      rewrite ?Em, ?(count_insert _ _ _ _ _ Hx); cbn [at_pc Z.b2z wake_pc]; lia.
  - destruct s as [rw pcs]. unfold rw_step in Hs. cbn [sys_rw sys_pcs] in Hs.
    destruct (pcs !! i) as [x|]; [|done]. destruct x; try done; injection Hs as Hs; revert Hs; unfold finish;
      (match goal with |- context [match ?r with Leaves _ _ => _ | _ => _ end] => destruct r as [? [c|]|? c|?] end);
      intros Hs; try discriminate Hs; injection Hs as <-; cbn [sys_pcs]; by rewrite length_insert, ?length_map.
Qed.

Lemma measure_nonneg s : 0 <= measure s.
Proof.
  unfold measure. pose proof (weight_bounds (sys_pcs s)). pose proof (busy_bounds (sys_pcs s)). nia.
Qed.

Lemma steps_measure k s s' : nsteps rw_proceeds k s s' -> Z.of_nat k <= measure s - measure s' /\ 0 <= measure s'.
Proof.
  induction 1 as [s|k s s1 s2 Hs _ [IH1 IH2]].
  - pose proof (measure_nonneg s). lia.
  - destruct (proceeds_measure s s1 Hs). lia.
Qed.

Lemma steps_inv k s s' : nsteps rw_proceeds k s s' -> rw_inv s -> rw_inv s'.
Proof.
  induction 1 as [s|k s s1 s2 [i Hi] _ IH]; intros Hs; [done|]. apply IH.
  destruct (rw_step_inv i Proceed s _ Hs Hi) as (s' & [= ->] & Hs'). exact Hs'.
Qed.

Lemma stuck_idle s : rw_inv s -> (forall s', ~ rw_proceeds s s') ->
  forall i pc, sys_pcs s !! i = Some pc -> pc = Idle.
Proof.
  intros Hs Hstuck.
  assert (forall i pc, sys_pcs s !! i = Some pc -> pc = Idle \/ pc = RAsleep \/ pc = WAsleep) as Hpc.
  { intros i pc Hi. destruct (decide (is_Some (rw_step i Proceed s))) as [[r Hr]|Hno].
    - destruct (rw_step_inv i Proceed s r Hs Hr) as (s' & -> & _). destruct (Hstuck s'). by exists i.
    - unfold rw_step in Hno. rewrite Hi in Hno. destruct pc; auto; destruct Hno; by eexists. }
  assert (forall P, P Idle = false -> P RAsleep = false -> P WAsleep = false -> count P (sys_pcs s) = 0) as H0.
  { intros P H1 H2 H3. pose proof (count_nonneg P (sys_pcs s)). destruct (Z.eq_dec (count P (sys_pcs s)) 0) as [|Hne]; [done|].
    destruct (count_pos P (sys_pcs s)) as (i & x & Hx & HP); [lia|]. destruct (Hpc i x Hx) as [->|[->| ->]]; congruence. }
  destruct Hs as [H1 H2 H3 _ H5 H6].
  rewrite (H0 (at_pc Reading)) in H1 by done. rewrite (H0 (at_pc Writing)) in H2 by done.
  rewrite (H0 (at_pc WWoken)) in H5 by done. rewrite wants_write_split, (H0 (at_pc WWoken)) in H3 by done.
  pose proof (count_nonneg (at_pc WAsleep) (sys_pcs s)). pose proof (count_nonneg (at_pc RAsleep) (sys_pcs s)).
  intros i pc Hi. destruct (Hpc i pc Hi) as [->|[->| ->]]; [done|exfalso..].
  - pose proof (count_lookup (at_pc RAsleep) _ i _ Hi eq_refl). lia.
  - pose proof (count_lookup (at_pc WAsleep) _ i _ Hi eq_refl). lia.
Qed.

(** *** Readers cannot keep a waiting writer out

    As long as a writer waits, the threads of the lock may take steps and idle threads
    may ask to read; only nobody asks to write. *)
Definition rw_proceeds_or_reads (s s' : rw_sys) : Prop :=
  0 < write_wait_count (sys_rw s) /\ exists i op, op <> WantWrite /\ rw_step i op s = Some (inr s').

(** How far a thread is from the place where it stays while a writer waits. *)
Definition level (x : rw_pc) : Z :=
  match x with RAsleep => 0 | Idle | RWoken => 1 | Reading | Writing => 2 | WAsleep | WWoken => 3 end.
Definition levels (l : list rw_pc) : Z := foldr (fun x n => level x + n) 0 l.
Definition write_measure (s : rw_sys) : Z :=
  (Z.of_nat (length (sys_pcs s)) + 1) * levels (sys_pcs s) + count (at_pc WWoken) (sys_pcs s).

Lemma levels_insert l i x y : l !! i = Some x -> levels (<[i := y]> l) = levels l - level x + level y.
Proof.
  revert i. induction l as [|z l IH]; intros [|i] H; try done.
  - injection H as ->. cbn. lia.
  - change (level z + levels (<[i := y]> l) = level z + levels l - level x + level y). rewrite (IH i H). lia.
Qed.
Lemma levels_wake_writers l : levels (map (wake_pc ChReadCount) l) = levels l.
Proof. induction l as [|x l IH]; [done|]. change (level (wake_pc ChReadCount x) + levels (map (wake_pc ChReadCount) l) = level x + levels l). rewrite IH. by destruct x. Qed.
Lemma levels_nonneg l : 0 <= levels l.
Proof. induction l as [|x l IH]; [done|]. change (0 <= level x + levels l). destruct x; cbn [level]; lia. Qed.
Lemma count_length P l : count P l <= Z.of_nat (length l).
Proof. unfold count. pose proof (List.filter_length_le P l). lia. Qed.

Lemma write_measure_less i x y l l' rw rw' : l !! i = Some x ->
  levels l' = levels l -> l' !! i = Some x -> length l' = length l ->
  level y < level x \/ level y = level x /\ count (at_pc WWoken) (<[i := y]> l') < count (at_pc WWoken) l ->
  write_measure (mk_rw_sys rw' (<[i := y]> l')) < write_measure (mk_rw_sys rw l).
Proof.
  intros Hx El Hx' Hl Hc. unfold write_measure. cbn [sys_pcs]. rewrite length_insert, Hl, (levels_insert _ _ _ _ Hx'), El.
  pose proof (count_nonneg (at_pc WWoken) l). pose proof (count_length (at_pc WWoken) (<[i := y]> l')) as Hn.
  rewrite length_insert, Hl in Hn. nia.
Qed.

Lemma proceeds_or_reads_measure s s' : rw_proceeds_or_reads s s' -> write_measure s' < write_measure s.
Proof.
  destruct s as [[rc wa ww] pcs]. intros [Hww (i & op & Hop & Hs)]. cbn [sys_rw write_wait_count] in Hww.
  unfold rw_step in Hs. cbn [sys_rw sys_pcs] in Hs. destruct (pcs !! i) as [x|] eqn:Hx; [|done].
  destruct (Z.gtb_spec ww 0) as [_|]; [|lia].
  destruct x, op; try done; injection Hs as Hs; revert Hs;
    unfold acquire_rw_r_read_lock, read_wait, write_wait, release_rw_r_read_lock, release_rw_r_write_lock;
    cbn [read_count write_active write_wait_count].
  all: destruct (Z.gtb_spec ww 0) as [_|]; [|lia]; rewrite ?orb_true_r, ?andb_true_r.
  all: repeat match goal with |- context [if ?b then _ else _] => destruct b eqn:?; cbn [finish read_count write_active write_wait_count] end.
  all: intros Hs; first [discriminate Hs|injection Hs as <-]; apply (write_measure_less i _ _ pcs _ _ _ Hx).
  all: rewrite ?length_map, ?list_lookup_fmap, ?Hx, ?levels_wake_writers; try done.
  all: first [by left|right; split; [done|]; rewrite (count_insert _ _ _ _ _ Hx); cbn; lia].
Qed.

Lemma proceeds_or_reads_steps k s s' : nsteps rw_proceeds_or_reads k s s' -> Z.of_nat k <= write_measure s - write_measure s' /\ 0 <= write_measure s'.
Proof.
  induction 1 as [s|k s s1 s2 Hs _ [IH1 IH2]].
  - unfold write_measure. pose proof (levels_nonneg (sys_pcs s)). pose proof (count_nonneg (at_pc WWoken) (sys_pcs s)). nia.
  - pose proof (proceeds_or_reads_measure s s1 Hs). lia.
Qed.

Lemma proceeds_or_reads_inv k s s' : nsteps rw_proceeds_or_reads k s s' -> rw_inv s -> rw_inv s'.
Proof.
  induction 1 as [s|k s s1 s2 [_ (i & op & _ & Hi)] _ IH]; intros Hs; [done|]. apply IH.
  destruct (rw_step_inv i op s _ Hs Hi) as (s' & [= ->] & Hs'). exact Hs'.
Qed.

(** Some thread that is not idle can go on while a writer waits. *)
Lemma waiting_writer_steps s : rw_inv s -> 0 < write_wait_count (sys_rw s) -> exists s', rw_proceeds s s'.
Proof.
  intros Hs Hww. pose proof Hs as [H1 H2 H3 _ H5 _]. rewrite wants_write_split in H3. counts (sys_pcs s).
  assert (exists x, x ∈ [Reading; Writing; WWoken] /\ 0 < count (at_pc x) (sys_pcs s)) as (x & Hx & Hc).
  { destruct (Z.eq_dec (count (at_pc WWoken) (sys_pcs s)) 0) as [E|E]; [|exists WWoken; split; [set_solver|lia]].
    destruct H5 as [H5|[H5|H5]]; [lia|exists Reading|exists Writing|lia]; (split; [set_solver|lia]). }
  destruct (count_pos _ _ Hc) as (i & y & Hy & E). assert (y = x) as -> by (by destruct x, y).
  destruct (rw_step i Proceed s) as [r|] eqn:Er.
  - destruct (rw_step_inv i Proceed s r Hs Er) as (s' & -> & _). by exists s', i.
  - unfold rw_step in Er. rewrite Hy in Er. repeat apply elem_of_cons in Hx as [->|Hx]; try done. by apply elem_of_nil in Hx.
Qed.

(** C27: Progress of the reader-writer lock, from every state that an interleaving of any
    number of threads reaches.  When no thread asks for the lock any more, the threads
    that want it take at most [measure] steps, and the only states where none of them can
    take a step are those where every thread has had the lock and given it back.  A
    writer that waits is not kept out by readers, however often they ask: with no new
    writer at most [write_measure] steps are taken before nobody waits to write any more,
    and until then a thread that has the lock or waits for it can go on.  Nothing is
    promised to a reader while further writers ask: see [reader_can_starve]. *)
Theorem rw_lock_progress n sched s :
  rw_run sched (rw_initial n) = inr s ->
  (forall k s', nsteps rw_proceeds k s s' -> Z.of_nat k <= measure s) /\
  (forall k s', nsteps rw_proceeds k s s' -> (forall s2, ~ rw_proceeds s' s2) ->
     forall i pc, sys_pcs s' !! i = Some pc -> pc = Idle) /\
  (forall k s', nsteps rw_proceeds_or_reads k s s' -> Z.of_nat k <= write_measure s) /\
  (forall k s', nsteps rw_proceeds_or_reads k s s' -> 0 < write_wait_count (sys_rw s') ->
     exists s2, rw_proceeds s' s2).
Proof.
  intros E. destruct (rw_run_inv sched (rw_initial n) (rw_initial_inv n)) as (s0 & E0 & Hs).
  assert (s0 = s) as -> by congruence. split_and!; intros k s' Hk.
  - pose proof (steps_measure k s s' Hk). lia.
  - intros Hstuck. apply stuck_idle; [|done]. by eapply steps_inv.
  - pose proof (proceeds_or_reads_steps k s s' Hk). lia.
  - intros Hww. apply waiting_writer_steps; [|done]. by eapply proceeds_or_reads_inv.
Qed.

(** A reader inside and a writer asleep. *)
Lemma rw_lock_progress_witness :
  exists s, rw_run [(0%nat, WantRead); (1%nat, WantWrite)] (rw_initial 3) = inr s /\
    sys_pcs s = [Reading; WAsleep; Idle] /\ (forall k s', nsteps rw_proceeds k s s' -> Z.of_nat k <= measure s) /\
    forall k s', nsteps rw_proceeds_or_reads k s s' -> Z.of_nat k <= 24.
Proof.
  exists (mk_rw_sys (mk_rw 1 0 1) [Reading; WAsleep; Idle]). split; [reflexivity|]. split; [reflexivity|].
  destruct (rw_lock_progress 3 [(0%nat, WantRead); (1%nat, WantWrite)] _ eq_refl) as (H1 & _ & H3 & _).
  split; [exact H1|exact H3].
Defined.

(** Two writers that keep asking hand the lock to each other: the machine comes back to
    the state it was in, and the reader (thread 0) sleeps all the time. *)
Example reader_can_starve :
  let s := mk_rw_sys (mk_rw 0 1 0) [RAsleep; Writing; Idle] in
  let turn := [(2%nat, WantWrite); (1%nat, Proceed); (2%nat, Proceed); (1%nat, WantWrite); (2%nat, Proceed); (1%nat, Proceed)] in
  rw_run [(1%nat, WantWrite); (0%nat, WantRead)] (rw_initial 3) = inr s /\ rw_run turn s = inr s /\
  Forall (fun k => match rw_run (take k turn) s with inr s' => sys_pcs s' !! 0%nat = Some RAsleep | inl _ => False end) (seq 0 7).
Proof. split; [reflexivity|]. split; [reflexivity|]. repeat constructor. Qed.

