(* ===== verification/CpuMessage.v ===== *)
(** * The mailbox through which groups ask for CPUs: kernel/process/cpu_message.c

    A bounded ring of messages; [um_box] is [k_box].  A message is modelled with
    what its pointer leads to: the chain and group of a [need_cpu_message], or the
    group itself for NEED_CPU_FLEX. *)

From S2P Require Import Prelude Hart VmSystem Mem Kalloc State.

Definition CPU_MESSAGE_BOX_SIZE : Z := MAX_CPU_NUM.
Definition EMPTY : cpu_message := mk_cpu_message EMP_MESSAGE ChNull 0.

Definition upd_box (f : message_box -> message_box) : M kst unit :=
  modify (fun s => set_k_box (f (k_box s)) s).

Definition init_cpu_message : M kst unit := hwdo (init_spin_lock LkMsgBox).

Definition box_empty (b : message_box) : bool := mb_size b =? 0.
Definition box_full (b : message_box) : bool := mb_size b =? CPU_MESSAGE_BOX_SIZE.
Definition box_slot (i : Z) : nat := Z.to_nat (i mod CPU_MESSAGE_BOX_SIZE).

Definition no_message_atomic : M kst bool := gets (fun s => mb_size (k_box s) =? 0).

Definition get_cpu_message : M kst cpu_message :=
  acquire LkMsgBox ;;
  b ← gets k_box;
  if box_empty b then release LkMsgBox ;; mret EMPTY else
  m ← lift_opt (mb_box b !! box_slot (mb_beg b));
  upd_box (fun b => set_mb_beg (u64 (mb_beg b + 1)) b) ;;
  upd_box (fun b => set_mb_size (u64 (mb_size b - 1)) b) ;;
  release LkMsgBox ;;
  if negb (bool_decide (m_type m = NEED_CPU)) && negb (bool_decide (m_type m = NEED_CPU_FLEX))
  then panic "get_cpu_message: get unknow message" else
  mret m.

Definition send_cpu_message (m : cpu_message) : M kst unit :=
  acquire LkMsgBox ;;
  b ← gets k_box;
  if box_full b then panic "send_cpu_message: cpu message box full" else
  upd_box (fun b => set_mb_box (<[box_slot (mb_end b) := m]> (mb_box b)) b) ;;
  upd_box (fun b => set_mb_end (u64 (mb_end b + 1)) b) ;;
  upd_box (fun b => set_mb_size (u64 (mb_size b + 1)) b) ;;
  release LkMsgBox.

Definition resend_cpu_message (m : cpu_message) : M kst unit :=
  if negb (bool_decide (m_type m = EMP_MESSAGE)) then send_cpu_message m else mret tt.

(** ** The box as a queue *)

(** The messages waiting, oldest first. *)
Definition box_queue (b : message_box) : list cpu_message :=
  map (fun i => default EMPTY (mb_box b !! box_slot (mb_beg b + Z.of_nat i)))
      (seq 0 (Z.to_nat (mb_size b))).

Record box_inv (b : message_box) : Prop := {
  bi_len : length (mb_box b) = Z.to_nat CPU_MESSAGE_BOX_SIZE;
  bi_size : 0 <= mb_size b <= CPU_MESSAGE_BOX_SIZE;
  bi_beg : 0 <= mb_beg b < 2 ^ 64;
  bi_end : mb_end b = u64 (mb_beg b + mb_size b) }.

(** Positions are counted modulo 2^64, a multiple of the box size, so a slot does
    not change when a counter wraps. *)
Lemma box_slot_u64 i : box_slot (u64 i) = box_slot i.
Proof.
  unfold box_slot, u64, CPU_MESSAGE_BOX_SIZE, MAX_CPU_NUM. f_equal.
  apply Z.mod_mod_divide. by exists (2 ^ 61).
Qed.

Lemma box_slot_lt i : (box_slot i < 8)%nat.
Proof. unfold box_slot, CPU_MESSAGE_BOX_SIZE, MAX_CPU_NUM. lia. Qed.

Lemma box_slot_inj i j : 0 <= i - j < 8 -> box_slot i = box_slot j -> i = j.
Proof. unfold box_slot, CPU_MESSAGE_BOX_SIZE, MAX_CPU_NUM. intros. lia. Qed.

Definition box_push (m : cpu_message) (b : message_box) : message_box :=
  mk_message_box (<[box_slot (mb_end b) := m]> (mb_box b)) (mb_beg b) (u64 (mb_end b + 1)) (u64 (mb_size b + 1)).
Definition box_pop (b : message_box) : message_box :=
  mk_message_box (mb_box b) (u64 (mb_beg b + 1)) (mb_end b) (u64 (mb_size b - 1)).

Lemma box_push_queue m b :
  box_inv b -> box_full b = false ->
  box_inv (box_push m b) /\ box_queue (box_push m b) = box_queue b ++ [m].
Proof.
  intros [Hlen Hs Hb He] Hf. unfold box_full in Hf. apply Z.eqb_neq in Hf.
  unfold CPU_MESSAGE_BOX_SIZE, MAX_CPU_NUM in *.
  assert (u64 (mb_size b + 1) = mb_size b + 1) as Hu by (apply u64_small; lia).
  split.
  - split; cbn; rewrite ?Hu; unfold CPU_MESSAGE_BOX_SIZE, MAX_CPU_NUM; try lia.
    + by rewrite length_insert.
    + rewrite He. unfold u64. rewrite Z.add_mod_idemp_l by done. f_equal. lia.
  - unfold box_queue; cbn [box_push mb_box mb_beg mb_size]. rewrite Hu.
    replace (Z.to_nat (mb_size b + 1)) with (S (Z.to_nat (mb_size b))) by lia.
    rewrite seq_S, map_app. cbn [map Nat.add].
    assert (box_slot (mb_end b) = box_slot (mb_beg b + Z.of_nat (Z.to_nat (mb_size b)))) as Hslot.
    { rewrite He, box_slot_u64. f_equal. lia. }
    f_equal.
    + apply map_ext_in. intros i Hi%in_seq. rewrite list_lookup_insert_ne; [done|].
      rewrite Hslot. intros E%box_slot_inj; lia.
    + rewrite <- Hslot, list_lookup_insert_eq; [done|].
      rewrite Hlen. apply box_slot_lt.
Qed.

Lemma box_pop_queue b :
  box_inv b -> box_empty b = false ->
  box_inv (box_pop b) /\
  exists m, mb_box b !! box_slot (mb_beg b) = Some m /\ box_queue b = m :: box_queue (box_pop b).
Proof.
  intros [Hlen Hs Hb He] Hf. unfold box_empty in Hf. apply Z.eqb_neq in Hf.
  unfold CPU_MESSAGE_BOX_SIZE, MAX_CPU_NUM in *.
  assert (u64 (mb_size b - 1) = mb_size b - 1) as Hu by (apply u64_small; lia).
  split.
  - split; cbn; rewrite ?Hu; unfold CPU_MESSAGE_BOX_SIZE, MAX_CPU_NUM; try lia; try apply u64_range.
    rewrite He. unfold u64. rewrite Z.add_mod_idemp_l by done. f_equal. lia.
  - destruct (lookup_lt_is_Some_2 (mb_box b) (box_slot (mb_beg b))) as [m Hm].
    { rewrite Hlen. apply box_slot_lt. }
    exists m. split; [done|]. unfold box_queue; cbn [box_pop mb_box mb_beg mb_size]. rewrite Hu.
    replace (Z.to_nat (mb_size b)) with (S (Z.to_nat (mb_size b - 1))) by lia.
    cbn [seq map]. rewrite Z.add_0_r, Hm. f_equal. rewrite <- seq_shift, map_map.
    apply map_ext. intros i. f_equal. f_equal.
    rewrite <- (box_slot_u64 (u64 _ + _)), <- (box_slot_u64 (mb_beg b + _)). f_equal.
    unfold u64. rewrite Z.add_mod_idemp_l by done. f_equal. lia.
Qed.

(** ** The operations, under the lock *)

Lemma acquire_kst l s :
  hw_wf (k_hw s) -> hw_locks (k_hw s) !! l = Some free_lock ->
  acquire l s = Ret tt (set_k_hw (held_hw 0 [l] (k_hw s)) s).
Proof. intros Hwf Hl. unfold acquire, hwdo. apply zoom_Ret. by apply acquire_first. Qed.

Lemma release_kst l s h :
  hw_wf h -> hw_locks h !! l = Some free_lock -> k_hw s = held_hw 0 [l] h ->
  release l s = Ret tt (set_k_hw (settle h) s).
Proof.
  intros Hwf Hl Hs. unfold release, hwdo. apply zoom_Ret.
  change (lget hwL s) with (k_hw s). rewrite Hs. by apply release_settle.
Qed.

(** Messages that [get_cpu_message] recognises. *)
Definition known (m : cpu_message) : Prop := m_type m <> EMP_MESSAGE.

(** the mailbox is a bounded FIFO queue of at most MAX_CPU_NUM messages:
    sending to a box that is not full appends at the end, receiving takes the
    oldest message out (or answers EMPTY and changes nothing when there is none),
    and both keep the ring's invariant and release the lock; the 64-bit positions
    may wrap around. *)
Theorem cpu_message_fifo m s :
  hw_wf (k_hw s) -> hw_locks (k_hw s) !! LkMsgBox = Some free_lock ->
  box_inv (k_box s) -> Forall known (box_queue (k_box s)) ->
  (box_full (k_box s) = false ->
   runs (send_cpu_message m) s (fun _ s' =>
     k_hw s' = settle (k_hw s) /\ box_inv (k_box s') /\
     box_queue (k_box s') = box_queue (k_box s) ++ [m])) /\
  runs get_cpu_message s (fun r s' =>
     k_hw s' = settle (k_hw s) /\ box_inv (k_box s') /\
     match box_queue (k_box s) with
     | [] => r = EMPTY /\ k_box s' = k_box s
     | m0 :: q => r = m0 /\ box_queue (k_box s') = q
     end).
Proof.
  intros Hwf Hl Hinv Hk. split.
  - intros Hf. destruct (box_push_queue m _ Hinv Hf) as [Hi Hq].
    unfold send_cpu_message. apply runs_bind. eapply runs_eq; [by apply acquire_kst|].
    apply runs_bind. eapply runs_eq; [done|]. cbn [k_box set_k_hw set_k_km]. rewrite Hf.
    repeat (apply runs_bind; eapply runs_eq; [done|]).
    eapply runs_eq; [by eapply release_kst|]. done.
  - unfold get_cpu_message. apply runs_bind. eapply runs_eq; [by apply acquire_kst|].
    apply runs_bind. eapply runs_eq; [done|]. cbn [k_box set_k_hw set_k_km].
    destruct (box_empty (k_box s)) eqn:He.
    + apply runs_bind. eapply runs_eq; [by eapply release_kst|]. apply runs_ret.
      unfold box_empty in He. apply Z.eqb_eq in He. unfold box_queue at 1. rewrite He. done.
    + destruct (box_pop_queue _ Hinv He) as (Hi & m0 & Hm0 & Hq).
      apply runs_bind. unfold lift_opt. rewrite Hm0. apply runs_ret.
      do 2 (apply runs_bind; eapply runs_eq; [done|]).
      apply runs_bind. eapply runs_eq; [by eapply release_kst|].
      rewrite Hq in Hk |- *. apply Forall_cons in Hk as [Hm _].
      assert (negb (bool_decide (m_type m0 = NEED_CPU)) &&
              negb (bool_decide (m_type m0 = NEED_CPU_FLEX)) = false) as ->.
      { unfold known in Hm. by destruct (m_type m0). }
      apply runs_ret. done.
Qed.
