(* ===== verification/ProcGroup.v ===== *)
(** * Process groups and their CPUs: kernel/process/proc_group.c

    Groups are the elements of [k_groups]; a group's processes are linked through
    [k_links] from the head [LHead i]; a CPU records its group in [hw_cpus]. *)

From S2P Require Import Prelude Hart ListH VmSystem Mem Kalloc State Sleep CpuMessage.

Definition MAX_PROC_GROUP_NUM : Z := MAX_CPU_NUM.
Definition DEFAULT_PGROUP_ID : Z := 0.

Inductive leave_way := WITH_CPU | JUST_PROC.
#[export] Instance leave_way_eq_dec : EqDecision leave_way.
Proof. solve_decision. Defined.

Definition linksL : lens kst (gmap lnode (lnode * lnode)) := Lens k_links set_k_links.
#[export] Instance linksL_laws : LensLaws linksL.
Proof. split; [done|by intros []|done]. Qed.

Definition ldo {A} (m : M (gmap lnode (lnode * lnode)) A) : M kst A := zoom linksL m.
Definition set_free_cpus (n : Z) : M kst unit := modify (set_k_free_cpus n).

(** Fields of a CPU. *)
Definition read_kcpu (i : Z) : M kst cpu := hwdo (read_cpu i).
Definition set_cpu_pgroup (i v : Z) : M kst unit :=
  c ← read_kcpu i;
  hwdo (write_cpu i (mk_cpu (c_cpu_id c) v (c_my_proc c) (c_origin_ie c) (c_introff_n c))).

Definition get_proc_group (id : Z) : nat := Z.to_nat id.
Definition get_default_pgroup : nat := Z.to_nat DEFAULT_PGROUP_ID.

(** A list of processes has at most [STATIC_PROC_NUM] entries. *)
Definition procs_fuel : nat := S (Z.to_nat STATIC_PROC_NUM).

Definition inc_free_cpus : M kst unit :=
  acquire LkFreeCpus ;;
  n ← gets k_free_cpus;
  if n <? 0 then panic "inc_free_cpus: free cpus < 0" else
  set_free_cpus (n + 1) ;;
  release LkFreeCpus.

Definition dec_free_cpus : M kst Z :=
  acquire LkFreeCpus ;;
  n ← gets k_free_cpus;
  if n <? 0 then panic "dec_free_cpus: free cpus < 0" else
  if n =? 0 then release LkFreeCpus ;; mret (-1) else
  set_free_cpus (n - 1) ;;
  release LkFreeCpus ;;
  mret 0.

Definition free_pgroup (group : nat) : M kst unit :=
  g ← read_group group;
  if g_id g =? DEFAULT_PGROUP_ID then panic "free_pgroup: default group been freed" else
  upd_group group (set_g_id (-1)) ;;
  upd_group group (set_g_exclusively_occupy 0).

Definition add_my_cpu_to_pgroup (group : nat) (mycpu : Z) : M kst unit :=
  me ← hwdo my_cpu;
  if negb (mycpu =? me) then panic "add_my_cpu_to_pgroup: add other's cpu" else
  c ← read_kcpu mycpu;
  g ← read_group group;
  slot ← lift_opt (g_cpus g !! Z.to_nat (c_cpu_id c));
  if negb (slot =? -1) || negb (c_pgroup_id c =? -1)
  then panic "add_my_cpu_to_pgroup: add cpu that has been added" else
  upd_group group (fun g => set_g_cpus (<[Z.to_nat (c_cpu_id c) := c_cpu_id c]> (g_cpus g)) g) ;;
  set_cpu_pgroup mycpu (g_id g).

Definition remove_my_cpu_from_pgroup (group : nat) (mycpu : Z) : M kst unit :=
  me ← hwdo my_cpu;
  if negb (mycpu =? me) then panic "remove_my_cpu_from_pgroup: add other's cpu" else
  c ← read_kcpu mycpu;
  g ← read_group group;
  slot ← lift_opt (g_cpus g !! Z.to_nat (c_cpu_id c));
  if negb (slot =? c_cpu_id c) || negb (c_pgroup_id c =? g_id g)
  then panic "remove_my_cpu_from_pgroup: remove cpu that haven't been added" else
  upd_group group (fun g => set_g_cpus (<[Z.to_nat (c_cpu_id c) := -1]> (g_cpus g)) g) ;;
  set_cpu_pgroup mycpu (-1).

Definition add_my_proc_to_pgroup (group myproc : nat) : M kst unit :=
  me ← cur_proc;
  if negb (bool_decide (myproc = me)) then panic "add_my_proc_to_pgroup: add other's proc" else
  p ← read_proc myproc;
  if negb (p_pgroup_id p =? -1) then panic "add_my_proc_to_pgroup: add proc that has been added" else
  ldo (list_add (LProc myproc) (LHead group)) ;;
  g ← read_group group;
  upd_proc myproc (set_p_pgroup_id (g_id g)).

Definition remove_my_proc_from_pgroup (myproc : nat) : M kst unit :=
  me ← cur_proc;
  if negb (bool_decide (myproc = me)) then panic "remove_my_proc_from_pgroup: add other's proc" else
  p ← read_proc myproc;
  if p_pgroup_id p =? -1
  then panic "remove_my_proc_from_pgroup: remove proc that haven't been added" else
  ldo (list_del LPoison1 LPoison2 (LProc myproc)) ;;
  upd_proc myproc (set_p_pgroup_id (-1)).

(** [None] is NULL. *)
Definition alloc_pgroup (guard_cpu : Z) : M kst (option nat) :=
  for_loop (Z.to_nat MAX_PROC_GROUP_NUM) 0 (fun i =>
    let pgroup := Z.to_nat i in
    acquire (LkGroup pgroup) ;;
    g ← read_group pgroup;
    if g_id g =? -1 then
      upd_group pgroup (set_g_id i) ;;
      add_my_cpu_to_pgroup pgroup guard_cpu ;;
      release (LkGroup pgroup) ;;
      mret (Some pgroup)
    else release (LkGroup pgroup) ;; mret None).

Definition proc_group_init : M kst unit :=
  for_each (Z.to_nat MAX_PROC_GROUP_NUM) 0 (fun i =>
    let g := Z.to_nat i in
    upd_group g (set_g_id (-1)) ;;
    ldo (INIT_LIST_HEAD (LHead g)) ;;
    for_each (Z.to_nat MAX_CPU_NUM) 0 (fun j =>
      upd_group g (fun g => set_g_cpus (<[Z.to_nat j := -1]> (g_cpus g)) g)) ;;
    hwdo (init_spin_lock (LkGroup g))) ;;
  hwdo (init_spin_lock LkFreeCpus) ;;
  init_cpu_message.

Definition setup_default_proc_group (proc : nat) : M kst unit :=
  mycpu ← hwdo my_cpu;
  group ← alloc_pgroup mycpu;
  match group with
  | None => panic "setup_default_proc_group: init group fail"
  | Some group =>
      g ← read_group group;
      if negb (g_id g =? DEFAULT_PGROUP_ID)
      then panic "setup_default_proc_group: init group fail" else
      ldo (list_add (LProc proc) (LHead group)) ;;
      upd_proc proc (set_p_pgroup_id DEFAULT_PGROUP_ID)
  end.

Definition proc_group_init_hart : M kst unit :=
  let pgroup := get_default_pgroup in
  mycpu ← hwdo my_cpu;
  acquire (LkGroup pgroup) ;;
  add_my_cpu_to_pgroup pgroup mycpu ;;
  release (LkGroup pgroup) ;;
  inc_free_cpus.

Definition pgroup_cpu_count_unsafe (group : nat) : M kst Z :=
  g ← read_group group;
  mret (Z.of_nat (length (filter (fun c => c <> -1) (g_cpus g)))).

Definition cpu_leave_pgroup : M kst Z :=
  on ← hwdo intr_is_on;
  if negb (on =? 0) then panic "cpu_leave_pgroup: call with intr on" else
  mycpu ← hwdo my_cpu_unsafe;
  c ← read_kcpu mycpu;
  let old_group := Z.to_nat (c_pgroup_id c) in
  let origin_id := c_pgroup_id c in
  remove_my_cpu_from_pgroup old_group mycpu ;;
  n ← pgroup_cpu_count_unsafe old_group;
  if negb (n =? 0) then
    if negb (origin_id =? DEFAULT_PGROUP_ID) then mret 0 else
    r ← dec_free_cpus;
    if r =? 0 then mret 0 else
    add_my_cpu_to_pgroup old_group mycpu ;; mret (-1)
  else
  e ← ldo (list_empty (LHead old_group));
  if (e : bool) then free_pgroup old_group ;; mret 0 else
  add_my_cpu_to_pgroup old_group mycpu ;; mret (-1).

Definition proc_leave_pgroup_may_with_cpu (way : leave_way) : M kst Z :=
  on ← hwdo intr_is_on;
  if negb (on =? 0) then panic "proc_leave_pgroup_may_with_cpu: call with intr on" else
  proc ← cur_proc;
  p ← read_proc proc;
  let old_group := Z.to_nat (p_pgroup_id p) in
  acquire (LkGroup old_group) ;;
  remove_my_proc_from_pgroup proc ;;
  if negb (bool_decide (way = WITH_CPU)) then release (LkGroup old_group) ;; mret 0 else
  err ← cpu_leave_pgroup;
  if negb (err =? 0) then
    add_my_proc_to_pgroup old_group proc ;;
    release (LkGroup old_group) ;;
    mret (-1)
  else
    release (LkGroup old_group) ;;
    mret 0.

Definition proc_leave_pgroup_without_cpu : M kst unit :=
  err ← proc_leave_pgroup_may_with_cpu JUST_PROC;
  if negb (err =? 0)
  then panic "proc_leave_pgroup_without_cpu: proc fail to leave proc group without cpu" else mret tt.

Definition proc_leave_pgroup_with_cpu : M kst Z := proc_leave_pgroup_may_with_cpu WITH_CPU.

Definition get_pgroup_id : M kst Z := me ← cur_proc; p ← read_proc me; mret (p_pgroup_id p).

Definition pgroup_procs_count_unsafe (pgroup : nat) : M kst Z :=
  n ← ldo (list_count_nodes procs_fuel (LHead pgroup)); mret (i32 n).

Definition pgroup_procs_count : M kst Z :=
  id ← get_pgroup_id;
  let pgroup := get_proc_group id in
  acquire (LkGroup pgroup) ;;
  n ← pgroup_procs_count_unsafe pgroup;
  release (LkGroup pgroup) ;;
  mret n.

Definition create_pgroup : M kst Z :=
  hwdo push_introff ;;
  err ← proc_leave_pgroup_with_cpu;
  if negb (err =? 0) then hwdo pop_introff ;; mret (-1) else
  proc ← cur_proc;
  mycpu ← hwdo my_cpu;
  new_group ← alloc_pgroup mycpu;
  match new_group with
  | None => panic "create_pgroup: run out of proc group"
  | Some new_group =>
      acquire (LkGroup new_group) ;;
      add_my_proc_to_pgroup new_group proc ;;
      release (LkGroup new_group) ;;
      hwdo pop_introff ;;
      p ← read_proc proc;
      mret (p_pgroup_id p)
  end.

Definition enter_pgroup (pgroup_id : Z) : M kst Z :=
  if (pgroup_id >=? MAX_PROC_GROUP_NUM) || (pgroup_id <? 0) then mret (-1) else
  proc ← cur_proc;
  p ← read_proc proc;
  let new_group := Z.to_nat pgroup_id in
  let old_group := Z.to_nat (p_pgroup_id p) in
  if bool_decide (new_group = old_group) then mret 0 else
  hwdo push_introff ;;
  proc_leave_pgroup_without_cpu ;;
  acquire (LkGroup new_group) ;;
  g ← read_group new_group;
  if g_id g =? -1 then
    release (LkGroup new_group) ;;
    acquire (LkGroup old_group) ;;
    add_my_proc_to_pgroup old_group proc ;;
    release (LkGroup old_group) ;;
    hwdo pop_introff ;;
    mret (-1)
  else
    add_my_proc_to_pgroup new_group proc ;;
    release (LkGroup new_group) ;;
    hwdo pop_introff ;;
    yield RUNABLE ;;
    mret 0.

Definition cpu_leave_pgroup_if_empty : M kst Z :=
  mycpu ← hwdo my_cpu_unsafe;
  c ← read_kcpu mycpu;
  let pgroup := Z.to_nat (c_pgroup_id c) in
  e ← ldo (list_empty (LHead pgroup));
  if negb e then mret (-1) else
  remove_my_cpu_from_pgroup pgroup mycpu ;;
  n ← pgroup_cpu_count_unsafe pgroup;
  (if n =? 0 then free_pgroup pgroup else mret tt) ;;
  release (LkGroup pgroup) ;;
  let default_group := get_default_pgroup in
  acquire (LkGroup default_group) ;;
  add_my_cpu_to_pgroup default_group mycpu ;;
  release (LkGroup default_group) ;;
  inc_free_cpus ;;
  acquire (LkGroup pgroup) ;;
  mret 0.

Definition proc_move_to_tail (pgroup proc : nat) : M kst unit :=
  ldo (list_del LPoison1 LPoison2 (LProc proc)) ;;
  ldo (list_add_tail (LProc proc) (LHead pgroup)).

Definition forkproc_into_pgroup (pgroup_id : Z) (proc : nat) : M kst Z :=
  if (pgroup_id >=? MAX_CPU_NUM) || (pgroup_id <? 0) then mret (-1) else
  let new_group := Z.to_nat pgroup_id in
  acquire (LkGroup new_group) ;;
  g ← read_group new_group;
  if (g_id g =? -1) || negb (g_exclusively_occupy g =? 0) then
    release (LkGroup new_group) ;; mret (-1)
  else
    ldo (list_add (LProc proc) (LHead new_group)) ;;
    upd_proc proc (set_p_pgroup_id pgroup_id) ;;
    release (LkGroup new_group) ;;
    mret 0.

Definition exit_pgroup : M kst unit := proc_leave_pgroup_without_cpu.

Definition pgroup_cpu_count : M kst Z :=
  id ← get_pgroup_id;
  let group := Z.to_nat id in
  acquire (LkGroup group) ;;
  n ← pgroup_cpu_count_unsafe group;
  release (LkGroup group) ;;
  mret n.

Definition inc_pgroup_cpus : M kst Z :=
  proc ← cur_proc;
  p ← read_proc proc;
  let pgroup := get_proc_group (p_pgroup_id p) in
  let m := mk_cpu_message NEED_CPU (ChMessage proc) (p_pgroup_id p) in
  occ ← (if p_pgroup_id p =? DEFAULT_PGROUP_ID then mret true else
         g ← read_group pgroup; mret (negb (g_exclusively_occupy g =? 0)));
  if (occ : bool) then mret (-1) else
  err ← dec_free_cpus;
  if negb (err =? 0) then mret (-1) else
  acquire (LkGroup pgroup) ;;
  send_cpu_message m ;;
  sleep (LkGroup pgroup) (ChMessage proc) ;;
  release (LkGroup pgroup) ;;
  mret 0.

Definition inc_pgroup_cpus_flex : M kst Z :=
  proc ← cur_proc;
  p ← read_proc proc;
  let pgroup := get_proc_group (p_pgroup_id p) in
  occ ← (if p_pgroup_id p =? DEFAULT_PGROUP_ID then mret true else
         g ← read_group pgroup; mret (negb (g_exclusively_occupy g =? 0)));
  if (occ : bool) then mret (-1) else
  err ← dec_free_cpus;
  if negb (err =? 0) then mret (-1) else
  send_cpu_message (mk_cpu_message NEED_CPU_FLEX ChNull (p_pgroup_id p)) ;;
  mret 0.

Definition dec_pgroup_cpus : M kst Z :=
  hwdo push_introff ;;
  mycpu ← hwdo my_cpu;
  c ← read_kcpu mycpu;
  let pgroup := Z.to_nat (c_pgroup_id c) in
  if c_pgroup_id c =? DEFAULT_PGROUP_ID then hwdo pop_introff ;; mret (-1) else
  acquire (LkGroup pgroup) ;;
  err ← cpu_leave_pgroup;
  release (LkGroup pgroup) ;;
  if negb (err =? 0) then hwdo pop_introff ;; mret (-1) else
  let default_group := get_default_pgroup in
  acquire (LkGroup default_group) ;;
  add_my_cpu_to_pgroup default_group mycpu ;;
  release (LkGroup default_group) ;;
  inc_free_cpus ;;
  hwdo pop_introff ;;
  yield RUNABLE ;;
  mret 0.

Definition handle_cpu_acquire : M kst unit :=
  mycpu ← hwdo my_cpu_unsafe;
  c ← read_kcpu mycpu;
  if negb (c_pgroup_id c =? DEFAULT_PGROUP_ID)
  then panic "handle_cpu_acquire: other proc group cpus want to handle cpu acquire" else
  no ← no_message_atomic;
  if (no : bool) then mret tt else
  m ← get_cpu_message;
  let old_group := get_default_pgroup in
  match m_type m with
  | EMP_MESSAGE => resend_cpu_message m
  | _ =>
      let new_group := get_proc_group (m_pgroup_id m) in
      acquire (LkGroup old_group) ;;
      n ← pgroup_cpu_count_unsafe old_group;
      if n =? 1 then panic "handle_cpu_acquire: too many cpus been allocate" else
      remove_my_cpu_from_pgroup old_group mycpu ;;
      release (LkGroup old_group) ;;
      acquire (LkGroup new_group) ;;
      g ← read_group new_group;
      if (g_id g =? -1) && bool_decide (m_type m = NEED_CPU)
      then panic "handle_cpu_acquire: empty group acquire cpu" else
      if (g_id g =? -1) then
        release (LkGroup new_group) ;;
        acquire (LkGroup old_group) ;;
        add_my_cpu_to_pgroup old_group mycpu ;;
        inc_free_cpus ;;
        release (LkGroup old_group)
      else
        add_my_cpu_to_pgroup new_group mycpu ;;
        (if bool_decide (m_type m = NEED_CPU) then wake_up (m_sleep_chain m) else mret tt) ;;
        release (LkGroup new_group)
  end.

Definition proc_occupy_cpu : M kst Z :=
  proc ← cur_proc;
  p ← read_proc proc;
  let pgroup := get_proc_group (p_pgroup_id p) in
  if p_pgroup_id p =? DEFAULT_PGROUP_ID then mret (-1) else
  acquire (LkGroup pgroup) ;;
  np ← pgroup_procs_count_unsafe pgroup;
  nc ← pgroup_cpu_count_unsafe pgroup;
  if negb (np =? 1) || negb (nc =? 1) then release (LkGroup pgroup) ;; mret (-1) else
  upd_group pgroup (set_g_exclusively_occupy 1) ;;
  hwdo enable_soft_intr ;;
  release (LkGroup pgroup) ;;
  mret 0.

Definition proc_release_cpu : M kst Z :=
  proc ← cur_proc;
  p ← read_proc proc;
  let pgroup := get_proc_group (p_pgroup_id p) in
  acquire (LkGroup pgroup) ;;
  np ← pgroup_procs_count_unsafe pgroup;
  nc ← pgroup_cpu_count_unsafe pgroup;
  if negb (np =? 1) || negb (nc =? 1)
  then panic "proc_release_cpu: process exclusively occupy cpu fail, 1 more procs" else
  g ← read_group pgroup;
  if g_exclusively_occupy g =? 0 then release (LkGroup pgroup) ;; mret (-1) else
  upd_group pgroup (set_g_exclusively_occupy 0) ;;
  hwdo enable_soft_n_external_intr ;;
  release (LkGroup pgroup) ;;
  mret 0.

Definition is_exclusive_occupy (proc : nat) : M kst Z :=
  p ← read_proc proc;
  g ← read_group (get_proc_group (p_pgroup_id p));
  mret (g_exclusively_occupy g).
