(* ===== verification/Scheduler.v ===== *)
(** * The scheduler of a hart: kernel/scheduler/scheduler.c *)

From S2P Require Import Prelude Hart ListH VmSystem Mem Kalloc State Sleep CpuMessage ProcGroup.

(** [container_of] of a link: the process it sits in. *)
Definition proc_of_link (n : lnode) : M kst nat :=
  match n with LProc i => mret i | _ => undef end.

Definition get_runnable_proc_with_lock (pgroup : nat) : M kst (option nat) :=
  first ← ldo (get_next (LHead pgroup));
  while_loop procs_fuel first (fun pos =>
    if list_is_head pos (LHead pgroup) then mret (inr None) else
    proc ← proc_of_link pos;
    acquire (LkProc proc) ;;
    p ← read_proc proc;
    if bool_decide (p_status p = RUNABLE) then mret (inr (Some proc)) else
    release (LkProc proc) ;;
    next ← ldo (get_next pos);
    mret (inl next)).

Definition set_cpu_proc (i : Z) (p : option nat) : M kst unit :=
  c ← read_kcpu i;
  hwdo (write_cpu i (mk_cpu (c_cpu_id c) (c_pgroup_id c) p (c_origin_ie c) (c_introff_n c))).

(** [swtch] to a process gives the hart away until the process switches back. *)
Definition run_process : M kst Z :=
  mycpu ← hwdo my_cpu_unsafe;
  c ← read_kcpu mycpu;
  (if c_pgroup_id c =? DEFAULT_PGROUP_ID then handle_cpu_acquire else mret tt) ;;
  c ← read_kcpu mycpu;
  let pgroup := get_proc_group (c_pgroup_id c) in
  acquire (LkGroup pgroup) ;;
  g ← read_group pgroup;
  if g_id g =? -1 then panic "run_process: cpu try to run in empty proc group" else
  c ← read_kcpu mycpu;
  left ← (if negb (c_pgroup_id c =? DEFAULT_PGROUP_ID) then
            r ← cpu_leave_pgroup_if_empty; mret (r =? 0)
          else mret false);
  if (left : bool) then release (LkGroup pgroup) ;; mret 0 else
  proc ← get_runnable_proc_with_lock pgroup;
  match proc with
  | None => release (LkGroup pgroup) ;; mret (-1)
  | Some proc =>
      proc_move_to_tail pgroup proc ;;
      release (LkGroup pgroup) ;;
      hwdo (set_origin_ie mycpu 0) ;;
      set_cpu_proc mycpu (Some proc) ;;
      upd_proc proc (set_p_status RUNNING) ;;
      swtch ;;
      set_cpu_proc mycpu None ;;
      release (LkProc proc) ;;
      mret 0
  end.

(** A round of [scheduler]'s endless loop; [wfi] (when no process is runnable) only
    waits for an interrupt. *)
Definition scheduler_round : M kst Z :=
  no_runable_proc ← run_process;
  hwdo intron ;;
  mret no_runable_proc.
