(* ===== verification/Uart.v ===== *)
(** * The UART driver and the console: kernel/driver/uart.c, kernel/io/console/console.c *)

From S2P Require Import Prelude Hart VmSystem Mem Kalloc PageTable UserCopy State Sleep.

Definition UART_OUTPUT_SIZE : Z := 16.
Definition UART_INPUT_SIZE : Z := 64.
Definition BACKSPACE_CHAR : Z := 8.
Definition CTRL (x : Z) : Z := x - 64.

Inductive console_event := BACKSPACE | GET_LINE | GET_EOF | GET_CH.
#[export] Instance console_event_eq_dec : EqDecision console_event.
Proof. solve_decision. Defined.

(** ** The device registers *)

Definition upd_dev (f : uart_dev -> uart_dev) : M kst unit := upd_con (fun c => set_cs_dev (f (cs_dev c)) c).
Definition thr_ready : M kst bool :=
  gets (fun s => match ud_room (cs_dev (k_con s)) with O => false | S _ => true end).
Definition rhr_ready : M kst bool :=
  gets (fun s => match ud_rx (cs_dev (k_con s)) with [] => false | _ => true end).
Definition read_rhr : M kst Z :=
  d ← gets (fun s => cs_dev (k_con s));
  match ud_rx d with
  | [] => mret 0
  | c :: r => upd_dev (set_ud_rx r) ;; mret (u8 c)
  end.
Definition write_thr (c : Z) : M kst unit :=
  upd_dev (fun d => mk_uart_dev (ud_rx d) (pred (ud_room d)) (u8 c :: ud_tx d)).

(** ** kernel/driver/uart.c *)

(** The writes that configure the device (baud rate, FIFOs, interrupt enables) do
    nothing to the registers modelled here. *)
Definition uartinit : M kst unit :=
  hwdo (init_spin_lock LkUartOut) ;; hwdo (init_spin_lock LkUartIn).

(** Busy-waits for the transmitter. *)
Definition uart_polling_putc (c : Z) : M kst unit :=
  r ← thr_ready;
  if (r : bool) then write_thr c else spin.

Definition uart_queue_empty (beg end_ : Z) : bool := beg =? end_.
Definition uart_queue_full (beg end_ size : Z) : bool := u64 (end_ - beg) =? size.

Definition uart_input_not_empty : M kst bool :=
  c ← gets k_con; mret (negb (cs_iq_beg c =? cs_iq_end c)).

Definition uart_putc_output_queue : M kst Z :=
  r ← thr_ready;
  c ← gets k_con;
  if r && negb (uart_queue_empty (cs_oq_beg c) (cs_oq_end c)) then
    x ← lift_opt (cs_oq c !! Z.to_nat (cs_oq_beg c mod UART_OUTPUT_SIZE));
    write_thr x ;;
    upd_con (fun c => set_cs_oq_beg (u64 (cs_oq_beg c + 1)) c) ;;
    mret 0
  else mret (-1).

(** The queue holds at most [UART_OUTPUT_SIZE] bytes. *)
Definition uart_running_output_queue : M kst unit :=
  has_output ← while_loop (S (Z.to_nat UART_OUTPUT_SIZE)) false (fun has_output =>
    r ← uart_putc_output_queue;
    mret (if r =? 0 then inl true else inr has_output));
  if (has_output : bool) then wake_up ChUartOut else mret tt.

(** *** The line discipline of the console *)

Definition console_kputc (c : Z) : M kst unit :=
  hwdo push_introff ;; uart_polling_putc c ;; hwdo pop_introff.

Definition console_kwrite (s len : Z) : M kst unit :=
  hwdo push_introff ;;
  for_each (Z.to_nat len) 0 (fun i => c ← kld8 (s + i); uart_polling_putc c) ;;
  hwdo pop_introff.

Definition console_intr (c : Z) : M kst console_event :=
  if c =? CTRL 72 then
    ne ← uart_input_not_empty;
    (if (ne : bool) then
       console_kputc BACKSPACE_CHAR ;; console_kputc 32 ;; console_kputc BACKSPACE_CHAR
     else mret tt) ;;
    mret BACKSPACE
  else if (c =? 13) || (c =? 10) || (c =? CTRL 68) then
    console_kputc 10 ;;
    acquire LkInputLines ;;
    upd_con (fun k => set_cs_input_lines (u64 (cs_input_lines k + 1)) k) ;;
    release LkInputLines ;;
    wake_up ChInputLines ;;
    mret (if c =? CTRL 68 then GET_EOF else GET_LINE)
  else console_kputc c ;; mret GET_CH.

Definition iq_push (c : Z) (k : console_st) : console_st :=
  let k := set_cs_iq (<[Z.to_nat (cs_iq_end k mod UART_INPUT_SIZE) := c]> (cs_iq k)) k in
  let k := if uart_queue_full (cs_iq_beg k) (cs_iq_end k) UART_INPUT_SIZE
           then set_cs_iq_beg (u64 (cs_iq_beg k + 1)) k else k in
  set_cs_iq_end (u64 (cs_iq_end k + 1)) k.

Definition uart_getc_input_queue : M kst Z :=
  r ← rhr_ready;
  if (r : bool) then
    c ← read_rhr;
    res ← console_intr c;
    match res with
    | BACKSPACE =>
        upd_con (fun k => if uart_queue_empty (cs_iq_beg k) (cs_iq_end k) then k
                          else set_cs_iq_end (u64 (cs_iq_end k - 1)) k) ;;
        mret 0
    | GET_LINE => upd_con (iq_push 10) ;; mret 0
    | _ => upd_con (iq_push c) ;; mret 0
    end
  else mret (-1).

(** The device delivers what it has received. *)
Definition uart_running_input_queue : M kst unit :=
  n ← gets (fun s => length (ud_rx (cs_dev (k_con s))));
  has_input ← while_loop (S n) false (fun has_input =>
    r ← uart_getc_input_queue;
    mret (if r =? 0 then inl true else inr has_input));
  if (has_input : bool) then wake_up ChUartIn else mret tt.

Section Uart.
Context `{WaitFuel}.

(** [cur] counts the bytes taken from the string at [s]. *)
Definition uart_write_fill (s len cur : Z) : M kst Z :=
  while_loop (S (Z.to_nat UART_OUTPUT_SIZE)) cur (fun cur =>
    k ← gets k_con;
    if negb (uart_queue_full (cs_oq_beg k) (cs_oq_end k) UART_OUTPUT_SIZE) && negb (cur =? len) then
      c ← kld8 (s + cur);
      upd_con (fun k => set_cs_oq (<[Z.to_nat (cs_oq_end k mod UART_OUTPUT_SIZE) := c]> (cs_oq k)) k) ;;
      upd_con (fun k => set_cs_oq_end (u64 (cs_oq_end k + 1)) k) ;;
      mret (inl (cur + 1))
    else mret (inr cur)).

Definition uart_write (s len : Z) : M kst unit :=
  acquire LkUartOut ;;
  while_loop (S (Z.to_nat len)) 0 (fun cur =>
    if negb (cur <? len) then mret (inr tt) else
    while_loop wait_fuel tt (fun _ =>
      k ← gets k_con;
      if uart_queue_full (cs_oq_beg k) (cs_oq_end k) UART_OUTPUT_SIZE
      then sleep LkUartOut ChUartOut ;; mret (inl tt) else mret (inr tt)) ;;
    cur ← uart_write_fill s len cur;
    uart_running_output_queue ;;
    mret (inl cur)) ;;
  release LkUartOut.

(** The byte is written from the parameter's stack slot. *)
Definition uart_putc `{KernelData} (c : Z) : M kst unit := kst8 local_ch c ;; uart_write local_ch 1.

Definition iq_pop : M kst Z :=
  k ← gets k_con;
  c ← lift_opt (cs_iq k !! Z.to_nat (cs_iq_beg k mod UART_INPUT_SIZE));
  upd_con (fun k => set_cs_iq_beg (u64 (cs_iq_beg k + 1)) k) ;;
  mret c.

Definition uart_just_getc : M kst Z :=
  acquire LkUartIn ;;
  k ← gets k_con;
  if uart_queue_empty (cs_iq_beg k) (cs_iq_end k) then release LkUartIn ;; mret (-1) else
  c ← iq_pop;
  release LkUartIn ;;
  mret c.

Definition uart_getc : M kst Z :=
  acquire LkUartIn ;;
  while_loop wait_fuel tt (fun _ =>
    k ← gets k_con;
    if uart_queue_empty (cs_iq_beg k) (cs_iq_end k)
    then sleep LkUartIn ChUartIn ;; mret (inl tt) else mret (inr tt)) ;;
  c ← iq_pop;
  release LkUartIn ;;
  mret c.

Definition uart_intr : M kst unit :=
  acquire LkUartIn ;;
  uart_running_input_queue ;;
  release LkUartIn ;;
  acquire LkUartOut ;;
  uart_running_output_queue ;;
  release LkUartOut.

(** ** kernel/io/console/console.c *)

Definition console_getc : M kst Z :=
  acquire LkInputLines ;;
  while_loop wait_fuel tt (fun _ =>
    k ← gets k_con;
    if cs_input_lines k =? 0 then sleep LkInputLines ChInputLines ;; mret (inl tt) else mret (inr tt)) ;;
  c ← uart_just_getc;
  c ← (if c =? -1 then
         release LkInputLines ;; c ← uart_getc; acquire LkInputLines ;; mret c
       else mret c);
  (if (c =? 10) || (c =? CTRL 68)
   then upd_con (fun k => set_cs_input_lines (u64 (cs_input_lines k - 1)) k) else mret tt) ;;
  release LkInputLines ;;
  mret c.

Context `{KernelData}.

Definition console_putc (c : Z) : M kst unit := uart_putc c.
Definition console_write (s len : Z) : M kst unit := uart_write s len.

(** [char c] is a local of the caller; [uart_putc] has its own copy. *)
Definition console_write_dev (userdst : ptr_kind) (ustr len : Z) : M kst Z :=
  r ← for_loop (Z.to_nat len) 0 (fun i =>
    me ← cur_proc; p ← read_proc me;
    err ← kmdo (copyin_uork (p_pgtable p) (local_ch + 1) (u64 (ustr + i)) 1 userdst);
    if negb (err =? 0) then mret (Some i) else
    c ← kld8 (local_ch + 1);
    console_putc c ;;
    mret None);
  mret (default len r).

Definition console_read_dev (userdst : ptr_kind) (ustr len : Z) : M kst Z :=
  r ← for_loop (Z.to_nat len) 0 (fun i =>
    c ← console_getc;
    if c =? CTRL 68 then mret (Some (-1)) else
    kst8 (local_ch + 1) c ;;
    me ← cur_proc; p ← read_proc me;
    err ← kmdo (copyout_uork (p_pgtable p) (u64 (ustr + i)) (local_ch + 1) 1 userdst);
    if negb (err =? 0) then mret (Some i) else mret None);
  mret (default len r).

Definition CONSOLE : Z := 1.
Definition console_init : M kst unit :=
  hwdo (init_spin_lock LkInputLines) ;;
  uartinit ;;
  modify (fun s => set_k_devsw (<[Z.to_nat CONSOLE := true]> (k_devsw s)) s).

End Uart.
