(* ===== verification/UartSpec.v ===== *)
(** * What the UART queues and the line discipline promise: Uart.v

    The two ring buffers are queues; what the interrupt handler does with a received
    byte is [input_step] on the queue and the count of lines. *)

From S2P Require Import Prelude Hart VmSystem Mem Kalloc PageTable UserCopy State Critical Sleep SleepSpec Uart.

(** ** Rings with free-running 64-bit positions *)

Definition ring_size (beg end_ : Z) : Z := u64 (end_ - beg).

Definition ring_list (N : Z) (a : list Z) (beg end_ : Z) : list Z :=
  map (fun i => default 0 (a !! Z.to_nat ((beg + Z.of_nat i) mod N))) (seq 0 (Z.to_nat (ring_size beg end_))).

Record ring_inv (N : Z) (a : list Z) (beg end_ : Z) : Prop := {
  ri_len : length a = Z.to_nat N;
  ri_size : ring_size beg end_ <= N;
  ri_beg : 0 <= beg < 2 ^ 64;
  ri_end : 0 <= end_ < 2 ^ 64 }.

Section Ring.
Variable N : Z.
Hypothesis HN : 0 < N <= 64.
Hypothesis Hdiv : (N | 2 ^ 64).

Lemma ring_slot i : u64 i mod N = i mod N.
Proof. unfold u64. by apply Z.mod_mod_divide. Qed.

Lemma ring_slot_inj i j : 0 <= i - j < N -> i mod N = j mod N -> i = j.
Proof.
  intros H E. pose proof (Z.div_mod i N ltac:(lia)) as Hi. pose proof (Z.div_mod j N ltac:(lia)) as Hj.
  rewrite E in Hi. revert Hi Hj. generalize (i / N) (j / N) (j mod N). clear E. intros a b m -> ->.
  destruct (Z.lt_trichotomy a b) as [Hab|[->|Hab]]; [nia|done|nia].
Qed.

Lemma ring_size_nonneg beg end_ : 0 <= ring_size beg end_.
Proof. apply u64_range. Qed.

Lemma ring_size_push beg end_ : ring_size beg end_ < 64 + 1 ->
  ring_size beg (u64 (end_ + 1)) = ring_size beg end_ + 1.
Proof.
  intros H. pose proof (ring_size_nonneg beg end_). unfold ring_size, u64 in *.
  rewrite Zminus_mod_idemp_l. replace (end_ + 1 - beg) with (end_ - beg + 1) by lia.
  rewrite <- (Zplus_mod_idemp_l (end_ - beg)). rewrite (Z.mod_small (_ + 1)); lia.
Qed.

Lemma ring_size_pop beg end_ : 0 < ring_size beg end_ ->
  ring_size (u64 (beg + 1)) end_ = ring_size beg end_ - 1.
Proof.
  intros H. pose proof (u64_range (end_ - beg)). unfold ring_size, u64 in *.
  rewrite Zminus_mod_idemp_r. replace (end_ - (beg + 1)) with (end_ - beg - 1) by lia.
  rewrite <- (Zminus_mod_idemp_l (end_ - beg)). rewrite (Z.mod_small (_ - 1)); lia.
Qed.

Lemma ring_size_back beg end_ : 0 < ring_size beg end_ ->
  ring_size beg (u64 (end_ - 1)) = ring_size beg end_ - 1.
Proof.
  intros H. pose proof (u64_range (end_ - beg)). unfold ring_size, u64 in *.
  rewrite Zminus_mod_idemp_l. replace (end_ - 1 - beg) with (end_ - beg - 1) by lia.
  rewrite <- (Zminus_mod_idemp_l (end_ - beg)). rewrite (Z.mod_small (_ - 1)); lia.
Qed.

(** The slot of the position after the last element. *)
Lemma ring_end_slot beg end_ : (beg + ring_size beg end_) mod N = end_ mod N.
Proof.
  unfold ring_size. rewrite <- (ring_slot (beg + u64 (end_ - beg))), <- (ring_slot end_).
  f_equal. unfold u64. rewrite Zplus_mod_idemp_r. f_equal. lia.
Qed.

Lemma length_ring_list a beg end_ : length (ring_list N a beg end_) = Z.to_nat (ring_size beg end_).
Proof. unfold ring_list. by rewrite length_map, length_seq. Qed.

(** Dropping the first element. *)
Lemma ring_pop a beg end_ :
  ring_inv N a beg end_ -> 0 < ring_size beg end_ ->
  ring_inv N a (u64 (beg + 1)) end_ /\
  exists c, a !! Z.to_nat (beg mod N) = Some c /\
    ring_list N a beg end_ = c :: ring_list N a (u64 (beg + 1)) end_.
Proof.
  intros [Hlen Hs Hb He] Hpos. split.
  { split; [done|rewrite ring_size_pop; lia|apply u64_range|done]. }
  destruct (lookup_lt_is_Some_2 a (Z.to_nat (beg mod N))) as [c Hc].
  { pose proof (Z.mod_pos_bound beg N). lia. }
  exists c. split; [done|]. unfold ring_list. rewrite ring_size_pop by done.
  replace (Z.to_nat (ring_size beg end_)) with (S (Z.to_nat (ring_size beg end_ - 1))) by lia.
  cbn [seq map]. rewrite Z.add_0_r, Hc. cbn [default id]. f_equal.
  rewrite <- seq_shift, map_map. apply map_ext. intros i. do 3 f_equal.
  rewrite <- (ring_slot (u64 (beg + 1) + Z.of_nat i)), <- (ring_slot (beg + _)). f_equal.
  unfold u64. rewrite Zplus_mod_idemp_l. f_equal. lia.
Qed.

(** Writing the slot after the last element does not touch the others. *)
Lemma ring_push a beg end_ c :
  ring_inv N a beg end_ -> ring_size beg end_ < N ->
  ring_inv N (<[Z.to_nat (end_ mod N) := c]> a) beg (u64 (end_ + 1)) /\
  ring_list N (<[Z.to_nat (end_ mod N) := c]> a) beg (u64 (end_ + 1)) = ring_list N a beg end_ ++ [c].
Proof.
  intros [Hlen Hs Hb He] Hlt. pose proof (ring_size_nonneg beg end_) as H0. split.
  { split; [by rewrite length_insert|rewrite ring_size_push; lia|done|apply u64_range]. }
  unfold ring_list. rewrite ring_size_push by lia.
  replace (Z.to_nat (ring_size beg end_ + 1)) with (S (Z.to_nat (ring_size beg end_))) by lia.
  rewrite seq_S, map_app. cbn [map Nat.add]. f_equal.
  - apply map_ext_in. intros i Hi%in_seq. rewrite list_lookup_insert_ne; [done|].
    intros E. apply Z2Nat.inj in E; try (apply Z.mod_pos_bound; lia).
    rewrite <- (ring_end_slot beg end_) in E.
    assert (beg + ring_size beg end_ = beg + Z.of_nat i); [apply ring_slot_inj; lia|lia].
  - rewrite Z2Nat.id by lia. rewrite ring_end_slot, list_lookup_insert_eq; [done|].
    pose proof (Z.mod_pos_bound end_ N). lia.
Qed.

(** Taking the last element back. *)
Lemma ring_back a beg end_ :
  ring_inv N a beg end_ -> 0 < ring_size beg end_ ->
  ring_inv N a beg (u64 (end_ - 1)) /\
  ring_list N a beg (u64 (end_ - 1)) = removelast (ring_list N a beg end_).
Proof.
  intros [Hlen Hs Hb He] Hpos. split.
  { split; [done|rewrite ring_size_back; lia|done|apply u64_range]. }
  unfold ring_list. rewrite ring_size_back by done.
  replace (Z.to_nat (ring_size beg end_)) with (S (Z.to_nat (ring_size beg end_ - 1))) by lia.
  rewrite seq_S, map_app. cbn [map]. by rewrite removelast_last.
Qed.

(** Writing into a full ring drops the oldest element. *)
Lemma ring_push_full a beg end_ c :
  ring_inv N a beg end_ -> ring_size beg end_ = N ->
  ring_inv N (<[Z.to_nat (end_ mod N) := c]> a) (u64 (beg + 1)) (u64 (end_ + 1)) /\
  ring_list N (<[Z.to_nat (end_ mod N) := c]> a) (u64 (beg + 1)) (u64 (end_ + 1)) =
  tail (ring_list N a beg end_) ++ [c].
Proof.
  intros Hi Hf. destruct (ring_pop a beg end_ Hi ltac:(lia)) as (Hi1 & x & Hx & E).
  pose proof (ring_push a (u64 (beg + 1)) end_ c Hi1 ltac:(rewrite ring_size_pop; lia)) as [Hi2 E2].
  split; [done|]. by rewrite E2, E.
Qed.
End Ring.

(** ** The line discipline *)

Definition in_queue (k : console_st) : list Z := ring_list UART_INPUT_SIZE (cs_iq k) (cs_iq_beg k) (cs_iq_end k).
Definition in_inv (k : console_st) : Prop := ring_inv UART_INPUT_SIZE (cs_iq k) (cs_iq_beg k) (cs_iq_end k).

Definition is_line_end (c : Z) : bool := (c =? 13) || (c =? 10) || (c =? CTRL 68).

(** A full queue forgets its oldest byte. *)
Definition push_input (q : list Z) (c : Z) : list Z :=
  (if decide (length q = Z.to_nat UART_INPUT_SIZE) then tail q else q) ++ [c].

(** The queue and the number of complete lines after byte [c]. *)
Definition input_step (c : Z) (st : list Z * Z) : list Z * Z :=
  let '(q, lines) := st in
  if c =? CTRL 72 then (removelast q, lines) else
  if is_line_end c then (push_input q (if c =? CTRL 68 then c else 10), u64 (lines + 1)) else
  (push_input q c, lines).

(** What the device is sent, last byte first. *)
Definition echo (c : Z) (q : list Z) : list Z :=
  if c =? CTRL 72 then match q with [] => [] | _ => [8; 32; 8] end else
  if is_line_end c then [10] else [c].

Lemma input_size_div : (UART_INPUT_SIZE | 2 ^ 64).
Proof. by exists (2 ^ 58). Qed.
Lemma input_size_range : 0 < UART_INPUT_SIZE <= 64.
Proof. unfold UART_INPUT_SIZE. lia. Qed.

Lemma iq_push_spec c k :
  in_inv k -> in_inv (iq_push c k) /\ in_queue (iq_push c k) = push_input (in_queue k) c /\
  cs_dev (iq_push c k) = cs_dev k /\ cs_input_lines (iq_push c k) = cs_input_lines k.
Proof.
  intros Hi. unfold in_inv, in_queue, push_input. rewrite length_ring_list.
  unfold iq_push. cbn [cs_iq_beg cs_iq_end set_cs_iq].
  unfold uart_queue_full. fold (ring_size (cs_iq_beg k) (cs_iq_end k)).
  pose proof (ring_size_nonneg (cs_iq_beg k) (cs_iq_end k)) as H0.
  pose proof (ri_size _ _ _ _ Hi) as H1. pose proof input_size_range.
  destruct (Z.eqb_spec (ring_size (cs_iq_beg k) (cs_iq_end k)) UART_INPUT_SIZE) as [E|E].
  - rewrite decide_True by (by rewrite E). cbn [cs_iq cs_iq_beg cs_iq_end set_cs_iq set_cs_iq_beg set_cs_iq_end cs_dev cs_input_lines].
    destruct (ring_push_full UART_INPUT_SIZE input_size_range input_size_div _ _ _ c Hi E) as [H2 H3]. done.
  - rewrite decide_False by lia. cbn [cs_iq cs_iq_beg cs_iq_end set_cs_iq set_cs_iq_beg set_cs_iq_end cs_dev cs_input_lines].
    destruct (ring_push UART_INPUT_SIZE input_size_range input_size_div _ _ _ c Hi) as [H2 H3]; [lia|]. done.
Qed.

(** Sending a byte to the device. *)
Definition dev_put (c : Z) (k : console_st) : console_st :=
  set_cs_dev (mk_uart_dev (ud_rx (cs_dev k)) (pred (ud_room (cs_dev k))) (u8 c :: ud_tx (cs_dev k))) k.

Section Input.
Variables (h : hw) (k : nat) (L : list lock_id).
Hypothesis Hwf : hw_wf h.
Hypothesis HND : NoDup L.
Hypothesis Hl : hw_locks h !! LkInputLines = Some free_lock.
Hypothesis Hn : LkInputLines ∉ L.
Hypothesis Hf : procs_free h L.

Lemma kputc_eq c s :
  at_lvl h k L (k_hw s) -> (0 < ud_room (cs_dev (k_con s)))%nat ->
  console_kputc c s = Ret tt (set_k_hw (held_hw k L h) (set_k_con (dev_put c (k_con s)) s)).
Proof.
  intros Hs Hr. unfold console_kputc. rret (push_lvl h Hwf k L s Hs).
  set (s1 := set_k_hw _ s). assert (thr_ready s1 = Ret true s1) as E.
  { unfold thr_ready, gets, s1. cbn [k_con set_k_hw set_k_km]. by destruct (ud_room (cs_dev (k_con s))); [lia|]. }
  assert (uart_polling_putc c s1 = Ret tt (set_k_con (dev_put c (k_con s1)) s1)) as E1.
  { unfold uart_polling_putc. rret E. done. }
  rret E1. apply (pop_at h Hwf k L (set_k_con (dev_put c (k_con s)) s)).
Qed.

Lemma kputc3_eq s :
  at_lvl h k L (k_hw s) -> (3 <= ud_room (cs_dev (k_con s)))%nat ->
  (console_kputc BACKSPACE_CHAR ;; console_kputc 32 ;; console_kputc BACKSPACE_CHAR : M kst unit) s =
  Ret tt (set_k_hw (held_hw k L h) (set_k_con (dev_put 8 (dev_put 32 (dev_put 8 (k_con s)))) s)).
Proof.
  intros Hs Hr. rret (kputc_eq BACKSPACE_CHAR s Hs ltac:(lia)).
  set (s1 := set_k_hw _ (set_k_con _ s)).
  assert (Hr1 : ud_room (cs_dev (k_con s1)) = pred (ud_room (cs_dev (k_con s)))) by done.
  rret (kputc_eq 32 s1 (at_lvl_held h k L) ltac:(lia)).
  set (s2 := set_k_hw _ (set_k_con _ s1)).
  assert (Hr2 : ud_room (cs_dev (k_con s2)) = pred (pred (ud_room (cs_dev (k_con s))))) by done.
  rewrite (kputc_eq BACKSPACE_CHAR s2 (at_lvl_held h k L) ltac:(lia)). done.
Qed.

(** A byte that ends a line. *)
Lemma line_end_eq c s :
  at_lvl h k L (k_hw s) -> (1 <= ud_room (cs_dev (k_con s)))%nat -> length (k_procs s) = nprocs ->
  (c =? CTRL 72) = false -> is_line_end c = true ->
  console_intr c s = Ret (if c =? CTRL 68 then GET_EOF else GET_LINE)
    (set_k_hw (held_hw k L h) (set_k_procs (map (wake ChInputLines) (k_procs s))
      (set_k_con (set_cs_input_lines (u64 (cs_input_lines (k_con s) + 1)) (dev_put 10 (k_con s))) s))).
Proof.
  intros Hs Hr Hlen Hb Hle. unfold console_intr. rewrite Hb. unfold is_line_end in Hle. rewrite Hle.
  rret (kputc_eq 10 s Hs ltac:(lia)).
  set (s1 := set_k_con (dev_put 10 (k_con s)) s).
  rret (acquire_at h Hwf k L LkInputLines s1 Hl Hn).
  set (s2 := set_k_con (set_cs_input_lines (u64 (cs_input_lines (k_con s) + 1)) (dev_put 10 (k_con s))) s).
  erewrite (bind_Ret (upd_con _) _ _ tt (set_k_hw (held_hw k (LkInputLines :: L) h) s2)) by done.
  rret (release_top h Hwf k L LkInputLines s2 Hl Hn HND).
  assert (length (k_procs (set_k_hw (held_hw k L h) s2)) = nprocs) as Hlen2 by done.
  rret (wake_up_eq h Hwf k L ChInputLines (set_k_hw (held_hw k L h) s2) (at_lvl_held h k L) HND Hf Hlen2). done.
Qed.
End Input.

Lemma upd_con_Ret f s : upd_con f s = Ret tt (set_k_con (f (k_con s)) s).
Proof. done. Qed.

(** ** One received byte *)

(** What [uart_getc_input_queue] does with the byte that it has read. *)
Definition take_byte (c : Z) : M kst Z :=
  res ← console_intr c;
  match res with
  | BACKSPACE =>
      upd_con (fun k => if uart_queue_empty (cs_iq_beg k) (cs_iq_end k) then k
                        else set_cs_iq_end (u64 (cs_iq_end k - 1)) k) ;; mret 0
  | GET_LINE => upd_con (iq_push 10) ;; mret 0
  | _ => upd_con (iq_push c) ;; mret 0
  end.

(** The line discipline acted on [c]. *)
Definition byte_taken (c : Z) (s s' : kst) : Prop :=
  in_inv (k_con s') /\
  (in_queue (k_con s'), cs_input_lines (k_con s')) = input_step c (in_queue (k_con s), cs_input_lines (k_con s)) /\
  ud_rx (cs_dev (k_con s')) = ud_rx (cs_dev (k_con s)) /\
  ud_tx (cs_dev (k_con s')) = map u8 (echo c (in_queue (k_con s))) ++ ud_tx (cs_dev (k_con s)) /\
  k_procs s' = (if is_line_end c then map (wake ChInputLines) (k_procs s) else k_procs s).

Section Byte.
Context (h : hw) (Hwf : hw_wf h) (k : nat) (L : list lock_id).

Lemma in_queue_nil con : in_inv con -> in_queue con = [] <-> cs_iq_beg con = cs_iq_end con.
Proof.
  intros [_ _ Hb He]. rewrite <- length_zero_iff_nil. unfold in_queue. rewrite length_ring_list.
  pose proof (ring_size_nonneg (cs_iq_beg con) (cs_iq_end con)). unfold ring_size, u64 in *. lia.
Qed.

Lemma backspace_taken s : at_lvl h k L (k_hw s) -> in_inv (k_con s) -> (3 <= ud_room (cs_dev (k_con s)))%nat ->
  exists s', take_byte (CTRL 72) s = Ret 0 s' /\ byte_taken (CTRL 72) s s'.
Proof.
  intros Hs Hi Hroom. pose proof (in_queue_nil _ Hi) as Hnil.
  assert (uart_input_not_empty s = Ret (negb (cs_iq_beg (k_con s) =? cs_iq_end (k_con s))) s) as E by done.
  unfold take_byte, console_intr. change (CTRL 72 =? CTRL 72) with true. cbv iota. rewrite bind_eq. rret E.
  unfold byte_taken, input_step, echo. change (CTRL 72 =? CTRL 72) with true. change (is_line_end (CTRL 72)) with false. cbv iota.
  destruct (Z.eqb_spec (cs_iq_beg (k_con s)) (cs_iq_end (k_con s))) as [Eq|Eq]; cbn [negb].
  - rewrite bind_mret. unfold mret at 1, M_ret at 1. cbn [obind]. rewrite bind_eq, upd_con_Ret. cbn [obind].
    unfold uart_queue_empty. rewrite (proj2 (Z.eqb_eq _ _) Eq). apply Hnil in Eq.
    eexists. split; [reflexivity|]. split; [exact Hi|]. cbn [k_con k_procs set_k_con]. rewrite Eq. done.
  - rret (kputc3_eq h k L Hwf s Hs Hroom). unfold mret at 1, M_ret at 1. cbn [obind]. rewrite bind_eq, upd_con_Ret. cbn [obind].
    cbn [k_con set_k_hw set_k_km set_k_con dev_put cs_iq_beg cs_iq_end set_cs_dev].
    unfold uart_queue_empty. rewrite (proj2 (Z.eqb_neq _ _) Eq).
    assert (in_queue (k_con s) <> []) as Hne by by rewrite Hnil.
    assert (0 < ring_size (cs_iq_beg (k_con s)) (cs_iq_end (k_con s))) as Hpos.
    { destruct (in_queue (k_con s)) eqn:Q; [done|]. apply (f_equal length) in Q. unfold in_queue in Q.
      rewrite length_ring_list in Q. cbn [length] in Q. lia. }
    destruct (ring_back UART_INPUT_SIZE input_size_range _ _ _ Hi Hpos) as [H2 H3].
    eexists. split; [reflexivity|]. split; [exact H2|]. split; [|split; [done|split; [|done]]].
    + cbn [k_con set_k_con]. f_equal. exact H3.
    + by destruct (in_queue (k_con s)).
Qed.

Lemma line_end_taken c s : NoDup L -> hw_locks h !! LkInputLines = Some free_lock -> LkInputLines ∉ L ->
  procs_free h L -> length (k_procs s) = nprocs ->
  at_lvl h k L (k_hw s) -> in_inv (k_con s) -> (3 <= ud_room (cs_dev (k_con s)))%nat ->
  c <> CTRL 72 -> is_line_end c = true ->
  exists s', take_byte c s = Ret 0 s' /\ byte_taken c s s'.
Proof.
  intros HND Hl Hn Hf Hlen Hs Hi Hroom Ec El. apply Z.eqb_neq in Ec. unfold take_byte, byte_taken, input_step, echo. rewrite Ec, El.
  rret (line_end_eq h k L Hwf HND Hl Hn Hf c s Hs ltac:(lia) Hlen Ec El).
  set (k2 := set_cs_input_lines (u64 (cs_input_lines (k_con s) + 1)) (dev_put 10 (k_con s))).
  assert (in_inv k2) as Hi2 by exact Hi.
  destruct (c =? CTRL 68); rewrite bind_eq, upd_con_Ret; cbn [obind];
    [destruct (iq_push_spec c k2 Hi2) as (H2 & H3 & H4 & H5)
    |destruct (iq_push_spec 10 k2 Hi2) as (H2 & H3 & H4 & H5)];
    (eexists; split; [reflexivity|]); (split; [exact H2|]);
    cbn [k_con set_k_con set_k_hw set_k_km set_k_procs]; fold k2; rewrite H3, H4, H5; done.
Qed.

Lemma plain_taken c s : at_lvl h k L (k_hw s) -> in_inv (k_con s) -> (3 <= ud_room (cs_dev (k_con s)))%nat ->
  c <> CTRL 72 -> is_line_end c = false ->
  exists s', take_byte c s = Ret 0 s' /\ byte_taken c s s'.
Proof.
  intros Hs Hi Hroom Ec El. apply Z.eqb_neq in Ec.
  assert (console_intr c s = Ret GET_CH (set_k_hw (held_hw k L h) (set_k_con (dev_put c (k_con s)) s))) as E.
  { unfold console_intr. rewrite Ec. unfold is_line_end in El. rewrite El.
    rret (kputc_eq h k L Hwf c s Hs ltac:(lia)). done. }
  unfold take_byte, byte_taken, input_step, echo. rewrite Ec, El. rret E. rewrite bind_eq, upd_con_Ret. cbn [obind].
  destruct (iq_push_spec c (dev_put c (k_con s)) Hi) as (H2 & H3 & H4 & H5).
  eexists. split; [reflexivity|]. split; [exact H2|].
  cbn [k_con set_k_con set_k_hw set_k_km set_k_procs]. rewrite H3, H4, H5. done.
Qed.
End Byte.

(** C33: [uart_getc_input_queue] refines the line discipline [input_step]: a received
    byte goes to the end of the input queue (CR becomes LF; a full queue forgets its
    oldest byte), a backspace takes the last byte back, a line end counts a line and
    wakes exactly the readers that wait for one, and the byte is echoed; when the
    device has no byte the answer is -1 and nothing changes. *)
Theorem uart_input_refines h k L s :
  hw_wf h -> at_lvl h k L (k_hw s) -> NoDup L -> hw_locks h !! LkInputLines = Some free_lock ->
  LkInputLines ∉ L -> procs_free h L -> length (k_procs s) = nprocs -> in_inv (k_con s) ->
  (3 <= ud_room (cs_dev (k_con s)))%nat ->
  match ud_rx (cs_dev (k_con s)) with
  | [] => uart_getc_input_queue s = Ret (-1) s
  | b :: rx =>
      let c := u8 b in
      exists s', uart_getc_input_queue s = Ret 0 s' /\
        in_inv (k_con s') /\
        (in_queue (k_con s'), cs_input_lines (k_con s')) =
          input_step c (in_queue (k_con s), cs_input_lines (k_con s)) /\
        ud_rx (cs_dev (k_con s')) = rx /\
        ud_tx (cs_dev (k_con s')) = map u8 (echo c (in_queue (k_con s))) ++ ud_tx (cs_dev (k_con s)) /\
        k_procs s' = (if is_line_end c then map (wake ChInputLines) (k_procs s) else k_procs s)
  end.
Proof.
  intros Hwf Hs HND Hl Hn Hf Hlen Hinv Hroom. unfold uart_getc_input_queue.
  assert (rhr_ready s = Ret (match ud_rx (cs_dev (k_con s)) with [] => false | _ => true end) s) as E.
  { unfold rhr_ready, gets. by destruct (ud_rx (cs_dev (k_con s))). }
  destruct (ud_rx (cs_dev (k_con s))) as [|b rx] eqn:Erx; [by rret E|]. rret E.
  set (s1 := set_k_con (set_cs_dev (set_ud_rx rx (cs_dev (k_con s))) (k_con s)) s).
  assert (read_rhr s = Ret (u8 b) s1) as E1 by (unfold read_rhr, gets; rewrite bind_eq; cbn [obind]; by rewrite Erx).
  rret E1. set (c := u8 b).
  assert (exists s', take_byte c s1 = Ret 0 s' /\ byte_taken c s1 s') as (s' & E2 & H); [|by exists s'; split].
  destruct (decide (c = CTRL 72)) as [->|Ec]; [by eapply backspace_taken|].
  destruct (is_line_end c) eqn:El; [by eapply line_end_taken|by eapply plain_taken].
Qed.
