(* ===== verification/Kprint.v ===== *)
(** * Printing by the kernel: kernel/util/kprint.c

    Format strings and their arguments are constants and names of the kernel, so they
    are given by their bytes; the output goes byte by byte to [console_kputc]. *)

From S2P Require Import Prelude Hart VmSystem Mem Kalloc PageTable UserCopy State Critical Sleep SleepSpec Uart UartSpec.

Definition digits : list Z :=
  [48; 49; 50; 51; 52; 53; 54; 55; 56; 57; 97; 98; 99; 100; 101; 102].
Definition digit (d : Z) : option Z := digits !! Z.to_nat d.

(** [char buf[16]]: a store past its end is undefined. *)
Definition PRINT_BUF : nat := 16.
Definition buf_put (buf : list Z) (c : Z) : option (list Z) :=
  if (length buf <? PRINT_BUF)%nat then Some (buf ++ [c]) else None.

(** The [do] loop of [printint]; a round per slot of the buffer and one more. *)
Fixpoint print_digits (fuel : nat) (x base : Z) (buf : list Z) : option (list Z) :=
  match fuel with
  | O => None
  | S fuel' =>
      c ← digit (x mod base);
      buf ← buf_put buf c;
      if x / base =? 0 then Some buf else print_digits fuel' (x / base) base buf
  end.

(** What [printint] leaves in [buf]; it is printed from the end.  [-xx] is undefined
    for the least [int]. *)
Definition printint_buf (xx base sign : Z) : option (list Z) :=
  let neg := negb (sign =? 0) && (xx <? 0) in
  if neg && (xx =? - 2 ^ 31) then None else
  buf ← print_digits (S PRINT_BUF) (u32 (if neg then - xx else xx)) base [];
  if neg then buf_put buf 45 else Some buf.

Fixpoint kputs (l : list Z) : M kst unit :=
  match l with
  | [] => mret tt
  | c :: l' => console_kputc c ;; kputs l'
  end.

Definition printint (xx base sign : Z) : M kst unit :=
  buf ← lift_opt (printint_buf xx base sign);
  kputs (rev buf).

Definition printptr (x : Z) : M kst unit :=
  console_kputc 48 ;; console_kputc 120 ;;
  for_each 16 0 (fun i =>
    c ← lift_opt (digit (u64 (Z.shiftl x (4 * i)) / 2 ^ 60)); console_kputc c).

(** An argument of a [va_list]. *)
Inductive karg := KInt (x : Z) | KPtr (x : Z) | KStr (s : option (list Z)).

Definition next_arg (args : list karg) : M kst (karg * list karg) :=
  match args with a :: args' => mret (a, args') | [] => undef end.
Definition null_str : list Z := [40; 110; 117; 108; 108; 41].

(** The loop of [kprintf] over the rest of the format. *)
Fixpoint kprintf_loop (fmt : list Z) (args : list karg) : M kst unit :=
  match fmt with
  | [] => mret tt
  | 37 :: [] => mret tt
  | 37 :: c :: fmt' =>
      if (c =? 100) || (c =? 120) then
        '(a, args) ← next_arg args;
        match a with
        | KInt x => printint x (if c =? 100 then 10 else 16) 1 ;; kprintf_loop fmt' args
        | _ => undef
        end
      else if c =? 112 then
        '(a, args) ← next_arg args;
        match a with KPtr x => printptr x ;; kprintf_loop fmt' args | _ => undef end
      else if c =? 115 then
        '(a, args) ← next_arg args;
        match a with KStr s => kputs (default null_str s) ;; kprintf_loop fmt' args | _ => undef end
      else if c =? 37 then console_kputc 37 ;; kprintf_loop fmt' args
      else console_kputc 37 ;; console_kputc c ;; kprintf_loop fmt' args
  | c :: fmt' => console_kputc c ;; kprintf_loop fmt' args
  end.

Definition kprintf (fmt : list Z) (args : list karg) : M kst unit :=
  acquire LkKprintf ;; kprintf_loop fmt args ;; release LkKprintf.
(** The bytes of a constant. *)
Definition bytes (s : string) : list Z :=
  map (fun c => Z.of_N (Ascii.N_of_ascii c)) (String.list_ascii_of_string s).
Definition kprintf_init : M kst unit := hwdo (init_spin_lock LkKprintf).

(** ** Reading a number back *)

Definition undigit (base c : Z) : option Z :=
  let d := if (48 <=? c) && (c <=? 57) then c - 48 else if 97 <=? c then c - 87 else -1 in
  if (0 <=? d) && (d <? base) then Some d else None.
Fixpoint parse_digits (base : Z) (l : list Z) (acc : Z) : option Z :=
  match l with
  | [] => Some acc
  | c :: l' => d ← undigit base c; parse_digits base l' (acc * base + d)
  end.
Definition parse_int (base : Z) (l : list Z) : option Z :=
  match l with
  | [] => None
  | 45 :: l' => Z.opp <$> parse_digits base l' 0
  | _ => parse_digits base l 0
  end.

Definition digit_char (c : Z) : Prop := 0 <= c < 256 /\ c <> 45.

Lemma digit_undigit base d : 2 <= base <= 16 -> 0 <= d < base ->
  exists c, digit d = Some c /\ undigit base c = Some d /\ digit_char c.
Proof.
  intros Hb Hd. assert (d ∈ [0;1;2;3;4;5;6;7;8;9;10;11;12;13;14;15]) as Hin.
  { rewrite !elem_of_cons. lia. }
  unfold undigit, digit_char.
  repeat (apply elem_of_cons in Hin as [->|Hin];
    [eexists; split; [reflexivity|]; cbn [Z.leb Z.compare Pos.compare Pos.compare_cont andb];
     (match goal with |- context [?x <? base] => destruct (Z.ltb_spec x base); [|lia] end); split; [done|lia]|]).
  by apply elem_of_nil in Hin.
Qed.

Lemma parse_digits_app base l1 l2 acc v :
  parse_digits base l1 acc = Some v -> parse_digits base (l1 ++ l2) acc = parse_digits base l2 v.
Proof.
  revert acc. induction l1 as [|c l1 IH]; intros acc; cbn [parse_digits app]; [by intros [= ->]|].
  destruct (undigit base c) as [d|]; [|done]. cbn [mbind option_bind]. apply IH.
Qed.

(** Digits come out from the least significant on. *)
Lemma print_digits_ok base k : 2 <= base <= 16 ->
  forall fuel x buf, 0 <= x < base ^ Z.of_nat (S k) -> (k < fuel)%nat -> (length buf + k < PRINT_BUF)%nat ->
  exists out, print_digits fuel x base buf = Some (buf ++ out) /\ (1 <= length out <= S k)%nat /\
    Forall digit_char out /\ forall acc, parse_digits base (rev out) acc = Some (acc * base ^ Z.of_nat (length out) + x).
Proof.
  intros Hb. induction k as [|k IH]; intros [|fuel] x buf Hx Hf Hl; try lia; cbn [print_digits];
    (destruct (digit_undigit base (x mod base) Hb ltac:(apply Z.mod_pos_bound; lia)) as (c & -> & Hc & Hne));
    cbn [mbind option_bind]; unfold buf_put; (rewrite (proj2 (Nat.ltb_lt _ _)) by (unfold PRINT_BUF in *; lia)); cbn [mbind option_bind].
  - change (Z.of_nat 1) with 1 in Hx. rewrite Z.pow_1_r in Hx. rewrite Z.div_small by lia. cbn [Z.eqb].
    rewrite Z.mod_small in Hc by lia. exists [c]. split; [done|]. split; [cbn; lia|]. split; [by apply Forall_singleton|].
    intros acc. cbn. rewrite Hc. cbn. f_equal. lia.
  - destruct (Z.eqb_spec (x / base) 0) as [E|E].
    + exists [c]. split; [done|]. split; [cbn; lia|]. split; [by apply Forall_singleton|].
      intros acc. cbn. rewrite Hc. cbn. f_equal. pose proof (Z.div_mod x base). lia.
    + assert (0 <= x / base < base ^ Z.of_nat (S k)) as Hq.
      { split; [apply Z.div_pos; lia|]. apply Z.div_lt_upper_bound; [lia|].
        rewrite (Nat2Z.inj_succ (S k)), Z.pow_succ_r in Hx by lia. lia. }
      destruct (IH fuel (x / base) (buf ++ [c]) Hq ltac:(lia)) as (out & -> & Ho & Hn & Hp).
      { rewrite length_app. cbn [length]. unfold PRINT_BUF in *. lia. }
      exists (c :: out). rewrite <- app_assoc. split; [done|]. split; [cbn [length]; lia|]. split; [by constructor|].
      intros acc. cbn [rev]. rewrite (parse_digits_app _ _ _ _ _ (Hp acc)). cbn [parse_digits]. rewrite Hc.
      cbn [mbind option_bind length]. f_equal. rewrite Nat2Z.inj_succ, Z.pow_succ_r by lia.
      pose proof (Z.div_mod x base). lia.
Qed.

Lemma parse_int_pos base out v : Forall digit_char out -> (1 <= length out)%nat ->
  parse_digits base (rev out) 0 = Some v -> parse_int base (rev out) = Some v.
Proof.
  intros Hd Hl Hp. apply Forall_rev in Hd. rewrite <- length_rev in Hl. unfold parse_int.
  destruct (rev out) as [|c l]; [cbn in Hl; lia|]. apply Forall_cons_1 in Hd as [[Hc Hne] _].
  repeat case_match; subst; try done; lia.
Qed.

(** The buffer is large enough for the bases the code uses and reads back as [xx]. *)
Lemma printint_buf_ok xx base : - 2 ^ 31 < xx < 2 ^ 31 -> 5 <= base <= 16 ->
  exists out, printint_buf xx base 1 = Some out /\ (1 <= length out <= PRINT_BUF)%nat /\
    Forall (fun c => 0 <= c < 256) out /\ parse_int base (rev out) = Some xx.
Proof.
  intros Hx Hb. unfold printint_buf. change (negb (1 =? 0)) with true. cbn [andb].
  rewrite (proj2 (Z.eqb_neq xx (- 2 ^ 31))), andb_false_r by lia.
  set (x := if xx <? 0 then - xx else xx).
  assert (0 <= x < 2 ^ 31) as Hx' by (unfold x; destruct (Z.ltb_spec xx 0); lia).
  assert (u32 x = x) as -> by (unfold u32; apply Z.mod_small; lia).
  assert (x < base ^ Z.of_nat 14) as Hx2.
  { apply Z.lt_le_trans with (5 ^ 14); [lia|]. apply (Z.pow_le_mono_l 5 base 14); lia. }
  destruct (print_digits_ok base 13 ltac:(lia) (S PRINT_BUF) x [] ltac:(lia)) as (out & -> & Ho & Hd & Hp);
    [unfold PRINT_BUF; lia|cbn [length]; unfold PRINT_BUF; lia|].
  specialize (Hp 0). rewrite Z.mul_0_l, Z.add_0_l in Hp. cbn [mbind option_bind app].
  assert (Forall (fun c => 0 <= c < 256) out) as Hd' by (eapply Forall_impl; [exact Hd|]; by intros ? []).
  unfold x in Hp. destruct (Z.ltb_spec xx 0).
  - unfold buf_put. rewrite (proj2 (Nat.ltb_lt _ _)) by (unfold PRINT_BUF; lia).
    exists (out ++ [45]). split; [done|]. split; [rewrite length_app; cbn [length]; unfold PRINT_BUF; lia|].
    split; [apply Forall_app; split; [done|]; apply Forall_singleton; lia|].
    rewrite rev_app_distr. cbn [rev app parse_int]. rewrite Hp. cbn. f_equal. lia.
  - exists out. split; [done|]. split; [unfold PRINT_BUF; lia|]. split; [done|]. apply parse_int_pos; [done|lia|done].
Qed.

(** The bytes reach the device in order. *)
Lemma kputs_eq h k L (Hwf : hw_wf h) l : forall s,
  at_lvl h k L (k_hw s) -> (length l <= ud_room (cs_dev (k_con s)))%nat ->
  exists s', kputs l s = Ret tt s' /\ at_lvl h k L (k_hw s') /\
    ud_tx (cs_dev (k_con s')) = map u8 (rev l) ++ ud_tx (cs_dev (k_con s)) /\
    ud_room (cs_dev (k_con s')) = (ud_room (cs_dev (k_con s)) - length l)%nat /\ k_procs s' = k_procs s.
Proof.
  induction l as [|c l IH]; intros s Hs Hr; cbn [kputs length rev] in *.
  - exists s. split; [done|]. split; [done|]. split; [done|]. split; [lia|done].
  - rret (kputc_eq h k L Hwf c s Hs ltac:(lia)). set (s1 := set_k_hw _ _).
    assert (Hr1 : ud_room (cs_dev (k_con s1)) = pred (ud_room (cs_dev (k_con s)))) by done.
    destruct (IH s1 (at_lvl_held h k L) ltac:(lia)) as (s' & -> & Hs' & Ht & Hr' & Hp).
    exists s'. split; [done|]. split; [done|]. split; [|split; [lia|by rewrite Hp]].
    rewrite Ht, map_app, <- app_assoc. done.
Qed.

(** C36: Printing an [int] in base 10 or 16 (any base from 5 to 16) stays inside the 16
    bytes of the buffer, terminates, and sends the console a string that reads back as
    the same number: the digits from the most significant on, after a minus sign when
    the number is negative. *)
Theorem printint_roundtrip h k L xx base s :
  hw_wf h -> at_lvl h k L (k_hw s) -> (PRINT_BUF <= ud_room (cs_dev (k_con s)))%nat ->
  - 2 ^ 31 < xx < 2 ^ 31 -> 5 <= base <= 16 ->
  exists out s', printint xx base 1 s = Ret tt s' /\ (length out <= PRINT_BUF)%nat /\
    parse_int base out = Some xx /\
    ud_tx (cs_dev (k_con s')) = rev out ++ ud_tx (cs_dev (k_con s)) /\ at_lvl h k L (k_hw s').
Proof.
  intros Hwf Hs Hr Hx Hb. destruct (printint_buf_ok xx base Hx Hb) as (out & E & Hl & Hc & Hp).
  unfold printint. rewrite E.
  destruct (kputs_eq h k L Hwf (rev out) s Hs) as (s' & E' & Hs' & Ht & _); [rewrite length_rev; lia|].
  exists (rev out), s'. rewrite rev_involutive, length_rev. split; [exact E'|]. split; [lia|]. split; [done|]. split; [|done].
  rewrite Ht, rev_involutive. f_equal. clear -Hc.
  induction Hc as [|c l Hc _ IH]; [done|]. cbn [map]. rewrite IH. f_equal. unfold u8. apply Z.mod_small. lia.
Qed.
