(* ===== verification/Virtio.v ===== *)
(** * The disk driver: kernel/driver/virtio_disk.c, include/driver/virtio.h

    The driver shares two things with the device: the page of descriptors and rings,
    and the MMIO registers.  [vd_desc], [vd_avail], [vd_used_id] and [vd_used_elems]
    are that page; [vd_regs] is what the device shows in its registers and [vd_writes]
    the driver's register writes, the last one first.  The status byte of a request
    lies in memory, since the device writes it there. *)

From S2P Require Import Prelude Hart VmSystem Mem Kalloc PageTable State Sleep.

Definition VIRTIO_MMIO_MAGIC_VALUE := 0x000.
Definition VIRTIO_MMIO_VERSION := 0x004.
Definition VIRTIO_MMIO_DEVICE_ID := 0x008.
Definition VIRTIO_MMIO_VENDOR_ID := 0x00c.
Definition VIRTIO_MMIO_DEVICE_FEATURES := 0x010.
Definition VIRTIO_MMIO_DRIVER_FEATURES := 0x020.
Definition VIRTIO_MMIO_GUEST_PAGE_SIZE := 0x028.
Definition VIRTIO_MMIO_QUEUE_SEL := 0x030.
Definition VIRTIO_MMIO_QUEUE_NUM_MAX := 0x034.
Definition VIRTIO_MMIO_QUEUE_NUM := 0x038.
Definition VIRTIO_MMIO_QUEUE_PFN := 0x040.
Definition VIRTIO_MMIO_QUEUE_NOTIFY := 0x050.
Definition VIRTIO_MMIO_INTERRUPT_STATUS := 0x060.
Definition VIRTIO_MMIO_INTERRUPT_ACK := 0x064.
Definition VIRTIO_MMIO_STATUS := 0x070.
Definition VIRTIO_CONFIG_S_ACKNOWLEDGE := 1.
Definition VIRTIO_CONFIG_S_DRIVER := 2.
Definition VIRTIO_CONFIG_S_DRIVER_OK := 4.
Definition VIRTIO_CONFIG_S_FEATURES_OK := 8.
Definition VIRTIO_BLK_F_RO := 5.
Definition VIRTIO_BLK_F_SCSI := 7.
Definition VIRTIO_BLK_F_CONFIG_WCE := 11.
Definition VIRTIO_BLK_F_MQ := 12.
Definition VIRTIO_F_ANY_LAYOUT := 27.
Definition VIRTIO_RING_F_INDIRECT_DESC := 28.
Definition VIRTIO_RING_F_EVENT_IDX := 29.
Definition NUM := 8.
Definition PGSHIFT := 12.
Definition PTE2PA (pte : Z) : Z := u64 (Z.shiftl (Z.shiftr pte 10) 12).
Definition VRING_DESC_F_NEXT := 1.
Definition VRING_DESC_F_WRITE := 2.
Definition VIRTIO_BLK_T_IN := 0.
Definition VIRTIO_BLK_T_OUT := 1.

Record VRingDesc := mk_desc { ds_addr : Z; ds_len : Z; ds_flags : Z; ds_next : Z }.

(** [info[i].b]; [info[i].status] is the byte at [status_addr i]. *)
Record vdisk := mk_vdisk {
  vd_desc : list VRingDesc;
  vd_avail : list Z;
  vd_used_id : Z;
  vd_used_elems : list Z;     (** [used->elems[].id] *)
  vd_free : list Z;
  vd_used_idx : Z;
  vd_info : list (option nat);
  vd_regs : gmap Z Z;
  vd_writes : list (Z * Z) }.

Definition set_vd_desc (x : list VRingDesc) (d : vdisk) : vdisk :=
  mk_vdisk x (vd_avail d) (vd_used_id d) (vd_used_elems d) (vd_free d) (vd_used_idx d) (vd_info d) (vd_regs d) (vd_writes d).
Definition set_vd_avail (x : list Z) (d : vdisk) : vdisk :=
  mk_vdisk (vd_desc d) x (vd_used_id d) (vd_used_elems d) (vd_free d) (vd_used_idx d) (vd_info d) (vd_regs d) (vd_writes d).
Definition set_vd_free (x : list Z) (d : vdisk) : vdisk :=
  mk_vdisk (vd_desc d) (vd_avail d) (vd_used_id d) (vd_used_elems d) x (vd_used_idx d) (vd_info d) (vd_regs d) (vd_writes d).
Definition set_vd_used_idx (x : Z) (d : vdisk) : vdisk :=
  mk_vdisk (vd_desc d) (vd_avail d) (vd_used_id d) (vd_used_elems d) (vd_free d) x (vd_info d) (vd_regs d) (vd_writes d).
Definition set_vd_info (x : list (option nat)) (d : vdisk) : vdisk :=
  mk_vdisk (vd_desc d) (vd_avail d) (vd_used_id d) (vd_used_elems d) (vd_free d) (vd_used_idx d) x (vd_regs d) (vd_writes d).
Definition set_vd_writes (x : list (Z * Z)) (d : vdisk) : vdisk :=
  mk_vdisk (vd_desc d) (vd_avail d) (vd_used_id d) (vd_used_elems d) (vd_free d) (vd_used_idx d) (vd_info d) (vd_regs d) x.

(** The kernel with its disk. *)
Record vst := mk_vst { v_k : kst; v_d : vdisk }.
Definition set_v_k (k : kst) (s : vst) : vst := mk_vst k (v_d s).
Definition set_v_d (d : vdisk) (s : vst) : vst := mk_vst (v_k s) d.
Definition v_kL : lens vst kst := Lens v_k set_v_k.
#[export] Instance v_kL_laws : LensLaws v_kL.
Proof. split; by intros; repeat match goal with s : vst |- _ => destruct s end. Qed.
Definition kdo {A} (m : M kst A) : M vst A := zoom v_kL m.
Definition upd_d (f : vdisk -> vdisk) : M vst unit := modify (fun s => set_v_d (f (v_d s)) s).

(** Where the linker and the compiler put what the device is told to read. *)
Class DiskData := {
  disk_pages : Z;              (** [disk.pages] *)
  status_addr : nat -> Z;      (** [&disk.info[i].status] *)
  buf0_va : Z }.               (** [&buf0], on the kernel stack *)

Section Virtio.
Context `{KernelData} `{WaitFuel} `{DiskData}.

(** *** Registers and arrays *)

Definition read_reg (r : Z) : M vst Z := gets (fun s => default 0 (vd_regs (v_d s) !! r)).
Definition write_reg (r v : Z) : M vst unit := upd_d (fun d => set_vd_writes ((r, u32 v) :: vd_writes d) d).
Definition read_desc (i : nat) : M vst VRingDesc := d ← gets v_d; lift_opt (vd_desc d !! i).
Definition write_desc (i : nat) (x : VRingDesc) : M vst unit :=
  _ ← read_desc i; upd_d (fun d => set_vd_desc (<[i := x]> (vd_desc d)) d).
Definition read_free (i : nat) : M vst Z := d ← gets v_d; lift_opt (vd_free d !! i).
Definition write_free (i : nat) (x : Z) : M vst unit :=
  _ ← read_free i; upd_d (fun d => set_vd_free (<[i := x]> (vd_free d)) d).
Definition read_info (i : nat) : M vst (option nat) := d ← gets v_d; lift_opt (vd_info d !! i).
Definition write_info (i : nat) (x : option nat) : M vst unit :=
  _ ← read_info i; upd_d (fun d => set_vd_info (<[i := x]> (vd_info d)) d).
Definition read_avail (i : nat) : M vst Z := d ← gets v_d; lift_opt (vd_avail d !! i).
Definition write_avail (i : nat) (x : Z) : M vst unit :=
  _ ← read_avail i; upd_d (fun d => set_vd_avail (<[i := x]> (vd_avail d)) d).

(** ** Operations *)

Definition kvmpa (va : Z) : M kst Z :=
  let off := va mod PGSIZE in
  pte ← kmdo (walk kernel_page_table va 0);
  if pte =? NULL then panic "kvmpa" else
  e ← kmdo (load64 pte);
  if Z.land e PTE_V =? 0 then panic "kvmpa" else
  mret (u64 (PTE2PA e + off)).

(** The features the driver refuses. *)
Definition refused : list Z :=
  [VIRTIO_BLK_F_RO; VIRTIO_BLK_F_SCSI; VIRTIO_BLK_F_CONFIG_WCE; VIRTIO_BLK_F_MQ;
   VIRTIO_F_ANY_LAYOUT; VIRTIO_RING_F_EVENT_IDX; VIRTIO_RING_F_INDIRECT_DESC].
Definition negotiate (features : Z) : Z :=
  fold_left (fun f k => Z.land f (Z.lnot (Z.shiftl 1 k))) refused features.

Definition virtio_disk_init : M vst unit :=
  kdo (hwdo (init_spin_lock LkVdisk)) ;;
  magic ← read_reg VIRTIO_MMIO_MAGIC_VALUE;
  version ← read_reg VIRTIO_MMIO_VERSION;
  device ← read_reg VIRTIO_MMIO_DEVICE_ID;
  vendor ← read_reg VIRTIO_MMIO_VENDOR_ID;
  if negb (magic =? 0x74726976) || negb (version =? 1) || negb (device =? 2) || negb (vendor =? 0x554d4551)
  then panic "could not find virtio disk" else
  let st1 := Z.lor 0 VIRTIO_CONFIG_S_ACKNOWLEDGE in
  write_reg VIRTIO_MMIO_STATUS st1 ;;
  let st2 := Z.lor st1 VIRTIO_CONFIG_S_DRIVER in
  write_reg VIRTIO_MMIO_STATUS st2 ;;
  features ← read_reg VIRTIO_MMIO_DEVICE_FEATURES;
  write_reg VIRTIO_MMIO_DRIVER_FEATURES (negotiate features) ;;
  let st3 := Z.lor st2 VIRTIO_CONFIG_S_FEATURES_OK in
  write_reg VIRTIO_MMIO_STATUS st3 ;;
  let st4 := Z.lor st3 VIRTIO_CONFIG_S_DRIVER_OK in
  write_reg VIRTIO_MMIO_STATUS st4 ;;
  write_reg VIRTIO_MMIO_GUEST_PAGE_SIZE PGSIZE ;;
  write_reg VIRTIO_MMIO_QUEUE_SEL 0 ;;
  max ← read_reg VIRTIO_MMIO_QUEUE_NUM_MAX;
  if max =? 0 then panic "virtio disk has no queue 0" else
  if max <? NUM then panic "virtio disk max queue too short" else
  write_reg VIRTIO_MMIO_QUEUE_NUM NUM ;;
  upd_d (fun d => mk_vdisk (replicate (Z.to_nat NUM) (mk_desc 0 0 0 0)) (replicate (2 + Z.to_nat NUM) 0)
    0 (replicate (Z.to_nat NUM) 0) (vd_free d) (vd_used_idx d) (vd_info d) (vd_regs d) (vd_writes d)) ;;
  write_reg VIRTIO_MMIO_QUEUE_PFN (Z.shiftr disk_pages PGSHIFT) ;;
  for_each (Z.to_nat NUM) 0 (fun i => write_free (Z.to_nat i) 1).

Definition alloc_desc : M vst Z :=
  r ← for_loop (Z.to_nat NUM) 0 (fun i =>
    f ← read_free (Z.to_nat i);
    if negb (f =? 0) then write_free (Z.to_nat i) 0 ;; mret (Some i) else mret None);
  mret (default (-1) r).

(** [ChVdisk 0] is [&disk.free[0]]. *)
Definition free_desc (i : Z) : M vst unit :=
  if i >=? NUM then panic "virtio_disk_intr 1" else
  if i <? 0 then undef else
  f ← read_free (Z.to_nat i);
  if negb (f =? 0) then panic "virtio_disk_intr 2" else
  x ← read_desc (Z.to_nat i);
  write_desc (Z.to_nat i) (mk_desc 0 (ds_len x) (ds_flags x) (ds_next x)) ;;
  write_free (Z.to_nat i) 1 ;;
  kdo (wake_up (ChVdisk 0)).

(** A round frees a descriptor that was not free, so [NUM + 1] rounds are enough. *)
Definition free_chain (i : Z) : M vst unit :=
  while_loop (S (Z.to_nat NUM)) i (fun i =>
    free_desc i ;;
    x ← read_desc (Z.to_nat i);
    if negb (Z.land (ds_flags x) VRING_DESC_F_NEXT =? 0) then mret (inl (ds_next x))
    else mret (inr tt)).

(** [None] is -1; otherwise the array [idx]. *)
Fixpoint alloc3_desc_loop (n : nat) (idx : list Z) : M vst (option (list Z)) :=
  match n with
  | O => mret (Some idx)
  | S n' =>
      i ← alloc_desc;
      if i <? 0 then
        for_each (length idx) 0 (fun j => x ← lift_opt (idx !! Z.to_nat j); free_desc x) ;;
        mret None
      else alloc3_desc_loop n' (idx ++ [i])
  end.
Definition alloc3_desc : M vst (option (list Z)) := alloc3_desc_loop 3 [].

(** Formatting the request; [buf0] is written through the same translation as [kvmpa]
    reads. *)
Definition virtio_format (b : nat) (write i0 i1 i2 sector : Z) : M vst unit :=
  pa ← kdo (kvmpa buf0_va);
  kdo (kst32 pa (if negb (write =? 0) then VIRTIO_BLK_T_OUT else VIRTIO_BLK_T_IN)) ;;
  kdo (kst32 (pa + 4) 0) ;;
  kdo (kst64 (pa + 8) sector) ;;
  write_desc (Z.to_nat i0) (mk_desc pa 16 VRING_DESC_F_NEXT (u16 i1)) ;;
  write_desc (Z.to_nat i1) (mk_desc (buf_data b) BSIZE
    (Z.lor (if negb (write =? 0) then 0 else VRING_DESC_F_WRITE) VRING_DESC_F_NEXT) (u16 i2)) ;;
  kdo (kst8 (status_addr (Z.to_nat i0)) 0) ;;
  write_desc (Z.to_nat i2) (mk_desc (status_addr (Z.to_nat i0)) 1 VRING_DESC_F_WRITE 0).

(** Handing the chain to the device. *)
Definition virtio_publish (b : nat) (i0 : Z) : M vst unit :=
  kdo (upd_buf b (set_b_disk 1)) ;;
  write_info (Z.to_nat i0) (Some b) ;;
  a1 ← read_avail 1;
  write_avail (2 + Z.to_nat (a1 mod NUM)) (u16 i0) ;;
  a1 ← read_avail 1;
  write_avail 1 (u16 (a1 + 1)) ;;
  write_reg VIRTIO_MMIO_QUEUE_NOTIFY 0.

Definition virtio_disk_rw (b : nat) (write : Z) : M vst unit :=
  x ← kdo (read_buf b);
  let sector := u32 (b_blockno x * (BSIZE / 512)) in
  kdo (acquire LkVdisk) ;;
  idx ← while_loop wait_fuel tt (fun _ =>
    r ← alloc3_desc;
    match r with
    | Some idx => mret (inr idx)
    | None => kdo (sleep_r (ChVdisk 0) LkVdisk) ;; mret (inl tt)
    end);
  match idx with
  | [i0; i1; i2] =>
      virtio_format b write i0 i1 i2 sector ;;
      virtio_publish b i0 ;;
      while_loop wait_fuel tt (fun _ =>
        x ← kdo (read_buf b);
        if b_disk x =? 1 then kdo (sleep_r (ChBuf b) LkVdisk) ;; mret (inl tt) else mret (inr tt)) ;;
      write_info (Z.to_nat i0) None ;;
      free_chain i0 ;;
      kdo (release LkVdisk)
  | _ => undef
  end.

(** [used_idx] goes round the ring, so [NUM] rounds reach any [used->id]. *)
Definition virtio_disk_intr : M vst unit :=
  kdo (acquire LkVdisk) ;;
  while_loop (S (Z.to_nat NUM)) tt (fun _ =>
    d ← gets v_d;
    if vd_used_idx d mod NUM =? vd_used_id d mod NUM then mret (inr tt) else
    id ← lift_opt (vd_used_elems d !! Z.to_nat (vd_used_idx d));
    st ← kdo (kld8 (status_addr (Z.to_nat id)));
    if negb (st =? 0) then panic "virtio_disk_intr status" else
    b ← read_info (Z.to_nat id);
    b ← lift_opt b;
    kdo (upd_buf b (set_b_disk 0)) ;;
    kdo (wake_up (ChBuf b)) ;;
    upd_d (fun d => set_vd_used_idx ((vd_used_idx d + 1) mod NUM) d) ;;
    mret (inl tt)) ;;
  ist ← read_reg VIRTIO_MMIO_INTERRUPT_STATUS;
  write_reg VIRTIO_MMIO_INTERRUPT_ACK (Z.land ist 0x3) ;;
  kdo (release LkVdisk).
End Virtio.
