(* ===== verification/VirtioSpec.v ===== *)
(** * The disk driver: descriptors and requests

    The free descriptors as an ascending list of indices, allocation and freeing on
    it, and the request that the device finds in its ring. *)

From S2P Require Import Prelude Hart VmSystem Mem Kalloc PageTable PageTableSpec State Critical Sleep SleepSpec Virtio.

Definition is_free (f : Z) : bool := negb (f =? 0).

Fixpoint free_from (n : nat) (l : list Z) : list nat :=
  match l with
  | [] => []
  | f :: l' => (if is_free f then [n] else []) ++ free_from (S n) l'
  end.

(** The indices of the free descriptors, the least first. *)
Definition free_list (d : vdisk) : list nat := free_from 0 (vd_free d).

Definition free_at (l : list Z) (i : nat) : bool := default false (is_free <$> l !! i).

Lemma free_from_elem l : forall n j, j ∈ free_from n l <-> (n <= j)%nat /\ free_at l (j - n) = true.
Proof.
  induction l as [|f l IH]; intros n j; cbn [free_from].
  - rewrite elem_of_nil. unfold free_at. rewrite lookup_nil. cbn. split; [done|]. intros [_ ?]. done.
  - rewrite elem_of_app, IH. destruct (decide (j = n)) as [->|Hne].
    + rewrite Nat.sub_diag. unfold free_at at 2. cbn. destruct (is_free f); [|set_solver by lia].
      split; [intros _; by split|]. intros _. left. set_solver.
    + assert (j ∉ (if is_free f then [n] else [])) as Hn by (destruct (is_free f); set_solver).
      destruct (decide (n < j)%nat) as [Hlt|Hge].
      * replace (j - n)%nat with (S (j - S n)) by lia. unfold free_at. cbn. fold (free_at l (j - S n)).
        split; [intros [?|[? ?]]; [done|]; split; [lia|done]|]. intros [? ?]. right. split; [lia|done].
      * split; [intros [?|[? ?]]; [done|lia]|]. intros [? ?]. lia.
Qed.

Lemma free_from_ext l : forall n l', length l = length l' ->
  (forall i, free_at l i = free_at l' i) -> free_from n l = free_from n l'.
Proof.
  induction l as [|f l IH]; intros n [|f' l'] Hl He; try done. cbn [free_from].
  pose proof (He 0%nat) as H0. cbn in H0. rewrite H0. f_equal. apply IH; [by injection Hl|].
  intros i. apply (He (S i)).
Qed.

Lemma free_at_insert l i x j : (i < length l)%nat ->
  free_at (<[i := x]> l) j = if decide (j = i) then is_free x else free_at l j.
Proof.
  intros Hi. unfold free_at. case_decide as E; [subst; by rewrite list_lookup_insert_eq|].
  by rewrite list_lookup_insert_ne.
Qed.

(** The first free descriptor is the head of the list, and taking it leaves the rest. *)
Lemma free_from_first l : forall n,
  match first_index is_free l with
  | None => free_from n l = []
  | Some i => free_from n l = (n + i)%nat :: free_from n (<[i := 0]> l)
  end.
Proof.
  induction l as [|f l IH]; intros n; [done|]. unfold first_index. cbn [list_find free_from].
  destruct (is_free f) eqn:Ef.
  - rewrite decide_True by done. cbn. rewrite Nat.add_0_r. done.
  - rewrite decide_False by (by intros []). specialize (IH (S n)). unfold first_index in IH.
    destruct (list_find is_free l) as [[i x]|]; cbn in *; [|exact IH].
    rewrite IH. rewrite Ef. cbn. f_equal. lia.
Qed.

(** Every index of the list is in range. *)
Lemma free_list_lt d i : i ∈ free_list d -> (i < length (vd_free d))%nat /\ free_at (vd_free d) i = true.
Proof.
  intros [_ H]%free_from_elem. rewrite Nat.sub_0_r in H. split; [|done].
  unfold free_at in H. destruct (vd_free d !! i) eqn:E; [by eapply lookup_lt_Some|done].
Qed.

Definition nnum : nat := Z.to_nat NUM.
Record disk_wf (d : vdisk) : Prop := {
  dw_desc : length (vd_desc d) = nnum;
  dw_avail : length (vd_avail d) = (2 + nnum)%nat;
  dw_free : length (vd_free d) = nnum;
  dw_info : length (vd_info d) = nnum }.

(** ** Steps of the state *)

Definition take_desc (i : nat) (s : vst) : vst :=
  set_v_d (set_vd_free (<[i := 0]> (vd_free (v_d s))) (v_d s)) s.

Lemma kdo_Ret {A} (m : M kst A) s a t : m (v_k s) = Ret a t -> kdo m s = Ret a (set_v_k t s).
Proof. intros H. unfold kdo. by apply zoom_Ret. Qed.

Lemma read_free_Ret i f s : vd_free (v_d s) !! i = Some f -> read_free i s = Ret f s.
Proof. intros H. unfold read_free, gets. rewrite bind_eq. cbn [obind]. by rewrite H. Qed.
Lemma write_free_Ret i f x s : vd_free (v_d s) !! i = Some f ->
  write_free i x s = Ret tt (set_v_d (set_vd_free (<[i := x]> (vd_free (v_d s))) (v_d s)) s).
Proof. intros H. unfold write_free. by rret (read_free_Ret i f s H). Qed.
Lemma read_desc_Ret i x s : vd_desc (v_d s) !! i = Some x -> read_desc i s = Ret x s.
Proof. intros H. unfold read_desc, gets. rewrite bind_eq. cbn [obind]. by rewrite H. Qed.
Lemma write_desc_Ret i y x s : vd_desc (v_d s) !! i = Some y ->
  write_desc i x s = Ret tt (set_v_d (set_vd_desc (<[i := x]> (vd_desc (v_d s))) (v_d s)) s).
Proof. intros H. unfold write_desc. by rret (read_desc_Ret i y s H). Qed.
Lemma write_info_Ret i y x s : vd_info (v_d s) !! i = Some y ->
  write_info i x s = Ret tt (set_v_d (set_vd_info (<[i := x]> (vd_info (v_d s))) (v_d s)) s).
Proof.
  intros H. unfold write_info, read_info, gets. rewrite bind_eq, bind_eq. cbn [obind]. by rewrite H.
Qed.
Lemma read_avail_Ret i x s : vd_avail (v_d s) !! i = Some x -> read_avail i s = Ret x s.
Proof. intros H. unfold read_avail, gets. rewrite bind_eq. cbn [obind]. by rewrite H. Qed.
Lemma write_avail_Ret i y x s : vd_avail (v_d s) !! i = Some y ->
  write_avail i x s = Ret tt (set_v_d (set_vd_avail (<[i := x]> (vd_avail (v_d s))) (v_d s)) s).
Proof. intros H. unfold write_avail. by rret (read_avail_Ret i y s H). Qed.

(** ** Allocation *)

Lemma alloc_desc_eq s : length (vd_free (v_d s)) = nnum ->
  alloc_desc s = match free_list (v_d s) with [] => Ret (-1) s | i :: _ => Ret (Z.of_nat i) (take_desc i s) end.
Proof.
  intros Hl. unfold alloc_desc. change (Z.to_nat NUM) with nnum. rewrite <- Hl.
  pose proof (for_loop_scan is_free (vd_free (v_d s)) (fun i =>
    f ← read_free (Z.to_nat i);
    if negb (f =? 0) then write_free (Z.to_nat i) 0 ;; mret (Some i) else mret None) s
    Z.of_nat (fun i => take_desc i s)) as E.
  rewrite bind_eq, E.
  2:{ intros i x Hx. rewrite Nat2Z.id. rret (read_free_Ret i x s Hx). unfold is_free.
      destruct (negb (x =? 0)); [|done]. by rret (write_free_Ret i x 0 s Hx). }
  pose proof (free_from_first (vd_free (v_d s)) 0) as Hf. unfold free_list.
  destruct (first_index is_free (vd_free (v_d s))) as [i|]; rewrite Hf; done.
Qed.

Lemma free_list_take i l s : free_list (v_d s) = i :: l -> free_list (v_d (take_desc i s)) = l.
Proof.
  unfold free_list, take_desc. cbn [v_d set_v_d vd_free set_vd_free]. intros H.
  pose proof (free_from_first (vd_free (v_d s)) 0) as Hf.
  destruct (first_index is_free (vd_free (v_d s))) as [j|]; [|congruence].
  rewrite H in Hf. by injection Hf as -> <-.
Qed.

Section Freed.
Variables (h : hw) (k : nat) (L : list lock_id).
Hypothesis Hwf : hw_wf h.
Hypothesis HND : NoDup L.
Hypothesis Hf : procs_free h L.

(** [free_desc] on descriptor [i]. *)
Definition freed (i : nat) (x : VRingDesc) (s : vst) : vst :=
  mk_vst (set_k_hw (held_hw k L h) (set_k_procs (map (wake (ChVdisk 0)) (k_procs (v_k s))) (v_k s)))
    (set_vd_free (<[i := 1]> (vd_free (v_d s)))
      (set_vd_desc (<[i := mk_desc 0 (ds_len x) (ds_flags x) (ds_next x)]> (vd_desc (v_d s))) (v_d s))).

Lemma free_desc_eq i x s :
  at_lvl h k L (k_hw (v_k s)) -> length (k_procs (v_k s)) = nprocs ->
  (i < nnum)%nat -> free_at (vd_free (v_d s)) i = false -> length (vd_free (v_d s)) = nnum ->
  vd_desc (v_d s) !! i = Some x ->
  free_desc (Z.of_nat i) s = Ret tt (freed i x s).
Proof.
  intros Hs Hp Hi Hfree Hl Hx. unfold free_desc.
  replace (Z.of_nat i >=? NUM) with false by (unfold nnum, NUM in *; lia).
  replace (Z.of_nat i <? 0) with false by lia. rewrite Nat2Z.id.
  destruct (lookup_lt_is_Some_2 (vd_free (v_d s)) i) as [f Hf']; [lia|].
  unfold free_at in Hfree. rewrite Hf' in Hfree. cbn in Hfree.
  rret (read_free_Ret i f s Hf'). unfold is_free in Hfree. rewrite Hfree.
  rret (read_desc_Ret i x s Hx). rret (write_desc_Ret i x (mk_desc 0 (ds_len x) (ds_flags x) (ds_next x)) s Hx).
  set (s1 := set_v_d _ s). rret (write_free_Ret i f 1 s1 Hf').
  apply (kdo_Ret (wake_up (ChVdisk 0))). by apply (wake_up_eq h Hwf k L (ChVdisk 0)).
Qed.

Lemma free_at_freed i x s j : (i < length (vd_free (v_d s)))%nat ->
  free_at (vd_free (v_d (freed i x s))) j = if decide (j = i) then true else free_at (vd_free (v_d s)) j.
Proof. intros Hi. apply (free_at_insert _ i 1 j Hi). Qed.
End Freed.

Lemma length_take_desc i s : length (vd_free (v_d (take_desc i s))) = length (vd_free (v_d s)).
Proof. apply length_insert. Qed.

Lemma alloc_head i l s : length (vd_free (v_d s)) = nnum -> free_list (v_d s) = i :: l ->
  alloc_desc s = Ret (Z.of_nat i) (take_desc i s) /\
  length (vd_free (v_d (take_desc i s))) = nnum /\ free_list (v_d (take_desc i s)) = l.
Proof.
  intros Hl Hf. rewrite alloc_desc_eq, Hf by done. split; [done|].
  rewrite length_take_desc. split; [done|by apply free_list_take].
Qed.

Lemma alloc3_step n idx i l s : length (vd_free (v_d s)) = nnum -> free_list (v_d s) = i :: l ->
  alloc3_desc_loop (S n) idx s = alloc3_desc_loop n (idx ++ [Z.of_nat i]) (take_desc i s).
Proof.
  intros Hl Hf. destruct (alloc_head i l s Hl Hf) as [E _]. cbn [alloc3_desc_loop]. rret E.
  destruct (Z.ltb_spec (Z.of_nat i) 0); [lia|done].
Qed.

Definition take3 (i0 i1 i2 : nat) (s : vst) : vst := take_desc i2 (take_desc i1 (take_desc i0 s)).

Lemma alloc3_ok i0 i1 i2 l s : length (vd_free (v_d s)) = nnum -> free_list (v_d s) = i0 :: i1 :: i2 :: l ->
  alloc3_desc s = Ret (Some [Z.of_nat i0; Z.of_nat i1; Z.of_nat i2]) (take3 i0 i1 i2 s) /\
  free_list (v_d (take3 i0 i1 i2 s)) = l.
Proof.
  intros Hl Hf. unfold alloc3_desc, take3.
  destruct (alloc_head i0 _ s Hl Hf) as (_ & Hl1 & Hf1).
  destruct (alloc_head i1 _ _ Hl1 Hf1) as (_ & Hl2 & Hf2).
  rewrite (alloc3_step 2 [] i0 _ s Hl Hf), (alloc3_step 1 _ i1 _ _ Hl1 Hf1), (alloc3_step 0 _ i2 _ _ Hl2 Hf2).
  split; [done|]. by apply free_list_take.
Qed.

Lemma alloc3_fail n idx s : length (vd_free (v_d s)) = nnum -> free_list (v_d s) = [] ->
  alloc3_desc_loop (S n) idx s =
  (for_each (length idx) 0 (fun j => x ← lift_opt (idx !! Z.to_nat j); free_desc x) ;; mret None : M vst _) s.
Proof. intros Hl Hf. cbn [alloc3_desc_loop]. rewrite bind_eq, alloc_desc_eq, Hf by done. reflexivity. Qed.

Lemma wake_other chain p : (p_status p = SLEEP -> p_chain p <> chain) -> wake chain p = p.
Proof. intros H. unfold wake. rewrite decide_False; [done|]. intros [H1 H2]. by apply H. Qed.

Lemma free_list_nodup d : NoDup (free_list d).
Proof.
  unfold free_list. generalize 0%nat. induction (vd_free d) as [|f l IH]; intros n; [constructor|]. cbn [free_from].
  apply NoDup_app. split; [destruct (is_free f); [apply NoDup_singleton|constructor]|].
  split; [|apply IH]. intros x Hx Hx2. apply free_from_elem in Hx2 as [? _].
  destruct (is_free f); set_solver by lia.
Qed.

(** *** Giving back what was taken *)

Definition others_same (s s' : vst) : Prop :=
  forall i p, k_procs (v_k s) !! i = Some p -> (p_status p = SLEEP -> p_chain p <> ChVdisk 0) ->
    k_procs (v_k s') !! i = Some p.

Lemma mem_cons_or (i j : nat) js (b : bool) :
  bool_decide (j ∈ js) || (if decide (j = i) then true else b) = bool_decide (j ∈ i :: js) || b.
Proof.
  case_decide as E.
  - rewrite orb_true_r, (bool_decide_true (j ∈ i :: js)) by (apply elem_of_cons; by left). done.
  - f_equal. apply bool_decide_ext. rewrite elem_of_cons. tauto.
Qed.

Lemma mem_snoc_or (i j : nat) js (b : bool) : (j = i -> b = true) ->
  bool_decide (j ∈ js ++ [i]) || (if decide (j = i) then false else b) = bool_decide (j ∈ js) || b.
Proof.
  intros Hb. case_decide as E.
  - rewrite (Hb E), orb_true_r, bool_decide_true; [done|]. apply elem_of_app. right. by apply list_elem_of_singleton.
  - f_equal. apply bool_decide_ext. rewrite elem_of_app, list_elem_of_singleton. tauto.
Qed.

Section Undo.
Variables (h : hw) (k : nat) (L : list lock_id).
Hypothesis Hwf : hw_wf h.
Hypothesis HND : NoDup L.
Hypothesis Hf : procs_free h L.

Record ready (s : vst) : Prop := {
  rd_lvl : at_lvl h k L (k_hw (v_k s));
  rd_procs : length (k_procs (v_k s)) = nprocs;
  rd_free : length (vd_free (v_d s)) = nnum;
  rd_desc : length (vd_desc (v_d s)) = nnum }.

Lemma freed_ready i x s : ready s -> ready (freed h k L i x s).
Proof.
  intros [H1 H2 H3 H4]. split; cbn; [by left|by rewrite length_map|by rewrite length_insert|by rewrite length_insert].
Qed.

Lemma freed_others i x s : others_same s (freed h k L i x s).
Proof.
  intros j p Hj Hc. cbn. rewrite list_lookup_fmap, Hj. cbn. by rewrite (wake_other _ p Hc).
Qed.

Definition give (idx : list Z) (j : Z) : M vst unit := x ← lift_opt (idx !! Z.to_nat j); free_desc x.

Lemma free_all js2 : forall js1 s, ready s -> NoDup js2 ->
  (forall j, j ∈ js2 -> (j < nnum)%nat /\ free_at (vd_free (v_d s)) j = false) ->
  exists s', for_each (length js2) (Z.of_nat (length js1)) (give (map Z.of_nat (js1 ++ js2))) s = Ret tt s' /\
    ready s' /\ others_same s s' /\
    forall j, free_at (vd_free (v_d s')) j = bool_decide (j ∈ js2) || free_at (vd_free (v_d s)) j.
Proof.
  induction js2 as [|i js2 IH]; intros js1 s Hr Hnd Hj.
  - exists s. split; [done|]. split; [done|]. split; [by intros ???|done].
  - apply NoDup_cons in Hnd as [Hni Hnd]. destruct (Hj i ltac:(set_solver)) as [Hi Hfi].
    destruct (lookup_lt_is_Some_2 (vd_desc (v_d s)) i) as [x Hx]; [by rewrite (rd_desc s Hr)|].
    pose proof (free_desc_eq h k L Hwf HND Hf i x s (rd_lvl s Hr) (rd_procs s Hr) Hi Hfi (rd_free s Hr) Hx) as E.
    assert (give (map Z.of_nat (js1 ++ i :: js2)) (Z.of_nat (length js1)) s = Ret tt (freed h k L i x s)) as E'.
    { unfold give. rewrite Nat2Z.id, list_lookup_fmap, list_lookup_middle by done. exact E. }
    set (s1 := freed h k L i x s) in *.
    assert (forall j, free_at (vd_free (v_d s1)) j = if decide (j = i) then true else free_at (vd_free (v_d s)) j) as Hf1.
    { intros j. apply free_at_freed. by rewrite (rd_free s Hr). }
    destruct (IH (js1 ++ [i]) s1) as (s' & Es & Hr' & Ho & Hfa); [by apply freed_ready|done| |].
    { intros j Hin. destruct (Hj j ltac:(set_solver)) as [? ?]. split; [done|].
      rewrite Hf1, decide_False; [done|]. by intros ->. }
    exists s'. cbn [length for_each]. rret E'.
    rewrite length_app, Nat2Z.inj_add, <- app_assoc in Es. split; [exact Es|]. split; [done|]. split.
    + intros j p Hp Hc. apply Ho; [|done]. by apply freed_others.
    + intros j. rewrite Hfa, Hf1. apply mem_cons_or.
Qed.

(** With too few descriptors everything taken so far is given back. *)
Lemma alloc3_none js : forall n js1 s, ready s -> (length js < n)%nat -> free_list (v_d s) = js ->
  NoDup js1 -> (forall j, j ∈ js1 -> (j < nnum)%nat /\ free_at (vd_free (v_d s)) j = false) ->
  exists s', alloc3_desc_loop n (map Z.of_nat js1) s = Ret None s' /\ ready s' /\ others_same s s' /\
    forall j, free_at (vd_free (v_d s')) j = bool_decide (j ∈ js1) || free_at (vd_free (v_d s)) j.
Proof.
  induction js as [|i js IH]; intros [|n] js1 s Hr Hn E Hnd Hj; cbn [length] in Hn; try lia.
  - destruct (free_all js1 [] s Hr Hnd Hj) as (s' & Es & H). exists s'.
    rewrite (alloc3_fail n _ s (rd_free s Hr) E), length_map. split; [|exact H]. by rret Es.
  - destruct (alloc_head i _ s (rd_free s Hr) E) as (_ & Hl1 & Hf1).
    destruct (free_list_lt (v_d s) i ltac:(rewrite E; set_solver)) as [Hi Hfi]. rewrite (rd_free s Hr) in Hi.
    rewrite (alloc3_step n _ i _ s (rd_free s Hr) E). set (s1 := take_desc i s) in *.
    assert (forall j, free_at (vd_free (v_d s1)) j = if decide (j = i) then false else free_at (vd_free (v_d s)) j) as Hfa.
    { intros j. apply (free_at_insert _ i 0 j). by rewrite (rd_free s Hr). }
    destruct (IH n (js1 ++ [i]) s1) as (s' & Es & Hr' & Ho & Hfa'); [|lia|done| | |].
    + destruct Hr as [? ? ? ?]. by split.
    + apply NoDup_app. split; [done|]. split; [|apply NoDup_singleton]. intros j Hj1 Hj2.
      apply list_elem_of_singleton in Hj2 as ->. destruct (Hj i Hj1) as [_ ?]. congruence.
    + intros j [Hj1| ->%list_elem_of_singleton]%elem_of_app; rewrite Hfa; [|by rewrite decide_True].
      destruct (Hj j Hj1) as [? Hj2]. split; [done|]. by rewrite Hj2; case_decide.
    + exists s'. rewrite map_app in Es. split; [exact Es|]. split; [done|]. split; [exact Ho|].
      intros j. rewrite Hfa', Hfa. apply mem_snoc_or. by intros ->.
Qed.
End Undo.

(** [alloc3_desc] takes three descriptors at once or none.  When at least three are
    free it answers the three least ones, they are distinct and in range, and exactly
    they leave the free list; when fewer are free it answers -1 with the free list as
    it was, so that a request never holds a part of what it needs, and processes that
    do not wait for a descriptor are not touched. *)
Theorem alloc3_desc_spec h k L s :
  hw_wf h -> at_lvl h k L (k_hw (v_k s)) -> NoDup L -> procs_free h L ->
  length (k_procs (v_k s)) = nprocs -> disk_wf (v_d s) ->
  match free_list (v_d s) with
  | i0 :: i1 :: i2 :: l =>
      exists s', alloc3_desc s = Ret (Some [Z.of_nat i0; Z.of_nat i1; Z.of_nat i2]) s' /\
        free_list (v_d s') = l /\ NoDup [i0; i1; i2] /\ (i0 < 8 /\ i1 < 8 /\ i2 < 8)%nat /\
        v_k s' = v_k s /\ vd_desc (v_d s') = vd_desc (v_d s)
  | _ =>
      exists s', alloc3_desc s = Ret None s' /\ free_list (v_d s') = free_list (v_d s) /\
        at_lvl h k L (k_hw (v_k s')) /\
        forall i p, k_procs (v_k s) !! i = Some p -> (p_status p = SLEEP -> p_chain p <> ChVdisk 0) ->
          k_procs (v_k s') !! i = Some p
  end.
Proof.
  intros Hwf Hs HND Hf Hp [Hd _ Hl _].
  assert (ready h k L s) as Hr by by split.
  assert ((length (free_list (v_d s)) < 3)%nat -> exists s', alloc3_desc s = Ret None s' /\
    free_list (v_d s') = free_list (v_d s) /\ at_lvl h k L (k_hw (v_k s')) /\ others_same s s') as Hfail.
  { intros Hlt. destruct (alloc3_none h k L Hwf HND Hf (free_list (v_d s)) 3 [] s Hr Hlt eq_refl) as (s' & E & Hr' & Ho & Hfa);
      [constructor|set_solver|].
    exists s'. split; [exact E|]. split; [|split; [apply Hr'|done]].
    apply free_from_ext; [by rewrite (rd_free _ _ _ _ Hr'), Hl|done]. }
  destruct (free_list (v_d s)) as [|i0 [|i1 [|i2 l]]] eqn:E; try (apply Hfail; cbn [length]; lia).
  destruct (alloc3_ok i0 i1 i2 l s Hl E) as [Ea Hl'].
  exists (take3 i0 i1 i2 s). split; [done|]. split; [done|].
  pose proof (free_list_nodup (v_d s)) as Hnd. rewrite E in Hnd.
  assert (forall i, i ∈ [i0; i1; i2] -> (i < 8)%nat) as Hlt.
  { intros i Hi. destruct (free_list_lt (v_d s) i) as [H _]; [rewrite E; set_solver|]. rewrite Hl in H. exact H. }
  split; [|split; [|done]].
  - eapply (sublist_NoDup _ (i0 :: i1 :: i2 :: l)); [exact Hnd|]. repeat constructor. apply sublist_nil_l.
  - repeat split; apply Hlt; set_solver.
Qed.

(** ** Requests *)

(** The request a device finds in the ring: the three descriptors of a legacy block
    request, reached from the entry before the available index. *)
Record request := mk_request {
  rq_type : Z; rq_sector : Z; rq_data : Z; rq_len : Z; rq_device_writes : bool; rq_status : Z }.

Definition has_next (x : VRingDesc) : bool := negb (Z.land (ds_flags x) VRING_DESC_F_NEXT =? 0).

Definition device_request (m : mem) (d : vdisk) : option request :=
  a ← vd_avail d !! 1%nat;
  i ← vd_avail d !! (2 + Z.to_nat (u16 (a - 1) mod NUM))%nat;
  d0 ← vd_desc d !! Z.to_nat i;
  if negb (has_next d0) then None else
  d1 ← vd_desc d !! Z.to_nat (ds_next d0);
  if negb (has_next d1) then None else
  d2 ← vd_desc d !! Z.to_nat (ds_next d1);
  if has_next d2 then None else
  Some (mk_request (ld32 m (ds_addr d0)) (ld64 m (ds_addr d0 + 8)) (ds_addr d1) (ds_len d1)
    (negb (Z.land (ds_flags d1) VRING_DESC_F_WRITE =? 0)) (ds_addr d2)).

Definition request_header (m : mem) (pa type sector : Z) : mem :=
  st64 (st32 (st32 m pa type) (pa + 4) 0) (pa + 8) sector.

Lemma ld8_header_outside m pa t sec a : a < pa \/ pa + 16 <= a ->
  ld8 (request_header m pa t sec) a = ld8 m a.
Proof.
  intros Ha. unfold request_header, st64, st32. rewrite !ld8_store_le_outside by (cbn; lia). done.
Qed.

Lemma request_header_reads m pa t sec : 0 <= t < 2 ^ 32 -> 0 <= sec < 2 ^ 64 ->
  ld32 (request_header m pa t sec) pa = t /\ ld64 (request_header m pa t sec) (pa + 8) = sec.
Proof.
  intros Ht Hs. unfold request_header. split; [|apply ld64_st64; exact Hs].
  transitivity (ld32 (st32 m pa t) pa).
  - apply load_le_ext. intros j Hj. unfold st64, st32 at 1. rewrite !ld8_store_le_outside by (cbn; lia). done.
  - unfold ld32, st32. rewrite load_store_le. by apply Z.mod_small.
Qed.

Section Request.
Context `{KernelData} `{WaitFuel} `{DiskData}.

(** The physical address of [buf0]. *)
Definition buf0_pa (m : mem) (T : tree) : Z := u64 (PTE2PA (leaf m T buf0_va) + buf0_va mod PGSIZE).

Lemma kvmpa_eq T va ks :
  pt_rep (k_mem ks) T -> T !! [] = Some kernel_page_table -> va <= MAX_VA -> leaf_addr T va <> Some NULL ->
  pte_valid (leaf (k_mem ks) T va) = true ->
  kvmpa va ks = Ret (u64 (PTE2PA (leaf (k_mem ks) T va) + va mod PGSIZE)) ks.
Proof.
  intros Hr HT Hva Hnn Hv. unfold kvmpa, leaf in *. cbv zeta.
  destruct (leaf_addr T va) as [a|] eqn:Ea; [|discriminate Hv].
  assert (kmdo (walk kernel_page_table va 0) ks = Ret a ks) as E.
  { pose proof (walk_no_alloc T kernel_page_table va (k_km ks) Hr HT Hva) as E. unfold walk_result in E.
    rewrite Ea in E. etransitivity; [apply (kmdo_Ret _ ks _ _ E)|]. by destruct ks. }
  rret E. destruct (Z.eqb_spec a NULL) as [->|_]; [done|].
  assert (kmdo (load64 a) ks = Ret (ld64 (k_mem ks) a) ks) as E'.
  { etransitivity; [apply (kmdo_Ret (load64 a) ks (ld64 (k_mem ks) a) (k_km ks)); done|]. by destruct ks. }
  rret E'. unfold pte_valid in Hv. apply negb_true_iff in Hv. by rewrite Hv.
Qed.

Definition req_type (write : Z) : Z := if negb (write =? 0) then VIRTIO_BLK_T_OUT else VIRTIO_BLK_T_IN.

(** The three descriptors of a request. *)
Definition chain0 (pa : Z) (i1 : nat) : VRingDesc := mk_desc pa 16 VRING_DESC_F_NEXT (Z.of_nat i1).
Definition chain1 (b : nat) (write : Z) (i2 : nat) : VRingDesc :=
  mk_desc (buf_data b) BSIZE (Z.lor (if negb (write =? 0) then 0 else VRING_DESC_F_WRITE) VRING_DESC_F_NEXT) (Z.of_nat i2).
Definition chain2 (i0 : nat) : VRingDesc := mk_desc (status_addr i0) 1 VRING_DESC_F_WRITE 0.
Definition chained (pa : Z) (b : nat) (write : Z) (i0 i1 i2 : nat) (l : list VRingDesc) : list VRingDesc :=
  <[i2 := chain2 i0]> (<[i1 := chain1 b write i2]> (<[i0 := chain0 pa i1]> l)).

Definition formatted (pa : Z) (b : nat) (write : Z) (i0 i1 i2 : nat) (sector : Z) (s : vst) : vst :=
  mk_vst (set_k_mem (st8 (request_header (k_mem (v_k s)) pa (req_type write) sector) (status_addr i0) 0) (v_k s))
    (set_vd_desc (chained pa b write i0 i1 i2 (vd_desc (v_d s))) (v_d s)).

Lemma u16_nat i : (i < 8)%nat -> u16 (Z.of_nat i) = Z.of_nat i.
Proof. intros Hi. unfold u16. apply Z.mod_small. lia. Qed.

Lemma format_eq T b write i0 i1 i2 sector s :
  pt_rep (k_mem (v_k s)) T -> T !! [] = Some kernel_page_table -> buf0_va <= MAX_VA ->
  leaf_addr T buf0_va <> Some NULL -> pte_valid (leaf (k_mem (v_k s)) T buf0_va) = true ->
  length (vd_desc (v_d s)) = nnum -> (i0 < 8 /\ i1 < 8 /\ i2 < 8)%nat ->
  virtio_format b write (Z.of_nat i0) (Z.of_nat i1) (Z.of_nat i2) sector s =
  Ret tt (formatted (buf0_pa (k_mem (v_k s)) T) b write i0 i1 i2 sector s).
Proof.
  intros Hr HT Hva Hnn Hv Hl (Hi0 & Hi1 & Hi2). unfold virtio_format.
  pose proof (kdo_Ret (kvmpa buf0_va) s _ _ (kvmpa_eq T buf0_va (v_k s) Hr HT Hva Hnn Hv)) as E.
  rret E. fold (buf0_pa (k_mem (v_k s)) T). set (pa := buf0_pa _ _). fold (req_type write).
  erewrite bind_Ret; [|apply kdo_Ret; reflexivity]. erewrite bind_Ret; [|apply kdo_Ret; reflexivity].
  erewrite bind_Ret; [|apply kdo_Ret; reflexivity]. rewrite !Nat2Z.id, !u16_nat by done.
  match goal with |- _ ?x = _ => set (s1 := x) end.
  assert (vd_desc (v_d s1) = vd_desc (v_d s)) as Hd by done.
  destruct (lookup_lt_is_Some_2 (vd_desc (v_d s1)) i0) as [y0 Hy0]; [rewrite Hd, Hl; exact Hi0|].
  rret (write_desc_Ret i0 y0 (chain0 pa i1) s1 Hy0). set (s2 := set_v_d _ s1).
  destruct (lookup_lt_is_Some_2 (vd_desc (v_d s2)) i1) as [y1 Hy1].
  { cbn. rewrite length_insert, ?Hd, Hl. exact Hi1. }
  rret (write_desc_Ret i1 y1 (chain1 b write i2) s2 Hy1). set (s3 := set_v_d _ s2).
  erewrite bind_Ret; [|apply kdo_Ret; reflexivity]. match goal with |- _ ?x = _ => set (s4 := x) end.
  destruct (lookup_lt_is_Some_2 (vd_desc (v_d s4)) i2) as [y2 Hy2].
  { cbn. rewrite !length_insert, ?Hd, Hl. exact Hi2. }
  etransitivity; [exact (write_desc_Ret i2 y2 (chain2 i0) s4 Hy2)|done].
Qed.

Definition published (b : nat) (x : buf) (i0 : nat) (a : Z) (s : vst) : vst :=
  mk_vst (set_k_bufs (<[b := set_b_disk 1 x]> (k_bufs (v_k s))) (v_k s))
    (mk_vdisk (vd_desc (v_d s))
      (<[1%nat := u16 (a + 1)]> (<[(2 + Z.to_nat (a mod NUM))%nat := Z.of_nat i0]> (vd_avail (v_d s))))
      (vd_used_id (v_d s)) (vd_used_elems (v_d s)) (vd_free (v_d s)) (vd_used_idx (v_d s))
      (<[i0 := Some b]> (vd_info (v_d s))) (vd_regs (v_d s)) ((VIRTIO_MMIO_QUEUE_NOTIFY, 0) :: vd_writes (v_d s))).

Lemma publish_eq b x i0 a s :
  k_bufs (v_k s) !! b = Some x -> disk_wf (v_d s) -> vd_avail (v_d s) !! 1%nat = Some a -> (i0 < 8)%nat ->
  virtio_publish b (Z.of_nat i0) s = Ret tt (published b x i0 a s).
Proof.
  intros Hb [_ Hav _ Hin] Ha Hi. unfold virtio_publish.
  pose proof (kdo_Ret _ s _ _ (upd_buf_Ret b x (set_b_disk 1) (v_k s) Hb)) as E. rret E.
  set (s1 := set_v_k _ s). rewrite Nat2Z.id.
  destruct (lookup_lt_is_Some_2 (vd_info (v_d s1)) i0) as [y Hy]; [rewrite (Hin : length (vd_info (v_d s1)) = nnum); exact Hi|].
  rret (write_info_Ret i0 y (Some b) s1 Hy). set (s2 := set_v_d _ s1).
  assert (vd_avail (v_d s2) !! 1%nat = Some a) as Ha2 by exact Ha. rret (read_avail_Ret 1 a s2 Ha2).
  assert (0 <= a mod NUM < 8) as Hm by (unfold NUM; lia).
  destruct (lookup_lt_is_Some_2 (vd_avail (v_d s2)) (2 + Z.to_nat (a mod NUM))) as [z Hz].
  { change (vd_avail (v_d s2)) with (vd_avail (v_d s)). rewrite Hav. change nnum with 8%nat. lia. }
  rewrite u16_nat by done. rret (write_avail_Ret _ z (Z.of_nat i0) s2 Hz). set (s3 := set_v_d _ s2).
  assert (vd_avail (v_d s3) !! 1%nat = Some a) as Ha3.
  { cbn [s3 v_d set_v_d vd_avail set_vd_avail]. rewrite list_lookup_insert_ne by lia. exact Ha. }
  rret (read_avail_Ret 1 a s3 Ha3). rret (write_avail_Ret 1 a (u16 (a + 1)) s3 Ha3). done.
Qed.

Lemma published_chain pa b x write i0 i1 i2 a sector s :
  disk_wf (v_d s) -> NoDup [i0; i1; i2] -> (i0 < 8 /\ i1 < 8 /\ i2 < 8)%nat ->
  let s1 := published b x i0 a (formatted pa b write i0 i1 i2 sector s) in
  vd_desc (v_d s1) !! i0 = Some (chain0 pa i1) /\ vd_desc (v_d s1) !! i1 = Some (chain1 b write i2) /\
  vd_desc (v_d s1) !! i2 = Some (chain2 i0).
Proof.
  intros [Hd _ _ _] Hnd (Hi0 & Hi1 & Hi2) s1.
  assert (i0 <> i1 /\ i0 <> i2 /\ i1 <> i2) as (Hn01 & Hn02 & Hn12).
  { apply NoDup_cons in Hnd as [Hn0 Hnd]. apply NoDup_cons in Hnd as [Hn1 _].
    rewrite !elem_of_cons in Hn0. rewrite !elem_of_cons in Hn1. tauto. }
  cbn [s1 published formatted v_d vd_desc set_vd_desc]. unfold chained. split_and!.
  - rewrite list_lookup_insert_ne, list_lookup_insert_ne by done. apply list_lookup_insert_eq. by rewrite Hd.
  - rewrite list_lookup_insert_ne by done. apply list_lookup_insert_eq. by rewrite length_insert, Hd.
  - apply list_lookup_insert_eq. by rewrite !length_insert, Hd.
Qed.

(** The device finds the request that was asked for. *)
Lemma published_request pa b x write i0 i1 i2 a sector s :
  disk_wf (v_d s) -> NoDup [i0; i1; i2] -> (i0 < 8 /\ i1 < 8 /\ i2 < 8)%nat -> 0 <= a < 2 ^ 16 ->
  0 <= sector < 2 ^ 64 -> status_addr i0 < pa \/ pa + 16 <= status_addr i0 ->
  let s1 := published b x i0 a (formatted pa b write i0 i1 i2 sector s) in
  device_request (k_mem (v_k s1)) (v_d s1) =
    Some (mk_request (req_type write) sector (buf_data b) BSIZE (write =? 0) (status_addr i0)) /\
  ld8 (k_mem (v_k s1)) (status_addr i0) = 0.
Proof.
  intros [Hd Hav Hfree Hin] Hnd (Hi0 & Hi1 & Hi2) Ha Hsec Hst s1.
  change (k_mem (v_k s1)) with (st8 (request_header (k_mem (v_k s)) pa (req_type write) sector) (status_addr i0) 0).
  split; [|rewrite ld8_st8; by case_decide].
  destruct (published_chain pa b x write i0 i1 i2 a sector s (Build_disk_wf _ Hd Hav Hfree Hin) Hnd (conj Hi0 (conj Hi1 Hi2))) as (C0 & C1 & C2).
  fold s1 in C0, C1, C2.
  assert (0 <= a mod NUM < 8) as Hm by (unfold NUM; lia).
  assert (vd_avail (v_d s1) !! 1%nat = Some (u16 (a + 1))) as A1.
  { cbn. apply list_lookup_insert_eq. rewrite length_insert, Hav. cbn; lia. }
  assert (vd_avail (v_d s1) !! (2 + Z.to_nat (a mod NUM))%nat = Some (Z.of_nat i0)) as A2.
  { cbn [s1 published v_d vd_avail]. rewrite list_lookup_insert_ne by lia.
    apply list_lookup_insert_eq. change (length (vd_avail (v_d s)) = (2 + nnum)%nat) in Hav.
    change (2 + Z.to_nat (a mod NUM) < length (vd_avail (v_d s)))%nat. rewrite Hav. change nnum with 8%nat. lia. }
  unfold device_request. rewrite A1. cbn [mbind option_bind].
  replace (u16 (u16 (a + 1) - 1)) with a by (unfold u16; lia). rewrite A2. cbn [mbind option_bind].
  rewrite Nat2Z.id, C0. cbn [mbind option_bind].
  change (negb (has_next (chain0 pa i1))) with false. cbn [chain0 ds_next ds_addr]. rewrite Nat2Z.id, C1.
  cbn [mbind option_bind].
  assert (has_next (chain1 b write i2) = true) as -> by (unfold chain1; by destruct (negb (write =? 0))).
  cbn [negb chain1 ds_next ds_addr ds_len ds_flags]. rewrite Nat2Z.id, C2. cbn [mbind option_bind].
  change (has_next (chain2 i0)) with false. cbn [chain2 ds_addr].
  set (m1 := request_header _ _ _ _).
  assert (0 <= req_type write < 2 ^ 32) as Ht by (unfold req_type; by destruct (negb (write =? 0))).
  destruct (request_header_reads (k_mem (v_k s)) pa (req_type write) sector Ht Hsec) as [E1 E2]. fold m1 in E1, E2.
  assert (forall c, pa <= c < pa + 16 -> ld8 (st8 m1 (status_addr i0) 0) c = ld8 m1 c) as Hfr.
  { intros c Hc. rewrite ld8_st8, decide_False by lia. done. }
  f_equal. f_equal.
  - rewrite <- E1. apply load_le_ext. intros c Hc. apply Hfr. lia.
  - rewrite <- E2. apply load_le_ext. intros c Hc. apply Hfr. lia.
  - by destruct (write =? 0).
Qed.
End Request.

(** ** Completion *)

Lemma while_step {S A R} n (a a' : A) (body : A -> M S (A + R)) s s' :
  body a s = Ret (inl a') s' -> while_loop (Datatypes.S n) a body s = while_loop n a' body s'.
Proof. intros E. cbn [while_loop]. by rret E. Qed.
Lemma while_stop {S A R} n (a : A) v (body : A -> M S (A + R)) s s' :
  body a s = Ret (inr v) s' -> while_loop (Datatypes.S n) a body s = Ret v s'.
Proof. intros E. cbn [while_loop]. by rret E. Qed.

Section Chain.
Variables (h : hw) (k : nat) (L : list lock_id).
Hypothesis Hwf : hw_wf h.
Hypothesis HND : NoDup L.
Hypothesis Hf : procs_free h L.

Definition chain_round (i : Z) : M vst (Z + unit) :=
  free_desc i ;;
  x ← read_desc (Z.to_nat i);
  if negb (Z.land (ds_flags x) VRING_DESC_F_NEXT =? 0) then mret (inl (ds_next x)) else mret (inr tt).

Lemma chain_round_eq i x s :
  ready h k L s -> (i < nnum)%nat -> free_at (vd_free (v_d s)) i = false -> vd_desc (v_d s) !! i = Some x ->
  chain_round (Z.of_nat i) s = Ret (if has_next x then inl (ds_next x) else inr tt) (freed h k L i x s).
Proof.
  intros [H1 H2 H3 H4] Hi Hfi Hx. unfold chain_round.
  rret (free_desc_eq h k L Hwf HND Hf i x s H1 H2 Hi Hfi H3 Hx). rewrite Nat2Z.id. set (s1 := freed h k L i x s).
  assert (vd_desc (v_d s1) !! i = Some (mk_desc 0 (ds_len x) (ds_flags x) (ds_next x))) as Hx1.
  { cbn. apply list_lookup_insert_eq. by rewrite H4. }
  rret (read_desc_Ret i _ s1 Hx1). unfold has_next. cbn [ds_flags ds_next]. by case_match.
Qed.

(** Freeing a chain of three. *)
Lemma free_chain3 i0 i1 i2 x0 x1 x2 s :
  ready h k L s -> NoDup [i0; i1; i2] -> (i0 < 8 /\ i1 < 8 /\ i2 < 8)%nat ->
  (forall j, j ∈ [i0; i1; i2] -> free_at (vd_free (v_d s)) j = false) ->
  vd_desc (v_d s) !! i0 = Some x0 -> vd_desc (v_d s) !! i1 = Some x1 -> vd_desc (v_d s) !! i2 = Some x2 ->
  has_next x0 = true -> ds_next x0 = Z.of_nat i1 -> has_next x1 = true -> ds_next x1 = Z.of_nat i2 -> has_next x2 = false ->
  let s' := freed h k L i2 x2 (freed h k L i1 x1 (freed h k L i0 x0 s)) in
  free_chain (Z.of_nat i0) s = Ret tt s' /\ ready h k L s' /\
  forall j, free_at (vd_free (v_d s')) j = bool_decide (j ∈ [i0; i1; i2]) || free_at (vd_free (v_d s)) j.
Proof.
  intros Hr Hnd (Hi0 & Hi1 & Hi2) Hfr H0 H1 H2 Hn0 He0 Hn1 He1 Hn2.
  assert (i0 <> i1 /\ i0 <> i2 /\ i1 <> i2) as (Hn01 & Hn02 & Hn12).
  { apply NoDup_cons in Hnd as [Ha Hnd]. apply NoDup_cons in Hnd as [Hb _].
    rewrite !elem_of_cons in Ha. rewrite !elem_of_cons in Hb. tauto. }
  pose proof (chain_round_eq i0 x0 s Hr Hi0 (Hfr i0 ltac:(set_solver)) H0) as E0.
  pose proof (free_at_freed h k L i0 x0 s) as F0. rewrite (rd_free _ _ _ _ Hr) in F0. specialize (fun j => F0 j Hi0) as F0'.
  pose proof (freed_ready h k L i0 x0 s Hr) as Hr1. set (s1 := freed h k L i0 x0 s) in *.
  assert (vd_desc (v_d s1) !! i1 = Some x1) as H1' by (cbn; by rewrite list_lookup_insert_ne).
  assert (free_at (vd_free (v_d s1)) i1 = false) as Hf1 by (rewrite F0', decide_False by done; apply Hfr; set_solver).
  pose proof (chain_round_eq i1 x1 s1 Hr1 Hi1 Hf1 H1') as E1.
  pose proof (free_at_freed h k L i1 x1 s1) as F1. rewrite (rd_free _ _ _ _ Hr1) in F1. specialize (fun j => F1 j Hi1) as F1'.
  pose proof (freed_ready h k L i1 x1 s1 Hr1) as Hr2. set (s2 := freed h k L i1 x1 s1) in *.
  assert (vd_desc (v_d s2) !! i2 = Some x2) as H2' by (cbn; by rewrite !list_lookup_insert_ne).
  assert (free_at (vd_free (v_d s2)) i2 = false) as Hf2.
  { rewrite F1', decide_False, F0', decide_False by done; apply Hfr; set_solver. }
  pose proof (chain_round_eq i2 x2 s2 Hr2 Hi2 Hf2 H2') as E2.
  pose proof (free_at_freed h k L i2 x2 s2) as F2. rewrite (rd_free _ _ _ _ Hr2) in F2. specialize (fun j => F2 j Hi2) as F2'.
  pose proof (freed_ready h k L i2 x2 s2 Hr2) as Hr3.
  rewrite Hn0, He0 in E0. rewrite Hn1, He1 in E1. rewrite Hn2 in E2.
  split; [|split; [exact Hr3|]].
  - change (free_chain (Z.of_nat i0) s) with (while_loop 9 (Z.of_nat i0) chain_round s).
    rewrite (while_step 8 _ _ _ _ _ E0), (while_step 7 _ _ _ _ _ E1). apply (while_stop 6 _ _ _ _ _ E2).
  - intros j. rewrite F2', F1', F0'.
    destruct (decide (j ∈ [i0; i1; i2])) as [Hj|Hj]; [rewrite bool_decide_true by done|rewrite bool_decide_false by done];
      rewrite !elem_of_cons, elem_of_nil in Hj; cbn [orb].
    + destruct (decide (j = i2)), (decide (j = i1)), (decide (j = i0)); done || tauto.
    + rewrite !decide_False by tauto. done.
Qed.
End Chain.

(** A sleep of the kernel inside the larger state. *)
Lemma kdo_Switch {A} (m : M kst A) s t kk :
  m (v_k s) = Switch t kk -> kdo m s = Switch (set_v_k t s) (fun s' => ozoom v_kL (kk (v_k s')) s').
Proof. intros E. unfold kdo, zoom. change (lget v_kL s) with (v_k s). rewrite E. reflexivity. Qed.

Section RequestCycle.
Context `{KD : KernelData} `{WF : WaitFuel} `{DD : DiskData}.
Variables (h : hw) (me : nat) (p : process) (b : nat).
Hypothesis Hwf : hw_wf h.
Hypothesis Hun : unnested h.
Hypothesis Hrun : running h me.
Hypothesis Hlk : hw_locks h !! LkVdisk = Some free_lock.
Hypothesis Hme : hw_locks h !! LkProc me = Some free_lock.
Hypothesis Hch : p_chain p = ChNull.

(** What [virtio_disk_rw] does after the request has been published. *)
Definition wait_done : M vst unit :=
  while_loop wait_fuel tt (fun _ =>
    x ← kdo (read_buf b);
    if b_disk x =? 1 then kdo (sleep_r (ChBuf b) LkVdisk) ;; mret (inl tt) else mret (inr tt)).
Definition finish (i0 : Z) : M vst unit :=
  write_info (Z.to_nat i0) None ;; free_chain i0 ;; kdo (release LkVdisk).

Lemma read_disk_flag s x : k_bufs (v_k s) !! b = Some x -> kdo (read_buf b) s = Ret x s.
Proof. intros Hx. etransitivity; [apply (kdo_Ret _ s _ _ (read_buf_Ret b x (v_k s) Hx))|]. by destruct s. Qed.

Lemma wait_done_eq x s (rest : M vst unit) : (1 < wait_fuel)%nat ->
  k_hw (v_k s) = held_hw 0 [LkVdisk] h -> k_procs (v_k s) !! me = Some p ->
  k_bufs (v_k s) !! b = Some x -> b_disk x = 1 ->
  exists kk, (wait_done ;; rest) s = Switch (set_v_k (set_k_hw (held_hw 0 [LkProc me] (with_ie 0 h))
                (set_k_procs (<[me := asleep (ChBuf b) p]> (k_procs (v_k s))) (v_k s))) s) kk /\
    forall h2 s2 x2, hw_wf h2 -> unnested h2 -> hw_locks h2 !! LkVdisk = Some free_lock ->
      hw_locks h2 !! LkProc me = Some free_lock -> k_hw (v_k s2) = held_hw 0 [LkProc me] h2 ->
      k_bufs (v_k s2) !! b = Some x2 -> b_disk x2 = 0 ->
      kk s2 = rest (set_v_k (set_k_hw (held_hw 0 [LkVdisk] (with_ie (ie_of h) h2)) (v_k s2)) s2).
Proof.
  intros Hfuel Hs Hp Hx Hd.
  destruct (sleep_eq h me LkVdisk (ChBuf b) p (v_k s) Hwf Hun Hrun Hs Hlk Hme Hp Hch) as (kk & E & Hk).
  pose proof (kdo_Switch (sleep_r (ChBuf b) LkVdisk) s _ kk E) as E'.
  unfold wait_done. destruct wait_fuel as [|[|n]]; [lia|lia|].
  eexists. split.
  { apply bind_Switch. cbn [while_loop]. apply bind_Switch.
    rret (read_disk_flag s x Hx). rewrite Hd. cbn [Z.eqb Pos.eqb]. apply bind_Switch. exact E'. }
  intros h2 s2 x2 Hwf2 Hun2 Hl2 Hm2 Hs2 Hx2 Hd2. cbv beta.
  rewrite (Hk h2 (v_k s2) Hwf2 Hun2 Hl2 Hm2 Hs2). cbn [ozoom obind lset v_kL].
  unfold mret at 1, M_ret at 1. cbn [obind].
  set (s3 := set_v_k _ s2). erewrite (bind_Ret _ _ s3 (inr tt) s3); [reflexivity|].
  rret (read_disk_flag s3 x2 Hx2). by rewrite Hd2.
Qed.
End RequestCycle.

Lemma free_chain_keeps h k L i x s :
  vd_info (v_d (freed h k L i x s)) = vd_info (v_d s) /\
  k_hw (v_k (freed h k L i x s)) = held_hw k L h.
Proof. done. Qed.

(** After the device is done: the entry of [info] is cleared and the chain is free. *)
Lemma finish_eq `{KD : KernelData} `{DD : DiskData} h pa b write i0 i1 i2 s :
  hw_wf h -> hw_locks h !! LkVdisk = Some free_lock -> procs_free h [LkVdisk] ->
  k_hw (v_k s) = held_hw 0 [LkVdisk] h -> length (k_procs (v_k s)) = nprocs -> disk_wf (v_d s) ->
  NoDup [i0; i1; i2] -> (i0 < 8 /\ i1 < 8 /\ i2 < 8)%nat ->
  (forall j, j ∈ [i0; i1; i2] -> free_at (vd_free (v_d s)) j = false) ->
  vd_desc (v_d s) !! i0 = Some (chain0 pa i1) -> vd_desc (v_d s) !! i1 = Some (chain1 b write i2) ->
  vd_desc (v_d s) !! i2 = Some (chain2 i0) ->
  exists s', finish (Z.of_nat i0) s = Ret tt s' /\ k_hw (v_k s') = held_hw 0 [] h /\
    k_mem (v_k s') = k_mem (v_k s) /\ k_disk (v_k s') = k_disk (v_k s) /\
    vd_info (v_d s') !! i0 = Some None /\
    forall j, free_at (vd_free (v_d s')) j = bool_decide (j ∈ [i0; i1; i2]) || free_at (vd_free (v_d s)) j.
Proof.
  intros Hwf Hl Hf Hs Hp [Hd Hav Hfr Hin] Hnd Hi Hnf H0 H1 H2. unfold finish. rewrite Nat2Z.id.
  destruct (lookup_lt_is_Some_2 (vd_info (v_d s)) i0) as [y Hy]; [rewrite Hin; apply Hi|].
  rret (write_info_Ret i0 y None s Hy). set (s1 := set_v_d _ s).
  assert (ready h 0 [LkVdisk] s1) as Hr by (split; [by left|done..]).
  assert (has_next (chain1 b write i2) = true) as Hn1 by (unfold chain1; by destruct (negb (write =? 0))).
  destruct (free_chain3 h 0 [LkVdisk] Hwf (NoDup_singleton _) Hf i0 i1 i2 _ _ _ s1 Hr Hnd Hi Hnf H0 H1 H2
    eq_refl eq_refl Hn1 eq_refl eq_refl) as (E & Hr' & Hfa).
  set (s2 := freed _ _ _ i2 _ _) in *. rret E.
  pose proof (release_top h Hwf 0 [] LkVdisk (v_k s2) Hl ltac:(set_solver) ltac:(constructor)) as Er.
  assert (release LkVdisk (v_k s2) = Ret tt (set_k_hw (held_hw 0 [] h) (v_k s2))) as Er'.
  { rewrite <- Er. f_equal. }
  eexists. split; [apply (kdo_Ret _ s2 _ _ Er')|]. split; [done|]. split; [done|]. split; [done|]. split; [|exact Hfa].
  cbn. apply list_lookup_insert_eq. rewrite Hin. apply Hi.
Qed.

(** What the theorem says, and where the memory and the disk stay as they are. *)
Lemma virtio_disk_rw_ok `{KD : KernelData} `{WF : WaitFuel} `{DD : DiskData} h me p T b x write a i0 i1 i2 l s :
  hw_wf h -> unnested h -> running h me -> at_lvl h 0 [] (k_hw (v_k s)) ->
  hw_locks h !! LkVdisk = Some free_lock -> hw_locks h !! LkProc me = Some free_lock ->
  k_procs (v_k s) !! me = Some p -> p_chain p = ChNull ->
  k_bufs (v_k s) !! b = Some x -> disk_wf (v_d s) -> vd_avail (v_d s) !! 1%nat = Some a -> 0 <= a < 2 ^ 16 ->
  free_list (v_d s) = i0 :: i1 :: i2 :: l ->
  pt_rep (k_mem (v_k s)) T -> T !! [] = Some kernel_page_table -> buf0_va <= MAX_VA ->
  leaf_addr T buf0_va <> Some NULL -> pte_valid (leaf (k_mem (v_k s)) T buf0_va) = true ->
  (status_addr i0 < buf0_pa (k_mem (v_k s)) T \/ buf0_pa (k_mem (v_k s)) T + 16 <= status_addr i0) ->
  (1 < wait_fuel)%nat ->
  exists s1 k, virtio_disk_rw b write s = Switch s1 k /\
    device_request (k_mem (v_k s1)) (v_d s1) =
      Some (mk_request (if negb (write =? 0) then VIRTIO_BLK_T_OUT else VIRTIO_BLK_T_IN)
        (u32 (b_blockno x * 2)) (buf_data b) BSIZE (write =? 0) (status_addr i0)) /\
    k_mem (v_k s1) = st8 (request_header (k_mem (v_k s)) (buf0_pa (k_mem (v_k s)) T) (req_type write) (u32 (b_blockno x * 2))) (status_addr i0) 0 /\
    k_disk (v_k s1) = k_disk (v_k s) /\
    ld8 (k_mem (v_k s1)) (status_addr i0) = 0 /\
    vd_avail (v_d s1) !! 1%nat = Some (u16 (a + 1)) /\
    head (vd_writes (v_d s1)) = Some (VIRTIO_MMIO_QUEUE_NOTIFY, 0) /\
    free_list (v_d s1) = l /\ vd_info (v_d s1) !! i0 = Some (Some b) /\
    k_bufs (v_k s1) !! b = Some (set_b_disk 1 x) /\
    k_procs (v_k s1) !! me = Some (asleep (ChBuf b) p) /\
    k_hw (v_k s1) = held_hw 0 [LkProc me] (with_ie 0 h) /\
    forall h2 s2 x2, hw_wf h2 -> unnested h2 -> hw_locks h2 !! LkVdisk = Some free_lock ->
      procs_free h2 [LkVdisk] -> (me < nprocs)%nat -> k_hw (v_k s2) = held_hw 0 [LkProc me] h2 ->
      length (k_procs (v_k s2)) = nprocs -> disk_wf (v_d s2) ->
      (forall i, i ∈ [i0; i1; i2] -> vd_desc (v_d s2) !! i = vd_desc (v_d s1) !! i /\ free_at (vd_free (v_d s2)) i = false) ->
      k_bufs (v_k s2) !! b = Some x2 -> b_disk x2 = 0 ->
      exists s3, k s2 = Ret tt s3 /\ k_hw (v_k s3) = held_hw 0 [] (with_ie (ie_of h) h2) /\
        k_mem (v_k s3) = k_mem (v_k s2) /\ k_disk (v_k s3) = k_disk (v_k s2) /\
        vd_info (v_d s3) !! i0 = Some None /\
        forall j, free_at (vd_free (v_d s3)) j = bool_decide (j ∈ [i0; i1; i2]) || free_at (vd_free (v_d s2)) j.
Proof.
  intros Hwf Hun Hrun Hs Hl Hm Hp Hch Hx Hd Ha Har Hfl Hr HT Hva Hnn Hv Hst Hfuel.
  pose proof (free_list_nodup (v_d s)) as Hnd. rewrite Hfl in Hnd.
  assert (NoDup [i0; i1; i2]) as Hnd3.
  { eapply (sublist_NoDup _ (i0 :: i1 :: i2 :: l)); [exact Hnd|]. repeat constructor. apply sublist_nil_l. }
  assert (forall i, i ∈ [i0; i1; i2] -> (i < 8)%nat) as Hlt.
  { intros i Hi. destruct (free_list_lt (v_d s) i) as [Hq _]; [rewrite Hfl; set_solver|].
    rewrite (dw_free _ Hd) in Hq. exact Hq. }
  assert (i0 < 8 /\ i1 < 8 /\ i2 < 8)%nat as Hi by (repeat split; apply Hlt; set_solver).
  pose proof (kdo_Ret _ s _ _ (acquire_lvl h Hwf 0 [] LkVdisk (v_k s) Hs Hl ltac:(set_solver))) as Eacq.
  set (sa := set_v_k _ s) in Eacq.
  destruct (alloc3_ok i0 i1 i2 l sa (dw_free _ Hd) Hfl) as [Ealloc Hl3]. set (st := take3 i0 i1 i2 sa) in *.
  set (sector := u32 (b_blockno x * (BSIZE / 512))).
  pose proof (format_eq T b write i0 i1 i2 sector st Hr HT Hva Hnn Hv (dw_desc _ Hd) Hi) as Efmt.
  set (pa := buf0_pa _ T) in Hst. change (buf0_pa (k_mem (v_k st)) T) with pa in Efmt.
  set (sf := formatted pa b write i0 i1 i2 sector st) in *.
  assert (disk_wf (v_d st)) as Hdt.
  { destruct Hd as [? ? ? ?]. split; [done|done| |done]. unfold st, take3. by rewrite !length_take_desc. }
  assert (disk_wf (v_d sf)) as Hdf.
  { destruct Hdt as [Hdd ? ? ?]. split; [|done..]. etransitivity; [|exact Hdd].
    etransitivity; [apply length_insert|]. etransitivity; [apply length_insert|]. apply length_insert. }
  pose proof (publish_eq b x i0 a sf Hx Hdf Ha (proj1 Hi)) as Epub.
  set (sp := published b x i0 a sf) in *.
  assert (k_bufs (v_k sp) !! b = Some (set_b_disk 1 x)) as Hxp by (cbn; apply list_lookup_insert_eq; by eapply lookup_lt_Some).
  destruct (wait_done_eq h me p b Hwf Hun Hrun Hl Hm Hch (set_b_disk 1 x) sp (finish (Z.of_nat i0)) Hfuel eq_refl Hp Hxp eq_refl)
    as (kk & Ew & Hk).
  eexists _, kk. split.
  { unfold virtio_disk_rw. rret (read_disk_flag b s x Hx). fold sector. cbv zeta. rret Eacq.
    erewrite bind_Ret.
    2:{ pose proof wait_fuel_pos as Hw. destruct wait_fuel as [|n]; [lia|]. apply (while_stop n).
        rret Ealloc. reflexivity. }
    cbn beta iota. rret Efmt. rret Epub. exact Ew. }
  destruct (published_request pa b x write i0 i1 i2 a sector st Hdt Hnd3 Hi Har ltac:(unfold sector, u32; lia) Hst) as [Hreq Hstat].
  split; [exact Hreq|]. split; [done|]. split; [done|]. split; [exact Hstat|].
  split; [cbn; apply list_lookup_insert_eq; rewrite length_insert, (dw_avail _ Hd); cbn; lia|].
  split; [done|]. split; [exact Hl3|].
  split; [cbn; apply list_lookup_insert_eq; rewrite (dw_info _ Hd); apply Hi|].
  split; [exact Hxp|]. split; [cbn; apply list_lookup_insert_eq; by eapply lookup_lt_Some|]. split; [done|].
  intros h2 s2 x2 Hwf2 Hun2 Hl2 Hpf2 Hmn Hs2 Hlp2 Hd2 Hkeep Hx2 Hdone.
  rewrite (Hk h2 s2 x2 Hwf2 Hun2 Hl2 (proj1 (Hpf2 me Hmn)) Hs2 Hx2 Hdone).
  destruct (Hkeep i0 ltac:(constructor)) as [K0 _]. destruct (Hkeep i1 ltac:(do 2 constructor)) as [K1 _].
  destruct (Hkeep i2 ltac:(do 3 constructor)) as [K2 _].
  destruct (published_chain pa b x write i0 i1 i2 a sector st Hdt Hnd3 Hi) as (C0 & C1 & C2).
  destruct (finish_eq (with_ie (ie_of h) h2) pa b write i0 i1 i2
    (set_v_k (set_k_hw (held_hw 0 [LkVdisk] (with_ie (ie_of h) h2)) (v_k s2)) s2)
    (with_ie_wf _ _ Hun2 Hwf2) Hl2 Hpf2 eq_refl Hlp2 Hd2 Hnd3 Hi (fun j Hj => proj2 (Hkeep j Hj))
    (eq_trans K0 C0) (eq_trans K1 C1) (eq_trans K2 C2)) as (s3 & E3 & H3 & Hm3 & Hd3 & Hi3 & Hf3).
  exists s3. split; [exact E3|]. split; [exact H3|]. split; [exact Hm3|]. split; [exact Hd3|]. split; [exact Hi3|exact Hf3].
Qed.

(** C22: [virtio_disk_rw] with three free descriptors puts exactly one request into the
    ring, and the device finds there what was asked for: the direction, the sector of
    the block, the buffer's data with the length of a block, and a status byte that is
    clear; the available index moves by one and the device is notified, before the
    process gives up the lock, marked asleep on the buffer.  When it is scheduled
    again and the interrupt has cleared [b->disk], the call returns with exactly the
    request's three descriptors free again and no lock held. *)
Theorem virtio_disk_rw_spec `{KD : KernelData} `{WF : WaitFuel} `{DD : DiskData} h me p T b x write a i0 i1 i2 l s :
  hw_wf h -> unnested h -> running h me -> at_lvl h 0 [] (k_hw (v_k s)) ->
  hw_locks h !! LkVdisk = Some free_lock -> hw_locks h !! LkProc me = Some free_lock ->
  k_procs (v_k s) !! me = Some p -> p_chain p = ChNull ->
  k_bufs (v_k s) !! b = Some x -> disk_wf (v_d s) -> vd_avail (v_d s) !! 1%nat = Some a -> 0 <= a < 2 ^ 16 ->
  free_list (v_d s) = i0 :: i1 :: i2 :: l ->
  pt_rep (k_mem (v_k s)) T -> T !! [] = Some kernel_page_table -> buf0_va <= MAX_VA ->
  leaf_addr T buf0_va <> Some NULL -> pte_valid (leaf (k_mem (v_k s)) T buf0_va) = true ->
  (status_addr i0 < buf0_pa (k_mem (v_k s)) T \/ buf0_pa (k_mem (v_k s)) T + 16 <= status_addr i0) ->
  (1 < wait_fuel)%nat ->
  exists s1 k, virtio_disk_rw b write s = Switch s1 k /\
    device_request (k_mem (v_k s1)) (v_d s1) =
      Some (mk_request (if negb (write =? 0) then VIRTIO_BLK_T_OUT else VIRTIO_BLK_T_IN)
        (u32 (b_blockno x * 2)) (buf_data b) BSIZE (write =? 0) (status_addr i0)) /\
    ld8 (k_mem (v_k s1)) (status_addr i0) = 0 /\
    vd_avail (v_d s1) !! 1%nat = Some (u16 (a + 1)) /\
    head (vd_writes (v_d s1)) = Some (VIRTIO_MMIO_QUEUE_NOTIFY, 0) /\
    free_list (v_d s1) = l /\ vd_info (v_d s1) !! i0 = Some (Some b) /\
    k_bufs (v_k s1) !! b = Some (set_b_disk 1 x) /\
    k_procs (v_k s1) !! me = Some (asleep (ChBuf b) p) /\
    k_hw (v_k s1) = held_hw 0 [LkProc me] (with_ie 0 h) /\
    forall h2 s2 x2, hw_wf h2 -> unnested h2 -> hw_locks h2 !! LkVdisk = Some free_lock ->
      procs_free h2 [LkVdisk] -> (me < nprocs)%nat -> k_hw (v_k s2) = held_hw 0 [LkProc me] h2 ->
      length (k_procs (v_k s2)) = nprocs -> disk_wf (v_d s2) ->
      (forall i, i ∈ [i0; i1; i2] -> vd_desc (v_d s2) !! i = vd_desc (v_d s1) !! i /\ free_at (vd_free (v_d s2)) i = false) ->
      k_bufs (v_k s2) !! b = Some x2 -> b_disk x2 = 0 ->
      exists s3, k s2 = Ret tt s3 /\ k_hw (v_k s3) = held_hw 0 [] (with_ie (ie_of h) h2) /\
        vd_info (v_d s3) !! i0 = Some None /\
        forall j, free_at (vd_free (v_d s3)) j = bool_decide (j ∈ [i0; i1; i2]) || free_at (vd_free (v_d s2)) j.
Proof.
  intros Hwf Hun Hrun Hs Hl Hm Hp Hch Hx Hd Ha Har Hfl Hr HT Hva Hnn Hv Hst Hfuel.
  destruct (virtio_disk_rw_ok h me p T b x write a i0 i1 i2 l s Hwf Hun Hrun Hs Hl Hm Hp Hch Hx Hd Ha Har Hfl Hr HT Hva Hnn Hv Hst Hfuel)
    as (s1 & k & E & Hreq & _ & _ & Hstat & Hav & Hn & Hf & Hi & Hb & Hps & Hh & Hk).
  exists s1, k. split_and!; try done. intros h2 s2 x2 H1 H2 H3 H4 H5 H6 H7 H8 H9 H10 H11.
  destruct (Hk h2 s2 x2 H1 H2 H3 H4 H5 H6 H7 H8 H9 H10 H11) as (s3 & E3 & Hh3 & _ & _ & Hi3 & Hf3). by exists s3.
Qed.
