(* ===== verification/Uvm.v ===== *)
(** * Growing and shrinking the user heap: kernel/syscall/uvm.c *)

From S2P Require Import Prelude Hart VmSystem Mem Kalloc PageTable State.

Section Uvm.
Context `{KernelImage}.

(** The loop variable is [cur]; the function returns from the loop on an error. *)
Definition increment_mem_end (proc : nat) (pages : Z) : M kst Z :=
  p ← read_proc proc;
  let pre_mem_end := p_mem_end p in
  let err_ret cur := kmdo (unmap_n_pages_free (p_pgtable p) pre_mem_end (i32 (cur / PGSIZE))) ;;
                     mret (inr (-1)) in
  while_loop (Z.to_nat pages + 1) 0 (fun cur =>
    if cur >=? u64 (pages * PGSIZE) then mret (inr 0) else
    page ← kmdo kalloc;
    if page =? NULL then err_ret cur else
    err ← kmdo (map_page (p_pgtable p) (u64 (pre_mem_end + cur)) page
                  (Z.lor (Z.lor (Z.lor PTE_R PTE_W) PTE_X) PTE_U));
    if negb (err =? 0) then kmdo (kfree page) ;; err_ret cur else
    mret (inl (u64 (cur + PGSIZE)))).

Definition decrease_mem_end (proc : nat) (pages : Z) : M kst unit :=
  p ← read_proc proc;
  kmdo (unmap_n_pages_free (p_pgtable p) (u64 (p_mem_end p - pages * PGSIZE)) (i32 pages)).

Definition brk (proc : nat) (new_brk : Z) : M kst Z :=
  p ← read_proc proc;
  let pre_mem_brk := p_mem_brk p in
  let pre_mem_end := p_mem_end p in
  if pre_mem_brk >? pre_mem_end then panic "brk: mem_brk > mem_end" else
  if negb (pre_mem_end mod PGSIZE =? 0) then panic "brk: mem_end is not aligned to PGSIZE" else
  if (new_brk <? p_mem_start p) || (new_brk >=? PROC_VA_END) then mret (u64 (-1)) else
  let new_mem_end := ROUND_UP_PGSIZE new_brk in
  fail ← (if new_brk >? pre_mem_end then
            err ← increment_mem_end proc (u64 (new_mem_end - pre_mem_end) / PGSIZE);
            mret (negb (err =? 0))
          else
            (if new_brk <? pre_mem_brk then
               if new_mem_end <? pre_mem_end then
                 kmdo (unmap_n_pages_free (p_pgtable p) new_mem_end
                         (i32 ((pre_mem_end - new_mem_end) / PGSIZE)))
               else mret tt
             else mret tt) ;; mret false);
  if (fail : bool) then mret (u64 (-1)) else
  upd_proc proc (set_p_mem_end new_mem_end) ;;
  upd_proc proc (set_p_mem_brk new_brk) ;;
  mret 0.

Definition sbrk (proc : nat) (increment : Z) : M kst Z :=
  p ← read_proc proc;
  let pre_mem_brk := p_mem_brk p in
  err ← brk proc (u64 (p_mem_brk p + increment));
  if negb (err =? 0) then mret (u64 (-1)) else mret pre_mem_brk.

End Uvm.
