(* ===== verification/UvmSpec.v ===== *)
(** * What growing and shrinking the user heap promises: Uvm.v

    The pages of a heap are listed in order; [brk] keeps the heap mapped page by
    page from [p_mem_start] to [p_mem_end], takes new pages from the allocator and
    gives back the ones it drops. *)

From S2P Require Import Prelude Hart VmSystem Mem Kalloc PageTable PageTableSpec State Critical Uvm.

Section Spec.
Context `{KernelImage}.

(** ** Blocks of pages *)

(** Page [j] of the block at [va] is mapped to the [j]th page of [ps]. *)
Definition block_at (m : mem) (T : tree) (va : Z) (ps : list Z) : Prop :=
  forall j p, ps !! j = Some p ->
    mapped m T (va + Z.of_nat j * PGSIZE) = true /\
    PTE_GET_PA (leaf m T (va + Z.of_nat j * PGSIZE)) = p.

(** Pages that belong to the block alone: neither free nor tables. *)
Record owned (T : tree) (l ps : list Z) : Prop := {
  ow_valid : Forall valid_page ps;
  ow_nodup : NoDup ps;
  ow_free p : p ∈ ps -> p ∉ l;
  ow_table p k q : p ∈ ps -> T !! k = Some q -> q <> p }.

(** The tables with a block of [n] pages at [va] taken out. *)
Definition block_cleared (m : mem) (T : tree) (m' : mem) (T' : tree) (va n : Z) : Prop :=
  forall va', user_range va' -> leaf m' T' va' = if decide (in_block va n va') then 0 else leaf m T va'.

Lemma same_page_refl_off va j va' :
  page_aligned va -> same_page (va + j * PGSIZE) va' <-> va + j * PGSIZE <= va' < va + (j + 1) * PGSIZE.
Proof. unfold page_aligned, same_page. intros. vmconst. split; intros; lia. Qed.

Lemma unmap_block_spec T l s root va ps :
  vm_inv T l s -> T !! [] = Some root -> page_aligned va -> 0 <= va ->
  va + Z.of_nat (length ps) * PGSIZE <= VA_END ->
  block_at (km_mem s) T va ps -> owned T l ps ->
  runs (unmap_n_pages_free root va (Z.of_nat (length ps))) s (fun _ s' =>
    vm_inv T (reverse ps ++ l) s' /\ hw_equiv (km_hw s) (km_hw s') /\
    block_cleared (km_mem s) T (km_mem s') T va (Z.of_nat (length ps))).
Proof.
  intros Hinv Hroot Hal Hva Hend Hb Ho. unfold unmap_n_pages_free, unmap_n_pages_flex.
  eapply (runs_for_each _ _ _ (fun i s1 => vm_inv T (reverse (take (Z.to_nat i) ps) ++ l) s1 /\
    hw_equiv (km_hw s) (km_hw s1) /\ block_cleared (km_mem s) T (km_mem s1) T va i)).
  - split; [done|]. split; [done|]. intros va' _. rewrite decide_False; [done|]. unfold in_block. lia.
  - intros i s1 Hi (Hi1 & Hhw & Hc). rewrite u64_small by vmlia.
    destruct (lookup_lt_is_Some_2 ps (Z.to_nat i)) as [p Hp]; [lia|].
    assert (user_range (va + i * PGSIZE)) as Hr by (unfold user_range; vmlia).
    assert (leaf (km_mem s1) T (va + i * PGSIZE) = leaf (km_mem s) T (va + i * PGSIZE)) as He.
    { rewrite Hc by done. by rewrite decide_False by (unfold in_block; lia). }
    destruct (Hb (Z.to_nat i) p Hp) as [Hm Hpa]. rewrite Z2Nat.id in Hm, Hpa by lia.
    assert (p ∈ ps) as Hin by by eapply list_elem_of_lookup_2.
    eapply runs_mono.
    + apply (unmap_page_free_ok T (reverse (take (Z.to_nat i) ps) ++ l) s1 root _ p Hi1 Hroot Hr).
      * unfold mapped. rewrite He. exact Hm.
      * by rewrite He.
      * destruct Ho as [Hv _ _ _]. rewrite Forall_forall in Hv. by apply Hv.
      * rewrite elem_of_app, elem_of_reverse. intros [Hin'|Hin']; [|by eapply ow_free].
        apply elem_of_take in Hin' as (j & Hj & Hlt).
        pose proof (NoDup_lookup _ _ _ _ (ow_nodup _ _ _ Ho) Hj Hp). lia.
      * intros k q Hk. by eapply ow_table.
    + intros _ s2 (Hi2 & Hhw2 & Hone). split; [|split].
      * replace (Z.to_nat (i + 1)) with (S (Z.to_nat i)) by lia.
        by rewrite (take_S_r _ _ _ Hp), reverse_snoc.
      * by etrans.
      * intros va' Hva'. rewrite Hone, Hc by done.
        rewrite (decide_ext _ _ _ _ (in_block_S va i va' Hal ltac:(lia))).
        repeat case_decide; tauto.
  - intros s1 (Hi1 & Hhw & Hc). rewrite Z.add_0_l, Z2Nat.id, Nat2Z.id, firstn_all in Hi1 by lia.
    rewrite Z.add_0_l, Z2Nat.id in Hc by lia. done.
Qed.

(** Taking a page for data. *)
Lemma kalloc_vm T l s :
  vm_inv T l s ->
  runs kalloc s (fun p s' =>
    hw_equiv (km_hw s) (km_hw s') /\ same_leaves (km_mem s) T (km_mem s') T /\
    match l with
    | [] => p = NULL /\ vm_inv T [] s'
    | p0 :: l' => p = p0 /\ vm_inv T l' s' /\ owned T l' [p] /\ (p =? NULL) = false
    end).
Proof.
  intros [Hkm Hr Hsep]. eapply runs_mono; [by apply kalloc_ok|]. intros p s1 (Hhw & H1).
  split; [rewrite Hhw; apply hw_equiv_settle, Hkm|]. destruct l as [|p0 l].
  - destruct H1 as (-> & Hm & Hi). split; [intros va; by rewrite Hm|]. split; [done|].
    split; [done|by rewrite Hm|done].
  - destruct H1 as (-> & Hv & Hn & Hi & Hm).
    destruct (pt_rep_frame (km_mem s) (km_mem s1) T Hr) as [Hr1 Hl1].
    { intros a (k & q & Hk & Ha). rewrite Hm, decide_False; [done|]. intros Hb.
      destruct (rep_page _ _ Hr _ _ Hk) as [[_ Hqa] _].
      pose proof (pages_disjoint q p0 a Hqa (proj2 Hv) Ha Hb) as ->.
      apply (Hsep k p0 Hk). left. }
    split; [done|]. split; [done|]. split; [|split].
    + split; [done|done|]. intros k q Hk Hin. apply (Hsep k q Hk). by right.
    + split.
      * by constructor.
      * apply NoDup_singleton.
      * by intros q ->%list_elem_of_singleton.
      * intros q k r ->%list_elem_of_singleton Hk ->. apply (Hsep k p0 Hk). left.
    + by apply valid_page_nonnull.
Qed.

Definition heap_attr : Z := Z.lor (Z.lor (Z.lor PTE_R PTE_W) PTE_X) PTE_U.
Definition heap_entry (ps : list Z) (va va' : Z) : Z :=
  MAKE_PTE (default 0 (ps !! Z.to_nat ((va' - va) / PGSIZE))) (Z.lor heap_attr PTE_V).

(** ** Growing: [ps] mapped at [va], from the state [s] with free list [l] *)
Record grown (T : tree) (l : list Z) (s : kmem) (va : Z)
  (T1 : tree) (l1 : list Z) (s1 : kmem) (ps : list Z) : Prop := {
  gr_inv : vm_inv T1 l1 s1;
  gr_sub : T ⊆ T1;
  gr_hw : hw_equiv (km_hw s) (km_hw s1);
  gr_own : owned T1 l1 ps;
  gr_leaf va' : user_range va' -> leaf (km_mem s1) T1 va' =
    if decide (in_block va (Z.of_nat (length ps)) va') then heap_entry ps va va' else leaf (km_mem s) T va';
  gr_pages : exists new, l ≡ₚ ps ++ new ++ l1 /\
    forall k p, T1 !! k = Some p -> T !! k = Some p \/ p ∈ new }.

Lemma grown_nil T l s va : vm_inv T l s -> grown T l s va T l s [].
Proof.
  intros Hinv. split; try done.
  - split; [constructor|constructor|intros ? []%not_elem_of_nil|intros ??? []%not_elem_of_nil].
  - intros va' _. rewrite decide_False; [done|]. unfold in_block. cbn. lia.
  - exists []. split; [done|]. by left.
Qed.

Lemma owned_snoc T l ps p :
  owned T l ps -> owned T l [p] -> p ∉ ps -> owned T l (ps ++ [p]).
Proof.
  intros [H1 H2 H3 H4] [H5 _ H7 H8] Hn. split.
  - apply Forall_app. by split.
  - apply NoDup_app. split; [done|]. split; [|apply NoDup_singleton].
    intros q Hq Hq'. apply list_elem_of_singleton in Hq'. by subst.
  - intros q [Hq|Hq]%elem_of_app; [by apply H3|by apply H7].
  - intros q k r [Hq|Hq]%elem_of_app; [by apply H4|by apply H8].
Qed.

(** Tables that grow take their pages from the free list, so owned pages stay so. *)
Lemma owned_step T l s T' l' s' ps : vm_step T l s T' l' s' -> owned T l ps -> owned T' l' ps.
Proof.
  intros Hst [H1 H2 H3 H4]. destruct (step_new _ _ _ _ _ _ Hst) as (new & -> & Hnew & _). split.
  - done.
  - done.
  - intros q Hq Hin. apply (H3 q Hq). apply elem_of_app. by right.
  - intros q k r Hq Hk ->. destruct (Hnew k q Hk) as [Hk'|Hin]; [by apply (H4 q k q)|].
    apply (H3 q Hq). apply elem_of_app. by left.
Qed.

Lemma owned_weaken T l ps p : owned T (p :: l) ps -> owned T l ps.
Proof. intros [H1 H2 H3 H4]. split; try done. intros q Hq Hin. apply (H3 q Hq). by right. Qed.

Lemma heap_entry_valid ps va va' j p :
  ps !! j = Some p -> valid_page p -> (va' - va) / PGSIZE = Z.of_nat j ->
  pte_valid (heap_entry ps va va') = true /\ PTE_GET_PA (heap_entry ps va va') = p.
Proof.
  intros Hp Hv E. unfold heap_entry. rewrite E, Nat2Z.id, Hp. cbn [default id].
  pose proof (valid_page_range p Hv). split.
  - apply MAKE_PTE_V_valid. vmlia.
  - apply PTE_GET_PA_MAKE_PTE; [apply Hv|vmlia].
Qed.

Lemma grown_block T l s va T1 l1 s1 ps :
  page_aligned va -> 0 <= va -> va + Z.of_nat (length ps) * PGSIZE <= VA_END ->
  grown T l s va T1 l1 s1 ps -> block_at (km_mem s1) T1 va ps.
Proof.
  intros Hal Hva Hend Hg j p Hp. pose proof (lookup_lt_Some _ _ _ Hp) as Hj.
  pose proof (ow_valid _ _ _ (gr_own _ _ _ _ _ _ _ _ Hg)) as Hv. rewrite Forall_lookup in Hv.
  destruct (heap_entry_valid ps va (va + Z.of_nat j * PGSIZE) j p Hp (Hv j p Hp)) as [H1 H2]; [vmlia|].
  unfold mapped. rewrite (gr_leaf _ _ _ _ _ _ _ _ Hg) by (unfold user_range; vmlia).
  rewrite decide_True by (unfold in_block; vmlia). done.
Qed.

(** One more page. *)
Lemma grown_snoc T l s va T1 l1 s1 ps p s1' T2 l2 s2 :
  page_aligned va -> 0 <= va -> va + (Z.of_nat (length ps) + 1) * PGSIZE <= VA_END ->
  grown T l s va T1 (p :: l1) s1 ps ->
  hw_equiv (km_hw s1) (km_hw s1') -> same_leaves (km_mem s1) T1 (km_mem s1') T1 -> owned T1 l1 [p] ->
  vm_step T1 l1 s1' T2 l2 s2 ->
  maps_one (km_mem s1') T1 (km_mem s2) T2 (va + Z.of_nat (length ps) * PGSIZE)
    (MAKE_PTE p (Z.lor heap_attr PTE_V)) ->
  grown T l s va T2 l2 s2 (ps ++ [p]).
Proof.
  intros Hal Hva Hend [Hi Hsub Hhw Ho Hl (new & Hpm & Hnew)] Hhw1 Hsl Hop Hst Hone.
  destruct (step_new _ _ _ _ _ _ Hst) as (new2 & El1 & Hnew2 & _). split.
  - apply Hst.
  - etrans; [done|apply Hst].
  - etrans; [done|]. etrans; [done|apply Hst].
  - apply owned_snoc.
    + eapply owned_step; [done|]. by eapply owned_weaken.
    + by eapply owned_step.
    + intros Hin. apply (ow_free _ _ _ Ho p Hin). left.
  - intros va' Hva'. rewrite Hone by done. rewrite Hsl, Hl by done. rewrite length_app. cbn [length].
    replace (Z.of_nat (length ps + 1)) with (Z.of_nat (length ps) + 1) by lia.
    rewrite (decide_ext _ _ _ _ (in_block_S va (Z.of_nat (length ps)) va' Hal ltac:(lia))).
    destruct (decide (same_page (va + Z.of_nat (length ps) * PGSIZE) va')) as [Hs|Hs].
    + rewrite decide_True by tauto. unfold heap_entry.
      assert (Z.to_nat ((va' - va) / PGSIZE) = length ps) as ->.
      { unfold same_page, page_aligned in *. vmlia. }
      by rewrite list_lookup_middle.
    + destruct (decide (in_block va (Z.of_nat (length ps)) va')) as [Hb|Hb].
      * rewrite decide_True by tauto. unfold heap_entry. rewrite lookup_app_l; [done|].
        unfold in_block in Hb. vmlia.
      * by rewrite decide_False by tauto.
  - exists (new2 ++ new). split.
    + rewrite Hpm, El1. rewrite <- !app_assoc. f_equiv. solve_Permutation.
    + intros k q Hk. destruct (Hnew2 k q Hk) as [Hk'|Hin].
      * destruct (Hnew k q Hk') as [|Hin]; [by left|right]. apply elem_of_app. by right.
      * right. apply elem_of_app. by left.
Qed.

(** ** Failing: everything as before, but for tables that stay *)
Record kept (T : tree) (l : list Z) (s : kmem) (T1 : tree) (l1 : list Z) (s1 : kmem) : Prop := {
  kp_inv : vm_inv T1 l1 s1;
  kp_sub : T ⊆ T1;
  kp_hw : hw_equiv (km_hw s) (km_hw s1);
  kp_same : same_translation (km_mem s) T (km_mem s1) T1;
  kp_pages : exists new, l ≡ₚ new ++ l1 /\
    forall k p, T1 !! k = Some p -> T !! k = Some p \/ p ∈ new }.

(** [map_page] fails for want of tables; the data page goes back. *)
Lemma grown_failed T l s va T1 l1 s1 ps p s1' T2 s2 s3 :
  grown T l s va T1 (p :: l1) s1 ps ->
  hw_equiv (km_hw s1) (km_hw s1') -> same_leaves (km_mem s1) T1 (km_mem s1') T1 ->
  vm_step T1 l1 s1' T2 [] s2 -> same_leaves (km_mem s1') T1 (km_mem s2) T2 ->
  vm_inv T2 [p] s3 -> hw_equiv (km_hw s2) (km_hw s3) -> same_leaves (km_mem s2) T2 (km_mem s3) T2 ->
  grown T l s va T2 [p] s3 ps.
Proof.
  intros [Hi Hsub Hhw Ho Hl (new & Hpm & Hnew)] Hhw1 Hsl1 Hst Hsl2 Hi3 Hhw3 Hsl3.
  destruct (step_new _ _ _ _ _ _ Hst) as (new2 & El1 & Hnew2 & _). rewrite app_nil_r in El1. subst l1.
  split.
  - done.
  - etrans; [done|apply Hst].
  - etrans; [done|]. etrans; [done|]. etrans; [apply Hst|done].
  - pose proof (owned_step _ _ _ _ _ _ _ Hst (owned_weaken _ _ _ _ Ho)) as [H1 H2 H3 H4].
    split; try done. intros q Hq ->%list_elem_of_singleton. apply (ow_free _ _ _ Ho p Hq). left.
  - intros va' Hva'. rewrite Hsl3, Hsl2, Hsl1. by apply Hl.
  - exists (new2 ++ new). split.
    + rewrite Hpm. f_equiv. solve_Permutation.
    + intros k q Hk. destruct (Hnew2 k q Hk) as [Hk'|Hin].
      * destruct (Hnew k q Hk') as [|Hin]; [by left|right]. apply elem_of_app. by right.
      * right. apply elem_of_app. by left.
Qed.

(** Giving the pages of an interrupted growth back. *)
Lemma grown_undo T l s root va T1 l1 s1 ps :
  T !! [] = Some root -> page_aligned va -> 0 <= va -> va + Z.of_nat (length ps) * PGSIZE <= VA_END ->
  (forall va', in_block va (Z.of_nat (length ps)) va' -> mapped (km_mem s) T va' = false) ->
  grown T l s va T1 l1 s1 ps ->
  runs (unmap_n_pages_free root va (Z.of_nat (length ps))) s1 (fun _ s2 =>
    exists l2, kept T l s T1 l2 s2).
Proof.
  intros Hroot Hal Hva Hend Hun Hg. pose proof (grown_block _ _ _ _ _ _ _ _ Hal Hva Hend Hg) as Hb.
  destruct Hg as [Hi Hsub Hhw Ho Hl (new & Hpm & Hnew)].
  eapply runs_mono.
  - apply (unmap_block_spec T1 l1 s1 root va ps); try done. by eapply lookup_weaken.
  - intros _ s2 (Hi2 & Hhw2 & Hc). exists (reverse ps ++ l1). split.
    + done.
    + done.
    + by etrans.
    + intros va' Hva'. unfold mapped. rewrite Hc, Hl by done. case_decide as Hd; [|done].
      specialize (Hun va' Hd). unfold mapped in Hun. rewrite Hun. done.
    + exists new. split; [|done]. rewrite Hpm. rewrite (reverse_Permutation ps). solve_Permutation.
Qed.

(** *** [increment_mem_end] *)
Section Increment.
Variables (s : kst) (proc : nat) (p : process) (T : tree) (l : list Z) (pages : Z).
Hypothesis Hinv : vm_inv T l (k_km s).
Hypothesis Hp : k_procs s !! proc = Some p.
Hypothesis Hroot : T !! [] = Some (p_pgtable p).
Hypothesis Hal : page_aligned (p_mem_end p).
Hypothesis H0 : 0 <= p_mem_end p.
Hypothesis Hpages : 0 <= pages.
Hypothesis Hend : p_mem_end p + pages * PGSIZE <= VA_END.
Hypothesis Hun : forall va', in_block (p_mem_end p) pages va' -> mapped (k_mem s) T va' = false.

Definition inc_result (r : Z) (s' : kst) : Prop :=
  exists km', s' = set_k_km km' s /\
  ((r = 0 /\ exists T1 l1 ps, Z.of_nat (length ps) = pages /\
      grown T l (k_km s) (p_mem_end p) T1 l1 km' ps) \/
   (r = -1 /\ exists T1 l1, kept T l (k_km s) T1 l1 km')).

Definition inc_progress (cur : Z) (s' : kst) : Prop :=
  exists km' T1 l1 ps, s' = set_k_km km' s /\ cur = Z.of_nat (length ps) * PGSIZE /\
    Z.of_nat (length ps) <= pages /\ grown T l (k_km s) (p_mem_end p) T1 l1 km' ps.

Lemma inc_undo km1 T1 l1 ps :
  Z.of_nat (length ps) <= pages -> grown T l (k_km s) (p_mem_end p) T1 l1 km1 ps ->
  runs (kmdo (unmap_n_pages_free (p_pgtable p) (p_mem_end p) (i32 (Z.of_nat (length ps) * PGSIZE / PGSIZE))) ;;
        mret (inr (-1) : Z + Z)) (set_k_km km1 s)
    (fun r s' => match r with inl _ => False | inr v => inc_result v s' end).
Proof.
  intros Hlen Hg. apply runs_bind.
  replace (i32 (Z.of_nat (length ps) * PGSIZE / PGSIZE)) with (Z.of_nat (length ps)).
  2:{ rewrite Z.div_mul by done. rewrite i32_small; [done|]. vmlia. }
  eapply runs_mono.
  - apply kmdo_runs. apply (grown_undo T l (k_km s) (p_pgtable p) (p_mem_end p) T1 l1 km1 ps); try done.
    + vmlia.
    + intros va' Hb. apply Hun. unfold in_block in *. vmlia.
  - intros _ s' (km' & -> & l2 & Hk). apply runs_ret. exists km'. split; [done|].
    right. split; [done|]. by exists T1, l2.
Qed.

(** One more page, or the way back. *)
Definition inc_page (cur : Z) : M kst (Z + Z) :=
  let err_ret cur := kmdo (unmap_n_pages_free (p_pgtable p) (p_mem_end p) (i32 (cur / PGSIZE))) ;;
                     mret (inr (-1)) in
  page ← kmdo kalloc;
  if page =? NULL then err_ret cur else
  err ← kmdo (map_page (p_pgtable p) (u64 (p_mem_end p + cur)) page heap_attr);
  if negb (err =? 0) then kmdo (kfree page) ;; err_ret cur else
  mret (inl (u64 (cur + PGSIZE))).

Lemma inc_page_spec cur s1 :
  inc_progress cur s1 -> cur < pages * PGSIZE ->
  runs (inc_page cur) s1 (fun r s2 =>
    match r with inl cur' => cur' = cur + PGSIZE /\ inc_progress cur' s2 | inr v => inc_result v s2 end).
Proof.
  intros (km1 & T1 & l1 & ps & -> & -> & Hlen & Hg) Hlt. pose proof Hg as [Hi Hsub Hhw Ho Hl _].
  assert (T1 !! [] = Some (p_pgtable p)) as Hroot1 by (eapply lookup_weaken; [exact Hroot|exact Hsub]).
  assert (Z.of_nat (length ps) < pages) as Hlt' by vmlia.
  unfold inc_page. cbv zeta. apply runs_bind. eapply runs_mono; [by apply kmdo_runs, (kalloc_vm T1 l1)|].
  intros pg s2 (km2 & -> & Hhw2 & Hsl2 & H2). destruct l1 as [|p0 l1].
  - destruct H2 as [-> Hi2]. change (NULL =? NULL) with true. cbv iota.
    assert (grown T l (k_km s) (p_mem_end p) T1 [] km2 ps) as Hg2.
    { destruct Hg as [? ? ? ? ? ?]. split; try done; [by etrans|]. intros va' Hva'. rewrite Hsl2. auto. }
    eapply runs_mono; [by apply (inc_undo km2 T1 [] ps)|]. by intros [?|v].
  - destruct H2 as (-> & Hi2 & Hop & Hnn). rewrite Hnn.
    assert (user_range (p_mem_end p + Z.of_nat (length ps) * PGSIZE)) as Hr by (unfold user_range; vmlia).
    rewrite (u64_small (p_mem_end p + _)) by vmlia. apply runs_bind. eapply runs_mono.
    { apply kmdo_runs. apply (map_page_ok T1 l1 km2); try done.
      - pose proof (ow_valid _ _ _ Hop) as Hv. rewrite Forall_singleton in Hv.
        apply valid_page_range in Hv. vmlia.
      - unfold mapped. rewrite Hsl2, Hl by done. rewrite decide_False by (unfold in_block; vmlia).
        apply Hun. unfold in_block. vmlia. }
    intros r s3 (km3 & -> & T3 & l3 & Hst & [[-> Hone]|(-> & -> & Hsl3)]).
    + change (negb (0 =? 0)) with false. cbv iota. apply runs_ret.
      rewrite u64_small by vmlia. split; [done|].
      exists km3, T3, l3, (ps ++ [p0]). rewrite length_app. cbn [length].
      split; [by destruct s|]. split; [vmlia|]. split; [lia|].
      apply (grown_snoc T l (k_km s) (p_mem_end p) T1 l1 km1 ps p0 km2); try done. vmlia.
    + change (negb (-1 =? 0)) with true. cbv iota. apply runs_bind.
      eapply runs_mono.
      { apply kmdo_runs. apply (kfree_vm T3 [] km3 p0).
        - apply Hst.
        - pose proof (ow_valid _ _ _ Hop) as Hv. by rewrite Forall_singleton in Hv.
        - apply not_elem_of_nil.
        - intros k q Hk. pose proof (owned_step _ _ _ _ _ _ _ Hst Hop) as Hop3.
          apply (ow_table _ _ _ Hop3 p0 k q); [left|done]. }
      intros _ s4 (km4 & -> & Hi4 & Hhw4 & Hsl4).
      assert (grown T l (k_km s) (p_mem_end p) T3 [p0] km4 ps) as Hg4.
      { by eapply (grown_failed T l (k_km s) (p_mem_end p) T1 l1 km1 ps p0 km2 T3 km3 km4). }
      eapply runs_mono; [by apply (inc_undo km4 T3 [p0] ps)|]. by intros [?|v].
Qed.

Lemma increment_spec : runs (increment_mem_end proc pages) s inc_result.
Proof.
  unfold increment_mem_end. rewrite <- (at_hw_id s) at 1. rewrite (at_hw_id s).
  apply runs_bind. eapply runs_eq; [by apply (read_proc_Ret proc p)|]. cbv zeta.
  eapply (runs_while_loop _ (fun cur _ => pages - cur / PGSIZE) (fun cur s1 => inc_progress cur s1)).
  - intros cur s1 Hpr. pose proof Hpr as (km1 & T1 & l1 & ps & -> & Hcur & Hlen & Hg).
    split; [subst; vmlia|]. rewrite u64_small by vmlia.
    destruct (Z.geb_spec cur (pages * PGSIZE)) as [Hge|Hlt].
    + apply runs_ret. exists km1. split; [done|]. left. split; [done|]. exists T1, l1, ps.
      split; [subst; vmlia|done].
    + eapply runs_mono; [by apply (inc_page_spec cur)|]. intros [cur'|v] s2; cbn beta iota; [|done].
      intros [-> Hp']. split; [done|]. subst cur. vmlia.
  - exists (k_km s), T, l, []. split; [by destruct s|]. split; [done|]. split; [done|].
    by apply grown_nil.
  - vmlia.
Qed.
End Increment.

(** ** The heap of a process *)

Record heap_inv (s : kst) (proc : nat) (p : process) (T : tree) (l ps : list Z) : Prop := {
  hp_proc : k_procs s !! proc = Some p;
  hp_vm : vm_inv T l (k_km s);
  hp_root : T !! [] = Some (p_pgtable p);
  hp_start : page_aligned (p_mem_start p) /\ PROC_VA_START <= p_mem_start p <= p_mem_brk p;
  hp_brk : p_mem_brk p < PROC_VA_END;
  hp_end : p_mem_end p = ROUND_UP_PGSIZE (p_mem_brk p);
  hp_len : p_mem_end p = p_mem_start p + Z.of_nat (length ps) * PGSIZE;
  hp_block : block_at (k_mem s) T (p_mem_start p) ps;
  hp_own : owned T l ps;
  hp_above va : p_mem_end p <= va < PROC_VA_END -> mapped (k_mem s) T va = false }.

Lemma owned_fresh T l T1 l1 ps taken new :
  owned T l ps -> l ≡ₚ taken ++ new ++ l1 ->
  (forall k q, T1 !! k = Some q -> T !! k = Some q \/ q ∈ new) -> owned T1 l1 ps.
Proof.
  intros [H1 H2 H3 H4] Hpm Hnew. split.
  - done.
  - done.
  - intros q Hq Hin. apply (H3 q Hq). rewrite Hpm, !elem_of_app. auto.
  - intros q k r Hq Hk ->. destruct (Hnew k q Hk) as [Hk'|Hin]; [by apply (H4 q k q)|].
    apply (H3 q Hq). rewrite Hpm, !elem_of_app. auto.
Qed.

Lemma owned_app T l ps qs :
  owned T l ps -> owned T l qs -> (forall p, p ∈ ps -> p ∉ qs) -> owned T l (ps ++ qs).
Proof.
  intros [H1 H2 H3 H4] [H5 H6 H7 H8] Hd. split.
  - by apply Forall_app.
  - by apply NoDup_app.
  - intros p [Hp|Hp]%elem_of_app; auto.
  - intros p k q [Hp|Hp]%elem_of_app; eauto.
Qed.

Lemma owned_app_inv T l ps qs :
  owned T l (ps ++ qs) -> owned T l qs /\ owned T (reverse qs ++ l) ps.
Proof.
  intros [H1 (Hn1 & Hd & Hn2)%NoDup_app H3 H4]. apply Forall_app in H1 as [H1 H1']. split; split; try done.
  - intros p Hp. apply H3, elem_of_app. by right.
  - intros p k q Hp. apply H4, elem_of_app. by right.
  - intros p Hp. rewrite elem_of_app, elem_of_reverse. intros [Hin|Hin]; [by apply (Hd p)|].
    apply (H3 p); [|done]. apply elem_of_app. by left.
  - intros p k q Hp. apply H4, elem_of_app. by left.
Qed.

(** A translation that stays keeps the block. *)
Lemma block_at_ext m T m' T' va ps :
  (forall j, (j < length ps)%nat -> let a := va + Z.of_nat j * PGSIZE in
     mapped m T a = true -> leaf m' T' a = leaf m T a) ->
  block_at m T va ps -> block_at m' T' va ps.
Proof.
  intros He Hb j p Hp. destruct (Hb j p Hp) as [Hm Hpa].
  unfold mapped. rewrite He; [done|by eapply lookup_lt_Some|done].
Qed.

Lemma block_at_app m T va ps qs :
  block_at m T va (ps ++ qs) <->
  block_at m T va ps /\ block_at m T (va + Z.of_nat (length ps) * PGSIZE) qs.
Proof.
  split.
  - intros Hb. split; intros j p Hp.
    + apply Hb. by apply lookup_app_l_Some.
    + replace (va + _ + _) with (va + Z.of_nat (length ps + j) * PGSIZE) by vmlia.
      apply Hb. rewrite lookup_app_r by lia. by replace (length ps + j - length ps)%nat with j by lia.
  - intros [H1 H2] j p [Hp|[Hj Hp]]%lookup_app_Some; [by apply H1|].
    specialize (H2 _ _ Hp). by replace (va + Z.of_nat (length ps) * PGSIZE + Z.of_nat (j - length ps) * PGSIZE)
      with (va + Z.of_nat j * PGSIZE) in H2 by vmlia.
Qed.

Lemma round_up_spec a : 0 <= a < PROC_VA_END ->
  ROUND_UP_PGSIZE a = (a + 4095) / 4096 * 4096.
Proof. intros. apply ROUND_UP_eq; vmlia. Qed.

Section Brk.
Variables (s : kst) (proc : nat) (p : process) (T : tree) (l ps : list Z) (new_brk : Z).
Hypothesis Hh : heap_inv s proc p T l ps.
Hypothesis Hrange : p_mem_start p <= new_brk < PROC_VA_END.

Definition new_end : Z := ROUND_UP_PGSIZE new_brk.
Definition moved : process := set_p_mem_brk new_brk (set_p_mem_end new_end p).

Lemma brk_bounds :
  PROC_VA_START <= p_mem_start p <= p_mem_brk p /\ p_mem_start p mod 4096 = 0 /\ p_mem_end p mod 4096 = 0 /\
  p_mem_brk p <= p_mem_end p < p_mem_brk p + 4096 /\ p_mem_end p <= PROC_VA_END /\
  new_end mod 4096 = 0 /\ new_brk <= new_end < new_brk + 4096 /\ new_end <= PROC_VA_END /\
  p_mem_start p <= new_end.
Proof.
  destruct Hh as [_ _ _ [Hal Hst] Hb He _ _ _ _]. unfold new_end, page_aligned in *.
  rewrite round_up_spec in He by vmlia. rewrite round_up_spec by vmlia. vmconst. split_and!; lia.
Qed.

(** The page count with which the heap ends after success. *)
Lemma brk_grow_ok km' T1 l1 qs :
  p_mem_end p <= new_end -> Z.of_nat (length qs) = (new_end - p_mem_end p) / PGSIZE ->
  grown T l (k_km s) (p_mem_end p) T1 l1 km' qs ->
  heap_inv (set_k_procs (<[proc := moved]> (k_procs s)) (set_k_km km' s)) proc moved T1 l1 (ps ++ qs).
Proof.
  intros Hle Hlen Hg. pose proof brk_bounds as Hbd.
  pose proof (grown_block T l (k_km s) (p_mem_end p) T1 l1 km' qs ltac:(unfold page_aligned; vmlia)
    ltac:(vmlia) ltac:(vmlia) Hg) as Hnb.
  destruct Hg as [Hi Hsub Hhw Hog Hl (new & Hpm & Hnew)].
  destruct Hh as [Hp Hvm Hroot [Hal Hst] Hb He Hpl Hbl Ho Hab].
  split; cbn [k_procs set_k_procs k_km set_k_km moved p_pgtable p_mem_start p_mem_brk p_mem_end set_p_mem_brk
    set_p_mem_end k_mem].
  - apply list_lookup_insert_eq. by eapply lookup_lt_Some.
  - done.
  - by eapply lookup_weaken.
  - split; [done|vmlia].
  - vmlia.
  - done.
  - rewrite length_app. vmlia.
  - apply block_at_app. split; [|by rewrite <- Hpl].
    eapply block_at_ext; [|exact Hbl]. intros j Hj a _. unfold a.
    rewrite Hl by (unfold user_range; vmlia).
    rewrite decide_False by (unfold in_block; vmlia). done.
  - apply owned_app; [by eapply owned_fresh|done|]. intros q Hq Hin.
    apply (ow_free _ _ _ Ho q Hq). rewrite Hpm, !elem_of_app. auto.
  - intros va Hva.
    unfold mapped. rewrite Hl by (unfold user_range; vmlia).
    rewrite decide_False by (unfold in_block; vmlia). apply Hab. vmlia.
Qed.

Lemma brk_grow_fail km' T1 l1 :
  kept T l (k_km s) T1 l1 km' -> heap_inv (set_k_km km' s) proc p T1 l1 ps.
Proof.
  intros [Hi Hsub Hhw Hsame (new & Hpm & Hnew)]. pose proof brk_bounds as Hbd.
  destruct Hh as [Hp Hvm Hroot Hst Hb He Hpl Hbl Ho Hab].
  split; try done.
  - by eapply lookup_weaken.
  - eapply block_at_ext; [|exact Hbl]. intros j Hj a Hm. apply Hsame; [unfold user_range, a; vmlia|done].
  - by apply (owned_fresh T l T1 l1 ps [] new).
  - intros va Hva. change (k_mem (set_k_km km' s)) with (km_mem km').
    destruct (Hsame va) as [-> _]; [unfold user_range; vmlia|]. by apply Hab.
Qed.

Definition kept_pages : nat := Z.to_nat ((new_end - p_mem_start p) / PGSIZE).

Lemma brk_shrink :
  new_end <= p_mem_end p ->
  runs (kmdo (unmap_n_pages_free (p_pgtable p) new_end (i32 ((p_mem_end p - new_end) / PGSIZE)))) s
    (fun _ s' => exists km' l', s' = set_k_km km' s /\
       heap_inv (set_k_procs (<[proc := moved]> (k_procs s)) (set_k_km km' s)) proc moved T l' (take kept_pages ps)).
Proof.
  intros Hle. pose proof brk_bounds as Hbd.
  destruct Hh as [Hp Hvm Hroot [Hal Hst] Hb He Hpl Hbl Ho Hab].
  set (n := kept_pages). assert (n <= length ps)%nat as Hn by (unfold n, kept_pages; vmlia).
  assert (p_mem_start p + Z.of_nat n * PGSIZE = new_end) as Hne by (unfold n, kept_pages; vmlia).
  assert (i32 ((p_mem_end p - new_end) / PGSIZE) = Z.of_nat (length (drop n ps))) as ->.
  { rewrite length_drop, i32_small; vmlia. }
  rewrite <- (take_drop n ps) in Hbl, Ho.
  apply block_at_app in Hbl as [Hb1 Hb2]. rewrite length_take_le, Hne in Hb2 by done.
  apply owned_app_inv in Ho as [Ho2 Ho1].
  eapply runs_mono.
  { apply kmdo_runs_self. apply (unmap_block_spec T l (k_km s) (p_pgtable p) new_end (drop n ps)); try done.
    - unfold page_aligned. vmlia.
    - vmlia.
    - rewrite length_drop. vmlia. }
  intros _ s' (km' & -> & Hi & _ & Hc). exists km', (reverse (drop n ps) ++ l). split; [done|].
  unfold block_cleared in Hc. rewrite length_drop in Hc.
  split; cbn [k_procs set_k_procs k_km set_k_km moved p_pgtable p_mem_start p_mem_brk p_mem_end set_p_mem_brk
    set_p_mem_end k_mem]; try done.
  - apply list_lookup_insert_eq. by eapply lookup_lt_Some.
  - split; [done|vmlia].
  - vmlia.
  - rewrite length_take_le by done. vmlia.
  - eapply block_at_ext; [|exact Hb1]. intros j Hj a _. unfold a. rewrite length_take_le in Hj by done.
    rewrite Hc by (unfold user_range; vmlia). by rewrite decide_False by (unfold in_block; vmlia).
  - intros va Hva. unfold mapped. rewrite Hc by (unfold user_range; vmlia).
    case_decide as Hd; [done|]. apply Hab. unfold in_block in Hd. vmlia.
Qed.

(** Moving the break inside the last page. *)
Lemma brk_same : new_end = p_mem_end p ->
  heap_inv (set_k_procs (<[proc := moved]> (k_procs s)) s) proc moved T l ps.
Proof.
  intros E. pose proof brk_bounds as Hbd. destruct Hh as [Hp Hvm Hroot [Hal Hst] Hb He Hpl Hbl Ho Hab].
  split; cbn [k_procs set_k_procs k_km set_k_km moved p_pgtable p_mem_start p_mem_brk p_mem_end set_p_mem_brk
    set_p_mem_end k_mem]; try done.
  - apply list_lookup_insert_eq. by eapply lookup_lt_Some.
  - split; [done|vmlia].
  - vmlia.
  - by rewrite E.
  - by rewrite E.
Qed.

(** The last two assignments of [brk]. *)
Lemma brk_move km' :
  (upd_proc proc (set_p_mem_end new_end) ;; upd_proc proc (set_p_mem_brk new_brk) ;; (mret 0 : M kst Z))
    (set_k_km km' s) = Ret 0 (set_k_procs (<[proc := moved]> (k_procs s)) (set_k_km km' s)).
Proof.
  destruct Hh as [Hp _ _ _ _ _ _ _ _ _].
  set (s1 := set_k_km km' s). assert (k_procs s1 !! proc = Some p) as Hp1 by done.
  rret (upd_proc_Ret proc p (set_p_mem_end new_end) s1 Hp1).
  erewrite bind_Ret; [|apply upd_proc_Ret; cbn [k_procs set_k_procs]; apply list_lookup_insert_eq;
                       by eapply lookup_lt_Some].
  cbn [k_procs set_k_procs]. rewrite list_insert_insert_eq. done.
Qed.
End Brk.

(** What [brk] answers: the break has moved, or nothing has changed. *)
Definition brk_answer (s : kst) (proc : nat) (p : process) (ps : list Z) (new_brk : Z) (r : Z) (s' : kst) : Prop :=
  exists p' T' l' ps',
    heap_inv s' proc p' T' l' ps' /\ k_procs s' = <[proc := p']> (k_procs s) /\
    set_k_km (k_km s) (set_k_procs (k_procs s) s') = s /\
    ((r = 0 /\ p_mem_start p <= new_brk < PROC_VA_END /\ p' = moved p new_brk /\
        exists n, take n ps = take n ps' /\ (n = length ps \/ n = length ps')) \/
     (r = u64 (-1) /\ p' = p /\ ps' = ps)).

Lemma brk_refused s proc p ps new_brk km' T' l' :
  k_procs s !! proc = Some p -> heap_inv (set_k_km km' s) proc p T' l' ps ->
  brk_answer s proc p ps new_brk (u64 (-1)) (set_k_km km' s).
Proof.
  intros Hp Hi. exists p, T', l', ps. split; [done|]. split; [symmetry; by apply list_insert_id|].
  split; [by destruct s|by right].
Qed.

Lemma brk_commits s proc p T l ps new_brk km' T' l' ps' n :
  heap_inv s proc p T l ps -> p_mem_start p <= new_brk < PROC_VA_END ->
  heap_inv (set_k_procs (<[proc := moved p new_brk]> (k_procs s)) (set_k_km km' s)) proc (moved p new_brk) T' l' ps' ->
  take n ps = take n ps' -> (n = length ps \/ n = length ps') ->
  runs (upd_proc proc (set_p_mem_end (new_end new_brk)) ;; upd_proc proc (set_p_mem_brk new_brk) ;; (mret 0 : M kst Z))
    (set_k_km km' s) (brk_answer s proc p ps new_brk).
Proof.
  intros Hh Hrange Hi Htk Hn. eapply runs_eq; [by apply (brk_move s proc p T l ps new_brk Hh)|].
  exists (moved p new_brk), T', l', ps'. split_and!; [done|done|by destruct s|].
  left. split; [done|]. split; [done|]. split; [done|]. by exists n.
Qed.

(** The break moves inside the last page. *)
Lemma brk_stays s proc p T l ps new_brk :
  heap_inv s proc p T l ps -> p_mem_start p <= new_brk < PROC_VA_END -> new_end new_brk = p_mem_end p ->
  runs (upd_proc proc (set_p_mem_end (new_end new_brk)) ;; upd_proc proc (set_p_mem_brk new_brk) ;; (mret 0 : M kst Z))
    s (brk_answer s proc p ps new_brk).
Proof.
  intros Hh Hrange He. replace s with (set_k_km (k_km s) s) at 1 by by destruct s.
  eapply (brk_commits s proc p T l ps new_brk (k_km s) T l ps (length ps)); [done|done| |done|by left].
  replace (set_k_km (k_km s) s) with s by by destruct s. by apply (brk_same s proc p T l ps new_brk Hh Hrange).
Qed.

(** C23: [brk] keeps the heap sound, whatever happens: the process's pages from
    [p_mem_start] to [p_mem_end] = the break rounded up are mapped one by one to
    pages that belong to it alone, and nothing is mapped above.  On success (0) the
    break is the one asked for, the pages that stay keep their contents' place, new
    pages are appended and dropped ones go back to the allocator.  On failure (-1:
    outside the allowed range, or no memory left) the process is exactly as before,
    with everything taken on the way given back or kept as a page table. *)
Theorem brk_spec s proc p T l ps new_brk :
  heap_inv s proc p T l ps ->
  0 <= new_brk ->
  runs (brk proc new_brk) s (fun r s' => exists p' T' l' ps',
    heap_inv s' proc p' T' l' ps' /\ k_procs s' = <[proc := p']> (k_procs s) /\
    set_k_km (k_km s) (set_k_procs (k_procs s) s') = s /\
    ((r = 0 /\ p_mem_start p <= new_brk < PROC_VA_END /\ p' = moved p new_brk /\
        exists n, take n ps = take n ps' /\ (n = length ps \/ n = length ps')) \/
     (r = u64 (-1) /\ p' = p /\ ps' = ps))).
Proof.
  intros Hh H0. fold (brk_answer s proc p ps new_brk). pose proof Hh as [Hp Hvm Hroot [Hal Hst] Hb He Hpl Hbl Ho Hab].
  assert (p_mem_brk p <= p_mem_end p /\ p_mem_end p mod PGSIZE = 0) as [Hle Hmod].
  { rewrite He, round_up_spec by vmlia. vmlia. }
  assert (brk_answer s proc p ps new_brk (u64 (-1)) s) as Hno.
  { replace s with (set_k_km (k_km s) s) at 2 by by destruct s. eapply brk_refused; [done|].
    replace (set_k_km (k_km s) s) with s by by destruct s. exact Hh. }
  unfold brk. apply runs_bind. eapply runs_eq; [by apply (read_proc_Ret proc p)|]. cbv zeta.
  destruct (Z.gtb_spec (p_mem_brk p) (p_mem_end p)) as [|_]; [lia|].
  rewrite Hmod. change (negb (0 =? 0)) with false. cbv iota.
  destruct (Z.ltb_spec new_brk (p_mem_start p)) as [Hlo|Hlo]; cbn [orb]; [by apply runs_ret|].
  destruct (Z.geb_spec new_brk PROC_VA_END) as [Hhi|Hhi]; [by apply runs_ret|].
  assert (p_mem_start p <= new_brk < PROC_VA_END) as Hrange by lia.
  pose proof (brk_bounds s proc p T l ps new_brk Hh Hrange) as Hbd.
  change (ROUND_UP_PGSIZE new_brk) with (new_end new_brk).
  destruct (Z.gtb_spec new_brk (p_mem_end p)) as [Hgt|Hng].
  - rewrite (u64_small (new_end new_brk - _)) by vmlia. apply runs_bind, runs_bind. eapply runs_mono.
    { apply (increment_spec s proc p T l ((new_end new_brk - p_mem_end p) / PGSIZE)); try done; try vmlia.
      intros va' Hva'. apply Hab. unfold in_block in Hva'. vmlia. }
    intros err s1 (km' & -> & [(-> & T1 & l1 & qs & Hlen & Hg)|(-> & T1 & l1 & Hk)]);
      apply runs_ret; cbn [negb Z.eqb]; cbv iota.
    + eapply (brk_commits s proc p T l ps new_brk km' T1 l1 (ps ++ qs) (length ps)); [done|done| |by rewrite firstn_all, take_app_length|by left].
      apply (brk_grow_ok s proc p T l ps new_brk Hh Hrange); [lia|done|done].
    + apply runs_ret. eapply brk_refused; [done|by apply (brk_grow_fail s proc p T l ps new_brk Hh Hrange)].
  - destruct (Z.ltb_spec new_brk (p_mem_brk p)) as [Hlt|Hnl]; [destruct (Z.ltb_spec (new_end new_brk) (p_mem_end p)) as [Hsh|Hns]|].
    + apply runs_bind, runs_bind. eapply runs_mono; [by apply (brk_shrink s proc p T l ps new_brk Hh Hrange); lia|].
      intros _ s1 (km' & l' & -> & Hi). apply runs_ret. cbv iota.
      apply (brk_commits s proc p T l ps new_brk km' T l' _ (kept_pages p new_brk) Hh Hrange Hi).
      * by rewrite take_take, Nat.min_id.
      * right. rewrite length_take_le; [done|]. unfold kept_pages. vmlia.
    + apply runs_bind, runs_bind, runs_ret, runs_ret. cbv iota. apply (brk_stays s proc p T l); [done|done|]. lia.
    + apply runs_bind, runs_bind, runs_ret, runs_ret. cbv iota. apply (brk_stays s proc p T l); [done|done|]. vmlia.
Qed.
End Spec.
