(* ===== verification/Bio.v ===== *)
(** * The buffer cache: kernel/fs/bio.c

    [k_bufs] is [bcache.buf] and [k_bhead] the links (prev, next) of [bcache.head].
    The bytes of buffer [i] are in memory at [buf_data i]. *)

From S2P Require Import Prelude Hart VmSystem Mem Kalloc State Sleep.

(** The bytes of a memory range, and writing a range. *)
Definition load_bytes (m : mem) (a : Z) (n : nat) : list Z :=
  map (fun i => ld8 m (a + Z.of_nat i)) (seq 0 n).
Fixpoint store_bytes (m : mem) (a : Z) (l : list Z) : mem :=
  match l with
  | [] => m
  | x :: l' => store_bytes (st8 m a x) (a + 1) l'
  end.

Definition block_bytes : nat := Z.to_nat BSIZE.
Definition zero_block : list Z := replicate block_bytes 0.

(** The contents of a disk block; a block never written holds zeros. *)
Definition disk_block (d : disk_st) (bno : Z) : list Z := default zero_block (d_blocks d !! bno).

(** A block write reaches the disk as a whole, and the disk remembers the order of
    the writes. *)
Definition disk_write (bno : Z) (l : list Z) (d : disk_st) : disk_st :=
  mk_disk (<[bno := l]> (d_blocks d)) ((bno, l) :: d_trace d).

Section Bio.
Context `{KernelData} `{WaitFuel}.

(** The service of the disk driver and the device behind it (Virtio.v): when the
    request is done the block has been copied between the disk and the buffer. *)
Definition disk_rw (i : nat) (write : bool) : M kst unit :=
  b ← read_buf i;
  if write
  then modify (fun s => set_k_disk (disk_write (b_blockno b)
         (load_bytes (k_mem s) (buf_data i) block_bytes) (k_disk s)) s)
  else modify (fun s => set_k_mem (store_bytes (k_mem s) (buf_data i)
         (disk_block (k_disk s) (b_blockno b))) s).

(** *** The links of the cache list *)

Definition bnext (p : bptr) : M kst bptr :=
  match p with BHead => gets (fun s => snd (k_bhead s)) | BBuf i => b ← read_buf i; mret (b_next b) end.
Definition bprev (p : bptr) : M kst bptr :=
  match p with BHead => gets (fun s => fst (k_bhead s)) | BBuf i => b ← read_buf i; mret (b_prev b) end.
Definition set_bnext (p v : bptr) : M kst unit :=
  match p with
  | BHead => modify (fun s => set_k_bhead (fst (k_bhead s), v) s)
  | BBuf i => upd_buf i (set_b_next v)
  end.
Definition set_bprev (p v : bptr) : M kst unit :=
  match p with
  | BHead => modify (fun s => set_k_bhead (v, snd (k_bhead s)) s)
  | BBuf i => upd_buf i (set_b_prev v)
  end.

(** ** Operations *)

Definition binit : M kst unit :=
  hwdo (init_spin_lock LkBcache) ;;
  set_bprev BHead BHead ;;
  set_bnext BHead BHead ;;
  for_each (Z.to_nat NBUF) 0 (fun i =>
    let b := Z.to_nat i in
    n ← bnext BHead; set_bnext (BBuf b) n ;;
    set_bprev (BBuf b) BHead ;;
    initsleeplock (SlkBuf b) ;;
    n ← bnext BHead; set_bprev n (BBuf b) ;;
    set_bnext BHead (BBuf b)).

(** A walk over the list visits at most the [NBUF] buffers and the head. *)
Definition bcache_fuel : nat := S (Z.to_nat NBUF).

Definition find_buf (first : bptr) (step : bptr -> M kst bptr) (test : buf -> bool)
  : M kst (option nat) :=
  while_loop bcache_fuel first (fun b =>
    match b with
    | BHead => mret (inr None)
    | BBuf i =>
        x ← read_buf i;
        if test x then mret (inr (Some i)) else n ← step b; mret (inl n)
    end).

Definition bget (dev blockno : Z) : M kst nat :=
  acquire LkBcache ;;
  first ← bnext BHead;
  hit ← find_buf first bnext (fun b => (b_dev b =? dev) && (b_blockno b =? blockno));
  match hit with
  | Some i =>
      upd_buf i (fun b => set_b_refcnt (u32 (b_refcnt b + 1)) b) ;;
      release LkBcache ;;
      acquiresleep (SlkBuf i) ;;
      mret i
  | None =>
      last ← bprev BHead;
      victim ← find_buf last bprev (fun b => b_refcnt b =? 0);
      match victim with
      | Some i =>
          upd_buf i (set_b_dev dev) ;;
          upd_buf i (set_b_blockno blockno) ;;
          upd_buf i (set_b_valid 0) ;;
          upd_buf i (set_b_refcnt 1) ;;
          release LkBcache ;;
          acquiresleep (SlkBuf i) ;;
          mret i
      | None => panic "bget: no buffers"
      end
  end.

Definition bread (dev blockno : Z) : M kst nat :=
  b ← bget dev blockno;
  x ← read_buf b;
  (if b_valid x =? 0 then disk_rw b false ;; upd_buf b (set_b_valid 1) else mret tt) ;;
  mret b.

Definition bwrite (b : nat) : M kst unit :=
  h ← holdingsleep (SlkBuf b);
  if negb h then panic "bwrite" else disk_rw b true.

Definition brelse (b : nat) : M kst unit :=
  h ← holdingsleep (SlkBuf b);
  if negb h then panic "brelse" else
  releasesleep (SlkBuf b) ;;
  acquire LkBcache ;;
  upd_buf b (fun x => set_b_refcnt (u32 (b_refcnt x - 1)) x) ;;
  x ← read_buf b;
  (if b_refcnt x =? 0 then
     n ← bnext (BBuf b); p ← bprev (BBuf b); set_bprev n p ;;
     p ← bprev (BBuf b); n ← bnext (BBuf b); set_bnext p n ;;
     n ← bnext BHead; set_bnext (BBuf b) n ;;
     set_bprev (BBuf b) BHead ;;
     n ← bnext BHead; set_bprev n (BBuf b) ;;
     set_bnext BHead (BBuf b)
   else mret tt) ;;
  release LkBcache.

Definition bpin (b : nat) : M kst unit :=
  acquire LkBcache ;;
  upd_buf b (fun x => set_b_refcnt (u32 (b_refcnt x + 1)) x) ;;
  release LkBcache.

Definition bunpin (b : nat) : M kst unit :=
  acquire LkBcache ;;
  upd_buf b (fun x => set_b_refcnt (u32 (b_refcnt x - 1)) x) ;;
  release LkBcache.

End Bio.
