(* ===== verification/BioSpec.v ===== *)
(** * What the buffer cache promises: Bio.v

    The cache implements an abstract store of blocks: what a reader of a block sees
    ([bs_view]), what the disk holds ([bs_disk]), how many references each block has
    ([bs_ref]) and which blocks the running process has locked ([bs_held]).  Where a
    block is cached, the order of the list and the choice of a victim are hidden. *)

From stdpp Require Import functions.
From S2P Require Import Prelude Hart VmSystem Mem Kalloc State Critical Sleep SleepSpec Bio.

Definition nbufs : nat := Z.to_nat NBUF.

(** ** Bytes of a block *)

Lemma length_load_bytes m a n : length (load_bytes m a n) = n.
Proof. unfold load_bytes. by rewrite length_map, length_seq. Qed.

Lemma lookup_load_bytes m a n i :
  (i < n)%nat -> load_bytes m a n !! i = Some (ld8 m (a + Z.of_nat i)).
Proof. intros Hi. unfold load_bytes. by rewrite list_lookup_fmap, lookup_seq_lt. Qed.

Lemma load_bytes_ext (m m' : mem) (a : Z) (n : nat) :
  (forall b, a <= b < a + Z.of_nat n -> ld8 m b = ld8 m' b) -> load_bytes m a n = load_bytes m' a n.
Proof. intros H. apply map_ext_in. intros i Hi%in_seq. apply H. lia. Qed.

Lemma ld8_store_bytes l m a b :
  ld8 (store_bytes m a l) b =
  if decide (a <= b < a + Z.of_nat (length l)) then u8 (default 0 (l !! Z.to_nat (b - a))) else ld8 m b.
Proof.
  revert m a. induction l as [|x l IH]; intros m a; cbn [store_bytes length].
  - rewrite decide_False by lia. done.
  - rewrite IH, ld8_st8. destruct (decide (a = b)) as [->|Hne].
    + destruct (decide (b + 1 <= b < b + 1 + Z.of_nat (length l))) as [|_]; [lia|].
      rewrite decide_True by lia. by rewrite Z.sub_diag.
    + destruct (decide (a + 1 <= b < a + 1 + Z.of_nat (length l)));
        [rewrite decide_True by lia|by rewrite decide_False by lia].
      replace (Z.to_nat (b - a)) with (S (Z.to_nat (b - (a + 1)))) by lia. done.
Qed.

Definition byte (x : Z) : Prop := 0 <= x < 256.
Definition block_ok (l : list Z) : Prop := length l = block_bytes /\ Forall byte l.

Lemma load_bytes_ok m a : block_ok (load_bytes m a block_bytes).
Proof.
  split; [apply length_load_bytes|]. apply Forall_lookup. intros i x Hx.
  pose proof (lookup_lt_Some _ _ _ Hx) as Hi. rewrite length_load_bytes in Hi.
  rewrite lookup_load_bytes in Hx by done. injection Hx as <-. apply ld8_range.
Qed.

Lemma zero_block_ok : block_ok zero_block.
Proof. split; [by vm_compute|]. unfold zero_block. apply Forall_replicate. unfold byte. lia. Qed.

Lemma load_store_bytes l m a : block_ok l -> load_bytes (store_bytes m a l) a block_bytes = l.
Proof.
  intros [Hlen Hb]. apply list_eq. intros i. destruct (decide (i < block_bytes)%nat) as [Hi|Hi].
  - rewrite lookup_load_bytes by done. rewrite ld8_store_bytes, decide_True by lia.
    replace (Z.to_nat (a + Z.of_nat i - a)) with i by lia.
    destruct (lookup_lt_is_Some_2 l i) as [x Hx]; [lia|]. rewrite Hx. cbn. f_equal.
    rewrite Forall_lookup in Hb. apply u8_small, (Hb i x Hx).
  - rewrite !lookup_ge_None_2; [done|lia|rewrite length_load_bytes; lia].
Qed.

Lemma fn_insert_ext {A B} `{EqDecision A} (f g : A -> B) a b z :
  (forall w, f w = g w) -> (<[a := b]> f) z = (<[a := b]> g) z.
Proof. intros H. destruct (decide (a = z)) as [<-|Hne]; [by rewrite !fn_lookup_insert|by rewrite !fn_lookup_insert_ne]. Qed.

(** ** Circular lists with two pointers per node *)

Section Path.
Context {N : Type} `{EqDecision N}.
Implicit Types (st nx pv : N -> N) (l : list N).

Fixpoint path st (x : N) l (y : N) : Prop :=
  match l with
  | [] => st x = y
  | z :: l' => st x = z /\ path st z l' y
  end.
Definition phead l (y : N) : N := match l with [] => y | z :: _ => z end.
Fixpoint plast (x : N) l : N := match l with [] => x | z :: l' => plast z l' end.

Lemma path_head st x l y : path st x l y -> st x = phead l y.
Proof. destruct l; [done|by intros [H _]]. Qed.

Lemma path_app st x l1 z l2 y : path st x (l1 ++ z :: l2) y <-> path st x l1 z /\ path st z l2 y.
Proof. revert x. induction l1 as [|j l1 IH]; intros x; cbn; [done|]. rewrite IH. tauto. Qed.

Lemma plast_elem x l : plast x l ∈ x :: l.
Proof.
  revert x. induction l as [|z l IH]; intros x; cbn; [by apply list_elem_of_here|].
  apply list_elem_of_further, IH.
Qed.

Lemma plast_app x l1 z l2 : plast x (l1 ++ z :: l2) = plast z l2.
Proof. revert x. induction l1 as [|j l1 IH]; intros x; cbn; [done|apply IH]. Qed.

Lemma phead_rev l x : phead (rev l) x = plast x l.
Proof. destruct l as [|i l _] using rev_ind; [done|]. by rewrite rev_app_distr, plast_app. Qed.

Lemma path_ext st st' x l y : (forall z, z ∈ x :: l -> st' z = st z) -> path st x l y -> path st' x l y.
Proof.
  revert x. induction l as [|z l IH]; intros x H; cbn; (rewrite H by by apply list_elem_of_here); [done|].
  intros [H1 H2]. split; [done|]. apply IH; [|done]. intros w Hw. apply H. by apply list_elem_of_further.
Qed.

Lemma path_insert st x l y a v : a ∉ x :: l -> path st x l y -> path (<[a := v]> st) x l y.
Proof. intros Ha. apply path_ext. intros z Hz. apply fn_lookup_insert_ne. by intros <-. Qed.

Lemma path_redirect st x l y z : NoDup (x :: l) -> path st x l y -> path (<[plast x l := z]> st) x l z.
Proof.
  revert x. induction l as [|i l IH]; intros x; cbn [path plast].
  - intros _ _. apply fn_lookup_insert.
  - intros [Hx HND]%NoDup_cons [H1 H2]. split; [|by apply IH].
    rewrite fn_lookup_insert_ne; [done|]. intros E. apply Hx. rewrite <- E. apply plast_elem.
Qed.

Lemma path_start st st' x x' l y :
  st' x' = st x -> (forall z, z ∈ l -> st' z = st z) -> path st x l y -> path st' x' l y.
Proof.
  destruct l as [|z l]; cbn [path]; intros E H.
  - by rewrite E.
  - rewrite E. intros [H1 H2]. split; [done|]. by apply (path_ext st).
Qed.

Lemma path_unlink st x l1 i l2 y :
  NoDup (x :: l1 ++ i :: l2) -> path st x (l1 ++ i :: l2) y ->
  path (<[plast x l1 := st i]> st) x (l1 ++ l2) y.
Proof.
  rewrite app_comm_cons. intros (H1 & H12 & (Hi2 & H2)%NoDup_cons)%NoDup_app [Hp1 Hp2]%path_app.
  pose proof (path_redirect st x l1 i (st i) H1 Hp1) as Hr. rewrite (path_head _ _ _ _ Hp2) in Hr |- *.
  destruct l2 as [|j l2]; cbn [phead] in *; [by rewrite app_nil_r|].
  apply path_app. split; [done|]. apply path_insert; [|by destruct Hp2].
  intros Hj. apply (H12 _ (plast_elem x l1)). by apply list_elem_of_further.
Qed.

Lemma path_cons st x i l y :
  i ∉ x :: l -> x ∉ l -> path st x l y -> path (<[x := i]> (<[i := st x]> st)) x (i :: l) y.
Proof.
  intros Hi Hx Hp. assert (i <> x) as Hne by set_solver. cbn [path]. split; [apply fn_lookup_insert|].
  apply (path_start st _ x i l y); [|intros z Hz|done].
  - by rewrite fn_lookup_insert_ne, fn_lookup_insert by done.
  - rewrite !fn_lookup_insert_ne; [done| |]; set_solver.
Qed.

Lemma path_snoc st x i l y z :
  NoDup (x :: l) -> i ∉ x :: l -> path st x l y -> path (<[plast x l := i]> (<[i := z]> st)) x (l ++ [i]) z.
Proof.
  intros HND Hi Hp. apply path_app. split.
  - apply (path_redirect _ x l y); [done|]. by apply path_insert.
  - cbn [path]. rewrite fn_lookup_insert_ne, fn_lookup_insert; [done|].
    intros E. apply Hi. rewrite <- E. apply plast_elem.
Qed.

Lemma path_elem st x l y z : path st x l y -> z ∈ x :: l -> st z ∈ y :: l.
Proof.
  revert x. induction l as [|w l IH]; intros x; cbn [path].
  - intros <- ->%list_elem_of_singleton. apply list_elem_of_here.
  - intros [E H] [->|Hz]%elem_of_cons; [rewrite E; set_solver|]. specialize (IH w H Hz). set_solver.
Qed.

(** The circular list with head [hd] and elements [l]. *)
Record ring nx pv (hd : N) l : Prop := {
  rg_nodup : NoDup (hd :: l);
  rg_next : path nx hd l hd;
  rg_prev : path pv hd (rev l) hd }.

Lemma rev_nodup x l : NoDup (x :: l) -> NoDup (x :: rev l).
Proof. by rewrite <- Permutation_rev. Qed.

(** *** Moving an element to the front, as [brelse] does it *)

Definition nx_unlink (i : N) nx pv : N -> N := <[pv i := nx i]> nx.
Definition pv_unlink (i : N) nx pv : N -> N := <[nx i := pv i]> pv.
Definition nx_front (hd i : N) nx : N -> N := <[hd := i]> (<[i := nx hd]> nx).
Definition pv_front (hd i : N) nx pv : N -> N := <[nx hd := i]> (<[i := hd]> pv).

Lemma ring_unlink nx pv hd l1 i l2 :
  ring nx pv hd (l1 ++ i :: l2) ->
  ring (nx_unlink i nx pv) (pv_unlink i nx pv) hd (l1 ++ l2).
Proof.
  intros [HND Hn Hp]. pose proof (rev_nodup _ _ HND) as HND'.
  rewrite rev_app_distr in Hp, HND'. cbn [rev] in Hp, HND'. rewrite <- app_assoc in Hp, HND'. cbn [app] in Hp, HND'.
  pose proof Hn as [_ Hn2]%path_app. pose proof Hp as [_ Hp2]%path_app.
  split.
  - rewrite app_comm_cons in HND |- *. apply NoDup_app in HND as (H1 & H12 & (Hi2 & H2)%NoDup_cons).
    apply NoDup_app. split; [done|]. split; [|done]. intros x Hx Hx2. apply (H12 x Hx). by apply list_elem_of_further.
  - unfold nx_unlink. rewrite (path_head _ _ _ _ Hp2), phead_rev. by apply path_unlink.
  - unfold pv_unlink. rewrite (path_head _ _ _ _ Hn2), rev_app_distr.
    rewrite <- (rev_involutive l2) at 1. rewrite phead_rev. by apply path_unlink.
Qed.

Lemma ring_front nx pv hd i l :
  i ∉ hd :: l -> ring nx pv hd l ->
  ring (nx_front hd i nx) (pv_front hd i nx pv) hd (i :: l).
Proof.
  intros Hi [HND Hn Hp]. split.
  - apply NoDup_cons in HND as [H1 H2]. rewrite !NoDup_cons. set_solver.
  - apply path_cons; [done| |done]. by apply NoDup_cons in HND as [H1 _].
  - unfold pv_front. rewrite (path_head _ _ _ _ Hn). rewrite <- (rev_involutive l) at 1. rewrite phead_rev.
    cbn [rev]. apply (path_snoc _ _ _ _ hd).
    + by apply rev_nodup.
    + by rewrite <- Permutation_rev.
    + done.
Qed.

Lemma ring_move nx pv hd l1 i l2 :
  ring nx pv hd (l1 ++ i :: l2) ->
  ring (nx_front hd i (nx_unlink i nx pv)) (pv_front hd i (nx_unlink i nx pv) (pv_unlink i nx pv)) hd
    (i :: l1 ++ l2).
Proof.
  intros Hr. apply ring_front; [|by apply ring_unlink].
  pose proof (rg_nodup _ _ _ _ Hr) as HND. rewrite <- Permutation_middle, (Permutation_swap i hd) in HND.
  by apply NoDup_cons in HND as [H _].
Qed.
End Path.

Lemma ring_ext {N} `{EqDecision N} (nx nx' pv pv' : N -> N) hd l :
  (forall z, nx' z = nx z) -> (forall z, pv' z = pv z) -> ring nx pv hd l -> ring nx' pv' hd l.
Proof. intros H1 H2 [HND Hn Hp]. split; [done|by apply (path_ext nx)|by apply (path_ext pv)]. Qed.

(** ** The list of the cache in the kernel's state *)

Definition nxs (s : kst) (x : bptr) : bptr :=
  match x with BHead => snd (k_bhead s) | BBuf i => from_option b_next BHead (k_bufs s !! i) end.
Definition pvs (s : kst) (x : bptr) : bptr :=
  match x with BHead => fst (k_bhead s) | BBuf i => from_option b_prev BHead (k_bufs s !! i) end.
Definition in_cache (s : kst) (x : bptr) : Prop :=
  match x with BHead => True | BBuf i => (i < length (k_bufs s))%nat end.

(** A buffer, and a state, without the links. *)
Definition core (b : buf) : buf := set_b_prev BHead (set_b_next BHead b).
Definition cores (s : kst) : list buf := map core (k_bufs s).
Definition strip (s : kst) : kst := set_k_bhead (BHead, BHead) (set_k_bufs (cores s) s).

Definition upd_nx (x v : bptr) (s : kst) : kst :=
  match x with
  | BHead => set_k_bhead (fst (k_bhead s), v) s
  | BBuf i => set_k_bufs (alter (set_b_next v) i (k_bufs s)) s
  end.
Definition upd_pv (x v : bptr) (s : kst) : kst :=
  match x with
  | BHead => set_k_bhead (v, snd (k_bhead s)) s
  | BBuf i => set_k_bufs (alter (set_b_prev v) i (k_bufs s)) s
  end.

Lemma bnext_Ret x s : in_cache s x -> bnext x s = Ret (nxs s x) s.
Proof.
  destruct x as [|i]; [done|]. intros [b Hb]%lookup_lt_is_Some_2. cbn [bnext nxs]. by rret (read_buf_Ret i b s Hb); rewrite Hb.
Qed.

Lemma bprev_Ret x s : in_cache s x -> bprev x s = Ret (pvs s x) s.
Proof.
  destruct x as [|i]; [done|]. intros [b Hb]%lookup_lt_is_Some_2. cbn [bprev pvs]. by rret (read_buf_Ret i b s Hb); rewrite Hb.
Qed.

Lemma set_bnext_Ret x v s : in_cache s x -> set_bnext x v s = Ret tt (upd_nx x v s).
Proof.
  destruct x as [|i]; [done|]. intros [b Hb]%lookup_lt_is_Some_2. cbn [set_bnext upd_nx].
  by rewrite (upd_buf_Ret i b _ s Hb), (alter_at _ _ _ _ Hb).
Qed.

Lemma set_bprev_Ret x v s : in_cache s x -> set_bprev x v s = Ret tt (upd_pv x v s).
Proof.
  destruct x as [|i]; [done|]. intros [b Hb]%lookup_lt_is_Some_2. cbn [set_bprev upd_pv].
  by rewrite (upd_buf_Ret i b _ s Hb), (alter_at _ _ _ _ Hb).
Qed.

Lemma nxs_upd_nx x v s z : in_cache s x -> nxs (upd_nx x v s) z = (<[x := v]> (nxs s)) z.
Proof.
  intros Hx. destruct (decide (x = z)) as [<-|Hne]; [rewrite fn_lookup_insert|rewrite fn_lookup_insert_ne by done].
  - destruct x as [|i]; [done|]. destruct (lookup_lt_is_Some_2 _ _ Hx) as [b Hb].
    cbn. by rewrite list_lookup_alter_eq, Hb.
  - destruct x as [|i], z as [|j]; try done. cbn. rewrite list_lookup_alter_ne; [done|congruence].
Qed.
Lemma pvs_upd_nx x v s z : pvs (upd_nx x v s) z = pvs s z.
Proof.
  destruct x as [|i], z as [|j]; try done. cbn. rewrite list_lookup_alter.
  case_decide; [subst|done]. by destruct (k_bufs s !! j).
Qed.
Lemma pvs_upd_pv x v s z : in_cache s x -> pvs (upd_pv x v s) z = (<[x := v]> (pvs s)) z.
Proof.
  intros Hx. destruct (decide (x = z)) as [<-|Hne]; [rewrite fn_lookup_insert|rewrite fn_lookup_insert_ne by done].
  - destruct x as [|i]; [done|]. destruct (lookup_lt_is_Some_2 _ _ Hx) as [b Hb].
    cbn. by rewrite list_lookup_alter_eq, Hb.
  - destruct x as [|i], z as [|j]; try done. cbn. rewrite list_lookup_alter_ne; [done|congruence].
Qed.
Lemma nxs_upd_pv x v s z : nxs (upd_pv x v s) z = nxs s z.
Proof.
  destruct x as [|i], z as [|j]; try done. cbn. rewrite list_lookup_alter.
  case_decide; [subst|done]. by destruct (k_bufs s !! j).
Qed.

Lemma map_core_alter f i (l : list buf) :
  (forall b, core (f b) = core b) -> map core (alter f i l) = map core l.
Proof.
  intros H. apply list_eq. intros j. rewrite list_lookup_fmap.
  rewrite list_lookup_alter. case_decide; [subst|by rewrite list_lookup_fmap]. rewrite list_lookup_fmap.
  destruct (l !! j); [|done]. cbn. by rewrite H.
Qed.

Lemma strip_upd_nx x v s : strip (upd_nx x v s) = strip s.
Proof.
  destruct x as [|i]; [done|]. unfold strip, cores, upd_nx. cbn [k_bufs set_k_bufs].
  by rewrite map_core_alter.
Qed.
Lemma strip_upd_pv x v s : strip (upd_pv x v s) = strip s.
Proof.
  destruct x as [|i]; [done|]. unfold strip, cores, upd_pv. cbn [k_bufs set_k_bufs].
  by rewrite map_core_alter.
Qed.
Lemma in_cache_strip s s' x : strip s' = strip s -> in_cache s x -> in_cache s' x.
Proof.
  intros E. destruct x as [|i]; [done|]. cbn.
  assert (length (k_bufs (strip s')) = length (k_bufs (strip s))) as El by by rewrite E.
  cbn in El. unfold cores in El. rewrite !length_map in El. by rewrite El.
Qed.

Lemma ring_pointers {N} `{EqDecision N} (nx pv : N -> N) hd l x :
  ring nx pv hd l -> x ∈ hd :: l -> nx x ∈ hd :: l /\ pv x ∈ hd :: l.
Proof.
  intros [_ Hn Hp] Hx. split; [by eapply path_elem|].
  rewrite (Permutation_rev l). eapply path_elem; [exact Hp|]. by rewrite <- Permutation_rev.
Qed.

(** The buffers form the circular list [l]. *)
Definition lru (s : kst) (l : list nat) : Prop :=
  ring (nxs s) (pvs s) BHead (map BBuf l) /\ Forall (fun i => (i < length (k_bufs s))%nat) l.

Lemma lru_in_cache s l x : lru s l -> x ∈ BHead :: map BBuf l -> in_cache s x.
Proof.
  intros [_ H] [->|(i & -> & Hi)%list_elem_of_fmap]%elem_of_cons; [done|].
  rewrite Forall_forall in H. by apply H.
Qed.

Lemma relink_eq s l1 i l2 :
  lru s (l1 ++ i :: l2) ->
  exists s', (n ← bnext (BBuf i); p ← bprev (BBuf i); set_bprev n p ;;
     p ← bprev (BBuf i); n ← bnext (BBuf i); set_bnext p n ;;
     n ← bnext BHead; set_bnext (BBuf i) n ;;
     set_bprev (BBuf i) BHead ;;
     n ← bnext BHead; set_bprev n (BBuf i) ;;
     set_bnext BHead (BBuf i)) s = Ret tt s' /\
    lru s' (i :: l1 ++ l2) /\ strip s' = strip s.
Proof.
  intros Hl. pose proof (fun x => lru_in_cache s _ x Hl) as Hv. destruct Hl as [Hr HF].
  assert (BBuf i ∈ BHead :: map BBuf (l1 ++ i :: l2)) as Hi.
  { apply list_elem_of_further, list_elem_of_fmap. exists i. set_solver. }
  destruct (ring_pointers _ _ _ _ _ Hr Hi) as [Hni Hpi].
  assert (nxs s (BBuf i) <> BBuf i) as Hne.
  { destruct Hr as [HND Hn _]. rewrite map_app in Hn, HND. cbn [map] in Hn, HND.
    apply path_app in Hn as [_ Hn]. rewrite (path_head _ _ _ _ Hn). destruct l2 as [|j l2]; [done|]. cbn.
    intros [= ->]. apply NoDup_cons in HND as [_ HND]. apply NoDup_app in HND as (_ & _ & HND).
    apply NoDup_cons in HND as [H _]. cbn in H. set_solver. }
  set (s1 := upd_pv (nxs s (BBuf i)) (pvs s (BBuf i)) s).
  assert (strip s1 = strip s) as E1 by apply strip_upd_pv.
  assert (pvs s1 (BBuf i) = pvs s (BBuf i)) as Ep1.
  { unfold s1. rewrite pvs_upd_pv by by apply Hv. by apply fn_lookup_insert_ne. }
  assert (nxs s1 (BBuf i) = nxs s (BBuf i)) as En1 by apply nxs_upd_pv.
  set (s2 := upd_nx (pvs s (BBuf i)) (nxs s (BBuf i)) s1).
  assert (strip s2 = strip s) as E2 by (unfold s2; by rewrite strip_upd_nx).
  set (s3 := upd_nx (BBuf i) (nxs s2 BHead) s2).
  assert (strip s3 = strip s) as E3 by (unfold s3; by rewrite strip_upd_nx).
  set (s4 := upd_pv (BBuf i) BHead s3).
  assert (strip s4 = strip s) as E4 by (unfold s4; by rewrite strip_upd_pv).
  assert (nxs s4 BHead = nxs s2 BHead) as En4 by (unfold s4; rewrite nxs_upd_pv; done).
  set (s5 := upd_pv (nxs s2 BHead) (BBuf i) s4).
  assert (strip s5 = strip s) as E5 by (unfold s5; by rewrite strip_upd_pv).
  set (s6 := upd_nx BHead (BBuf i) s5).
  assert (forall x st, strip st = strip s -> x ∈ BHead :: map BBuf (l1 ++ i :: l2) -> in_cache st x) as Hc.
  { intros x st E Hx. apply (in_cache_strip s); [done|by apply Hv]. }
  assert (nxs s2 BHead ∈ BHead :: map BBuf (l1 ++ i :: l2)) as Hn2.
  { unfold s2. rewrite nxs_upd_nx by (apply Hc; done). unfold s1.
    destruct (decide (pvs s (BBuf i) = BHead)) as [->|Hp]; [by rewrite fn_lookup_insert|].
    rewrite fn_lookup_insert_ne, nxs_upd_pv by done. apply (ring_pointers _ _ _ _ BHead Hr). apply list_elem_of_here. }
  assert (forall z, nxs s2 z = (<[pvs s (BBuf i) := nxs s (BBuf i)]> (nxs s)) z) as En2.
  { intros z. unfold s2. rewrite nxs_upd_nx by by apply Hc. apply fn_insert_ext. apply nxs_upd_pv. }
  exists s6. split_and!.
  - rret (bnext_Ret (BBuf i) s (Hc _ s eq_refl Hi)). rret (bprev_Ret (BBuf i) s (Hc _ s eq_refl Hi)).
    rret (set_bprev_Ret _ (pvs s (BBuf i)) s (Hc _ s eq_refl Hni)).
    rret (bprev_Ret (BBuf i) s1 (Hc _ s1 E1 Hi)). rret (bnext_Ret (BBuf i) s1 (Hc _ s1 E1 Hi)).
    rewrite Ep1, En1. rret (set_bnext_Ret _ (nxs s (BBuf i)) s1 (Hc _ s1 E1 Hpi)).
    rret (bnext_Ret BHead s2 ltac:(done)). rret (set_bnext_Ret _ (nxs s2 BHead) s2 (Hc _ s2 E2 Hi)).
    rret (set_bprev_Ret _ BHead s3 (Hc _ s3 E3 Hi)).
    rret (bnext_Ret BHead s4 ltac:(done)). rewrite En4. rret (set_bprev_Ret _ (BBuf i) s4 (Hc _ s4 E4 Hn2)).
    done.
  - split.
    + rewrite map_app in Hr. cbn [map] in Hr. apply ring_move in Hr. cbn [map]. rewrite map_app.
      revert Hr. apply ring_ext; intros z.
      * unfold nx_front, nx_unlink. rewrite <- (En2 BHead). unfold s6.
        rewrite nxs_upd_nx by done. apply fn_insert_ext. intros w. unfold s5, s4, s3.
        rewrite !nxs_upd_pv, nxs_upd_nx by by apply Hc. by apply fn_insert_ext.
      * unfold pv_front, pv_unlink, nx_unlink. rewrite <- (En2 BHead). unfold s6.
        rewrite pvs_upd_nx. unfold s5. rewrite pvs_upd_pv by by apply Hc.
        apply fn_insert_ext. intros w. unfold s4. rewrite pvs_upd_pv by by apply Hc.
        apply fn_insert_ext. intros w'. unfold s3, s2. rewrite !pvs_upd_nx. unfold s1.
        by rewrite pvs_upd_pv by by apply Hv.
    + apply Forall_forall. intros j Hj. apply (Hc (BBuf j) s6); [unfold s6; by rewrite strip_upd_nx|].
      apply list_elem_of_further, list_elem_of_fmap. exists j. split; [done|]. by rewrite <- Permutation_middle.
  - unfold s6. by rewrite strip_upd_nx.
Qed.

(** Walking along one of the two pointers finds the first buffer with the test. *)
Lemma find_buf_eq (st : bptr -> bptr) step test s x l :
  path st x (map BBuf l) BHead -> Forall (fun i => (i < length (k_bufs s))%nat) l ->
  (forall i, i ∈ l -> step (BBuf i) s = Ret (st (BBuf i)) s) -> (length l < bcache_fuel)%nat ->
  find_buf (st x) step test s = Ret (List.find (fun i => from_option test false (k_bufs s !! i)) l) s.
Proof.
  unfold find_buf. generalize bcache_fuel. intros n. revert n x. induction l as [|i l IH]; intros [|n] x; cbn [path map];
    intros Hp HF Hs Hn; cbn [length] in Hn; try lia; cbn [while_loop].
  - rewrite Hp. done.
  - destruct Hp as [Ep Hp]. apply Forall_cons in HF as [Hi HF].
    destruct (lookup_lt_is_Some_2 _ _ Hi) as [b Hb]. rewrite Ep, bind_eq. cbv beta iota.
    assert ((x0 ← read_buf i; (if test x0 then mret (inr (Some i)) else n0 ← step (BBuf i); mret (inl n0)) : M kst (bptr + option nat)) s =
      Ret (if test b then inr (Some i) else inl (st (BBuf i))) s) as E.
    { rret (read_buf_Ret i b s Hb). destruct (test b); [done|]. rret (Hs i (list_elem_of_here i l)). done. }
    rewrite E. cbn [obind List.find]. rewrite Hb. cbn [from_option]. destruct (test b); [done|].
    apply IH; [done|done| |lia]. intros j Hj. apply Hs. by apply list_elem_of_further.
Qed.

(** ** The abstract store *)

Record bstore := mk_bstore {
  bs_view : Z -> list Z;    (** what a reader of the block sees *)
  bs_disk : Z -> list Z;    (** what the disk holds *)
  bs_ref : gmap Z Z;        (** the blocks with references, and how many *)
  bs_held : gmap Z nat }.   (** the blocks this process has locked, and their buffers *)

Definition ref_of (a : bstore) (bno : Z) : Z := default 0 (bs_ref a !! bno).
Definition cnt (r : Z) : option Z := if decide (r = 0) then None else Some r.
Definition bs_set_ref (bno r : Z) (a : bstore) : bstore :=
  mk_bstore (bs_view a) (bs_disk a) (partial_alter (fun _ => cnt r) bno (bs_ref a)) (bs_held a).
Definition bs_set_held (bno : Z) (o : option nat) (a : bstore) : bstore :=
  mk_bstore (bs_view a) (bs_disk a) (bs_ref a) (partial_alter (fun _ => o) bno (bs_held a)).
Definition bs_set_view (bno : Z) (l : list Z) (a : bstore) : bstore :=
  mk_bstore (<[bno := l]> (bs_view a)) (bs_disk a) (bs_ref a) (bs_held a).
Definition bs_set_disk (bno : Z) (l : list Z) (a : bstore) : bstore :=
  mk_bstore (bs_view a) (<[bno := l]> (bs_disk a)) (bs_ref a) (bs_held a).

Section Rep.
Context `{KernelData}.
Variables (p : process) (D : Z).

Record bcontent (a : bstore) (bl : list buf) (m : mem) : Prop := {
  bc_len : length bl = nbufs;
  bc_ok : forall bno, block_ok (bs_view a bno) /\ block_ok (bs_disk a bno);
  bc_uniq : forall i j b c, bl !! i = Some b -> bl !! j = Some c -> b_dev b = D -> b_dev c = D ->
    b_blockno b = b_blockno c -> i = j;
  bc_refcnt : forall i b, bl !! i = Some b ->
    b_refcnt b = if decide (b_dev b = D) then ref_of a (b_blockno b) else 0;
  bc_lock : forall i b, bl !! i = Some b ->
    if decide (b_dev b = D /\ bs_held a !! b_blockno b = Some i)
    then b_lock b = mk_sleeplock 1 (p_pid p) else slk_locked (b_lock b) = 0;
  bc_data : forall i b, bl !! i = Some b -> b_dev b = D ->
    b_valid b <> 0 /\ load_bytes m (buf_data i) block_bytes = bs_view a (b_blockno b);
  bc_ref : forall bno r, bs_ref a !! bno = Some r ->
    0 < r < 2 ^ 32 /\ exists i b, bl !! i = Some b /\ b_dev b = D /\ b_blockno b = bno;
  bc_held : forall bno i, bs_held a !! bno = Some i ->
    exists b, bl !! i = Some b /\ b_dev b = D /\ b_blockno b = bno;
  bc_clean : forall bno, bs_ref a !! bno = None -> bs_held a !! bno = None ->
    bs_view a bno = bs_disk a bno }.

Lemma core_lookup (bl bl' : list buf) i b :
  map core bl' = map core bl -> bl !! i = Some b -> exists b', bl' !! i = Some b' /\ core b' = core b.
Proof.
  intros E Hb. assert (map core bl' !! i = Some (core b)) as H1 by (by rewrite E, list_lookup_fmap, Hb).
  rewrite list_lookup_fmap in H1. destruct (bl' !! i) as [b'|]; [|done]. exists b'. split; [done|]. by apply (inj Some) in H1.
Qed.

Lemma bcontent_cores a bl bl' m : map core bl' = map core bl -> bcontent a bl m -> bcontent a bl' m.
Proof.
  intros E [H1 H2 H3 H4 H5 H6 H7 H8 H9].
  assert (forall i b, bl' !! i = Some b -> exists b0, bl !! i = Some b0 /\ core b = core b0) as Hc.
  { intros i b Hb. symmetry in E. destruct (core_lookup _ _ _ _ E Hb) as (b0 & Hb0 & Ec). by exists b0. }
  assert (forall b b0, core b = core b0 -> b_dev b = b_dev b0 /\ b_blockno b = b_blockno b0 /\
    b_refcnt b = b_refcnt b0 /\ b_lock b = b_lock b0 /\ b_valid b = b_valid b0) as Hf.
  { intros b b0 Ec. by injection Ec. }
  split.
  - by rewrite <- (length_map core), E, length_map.
  - done.
  - intros i j b c (b0 & Hb0 & (Ed & En & _)%Hf)%Hc (c0 & Hc0 & (Ed' & En' & _)%Hf)%Hc.
    rewrite Ed, Ed', En, En'. by apply H3.
  - intros i b (b0 & Hb0 & (Ed & En & Er & _)%Hf)%Hc. rewrite Ed, En, Er. by apply (H4 i).
  - intros i b (b0 & Hb0 & (Ed & En & Er & El & _)%Hf)%Hc. rewrite Ed, En, El. by apply H5.
  - intros i b (b0 & Hb0 & (Ed & En & Er & El & Ev)%Hf)%Hc. rewrite Ed, En, Ev. by apply H6.
  - intros bno r Hr. destruct (H7 bno r Hr) as (Hp & i & b & Hb & Hd & Hn). split; [done|].
    destruct (core_lookup _ _ _ _ E Hb) as (b' & Hb' & (Ed & En & _)%Hf). exists i, b'. by rewrite Ed, En.
  - intros bno i Hh. destruct (H8 bno i Hh) as (b & Hb & Hd & Hn).
    destruct (core_lookup _ _ _ _ E Hb) as (b' & Hb' & (Ed & En & _)%Hf). exists b'. by rewrite Ed, En.
  - done.
Qed.

Lemma buf_disjoint i j a :
  (i < nbufs)%nat -> (j < nbufs)%nat -> i <> j ->
  buf_data i <= a < buf_data i + BSIZE -> ~ (buf_data j <= a < buf_data j + BSIZE).
Proof.
  unfold nbufs. intros Hi Hj Hne Ha Ha'. destruct (Nat.lt_ge_cases i j) as [Hlt|Hge].
  - pose proof (buf_data_order i j Hlt ltac:(lia)). lia.
  - pose proof (buf_data_order j i ltac:(lia) ltac:(lia)). lia.
Qed.

(** Memories that differ only in the data of buffer [i]. *)
Definition data_only (i : nat) (m m' : mem) : Prop :=
  forall x, ~ (buf_data i <= x < buf_data i + BSIZE) -> ld8 m' x = ld8 m x.

Lemma data_only_other i j m m' :
  (i < nbufs)%nat -> (j < nbufs)%nat -> i <> j -> data_only i m m' ->
  load_bytes m' (buf_data j) block_bytes = load_bytes m (buf_data j) block_bytes.
Proof.
  intros Hi Hj Hne Hm. apply load_bytes_ext. intros x Hx. apply Hm.
  apply (buf_disjoint j i); [done..|]. unfold block_bytes, BSIZE in *. lia.
Qed.

Lemma lookup_cnt r b (m : gmap Z Z) c :
  partial_alter (fun _ => cnt r) b m !! c = if decide (b = c) then cnt r else m !! c.
Proof.
  case_decide; [subst; apply lookup_partial_alter_eq|by apply lookup_partial_alter_ne].
Qed.
Lemma lookup_opt {A} (o : option A) b (m : gmap Z A) c :
  partial_alter (fun _ => o) b m !! c = if decide (b = c) then o else m !! c.
Proof.
  case_decide; [subst; apply lookup_partial_alter_eq|by apply lookup_partial_alter_ne].
Qed.
Lemma ref_of_set b r a c : ref_of (bs_set_ref b r a) c = if decide (b = c) then r else ref_of a c.
Proof.
  unfold ref_of, bs_set_ref. cbn [bs_ref]. rewrite lookup_cnt. case_decide; [|done].
  unfold cnt. by case_decide.
Qed.
Lemma ref_of_held b o a c : ref_of (bs_set_held b o a) c = ref_of a c.
Proof. done. Qed.

(** One named buffer changes its count and its lock. *)
Lemma bcontent_set a bl m i b b' r o :
  bcontent a bl m -> bl !! i = Some b -> b_dev b = D -> b_dev b' = D -> b_blockno b' = b_blockno b ->
  b_valid b' <> 0 -> b_refcnt b' = r -> 0 <= r < 2 ^ 32 ->
  (o = None /\ slk_locked (b_lock b') = 0 \/ o = Some i /\ b_lock b' = mk_sleeplock 1 (p_pid p)) ->
  (r = 0 -> o = None -> bs_view a (b_blockno b) = bs_disk a (b_blockno b)) ->
  bcontent (bs_set_held (b_blockno b) o (bs_set_ref (b_blockno b) r a)) (<[i := b']> bl) m.
Proof.
  intros [H1 H2 H3 H4 H5 H6 H7 H8 H9] Hb Hd Hd' Hn' Hv Hr Hrr Ho Hcl.
  assert (forall j c, j <> i -> bl !! j = Some c -> b_dev c = D -> b_blockno b <> b_blockno c) as Hu.
  { intros j c Hne Hc Hdc E. apply Hne. symmetry. by eapply H3. }
  assert (i < length bl)%nat as Hi by by eapply lookup_lt_Some.
  assert (<[i := b']> bl !! i = Some b') as Hbi by by apply list_lookup_insert_eq.
  split; cbn [bs_view bs_disk bs_ref bs_held bs_set_held bs_set_ref].
  - by rewrite length_insert.
  - done.
  - intros j k c d [(-> & -> & _)|(Hj & Hc)]%list_lookup_insert_Some [(-> & -> & _)|(Hk & Hdk)]%list_lookup_insert_Some; try done.
    + intros _ Hdd E. destruct (Hu k d ltac:(done) Hdk Hdd). congruence.
    + intros Hdc _ E. destruct (Hu j c ltac:(done) Hc Hdc). congruence.
    + by apply H3.
  - intros j c [(<- & <- & _)|(Hj & Hc)]%list_lookup_insert_Some.
    + rewrite decide_True by done. by rewrite ref_of_held, Hn', ref_of_set, decide_True.
    + rewrite (H4 j c Hc). case_decide; [|done]. rewrite ref_of_held, ref_of_set, decide_False; [done|].
      by apply (Hu j).
  - intros j c [(<- & <- & _)|(Hj & Hc)]%list_lookup_insert_Some.
    + rewrite lookup_opt, Hn', (decide_True (P := b_blockno b = _)) by done.
      destruct Ho as [[-> Hl]|[-> Hl]]; [rewrite decide_False by naive_solver|rewrite decide_True by done]; done.
    + specialize (H5 j c Hc). rewrite lookup_opt. destruct (decide (b_blockno b = b_blockno c)) as [E|E]; [|done].
      destruct (decide (b_dev c = D)) as [Hdc|Hdc]; [by destruct (Hu j c ltac:(done) Hc Hdc)|].
      rewrite decide_False in H5 by tauto. by rewrite decide_False by tauto.
  - intros j c [(<- & <- & _)|(Hj & Hc)]%list_lookup_insert_Some Hdc; [|by apply H6].
    split; [done|]. rewrite Hn'. by apply H6.
  - intros bno r'. rewrite lookup_cnt. case_decide as E.
    + unfold cnt. case_decide; [done|]. intros [= <-]. split; [lia|]. exists i, b'. by rewrite Hn'.
    + intros Hr'. destruct (H7 bno r' Hr') as (Hp & j & c & Hc & Hdc & Hnc). split; [done|].
      exists j, c. split; [|done]. rewrite list_lookup_insert_ne; [done|]. intros <-. congruence.
  - intros bno j. rewrite lookup_opt. case_decide as E.
    + intros Ho'. destruct Ho as [[-> _]|[-> _]]; [done|]. injection Ho' as <-. exists b'. by rewrite Hn'.
    + intros Hh. destruct (H8 bno j Hh) as (c & Hc & Hdc & Hnc). exists c. split; [|done].
      rewrite list_lookup_insert_ne; [done|]. intros <-. congruence.
  - intros bno. rewrite lookup_cnt, lookup_opt. case_decide as E; [|by apply H9]. subst bno.
    unfold cnt. case_decide; [|done]. intros _. by apply Hcl.
Qed.

(** A buffer without references is given to a block that is not in the cache. *)
Lemma bcontent_recycle a bl m m' i b b' bno :
  bcontent a bl m -> bl !! i = Some b -> b_refcnt b = 0 ->
  (b_dev b = D -> bs_held a !! b_blockno b = None) ->
  (forall j c, bl !! j = Some c -> b_dev c = D -> b_blockno c <> bno) ->
  b_dev b' = D -> b_blockno b' = bno -> b_valid b' <> 0 -> b_refcnt b' = 1 ->
  b_lock b' = mk_sleeplock 1 (p_pid p) -> data_only i m m' ->
  load_bytes m' (buf_data i) block_bytes = bs_view a bno ->
  bcontent (bs_set_held bno (Some i) (bs_set_ref bno 1 a)) (<[i := b']> bl) m'.
Proof.
  intros [H1 H2 H3 H4 H5 H6 H7 H8 H9] Hb Hz Hfree Hnew Hd' Hn' Hv Hr Hl Hm Hdata.
  assert (i < length bl)%nat as Hi by by eapply lookup_lt_Some.
  assert (<[i := b']> bl !! i = Some b') as Hbi by by apply list_lookup_insert_eq.
  assert (forall c, b_dev b = D -> b_blockno b = c -> bs_ref a !! c = None) as Hnr.
  { intros c Hd <-. specialize (H4 i b Hb). rewrite decide_True in H4 by done. unfold ref_of in H4.
    destruct (bs_ref a !! b_blockno b) as [r|] eqn:E; [|done]. destruct (H7 _ r E) as [Hp _]. cbn in H4. lia. }
  split; cbn [bs_view bs_disk bs_ref bs_held bs_set_held bs_set_ref].
  - by rewrite length_insert.
  - done.
  - intros j k c d [(-> & -> & _)|(Hj & Hc)]%list_lookup_insert_Some [(-> & -> & _)|(Hk & Hdk)]%list_lookup_insert_Some; try done.
    + intros _ Hdd E. destruct (Hnew k d Hdk Hdd). congruence.
    + intros Hdc _ E. destruct (Hnew j c Hc Hdc). congruence.
    + by apply H3.
  - intros j c [(<- & <- & _)|(Hj & Hc)]%list_lookup_insert_Some.
    + rewrite decide_True by done. by rewrite ref_of_held, Hn', ref_of_set, decide_True.
    + rewrite (H4 j c Hc). case_decide; [|done]. rewrite ref_of_held, ref_of_set, decide_False; [done|].
      apply not_eq_sym. by apply (Hnew j).
  - intros j c [(<- & <- & _)|(Hj & Hc)]%list_lookup_insert_Some; rewrite lookup_opt.
    + rewrite Hn', (decide_True (P := bno = _)) by done. by rewrite decide_True.
    + specialize (H5 j c Hc). destruct (decide (bno = b_blockno c)) as [E|E]; [|done].
      destruct (decide (b_dev c = D)) as [Hdc|Hdc]; [by destruct (Hnew j c Hc Hdc)|].
      rewrite decide_False in H5 by tauto. by rewrite decide_False by tauto.
  - intros j c [(<- & <- & _)|(Hj & Hc)]%list_lookup_insert_Some Hdc.
    + split; [done|]. by rewrite Hn'.
    + destruct (H6 j c Hc Hdc) as [Hvc Hdt]. split; [done|]. rewrite <- Hdt.
      apply lookup_lt_Some in Hc. apply (data_only_other i j); [lia|lia|done|done].
  - intros c r'. rewrite lookup_cnt. case_decide as E.
    + intros [= <-]. split; [lia|]. exists i, b'. by rewrite Hn'.
    + intros Hr'. destruct (H7 c r' Hr') as (Hp & j & d & Hdj & Hdd & Hnd). split; [done|].
      exists j, d. split; [|done]. rewrite list_lookup_insert_ne; [done|]. intros <-.
      assert (d = b) as -> by congruence. rewrite (Hnr c Hdd Hnd) in Hr'. done.
  - intros c j. rewrite lookup_opt. case_decide as E.
    + intros [= <-]. exists b'. by rewrite Hn'.
    + intros Hh. destruct (H8 c j Hh) as (d & Hdj & Hdd & Hnd). exists d. split; [|done].
      rewrite list_lookup_insert_ne; [done|]. intros <-. assert (d = b) as -> by congruence.
      rewrite <- Hnd, (Hfree Hdd) in Hh. done.
  - intros c. rewrite lookup_cnt, lookup_opt. case_decide; [done|]. by apply H9.
Qed.

(** Writing into the data of a locked buffer. *)
Lemma bcontent_write a bl m m' i bno :
  bcontent a bl m -> bs_held a !! bno = Some i -> data_only i m m' ->
  bcontent (bs_set_view bno (load_bytes m' (buf_data i) block_bytes) a) bl m'.
Proof.
  intros [H1 H2 H3 H4 H5 H6 H7 H8 H9] Hh Hm. destruct (H8 bno i Hh) as (b & Hb & Hd & Hn).
  assert (i < length bl)%nat as Hi by by eapply lookup_lt_Some.
  split; cbn [bs_view bs_disk bs_ref bs_held bs_set_view]; try done.
  - intros c. split; [|by apply H2]. destruct (decide (bno = c)) as [<-|Hne].
    + rewrite fn_lookup_insert. apply load_bytes_ok.
    + rewrite fn_lookup_insert_ne by done. apply H2.
  - intros j c Hc Hdc. destruct (H6 j c Hc Hdc) as [Hv Hdt]. split; [done|].
    destruct (decide (bno = b_blockno c)) as [E|Hne].
    + assert (i = j) as <- by (eapply H3; [exact Hb|exact Hc|done..|congruence]). by rewrite E, fn_lookup_insert.
    + rewrite fn_lookup_insert_ne by done. rewrite <- Hdt. apply lookup_lt_Some in Hc as Hj.
      apply (data_only_other i j); [lia|lia| |done]. intros <-. congruence.
  - intros c Hr Hc. rewrite fn_lookup_insert_ne; [by apply H9|]. intros <-. congruence.
Qed.

(** The disk takes the contents of a locked buffer. *)
Lemma bcontent_flush a bl m bno i :
  bcontent a bl m -> bs_held a !! bno = Some i ->
  bcontent (bs_set_disk bno (bs_view a bno) a) bl m.
Proof.
  intros [H1 H2 H3 H4 H5 H6 H7 H8 H9] Hh. split; cbn [bs_view bs_disk bs_ref bs_held bs_set_disk]; try done.
  - intros c. split; [apply H2|]. destruct (decide (bno = c)) as [<-|Hne];
      [rewrite fn_lookup_insert|rewrite fn_lookup_insert_ne by done]; apply H2.
  - intros c Hr Hc. rewrite fn_lookup_insert_ne; [by apply H9|]. intros <-. congruence.
Qed.
End Rep.

(** ** The operations on the abstract store *)

Lemma lru_insert s s' i b b' l :
  k_bhead s' = k_bhead s -> k_bufs s' = <[i := b']> (k_bufs s) -> k_bufs s !! i = Some b ->
  b_next b' = b_next b -> b_prev b' = b_prev b -> lru s l -> lru s' l.
Proof.
  intros Eh Eb Hb En Ep [Hr HF]. split.
  - revert Hr. apply ring_ext; intros [|j]; cbn [nxs pvs]; rewrite ?Eh, ?Eb; try done;
      (destruct (decide (i = j)) as [<-|Hne];
       [rewrite list_lookup_insert_eq by (by eapply lookup_lt_Some); by rewrite Hb|by rewrite list_lookup_insert_ne]).
  - by rewrite Eb, length_insert.
Qed.

Lemma lru_same s s' l : k_bhead s' = k_bhead s -> k_bufs s' = k_bufs s -> lru s l -> lru s' l.
Proof.
  intros Eh Eb [Hr HF]. split; [|by rewrite Eb].
  revert Hr. apply ring_ext; intros [|j]; cbn [nxs pvs]; by rewrite ?Eh, ?Eb.
Qed.

Lemma strip_same s s' :
  strip s' = strip s ->
  k_km s' = k_km s /\ k_procs s' = k_procs s /\ k_disk s' = k_disk s /\ cores s' = cores s.
Proof.
  intros E. pose proof (f_equal k_km E). pose proof (f_equal k_procs E). pose proof (f_equal k_disk E).
  by pose proof (f_equal k_bufs E).
Qed.

(** What the cache does not touch. *)
Definition others (s : kst) :=
  (km_head (k_km s), k_pids s, k_groups s, k_links s, k_free_cpus s, k_box s, k_ticks s,
   k_log s, k_sb s, k_inodes s, k_files s, k_init_fs s, k_con s, k_devsw s).

Lemma others_strip s s' : strip s' = strip s -> others s' = others s.
Proof. intros E. pose proof (f_equal others E) as Eo. done. Qed.

Record bio_rep `{KernelData} (h : hw) (me : nat) (p : process) (D : Z) (a : bstore) (s : kst) : Prop := {
  br_hw : at_lvl h 0 [] (k_hw s);
  br_me : k_procs s !! me = Some p;
  br_procs : length (k_procs s) = nprocs;
  br_lru : exists l, lru s l /\ l ≡ₚ seq 0 nbufs;
  br_disk : forall bno, disk_block (k_disk s) bno = bs_disk a bno;
  br_content : bcontent p D a (k_bufs s) (k_mem s) }.

(** Where the operations run: interrupts are off or not nested, a process runs, and
    nobody holds the locks they take. *)
Record bio_env (h : hw) (me : nat) (p : process) : Prop := {
  be_wf : hw_wf h;
  be_run : running h me;
  be_st : p_status p = RUNNING;
  be_bcache : hw_locks h !! LkBcache = Some free_lock;
  be_buf : forall i, (i < nbufs)%nat -> hw_locks h !! LkBuf i = Some free_lock;
  be_procs : procs_free h [] }.

Section Ops.
Context `{KernelData} `{WaitFuel}.
Variables (h : hw) (me : nat) (p : process) (D : Z).
Hypothesis He : bio_env h me p.

Lemma env_wf : hw_wf h. Proof using He. apply (be_wf _ _ _ He). Qed.
Lemma env_run : running h me. Proof using He. apply (be_run _ _ _ He). Qed.
Lemma env_st : p_status p = RUNNING. Proof using He. apply (be_st _ _ _ He). Qed.
Lemma env_bcache : hw_locks h !! LkBcache = Some free_lock. Proof using He. apply (be_bcache _ _ _ He). Qed.
Lemma env_buf i : (i < nbufs)%nat -> hw_locks h !! LkBuf i = Some free_lock.
Proof using He. apply (be_buf _ _ _ He). Qed.
Lemma env_procs : procs_free h []. Proof using He. apply (be_procs _ _ _ He). Qed.

Abbreviation rep := (bio_rep h me p D).
Definition my_lock : sleeplock := mk_sleeplock 1 (p_pid p).

Lemma upd_buf_again i b b1 f s :
  k_bufs s !! i = Some b ->
  upd_buf i f (set_k_bufs (<[i := b1]> (k_bufs s)) s) = Ret tt (set_k_bufs (<[i := f b1]> (k_bufs s)) s).
Proof.
  intros Hb. rewrite (upd_buf_Ret i b1 f (set_k_bufs (<[i := b1]> (k_bufs s)) s));
    [|apply list_lookup_insert_eq; by eapply lookup_lt_Some].
  cbn [k_bufs set_k_bufs]. by rewrite list_insert_insert_eq.
Qed.

(** The end of [bget]. *)
Lemma bget_tail i b s :
  k_bufs s !! i = Some b -> (i < nbufs)%nat -> slk_locked (b_lock b) = 0 -> k_procs s !! me = Some p ->
  (release LkBcache ;; acquiresleep (SlkBuf i) ;; mret i) (set_k_hw (held_hw 0 [LkBcache] h) s) =
  Ret i (set_k_hw (held_hw 0 [] h) (set_k_bufs (<[i := set_b_lock my_lock b]> (k_bufs s)) s)).
Proof.
  intros Hb Hi Hl Hp. rret (release_top h env_wf 0 [] LkBcache s env_bcache ltac:(set_solver) ltac:(constructor)).
  set (s1 := set_k_hw _ s).
  assert (get_slk (SlkBuf i) s1 = Some (b_lock b)) as Hg by (cbn; by rewrite Hb).
  rret (acquiresleep_eq h me p 0 [] (SlkBuf i) s1 env_wf env_run (at_lvl_held h 0 []) ltac:(constructor)
    (env_buf i Hi) ltac:(set_solver) Hp (b_lock b) Hg Hl).
  unfold s1. rewrite put_slk_hw. cbn [put_slk]. by rewrite (alter_at _ _ _ _ Hb).
Qed.

(** What [bget] finds when the block is cached. *)
Definition hit_test (bno : Z) (b : buf) : bool := (b_dev b =? D) && (b_blockno b =? bno).

Lemma hit_test_true bno b : hit_test bno b = true <-> b_dev b = D /\ b_blockno b = bno.
Proof. unfold hit_test. by rewrite andb_true_iff, !Z.eqb_eq. Qed.

Definition hit_buf (b : buf) : buf := set_b_lock my_lock (set_b_refcnt (u32 (b_refcnt b + 1)) b).
Definition new_buf (bno : Z) (b : buf) : buf :=
  set_b_lock my_lock (set_b_refcnt 1 (set_b_valid 0 (set_b_blockno bno (set_b_dev D b)))).

Definition at_test (test : buf -> bool) (s : kst) (i : nat) : bool := from_option test false (k_bufs s !! i).

Lemma find_at test s l i :
  List.find (at_test test s) l = Some i -> i ∈ l /\ exists b, k_bufs s !! i = Some b /\ test b = true.
Proof.
  intros [Hin Ht]%List.find_some. split; [by apply list_elem_of_In|]. unfold at_test in Ht.
  destruct (k_bufs s !! i) as [b|]; [by exists b|done].
Qed.

Lemma find_at_None test s l i b :
  List.find (at_test test s) l = None -> i ∈ l -> k_bufs s !! i = Some b -> test b = false.
Proof.
  intros Hf Hin%list_elem_of_In Hb. pose proof (List.find_none _ _ Hf i Hin) as Ht. unfold at_test in Ht.
  by rewrite Hb in Ht.
Qed.

(** The two searches of [bget]: for the block from the front, for a free buffer from the back. *)
Lemma bget_search a s bno l : rep a s -> lru s l -> l ≡ₚ seq 0 nbufs ->
  bget D bno s =
  match List.find (at_test (hit_test bno) s) l with
  | Some i => (upd_buf i (fun b => set_b_refcnt (u32 (b_refcnt b + 1)) b) ;;
      release LkBcache ;; acquiresleep (SlkBuf i) ;; mret i) (set_k_hw (held_hw 0 [LkBcache] h) s)
  | None =>
      match List.find (at_test (fun b => b_refcnt b =? 0) s) (rev l) with
      | Some i => (upd_buf i (set_b_dev D) ;; upd_buf i (set_b_blockno bno) ;; upd_buf i (set_b_valid 0) ;; upd_buf i (set_b_refcnt 1) ;;
          release LkBcache ;; acquiresleep (SlkBuf i) ;; mret i) (set_k_hw (held_hw 0 [LkBcache] h) s)
      | None => Panic "bget: no buffers"
      end
  end.
Proof.
  intros Hr Hl Hperm. pose proof (br_hw _ _ _ _ _ _ Hr) as Hs.
  assert (Forall (fun i => (i < length (k_bufs s))%nat) l) as HF by apply Hl.
  assert (length l < bcache_fuel)%nat as Hfuel.
  { rewrite Hperm, length_seq. unfold nbufs, bcache_fuel. lia. }
  set (s1 := set_k_hw (held_hw 0 [LkBcache] h) s).
  assert (forall i, i ∈ l -> bnext (BBuf i) s1 = Ret (nxs s1 (BBuf i)) s1) as Hbn.
  { intros j Hj. apply bnext_Ret. rewrite Forall_forall in HF. by apply HF. }
  assert (path (pvs s1) BHead (map BBuf (rev l)) BHead) as Hpp by (rewrite map_rev; apply Hl).
  assert (Forall (fun i => (i < length (k_bufs s))%nat) (rev l)) as HFr by by rewrite <- Permutation_rev.
  assert (forall i, i ∈ rev l -> bprev (BBuf i) s1 = Ret (pvs s1 (BBuf i)) s1) as Hbp.
  { intros j Hj. apply bprev_Ret. rewrite Forall_forall in HFr. by apply HFr. }
  assert (length (rev l) < bcache_fuel)%nat as Hfr by by rewrite length_rev.
  pose proof (acquire_lvl h env_wf 0 [] LkBcache s Hs env_bcache ltac:(set_solver)) as Eacq. fold s1 in Eacq.
  unfold bget. rret Eacq. rret (bnext_Ret BHead s1 ltac:(done)).
  rret (find_buf_eq (nxs s1) bnext (hit_test bno) s1 BHead l ltac:(apply Hl) HF Hbn Hfuel).
  change (List.find (fun i => from_option (hit_test bno) false (k_bufs s1 !! i)) l)
    with (List.find (at_test (hit_test bno) s) l).
  destruct (List.find (at_test (hit_test bno) s) l) as [i|]; [done|].
  rret (bprev_Ret BHead s1 ltac:(done)).
  rret (find_buf_eq (pvs s1) bprev (fun b => b_refcnt b =? 0) s1 BHead (rev l) Hpp HFr Hbp Hfr).
  change (List.find (fun i => from_option _ false (k_bufs s1 !! i)) (rev l))
    with (List.find (at_test (fun b => b_refcnt b =? 0) s) (rev l)).
  by destruct (List.find _ (rev l)).
Qed.

Lemma bget_eq a s bno l :
  rep a s -> lru s l -> l ≡ₚ seq 0 nbufs ->
  match List.find (at_test (hit_test bno) s) l with
  | Some i => forall b, k_bufs s !! i = Some b -> slk_locked (b_lock b) = 0 -> bget D bno s =
      Ret i (set_k_hw (held_hw 0 [] h) (set_k_bufs (<[i := hit_buf b]> (k_bufs s)) s))
  | None =>
      match List.find (at_test (fun b => b_refcnt b =? 0) s) (rev l) with
      | Some i => forall b, k_bufs s !! i = Some b -> slk_locked (b_lock b) = 0 -> bget D bno s =
          Ret i (set_k_hw (held_hw 0 [] h) (set_k_bufs (<[i := new_buf bno b]> (k_bufs s)) s))
      | None => bget D bno s = Panic "bget: no buffers"
      end
  end.
Proof.
  intros Hr Hl Hperm. rewrite (bget_search a s bno l Hr Hl Hperm).
  assert (forall i, i ∈ l -> (i < nbufs)%nat) as Hlt.
  { intros i. rewrite Hperm, elem_of_seq. lia. }
  set (s1 := set_k_hw (held_hw 0 [LkBcache] h) s).
  destruct (List.find (at_test (hit_test bno) s) l) as [i|] eqn:Ef.
  - pose proof (find_at _ _ _ _ Ef) as (Hi & _). intros b Hb E0.
    rret (upd_buf_Ret i b (fun b => set_b_refcnt (u32 (b_refcnt b + 1)) b) s1 Hb).
    change (set_k_bufs ?x s1) with (set_k_hw (held_hw 0 [LkBcache] h) (set_k_bufs x s)).
    erewrite (bget_tail i _ (set_k_bufs _ s)); [|apply list_lookup_insert_eq; by eapply lookup_lt_Some|by apply Hlt|done|apply Hr].
    cbn [k_bufs set_k_bufs]. by rewrite list_insert_insert_eq.
  - destruct (List.find (at_test (fun b => b_refcnt b =? 0) s) (rev l)) as [i|] eqn:Ev; [|done].
    pose proof (find_at _ _ _ _ Ev) as (Hi & _). intros b Hb E0. assert (k_bufs s1 !! i = Some b) as Hb1 by done.
    rret (upd_buf_Ret i b (set_b_dev D) s1 Hb1).
    rret (upd_buf_again i b (set_b_dev D b) (set_b_blockno bno) s1 Hb1).
    rret (upd_buf_again i b (set_b_blockno bno (set_b_dev D b)) (set_b_valid 0) s1 Hb1).
    rret (upd_buf_again i b (set_b_valid 0 (set_b_blockno bno (set_b_dev D b))) (set_b_refcnt 1) s1 Hb1).
    change (set_k_bufs ?x s1) with (set_k_hw (held_hw 0 [LkBcache] h) (set_k_bufs x s)).
    assert (i < nbufs)%nat as Hin by (apply Hlt; apply list_elem_of_In, List.in_rev; by apply list_elem_of_In).
    erewrite (bget_tail i _ (set_k_bufs _ s)); [|apply list_lookup_insert_eq; by eapply lookup_lt_Some|done|done|apply Hr].
    cbn [k_bufs set_k_bufs]. by rewrite list_insert_insert_eq.
Qed.

(** Some buffer has no references. *)
Lemma free_buf_exists a bl m :
  bcontent p D a bl m -> (size (bs_ref a) < nbufs)%nat ->
  exists i b, bl !! i = Some b /\ b_refcnt b = 0.
Proof.
  intros Hc Hsz. destruct (decide (Exists (fun b => b_refcnt b = 0) bl)) as [Hex|Hno].
  - apply Exists_exists in Hex as (b & [i Hi]%list_elem_of_lookup & Hb). by exists i, b.
  - exfalso. apply not_Exists_Forall in Hno; [|intros x; apply _]. rewrite Forall_lookup in Hno.
    assert (forall i b, bl !! i = Some b -> b_dev b = D /\ is_Some (bs_ref a !! b_blockno b)) as Hb.
    { intros i b Hb. assert (b_refcnt b <> 0) as Hnz by exact (Hno i b Hb).
      rewrite (bc_refcnt _ _ _ _ _ Hc i b Hb) in Hnz. case_decide; [|done]. split; [done|].
      unfold ref_of in Hnz. by destruct (bs_ref a !! b_blockno b). }
    assert (NoDup (map b_blockno bl)) as HND.
    { apply NoDup_alt. intros i j x Hi Hj. rewrite list_lookup_fmap in Hi, Hj.
      destruct (bl !! i) as [b|] eqn:Ei; [|done]. destruct (bl !! j) as [c|] eqn:Ej; [|done].
      injection Hi as Hi. injection Hj as Hj. apply (bc_uniq _ _ _ _ _ Hc i j b c Ei Ej); [by apply (Hb i)|by apply (Hb j)|congruence]. }
    assert (map b_blockno bl ⊆+ map fst (map_to_list (bs_ref a))) as Hsub.
    { apply NoDup_submseteq; [done|]. intros x (b & -> & [i Hi]%list_elem_of_lookup)%list_elem_of_fmap.
      destruct (Hb i b Hi) as [_ [r Hr]]. apply list_elem_of_fmap. exists (b_blockno b, r).
      split; [done|]. by apply elem_of_map_to_list. }
    apply submseteq_length in Hsub. rewrite !length_map, length_map_to_list, (bc_len _ _ _ _ _ Hc) in Hsub. lia.
Qed.

(** Memories that differ only in the data of the buffers. *)
Definition bufs_only (m m' : mem) : Prop :=
  forall x, (forall i, (i < nbufs)%nat -> ~ (buf_data i <= x < buf_data i + BSIZE)) -> ld8 m' x = ld8 m x.

Lemma bufs_only_refl m : bufs_only m m.
Proof. done. Qed.
Lemma bufs_only_trans m1 m2 m3 : bufs_only m1 m2 -> bufs_only m2 m3 -> bufs_only m1 m3.
Proof. intros E1 E2 x Hx. by rewrite E2, E1. Qed.
Lemma data_only_bufs i m m' : (i < nbufs)%nat -> data_only i m m' -> bufs_only m m'.
Proof. intros Hi Hm x Hx. apply Hm. by apply Hx. Qed.

Lemma data_only_store i m l : length l = block_bytes -> data_only i m (store_bytes m (buf_data i) l).
Proof.
  intros Hl x Hx. rewrite ld8_store_bytes, decide_False; [done|]. rewrite Hl. unfold block_bytes, BSIZE in *. lia.
Qed.

Lemma rep_step a a' s s' l :
  rep a s -> at_lvl h 0 [] (k_hw s') -> k_procs s' = k_procs s -> lru s' l -> l ≡ₚ seq 0 nbufs ->
  (forall bno, disk_block (k_disk s') bno = bs_disk a' bno) -> bcontent p D a' (k_bufs s') (k_mem s') ->
  rep a' s'.
Proof. intros Hr Hh Hp Hl HP Hd Hc. split; rewrite ?Hp; try done; [apply Hr|apply Hr|by exists l]. Qed.

(** [bread] has answered [i] in [s']. *)
Definition bread_done (a : bstore) (bno : Z) (s : kst) (i : nat) (s' : kst) : Prop :=
  bread D bno s = Ret i s' /\
  rep (bs_set_held bno (Some i) (bs_set_ref bno (u32 (ref_of a bno + 1)) a)) s' /\
  others s' = others s /\ k_procs s' = k_procs s /\ k_disk s' = k_disk s /\ bufs_only (k_mem s) (k_mem s').

Lemma bread_cached a s bno l i b :
  rep a s -> lru s l -> l ≡ₚ seq 0 nbufs -> bs_held a !! bno = None ->
  List.find (at_test (hit_test bno) s) l = Some i -> k_bufs s !! i = Some b -> b_dev b = D -> b_blockno b = bno ->
  bread_done a bno s i (set_k_hw (held_hw 0 [] h) (set_k_bufs (<[i := hit_buf b]> (k_bufs s)) s)).
Proof.
  intros Hr Hl HP Hnh Ef Hb Hd Hn. pose proof (br_content _ _ _ _ _ _ Hr) as Hc.
  pose proof (bget_eq a s bno l Hr Hl HP) as E. rewrite Ef in E.
  assert (slk_locked (b_lock b) = 0) as Hlk.
  { pose proof (bc_lock _ _ _ _ _ Hc i b Hb) as Hlk. rewrite decide_False in Hlk; [done|]. rewrite Hn, Hnh. naive_solver. }
  specialize (E b Hb Hlk). set (s1 := set_k_hw _ _) in E |- *.
  assert (k_bufs s1 !! i = Some (hit_buf b)) as Hb1 by (apply list_lookup_insert_eq; by eapply lookup_lt_Some).
  destruct (bc_data _ _ _ _ _ Hc i b Hb Hd) as [Hv _]. unfold bread_done. split_and!; try done.
  - unfold bread. rret E. rret (read_buf_Ret i _ s1 Hb1). cbn [hit_buf b_valid set_b_lock set_b_refcnt].
    by rewrite (proj2 (Z.eqb_neq _ _) Hv).
  - apply (rep_step a _ s s1 l Hr); try done; [by left| |apply (br_disk _ _ _ _ _ _ Hr)|].
    { by apply (lru_insert s s1 i b (hit_buf b)). }
    rewrite <- Hn. apply bcontent_set with (b' := hit_buf b); try done; [|apply u32_range|by right].
    cbn. rewrite (bc_refcnt _ _ _ _ _ Hc i b Hb). by rewrite decide_True.
Qed.

(** A block that is not cached goes to a free buffer, from the disk. *)
Lemma bread_fetched a s bno l i b :
  rep a s -> lru s l -> l ≡ₚ seq 0 nbufs -> bs_held a !! bno = None -> (forall c j, bs_held a !! c = Some j -> ref_of a c <> 0) ->
  (forall j c, k_bufs s !! j = Some c -> b_dev c = D -> b_blockno c <> bno) -> bs_ref a !! bno = None ->
  List.find (at_test (hit_test bno) s) l = None ->
  List.find (at_test (fun b => b_refcnt b =? 0) s) (rev l) = Some i -> k_bufs s !! i = Some b -> b_refcnt b = 0 ->
  exists s', bread_done a bno s i s'.
Proof.
  intros Hr Hl HP Hnh Hhr Hnew Hrn Ef Ev Hb Hz.
  assert (ref_of a bno = 0) as Hr0 by (unfold ref_of; by rewrite Hrn). pose proof (br_content _ _ _ _ _ _ Hr) as Hc.
  pose proof (bget_eq a s bno l Hr Hl HP) as E. rewrite Ef, Ev in E.
  assert (b_dev b = D -> bs_held a !! b_blockno b = None) as Hfree.
  { intros Hd. destruct (bs_held a !! b_blockno b) as [j|] eqn:Eh; [|done]. destruct (Hhr _ _ Eh).
    rewrite <- Hz, (bc_refcnt _ _ _ _ _ Hc i b Hb). by rewrite decide_True. }
  assert (slk_locked (b_lock b) = 0) as Hlk.
  { pose proof (bc_lock _ _ _ _ _ Hc i b Hb) as Hlk. rewrite decide_False in Hlk; [done|].
    intros [Hd Hh]. by rewrite Hfree in Hh. }
  specialize (E b Hb Hlk). set (s1 := set_k_hw _ _) in E.
  assert (k_bufs s1 !! i = Some (new_buf bno b)) as Hb1 by (apply list_lookup_insert_eq; by eapply lookup_lt_Some).
  set (blk := bs_disk a bno). assert (disk_block (k_disk s1) bno = blk) as Hblk by apply (br_disk _ _ _ _ _ _ Hr).
  set (s2 := set_k_mem (store_bytes (k_mem s) (buf_data i) blk) s1).
  assert (disk_rw i false s1 = Ret tt s2) as E2.
  { unfold disk_rw. rret (read_buf_Ret i _ s1 Hb1). unfold modify. cbn [b_blockno new_buf set_b_lock set_b_refcnt set_b_valid set_b_blockno].
    by rewrite Hblk. }
  set (b2 := set_b_valid 1 (new_buf bno b)).
  assert (block_ok blk) as Hbok by apply (bc_ok _ _ _ _ _ Hc bno).
  assert (data_only i (k_mem s) (store_bytes (k_mem s) (buf_data i) blk)) as Hdo by (apply data_only_store, Hbok).
  exists (set_k_bufs (<[i := b2]> (k_bufs s)) s2). unfold bread_done. split_and!; try done.
  - unfold bread. rret E. rret (read_buf_Ret i _ s1 Hb1). cbn [new_buf b_valid set_b_lock set_b_refcnt set_b_valid Z.eqb].
    erewrite bind_Ret; [|rret E2; by apply (upd_buf_again i b (new_buf bno b) (set_b_valid 1)
      (set_k_mem (store_bytes (k_mem s) (buf_data i) blk) (set_k_hw (held_hw 0 [] h) s)))]. done.
  - rewrite Hr0. apply (rep_step a _ s _ l Hr); try done; [by left| |apply (br_disk _ _ _ _ _ _ Hr)|].
    { by apply (lru_insert s _ i b b2). }
    apply (bcontent_recycle _ _ a (k_bufs s) (k_mem s) _ i b b2 bno Hc Hb Hz Hfree Hnew); try done.
    cbn. change (k_mem (set_k_bufs _ s2)) with (store_bytes (k_mem s) (buf_data i) blk).
    rewrite load_store_bytes by done. symmetry. by apply (bc_clean _ _ _ _ _ Hc).
  - apply (data_only_bufs i); [apply lookup_lt_Some in Hb; by rewrite (bc_len _ _ _ _ _ Hc) in Hb|done].
Qed.

Lemma bread_ok a s bno :
  rep a s -> bs_held a !! bno = None -> (forall c i, bs_held a !! c = Some i -> ref_of a c <> 0) ->
  ref_of a bno <> 0 \/ (size (bs_ref a) < nbufs)%nat ->
  exists i s', bread D bno s = Ret i s' /\
    rep (bs_set_held bno (Some i) (bs_set_ref bno (u32 (ref_of a bno + 1)) a)) s' /\
    others s' = others s /\ k_procs s' = k_procs s /\ k_disk s' = k_disk s /\ bufs_only (k_mem s) (k_mem s').
Proof.
  intros Hr Hnh Hhr Hcap. destruct (br_lru _ _ _ _ _ _ Hr) as (l & Hl & HP).
  pose proof (br_content _ _ _ _ _ _ Hr) as Hc.
  assert (forall j c, k_bufs s !! j = Some c -> j ∈ l) as Hin.
  { intros j c Hj. rewrite HP, elem_of_seq. apply lookup_lt_Some in Hj as Hlt. rewrite (bc_len _ _ _ _ _ Hc) in Hlt. lia. }
  destruct (List.find (at_test (hit_test bno) s) l) as [i|] eqn:Ef.
  { pose proof (find_at _ _ _ _ Ef) as (Hi & b & Hb & [Hd Hn]%hit_test_true).
    exists i. eexists. by apply (bread_cached a s bno l i b). }
  assert (forall j c, k_bufs s !! j = Some c -> b_dev c = D -> b_blockno c <> bno) as Hnew.
  { intros j c Hj Hd Hn. pose proof (find_at_None _ _ _ _ _ Ef (Hin j c Hj) Hj) as Ht.
    by rewrite (proj2 (hit_test_true bno c)) in Ht. }
  assert (bs_ref a !! bno = None) as Hrn.
  { destruct (bs_ref a !! bno) as [r|] eqn:Er; [|done].
    destruct (bc_ref _ _ _ _ _ Hc bno r Er) as (_ & j & c & Hj & Hd & Hn). by destruct (Hnew j c Hj Hd). }
  destruct Hcap as [[]|Hsz]; [unfold ref_of; by rewrite Hrn|].
  destruct (List.find (at_test (fun b => b_refcnt b =? 0) s) (rev l)) as [i|] eqn:Ev.
  - pose proof (find_at _ _ _ _ Ev) as (Hi & b & Hb & Hz%Z.eqb_eq).
    exists i. by apply (bread_fetched a s bno l i b).
  - destruct (free_buf_exists a _ _ Hc Hsz) as (i & b & Hb & Hz). exfalso.
    assert (i ∈ rev l) as Hil by (rewrite <- Permutation_rev; by eapply Hin).
    pose proof (find_at_None _ _ _ _ _ Ev Hil Hb) as Ht. cbn in Ht. lia.
Qed.

(** The buffer of a block that this process has locked. *)
Lemma held_buf a s bno i :
  rep a s -> bs_held a !! bno = Some i ->
  exists b, k_bufs s !! i = Some b /\ b_dev b = D /\ b_blockno b = bno /\ b_lock b = my_lock /\
    (i < nbufs)%nat /\ b_valid b <> 0 /\ b_refcnt b = ref_of a bno /\
    load_bytes (k_mem s) (buf_data i) block_bytes = bs_view a bno.
Proof.
  intros Hr Hh. pose proof (br_content _ _ _ _ _ _ Hr) as Hc.
  destruct (bc_held _ _ _ _ _ Hc bno i Hh) as (b & Hb & Hd & Hn). exists b.
  pose proof (bc_lock _ _ _ _ _ Hc i b Hb) as Hl. rewrite decide_True in Hl by by rewrite Hn.
  pose proof (bc_refcnt _ _ _ _ _ Hc i b Hb) as Hrc. rewrite decide_True, Hn in Hrc by done.
  destruct (bc_data _ _ _ _ _ Hc i b Hb Hd) as [Hv Hdt]. rewrite Hn in Hdt. apply lookup_lt_Some in Hb as Hlt.
  rewrite (bc_len _ _ _ _ _ Hc) in Hlt. done.
Qed.

Lemma ref_of_range a bl m bno : bcontent p D a bl m -> 0 <= ref_of a bno < 2 ^ 32.
Proof.
  intros Hc. unfold ref_of. destruct (bs_ref a !! bno) as [r|] eqn:E; [|cbn; lia].
  destruct (bc_ref _ _ _ _ _ Hc bno r E). cbn. lia.
Qed.

Lemma holding_ok a s bno i :
  rep a s -> bs_held a !! bno = Some i ->
  holdingsleep (SlkBuf i) s = Ret true (set_k_hw (held_hw 0 [] h) s).
Proof.
  intros Hr Hh. destruct (held_buf a s bno i Hr Hh) as (b & Hb & _ & _ & Hl & Hi & _).
  rewrite (holdingsleep_eq h me p 0 [] (SlkBuf i) s env_wf env_run (br_hw _ _ _ _ _ _ Hr) ltac:(constructor)
    (env_buf i Hi) ltac:(set_solver) (br_me _ _ _ _ _ _ Hr) my_lock); [|cbn; by rewrite Hb, <- Hl].
  cbn. by rewrite Z.eqb_refl.
Qed.

Lemma bwrite_ok a s bno i :
  rep a s -> bs_held a !! bno = Some i ->
  exists s', bwrite i s = Ret tt s' /\ rep (bs_set_disk bno (bs_view a bno) a) s' /\
    others s' = others s /\ k_procs s' = k_procs s /\ k_mem s' = k_mem s /\
    d_trace (k_disk s') = (bno, bs_view a bno) :: d_trace (k_disk s).
Proof.
  intros Hr Hh. destruct (held_buf a s bno i Hr Hh) as (b & Hb & _ & Hn & _ & _ & _ & _ & Hdt).
  destruct (br_lru _ _ _ _ _ _ Hr) as (l & Hl & HP).
  set (s1 := set_k_hw (held_hw 0 [] h) s). assert (k_bufs s1 !! i = Some b) as Hb1 by done.
  exists (set_k_disk (disk_write bno (bs_view a bno) (k_disk s)) s1). split_and!; try done.
  - unfold bwrite. rret (holding_ok a s bno i Hr Hh). cbn [negb]. unfold disk_rw.
    rret (read_buf_Ret i b s1 Hb1). rewrite Hn. unfold modify.
    change (load_bytes (k_mem s1) (buf_data i) block_bytes) with (load_bytes (k_mem s) (buf_data i) block_bytes).
    by rewrite Hdt.
  - apply (rep_step a _ s _ l Hr); try done; [by left| |].
    + intros c. cbn [k_disk set_k_disk bs_set_disk bs_disk]. unfold disk_block, disk_write; cbn [d_blocks].
      destruct (decide (bno = c)) as [<-|Hne].
      * by rewrite lookup_insert_eq, fn_lookup_insert.
      * rewrite lookup_insert_ne, fn_lookup_insert_ne by done. apply (br_disk _ _ _ _ _ _ Hr).
    + eapply bcontent_flush; [apply Hr|done].
Qed.

Lemma cnt_ok a s bno i b (f : buf -> buf) r l s' :
  rep a s -> lru s l -> l ≡ₚ seq 0 nbufs -> k_bufs s !! i = Some b -> b_dev b = D -> b_blockno b = bno ->
  (forall c, f c = set_b_refcnt r c) -> 0 <= r < 2 ^ 32 ->
  (r = 0 -> bs_held a !! bno = None -> bs_view a bno = bs_disk a bno) ->
  s' = set_k_hw (held_hw 0 [] h) (set_k_bufs (<[i := f b]> (k_bufs s)) s) ->
  rep (bs_set_ref bno r a) s'.
Proof.
  intros Hr Hl HP Hb Hd Hn Hf Hrr Hcl ->. pose proof (br_content _ _ _ _ _ _ Hr) as Hc.
  apply (rep_step a _ s _ l Hr); try done; [by left| |apply (br_disk _ _ _ _ _ _ Hr)|].
  - apply (lru_insert s _ i b (f b)); try done; by rewrite Hf.
  - pose proof (bc_lock _ _ _ _ _ Hc i b Hb) as Hlk. rewrite <- Hn in *.
    assert (bs_set_ref (b_blockno b) r a = bs_set_held (b_blockno b) (bs_held a !! b_blockno b) (bs_set_ref (b_blockno b) r a)) as ->.
    { unfold bs_set_held, bs_set_ref. cbn. f_equal. apply map_eq. intros c. rewrite lookup_opt. by destruct (decide (b_blockno b = c)) as [<-|]. }
    apply bcontent_set with (b' := f b); rewrite ?Hf; try done.
    + cbn. by destruct (bc_data _ _ _ _ _ Hc i b Hb Hd).
    + cbn. destruct (bs_held a !! b_blockno b) as [j|] eqn:Ej.
      * right. destruct (bc_held _ _ _ _ _ Hc _ j Ej) as (c & Hc1 & Hdc & Hnc).
        assert (j = i) as -> by by eapply (bc_uniq _ _ _ _ _ Hc). rewrite decide_True in Hlk by done. done.
      * left. rewrite decide_False in Hlk by naive_solver. done.
Qed.

(** Changing the count of a cached block under the cache's lock. *)
Lemma pin_eq s i b (f : buf -> buf) :
  at_lvl h 0 [] (k_hw s) -> k_bufs s !! i = Some b ->
  (acquire LkBcache ;; upd_buf i f ;; release LkBcache) s =
  Ret tt (set_k_hw (held_hw 0 [] h) (set_k_bufs (<[i := f b]> (k_bufs s)) s)).
Proof.
  intros Hs Hb. rret (acquire_lvl h env_wf 0 [] LkBcache s Hs env_bcache ltac:(set_solver)). set (s1 := set_k_hw _ s).
  assert (k_bufs s1 !! i = Some b) as Hb1 by done. rret (upd_buf_Ret i b f s1 Hb1).
  apply (release_top h env_wf 0 [] LkBcache (set_k_bufs _ s) env_bcache ltac:(set_solver) ltac:(constructor)).
Qed.

Definition quiet (s s' : kst) : Prop :=
  others s' = others s /\ k_procs s' = k_procs s /\ k_mem s' = k_mem s /\ k_disk s' = k_disk s.

Lemma bunpin_ok a s bno i b :
  rep a s -> k_bufs s !! i = Some b -> b_dev b = D -> b_blockno b = bno ->
  (u32 (ref_of a bno - 1) = 0 -> bs_held a !! bno = None -> bs_view a bno = bs_disk a bno) ->
  exists s', bunpin i s = Ret tt s' /\ rep (bs_set_ref bno (u32 (ref_of a bno - 1)) a) s' /\ quiet s s'.
Proof.
  intros Hr Hb Hd Hn Hcl. destruct (br_lru _ _ _ _ _ _ Hr) as (l & Hl & HP).
  eexists. split; [apply (pin_eq s i b _ (br_hw _ _ _ _ _ _ Hr) Hb)|]. split; [|done].
  apply (cnt_ok a s bno i b (set_b_refcnt (u32 (ref_of a bno - 1))) _ l); try done; [apply u32_range|].
  pose proof (bc_refcnt _ _ _ _ _ (br_content _ _ _ _ _ _ Hr) i b Hb) as E.
  rewrite decide_True, Hn in E by done. by rewrite E.
Qed.

Lemma bpin_ok a s bno i b :
  rep a s -> k_bufs s !! i = Some b -> b_dev b = D -> b_blockno b = bno -> ref_of a bno + 1 < 2 ^ 32 ->
  exists s', bpin i s = Ret tt s' /\ rep (bs_set_ref bno (ref_of a bno + 1) a) s' /\ quiet s s'.
Proof.
  intros Hr Hb Hd Hn Hlt. destruct (br_lru _ _ _ _ _ _ Hr) as (l & Hl & HP).
  pose proof (ref_of_range a _ _ bno (br_content _ _ _ _ _ _ Hr)) as Hrg.
  eexists. split; [apply (pin_eq s i b _ (br_hw _ _ _ _ _ _ Hr) Hb)|]. split; [|done].
  apply (cnt_ok a s bno i b (set_b_refcnt (ref_of a bno + 1)) _ l); try done; [lia|lia|].
  pose proof (bc_refcnt _ _ _ _ _ (br_content _ _ _ _ _ _ Hr) i b Hb) as E.
  rewrite decide_True, Hn in E by done. rewrite E, u32_small by lia. done.
Qed.

(** Stores into the data of a locked block. *)
Lemma bdata_ok a s bno i m' :
  rep a s -> bs_held a !! bno = Some i -> data_only i (k_mem s) m' ->
  rep (bs_set_view bno (load_bytes m' (buf_data i) block_bytes) a) (set_k_mem m' s).
Proof.
  intros Hr Hh Hm. destruct (br_lru _ _ _ _ _ _ Hr) as (l & Hl & HP).
  apply (rep_step a _ s _ l Hr); try done; [apply (br_hw _ _ _ _ _ _ Hr)|apply (br_disk _ _ _ _ _ _ Hr)|].
  by apply (bcontent_write p D a _ (k_mem s)); [apply Hr|..].
Qed.

(** Copying a block from one buffer to another. *)
Lemma bcopy_ok a s dst d src r :
  rep a s -> bs_held a !! dst = Some d -> bs_held a !! src = Some r -> d <> r ->
  exists s', kmemmove (buf_data d) (buf_data r) BSIZE s = Ret tt s' /\
    rep (bs_set_view dst (bs_view a src) a) s' /\ others s' = others s /\ k_procs s' = k_procs s /\
    k_disk s' = k_disk s /\ bufs_only (k_mem s) (k_mem s').
Proof.
  intros Hr Hd Hs Hne. destruct (held_buf a s dst d Hr Hd) as (_ & _ & _ & _ & _ & Hdn & _).
  destruct (held_buf a s src r Hr Hs) as (_ & _ & _ & _ & _ & Hrn & _ & _ & Hdt).
  set (m' := memmove (k_mem s) (buf_data d) (buf_data r) BSIZE).
  assert (data_only d (k_mem s) m') as Hm.
  { intros x Hx. unfold m'. by rewrite memmove_ok, decide_False by lia. }
  assert (load_bytes m' (buf_data d) block_bytes = bs_view a src) as E.
  { rewrite <- Hdt. apply list_eq. intros i. destruct (decide (i < block_bytes)%nat) as [Hi|Hi].
    - rewrite !lookup_load_bytes by done. unfold m'. rewrite memmove_ok, decide_True by (unfold block_bytes, BSIZE in *; lia).
      do 2 f_equal. lia.
    - rewrite !lookup_ge_None_2; [done|rewrite length_load_bytes; lia..]. }
  exists (set_k_mem m' s). split_and!; try done.
  - rewrite <- E. by apply bdata_ok.
  - by apply (data_only_bufs d).
Qed.

Lemma wake_me chain : wake chain p = p.
Proof. unfold wake. rewrite decide_False; [done|]. rewrite env_st. by intros [? _]. Qed.

Lemma brelse_ok a s bno i :
  rep a s -> bs_held a !! bno = Some i ->
  (u32 (ref_of a bno - 1) = 0 -> bs_view a bno = bs_disk a bno) ->
  exists s', brelse i s = Ret tt s' /\
    rep (bs_set_held bno None (bs_set_ref bno (u32 (ref_of a bno - 1)) a)) s' /\
    others s' = others s /\ k_procs s' = map (wake (ChBuf i)) (k_procs s) /\
    k_mem s' = k_mem s /\ k_disk s' = k_disk s.
Proof.
  intros Hr Hh Hcl. destruct (held_buf a s bno i Hr Hh) as (b & Hb & Hd & Hn & Hlk & Hi & Hv & Hrc & _).
  destruct (br_lru _ _ _ _ _ _ Hr) as (l & Hl & HP). pose proof (br_content _ _ _ _ _ _ Hr) as Hc.
  pose proof (holding_ok a s bno i Hr Hh) as E0. set (s0 := set_k_hw _ s) in E0.
  set (ps := map (wake (ChBuf i)) (k_procs s)). set (b1 := set_b_lock (mk_sleeplock 0 0) b).
  set (s1 := set_k_hw (held_hw 0 [] h) (set_k_procs ps (set_k_bufs (<[i := b1]> (k_bufs s)) s))).
  assert (releasesleep (SlkBuf i) s0 = Ret tt s1) as E1.
  { rewrite (releasesleep_eq h 0 [] (SlkBuf i) s0 env_wf (at_lvl_held h 0 []) ltac:(constructor)
      (env_buf i Hi) ltac:(set_solver) (b_lock b)); [|cbn; by rewrite Hb|exact env_procs|apply Hr].
    unfold s1, b1, s0. rewrite put_slk_hw. cbn [put_slk]. by rewrite (alter_at _ _ _ _ Hb). }
  set (s2 := set_k_hw (held_hw 0 [LkBcache] h) (set_k_procs ps (set_k_bufs (<[i := b1]> (k_bufs s)) s))).
  assert (acquire LkBcache s1 = Ret tt s2) as E2.
  { by rewrite (acquire_lvl h env_wf 0 [] LkBcache s1 (at_lvl_held h 0 []) env_bcache ltac:(set_solver)). }
  set (r := u32 (ref_of a bno - 1)). set (b2 := set_b_refcnt r b1).
  set (t := set_k_procs ps (set_k_bufs (<[i := b2]> (k_bufs s)) s)).
  set (s3 := set_k_hw (held_hw 0 [LkBcache] h) t).
  assert (upd_buf i (fun x => set_b_refcnt (u32 (b_refcnt x - 1)) x) s2 = Ret tt s3) as E3.
  { pose proof (upd_buf_again i b b1 (fun x => set_b_refcnt (u32 (b_refcnt x - 1)) x)
      (set_k_hw (held_hw 0 [LkBcache] h) (set_k_procs ps s)) Hb) as E. cbn beta in E.
    change (b_refcnt b1) with (b_refcnt b) in E. by rewrite Hrc in E. }
  assert (k_bufs s3 !! i = Some b2) as Hb3 by (apply list_lookup_insert_eq; by eapply lookup_lt_Some).
  assert (lru s3 l) as Hl3 by by apply (lru_insert s s3 i b b2).
  assert (exists s5 l5, strip s5 = strip s3 /\ lru s5 l5 /\ l5 ≡ₚ seq 0 nbufs /\ brelse i s = release LkBcache s5)
    as (s5 & l5 & Est & Hl5 & HP5 & E5).
  { assert (i ∈ l) as (l1 & l2 & ->)%list_elem_of_split by (rewrite HP, elem_of_seq; lia).
    destruct (relink_eq s3 l1 i l2 Hl3) as (s4 & E4 & Hl4 & Est4).
    unfold brelse. rret E0. cbn [negb]. rret E1. rret E2. rret E3. rret (read_buf_Ret i b2 s3 Hb3).
    destruct (b_refcnt b2 =? 0).
    - exists s4, (i :: l1 ++ l2). split_and!; try done; [by rewrite <- HP, <- Permutation_middle|]. by rret E4.
    - by exists s3, (l1 ++ i :: l2). }
  destruct (strip_same _ _ Est) as (Ekm & Eps & Edk & Ecs).
  assert (release LkBcache s5 = Ret tt (set_k_hw (held_hw 0 [] h) s5)) as E6.
  { rewrite <- (at_hw_id s5) at 1. unfold k_hw. rewrite Ekm.
    apply (release_top h env_wf 0 [] LkBcache s5 env_bcache ltac:(set_solver) ltac:(constructor)). }
  exists (set_k_hw (held_hw 0 [] h) s5). rewrite E5. split; [exact E6|].
  assert (k_mem s5 = k_mem s) as Em by (unfold k_mem; by rewrite Ekm).
  split_and!; [|pose proof (others_strip _ _ Est) as Eo; exact Eo|exact Eps|exact Em|exact Edk].
  split.
  - by left.
  - cbn [k_procs set_k_hw set_k_km]. rewrite Eps. cbn [k_procs set_k_hw set_k_km set_k_procs s3 t]. unfold ps.
    rewrite list_lookup_fmap, (br_me _ _ _ _ _ _ Hr). cbn. by rewrite wake_me.
  - cbn [k_procs set_k_hw set_k_km]. rewrite Eps. change (length ps = nprocs). unfold ps. rewrite length_map. apply Hr.
  - exists l5. split; [|done]. by apply (lru_same s5).
  - intros c. cbn [k_disk set_k_hw set_k_km]. rewrite Edk. apply (br_disk _ _ _ _ _ _ Hr).
  - cbn [k_bufs set_k_hw set_k_km]. change (k_mem (set_k_hw _ s5)) with (k_mem s5). rewrite Em.
    apply (bcontent_cores _ _ _ (<[i := b2]> (k_bufs s))); [exact Ecs|]. rewrite <- Hn.
    apply bcontent_set with (b' := b2); try done; [apply u32_range|by left|].
    rewrite Hn. intros E _. by apply Hcl.
Qed.
End Ops.

(** C2: the buffer cache implements the abstract store.  [bread] locks the block and
    gives a buffer with what a reader sees, whether it was cached or not, as long as
    the block is not locked and is cached or some buffer has no references;
    [bwrite] writes that to the disk and nowhere else; [brelse] unlocks the block
    and drops a reference, and the last reference may only go when the disk has the
    contents; without the lock [bwrite] and [brelse] panic. *)
Theorem buffer_cache_refines `{KernelData} `{WaitFuel} h me p D a s :
  bio_env h me p -> bio_rep h me p D a s ->
  (forall bno, bs_held a !! bno = None -> (forall c i, bs_held a !! c = Some i -> ref_of a c <> 0) ->
     ref_of a bno <> 0 \/ (size (bs_ref a) < nbufs)%nat ->
     exists i s', bread D bno s = Ret i s' /\
       bio_rep h me p D (bs_set_held bno (Some i) (bs_set_ref bno (u32 (ref_of a bno + 1)) a)) s' /\
       load_bytes (k_mem s') (buf_data i) block_bytes = bs_view a bno /\
       others s' = others s /\ k_disk s' = k_disk s) /\
  (forall bno i, bs_held a !! bno = Some i ->
     (exists s', bwrite i s = Ret tt s' /\ bio_rep h me p D (bs_set_disk bno (bs_view a bno) a) s' /\
        others s' = others s /\ d_trace (k_disk s') = (bno, bs_view a bno) :: d_trace (k_disk s)) /\
     ((u32 (ref_of a bno - 1) = 0 -> bs_view a bno = bs_disk a bno) ->
      exists s', brelse i s = Ret tt s' /\
        bio_rep h me p D (bs_set_held bno None (bs_set_ref bno (u32 (ref_of a bno - 1)) a)) s' /\
        others s' = others s /\ k_disk s' = k_disk s)) /\
  (forall i b, k_bufs s !! i = Some b -> slk_locked (b_lock b) = 0 ->
     bwrite i s = Panic "bwrite" /\ brelse i s = Panic "brelse").
Proof.
  intros He Hr. split; [|split].
  - intros bno Hnh Hhr Hcap. destruct (bread_ok h me p D He a s bno Hr Hnh Hhr Hcap) as (i & s' & E & Hr' & Ho & _ & Hd & _).
    exists i, s'. split_and!; try done.
    destruct (held_buf h me p D _ s' bno i Hr') as (_ & _ & _ & _ & _ & _ & _ & _ & Hdt); [|exact Hdt].
    cbn. by rewrite lookup_opt, decide_True.
  - intros bno i Hh. split.
    + destruct (bwrite_ok h me p D He a s bno i Hr Hh) as (s' & E & Hr' & Ho & _ & _ & Ht). by exists s'.
    + intros Hcl. destruct (brelse_ok h me p D He a s bno i Hr Hh Hcl) as (s' & E & Hr' & Ho & _ & _ & Hd). by exists s'.
  - intros i b Hb Hl. apply lookup_lt_Some in Hb as Hi. rewrite (bc_len _ _ _ _ _ (br_content _ _ _ _ _ _ Hr)) in Hi.
    assert (holdingsleep (SlkBuf i) s = Ret false (set_k_hw (held_hw 0 [] h) s)) as E.
    { rewrite (holdingsleep_eq h me p 0 [] (SlkBuf i) s (be_wf _ _ _ He) (be_run _ _ _ He) (br_hw _ _ _ _ _ _ Hr)
        ltac:(constructor) (be_buf _ _ _ He i Hi) ltac:(set_solver) (br_me _ _ _ _ _ _ Hr) (b_lock b)); [|cbn; by rewrite Hb].
      by rewrite Hl. }
    split; [unfold bwrite|unfold brelse]; by rret E.
Qed.
