(* ===== verification/DiskService.v ===== *)
(** * The disk driver provides the service that the buffer cache uses

    The buffer cache is modelled over [Bio.disk_rw], which transfers a block at once.
    Here the driver of file Virtio, the device behind it and the interrupt that ends the
    request are put together: when [virtio_disk_rw] returns, the disk and the buffer are
    what [disk_rw] makes of them. *)

From S2P Require Import Prelude Hart VmSystem Mem Kalloc PageTable PageTableSpec State Critical Sleep SleepSpec Bio BioSpec Virtio VirtioSpec.

(** What the documentation of a virtio block device promises of a request that it has
    served: the bytes at the request's sectors are those at its address.  Of a request whose
    data descriptor has the wrong direction nothing is promised. *)
Definition served (r : request) (s1 s2 : kst) : Prop :=
  let bno := rq_sector r * 512 / BSIZE in
  let n := Z.to_nat (rq_len r) in
  if (rq_type r =? VIRTIO_BLK_T_IN) && rq_device_writes r then k_disk s2 = k_disk s1 /\ load_bytes (k_mem s2) (rq_data r) n = disk_block (k_disk s1) bno
  else if (rq_type r =? VIRTIO_BLK_T_OUT) && negb (rq_device_writes r) then k_disk s2 = disk_write bno (load_bytes (k_mem s1) (rq_data r) n) (k_disk s1) /\
    load_bytes (k_mem s2) (rq_data r) n = load_bytes (k_mem s1) (rq_data r) n
  else True.

(** [write] is 0 for a read.  The buffer is apart from the request's header and its status
    byte.  The conditions on [s2] are those of the return from the wait: the device has
    served the request, the interrupt handler has cleared the flag of the buffer, and the
    request's descriptors have not been touched. *)
Theorem disk_rw_served `{KD : KernelData} `{WF : WaitFuel} `{DD : DiskData} h me p T b x write a i0 i1 i2 l s :
  hw_wf h -> unnested h -> running h me -> at_lvl h 0 [] (k_hw (v_k s)) ->
  hw_locks h !! LkVdisk = Some free_lock -> hw_locks h !! LkProc me = Some free_lock ->
  k_procs (v_k s) !! me = Some p -> p_chain p = ChNull ->
  k_bufs (v_k s) !! b = Some x -> disk_wf (v_d s) -> vd_avail (v_d s) !! 1%nat = Some a -> 0 <= a < 2 ^ 16 ->
  free_list (v_d s) = i0 :: i1 :: i2 :: l ->
  pt_rep (k_mem (v_k s)) T -> T !! [] = Some kernel_page_table -> buf0_va <= MAX_VA ->
  leaf_addr T buf0_va <> Some NULL -> pte_valid (leaf (k_mem (v_k s)) T buf0_va) = true ->
  (status_addr i0 < buf0_pa (k_mem (v_k s)) T \/ buf0_pa (k_mem (v_k s)) T + 16 <= status_addr i0) ->
  (1 < wait_fuel)%nat ->
  0 <= b_blockno x < 2 ^ 31 -> block_ok (disk_block (k_disk (v_k s)) (b_blockno x)) ->
  (buf0_pa (k_mem (v_k s)) T + 16 <= buf_data b \/ buf_data b + BSIZE <= buf0_pa (k_mem (v_k s)) T) ->
  ~ buf_data b <= status_addr i0 < buf_data b + BSIZE ->
  exists s1 k r t, virtio_disk_rw b write s = Switch s1 k /\
    device_request (k_mem (v_k s1)) (v_d s1) = Some r /\ disk_rw b (negb (write =? 0)) (v_k s) = Ret tt t /\
    forall h2 s2 x2, hw_wf h2 -> unnested h2 -> hw_locks h2 !! LkVdisk = Some free_lock ->
      procs_free h2 [LkVdisk] -> (me < nprocs)%nat -> k_hw (v_k s2) = held_hw 0 [LkProc me] h2 ->
      length (k_procs (v_k s2)) = nprocs -> disk_wf (v_d s2) ->
      (forall i, i ∈ [i0; i1; i2] -> vd_desc (v_d s2) !! i = vd_desc (v_d s1) !! i /\ free_at (vd_free (v_d s2)) i = false) ->
      k_bufs (v_k s2) !! b = Some x2 -> b_disk x2 = 0 -> served r (v_k s1) (v_k s2) ->
      exists s3, k s2 = Ret tt s3 /\ k_disk (v_k s3) = k_disk t /\
        load_bytes (k_mem (v_k s3)) (buf_data b) block_bytes = load_bytes (k_mem t) (buf_data b) block_bytes.
Proof.
  intros Hwf Hun Hrun Hs Hl Hm Hp Hch Hx Hd Ha Har Hfl Hr HT Hva Hnn Hv Hst Hfuel Hbn Hok Hap Hap2.
  destruct (virtio_disk_rw_ok h me p T b x write a i0 i1 i2 l s Hwf Hun Hrun Hs Hl Hm Hp Hch Hx Hd Ha Har Hfl Hr HT Hva Hnn Hv Hst Hfuel)
    as (s1 & k & E & Hreq & Hmem & Hdisk & _ & _ & _ & _ & _ & _ & _ & _ & Hk).
  assert (load_bytes (k_mem (v_k s1)) (buf_data b) block_bytes = load_bytes (k_mem (v_k s)) (buf_data b) block_bytes) as Hsame.
  { apply load_bytes_ext. intros c Hc. change (Z.of_nat block_bytes) with BSIZE in Hc.
    rewrite Hmem, ld8_st8, decide_False by lia. apply ld8_header_outside. lia. }
  assert (u32 (b_blockno x * 2) * 512 / BSIZE = b_blockno x) as Hsec.
  { rewrite u32_small by lia. change BSIZE with 1024. lia. }
  set (t := if negb (write =? 0)
    then set_k_disk (disk_write (b_blockno x) (load_bytes (k_mem (v_k s)) (buf_data b) block_bytes) (k_disk (v_k s))) (v_k s)
    else set_k_mem (store_bytes (k_mem (v_k s)) (buf_data b) (disk_block (k_disk (v_k s)) (b_blockno x))) (v_k s)).
  eexists s1, k, _, t. split; [exact E|]. split; [exact Hreq|]. split.
  { unfold disk_rw. rret (read_buf_Ret b x (v_k s) Hx). unfold t. by destruct (negb (write =? 0)). }
  intros h2 s2 x2 H1 H2 H3 H4 H5 H6 H7 H8 H9 H10 H11 Hserved.
  destruct (Hk h2 s2 x2 H1 H2 H3 H4 H5 H6 H7 H8 H9 H10 H11) as (s3 & E3 & _ & Hm3 & Hd3 & _).
  exists s3. split; [exact E3|]. rewrite Hm3, Hd3. unfold served in Hserved. cbn [rq_sector rq_len rq_type rq_device_writes rq_data] in Hserved.
  change (Z.to_nat BSIZE) with block_bytes in Hserved. rewrite Hsec, Hdisk, Hsame in Hserved.
  subst t. destruct (write =? 0); cbn [negb] in *; destruct Hserved as [-> ->]; split; try done.
  change (disk_block (k_disk (v_k s)) (b_blockno x) =
    load_bytes (store_bytes (k_mem (v_k s)) (buf_data b) (disk_block (k_disk (v_k s)) (b_blockno x))) (buf_data b) block_bytes).
  by rewrite load_store_bytes.
Qed.
