(* ===== verification/Log.v ===== *)
(** * The write-ahead log: kernel/fs/log.c

    [k_log] is [log]; its in-memory header [lh] is the pair [lg_n], [lg_block].  The
    on-disk header has the count at byte 0 and the block numbers from byte 4. *)

From S2P Require Import Prelude Hart VmSystem Mem Kalloc State Sleep Bio.

Definition LOGHEADER_SIZE : Z := 4 + 4 * LOGSIZE.

Section Log.
Context `{KernelData} `{WaitFuel}.

Definition read_log : M kst log_st := gets k_log.

(** [log.lh.block[i]], inside the array. *)
Definition log_block (lg : log_st) (i : Z) : option Z := lg_block lg !! Z.to_nat i.

Definition install_trans : M kst unit :=
  lg ← read_log;
  for_each (Z.to_nat (lg_n lg)) 0 (fun tail =>
    lg ← read_log;
    lbuf ← bread (lg_dev lg) (u32 (lg_start lg + tail + 1));
    bno ← lift_opt (log_block lg tail);
    dbuf ← bread (lg_dev lg) (u32 bno);
    kmemmove (buf_data dbuf) (buf_data lbuf) BSIZE ;;
    bwrite dbuf ;;
    bunpin dbuf ;;
    brelse lbuf ;;
    brelse dbuf).

(** Writing past [lh.block] is undefined. *)
Definition set_log_block (i v : Z) : M kst unit :=
  lg ← read_log;
  _ ← lift_opt (log_block lg i);
  upd_log (fun lg => set_lg_block (<[Z.to_nat i := v]> (lg_block lg)) lg).

Definition read_head : M kst unit :=
  lg ← read_log;
  buf ← bread (lg_dev lg) (u32 (lg_start lg));
  n ← kld32 (buf_data buf);
  upd_log (set_lg_n (i32 n)) ;;
  lg ← read_log;
  for_each (Z.to_nat (lg_n lg)) 0 (fun i =>
    v ← kld32 (buf_data buf + 4 + 4 * i);
    set_log_block i (i32 v)) ;;
  brelse buf.

Definition write_head : M kst unit :=
  lg ← read_log;
  buf ← bread (lg_dev lg) (u32 (lg_start lg));
  kst32 (buf_data buf) (u32 (lg_n lg)) ;;
  for_each (Z.to_nat (lg_n lg)) 0 (fun i =>
    lg ← read_log;
    v ← lift_opt (log_block lg i);
    kst32 (buf_data buf + 4 + 4 * i) (u32 v)) ;;
  bwrite buf ;;
  brelse buf.

Definition recover_from_log : M kst unit :=
  read_head ;;
  install_trans ;;
  upd_log (set_lg_n 0) ;;
  write_head.

Definition initlog (dev : Z) (sb : superblock) : M kst unit :=
  if LOGHEADER_SIZE >=? BSIZE then panic "initlog: too big logheader" else
  hwdo (init_spin_lock LkLog) ;;
  upd_log (set_lg_start (i32 (sb_logstart sb))) ;;
  upd_log (set_lg_size (i32 (sb_nlog sb))) ;;
  upd_log (set_lg_dev dev) ;;
  recover_from_log.

Definition begin_op : M kst unit :=
  acquire LkLog ;;
  while_loop wait_fuel tt (fun _ =>
    lg ← read_log;
    if negb (lg_committing lg =? 0) then sleep_r ChLog LkLog ;; mret (inl tt) else
    if lg_n lg + (lg_outstanding lg + 1) * MAXOPBLOCKS >? LOGSIZE
    then sleep_r ChLog LkLog ;; mret (inl tt) else
    upd_log (fun lg => set_lg_outstanding (lg_outstanding lg + 1) lg) ;;
    release LkLog ;;
    mret (inr tt)).

Definition write_log : M kst unit :=
  lg ← read_log;
  for_each (Z.to_nat (lg_n lg)) 0 (fun tail =>
    lg ← read_log;
    to ← bread (lg_dev lg) (u32 (lg_start lg + tail + 1));
    bno ← lift_opt (log_block lg tail);
    from ← bread (lg_dev lg) (u32 bno);
    kmemmove (buf_data to) (buf_data from) BSIZE ;;
    bwrite to ;;
    brelse from ;;
    brelse to).

Definition commit : M kst unit :=
  lg ← read_log;
  if lg_n lg >? 0 then
    write_log ;;
    write_head ;;
    install_trans ;;
    upd_log (set_lg_n 0) ;;
    write_head
  else mret tt.

Definition end_op : M kst unit :=
  acquire LkLog ;;
  upd_log (fun lg => set_lg_outstanding (lg_outstanding lg - 1) lg) ;;
  lg ← read_log;
  if negb (lg_committing lg =? 0) then panic "log.committing" else
  do_commit ← (if lg_outstanding lg =? 0 then upd_log (set_lg_committing 1) ;; mret true
               else wake_up ChLog ;; mret false);
  release LkLog ;;
  if (do_commit : bool) then
    commit ;;
    acquire LkLog ;;
    upd_log (set_lg_committing 0) ;;
    wake_up ChLog ;;
    release LkLog
  else mret tt.

(** The search loop: the index of [b]'s block number, or [n]. *)
Fixpoint find_block (bno : Z) (l : list Z) (i : Z) : Z :=
  match l with
  | [] => i
  | x :: l' => if u32 x =? bno then i else find_block bno l' (i + 1)
  end.

Definition log_write (b : nat) : M kst unit :=
  lg ← read_log;
  if (lg_n lg >=? LOGSIZE) || (lg_n lg >=? lg_size lg - 1) then panic "too big a transaction" else
  if lg_outstanding lg <? 1 then panic "log_write outside of trans" else
  acquire LkLog ;;
  lg ← read_log;
  x ← read_buf b;
  let i := find_block (b_blockno x) (take (Z.to_nat (lg_n lg)) (lg_block lg)) 0 in
  set_log_block i (i32 (b_blockno x)) ;;
  (if i =? lg_n lg then
     bpin b ;; upd_log (fun lg => set_lg_n (lg_n lg + 1) lg)
   else mret tt) ;;
  release LkLog.

End Log.
