(* ===== verification/LogSpec.v ===== *)
(** * What the log promises: Log.v

    A crash cuts the sequence of block writes anywhere.  [replay] is what recovery
    makes of a disk; it does not change while a recovery runs, and along the writes
    of a commit it changes once, from the old contents of every home block to the
    new ones. *)

From stdpp Require Import functions.
From S2P Require Import Prelude Hart VmSystem Mem Kalloc State Critical Sleep SleepSpec Bio BioSpec Log.

(** ** The header block *)

Fixpoint list_le (n : nat) (l : list Z) (off : nat) : Z :=
  match n with O => 0 | S n' => default 0 (l !! off) + 256 * list_le n' l (S off) end.

Lemma load_le_list n m a len off :
  (off + n <= len)%nat -> load_le n m (a + Z.of_nat off) = list_le n (load_bytes m a len) off.
Proof.
  revert off. induction n as [|n IH]; intros off Hle; [done|]. cbn [load_le list_le].
  rewrite lookup_load_bytes by lia. cbn [default]. f_equal. f_equal.
  rewrite <- IH by lia. f_equal. lia.
Qed.

Lemma list_le_ext n l l' off :
  (forall i, (off <= i < off + n)%nat -> l !! i = l' !! i) -> list_le n l off = list_le n l' off.
Proof.
  revert off. induction n as [|n IH]; intros off Heq; [done|]. cbn [list_le].
  rewrite Heq by lia. f_equal. f_equal. apply IH. intros i Hi. apply Heq. lia.
Qed.

(** The count and the block numbers of a header. *)
Definition hdr_n (l : list Z) : Z := i32 (list_le 4 l 0).
Definition hdr_block (l : list Z) (i : nat) : Z := i32 (list_le 4 l (4 + 4 * i)).
Definition hdr_blocks (l : list Z) : list Z := map (hdr_block l) (seq 0 (Z.to_nat (hdr_n l))).

(** ** Disks and cut sequences of writes *)

Abbreviation dsk := (Z -> list Z).

Definition apply_writes (d : dsk) (W : list (Z * list Z)) : dsk :=
  foldl (fun d w => <[w.1 := w.2]> d) d W.

(** Copying the log blocks [start + 1 ..] to the blocks [bs]. *)
Fixpoint install (src : dsk) (start : Z) (bs : list Z) (i : Z) (d : dsk) : dsk :=
  match bs with
  | [] => d
  | b :: bs' => install src start bs' (i + 1) (<[b := src (start + i + 1)]> d)
  end.

(** What recovery makes of the disk [d]. *)
Definition replay (start : Z) (d : dsk) : dsk := install d start (hdr_blocks (d start)) 0 d.

Definition in_log (start b : Z) : Prop := start <= b <= start + LOGSIZE.

(** A header recovery can work with. *)
Record log_disk (start : Z) (d : dsk) : Prop := {
  ld_n : 0 <= hdr_n (d start) < LOGSIZE;
  ld_nodup : NoDup (hdr_blocks (d start));
  ld_home : Forall (fun b => 0 <= b < 2 ^ 31 /\ ~ in_log start b) (hdr_blocks (d start)) }.

Lemma apply_app d W1 W2 : apply_writes d (W1 ++ W2) = apply_writes (apply_writes d W1) W2.
Proof. apply foldl_app. Qed.

Lemma apply_ext d d' W : (forall c, d c = d' c) -> forall c, apply_writes d W c = apply_writes d' W c.
Proof.
  revert d d'. induction W as [|w W IH]; intros d d' E; [exact E|]. intros c. cbn [apply_writes foldl].
  apply (IH (<[w.1 := w.2]> d) (<[w.1 := w.2]> d')). intros b. destruct (decide (w.1 = b)) as [<-|Hne];
    [by rewrite !fn_lookup_insert|by rewrite !fn_lookup_insert_ne].
Qed.

Lemma apply_notin d W b : (forall w, w ∈ W -> w.1 <> b) -> apply_writes d W b = d b.
Proof.
  revert d. induction W as [|w W IH]; intros d Hn; [done|]. cbn [apply_writes foldl].
  change (apply_writes (<[w.1 := w.2]> d) W b = d b). rewrite IH by (intros; apply Hn; set_solver).
  apply fn_lookup_insert_ne. apply Hn. set_solver.
Qed.

Lemma apply_in d W b l :
  (b, l) ∈ W -> (forall w, w ∈ W -> w.1 = b -> w.2 = l) -> apply_writes d W b = l.
Proof.
  revert d. induction W as [|w W IH]; intros d Hin Hu; [set_solver|].
  change (apply_writes (<[w.1 := w.2]> d) W b = l).
  destruct (decide (b ∈ map fst W)) as [(w' & Hb & Hw')%list_elem_of_fmap|Hno].
  - apply IH; [|intros; apply Hu; set_solver]. destruct w' as [b' l']. cbn in Hb. subst b'.
    by rewrite <- (Hu (b, l') ltac:(set_solver) eq_refl).
  - rewrite apply_notin by (intros w' Hw' E; apply Hno, list_elem_of_fmap; by exists w').
    apply elem_of_cons in Hin as [<-|Hin]; [cbn; apply fn_lookup_insert|]. destruct Hno. apply list_elem_of_fmap. by exists (b, l).
Qed.

Lemma install_notin src start bs i d b : b ∉ bs -> install src start bs i d b = d b.
Proof.
  revert i d. induction bs as [|c bs IH]; intros i d Hb; [done|]. cbn [install].
  rewrite IH by set_solver. apply fn_lookup_insert_ne. set_solver.
Qed.

Lemma install_at src start bs i d k b :
  NoDup bs -> bs !! k = Some b -> install src start bs i d b = src (start + (i + Z.of_nat k) + 1).
Proof.
  revert i d k. induction bs as [|c bs IH]; intros i d k HND Hk; [done|]. apply NoDup_cons in HND as [Hc HND].
  cbn [install]. destruct k as [|k].
  - injection Hk as ->. rewrite install_notin by done. rewrite fn_lookup_insert. f_equal. lia.
  - cbn in Hk. rewrite (IH _ _ k HND Hk). f_equal. lia.
Qed.

(** The writes of an installation, and of copying blocks into the log. *)
Fixpoint rec_writes (src : dsk) (start : Z) (bs : list Z) (i : Z) : list (Z * list Z) :=
  match bs with
  | [] => []
  | b :: bs' => (b, src (start + i + 1)) :: rec_writes src start bs' (i + 1)
  end.
Fixpoint log_writes (v : dsk) (start : Z) (bs : list Z) (i : Z) : list (Z * list Z) :=
  match bs with
  | [] => []
  | b :: bs' => (start + i + 1, v b) :: log_writes v start bs' (i + 1)
  end.

Lemma apply_rec_writes src start bs i d : apply_writes d (rec_writes src start bs i) = install src start bs i d.
Proof. revert i d. induction bs as [|b bs IH]; intros i d; [done|]. apply IH. Qed.

Lemma rec_writes_ext src src' start bs i :
  (forall b, src b = src' b) -> rec_writes src start bs i = rec_writes src' start bs i.
Proof. intros E. revert i. induction bs as [|b bs IH]; intros i; cbn [rec_writes]; [done|]. by rewrite E, IH. Qed.

Lemma length_rec_writes src start bs i : length (rec_writes src start bs i) = length bs.
Proof. revert i. induction bs as [|b bs IH]; intros i; cbn; [done|by rewrite IH]. Qed.
Lemma length_log_writes v start bs i : length (log_writes v start bs i) = length bs.
Proof. revert i. induction bs as [|b bs IH]; intros i; cbn; [done|by rewrite IH]. Qed.

Lemma take_rec_writes src start bs i k : take k (rec_writes src start bs i) = rec_writes src start (take k bs) i.
Proof. revert i k. induction bs as [|b bs IH]; intros i [|k]; cbn; [done..|by rewrite IH]. Qed.

Lemma log_writes_elem v start bs i w :
  w ∈ log_writes v start bs i <-> exists k b, bs !! k = Some b /\ w = (start + (i + Z.of_nat k) + 1, v b).
Proof.
  revert i. induction bs as [|b bs IH]; intros i; cbn [log_writes].
  - split; [set_solver|by intros (k & b & ? & _)].
  - rewrite elem_of_cons, IH. split.
    + intros [->|(k & c & Hc & ->)]; [exists 0%nat, b|exists (S k), c]; (split; [done|]); do 2 f_equal; lia.
    + intros ([|k] & c & Hc & ->); [left; injection Hc as ->|right; exists k, c; split; [done|]]; do 2 f_equal; lia.
Qed.

Lemma i32_range x : - 2 ^ 31 <= i32 x < 2 ^ 31.
Proof. unfold i32. pose proof (Z.mod_pos_bound (x + 2 ^ 31) (2 ^ 32)). lia. Qed.

Lemma hdr_blocks_lookup l k b : hdr_blocks l !! k = Some b -> (k < Z.to_nat (hdr_n l))%nat.
Proof. intros Hk%lookup_lt_Some. unfold hdr_blocks in Hk. by rewrite length_map, length_seq in Hk. Qed.

Lemma replay_clear start d : hdr_n (d start) = 0 -> replay start d = d.
Proof. intros E. unfold replay, hdr_blocks. by rewrite E. Qed.

Lemma log_disk_clear start d : hdr_n (d start) = 0 -> log_disk start d.
Proof.
  intros E. assert (hdr_blocks (d start) = []) as Eb by (unfold hdr_blocks; by rewrite E).
  split; [rewrite E; unfold LOGSIZE, MAXOPBLOCKS; lia|rewrite Eb; constructor..].
Qed.

(** Nothing along a recovery changes what recovery makes of the disk. *)
Lemma recovery_cut start d H0 k :
  log_disk start d -> hdr_n H0 = 0 ->
  let d' := apply_writes d (take k (rec_writes d start (hdr_blocks (d start)) 0 ++ [(start, H0)])) in
  log_disk start d' /\ forall b, ~ in_log start b -> replay start d' b = replay start d b.
Proof.
  intros Hd E0. set (bs := hdr_blocks (d start)). cbn zeta.
  pose proof (ld_nodup _ _ Hd) as HND. pose proof (ld_home _ _ Hd) as HF. pose proof (ld_n _ _ Hd) as Hn. fold bs in HND, HF.
  rewrite Forall_forall in HF.
  assert (in_log start start) as Hstart by (unfold in_log, LOGSIZE, MAXOPBLOCKS; lia).
  rewrite take_app, length_rec_writes, take_rec_writes, apply_app, apply_rec_writes.
  set (d1 := install d start (take k bs) 0 d).
  assert (forall b, in_log start b -> d1 b = d b) as Hlog.
  { intros b Hb. apply install_notin. intros Hin. apply (subseteq_take k bs) in Hin. by destruct (HF b Hin). }
  assert (d1 start = d start) as Es by by apply Hlog.
  assert (forall j b, bs !! j = Some b -> install d1 start bs 0 d1 b = d (start + Z.of_nat j + 1)) as Hhome.
  { intros j b Hj. rewrite (install_at _ _ _ _ _ j b HND Hj). rewrite Hlog; [f_equal; lia|].
    apply hdr_blocks_lookup in Hj. unfold in_log. lia. }
  assert (forall b, ~ in_log start b -> install d1 start bs 0 d1 b = install d start bs 0 d b) as Hre.
  { intros b Hb. destruct (decide (b ∈ bs)) as [[j Hj]%list_elem_of_lookup|Hnb].
    - by rewrite (Hhome j b Hj), (install_at _ _ _ _ _ j b HND Hj).
    - rewrite !install_notin by done. unfold d1. apply install_notin. intros Hin. apply Hnb. by apply (subseteq_take k bs). }
  destruct (k - length bs)%nat as [|j] eqn:Ek.
  - cbn [take apply_writes foldl]. split.
    + split; rewrite Es; apply Hd.
    + intros b Hb. unfold replay. rewrite Es. fold bs. by apply Hre.
  - cbn [take apply_writes foldl fst snd]. set (d2 := <[start := H0]> d1).
    assert (d2 start = H0) as Es2 by apply fn_lookup_insert. rewrite firstn_nil. cbn [foldl].
    split; [apply log_disk_clear; by rewrite Es2|].
    intros b Hb. rewrite replay_clear by by rewrite Es2. unfold d2.
    rewrite fn_lookup_insert_ne by (intros <-; done). unfold d1, replay. fold bs. by rewrite take_ge by lia.
Qed.

Definition home_writes (v : dsk) (bs : list Z) : list (Z * list Z) := map (fun b => (b, v b)) bs.

Lemma rec_writes_home src v start bs i :
  (forall k b, bs !! k = Some b -> src (start + (i + Z.of_nat k) + 1) = v b) ->
  rec_writes src start bs i = home_writes v bs.
Proof.
  revert i. induction bs as [|b bs IH]; intros i Hs; [done|]. cbn [rec_writes home_writes map]. f_equal.
  - rewrite <- (Hs 0%nat b eq_refl). do 2 f_equal. lia.
  - apply IH. intros k c Hc. rewrite <- (Hs (S k) c Hc). f_equal. lia.
Qed.

(** The home blocks take the contents [v]. *)
Definition updated (d v : dsk) (bs : list Z) (b : Z) : list Z := if decide (b ∈ bs) then v b else d b.

Definition commit_writes (v : dsk) (start : Z) (bs : list Z) (H1 H0 : list Z) : list (Z * list Z) :=
  log_writes v start bs 0 ++ (start, H1) :: home_writes v bs ++ [(start, H0)].

(** Along the writes of a commit recovery first gives the old contents of all home
    blocks, and from the write of the header on the new ones. *)
Lemma commit_cut start d v bs H1 H0 k :
  hdr_n (d start) = 0 -> hdr_blocks H1 = bs -> 0 <= hdr_n H1 < LOGSIZE -> hdr_n H0 = 0 ->
  NoDup bs -> Forall (fun b => 0 <= b < 2 ^ 31 /\ ~ in_log start b) bs ->
  let d' := apply_writes d (take k (commit_writes v start bs H1 H0)) in
  log_disk start d' /\
  forall b, ~ in_log start b ->
    replay start d' b = if decide (k <= length bs)%nat then d b else updated d v bs b.
Proof.
  intros Ed E1 Hn1 E0 HND HF. cbn zeta. unfold commit_writes.
  assert (length bs = Z.to_nat (hdr_n H1)) as Hlen by (rewrite <- E1; unfold hdr_blocks; by rewrite length_map, length_seq).
  assert (forall w, w ∈ log_writes v start bs 0 -> in_log start w.1 /\ w.1 <> start) as Hlw.
  { intros w (j & b & Hj%lookup_lt_Some & ->)%log_writes_elem. unfold in_log. cbn. lia. }
  rewrite take_app, length_log_writes. case_decide as Hk.
  - replace (k - length bs)%nat with 0%nat by lia. rewrite take_0, app_nil_r.
    set (d' := apply_writes _ _).
    assert (forall b, b = start \/ ~ in_log start b -> d' b = d b) as Hd'.
    { intros b Hb. apply apply_notin. intros w Hw E. apply (subseteq_take k) in Hw.
      destruct (Hlw w Hw). destruct Hb as [->|Hb]; [done|by rewrite <- E in Hb]. }
    split; [apply log_disk_clear; rewrite Hd'; auto|].
    intros b Hb. rewrite replay_clear by (rewrite Hd'; auto). apply Hd'. auto.
  - rewrite take_ge by (rewrite length_log_writes; lia). destruct (k - length bs)%nat as [|j] eqn:Ek; [lia|]. cbn [take].
    rewrite apply_app. set (d0 := apply_writes d (log_writes v start bs 0)).
    change ((start, H1) :: take j ?X) with ([(start, H1)] ++ take j X). rewrite apply_app.
    set (d1 := apply_writes d0 [(start, H1)]).
    assert (d1 start = H1) as Es by apply fn_lookup_insert.
    assert (forall i b, bs !! i = Some b -> d1 (start + (0 + Z.of_nat i) + 1) = v b) as Hlog.
    { intros i b Hi. unfold d1, apply_writes. cbn [foldl fst snd]. rewrite fn_lookup_insert_ne by lia.
      change (d0 (start + (0 + Z.of_nat i) + 1) = v b). apply apply_in.
      - apply log_writes_elem. by exists i, b.
      - intros w (i' & b' & Hi' & ->)%log_writes_elem. cbn. intros E.
        assert (i' = i) as -> by lia. congruence. }
    assert (log_disk start d1) as Hd1 by (split; rewrite Es, ?E1; done).
    pose proof (recovery_cut start d1 H0 j Hd1 E0) as Hcut. rewrite Es, E1 in Hcut.
    rewrite (rec_writes_home d1 v start bs 0 Hlog) in Hcut. destruct Hcut as [Hld Hrp]. split; [exact Hld|].
    intros b Hb. rewrite (Hrp b Hb). unfold replay, updated. rewrite Es, E1. case_decide as Hin.
    + apply list_elem_of_lookup in Hin as [i Hi]. by rewrite (install_at _ _ _ _ _ i b HND Hi), (Hlog i b Hi).
    + rewrite install_notin by done. unfold d1, apply_writes. cbn [foldl fst snd].
      rewrite fn_lookup_insert_ne by (intros <-; apply Hb; unfold in_log, LOGSIZE, MAXOPBLOCKS; lia).
      apply apply_notin. intros w Hw E. destruct (Hlw w Hw) as [Hw1 _]. by rewrite E in Hw1.
Qed.

(** ** The operations *)

Lemma u32_pred_succ r : 0 <= r < 2 ^ 32 -> u32 (u32 (r + 1) - 1) = r.
Proof.
  intros Hr. unfold u32. rewrite Zminus_mod_idemp_l. replace (r + 1 - 1) with r by lia. by apply Z.mod_small.
Qed.

Lemma held_cons a b i c j :
  bs_held (bs_set_held b (Some i) a) !! c = Some j -> c = b /\ j = i \/ bs_held a !! c = Some j.
Proof.
  cbn. rewrite lookup_opt. case_decide; [|by right]. intros [= <-]. by left.
Qed.

Lemma set_ref_size a b r : (size (bs_ref (bs_set_ref b r a)) <= S (size (bs_ref a)))%nat.
Proof.
  unfold bs_set_ref; cbn [bs_ref]. unfold cnt. case_decide.
  - change (partial_alter (fun _ => None) b (bs_ref a)) with (delete b (bs_ref a)).
    rewrite map_size_delete. destruct (bs_ref a !! b); cbn; lia.
  - change (partial_alter (fun _ => Some r) b (bs_ref a)) with (<[b := r]> (bs_ref a)).
    rewrite map_size_insert. destruct (bs_ref a !! b); cbn; lia.
Qed.

Lemma set_ref_size_in a b r : ref_of a b <> 0 -> (size (bs_ref (bs_set_ref b r a)) <= size (bs_ref a))%nat.
Proof.
  intros Hne. assert (is_Some (bs_ref a !! b)) as [x Hx].
  { unfold ref_of in Hne. destruct (bs_ref a !! b); [done|done]. }
  unfold bs_set_ref; cbn [bs_ref]. unfold cnt. case_decide.
  - change (partial_alter (fun _ => None) b (bs_ref a)) with (delete b (bs_ref a)).
    rewrite map_size_delete, Hx. cbn; lia.
  - change (partial_alter (fun _ => Some r) b (bs_ref a)) with (<[b := r]> (bs_ref a)).
    rewrite map_size_insert, Hx. cbn; lia.
Qed.

Lemma rec_writes_snoc src start bs b i :
  rec_writes src start (bs ++ [b]) i =
  rec_writes src start bs i ++ [(b, src (start + (i + Z.of_nat (length bs)) + 1))].
Proof.
  revert i. induction bs as [|c bs IH]; intros i; cbn [app rec_writes length].
  - cbn [app]. do 3 f_equal. lia.
  - cbn [app]. rewrite IH. do 5 f_equal. lia.
Qed.

Lemma log_writes_snoc v start bs b i :
  log_writes v start (bs ++ [b]) i =
  log_writes v start bs i ++ [(start + (i + Z.of_nat (length bs)) + 1, v b)].
Proof.
  revert i. induction bs as [|c bs IH]; intros i; cbn [app log_writes length].
  - cbn [app]. do 3 f_equal. lia.
  - cbn [app]. rewrite IH. do 4 f_equal. lia.
Qed.

Lemma apply_snoc d d' W x l :
  (forall c, d' c = apply_writes d W c) ->
  forall c, (<[x := l]> d') c = apply_writes d (W ++ [(x, l)]) c.
Proof. intros E c. rewrite apply_app. by apply fn_insert_ext. Qed.

Lemma read_log_Ret lg s : k_log s = lg -> read_log s = Ret lg s.
Proof. by intros <-. Qed.

Lemma log_of s s' : others s' = others s -> k_log s' = k_log s.
Proof. unfold others. by intros [= _ _ _ _ _ _ _ E _ _ _ _ _ _]. Qed.

Section LogOps.
Context `{KernelData} `{WaitFuel}.
Variables (h : hw) (me : nat) (p : process) (lg : log_st).
Hypothesis He : bio_env h me p.
Let D := lg_dev lg.
Let start := lg_start lg.
Hypothesis Hstart : 0 <= start /\ start + LOGSIZE < 2 ^ 31.

Abbreviation rep := (bio_rep h me p D).

(** Two locked blocks: the log block [L] and its home block [b]. *)
Lemma two_bufs a s L b :
  rep a s -> bs_held a = ∅ -> L <> b -> ref_of a L = 0 ->
  ref_of a b <> 0 /\ (size (bs_ref a) < nbufs)%nat \/ (S (size (bs_ref a)) < nbufs)%nat ->
  exists i j s1 s2, bread D L s = Ret i s1 /\ bread D b s1 = Ret j s2 /\ i <> j /\
    rep (bs_set_held b (Some j) (bs_set_ref b (u32 (ref_of a b + 1))
          (bs_set_held L (Some i) (bs_set_ref L 1 a)))) s2 /\
    others s1 = others s /\ others s2 = others s /\ k_disk s2 = k_disk s /\ bufs_only (k_mem s) (k_mem s2).
Proof.
  intros Hr Hh Hne HL Hcap.
  destruct (bread_ok h me p D He a s L Hr) as (i & s1 & E1 & Hr1 & Ho1 & _ & Hd1 & Hm1).
  { by rewrite Hh. } { intros c j. by rewrite Hh. } { right. destruct Hcap; lia. }
  rewrite HL in Hr1. change (u32 (0 + 1)) with 1 in Hr1. set (a1 := bs_set_held L (Some i) (bs_set_ref L 1 a)) in Hr1.
  assert (forall c, ref_of a1 c = if decide (L = c) then 1 else ref_of a c) as Hrc by apply ref_of_set.
  destruct (bread_ok h me p D He a1 s1 b Hr1) as (j & s2 & E2 & Hr2 & Ho2 & _ & Hd2 & Hm2).
  { cbn. rewrite lookup_opt, decide_False, Hh by done. done. }
  { intros c j [[-> _]|Hj]%held_cons; [by rewrite Hrc, decide_True|cbn in Hj; by rewrite Hh in Hj]. }
  { rewrite Hrc, decide_False by done. pose proof (set_ref_size a L 1). destruct Hcap as [[? _]|?]; [by left|right]. cbn in *. lia. }
  rewrite Hrc, decide_False in Hr2 by done.
  exists i, j, s1, s2. split_and!; try done; [|congruence|congruence|by eapply bufs_only_trans].
  intros <-. assert (bs_held (bs_set_held b (Some i) (bs_set_ref b (u32 (ref_of a b + 1)) a1)) !! L = Some i) as HhL.
  { cbn. rewrite lookup_opt, decide_False, lookup_opt, decide_True by done. done. }
  assert (bs_held (bs_set_held b (Some i) (bs_set_ref b (u32 (ref_of a b + 1)) a1)) !! b = Some i) as Hhb.
  { cbn. by rewrite lookup_opt, decide_True. }
  destruct (held_buf h me p D _ s2 L i Hr2 HhL) as (x & Hx & _ & HnL & _).
  destruct (held_buf h me p D _ s2 b i Hr2 Hhb) as (y & Hy & _ & Hnb & _). congruence.
Qed.

(** The bodies of the loops of [install_trans] and [write_log]. *)
Definition install_one (tail : Z) : M kst unit :=
  lg ← read_log;
  lbuf ← bread (lg_dev lg) (u32 (lg_start lg + tail + 1));
  bno ← lift_opt (log_block lg tail);
  dbuf ← bread (lg_dev lg) (u32 bno);
  kmemmove (buf_data dbuf) (buf_data lbuf) BSIZE ;;
  bwrite dbuf ;;
  bunpin dbuf ;;
  brelse lbuf ;;
  brelse dbuf.

Definition write_one (tail : Z) : M kst unit :=
  lg ← read_log;
  to ← bread (lg_dev lg) (u32 (lg_start lg + tail + 1));
  bno ← lift_opt (log_block lg tail);
  from ← bread (lg_dev lg) (u32 bno);
  kmemmove (buf_data to) (buf_data from) BSIZE ;;
  bwrite to ;;
  brelse from ;;
  brelse to.

Lemma bs_ext a a' :
  bs_view a = bs_view a' -> bs_disk a = bs_disk a' -> (forall c, bs_ref a !! c = bs_ref a' !! c) ->
  (forall c, bs_held a !! c = bs_held a' !! c) -> a = a'.
Proof.
  destruct a, a'; cbn. intros -> -> E1 E2. f_equal; by apply map_eq.
Qed.

Lemma install_one_step a s t b :
  rep a s -> k_log s = lg -> log_block lg t = Some b -> 0 <= b < 2 ^ 31 -> ~ in_log start b ->
  0 <= t < LOGSIZE -> bs_held a = ∅ -> ref_of a (start + t + 1) = 0 ->
  ref_of a b <> 0 /\ (size (bs_ref a) < nbufs)%nat \/ (S (size (bs_ref a)) < nbufs)%nat ->
  let l := bs_view a (start + t + 1) in
  exists s', install_one t s = Ret tt s' /\
    rep (bs_set_ref b (u32 (ref_of a b - 1)) (bs_set_disk b l (bs_set_view b l a))) s' /\
    others s' = others s /\ d_trace (k_disk s') = (b, l) :: d_trace (k_disk s) /\
    bufs_only (k_mem s) (k_mem s').
Proof.
  intros Hr Hlg Hb Hbr Hnl Ht Hh HL Hcap l. set (L := start + t + 1) in *.
  assert (L <> b) as Hne by (intros <-; apply Hnl; unfold in_log, L; lia).
  destruct (two_bufs a s L b Hr Hh Hne HL Hcap) as (i & j & s1 & s2 & E1 & E2 & Hij & Hr2 & Ho1 & Ho2 & Hd2 & Hm2).
  set (a2 := bs_set_held b (Some j) _) in Hr2.
  assert (bs_held a2 !! b = Some j) as Hhb by (cbn; by rewrite lookup_opt, decide_True).
  assert (bs_held a2 !! L = Some i) as HhL.
  { cbn. by rewrite lookup_opt, decide_False, lookup_opt, decide_True by done. }
  destruct (bcopy_ok h me p D a2 s2 b j L i Hr2 Hhb HhL ltac:(done)) as (s3 & E3 & Hr3 & Ho3 & _ & Hd3 & Hm3).
  change (bs_view a2 L) with l in Hr3. set (a3 := bs_set_view b l a2) in Hr3.
  destruct (bwrite_ok h me p D He a3 s3 b j Hr3 Hhb) as (s4 & E4 & Hr4 & Ho4 & _ & Hm4 & Ht4).
  assert (bs_view a3 b = l) as Hv3 by apply fn_lookup_insert. rewrite Hv3 in Hr4, Ht4.
  set (a4 := bs_set_disk b l a3) in Hr4.
  destruct (held_buf h me p D a4 s4 b j Hr4 Hhb) as (bb & Hbb & Hdb & Hnb & _).
  assert (bs_view a4 b = bs_disk a4 b) as Hcl by (cbn; by rewrite !fn_lookup_insert).
  destruct (bunpin_ok h me p D He a4 s4 b j bb Hr4 Hbb Hdb Hnb ltac:(done)) as (s5 & E5 & Hr5 & Ho5 & _ & Hm5 & Hd5).
  set (a5 := bs_set_ref b _ a4) in Hr5.
  assert (ref_of a5 L = 1) as HrL.
  { unfold a5. rewrite ref_of_set, decide_False by done. change (ref_of a2 L = 1). unfold a2.
    rewrite ref_of_held, ref_of_set, decide_False, ref_of_held, ref_of_set, decide_True by done. done. }
  assert (bs_view a5 L = bs_disk a5 L) as HclL.
  { cbn. rewrite !fn_lookup_insert_ne by done. apply (bc_clean _ _ _ _ _ (br_content _ _ _ _ _ _ Hr)); [|by rewrite Hh].
    unfold ref_of in HL. destruct (bs_ref a !! L) eqn:E; [|done]. cbn in HL. subst.
    destruct (bc_ref _ _ _ _ _ (br_content _ _ _ _ _ _ Hr) _ _ E). lia. }
  destruct (brelse_ok h me p D He a5 s5 L i Hr5 HhL ltac:(done)) as (s6 & E6 & Hr6 & Ho6 & _ & Hm6 & Hd6).
  set (a6 := bs_set_held L None _) in Hr6.
  assert (bs_held a6 !! b = Some j) as Hhb6 by (cbn; by rewrite lookup_opt, decide_False).
  destruct (brelse_ok h me p D He a6 s6 b j Hr6 Hhb6) as (s7 & E7 & Hr7 & Ho7 & _ & Hm7 & Hd7).
  { intros _. cbn. by rewrite !fn_lookup_insert. }
  exists s7. split_and!.
  - unfold install_one. rret (read_log_Ret lg s Hlg). change (lg_dev lg) with D. change (lg_start lg) with start.
    fold L. assert (u32 L = L) as -> by (apply u32_small; unfold L, LOGSIZE, MAXOPBLOCKS in *; lia).
    rret E1. rewrite Hb. cbn [lift_opt]. rewrite bind_mret. rewrite (u32_small b) by lia. rret E2. rret E3. rret E4. rret E5.
    rret E6. exact E7.
  - set (a7 := bs_set_held b None _) in Hr7. match goal with |- rep ?x s7 => replace x with a7; [exact Hr7|] end.
    pose proof (ref_of_range p D a _ _ b (br_content _ _ _ _ _ _ Hr)) as Hrg.
    assert (ref_of a2 b = u32 (ref_of a b + 1)) as R2 by (unfold a2; by rewrite ref_of_held, ref_of_set, decide_True).
    assert (ref_of a5 b = ref_of a b) as R5.
    { unfold a5. rewrite ref_of_set, decide_True by done. change (ref_of a4 b) with (ref_of a2 b). rewrite R2. by apply u32_pred_succ. }
    assert (ref_of a6 b = ref_of a b) as R6 by (unfold a6; by rewrite ref_of_held, ref_of_set, decide_False).
    unfold a7. rewrite R6. apply bs_ext; try done.
    + intros c. cbn [bs_ref bs_set_held bs_set_ref bs_set_disk bs_set_view a6 a5 a4 a3 a2]. rewrite !lookup_cnt.
      destruct (decide (b = c)) as [<-|Hbc]; [done|]. rewrite HrL. destruct (decide (L = c)) as [<-|]; [|done].
      change (u32 (1 - 1)) with 0. unfold ref_of in HL. destruct (bs_ref a !! L) as [r|] eqn:E; [|done].
      cbn in HL. subst r. destruct (bc_ref _ _ _ _ _ (br_content _ _ _ _ _ _ Hr) _ _ E). lia.
    + intros c. cbn [bs_held bs_set_held bs_set_ref bs_set_disk bs_set_view a6 a5 a4 a3 a2]. rewrite !lookup_opt.
      rewrite Hh. repeat case_decide; done.
  - congruence.
  - rewrite Hd7, Hd6, Hd5, Ht4, Hd3, Hd2. done.
  - eapply bufs_only_trans; [exact Hm2|]. eapply bufs_only_trans; [exact Hm3|]. rewrite Hm7, Hm6, Hm5, Hm4. done.
Qed.

Lemma no_ref_no_entry a s c : rep a s -> ref_of a c = 0 -> bs_ref a !! c = None.
Proof.
  intros Hr Hc. unfold ref_of in Hc. destruct (bs_ref a !! c) as [r|] eqn:E; [|done]. cbn in Hc. subst r.
  destruct (bc_ref _ _ _ _ _ (br_content _ _ _ _ _ _ Hr) _ _ E). lia.
Qed.

Lemma write_step a s t b :
  rep a s -> k_log s = lg -> log_block lg t = Some b -> 0 <= b < 2 ^ 31 -> ~ in_log start b ->
  0 <= t < LOGSIZE -> bs_held a = ∅ -> ref_of a (start + t + 1) = 0 ->
  ref_of a b <> 0 -> (size (bs_ref a) < nbufs)%nat ->
  let l := bs_view a b in
  exists s', write_one t s = Ret tt s' /\
    rep (bs_set_disk (start + t + 1) l (bs_set_view (start + t + 1) l a)) s' /\
    others s' = others s /\ d_trace (k_disk s') = (start + t + 1, l) :: d_trace (k_disk s) /\
    bufs_only (k_mem s) (k_mem s').
Proof.
  intros Hr Hlg Hb Hbr Hnl Ht Hh HL Hrb Hcap l. set (L := start + t + 1) in *.
  assert (L <> b) as Hne by (intros <-; apply Hnl; unfold in_log, L; lia).
  destruct (two_bufs a s L b Hr Hh Hne HL ltac:(by left)) as (i & j & s1 & s2 & E1 & E2 & Hij & Hr2 & Ho1 & Ho2 & Hd2 & Hm2).
  set (a2 := bs_set_held b (Some j) _) in Hr2.
  assert (bs_held a2 !! b = Some j) as Hhb by (cbn; by rewrite lookup_opt, decide_True).
  assert (bs_held a2 !! L = Some i) as HhL.
  { cbn. by rewrite lookup_opt, decide_False, lookup_opt, decide_True by done. }
  destruct (bcopy_ok h me p D a2 s2 L i b j Hr2 HhL Hhb ltac:(done)) as (s3 & E3 & Hr3 & Ho3 & _ & Hd3 & Hm3).
  change (bs_view a2 b) with l in Hr3. set (a3 := bs_set_view L l a2) in Hr3.
  destruct (bwrite_ok h me p D He a3 s3 L i Hr3 HhL) as (s4 & E4 & Hr4 & Ho4 & _ & Hm4 & Ht4).
  assert (bs_view a3 L = l) as Hv3 by apply fn_lookup_insert. rewrite Hv3 in Hr4, Ht4.
  set (a4 := bs_set_disk L l a3) in Hr4.
  pose proof (ref_of_range p D a _ _ b (br_content _ _ _ _ _ _ Hr)) as Hrg.
  assert (ref_of a4 b = u32 (ref_of a b + 1)) as R4.
  { change (ref_of a2 b = u32 (ref_of a b + 1)). unfold a2. by rewrite ref_of_held, ref_of_set, decide_True. }
  destruct (brelse_ok h me p D He a4 s4 b j Hr4 Hhb) as (s5 & E5 & Hr5 & Ho5 & _ & Hm5 & Hd5).
  { rewrite R4, u32_pred_succ by done. done. }
  rewrite R4, u32_pred_succ in Hr5 by done. set (a5 := bs_set_held b None _) in Hr5.
  assert (bs_held a5 !! L = Some i) as HhL5 by (cbn; by rewrite lookup_opt, decide_False).
  destruct (brelse_ok h me p D He a5 s5 L i Hr5 HhL5) as (s6 & E6 & Hr6 & Ho6 & _ & Hm6 & Hd6).
  { intros _. cbn. by rewrite !fn_lookup_insert. }
  exists s6. split_and!.
  - unfold write_one. rret (read_log_Ret lg s Hlg). change (lg_dev lg) with D. change (lg_start lg) with start.
    fold L. assert (u32 L = L) as -> by (apply u32_small; unfold L, LOGSIZE, MAXOPBLOCKS in *; lia).
    rret E1. rewrite Hb. cbn [lift_opt]. rewrite bind_mret. rewrite (u32_small b) by lia. rret E2. rret E3. rret E4. rret E5.
    exact E6.
  - set (a6 := bs_set_held L None _) in Hr6. match goal with |- rep ?x s6 => replace x with a6; [exact Hr6|] end.
    assert (ref_of a5 L = 1) as R5.
    { unfold a5. rewrite ref_of_held, ref_of_set, decide_False by done. change (ref_of a2 L = 1). unfold a2.
      rewrite ref_of_held, ref_of_set, decide_False, ref_of_held, ref_of_set, decide_True by done. done. }
    unfold a6. rewrite R5. apply bs_ext; try done.
    + intros c. cbn [bs_ref bs_set_held bs_set_ref bs_set_disk bs_set_view a5 a4 a3 a2]. rewrite !lookup_cnt.
      change (u32 (1 - 1)) with 0. destruct (decide (L = c)) as [<-|]; [by rewrite (no_ref_no_entry a s L)|].
      destruct (decide (b = c)) as [<-|]; [|done]. unfold cnt. rewrite decide_False by done.
      unfold ref_of in *. by destruct (bs_ref a !! b).
    + intros c. cbn [bs_held bs_set_held bs_set_ref bs_set_disk bs_set_view a5 a4 a3 a2]. rewrite !lookup_opt.
      rewrite Hh. repeat case_decide; done.
  - congruence.
  - rewrite Hd6, Hd5, Ht4, Hd3, Hd2. done.
  - eapply bufs_only_trans; [exact Hm2|]. eapply bufs_only_trans; [exact Hm3|]. rewrite Hm6, Hm5, Hm4. done.
Qed.

(** The blocks of the transaction. *)
Definition tx_blocks : list Z := take (Z.to_nat (lg_n lg)) (lg_block lg).

Record tx_ok : Prop := {
  tx_n : 0 <= lg_n lg < LOGSIZE;
  tx_len : (Z.to_nat (lg_n lg) <= length (lg_block lg))%nat;
  tx_nodup : NoDup tx_blocks;
  tx_home : Forall (fun b => 0 <= b < 2 ^ 31 /\ ~ in_log start b) tx_blocks }.

Hypothesis Htx : tx_ok.

Lemma length_tx : length tx_blocks = Z.to_nat (lg_n lg).
Proof using Htx. unfold tx_blocks. rewrite length_take. destruct Htx. lia. Qed.

Lemma tx_at t : 0 <= t < lg_n lg ->
  exists b, tx_blocks !! Z.to_nat t = Some b /\ log_block lg t = Some b /\ 0 <= b < 2 ^ 31 /\ ~ in_log start b /\
    take (Z.to_nat (t + 1)) tx_blocks = (take (Z.to_nat t) tx_blocks ++ [b]) /\ (b ∉ take (Z.to_nat t) tx_blocks) /\
    length (take (Z.to_nat t) tx_blocks) = Z.to_nat t.
Proof using Htx.
  intros Ht. destruct (lookup_lt_is_Some_2 tx_blocks (Z.to_nat t)) as [b Hb]; [rewrite length_tx; lia|].
  exists b. split; [done|]. split; [|split; [|split; [|split; [|split]]]].
  - unfold tx_blocks in Hb. rewrite lookup_take_lt in Hb by lia. exact Hb.
  - pose proof (tx_home Htx) as HF. rewrite Forall_lookup in HF. by destruct (HF _ _ Hb).
  - pose proof (tx_home Htx) as HF. rewrite Forall_lookup in HF. by destruct (HF _ _ Hb).
  - replace (Z.to_nat (t + 1)) with (S (Z.to_nat t)) by lia. by apply take_S_r.
  - intros (i & Hi & Hlt)%elem_of_take. pose proof (NoDup_lookup _ _ _ _ (tx_nodup Htx) Hi Hb). lia.
  - rewrite length_take, length_tx. lia.
Qed.

Lemma tx_notin_log b k : in_log start b -> b ∉ take k tx_blocks.
Proof using Htx.
  intros Hb Hin. apply subseteq_take in Hin. pose proof (tx_home Htx) as HF. rewrite Forall_forall in HF.
  by destruct (HF b Hin).
Qed.

(** The state after the first block writes [W] of a loop. *)
Record after (a : bstore) (s : kst) (W : list (Z * list Z)) (a' : bstore) (s' : kst) : Prop := {
  af_rep : rep a' s';
  af_others : others s' = others s;
  af_trace : d_trace (k_disk s') = rev W ++ d_trace (k_disk s);
  af_mem : bufs_only (k_mem s) (k_mem s');
  af_held : bs_held a' = ∅;
  af_view : forall c, bs_view a' c = apply_writes (bs_view a) W c;
  af_disk : forall c, bs_disk a' c = apply_writes (bs_disk a) W c }.

Definition pinned (a : bstore) : Prop := Forall (fun b => ref_of a b <> 0) tx_blocks.
Definition log_unused (a : bstore) : Prop := forall c, in_log start c -> ref_of a c = 0.

Lemma write_log_ok a s :
  rep a s -> k_log s = lg -> bs_held a = ∅ -> log_unused a -> pinned a -> (size (bs_ref a) < nbufs)%nat ->
  exists a' s', write_log s = Ret tt s' /\
    after a s (log_writes (bs_view a) start tx_blocks 0) a' s' /\ bs_ref a' = bs_ref a.
Proof.
  intros Hr Hlg Hh Hun Hpin Hsz.
  assert (runs write_log s (fun _ s' => exists a',
    after a s (log_writes (bs_view a) start tx_blocks 0) a' s' /\ bs_ref a' = bs_ref a)) as Hruns.
  { unfold write_log. apply runs_bind. eapply runs_eq; [by apply read_log_Ret|].
    pose proof (tx_n Htx) as Hn.
    apply (runs_for_each _ 0 write_one (fun t s' => exists a',
      after a s (log_writes (bs_view a) start (take (Z.to_nat t) tx_blocks) 0) a' s' /\ bs_ref a' = bs_ref a)).
    - exists a. split; [|done]. by split.
    - intros t s1 Ht (a1 & [Hr1 Ho1 Ht1 Hm1 Hh1 Hv1 Hd1] & Href).
      destruct (tx_at t ltac:(lia)) as (b & Hb & Hlb & Hbr & Hnl & Etk & Hnin & Hltk).
      assert (forall c, ref_of a1 c = ref_of a c) as Hrc by (intros c; unfold ref_of; by rewrite Href).
      destruct (write_step a1 s1 t b Hr1) as (s2 & E2 & Hr2 & Ho2 & Ht2 & Hm2); try done; try lia.
      { rewrite (log_of s s1 Ho1). done. }
      { rewrite Hrc. apply Hun. unfold in_log. lia. }
      { rewrite Hrc. unfold pinned in Hpin. rewrite Forall_lookup in Hpin. by apply (Hpin _ _ Hb). }
      { by rewrite Href. }
      assert (bs_view a1 b = bs_view a b) as Evb.
      { rewrite Hv1. apply apply_notin. intros w (j & c & Hj & ->)%log_writes_elem. cbn.
        apply lookup_lt_Some in Hj. intros <-. apply Hnl. unfold in_log. lia. }
      rewrite Evb in Hr2, Ht2. eapply runs_eq; [exact E2|]. eexists (bs_set_disk _ _ (bs_set_view _ _ a1)). split; [|exact Href].
      rewrite Etk, log_writes_snoc, Hltk, Z2Nat.id, Z.add_0_l by lia.
      split; [exact Hr2|congruence|rewrite Ht2, Ht1, rev_unit; done|by eapply bufs_only_trans|done|..]; by apply apply_snoc.
    - intros s' H3. rewrite Z.add_0_l, Nat2Z.id in H3. by rewrite take_ge in H3 by (rewrite length_tx; lia). }
  apply runs_elim in Hruns as ([] & s' & E & a' & Ha & Hra). by exists a', s'.
Qed.

Definition unref (a : bstore) (bs : list Z) (c : Z) : Z :=
  if decide (c ∈ bs) then u32 (ref_of a c - 1) else ref_of a c.

Lemma install_trans_ok a s :
  rep a s -> k_log s = lg -> bs_held a = ∅ -> log_unused a ->
  pinned a /\ (size (bs_ref a) < nbufs)%nat \/ Z.of_nat (size (bs_ref a)) + lg_n lg < NBUF ->
  exists a' s', install_trans s = Ret tt s' /\
    after a s (rec_writes (bs_view a) start tx_blocks 0) a' s' /\
    (forall c, ref_of a' c = unref a tx_blocks c) /\ (size (bs_ref a') < nbufs)%nat.
Proof.
  intros Hr Hlg Hh Hun Hcap. pose proof (tx_n Htx) as Hn.
  set (pin := pinned a /\ (size (bs_ref a) < nbufs)%nat) in Hcap.
  assert (runs install_trans s (fun _ s' => exists a',
    after a s (rec_writes (bs_view a) start tx_blocks 0) a' s' /\
    (forall c, ref_of a' c = unref a tx_blocks c) /\ (size (bs_ref a') < nbufs)%nat)) as Hruns.
  { unfold install_trans. apply runs_bind. eapply runs_eq; [by apply read_log_Ret|].
    apply (runs_for_each _ 0 install_one (fun t s' => exists a',
      after a s (rec_writes (bs_view a) start (take (Z.to_nat t) tx_blocks) 0) a' s' /\
      (forall c, ref_of a' c = unref a (take (Z.to_nat t) tx_blocks) c) /\
      (pin -> (size (bs_ref a') <= size (bs_ref a))%nat) /\
      (Z.of_nat (size (bs_ref a')) <= Z.of_nat (size (bs_ref a)) + t))).
    - exists a. split; [by split|]. split; [|split; [done|lia]]. intros c. unfold unref. by rewrite decide_False by set_solver.
    - intros t s1 Ht (a1 & [Hr1 Ho1 Ht1 Hm1 Hh1 Hv1 Hd1] & Href & Hs1 & Hs2).
      destruct (tx_at t ltac:(lia)) as (b & Hb & Hlb & Hbr & Hnl & Etk & Hnin & Hltk).
      assert (ref_of a1 b = ref_of a b) as Hrb by (rewrite Href; unfold unref; by rewrite decide_False).
      assert (pin -> ref_of a1 b <> 0) as Hpb.
      { intros [Hp _]. rewrite Hrb. unfold pinned in Hp. rewrite Forall_lookup in Hp. by apply (Hp _ _ Hb). }
      destruct (install_one_step a1 s1 t b Hr1) as (s2 & E2 & Hr2 & Ho2 & Ht2 & Hm2); try done; try lia.
      { rewrite (log_of s s1 Ho1). done. }
      { rewrite Href. unfold unref. rewrite decide_False; [apply Hun|apply tx_notin_log]; unfold in_log; lia. }
      { destruct Hcap as [Hp|Hc]; [left; split; [by apply Hpb|destruct Hp; specialize (Hs1 ltac:(by split)); lia]|right].
        unfold nbufs. lia. }
      assert (bs_view a1 (start + t + 1) = bs_view a (start + t + 1)) as Evl.
      { rewrite Hv1, apply_rec_writes. apply install_notin, tx_notin_log. unfold in_log. lia. }
      rewrite Evl in Hr2, Ht2. eapply runs_eq; [exact E2|].
      eexists (bs_set_ref b _ (bs_set_disk b _ (bs_set_view b _ a1))). split; [|split; [|split]].
      + rewrite Etk, rec_writes_snoc, Hltk, Z2Nat.id, Z.add_0_l by lia.
        split; [exact Hr2|congruence|rewrite Ht2, Ht1, rev_unit; done|by eapply bufs_only_trans|done|..]; by apply apply_snoc.
      + intros c. rewrite ref_of_set. change (ref_of (bs_set_disk _ _ _) c) with (ref_of a1 c). rewrite Hrb, (Href c), Etk. unfold unref.
        destruct (decide (b = c)) as [<-|Hbc]; [by rewrite decide_True by set_solver|].
        apply decide_ext. rewrite elem_of_app, list_elem_of_singleton. naive_solver.
      + intros Hp. specialize (Hs1 Hp). pose proof (set_ref_size_in a1 b (u32 (ref_of a1 b - 1)) (Hpb Hp)) as Hsz.
        unfold bs_set_ref in Hsz |- *. cbn [bs_ref bs_set_disk bs_set_view] in Hsz |- *. lia.
      + pose proof (set_ref_size a1 b (u32 (ref_of a1 b - 1))) as Hsz.
        unfold bs_set_ref in Hsz |- *. cbn [bs_ref bs_set_disk bs_set_view] in Hsz |- *. lia.
    - intros s' (a' & Ha & Hra & Hs1 & Hs2). rewrite Z.add_0_l, Nat2Z.id in Ha, Hra. exists a'.
      rewrite take_ge in Ha, Hra by (rewrite length_tx; lia). split; [done|]. split; [done|].
      destruct Hcap as [Hp|Hc]; [destruct Hp as [Hp1 Hp2]; specialize (Hs1 ltac:(by split)); lia|unfold nbufs; lia]. }
  apply runs_elim in Hruns as ([] & s' & E & a' & Ha & Hra & Hsz). by exists a', s'.
Qed.
End LogOps.

(** ** Writing and reading the header *)

Lemma ld32_st32 m a v : 0 <= v < 2 ^ 32 -> ld32 (st32 m a v) a = v.
Proof. intros Hv. unfold ld32, st32. rewrite load_store_le. by apply Z.mod_small. Qed.
Lemma ld8_st32_outside m a v b : b < a \/ a + 4 <= b -> ld8 (st32 m a v) b = ld8 m b.
Proof. apply (ld8_store_le_outside 4). Qed.
Lemma ld32_st32_outside m a v b : b + 4 <= a \/ a + 4 <= b -> ld32 (st32 m a v) b = ld32 m b.
Proof. intros Hb. apply (load_le_ext 4). intros c Hc. apply ld8_st32_outside. lia. Qed.

Lemma i32_u32 x : - 2 ^ 31 <= x < 2 ^ 31 -> i32 (u32 x) = x.
Proof. intros Hx. unfold i32, u32. rewrite Zplus_mod_idemp_l. rewrite Z.mod_small; lia. Qed.

Lemma hdr_n_mem m A : hdr_n (load_bytes m A block_bytes) = i32 (ld32 m A).
Proof.
  unfold hdr_n, ld32. pose proof (load_le_list 4 m A block_bytes 0 ltac:(unfold block_bytes, BSIZE; lia)) as E.
  rewrite Z.add_0_r in E. by rewrite E.
Qed.

Lemma hdr_block_mem m A i : (i < Z.to_nat LOGSIZE)%nat ->
  hdr_block (load_bytes m A block_bytes) i = i32 (ld32 m (A + 4 + 4 * Z.of_nat i)).
Proof.
  intros Hi. unfold hdr_block, ld32.
  rewrite <- (load_le_list 4 m A block_bytes (4 + 4 * i)) by (unfold block_bytes, BSIZE, LOGSIZE, MAXOPBLOCKS in *; lia).
  do 2 f_equal. lia.
Qed.

Section HeadOps.
Context `{KernelData} `{WaitFuel}.
Variables (h : hw) (me : nat) (p : process) (lg : log_st).
Hypothesis He : bio_env h me p.
Let D := lg_dev lg.
Let start := lg_start lg.
Hypothesis Hstart : 0 <= start /\ start + LOGSIZE < 2 ^ 31.

Abbreviation rep := (bio_rep h me p D).

Lemma u32_start : u32 start = start.
Proof using Hstart. apply u32_small. unfold LOGSIZE, MAXOPBLOCKS in *. lia. Qed.

(** Reading the header block and giving it back. *)
Lemma head_buf a s :
  rep a s -> bs_held a = ∅ -> ref_of a start = 0 -> (size (bs_ref a) < nbufs)%nat ->
  exists i s1, bread D start s = Ret i s1 /\ (i < nbufs)%nat /\
    rep (bs_set_held start (Some i) (bs_set_ref start 1 a)) s1 /\
    others s1 = others s /\ k_disk s1 = k_disk s /\ bufs_only (k_mem s) (k_mem s1).
Proof.
  intros Hr Hh Hz Hsz.
  destruct (bread_ok h me p D He a s start Hr) as (i & s1 & E1 & Hr1 & Ho1 & _ & Hd1 & Hm1).
  { by rewrite Hh. } { intros c j. by rewrite Hh. } { by right. }
  rewrite Hz in Hr1. change (u32 (0 + 1)) with 1 in Hr1.
  assert (bs_held (bs_set_held start (Some i) (bs_set_ref start 1 a)) !! start = Some i) as Hhs
    by (cbn; by rewrite lookup_opt, decide_True).
  destruct (held_buf h me p D _ s1 start i Hr1 Hhs) as (_ & _ & _ & _ & _ & Hi & _). by exists i, s1.
Qed.

Lemma head_release a v d i s :
  rep (mk_bstore v d (bs_ref (bs_set_ref start 1 a)) (bs_held (bs_set_held start (Some i) a))) s ->
  bs_held a = ∅ -> bs_ref a !! start = None -> v start = d start ->
  exists s', brelse i s = Ret tt s' /\ rep (mk_bstore v d (bs_ref a) (bs_held a)) s' /\
    others s' = others s /\ k_mem s' = k_mem s /\ k_disk s' = k_disk s.
Proof.
  intros Hr Hh Hn Hcl. set (a1 := mk_bstore v d _ _) in Hr.
  assert (bs_held a1 !! start = Some i) as Hhs by (cbn; by rewrite lookup_opt, decide_True).
  destruct (brelse_ok h me p D He a1 s start i Hr Hhs ltac:(done)) as (s' & E & Hr' & Ho & _ & Hm & Hd).
  exists s'. split; [done|]. split; [|done].
  assert (ref_of a1 start = 1) as R by (unfold ref_of; cbn; by rewrite lookup_cnt, decide_True).
  rewrite R in Hr'. change (u32 (1 - 1)) with 0 in Hr'. revert Hr'. set (x := bs_set_held _ _ _).
  assert (x = mk_bstore v d (bs_ref a) (bs_held a)) as ->; [|done]. apply bs_ext; try done.
  - intros c. cbn [x bs_ref bs_set_held bs_set_ref a1]. rewrite !lookup_cnt. by destruct (decide (start = c)) as [<-|].
  - intros c. cbn [x bs_held bs_set_held bs_set_ref a1]. rewrite !lookup_opt, Hh. by repeat case_decide.
Qed.

(** The loop that stores the block numbers. *)
Lemma store_header_ok i A s :
  k_log s = lg -> A = buf_data i -> 0 <= lg_n lg < LOGSIZE -> (Z.to_nat (lg_n lg) <= length (lg_block lg))%nat ->
  ld32 (k_mem s) A = u32 (lg_n lg) ->
  exists m', for_each (Z.to_nat (lg_n lg)) 0 (fun i =>
      lg ← read_log;
      v ← lift_opt (log_block lg i);
      kst32 (A + 4 + 4 * i) (u32 v)) s = Ret tt (set_k_mem m' s) /\
    data_only i (k_mem s) m' /\ ld32 m' A = u32 (lg_n lg) /\
    forall j v, (j < Z.to_nat (lg_n lg))%nat -> lg_block lg !! j = Some v -> ld32 m' (A + 4 + 4 * Z.of_nat j) = u32 v.
Proof.
  intros Hlg -> Hn Hlen Hld0. set (A := buf_data i) in *.
  assert (set_k_mem (k_mem s) s = s) as Hid by by destruct s as [[] ].
  match goal with |- exists m', ?code s = _ /\ _ => assert (runs code s (fun _ s' => exists m',
    s' = set_k_mem m' s /\ data_only i (k_mem s) m' /\ ld32 m' A = u32 (lg_n lg) /\
    forall j v, (j < Z.to_nat (lg_n lg))%nat -> lg_block lg !! j = Some v -> ld32 m' (A + 4 + 4 * Z.of_nat j) = u32 v)) as Hr end.
  { apply (runs_for_each _ 0 _ (fun t s' => exists m',
      s' = set_k_mem m' s /\ data_only i (k_mem s) m' /\ ld32 m' A = u32 (lg_n lg) /\
      forall j v, Z.of_nat j < t -> lg_block lg !! j = Some v -> ld32 m' (A + 4 + 4 * Z.of_nat j) = u32 v)).
    - exists (k_mem s). split; [by rewrite Hid|]. split; [done|]. split; [done|]. intros j v Hj. lia.
    - intros t s1 Ht (m1 & -> & Hm & Hc & Hv).
      destruct (lookup_lt_is_Some_2 (lg_block lg) (Z.to_nat t)) as [v Hb]; [lia|].
      eapply runs_eq.
      { rret (read_log_Ret lg (set_k_mem m1 s) Hlg). unfold log_block. rewrite Hb. cbn [lift_opt]. rewrite bind_mret. reflexivity. }
      exists (st32 m1 (A + 4 + 4 * t) (u32 v)). split; [done|]. split; [|split].
      + intros x Hx. rewrite ld8_st32_outside; [by apply Hm|]. unfold A, BSIZE, LOGSIZE, MAXOPBLOCKS in *. lia.
      + rewrite ld32_st32_outside by lia. done.
      + intros j w Hj Hw. destruct (decide (Z.of_nat j = t)) as [E|Hne].
        * subst t. rewrite Nat2Z.id in Hb. rewrite ld32_st32 by apply u32_range. congruence.
        * rewrite ld32_st32_outside by lia. apply Hv; [lia|done].
    - intros s' (m' & -> & Hm & Hc & Hv). exists m'. split_and!; try done. intros j v Hj. apply Hv. lia. }
  apply runs_elim in Hr as ([] & s' & E & m' & -> & Hrest). by exists m'.
Qed.

Lemma write_head_ok a s :
  rep a s -> k_log s = lg -> bs_held a = ∅ -> ref_of a start = 0 -> (size (bs_ref a) < nbufs)%nat ->
  0 <= lg_n lg < LOGSIZE -> (Z.to_nat (lg_n lg) <= length (lg_block lg))%nat ->
  Forall (fun b => - 2 ^ 31 <= b < 2 ^ 31) (tx_blocks lg) ->
  exists hd1 s', write_head s = Ret tt s' /\
    rep (bs_set_disk start hd1 (bs_set_view start hd1 a)) s' /\
    others s' = others s /\ d_trace (k_disk s') = (start, hd1) :: d_trace (k_disk s) /\
    bufs_only (k_mem s) (k_mem s') /\ hdr_n hd1 = lg_n lg /\ hdr_blocks hd1 = tx_blocks lg.
Proof.
  intros Hr Hlg Hh Hz Hsz Hn Hlen HF.
  destruct (head_buf a s Hr Hh Hz Hsz) as (i & s1 & E1 & Hi & Hr1 & Ho1 & Hd1 & Hm1).
  set (a1 := bs_set_held start (Some i) (bs_set_ref start 1 a)) in Hr1. set (A := buf_data i).
  set (s2 := set_k_mem (st32 (k_mem s1) A (u32 (lg_n lg))) s1).
  destruct (store_header_ok i A s2) as (m' & E2 & Hm' & Hc & Hv); try done.
  { by rewrite <- Hlg, <- (log_of s s1 Ho1). }
  { unfold s2. apply ld32_st32. apply u32_range. }
  set (hd1 := load_bytes m' A block_bytes). set (s3 := set_k_mem m' s2).
  assert (bs_held a1 !! start = Some i) as Hhs by (cbn; by rewrite lookup_opt, decide_True).
  assert (rep (bs_set_view start hd1 a1) s3) as Hr3.
  { apply (bdata_ok h me p D a1 s1 start i m' Hr1 Hhs). intros x Hx. rewrite (Hm' x Hx). unfold s2.
    apply ld8_st32_outside. unfold A, BSIZE in *. lia. }
  destruct (bwrite_ok h me p D He _ s3 start i Hr3 Hhs) as (s4 & E4 & Hr4 & Ho4 & _ & Hm4 & Ht4).
  assert (bs_view (bs_set_view start hd1 a1) start = hd1) as Hv1 by apply fn_lookup_insert. rewrite Hv1 in Hr4, Ht4.
  destruct (head_release a (<[start := hd1]> (bs_view a)) (<[start := hd1]> (bs_disk a)) i s4 Hr4 Hh) as (s5 & E5 & Hr5 & Ho5 & Hm5 & Hd5).
  { by apply (no_ref_no_entry h me p lg a s). } { by rewrite !fn_lookup_insert. }
  assert (hdr_n hd1 = lg_n lg) as En.
  { unfold hd1. rewrite hdr_n_mem, Hc. apply i32_u32. unfold LOGSIZE, MAXOPBLOCKS in *. lia. }
  exists hd1, s5. split_and!; try done.
  - unfold write_head. rret (read_log_Ret lg s Hlg). change (lg_start lg) with start. rewrite u32_start. rret E1.
    rewrite bind_eq. change (kst32 (buf_data i) (u32 (lg_n lg)) s1) with (Ret tt s2 : outcome kst unit). cbn [obind].
    rret E2. rret E4. exact E5.
  - rewrite Ho5, Ho4. exact Ho1.
  - rewrite Hd5, Ht4. change (k_disk s3) with (k_disk s1). by rewrite Hd1.
  - eapply bufs_only_trans; [exact Hm1|]. rewrite Hm5, Hm4. apply (data_only_bufs i); [done|].
    change (k_mem s3) with m'. intros x Hx. rewrite (Hm' x Hx). unfold s2. apply ld8_st32_outside. unfold A, BSIZE in *. lia.
  - unfold hdr_blocks. rewrite En. apply list_eq. intros j.
    destruct (decide (j < Z.to_nat (lg_n lg))%nat) as [Hj|Hj].
    + rewrite list_lookup_fmap, lookup_seq_lt by done. cbn [fmap option_fmap option_map Nat.add].
      destruct (lookup_lt_is_Some_2 (lg_block lg) j) as [v Hb]; [lia|].
      assert (tx_blocks lg !! j = Some v) as Htb by (unfold tx_blocks; by rewrite lookup_take_lt).
      rewrite Htb. f_equal. unfold hd1. rewrite hdr_block_mem, (Hv j v Hj Hb) by (unfold LOGSIZE, MAXOPBLOCKS in *; lia).
      apply i32_u32. rewrite Forall_lookup in HF. by apply (HF j).
    + rewrite !lookup_ge_None_2; [done| |].
      * unfold tx_blocks. rewrite length_take. lia.
      * rewrite length_map, length_seq. lia.
Qed.

Lemma rep_log a s l : rep a s -> rep a (set_k_log l s).
Proof.
  intros Hr. destruct (br_lru _ _ _ _ _ _ Hr) as (o & Ho & HP).
  apply (rep_step h me p D a a s _ o Hr); try done; apply Hr.
Qed.

(** The loop that loads the block numbers. *)
Lemma load_header_ok A n s :
  lg_n (k_log s) = n -> 0 <= n -> (Z.to_nat n <= length (lg_block (k_log s)))%nat ->
  exists bl, for_each (Z.to_nat n) 0 (fun i =>
      v ← kld32 (A + 4 + 4 * i);
      set_log_block i (i32 v)) s = Ret tt (set_k_log (set_lg_block bl (k_log s)) s) /\
    length bl = length (lg_block (k_log s)) /\
    forall j, (j < Z.to_nat n)%nat -> bl !! j = Some (i32 (ld32 (k_mem s) (A + 4 + 4 * Z.of_nat j))).
Proof.
  intros Hn Hn0 Hlen.
  match goal with |- exists bl, ?code s = _ /\ _ => assert (runs code s (fun _ s' => exists bl,
    s' = set_k_log (set_lg_block bl (k_log s)) s /\ length bl = length (lg_block (k_log s)) /\
    forall j, (j < Z.to_nat n)%nat -> bl !! j = Some (i32 (ld32 (k_mem s) (A + 4 + 4 * Z.of_nat j))))) as Hr end.
  { apply (runs_for_each _ 0 _ (fun t s' => exists bl,
      s' = set_k_log (set_lg_block bl (k_log s)) s /\ length bl = length (lg_block (k_log s)) /\
      forall j, Z.of_nat j < t -> bl !! j = Some (i32 (ld32 (k_mem s) (A + 4 + 4 * Z.of_nat j))))).
    - exists (lg_block (k_log s)). split; [by destruct s as [? ? ? ? ? ? ? ? ? ? [] ? ? ? ? ? ? ?]|]. split; [done|]. intros j Hj. lia.
    - intros t s1 Ht (bl & -> & Hl & Hv). set (s1 := set_k_log _ s).
      destruct (lookup_lt_is_Some_2 bl (Z.to_nat t)) as [v Hb]; [lia|].
      set (x := i32 (ld32 (k_mem s) (A + 4 + 4 * t))).
      eapply runs_eq.
      { rewrite bind_eq. change (kld32 (A + 4 + 4 * t) s1) with (Ret (ld32 (k_mem s) (A + 4 + 4 * t)) s1 : outcome kst Z).
        cbn [obind]. fold x. unfold set_log_block. rret (read_log_Ret (k_log s1) s1 eq_refl).
        unfold log_block. change (lg_block (k_log s1)) with bl. rewrite Hb. cbn [lift_opt]. rewrite bind_mret. reflexivity. }
      exists (<[Z.to_nat t := x]> bl). split; [done|]. split; [by rewrite length_insert|].
      intros j Hj. destruct (decide (Z.of_nat j = t)) as [E|Hne].
      + subst t. rewrite Nat2Z.id. apply list_lookup_insert_eq. rewrite Nat2Z.id in Hb. by eapply lookup_lt_Some.
      + rewrite list_lookup_insert_ne by lia. apply Hv. lia.
    - intros s' (bl & -> & Hl & Hv). exists bl. split_and!; try done. intros j Hj. apply Hv. lia. }
  apply runs_elim in Hr as ([] & s' & E & bl & -> & Hrest). by exists bl.
Qed.

Lemma read_head_ok a s :
  rep a s -> k_log s = lg -> bs_held a = ∅ -> ref_of a start = 0 -> (size (bs_ref a) < nbufs)%nat ->
  let hd := bs_view a start in
  0 <= hdr_n hd < LOGSIZE -> length (lg_block lg) = Z.to_nat LOGSIZE ->
  exists bl s', read_head s = Ret tt s' /\ rep a s' /\
    k_log s' = set_lg_block bl (set_lg_n (hdr_n hd) lg) /\ length bl = Z.to_nat LOGSIZE /\
    take (Z.to_nat (hdr_n hd)) bl = hdr_blocks hd /\
    k_disk s' = k_disk s /\ bufs_only (k_mem s) (k_mem s').
Proof.
  intros Hr Hlg Hh Hz Hsz hd Hn Hlen.
  destruct (head_buf a s Hr Hh Hz Hsz) as (i & s1 & E1 & Hi & Hr1 & Ho1 & Hd1 & Hm1).
  set (a1 := bs_set_held start (Some i) (bs_set_ref start 1 a)) in Hr1. set (A := buf_data i).
  assert (bs_held a1 !! start = Some i) as Hhs by (cbn; by rewrite lookup_opt, decide_True).
  destruct (held_buf h me p D a1 s1 start i Hr1 Hhs) as (_ & _ & _ & _ & _ & _ & _ & _ & Hdt).
  change (bs_view a1 start) with hd in Hdt.
  assert (k_log s1 = lg) as Hlg1 by by rewrite (log_of s s1 Ho1).
  set (s2 := set_k_log (set_lg_n (hdr_n hd) (k_log s1)) s1).
  destruct (load_header_ok A (hdr_n hd) s2) as (bl & E2 & Hlb & Hv).
  { done. } { lia. } { change (lg_block (k_log s2)) with (lg_block (k_log s1)). rewrite Hlg1, Hlen. lia. }
  change (lg_block (k_log s2)) with (lg_block (k_log s1)) in Hlb. rewrite Hlg1, Hlen in Hlb.
  set (s3 := set_k_log _ s2) in E2.
  assert (rep a1 s3) as Hr3 by by apply rep_log, rep_log.
  destruct (head_release a (bs_view a) (bs_disk a) i s3 Hr3 Hh) as (s4 & E4 & Hr4 & Ho4 & Hm4 & Hd4).
  { by apply (no_ref_no_entry h me p lg a s). }
  { apply (bc_clean _ _ _ _ _ (br_content _ _ _ _ _ _ Hr)); [|by rewrite Hh]. by apply (no_ref_no_entry h me p lg a s). }
  exists bl, s4. split_and!; try done.
  - unfold read_head. rret (read_log_Ret lg s Hlg). change (lg_start lg) with start. rewrite u32_start. rret E1.
    rewrite bind_eq. change (kld32 (buf_data i) s1) with (Ret (ld32 (k_mem s1) A) s1 : outcome kst Z). cbn [obind].
    assert (i32 (ld32 (k_mem s1) A) = hdr_n hd) as -> by (rewrite <- Hdt, hdr_n_mem; done).
    rewrite bind_eq. change (upd_log (set_lg_n (hdr_n hd)) s1) with (Ret tt s2 : outcome kst unit). cbn [obind].
    rret (read_log_Ret (k_log s2) s2 eq_refl). change (lg_n (k_log s2)) with (hdr_n hd). rret E2. exact E4.
  - by destruct a.
  - rewrite (log_of s3 s4 Ho4). unfold s3, s2. cbn [k_log set_k_log]. by rewrite Hlg1.
  - unfold hdr_blocks. apply list_eq. intros j. destruct (decide (j < Z.to_nat (hdr_n hd))%nat) as [Hj|Hj].
    + rewrite lookup_take_lt, (Hv j Hj) by done. rewrite list_lookup_fmap, lookup_seq_lt by done. cbn [fmap option_fmap option_map Nat.add].
      f_equal. rewrite <- Hdt, hdr_block_mem by (unfold LOGSIZE, MAXOPBLOCKS in *; lia). done.
    + rewrite !lookup_ge_None_2; [done| |].
      * rewrite length_map, length_seq. lia.
      * rewrite length_take. lia.
  - by rewrite Hd4.
  - eapply bufs_only_trans; [exact Hm1|]. by rewrite Hm4.
Qed.
End HeadOps.

(** ** Commit and recovery *)

Lemma bs_update a x l :
  bs_set_disk x l (bs_set_view x l a) =
  mk_bstore (<[x := l]> (bs_view a)) (<[x := l]> (bs_disk a)) (bs_ref a) (bs_held a).
Proof. done. Qed.

Section Commit.
Context `{KernelData} `{WaitFuel}.
Variables (h : hw) (me : nat) (p : process) (lg : log_st).
Hypothesis He : bio_env h me p.
Hypothesis Hstart : 0 <= lg_start lg /\ lg_start lg + LOGSIZE < 2 ^ 31.

Abbreviation D := (lg_dev lg).
Abbreviation start := (lg_start lg).
Abbreviation rep := (bio_rep h me p D).

Lemma tx_range : tx_ok lg -> Forall (fun b => - 2 ^ 31 <= b < 2 ^ 31) (tx_blocks lg).
Proof. intros Htx. eapply Forall_impl; [apply (tx_home lg Htx)|]. cbn. intros x [Hx _]. lia. Qed.

(** The tail shared by [commit] and recovery: install, then erase the header. *)
Lemma install_clear_ok a s :
  tx_ok lg -> rep a s -> k_log s = lg -> bs_held a = ∅ -> log_unused lg a ->
  pinned lg a /\ (size (bs_ref a) < nbufs)%nat \/ Z.of_nat (size (bs_ref a)) + lg_n lg < NBUF ->
  exists hd0 a' s', (install_trans ;; upd_log (set_lg_n 0) ;; write_head) s = Ret tt s' /\
    rep a' s' /\ k_log s' = set_lg_n 0 lg /\ hdr_n hd0 = 0 /\
    d_trace (k_disk s') = rev (rec_writes (bs_view a) start (tx_blocks lg) 0 ++ [(start, hd0)]) ++ d_trace (k_disk s) /\
    bs_held a' = ∅ /\ (forall c, ref_of a' c = unref a (tx_blocks lg) c) /\
    (forall c, bs_view a' c = apply_writes (bs_view a) (rec_writes (bs_view a) start (tx_blocks lg) 0 ++ [(start, hd0)]) c) /\
    (forall c, bs_disk a' c = apply_writes (bs_disk a) (rec_writes (bs_view a) start (tx_blocks lg) 0 ++ [(start, hd0)]) c).
Proof.
  intros Htx Hr Hlg Hh Hun Hcap.
  destruct (install_trans_ok h me p lg He Hstart Htx a s Hr Hlg Hh Hun Hcap)
    as (a1 & s1 & E1 & [Hr1 Ho1 Ht1 Hm1 Hh1 Hv1 Hd1] & Href & Hsz).
  set (lg0 := set_lg_n 0 lg). set (s2 := set_k_log lg0 s1).
  assert (upd_log (set_lg_n 0) s1 = Ret tt s2) as E2.
  { unfold upd_log, modify, s2, lg0. by rewrite (log_of s s1 Ho1), Hlg. }
  assert (in_log start start) as Hss by (unfold in_log, LOGSIZE, MAXOPBLOCKS; lia).
  destruct (write_head_ok h me p lg0 He Hstart a1 s2) as (hd0 & s3 & E3 & Hr3 & Ho3 & Ht3 & _ & Hn3 & _); try done.
  - by apply (rep_log h me p lg).
  - rewrite Href. unfold unref. change (lg_start lg0) with start. rewrite decide_False; [by apply Hun|].
    rewrite <- (take_ge (tx_blocks lg) (length (tx_blocks lg))) by done. by apply (tx_notin_log lg Htx).
  - apply Nat.le_0_l.
  - rewrite bs_update in Hr3. eexists hd0, _, s3. split_and!; [|exact Hr3|by rewrite (log_of s2 s3 Ho3)|done| |done|done|..].
    + rret E1. rret E2. exact E3.
    + rewrite Ht3, rev_unit. cbn [app]. f_equal. exact Ht1.
    + exact (apply_snoc _ _ _ _ _ Hv1).
    + exact (apply_snoc _ _ _ _ _ Hd1).
Qed.

(** What [end_op] finds when it commits: a transaction in memory whose blocks are
    pinned in the cache, no block locked, nothing of the log's area in use. *)
Record can_commit (a : bstore) (s : kst) : Prop := {
  cc_rep : rep a s;
  cc_log : k_log s = lg;
  cc_tx : tx_ok lg;
  cc_some : 0 < lg_n lg;
  cc_held : bs_held a = ∅;
  cc_unused : log_unused lg a;
  cc_pinned : pinned lg a;
  cc_size : (size (bs_ref a) < nbufs)%nat }.

Lemma commit_ok a s :
  can_commit a s ->
  exists hd1 hd0 a' s', commit s = Ret tt s' /\ rep a' s' /\ k_log s' = set_lg_n 0 lg /\
    hdr_n hd1 = lg_n lg /\ hdr_blocks hd1 = tx_blocks lg /\ hdr_n hd0 = 0 /\
    d_trace (k_disk s') = rev (commit_writes (bs_view a) start (tx_blocks lg) hd1 hd0) ++ d_trace (k_disk s) /\
    bs_held a' = ∅ /\ (forall c, ref_of a' c = unref a (tx_blocks lg) c) /\
    (forall c, bs_view a' c = apply_writes (bs_view a) (commit_writes (bs_view a) start (tx_blocks lg) hd1 hd0) c) /\
    (forall c, bs_disk a' c = apply_writes (bs_disk a) (commit_writes (bs_view a) start (tx_blocks lg) hd1 hd0) c).
Proof.
  intros [Hr Hlg Htx Hpos Hh Hun Hpin Hsz]. set (bs := tx_blocks lg). set (v := bs_view a).
  destruct (write_log_ok h me p lg He Hstart Htx a s Hr Hlg Hh Hun Hpin Hsz)
    as (a1 & s1 & E1 & [Hr1 Ho1 Ht1 Hm1 Hh1 Hv1 Hd1] & Href1).
  assert (k_log s1 = lg) as Hlg1 by by rewrite (log_of s s1 Ho1).
  assert (forall c, ref_of a1 c = ref_of a c) as Hrc by (intros c; unfold ref_of; by rewrite Href1).
  assert (in_log start start) as Hss by (unfold in_log, LOGSIZE, MAXOPBLOCKS; lia).
  destruct (write_head_ok h me p lg He Hstart a1 s1 Hr1 Hlg1 Hh1) as (hd1 & s2 & E2 & Hr2 & Ho2 & Ht2 & _ & Hn2 & Hb2).
  { rewrite Hrc. by apply Hun. } { by rewrite Href1. } { apply Htx. } { apply Htx. } { by apply tx_range. }
  rewrite bs_update in Hr2. set (a2 := mk_bstore _ _ _ _) in Hr2.
  assert (k_log s2 = lg) as Hlg2 by by rewrite (log_of s1 s2 Ho2).
  assert (forall c, ref_of a2 c = ref_of a c) as Hrc2 by exact Hrc.
  destruct (install_clear_ok a2 s2 Htx Hr2 Hlg2 Hh1) as (hd0 & a3 & s3 & E3 & Hr3 & Hl3 & Hn3 & Ht3 & Hh3 & Href3 & Hv3 & Hd3).
  { intros c Hc. rewrite Hrc2. by apply Hun. }
  { left. split; [unfold pinned in *; by setoid_rewrite Hrc2|]. cbn. by rewrite Href1. }
  assert (rec_writes (bs_view a2) start bs 0 = home_writes v bs) as Ehome.
  { apply rec_writes_home. intros k b Hk. cbn [bs_view a2].
    rewrite fn_lookup_insert_ne by lia. rewrite Hv1. apply apply_in.
    - apply log_writes_elem. by exists k, b.
    - intros w (j & c & Hj & ->)%log_writes_elem. cbn. intros E. assert (j = k) as -> by lia. assert (c = b) as -> by (unfold bs in *; congruence). done. }
  fold bs in Ht3, Hv3, Hd3, Href3. rewrite Ehome in Ht3, Hv3, Hd3.
  exists hd1, hd0, a3, s3. split_and!; try done.
  - unfold commit. rret (read_log_Ret lg s Hlg). destruct (Z.gtb_spec (lg_n lg) 0); [|lia].
    rret E1. rret E2. exact E3.
  - rewrite Ht3, Ht2, Ht1. unfold commit_writes. cbn [app]. rewrite !rev_app_distr. cbn [rev].
    rewrite !rev_app_distr. cbn [rev app]. by rewrite <- !app_assoc.
  - intros c. rewrite Href3. unfold unref. by rewrite Hrc2.
  - intros c. rewrite Hv3. unfold commit_writes. rewrite (apply_app _ (log_writes _ _ _ _)).
    change ((start, hd1) :: ?X) with ([(start, hd1)] ++ X). rewrite (apply_app _ [(start, hd1)]).
    revert c. apply apply_ext. intros c. cbn [bs_view a2 apply_writes foldl fst snd]. by apply fn_insert_ext.
  - intros c. rewrite Hd3. unfold commit_writes. rewrite (apply_app _ (log_writes _ _ _ _)).
    change ((start, hd1) :: ?X) with ([(start, hd1)] ++ X). rewrite (apply_app _ [(start, hd1)]).
    revert c. apply apply_ext. intros c. cbn [bs_disk a2 apply_writes foldl fst snd]. by apply fn_insert_ext.
Qed.

End Commit.

Section Recover.
Context `{KernelData} `{WaitFuel}.
Variables (h : hw) (me : nat) (p : process) (lg : log_st).
Hypothesis He : bio_env h me p.
Hypothesis Hstart : 0 <= lg_start lg /\ lg_start lg + LOGSIZE < 2 ^ 31.

Abbreviation D := (lg_dev lg).
Abbreviation start := (lg_start lg).
Abbreviation rep := (bio_rep h me p D).

(** A machine that has just booted on the disk [d]: nothing is cached yet. *)
Definition booted (d : dsk) (s : kst) : Prop :=
  k_log s = lg /\ length (lg_block lg) = Z.to_nat LOGSIZE /\
  exists a, rep a s /\ bs_held a = ∅ /\ bs_ref a = ∅ /\ forall b, bs_disk a b = d b.

Lemma recover_ok d s :
  booted d s -> log_disk start d ->
  exists hd0 a' s', recover_from_log s = Ret tt s' /\ rep a' s' /\ hdr_n hd0 = 0 /\
    d_trace (k_disk s') = rev (rec_writes d start (hdr_blocks (d start)) 0 ++ [(start, hd0)]) ++ d_trace (k_disk s) /\
    (forall c, bs_disk a' c = apply_writes d (rec_writes d start (hdr_blocks (d start)) 0 ++ [(start, hd0)]) c) /\
    (forall c, ref_of a' c = if decide (c ∈ hdr_blocks (d start)) then 2 ^ 32 - 1 else 0).
Proof.
  intros (Hlg & Hlen & a & Hr & Hh & Href & Hdisk) Hd.
  assert (forall c, ref_of a c = 0) as Hz by (intros c; unfold ref_of; by rewrite Href).
  assert (forall c, bs_view a c = d c) as Hview.
  { intros c. rewrite <- Hdisk. apply (bc_clean _ _ _ _ _ (br_content _ _ _ _ _ _ Hr)); [by rewrite Href|by rewrite Hh]. }
  assert (size (bs_ref a) = 0%nat) as Hs0 by (rewrite Href; apply map_size_empty).
  destruct (read_head_ok h me p lg He Hstart a s Hr Hlg Hh (Hz _)) as (bl & s1 & E1 & Hr1 & Hlg1 & Hbl & Htk & Hdk1 & _);
    try done; [rewrite Hs0; unfold nbufs, NBUF, MAXOPBLOCKS; lia|rewrite Hview; apply Hd|]. rewrite Hview in Hlg1, Htk.
  set (lg1 := set_lg_block bl (set_lg_n (hdr_n (d start)) lg)) in Hlg1.
  assert (tx_blocks lg1 = hdr_blocks (d start)) as Htb by exact Htk.
  assert (tx_ok lg1) as Htx.
  { pose proof (ld_n _ _ Hd) as Hn. split; rewrite ?Htb; try apply Hd.
    change (lg_block lg1) with bl. change (lg_n lg1) with (hdr_n (d start)). lia. }
  destruct (install_clear_ok h me p lg1 He Hstart a s1 Htx Hr1 Hlg1 Hh)
    as (hd0 & a2 & s2 & E2 & Hr2 & _ & Hn2 & Ht2 & _ & Href2 & _ & Hd2).
  { intros c _. apply Hz. }
  { right. rewrite Hs0. pose proof (tx_n _ Htx) as Hn. unfold NBUF, LOGSIZE in *. lia. }
  change (lg_start lg1) with start in Ht2, Hd2. rewrite Htb in Ht2, Hd2, Href2.
  rewrite (rec_writes_ext (bs_view a) d) in Ht2, Hd2 by done.
  exists hd0, a2, s2. split_and!; try done.
  - unfold recover_from_log. rret E1. exact E2.
  - by rewrite Ht2, Hdk1.
  - intros c. rewrite Hd2. by apply apply_ext.
  - intros c. rewrite Href2. unfold unref. by rewrite Hz.
Qed.

(** [d'] is what a recovery that starts on the disk [d] and is cut by a crash
    leaves. *)
Definition recovery_cut_by (d d' : dsk) : Prop :=
  exists s s' W k, booted d s /\ recover_from_log s = Ret tt s' /\
    d_trace (k_disk s') = rev W ++ d_trace (k_disk s) /\
    forall b, d' b = apply_writes d (take k W) b.
End Recover.

Lemma install_ext src src' start bs i d d' :
  (forall b, src b = src' b) -> (forall b, d b = d' b) ->
  forall b, install src start bs i d b = install src' start bs i d' b.
Proof.
  intros Es. revert i d d'. induction bs as [|x bs IH]; intros i d d' E; [exact E|]. cbn [install].
  apply IH. intros b. destruct (decide (x = b)) as [<-|Hne];
    [by rewrite !fn_lookup_insert, Es|by rewrite !fn_lookup_insert_ne].
Qed.

Lemma replay_ext start d d' : (forall b, d b = d' b) -> forall b, replay start d b = replay start d' b.
Proof. intros E b. unfold replay. rewrite (E start). by apply install_ext. Qed.

Lemma log_disk_ext start d d' : (forall b, d b = d' b) -> log_disk start d -> log_disk start d'.
Proof. intros E [H1 H2 H3]. by split; rewrite <- (E start). Qed.

Lemma commit_last d v start bs hd1 hd0 : apply_writes d (commit_writes v start bs hd1 hd0) start = hd0.
Proof.
  unfold commit_writes. change ((start, hd1) :: ?X) with ([(start, hd1)] ++ X). rewrite !app_assoc, apply_app.
  apply fn_lookup_insert.
Qed.

Section Recoveries.
Context `{KernelData} `{WaitFuel}.
Variables (h : hw) (me : nat) (p : process) (lg : log_st).
Hypothesis He : bio_env h me p.
Hypothesis Hstart : 0 <= lg_start lg /\ lg_start lg + LOGSIZE < 2 ^ 31.
Abbreviation start := (lg_start lg).

Lemma recover_full d r :
  booted h me p lg d r -> log_disk start d ->
  exists r', recover_from_log r = Ret tt r' /\ hdr_n (disk_block (k_disk r') start) = 0 /\
    forall b, ~ in_log start b -> disk_block (k_disk r') b = replay start d b.
Proof.
  intros Hb Hd. destruct (recover_ok h me p lg He Hstart d r Hb Hd) as (hd0 & a' & r' & E & Hr' & Hn & _ & Hdk & _).
  set (W := rec_writes d start (hdr_blocks (d start)) 0 ++ [(start, hd0)]) in *.
  assert (apply_writes d W start = hd0) as Elast by (unfold W; rewrite apply_app; apply fn_lookup_insert).
  exists r'. split; [exact E|]. split; [by rewrite (br_disk _ _ _ _ _ _ Hr'), Hdk, Elast|]. intros b Hnl.
  destruct (recovery_cut start d hd0 (length W) Hd Hn) as [_ Hre]. fold W in Hre. rewrite firstn_all in Hre.
  rewrite (br_disk _ _ _ _ _ _ Hr'), Hdk, <- (Hre b Hnl). by rewrite replay_clear by by rewrite Elast.
Qed.

Lemma recoveries_ok d d' :
  rtc (recovery_cut_by h me p lg) d d' -> log_disk start d ->
  log_disk start d' /\ forall b, ~ in_log start b -> replay start d' b = replay start d b.
Proof.
  induction 1 as [d|d d1 d2 (s & s' & W & k & Hb & E & Ht & Hd1) _ IH]; intros Hd; [done|].
  destruct (recover_ok h me p lg He Hstart d s Hb Hd) as (hd0 & a' & s2 & E2 & _ & Hn & Ht2 & _).
  assert (s2 = s') as -> by congruence. rewrite Ht in Ht2. apply app_inv_tail, (f_equal (@rev _)) in Ht2.
  rewrite !rev_involutive in Ht2. subst W.
  destruct (recovery_cut start d hd0 k Hd Hn) as [Hld Hre].
  destruct IH as [Hld2 Hre2].
  { eapply log_disk_ext; [|exact Hld]. intros b. by rewrite Hd1. }
  split; [done|]. intros b Hnl. rewrite (Hre2 b Hnl), (replay_ext start d1 _ Hd1). by apply Hre.
Qed.
End Recoveries.

(** C1: crash safety of the log.  A commit completes; cut by a crash after any number
    [k] of its block writes, and with any number of recoveries cut by crashes after
    it, the next recovery completes and leaves every block outside the log either
    as it was before the transaction or, from the write of the header on, as the
    transaction wrote it: all of them old or all of them new. *)
Theorem log_crash_safe `{KernelData} `{WaitFuel} h me p lg a s :
  bio_env h me p -> 0 <= lg_start lg /\ lg_start lg + LOGSIZE < 2 ^ 31 ->
  can_commit h me p lg a s -> hdr_n (bs_disk a (lg_start lg)) = 0 ->
  exists s' W, commit s = Ret tt s' /\ d_trace (k_disk s') = rev W ++ d_trace (k_disk s) /\
    (forall b, ~ in_log (lg_start lg) b ->
       disk_block (k_disk s') b = updated (bs_disk a) (bs_view a) (tx_blocks lg) b) /\
    forall k d1 h2 me2 p2 lg2 d2 r,
      (forall b, d1 b = apply_writes (bs_disk a) (take k W) b) ->
      bio_env h2 me2 p2 -> lg_start lg2 = lg_start lg ->
      rtc (recovery_cut_by h2 me2 p2 lg2) d1 d2 -> booted h2 me2 p2 lg2 d2 r ->
      exists r', recover_from_log r = Ret tt r' /\
        hdr_n (disk_block (k_disk r') (lg_start lg)) = 0 /\
        forall b, ~ in_log (lg_start lg) b -> disk_block (k_disk r') b =
          if decide (k <= length (tx_blocks lg))%nat then bs_disk a b
          else updated (bs_disk a) (bs_view a) (tx_blocks lg) b.
Proof.
  intros He Hstart Hcc Hclean. set (start := lg_start lg) in *. set (bs := tx_blocks lg) in *.
  destruct (commit_ok h me p lg He Hstart a s Hcc)
    as (hd1 & hd0 & a' & s' & E & Hr' & _ & Hn1 & Hb1 & Hn0 & Ht & _ & _ & _ & Hd).
  fold start bs in Hb1, Ht, Hd. set (W := commit_writes (bs_view a) start bs hd1 hd0) in *.
  pose proof (cc_tx _ _ _ _ _ _ Hcc) as Htx.
  assert (forall k, let d' := apply_writes (bs_disk a) (take k W) in log_disk start d' /\
    forall b, ~ in_log start b -> replay start d' b =
      if decide (k <= length bs)%nat then bs_disk a b else updated (bs_disk a) (bs_view a) bs b) as Hcut.
  { intros k. apply commit_cut; try done; [rewrite Hn1; apply Htx|apply Htx|apply Htx]. }
  exists s', W. split; [exact E|]. split; [exact Ht|]. split.
  - intros b Hb. rewrite (br_disk _ _ _ _ _ _ Hr'), Hd. destruct (Hcut (length W)) as [_ Hre].
    rewrite firstn_all in Hre. specialize (Hre b Hb). rewrite replay_clear in Hre by (unfold W; by rewrite commit_last).
    rewrite Hre. rewrite decide_False; [done|]. unfold W, commit_writes. rewrite length_app, length_log_writes. cbn. lia.
  - intros k d1 h2 me2 p2 lg2 d2 r Hd1 He2 Hst2 Hrec Hboot. destruct (Hcut k) as [Hld Hre].
    assert (0 <= lg_start lg2 /\ lg_start lg2 + LOGSIZE < 2 ^ 31) as Hstart2 by by rewrite Hst2.
    destruct (recoveries_ok h2 me2 p2 lg2 He2 Hstart2 d1 d2 Hrec) as [Hld2 Hre2].
    { rewrite Hst2. eapply log_disk_ext; [|exact Hld]. intros b. by rewrite Hd1. }
    destruct (recover_full h2 me2 p2 lg2 He2 Hstart2 d2 r Hboot Hld2) as (r' & Er & Hz & Hfin).
    rewrite Hst2 in *. exists r'. split; [exact Er|]. split; [exact Hz|]. intros b Hb.
    rewrite (Hfin b Hb), (Hre2 b Hb), (replay_ext start d1 _ Hd1). by apply Hre.
Qed.

(** C30: recovery after a boot completes, copies the blocks of a committed transaction
    to their homes, changes no other block outside the log and erases the header; a
    recovery with an empty log changes nothing.  The blocks it copied keep their
    buffers with the reference count 2^32 - 1: [install_trans] drops a pin that only
    [log_write] takes. *)
Theorem recovery_spec `{KernelData} `{WaitFuel} h me p lg d s :
  bio_env h me p -> 0 <= lg_start lg /\ lg_start lg + LOGSIZE < 2 ^ 31 ->
  booted h me p lg d s -> log_disk (lg_start lg) d ->
  exists s', recover_from_log s = Ret tt s' /\
    hdr_n (disk_block (k_disk s') (lg_start lg)) = 0 /\
    (forall b, ~ in_log (lg_start lg) b -> disk_block (k_disk s') b = replay (lg_start lg) d b) /\
    (hdr_n (d (lg_start lg)) = 0 ->
       forall b, ~ in_log (lg_start lg) b -> disk_block (k_disk s') b = d b) /\
    forall b, b ∈ hdr_blocks (d (lg_start lg)) -> exists i x, k_bufs s' !! i = Some x /\
      b_dev x = lg_dev lg /\ b_blockno x = b /\ b_refcnt x = 2 ^ 32 - 1.
Proof.
  intros He Hst Hb Hd. destruct (recover_full h me p lg He Hst d s Hb Hd) as (s' & E & Hz & Hre).
  destruct (recover_ok h me p lg He Hst d s Hb Hd) as (hd0 & a' & s2 & E2 & Hr2 & _ & _ & _ & Href).
  assert (s2 = s') as -> by congruence. exists s'. split; [exact E|]. split; [exact Hz|]. split; [exact Hre|]. split.
  - intros H0' b Hnl. by rewrite (Hre b Hnl), replay_clear.
  - intros b Hin. specialize (Href b). rewrite decide_True in Href by done.
    pose proof (br_content _ _ _ _ _ _ Hr2) as Hc.
    destruct (bs_ref a' !! b) as [r|] eqn:Er; [|unfold ref_of in Href; rewrite Er in Href; by vm_compute in Href].
    destruct (bc_ref _ _ _ _ _ Hc b r Er) as (_ & i & x & Hx & Hdx & Hnx). exists i, x.
    split; [done|]. split; [done|]. split; [done|]. rewrite (bc_refcnt _ _ _ _ _ Hc i x Hx), decide_True by done. by rewrite Hnx.
Qed.
