(* ===== verification/Fs.v ===== *)
(** * The file system: kernel/fs/fs.c

    Blocks, inodes, their contents, directories and path names.  The on-disk inode
    and directory entry are read and written through their field offsets in the
    buffer ([struct dinode]: type 0, major 2, minor 4, nlink 6, size 8, addrs 12;
    [struct dirent]: inum 0, name 2). *)

From S2P Require Import Prelude Hart VmSystem Mem Str Kalloc PageTable UserCopy State Sleep Bio Log.

Definition BPB : Z := BSIZE * 8.
Definition DINODE_SIZE : Z := 64.
Definition IPB : Z := BSIZE / DINODE_SIZE.
Definition DIRENT_SIZE : Z := 16.
Definition T_DIR : Z := 1.
Definition T_FILE : Z := 2.
Definition T_DEVICE : Z := 3.

Definition IBLOCK (i : Z) (sb : superblock) : Z := u32 (i / IPB + sb_inodestart sb).
Definition BBLOCK (b : Z) (sb : superblock) : Z := u32 (b / BPB + sb_bmapstart sb).

Section Fs.
Context `{KernelData} `{WaitFuel}.

Definition sb_at (m : mem) (a : Z) : superblock :=
  mk_superblock (ld32 m a) (ld32 m (a + 4)) (ld32 m (a + 8)) (ld32 m (a + 12))
                (ld32 m (a + 16)) (ld32 m (a + 20)) (ld32 m (a + 24)) (ld32 m (a + 28)).

Definition read_sb : M kst superblock := gets k_sb.

(** ** Blocks *)

Definition readsb (dev : Z) : M kst unit :=
  bp ← bread dev 1;
  modify (fun s => set_k_sb (sb_at (k_mem s) (buf_data bp)) s) ;;
  brelse bp.

Definition fsinit (dev : Z) : M kst unit :=
  readsb dev ;;
  sb ← read_sb;
  if negb (sb_magic sb =? FSMAGIC) then panic "invalid file system" else
  initlog dev sb.

Definition bzero (dev bno : Z) : M kst unit :=
  bp ← bread dev bno;
  kmemset (buf_data bp) 0 BSIZE ;;
  log_write bp ;;
  brelse bp.

(** Round [k] of the outer loop works on [b = k * BPB]. *)
Definition balloc (dev : Z) : M kst Z :=
  sb ← read_sb;
  r ← for_loop (Z.to_nat ((sb_size sb + BPB - 1) / BPB)) 0 (fun k =>
    let b := k * BPB in
    bp ← bread dev (BBLOCK b sb);
    r ← for_loop (Z.to_nat (Z.min BPB (sb_size sb - b))) 0 (fun bi =>
      let m := Z.shiftl 1 (bi mod 8) in
      x ← kld8 (buf_data bp + bi / 8);
      if Z.land x m =? 0 then
        kst8 (buf_data bp + bi / 8) (Z.lor x m) ;;
        log_write bp ;;
        brelse bp ;;
        bzero dev (b + bi) ;;
        mret (Some (b + bi))
      else mret None);
    match r with
    | Some a => mret (Some a)
    | None => brelse bp ;; mret None
    end);
  match r with
  | Some a => mret a
  | None => panic "balloc: out of blocks"
  end.

Definition bfree (dev b : Z) : M kst unit :=
  sb ← read_sb;
  bp ← bread dev (BBLOCK b sb);
  let bi := b mod BPB in
  let m := Z.shiftl 1 (bi mod 8) in
  x ← kld8 (buf_data bp + bi / 8);
  if Z.land x m =? 0 then panic "freeing free block" else
  kst8 (buf_data bp + bi / 8) (Z.land x (Z.lnot m)) ;;
  log_write bp ;;
  brelse bp.

(** ** Inodes *)

Definition iinit : M kst unit :=
  hwdo (init_spin_lock LkIcache) ;;
  for_each (Z.to_nat NINODE) 0 (fun i => initsleeplock (SlkInode (Z.to_nat i))).

(** The scan keeps the first empty slot. *)
Definition iget (dev inum : Z) : M kst nat :=
  acquire LkIcache ;;
  r ← while_loop (S (Z.to_nat NINODE)) (0, None) (fun '(i, empty) =>
        if i >=? NINODE then mret (inr (inr empty)) else
        ip ← read_inode (Z.to_nat i);
        if (i_ref ip >? 0) && (i_dev ip =? dev) && (i_inum ip =? inum) then
          upd_inode (Z.to_nat i) (fun ip => set_i_ref (i_ref ip + 1) ip) ;;
          release LkIcache ;;
          mret (inr (inl (Z.to_nat i)))
        else
          let empty := match empty with
                       | None => if i_ref ip =? 0 then Some (Z.to_nat i) else None
                       | Some _ => empty
                       end in
          mret (inl (i + 1, empty)));
  match r with
  | inl ip => mret ip
  | inr None => panic "iget: no inodes"
  | inr (Some ip) =>
      upd_inode ip (set_i_dev dev) ;;
      upd_inode ip (set_i_inum inum) ;;
      upd_inode ip (set_i_ref 1) ;;
      upd_inode ip (set_i_valid 0) ;;
      release LkIcache ;;
      mret ip
  end.

Definition dinode_addr (bp : nat) (inum : Z) : Z := buf_data bp + inum mod IPB * DINODE_SIZE.

Definition ialloc (dev type : Z) : M kst nat :=
  sb ← read_sb;
  r ← for_loop (Z.to_nat (sb_ninodes sb - 1)) 1 (fun inum =>
    bp ← bread dev (IBLOCK inum sb);
    let dip := dinode_addr bp inum in
    t ← kld16 dip;
    if t =? 0 then
      kmemset dip 0 DINODE_SIZE ;;
      kst16 dip (u16 type) ;;
      log_write bp ;;
      brelse bp ;;
      ip ← iget dev inum;
      mret (Some ip)
    else brelse bp ;; mret None);
  match r with
  | Some ip => mret ip
  | None => panic "ialloc: no inodes"
  end.

Definition NADDRS : nat := Z.to_nat (NDIRECT + 1).

Definition iupdate (i : nat) : M kst unit :=
  ip ← read_inode i;
  sb ← read_sb;
  bp ← bread (i_dev ip) (IBLOCK (i_inum ip) sb);
  let dip := dinode_addr bp (i_inum ip) in
  ip ← read_inode i;
  kst16 dip (u16 (i_type ip)) ;;
  kst16 (dip + 2) (u16 (i_major ip)) ;;
  kst16 (dip + 4) (u16 (i_minor ip)) ;;
  kst16 (dip + 6) (u16 (i_nlink ip)) ;;
  kst32 (dip + 8) (i_size ip) ;;
  for_each NADDRS 0 (fun k =>
    a ← lift_opt (i_addrs ip !! Z.to_nat k);
    kst32 (dip + 12 + 4 * k) a) ;;
  log_write bp ;;
  brelse bp.

Definition idup (ip : nat) : M kst nat :=
  acquire LkIcache ;;
  upd_inode ip (fun x => set_i_ref (i_ref x + 1) x) ;;
  release LkIcache ;;
  mret ip.

(** The fields of an on-disk inode at address [a]. *)
Definition load_dinode (m : mem) (a : Z) (ip : inode) : inode :=
  set_i_type (i16 (ld16 m a)) (set_i_major (i16 (ld16 m (a + 2)))
  (set_i_minor (i16 (ld16 m (a + 4))) (set_i_nlink (i16 (ld16 m (a + 6)))
  (set_i_size (ld32 m (a + 8))
  (set_i_addrs (map (fun k => ld32 m (a + 12 + 4 * Z.of_nat k)) (seq 0 NADDRS)) ip))))).

Definition ilock (i : nat) : M kst unit :=
  ip ← read_inode i;
  if i_ref ip <? 1 then panic "ilock" else
  acquiresleep (SlkInode i) ;;
  ip ← read_inode i;
  if i_valid ip =? 0 then
    sb ← read_sb;
    bp ← bread (i_dev ip) (IBLOCK (i_inum ip) sb);
    m ← gets k_mem;
    upd_inode i (load_dinode m (dinode_addr bp (i_inum ip))) ;;
    brelse bp ;;
    upd_inode i (set_i_valid 1) ;;
    ip ← read_inode i;
    if i_type ip =? 0 then panic "ilock: no type" else mret tt
  else mret tt.

Definition iunlock (i : nat) : M kst unit :=
  h ← holdingsleep (SlkInode i);
  ip ← read_inode i;
  if negb h || (i_ref ip <? 1) then panic "iunlock" else
  releasesleep (SlkInode i).

Definition set_addr (i : nat) (k v : Z) : M kst unit :=
  upd_inode i (fun ip => set_i_addrs (<[Z.to_nat k := v]> (i_addrs ip)) ip).
Definition get_addr (i : nat) (k : Z) : M kst Z :=
  ip ← read_inode i; lift_opt (i_addrs ip !! Z.to_nat k).

Definition itrunc (i : nat) : M kst unit :=
  ip ← read_inode i;
  for_each (Z.to_nat NDIRECT) 0 (fun k =>
    a ← get_addr i k;
    if negb (a =? 0) then bfree (i_dev ip) a ;; set_addr i k 0 else mret tt) ;;
  ind ← get_addr i NDIRECT;
  (if negb (ind =? 0) then
     bp ← bread (i_dev ip) ind;
     for_each (Z.to_nat NINDIRECT) 0 (fun j =>
       a ← kld32 (buf_data bp + 4 * j);
       if negb (a =? 0) then bfree (i_dev ip) a else mret tt) ;;
     brelse bp ;;
     ind ← get_addr i NDIRECT;
     bfree (i_dev ip) ind ;;
     set_addr i NDIRECT 0
   else mret tt) ;;
  upd_inode i (set_i_size 0) ;;
  iupdate i.

Definition iput (i : nat) : M kst unit :=
  acquire LkIcache ;;
  ip ← read_inode i;
  (if (i_ref ip =? 1) && negb (i_valid ip =? 0) && (i_nlink ip =? 0) then
     acquiresleep (SlkInode i) ;;
     release LkIcache ;;
     itrunc i ;;
     upd_inode i (set_i_type 0) ;;
     iupdate i ;;
     upd_inode i (set_i_valid 0) ;;
     releasesleep (SlkInode i) ;;
     acquire LkIcache
   else mret tt) ;;
  upd_inode i (fun ip => set_i_ref (i_ref ip - 1) ip) ;;
  release LkIcache.

Definition iunlockput (ip : nat) : M kst unit := iunlock ip ;; iput ip.

(** ** Contents *)

Definition bmap (i : nat) (bn : Z) : M kst Z :=
  ip ← read_inode i;
  if bn <? NDIRECT then
    addr ← get_addr i bn;
    if addr =? 0 then addr ← balloc (i_dev ip); set_addr i bn addr ;; mret addr else mret addr
  else
  let bn := bn - NDIRECT in
  if bn <? NINDIRECT then
    addr ← get_addr i NDIRECT;
    addr ← (if addr =? 0 then addr ← balloc (i_dev ip); set_addr i NDIRECT addr ;; mret addr
            else mret addr);
    bp ← bread (i_dev ip) addr;
    let a := buf_data bp in
    addr ← kld32 (a + 4 * bn);
    addr ← (if addr =? 0 then
              addr ← balloc (i_dev ip);
              kst32 (a + 4 * bn) addr ;;
              log_write bp ;;
              mret addr
            else mret addr);
    brelse bp ;;
    mret addr
  else panic "bmap: out of range".

Record stat := mk_stat { st_dev : Z; st_ino : Z; st_type : Z; st_nlink : Z; st_size : Z }.

Definition stati (i : nat) : M kst stat :=
  ip ← read_inode i;
  mret (mk_stat (i32 (i_dev ip)) (i_inum ip) (i_type ip) (i_nlink ip) (i_size ip)).

Definition either_copyout (user_dst : ptr_kind) (dst src len : Z) : M kst Z :=
  me ← cur_proc; p ← read_proc me;
  kmdo (copyout_uork (p_pgtable p) dst src len user_dst).
Definition either_copyin (dst : Z) (user_src : ptr_kind) (src len : Z) : M kst Z :=
  me ← cur_proc; p ← read_proc me;
  kmdo (copyin_uork (p_pgtable p) dst src len user_src).

(** A round reads or writes the rest of one block. *)
Definition rw_fuel (n : Z) : nat := Z.to_nat (n / BSIZE + 3).

Definition readi (i : nat) (user_dst : ptr_kind) (dst off n : Z) : M kst Z :=
  ip ← read_inode i;
  if (off >? i_size ip) || (u32 (off + n) <? off) then mret 0 else
  let n := if u32 (off + n) >? i_size ip then i_size ip - off else n in
  tot ← while_loop (rw_fuel n) (0, off, dst) (fun '(tot, off, dst) =>
    if negb (tot <? n) then mret (inr tot) else
    addr ← bmap i (off / BSIZE);
    bp ← bread (i_dev ip) addr;
    let m := Z.min (n - tot) (BSIZE - off mod BSIZE) in
    r ← either_copyout user_dst dst (buf_data bp + off mod BSIZE) m;
    if r =? -1 then brelse bp ;; mret (inr tot) else
    brelse bp ;;
    mret (inl (tot + m, off + m, u64 (dst + m))));
  mret (i32 tot).

Definition writei (i : nat) (user_src : ptr_kind) (src off n : Z) : M kst Z :=
  ip ← read_inode i;
  if (off >? i_size ip) || (u32 (off + n) <? off) then mret (-1) else
  if u32 (off + n) >? MAXFILE * BSIZE then mret (-1) else
  off ← while_loop (rw_fuel n) (0, off, src) (fun '(tot, off, src) =>
    if negb (tot <? n) then mret (inr off) else
    addr ← bmap i (off / BSIZE);
    bp ← bread (i_dev ip) addr;
    let m := Z.min (n - tot) (BSIZE - off mod BSIZE) in
    r ← either_copyin (buf_data bp + off mod BSIZE) user_src src m;
    if r =? -1 then brelse bp ;; mret (inr off) else
    log_write bp ;;
    brelse bp ;;
    mret (inl (tot + m, off + m, u64 (src + m))));
  (if n >? 0 then
     ip ← read_inode i;
     (if off >? i_size ip then upd_inode i (set_i_size off) else mret tt) ;;
     iupdate i
   else mret tt) ;;
  mret (i32 n).

(** ** Directories *)

Definition namecmp (s t : Z) : M kst Z := gets (fun st => strncmp (k_mem st) s t DIRSIZ).

(** The answer carries the offset of the entry, [*poff]. *)
Definition dirlookup (dp : nat) (name : Z) : M kst (option (nat * Z)) :=
  d ← read_inode dp;
  if negb (i_type d =? T_DIR) then panic "dirlookup not DIR" else
  for_loop (Z.to_nat ((i_size d + DIRENT_SIZE - 1) / DIRENT_SIZE)) 0 (fun k =>
    let off := k * DIRENT_SIZE in
    r ← readi dp KPTR local_de off DIRENT_SIZE;
    if negb (r =? DIRENT_SIZE) then panic "dirlookup read" else
    inum ← kld16 local_de;
    if inum =? 0 then mret None else
    c ← namecmp name (local_de + 2);
    if c =? 0 then ip ← iget (i_dev d) inum; mret (Some (ip, off)) else mret None).

(** The offset of the first empty entry, or the size. *)
Definition find_empty_dirent (dp : nat) : M kst Z :=
  d ← read_inode dp;
  r ← for_loop (Z.to_nat ((i_size d + DIRENT_SIZE - 1) / DIRENT_SIZE)) 0 (fun k =>
        let off := k * DIRENT_SIZE in
        r ← readi dp KPTR local_de off DIRENT_SIZE;
        if negb (r =? DIRENT_SIZE) then panic "dirlink read" else
        inum ← kld16 local_de;
        mret (if inum =? 0 then Some off else None));
  mret (default ((i_size d + DIRENT_SIZE - 1) / DIRENT_SIZE * DIRENT_SIZE) r).

Definition dirlink (dp : nat) (name inum : Z) : M kst Z :=
  r ← dirlookup dp name;
  match r with
  | Some (ip, _) => iput ip ;; mret (-1)
  | None =>
      off ← find_empty_dirent dp;
      modify (fun s => set_k_mem (strncpy (k_mem s) (local_de + 2) name DIRSIZ) s) ;;
      kst16 local_de (u16 inum) ;;
      r ← writei dp KPTR local_de off DIRENT_SIZE;
      if negb (r =? DIRENT_SIZE) then panic "dirlink" else mret 0
  end.

(** ** Paths *)

Definition slash : Z := 47.

(** A path sits in a buffer of at most a page. *)
Definition path_fuel : nat := S (Z.to_nat PGSIZE).

Fixpoint skip_slashes (fuel : nat) (m : mem) (path : Z) : option Z :=
  match fuel with
  | O => None
  | S fuel' => if ld8 m path =? slash then skip_slashes fuel' m (path + 1) else Some path
  end.
Fixpoint skip_name (fuel : nat) (m : mem) (path : Z) : option Z :=
  match fuel with
  | O => None
  | S fuel' => if negb (ld8 m path =? slash) && negb (ld8 m path =? 0)
               then skip_name fuel' m (path + 1) else Some path
  end.

(** The memory after the element has been copied to [name], and the rest of the
    path ([NULL] when there is no element). *)
Definition skipelem_mem (m : mem) (path name : Z) : option (mem * Z) :=
  path ← skip_slashes path_fuel m path;
  if ld8 m path =? 0 then Some (m, NULL) else
  let s := path in
  path ← skip_name path_fuel m path;
  let len := path - s in
  let m := if len >=? DIRSIZ then memmove m name s DIRSIZ
           else st8 (memmove m name s len) (name + len) 0 in
  path ← skip_slashes path_fuel m path;
  Some (m, path).

Definition skipelem (path name : Z) : M kst Z :=
  m ← gets k_mem;
  match skipelem_mem m path name with
  | None => no_fuel
  | Some (m', p) => modify (set_k_mem m') ;; mret p
  end.

Definition namex (path : Z) (nameiparent : bool) (name : Z) : M kst (option nat) :=
  c ← kld8 path;
  ip ← (if c =? slash then iget ROOTDEV ROOTINO else
        me ← cur_proc; p ← read_proc me; cwd ← lift_opt (p_cwd p); idup cwd);
  while_loop path_fuel (path, ip) (fun '(path, ip) =>
    path ← skipelem path name;
    if path =? NULL then
      if nameiparent then iput ip ;; mret (inr None) else mret (inr (Some ip))
    else
    ilock ip ;;
    x ← read_inode ip;
    if negb (i_type x =? T_DIR) then iunlockput ip ;; mret (inr None) else
    c ← kld8 path;
    if nameiparent && (c =? 0) then iunlock ip ;; mret (inr (Some ip)) else
    next ← dirlookup ip name;
    match next with
    | None => iunlockput ip ;; mret (inr None)
    | Some (next, _) => iunlockput ip ;; mret (inl (path, next))
    end).

Definition namei (path : Z) : M kst (option nat) := namex path false local_name.
Definition nameiparent (path name : Z) : M kst (option nat) := namex path true name.

End Fs.
