(* ===== verification/PathSpec.v ===== *)
(** * Paths: kernel/fs/fs.c (skipelem)

    Calling [skipelem] until it answers NULL, as [namex] does, gives the elements of
    the path: the pieces between slashes that are not empty. *)

From S2P Require Import Prelude Hart VmSystem Mem Str Kalloc State Sleep Bio Log Fs.

(** ** The reference: splitting at slashes *)

Fixpoint split_slash (l cur : list Z) : list (list Z) :=
  match l with
  | [] => [cur]
  | c :: l' => if c =? slash then cur :: split_slash l' [] else split_slash l' (cur ++ [c])
  end.
Definition nonempty (e : list Z) : bool := match e with [] => false | _ => true end.
Definition path_elems (l : list Z) : list (list Z) := List.filter nonempty (split_slash l []).

Definition no_slash (l : list Z) : Prop := Forall (fun c => c <> slash) l.
Definition ends_here (l : list Z) : Prop := match l with [] => True | c :: _ => c = slash end.

Lemma split_name e l : forall cur, no_slash e -> split_slash (e ++ l) cur = split_slash l (cur ++ e).
Proof.
  induction e as [|c e IH]; intros cur He; [by rewrite app_nil_r|]. apply Forall_cons_1 in He as [Hc He].
  cbn [app split_slash]. rewrite (proj2 (Z.eqb_neq c slash) Hc), IH by done. by rewrite <- app_assoc.
Qed.

Lemma elems_slash l : path_elems (slash :: l) = path_elems l.
Proof. reflexivity. Qed.

Lemma elems_slashes n l : path_elems (replicate n slash ++ l) = path_elems l.
Proof. induction n as [|n IH]; [done|]. cbn [replicate app]. by rewrite elems_slash. Qed.

Lemma elems_name e l : e <> [] -> no_slash e -> ends_here l -> path_elems (e ++ l) = e :: path_elems l.
Proof.
  intros Hne He Hl. unfold path_elems. rewrite split_name by done. cbn [app].
  assert (nonempty e = true) as Hn by (by destruct e). destruct l as [|c l]; cbn [split_slash List.filter].
  - by rewrite Hn.
  - cbn in Hl. subst c. rewrite Z.eqb_refl. cbn [List.filter]. by rewrite Hn.
Qed.

(** Every path is slashes and then nothing, or an element and the rest. *)
Lemma path_cases l : exists n l1, l = replicate n slash ++ l1 /\
  (l1 = [] \/ exists e l2, l1 = e ++ l2 /\ e <> [] /\ no_slash e /\ ends_here l2).
Proof.
  assert (forall l, exists e l2, l = e ++ l2 /\ no_slash e /\ ends_here l2) as Hsplit.
  { clear l. induction l as [|c l (e & l2 & -> & He & Hl)]; [exists [], []; split; [done|split; [constructor|done]]|].
    destruct (decide (c = slash)) as [->|Hc]; [exists [], (slash :: e ++ l2); split; [done|split; [constructor|done]]|].
    exists (c :: e), l2. split; [done|]. split; [by constructor|done]. }
  induction l as [|c l (n & l1 & -> & H)]; [exists 0%nat, []; split; [done|by left]|].
  destruct (decide (c = slash)) as [->|Hc]; [exists (S n), l1; by split|].
  exists 0%nat, (c :: replicate n slash ++ l1). split; [done|]. right.
  destruct (Hsplit (replicate n slash ++ l1)) as (e & l2 & E & He & Hl). exists (c :: e), l2.
  rewrite E. split; [done|]. split; [done|]. split; [by constructor|done].
Qed.

(** ** The loops of [skipelem] *)

Lemma skip_slashes_ok m l n : forall fuel a, cstr m a (replicate n slash ++ l) ->
  (match l with [] => True | c :: _ => c <> slash end) -> (n < fuel)%nat ->
  skip_slashes fuel m a = Some (a + Z.of_nat n).
Proof.
  induction n as [|n IH]; intros [|fuel] a Hc Hl Hf; try lia; cbn [skip_slashes].
  - rewrite (cstr_head _ _ _ Hc). cbn [replicate app]. destruct l as [|c l]; [by rewrite Z.add_0_r|].
    rewrite (proj2 (Z.eqb_neq c slash) Hl). by rewrite Z.add_0_r.
  - rewrite (cstr_head _ _ _ Hc). cbn [replicate app] in *. rewrite Z.eqb_refl.
    destruct Hc as (_ & _ & Hc). rewrite (IH fuel (a + 1) Hc Hl) by lia. f_equal. lia.
Qed.

Lemma skip_name_ok m l e : forall fuel a, cstr m a (e ++ l) -> no_slash e -> ends_here l -> (length e < fuel)%nat ->
  skip_name fuel m a = Some (a + Z.of_nat (length e)).
Proof.
  induction e as [|c e IH]; intros [|fuel] a Hc He Hl Hf; cbn [length] in *; try lia; cbn [skip_name];
    rewrite (cstr_head _ _ _ Hc); cbn [app].
  - destruct l as [|c l]; [by rewrite Z.add_0_r|]. cbn in Hl. subst c. by rewrite Z.add_0_r.
  - apply Forall_cons_1 in He as [Hcs He]. destruct Hc as (Hc0 & _ & Hc).
    rewrite (proj2 (Z.eqb_neq c slash) Hcs), (proj2 (Z.eqb_neq c 0) Hc0). cbn [negb andb].
    rewrite (IH fuel (a + 1) Hc He Hl) by lia. f_equal. lia.
Qed.

(** ** The buffer [name] *)

Fixpoint name_bytes (n : nat) (m : mem) (a : Z) : list Z :=
  match n with
  | O => []
  | S n' => if ld8 m a =? 0 then [] else ld8 m a :: name_bytes n' m (a + 1)
  end.
Definition name_max : nat := Z.to_nat DIRSIZ.

Lemma name_bytes_ok e : forall n m a, (forall i c, e !! i = Some c -> (i < n)%nat -> ld8 m (a + Z.of_nat i) = c /\ c <> 0) ->
  ((length e < n)%nat -> ld8 m (a + Z.of_nat (length e)) = 0) -> name_bytes n m a = take n e.
Proof.
  induction e as [|c e IH]; intros [|n] m a H Hend; try done; cbn [name_bytes take].
  - cbn [length] in Hend. rewrite Z.add_0_r in Hend. by rewrite Hend by lia.
  - destruct (H 0%nat c eq_refl ltac:(lia)) as [Hc Hc0]. rewrite Z.add_0_r in Hc. rewrite Hc.
    rewrite (proj2 (Z.eqb_neq c 0) Hc0). f_equal. apply IH.
    + intros i x Hi Hn. replace (a + 1 + Z.of_nat i) with (a + Z.of_nat (S i)) by lia. apply H; [done|lia].
    + intros Hl. replace (a + 1 + Z.of_nat (length e)) with (a + Z.of_nat (length (c :: e))) by (cbn [length]; lia).
      apply Hend. cbn [length]. lia.
Qed.

(** The memory after an element of [len] bytes at [s] went to [name]. *)
Definition put_name (m : mem) (name s len : Z) : mem :=
  if len >=? DIRSIZ then memmove m name s DIRSIZ else st8 (memmove m name s len) (name + len) 0.

Lemma put_name_outside m name s len b : 0 <= len -> b < name \/ name + DIRSIZ <= b ->
  ld8 (put_name m name s len) b = ld8 m b.
Proof.
  intros Hl Hb. unfold put_name, DIRSIZ in *. destruct (Z.geb_spec len 14).
  - rewrite memmove_ok, decide_False by lia. done.
  - rewrite ld8_st8, decide_False, memmove_ok, decide_False by lia. done.
Qed.

Lemma put_name_bytes m name s e l : cstr m s (e ++ l) ->
  name_bytes name_max (put_name m name s (Z.of_nat (length e))) name = take name_max e.
Proof.
  intros Hc. unfold put_name, name_max, DIRSIZ. change (Z.to_nat 14) with 14%nat. apply name_bytes_ok.
  - intros i c Hi Hn. destruct (cstr_lookup m s (e ++ l) i c Hc (lookup_app_l_Some _ _ _ _ Hi)) as [H H0].
    apply lookup_lt_Some in Hi. split; [|done]. destruct (Z.geb_spec (Z.of_nat (length e)) 14).
    + rewrite memmove_ok, decide_True by lia. rewrite <- H. f_equal. lia.
    + rewrite ld8_st8, decide_False, memmove_ok, decide_True by lia. rewrite <- H. f_equal. lia.
  - intros Hl. destruct (Z.geb_spec (Z.of_nat (length e)) 14); [lia|]. rewrite ld8_st8, decide_True by lia. done.
Qed.

(** ** One call and the whole path *)

Definition apart (path : Z) (l : list Z) (name : Z) : Prop :=
  path + Z.of_nat (length l) < name \/ name + DIRSIZ <= path.

Lemma skipelem_end m path name n : 0 < path -> cstr m path (replicate n slash) -> (n < path_fuel)%nat ->
  skipelem_mem m path name = Some (m, NULL).
Proof.
  intros Hp Hc Hf. unfold skipelem_mem. rewrite <- (app_nil_r (replicate n slash)) in Hc.
  rewrite (skip_slashes_ok m [] n path_fuel path Hc I Hf). cbn [mbind option_bind].
  apply cstr_app in Hc. rewrite length_replicate in Hc. rewrite (cstr_head _ _ _ Hc). done.
Qed.

Lemma skipelem_elem m path name n e k l : 0 < path ->
  cstr m path (replicate n slash ++ e ++ replicate k slash ++ l) -> e <> [] -> no_slash e ->
  ends_here (replicate k slash ++ l) -> match l with [] => True | c :: _ => c <> slash end ->
  (n + length e + k < path_fuel)%nat -> apart path (replicate n slash ++ e ++ replicate k slash ++ l) name ->
  exists m' p, skipelem_mem m path name = Some (m', p) /\ p <> NULL /\
    p = path + Z.of_nat (n + length e + k) /\ cstr m' p l /\ name_bytes name_max m' name = take name_max e.
Proof.
  intros Hp Hc Hne He Hends Hl Hf Ha. unfold skipelem_mem.
  assert (match e ++ replicate k slash ++ l with [] => True | c :: _ => c <> slash end) as Hhead.
  { destruct e as [|c e]; [done|]. by apply Forall_cons_1 in He as [? _]. }
  rewrite (skip_slashes_ok m _ n path_fuel path Hc Hhead) by lia. cbn [mbind option_bind].
  pose proof (cstr_app _ _ _ _ Hc) as Hc1. rewrite length_replicate in Hc1. set (s := path + Z.of_nat n) in *.
  assert ((ld8 m s =? 0) = false) as ->.
  { rewrite (cstr_head _ _ _ Hc1). destruct e as [|c e]; [done|]. cbn [app] in Hc1 |- *. destruct Hc1 as (H0 & _).
    by apply Z.eqb_neq. }
  rewrite (skip_name_ok m _ e path_fuel s Hc1 He Hends) by lia. cbn [mbind option_bind].
  replace (s + Z.of_nat (length e) - s) with (Z.of_nat (length e)) by lia.
  fold (put_name m name s (Z.of_nat (length e))). set (m' := put_name _ _ _ _).
  pose proof (cstr_app _ _ _ _ Hc1) as Hc2.
  unfold apart in Ha. rewrite !length_app, !length_replicate in Ha.
  assert (cstr m' (s + Z.of_nat (length e)) (replicate k slash ++ l)) as Hc3.
  { eapply cstr_frame; [|exact Hc2]. intros b Hb. apply put_name_outside; [lia|].
    rewrite length_app, length_replicate in Hb. unfold s in Hb. lia. }
  rewrite (skip_slashes_ok m' l k path_fuel _ Hc3 Hl) by lia. cbn [mbind option_bind].
  eexists m', _. split; [reflexivity|]. split; [unfold s, NULL; lia|]. split; [unfold s; lia|].
  split; [|by apply (put_name_bytes m name s e (replicate k slash ++ l))].
  apply cstr_app in Hc3. by rewrite length_replicate in Hc3.
Qed.

(** The names [namex] looks up on its way. *)
Fixpoint walk_path (fuel : nat) (m : mem) (path name : Z) : option (list (list Z)) :=
  match fuel with
  | O => None
  | S fuel' =>
      '(m', p) ← skipelem_mem m path name;
      if p =? NULL then Some [] else
      rest ← walk_path fuel' m' p name; Some (name_bytes name_max m' name :: rest)
  end.

(** C31: Walking a path with [skipelem] is the same as splitting it at its slashes:
    whatever slashes lead, trail or repeat, the calls deliver in [name] exactly the
    non-empty elements in order, each cut to [DIRSIZ] bytes (NUL-terminated when
    shorter), and answer NULL at the end, within as many rounds as the path has bytes
    and one. *)
Theorem skipelem_splits l : forall fuel m path name,
  0 < path -> cstr m path l -> (length l < path_fuel)%nat -> apart path l name -> (length l < fuel)%nat ->
  walk_path fuel m path name = Some (map (take name_max) (path_elems l)).
Proof.
  remember (length l) as len eqn:Elen. revert l Elen. induction (lt_wf len) as [len _ IH].
  intros l -> [|fuel] m path name Hp Hc Hf Ha Hfuel; [lia|]. cbn [walk_path].
  destruct (path_cases l) as (n & l1 & -> & [->|(e & l2 & -> & Hne & He & Hl2)]).
  - rewrite app_nil_r in Hc, Hf. rewrite length_replicate in Hf.
    rewrite (skipelem_end m path name n Hp Hc Hf). cbn [mbind option_bind Z.eqb NULL].
    rewrite elems_slashes. done.
  - destruct (path_cases l2) as (k & l3 & -> & Hl3).
    assert (match l3 with [] => True | c :: _ => c <> slash end) as Hh3.
    { destruct Hl3 as [->|(e' & l4 & -> & Hne' & He' & _)]; [done|]. destruct e' as [|c e']; [done|].
      by apply Forall_cons_1 in He' as [? _]. }
    rewrite !length_app, !length_replicate in Hf, Hfuel.
    destruct (skipelem_elem m path name n e k l3 Hp Hc Hne He Hl2 Hh3 ltac:(lia) Ha) as (m' & p & -> & Hpn & Hpe & Hc' & Hb).
    cbn [mbind option_bind]. rewrite (proj2 (Z.eqb_neq p NULL) Hpn).
    assert (1 <= length e)%nat as Hle by (destruct e; [done|cbn [length]; lia]).
    rewrite (IH (length l3)) with (l := l3); try done; try lia.
    + cbn [mbind option_bind]. rewrite Hb, elems_slashes, elems_name, elems_slashes by done. done.
    + rewrite !length_app, !length_replicate. lia.
    + unfold apart in *. rewrite !length_app, !length_replicate in Ha. lia.
Qed.

(** "/a//bcdefghijklmnopq/" has two elements, the second one cut to 14 bytes. *)
Definition demo_path : list Z := [47; 97; 47; 47; 98; 99; 100; 101; 102; 103; 104; 105; 106; 107; 108; 109; 110; 111; 112; 113; 47].
Definition demo_path_mem : mem := store_bytes ∅ 4096 (demo_path ++ [0]).

Lemma demo_path_cstr : cstr demo_path_mem 4096 demo_path.
Proof. cbn [cstr demo_path]. repeat (split; [done|split; [by vm_compute|]]). by vm_compute. Qed.

Lemma skipelem_splits_witness :
  walk_path 22 demo_path_mem 4096 8192 = Some [[97]; [98; 99; 100; 101; 102; 103; 104; 105; 106; 107; 108; 109; 110; 111]].
Proof.
  exact (skipelem_splits demo_path 22 demo_path_mem 4096 8192 ltac:(lia) demo_path_cstr ltac:(by vm_compute; lia)
    ltac:(left; by vm_compute) ltac:(cbn; lia)).
Defined.
