(* ===== verification/FsSpec.v ===== *)
(** * What the file system promises: kernel/fs/fs.c (bmap, readi, dirlookup)

    Over the abstract store of blocks that the buffer cache implements: the contents of
    an inode are the bytes of its blocks, [readi] copies them, and [dirlookup] searches
    them. *)

From S2P Require Import Prelude Hart VmSystem Mem Str Kalloc PageTable UserCopy State Critical Sleep SleepSpec Bio BioSpec Log LogSpec Fs PathSpec.

(** ** Names *)

Fixpoint until_nul (l : list Z) : list Z :=
  match l with [] => [] | c :: l' => if c =? 0 then [] else c :: until_nul l' end.

Lemma name_bytes_until (f : nat -> Z) m n : forall a k, (forall i, (i < n)%nat -> ld8 m (a + Z.of_nat i) = f (k + i)%nat) ->
  name_bytes n m a = until_nul (map f (seq k n)).
Proof.
  induction n as [|n IH]; intros a k Hf; [done|]. cbn [name_bytes seq map until_nul]. pose proof (Hf 0%nat ltac:(lia)) as E.
  rewrite Z.add_0_r, Nat.add_0_r in E. rewrite E. destruct (f k =? 0); [done|]. f_equal. apply IH. intros i Hi.
  replace (a + 1 + Z.of_nat i) with (a + Z.of_nat (S i)) by lia. rewrite Hf by lia. f_equal. lia.
Qed.

Lemma name_bytes_ext m m' n a : (forall x, a <= x < a + Z.of_nat n -> ld8 m' x = ld8 m x) -> name_bytes n m' a = name_bytes n m a.
Proof.
  revert a. induction n as [|n IH]; intros a Hm; [done|]. cbn [name_bytes]. rewrite Hm by lia. destruct (ld8 m a =? 0); [done|]. f_equal. apply IH. intros x Hx. apply Hm. lia.
Qed.

(** [strncmp] answers 0 for equal names. *)
Lemma strncmp_zero m n : forall p q, strncmp_loop n m p q = 0 <-> name_bytes n m p = name_bytes n m q.
Proof.
  induction n as [|n IH]; intros p q; [done|]. cbn [strncmp_loop name_bytes]. pose proof (ld8_range m p). pose proof (ld8_range m q).
  destruct (Z.eqb_spec (ld8 m p) 0) as [E|E]; cbn [negb andb].
  - rewrite E. destruct (Z.eqb_spec (ld8 m q) 0) as [E2|E2]; [rewrite E2; done|]. split; [lia|done].
  - destruct (Z.eqb_spec (ld8 m p) (ld8 m q)) as [E2|E2].
    + rewrite <- E2, (proj2 (Z.eqb_neq _ 0)) by done. rewrite IH. split; [by intros ->|by intros [=]].
    + destruct (Z.eqb_spec (ld8 m q) 0) as [E3|E3]; (split; [lia|]); [done|]. intros [=]. lia.
Qed.

Section Blocks.
Context `{KernelData} `{WaitFuel}.
Variables (h : hw) (me : nat) (p : process) (D : Z).
Hypothesis He : bio_env h me p.
Abbreviation rep := (bio_rep h me p D).

(** ** Looking at a block *)

Definition in_bufs (x : Z) : Prop := exists i, (i < nbufs)%nat /\ buf_data i <= x < buf_data i + BSIZE.

Lemma bufs_only_out m m' x : bufs_only m m' -> ~ in_bufs x -> ld8 m' x = ld8 m x.
Proof. intros Hm Hx. apply Hm. intros i Hi Hr. apply Hx. by exists i. Qed.

(** The cache does not care about the rest of the memory. *)
Lemma rep_mem a s m' : rep a s -> (forall x, in_bufs x -> ld8 m' x = ld8 (k_mem s) x) -> rep a (set_k_mem m' s).
Proof.
  intros Hr Hm. destruct (br_lru _ _ _ _ _ _ Hr) as (l & Hl & HP). pose proof (br_content _ _ _ _ _ _ Hr) as Hc.
  apply (rep_step h me p D a a s _ l Hr); try done; [apply Hr|apply Hr|].
  destruct Hc as [C1 C2 C3 C4 C5 C6 C7 C8 C9]. split; try done.
  intros i b Hb Hd. destruct (C6 i b Hb Hd) as [Hv <-]. split; [done|]. apply load_bytes_ext. intros x Hx. apply Hm.
  exists i. split; [rewrite <- C1; by eapply lookup_lt_Some|]. unfold block_bytes, BSIZE in *. lia.
Qed.

Lemma rep_hw a s : rep a s -> rep a (set_k_hw (held_hw 0 [] h) s).
Proof.
  intros Hr. destruct (br_lru _ _ _ _ _ _ Hr) as (l & Hl & HP).
  apply (rep_step h me p D a a s _ l Hr); try done; [by left|apply Hr|apply Hr].
Qed.

(** [bread] and [brelse] around something that leaves the cache alone. *)
Lemma visit_ok a s b : rep a s -> bs_held a = ∅ -> (size (bs_ref a) < nbufs)%nat ->
  exists i s1 a1, bread D b s = Ret i s1 /\ rep a1 s1 /\ (i < nbufs)%nat /\ load_bytes (k_mem s1) (buf_data i) block_bytes = bs_view a b /\
    others s1 = others s /\ bufs_only (k_mem s) (k_mem s1) /\
    (forall s1', rep a1 s1' -> exists s2, brelse i s1' = Ret tt s2 /\ rep a s2 /\ k_mem s2 = k_mem s1' /\ others s2 = others s1').
Proof.
  intros Hr Hh Hcap. destruct (bread_ok h me p D He a s b Hr) as (i & s1 & E & Hr1 & Ho & _ & _ & Hm); [by rewrite Hh|intros c j; by rewrite Hh|by right|].
  set (a1 := bs_set_held b (Some i) _) in Hr1. exists i, s1, a1.
  assert (bs_held a1 !! b = Some i) as Hh1 by (cbn; by rewrite lookup_opt, decide_True).
  destruct (held_buf h me p D a1 s1 b i Hr1 Hh1) as (_ & _ & _ & _ & _ & Hi & _ & _ & Hd).
  do 6 (split; [done|]). intros s1' Hr1'. pose proof (br_content _ _ _ _ _ _ Hr) as Hc. pose proof (ref_of_range p D a _ _ b Hc) as Hrg.
  assert (ref_of a1 b = u32 (ref_of a b + 1)) as Hrf by (unfold a1; by rewrite ref_of_held, ref_of_set, decide_True).
  destruct (brelse_ok h me p D He a1 s1' b i Hr1' Hh1) as (s2 & E2 & Hr2 & Ho2 & _ & Hm2 & _).
  { rewrite Hrf, u32_pred_succ by done. intros Hz. cbn. apply (bc_clean _ _ _ _ _ Hc); [|by rewrite Hh].
    unfold ref_of in Hz. destruct (bs_ref a !! b) as [r|] eqn:Er; [|done]. cbn in Hz. subst r. destruct (bc_ref _ _ _ _ _ Hc b 0 Er). lia. }
  exists s2. split; [exact E2|]. split; [|by split]. rewrite Hrf, u32_pred_succ in Hr2 by done.
  assert (bs_set_held b None (bs_set_ref b (ref_of a b) a1) = a) as <-; [|done].
  apply bs_ext; [done|done| |]; intros c; cbn.
  - rewrite lookup_cnt. case_decide as Hc2; [subst c|by rewrite lookup_cnt, decide_False].
    unfold ref_of, cnt. destruct (bs_ref a !! b) as [r|] eqn:Er; [|done]. cbn. destruct (bc_ref _ _ _ _ _ Hc b r Er). by rewrite decide_False by lia.
  - rewrite lookup_opt. case_decide as Hc2; [subst c; by rewrite Hh|]. by rewrite lookup_opt, decide_False.
Qed.

Lemma inodes_of s s' : others s' = others s -> k_inodes s' = k_inodes s.
Proof. unfold others. by intros [= _ _ _ _ _ _ _ _ _ E _ _ _ _]. Qed.

(** ** The contents of an inode *)

(** The block that holds block [k] of the file, 0 when there is none. *)
Definition file_addr (a : bstore) (ip : inode) (k : Z) : Z :=
  if k <? NDIRECT then default 0 (i_addrs ip !! Z.to_nat k)
  else list_le 4 (bs_view a (default 0 (i_addrs ip !! Z.to_nat NDIRECT))) (Z.to_nat (4 * (k - NDIRECT))).

(** An inode whose first [k] blocks are there. *)
Record has_blocks (a : bstore) (ip : inode) (k : Z) : Prop := {
  hb_len : length (i_addrs ip) = NADDRS;
  hb_max : k <= MAXFILE;
  hb_ind : NDIRECT < k -> default 0 (i_addrs ip !! Z.to_nat NDIRECT) <> 0;
  hb_addr : forall j, 0 <= j < k -> file_addr a ip j <> 0 }.

Lemma get_addr_Ret i ip k s : k_inodes s !! i = Some ip -> length (i_addrs ip) = NADDRS -> 0 <= k <= NDIRECT ->
  get_addr i k s = Ret (default 0 (i_addrs ip !! Z.to_nat k)) s.
Proof.
  intros Hi Hl Hk. unfold get_addr. rret (read_inode_Ret i ip s Hi).
  destruct (lookup_lt_is_Some_2 (i_addrs ip) (Z.to_nat k)) as [x Hx]; [rewrite Hl; unfold NADDRS; lia|]. by rewrite Hx.
Qed.

Lemma bmap_ok a s i ip k n : rep a s -> bs_held a = ∅ -> (size (bs_ref a) < nbufs)%nat -> k_inodes s !! i = Some ip -> i_dev ip = D ->
  has_blocks a ip n -> 0 <= k < n ->
  exists s', bmap i k s = Ret (file_addr a ip k) s' /\ rep a s' /\ others s' = others s /\ bufs_only (k_mem s) (k_mem s').
Proof.
  intros Hr Hh Hcap Hi Hd Hb Hk. unfold bmap. rret (read_inode_Ret i ip s Hi). pose proof (hb_addr _ _ _ Hb k Hk) as Hne.
  unfold file_addr in *. destruct (Z.ltb_spec k NDIRECT) as [Hlt|Hge].
  - rret (get_addr_Ret i ip k s Hi (hb_len _ _ _ Hb) ltac:(lia)). rewrite (proj2 (Z.eqb_neq _ 0)) by done. by exists s.
  - pose proof (hb_max _ _ _ Hb) as Hmax. unfold MAXFILE in Hmax. rewrite (proj2 (Z.ltb_lt (k - NDIRECT) NINDIRECT)) by lia.
    set (ind := default 0 (i_addrs ip !! Z.to_nat NDIRECT)) in *. assert (ind <> 0) as Hind by (apply (hb_ind _ _ _ Hb); lia).
    rret (get_addr_Ret i ip NDIRECT s Hi (hb_len _ _ _ Hb) ltac:(done)). fold ind. rewrite (proj2 (Z.eqb_neq ind 0)) by done. rewrite bind_mret, Hd.
    destruct (visit_ok a s ind Hr Hh Hcap) as (bi & s1 & a1 & E1 & Hr1 & Hbi & Hv & Ho1 & Hm1 & Hrel). rret E1.
    assert (kld32 (buf_data bi + 4 * (k - NDIRECT)) s1 = Ret (list_le 4 (bs_view a ind) (Z.to_nat (4 * (k - NDIRECT)))) s1) as E2.
    { unfold kld32, gets. f_equal. unfold ld32. rewrite <- Hv. rewrite <- (load_le_list 4 (k_mem s1) (buf_data bi) block_bytes).
      - f_equal. lia.
      - unfold block_bytes, NINDIRECT, BSIZE in *. lia. }
    rret E2. rewrite (proj2 (Z.eqb_neq _ 0)) by done. rewrite bind_mret.
    destruct (Hrel s1 Hr1) as (s2 & E3 & Hr2 & Hm2 & Ho2). rret E3. exists s2. split; [done|]. split; [done|]. split; [congruence|]. by rewrite Hm2.
Qed.

Definition file_byte (a : bstore) (ip : inode) (x : Z) : Z :=
  default 0 (bs_view a (file_addr a ip (x / BSIZE)) !! Z.to_nat (x mod BSIZE)).
Definition file_bytes (a : bstore) (ip : inode) (off n : Z) : list Z :=
  map (fun j => file_byte a ip (off + Z.of_nat j)) (seq 0 (Z.to_nat n)).

(** ** readi into kernel memory *)

Lemma copyout_ok a s dst src len : rep a s -> 0 <= len < 2 ^ 31 ->
  either_copyout KPTR dst src len s = Ret 0 (set_k_mem (memmove (k_mem s) dst src len) (set_k_hw (held_hw 0 [] h) s)).
Proof.
  intros Hr Hl. unfold either_copyout. rret (cur_proc_lvl h (be_wf _ _ _ He) 0 [] me s (br_hw _ _ _ _ _ _ Hr) (be_run _ _ _ He)).
  rewrite (bind_Ret _ _ _ _ _ (read_proc_Ret me p (set_k_hw (held_hw 0 [] h) s) (br_me _ _ _ _ _ _ Hr))).
  unfold kmdo, zoom, copyout_uork, modify, mret, M_ret, mbind, M_bind. cbn. rewrite i32_small by lia. done.
Qed.

(** One round of the loop. *)
Definition read_round (i : nat) (ip : inode) (n : Z) : Z * Z * Z -> M kst (Z * Z * Z + Z) := fun '(tot, off, dst) =>
  if negb (tot <? n) then mret (inr tot) else
  addr ← bmap i (off / BSIZE);
  bp ← bread (i_dev ip) addr;
  let m := Z.min (n - tot) (BSIZE - off mod BSIZE) in
  r ← either_copyout KPTR dst (buf_data bp + off mod BSIZE) m;
  if r =? -1 then brelse bp ;; mret (inr tot) else
  brelse bp ;;
  mret (inl (tot + m, off + m, u64 (dst + m))).

Lemma read_round_ok a s i ip n nb tot off dst : rep a s -> bs_held a = ∅ -> (size (bs_ref a) < nbufs)%nat -> k_inodes s !! i = Some ip -> i_dev ip = D ->
  has_blocks a ip nb -> 0 <= off -> 0 <= tot < n -> off / BSIZE < nb -> 0 <= dst -> dst + (n - tot) < 2 ^ 64 ->
  (forall x, dst <= x < dst + (n - tot) -> ~ in_bufs x) ->
  let m := Z.min (n - tot) (BSIZE - off mod BSIZE) in
  exists s', read_round i ip n (tot, off, dst) s = Ret (inl (tot + m, off + m, dst + m)) s' /\ rep a s' /\ others s' = others s /\
    (forall j, 0 <= j < m -> ld8 (k_mem s') (dst + j) = file_byte a ip (off + j)) /\
    (forall x, ~ in_bufs x -> ~ (dst <= x < dst + m) -> ld8 (k_mem s') x = ld8 (k_mem s) x).
Proof.
  intros Hr Hh Hcap Hi Hd Hb Hoff Htot Hnb Hdst Hdn Hout m. assert (0 < m <= BSIZE /\ m <= n - tot /\ off mod BSIZE + m <= BSIZE) as Hm by (unfold m, BSIZE; lia).
  unfold read_round. rewrite (proj2 (Z.ltb_lt tot n)) by lia. cbn [negb].
  destruct (bmap_ok a s i ip (off / BSIZE) nb Hr Hh Hcap Hi Hd Hb) as (s1 & E1 & Hr1 & Ho1 & Hm1); [unfold BSIZE in *; lia|]. rret E1. rewrite Hd.
  set (addr := file_addr a ip (off / BSIZE)). destruct (visit_ok a s1 addr Hr1 Hh Hcap) as (bi & s2 & a1 & E2 & Hr2 & Hbi & Hv & Ho2 & Hm2 & Hrel). rret E2. fold m.
  rret (copyout_ok a1 s2 dst (buf_data bi + off mod BSIZE) m Hr2 ltac:(unfold BSIZE in *; lia)). change (0 =? -1) with false. cbn iota.
  set (m3 := memmove (k_mem s2) dst (buf_data bi + off mod BSIZE) m). set (s3 := set_k_mem m3 _).
  assert (rep a1 s3) as Hr3.
  { apply rep_mem; [by apply rep_hw|]. intros x Hx. change (k_mem (set_k_hw _ s2)) with (k_mem s2). unfold m3. rewrite memmove_ok, decide_False; [done|]. intros Hx2. apply (Hout x); [lia|done]. }
  destruct (Hrel s3 Hr3) as (s4 & E4 & Hr4 & Hm4 & Ho4). rret E4. rewrite u64_small by lia.
  exists s4. split; [done|]. split; [done|]. split; [rewrite Ho4; change (others s3) with (others s2); congruence|]. rewrite Hm4. change (k_mem s3) with m3.
  split.
  - intros j Hj. unfold m3. rewrite memmove_ok, decide_True by lia. unfold file_byte.
    assert ((off + j) / BSIZE = off / BSIZE /\ (off + j) mod BSIZE = off mod BSIZE + j) as [-> ->] by (unfold BSIZE in *; lia). fold addr. rewrite <- Hv.
    rewrite lookup_load_bytes by (unfold block_bytes, BSIZE in *; lia). cbn. f_equal. lia.
  - intros x Hx Hx2. unfold m3. rewrite memmove_ok, decide_False by lia. rewrite (bufs_only_out _ _ x Hm2 Hx). by apply bufs_only_out.
Qed.

Lemma read_loop_ok a i ip n nb : bs_held a = ∅ -> (size (bs_ref a) < nbufs)%nat -> i_dev ip = D -> has_blocks a ip nb ->
  forall rounds s tot off dst, rep a s -> k_inodes s !! i = Some ip -> 0 <= off -> 0 <= tot <= n -> off + (n - tot) <= nb * BSIZE -> 0 <= dst -> dst + (n - tot) < 2 ^ 64 ->
  (forall x, dst <= x < dst + (n - tot) -> ~ in_bufs x) ->
  (if decide (tot < n) then (off + (n - tot) - 1) / BSIZE - off / BSIZE + 2 else 1) <= Z.of_nat rounds ->
  exists s', while_loop rounds (tot, off, dst) (read_round i ip n) s = Ret n s' /\ rep a s' /\ others s' = others s /\
    (forall j, 0 <= j < n - tot -> ld8 (k_mem s') (dst + j) = file_byte a ip (off + j)) /\
    (forall x, ~ in_bufs x -> ~ (dst <= x < dst + (n - tot)) -> ld8 (k_mem s') x = ld8 (k_mem s) x).
Proof.
  intros Hh Hcap Hd Hb. induction rounds as [|rounds IH]; intros s tot off dst Hr Hi Hoff Htot Hnb Hdst Hdn Hout Hrd.
  { exfalso. case_decide; [|lia]. unfold BSIZE in *. lia. }
  cbn [while_loop]. destruct (decide (tot < n)) as [Hlt|Hge].
  2:{ rewrite bind_eq. cbn [read_round]. rewrite (proj2 (Z.ltb_ge tot n)) by lia. cbn. exists s. replace tot with n by lia. split; [done|]. split; [done|]. split; [done|]. split; [lia|done]. }
  destruct (read_round_ok a s i ip n nb tot off dst Hr Hh Hcap Hi Hd Hb Hoff) as (s1 & E1 & Hr1 & Ho1 & Hj1 & Hx1); [lia|unfold BSIZE in *; lia|lia|lia|done|].
  rret E1. set (m := Z.min (n - tot) (BSIZE - off mod BSIZE)) in *. assert (0 < m <= n - tot) as Hm by (unfold m, BSIZE; lia).
  destruct (IH s1 (tot + m) (off + m) (dst + m) Hr1) as (s2 & E2 & Hr2 & Ho2 & Hj2 & Hx2); [by rewrite (inodes_of _ _ Ho1)|lia|lia|lia|lia|lia| | |].
  - intros x Hx. apply Hout. lia.
  - case_decide as Hc; [|unfold BSIZE in *; lia]. assert ((off + m) / BSIZE = off / BSIZE + 1) as -> by (unfold m, BSIZE in *; lia).
    replace (off + m + (n - (tot + m)) - 1) with (off + (n - tot) - 1) by lia. lia.
  - exists s2. split; [done|]. split; [done|]. split; [congruence|]. split.
    + intros j Hj. destruct (decide (j < m)).
      * rewrite Hx2; [apply Hj1; lia|apply Hout; lia|lia].
      * replace (dst + j) with (dst + m + (j - m)) by lia. rewrite Hj2 by lia. f_equal. lia.
    + intros x Hx Hx3. rewrite Hx2, Hx1 by (done || lia). done.
Qed.

(** Where the bytes from [off] end, and how many of [n] are read. *)
Definition read_len (size off n : Z) : Z :=
  if (off >? size) || (u32 (off + n) <? off) then 0 else Z.min n (size - off).

Lemma read_len_range size off n : 0 <= size < 2 ^ 32 -> 0 <= off < 2 ^ 32 -> 0 <= n < 2 ^ 32 ->
  0 <= read_len size off n <= n /\ (read_len size off n = 0 \/ off + read_len size off n <= size) /\
  read_len size off n = (if (off >? size) || (u32 (off + n) <? off) then 0 else if u32 (off + n) >? size then size - off else n).
Proof.
  intros Hs Ho Hn. unfold read_len. destruct (Z.gtb_spec off size), (Z.ltb_spec (u32 (off + n)) off); cbn [orb]; try lia.
  assert (u32 (off + n) = off + n) as -> by (unfold u32 in *; lia). destruct (Z.gtb_spec (off + n) size); lia.
Qed.

Lemma readi_ok a s i ip dst off n : rep a s -> bs_held a = ∅ -> (size (bs_ref a) < nbufs)%nat -> k_inodes s !! i = Some ip -> i_dev ip = D ->
  0 <= i_size ip <= MAXFILE * BSIZE -> has_blocks a ip ((i_size ip + BSIZE - 1) / BSIZE) -> 0 <= off < 2 ^ 32 -> 0 <= n < 2 ^ 32 ->
  0 <= dst -> dst + n < 2 ^ 64 -> (forall x, dst <= x < dst + n -> ~ in_bufs x) ->
  let r := read_len (i_size ip) off n in
  exists s', readi i KPTR dst off n s = Ret r s' /\ rep a s' /\ others s' = others s /\
    load_bytes (k_mem s') dst (Z.to_nat r) = file_bytes a ip off r /\
    (forall x, ~ in_bufs x -> ~ (dst <= x < dst + r) -> ld8 (k_mem s') x = ld8 (k_mem s) x).
Proof.
  intros Hr Hh Hcap Hi Hd Hsz Hb Hoff Hn Hdst Hdn Hout r. unfold MAXFILE, NDIRECT, NINDIRECT, BSIZE in Hsz. change (1024 / 4) with 256 in Hsz.
  destruct (read_len_range (i_size ip) off n) as (Hrr & Hre & Er); [lia|done|done|]. fold r in Hrr, Hre, Er.
  unfold readi. rret (read_inode_Ret i ip s Hi). destruct ((off >? i_size ip) || (u32 (off + n) <? off)) eqn:Eg.
  { exists s. rewrite Er. split; [done|]. split; [done|]. split; [done|]. split; [done|]. done. }
  apply orb_false_iff in Eg as [Eg _]. assert (off <= i_size ip) as Hos by (destruct (Z.gtb_spec off (i_size ip)); [done|lia]). clear Eg.
  rewrite <- Er.
  destruct (read_loop_ok a i ip r ((i_size ip + BSIZE - 1) / BSIZE) Hh Hcap Hd Hb (rw_fuel r) s 0 off dst Hr Hi) as (s1 & E1 & Hr1 & Ho1 & Hj1 & Hx1); [lia|lia| |lia|lia| | |].
  - unfold BSIZE. lia.
  - intros x Hx. apply Hout. lia.
  - unfold rw_fuel. case_decide; unfold BSIZE; lia.
  - unfold read_round in E1. rewrite Hd in *. rret E1. rewrite i32_small by lia. exists s1. split; [done|]. split; [done|]. split; [done|]. rewrite !Z.sub_0_r in *. split; [|done].
    apply list_eq. intros j. destruct (decide (j < Z.to_nat r)%nat) as [Hj|Hj].
    + rewrite lookup_load_bytes by done. unfold file_bytes. rewrite list_lookup_fmap, lookup_seq_lt by done. cbn. f_equal. apply Hj1. lia.
    + rewrite !lookup_ge_None_2; [done| |]; rewrite ?length_load_bytes; unfold file_bytes; rewrite ?length_map, ?length_seq; lia.
Qed.

(** ** The table of inodes *)

Definition iget_hit (dev inum : Z) (ip : inode) : bool := (i_ref ip >? 0) && (i_dev ip =? dev) && (i_inum ip =? inum).
Definition iget_free (ip : inode) : bool := i_ref ip =? 0.
Definition iget_new (dev inum : Z) (ip : inode) : inode := set_i_valid 0 (set_i_ref 1 (set_i_inum inum (set_i_dev dev ip))).
(** The slot and the new table: the inode is there already, or the first free slot is
    taken for it. *)
Definition iget_at (dev inum : Z) (l : list inode) : option (nat * list inode) :=
  match first_index (iget_hit dev inum) l with
  | Some i => Some (i, alter (fun ip => set_i_ref (i_ref ip + 1) ip) i l)
  | None => match first_index iget_free l with Some i => Some (i, alter (iget_new dev inum) i l) | None => None end
  end.

Definition ninodes_tab : nat := Z.to_nat NINODE.

Definition iget_round (dev inum : Z) : Z * option nat -> M kst (Z * option nat + (nat + option nat)) := fun '(i, empty) =>
  if i >=? NINODE then mret (inr (inr empty)) else
  ip ← read_inode (Z.to_nat i);
  if (i_ref ip >? 0) && (i_dev ip =? dev) && (i_inum ip =? inum) then
    upd_inode (Z.to_nat i) (fun ip => set_i_ref (i_ref ip + 1) ip) ;;
    release LkIcache ;;
    mret (inr (inl (Z.to_nat i)))
  else
    let empty := match empty with None => if i_ref ip =? 0 then Some (Z.to_nat i) else None | Some _ => empty end in
    mret (inl (i + 1, empty)).

Lemma first_index_drop {A} (P : A -> bool) (l : list A) i x : l !! i = Some x ->
  first_index P (drop i l) = if P x then Some 0%nat else S <$> first_index P (drop (S i) l).
Proof.
  intros Hx. rewrite (drop_S _ _ _ Hx). unfold first_index. cbn [list_find]. destruct (P x) eqn:E.
  - by rewrite decide_True by done.
  - rewrite decide_False by (by intros []). by destruct (list_find P (drop (S i) l)) as [[j y]|].
Qed.

Lemma iget_scan_ok dev inum s1 s2 : length (k_inodes s1) = ninodes_tab -> (forall l, release LkIcache (set_k_inodes l s1) = Ret tt (set_k_inodes l s2)) ->
  forall n i empty, (i + n = ninodes_tab)%nat ->
  while_loop (S n) (Z.of_nat i, empty) (iget_round dev inum) s1 =
  match first_index (iget_hit dev inum) (drop i (k_inodes s1)) with
  | Some j => Ret (inl (i + j)%nat) (set_k_inodes (alter (fun ip => set_i_ref (i_ref ip + 1) ip) (i + j)%nat (k_inodes s1)) s2)
  | None => Ret (inr (match empty with Some e => Some e | None => (Nat.add i) <$> first_index iget_free (drop i (k_inodes s1)) end)) s1
  end.
Proof.
  intros Hlen Hrel. induction n as [|n IH]; intros i empty Hi; rewrite while_S, bind_eq; cbn [iget_round].
  - replace (Z.of_nat i >=? NINODE) with true by (unfold ninodes_tab in *; lia). rewrite drop_ge by lia. cbn. by destruct empty.
  - replace (Z.of_nat i >=? NINODE) with false by (unfold ninodes_tab in *; lia). destruct (lookup_lt_is_Some_2 (k_inodes s1) i) as [ip Hip]; [lia|].
    rewrite Nat2Z.id. rret (read_inode_Ret i ip s1 Hip). rewrite !(first_index_drop _ _ _ _ Hip).
    change ((i_ref ip >? 0) && (i_dev ip =? dev) && (i_inum ip =? inum)) with (iget_hit dev inum ip). destruct (iget_hit dev inum ip).
    + rewrite Nat.add_0_r. rret (upd_inode_Ret i ip (fun ip => set_i_ref (i_ref ip + 1) ip) s1 Hip). rret (Hrel (<[i := set_i_ref (i_ref ip + 1) ip]> (k_inodes s1))).
      cbn. by rewrite (alter_at _ _ _ _ Hip).
    + cbn [obind mret M_ret]. change (Z.of_nat i + 1) with (Z.of_nat i + Z.of_nat 1). rewrite <- Nat2Z.inj_add, Nat.add_1_r. rewrite IH by lia.
      destruct (first_index (iget_hit dev inum) (drop (S i) (k_inodes s1))) as [j|]; cbn [fmap option_fmap option_map].
      * by rewrite Nat.add_succ_r.
      * do 2 f_equal. change (i_ref ip =? 0) with (iget_free ip). destruct empty; [done|]. destruct (iget_free ip); [cbn; by rewrite Nat.add_0_r|].
        destruct (first_index iget_free (drop (S i) (k_inodes s1))); cbn; [|done]. by rewrite Nat.add_succ_r.
Qed.

Hypothesis Hicache : hw_locks h !! LkIcache = Some free_lock.

Lemma iget_ok dev inum s : at_lvl h 0 [] (k_hw s) -> length (k_inodes s) = ninodes_tab ->
  iget dev inum s = match iget_at dev inum (k_inodes s) with
    | Some (i, l) => Ret i (set_k_hw (held_hw 0 [] h) (set_k_inodes l s))
    | None => Panic "iget: no inodes"
    end.
Proof.
  intros Hs Hlen. unfold iget. rret (acquire_lvl h (be_wf _ _ _ He) 0 [] LkIcache s Hs Hicache ltac:(set_solver)).
  set (s1 := set_k_hw (held_hw 0 [LkIcache] h) s). set (s2 := set_k_hw (held_hw 0 [] h) s).
  assert (forall l, release LkIcache (set_k_inodes l s1) = Ret tt (set_k_inodes l s2)) as Hrel.
  { intros l. apply (release_top h (be_wf _ _ _ He) 0 [] LkIcache (set_k_inodes l s) Hicache ltac:(set_solver) ltac:(constructor)). }
  fold (iget_round dev inum). pose proof (iget_scan_ok dev inum s1 s2 Hlen Hrel (Z.to_nat NINODE) 0 None eq_refl) as E.
  rewrite drop_0 in E. unfold iget_at. change (k_inodes s1) with (k_inodes s) in E. rewrite bind_eq.
  change (while_loop (S (Z.to_nat NINODE)) _ _ s1) with (while_loop (S (Z.to_nat NINODE)) (Z.of_nat 0, None) (iget_round dev inum) s1). rewrite E.
  destruct (first_index (iget_hit dev inum) (k_inodes s)) as [j|]; [done|]. cbn [obind].
  destruct (first_index iget_free (k_inodes s)) as [j|] eqn:Ej; [|done]. cbn [fmap option_fmap option_map Nat.add].
  apply first_index_lt in Ej as [ip Hip]%lookup_lt_is_Some_2. rewrite (alter_at _ _ _ _ Hip). assert (k_inodes s1 !! j = Some ip) as Hip1 by done.
  rret (upd_inode_Ret j ip (set_i_dev dev) s1 Hip1).
  assert (forall x f, upd_inode j f (set_k_inodes (<[j := x]> (k_inodes s1)) s1) = Ret tt (set_k_inodes (<[j := f x]> (k_inodes s1)) s1)) as Hu.
  { intros x f. rewrite (upd_inode_Ret j x); [cbn; by rewrite list_insert_insert_eq|]. cbn. apply list_lookup_insert_eq. by eapply lookup_lt_Some. }
  rret (Hu (set_i_dev dev ip) (set_i_inum inum)). rret (Hu (set_i_inum inum (set_i_dev dev ip)) (set_i_ref 1)).
  rret (Hu (set_i_ref 1 (set_i_inum inum (set_i_dev dev ip))) (set_i_valid 0)).
  rret (Hrel (<[j := iget_new dev inum ip]> (k_inodes s1))). done.
Qed.

Lemma rep_inodes a s l : rep a s -> rep a (set_k_inodes l s).
Proof.
  intros Hr. destruct (br_lru _ _ _ _ _ _ Hr) as (o & Ho & HP). apply (rep_step h me p D a a s _ o Hr); try done; apply Hr.
Qed.

(** ** Directories *)

Definition dir_inum (a : bstore) (ip : inode) (k : Z) : Z :=
  file_byte a ip (k * DIRENT_SIZE) + 256 * file_byte a ip (k * DIRENT_SIZE + 1).
Definition dir_name (a : bstore) (ip : inode) (k : Z) : list Z := until_nul (file_bytes a ip (k * DIRENT_SIZE + 2) DIRSIZ).
(** Entry [k] is in use and has the name. *)
Definition dir_hit (a : bstore) (ip : inode) (name : list Z) (k : Z) : bool :=
  negb (dir_inum a ip k =? 0) && bool_decide (dir_name a ip k = name).

Definition lookup_round (dp : nat) (d : inode) (name : Z) (k : Z) : M kst (option (nat * Z)) :=
  let off := k * DIRENT_SIZE in
  r ← readi dp KPTR local_de off DIRENT_SIZE;
  if negb (r =? DIRENT_SIZE) then panic "dirlookup read" else
  inum ← kld16 local_de;
  if inum =? 0 then mret None else
  c ← namecmp name (local_de + 2);
  if c =? 0 then ip ← iget (i_dev d) inum; mret (Some (ip, off)) else mret None.

Definition off_de (x : Z) : Prop := ~ in_bufs x /\ ~ (local_de <= x < local_de + DIRENT_SIZE).

Lemma de_not_buf x : local_de <= x < local_de + DIRENT_SIZE -> ~ in_bufs x.
Proof.
  intros Hx (i & Hi & Hr). unfold nbufs in Hi. destruct (buf_data_range i ltac:(lia)) as [_ Hb]. unfold local_de, DIRENT_SIZE in *. lia.
Qed.

Lemma local_de_small : 0 <= local_de /\ local_de + 4096 < 2 ^ 63.
Proof.
  pose proof (buf_data_range 0 ltac:(done)) as [Hb1 Hb2]. pose proof locals_range as Hl. pose proof kernel_end_range as Hk.
  unfold local_de, BSIZE in *. vmlia.
Qed.

(** Reading one entry. *)
Lemma read_entry_ok a s dp d k : rep a s -> bs_held a = ∅ -> (size (bs_ref a) < nbufs)%nat -> k_inodes s !! dp = Some d -> i_dev d = D ->
  0 <= i_size d <= MAXFILE * BSIZE -> has_blocks a d ((i_size d + BSIZE - 1) / BSIZE) -> 0 <= k -> (k + 1) * DIRENT_SIZE <= i_size d ->
  exists s', readi dp KPTR local_de (k * DIRENT_SIZE) DIRENT_SIZE s = Ret DIRENT_SIZE s' /\ rep a s' /\ others s' = others s /\
    ld16 (k_mem s') local_de = dir_inum a d k /\ name_bytes (Z.to_nat DIRSIZ) (k_mem s') (local_de + 2) = dir_name a d k /\
    (forall x, off_de x -> ld8 (k_mem s') x = ld8 (k_mem s) x).
Proof.
  intros Hr Hh Hcap Hi Hd Hsz Hb Hk Hks. assert (i_size d < 2 ^ 31) as Hsm by (unfold MAXFILE, NDIRECT, NINDIRECT, BSIZE in Hsz; change (1024 / 4) with 256 in Hsz; lia).
  pose proof local_de_small as Hde. unfold DIRENT_SIZE in Hks.
  assert (read_len (i_size d) (k * DIRENT_SIZE) DIRENT_SIZE = DIRENT_SIZE) as Hlen.
  { unfold read_len, DIRENT_SIZE. rewrite u32_small by lia. destruct (Z.gtb_spec (k * 16) (i_size d)), (Z.ltb_spec (k * 16 + 16) (k * 16)); cbn [orb]; lia. }
  destruct (readi_ok a s dp d local_de (k * DIRENT_SIZE) DIRENT_SIZE Hr Hh Hcap Hi Hd Hsz Hb) as (s' & E & Hr' & Ho & Hl & Hx);
    [unfold DIRENT_SIZE; lia|unfold DIRENT_SIZE; lia|lia|unfold DIRENT_SIZE; lia|exact de_not_buf|]. rewrite Hlen in *.
  exists s'. split; [done|]. split; [done|]. split; [done|].
  assert (forall j, 0 <= j < DIRENT_SIZE -> ld8 (k_mem s') (local_de + j) = file_byte a d (k * DIRENT_SIZE + j)) as Hj.
  { intros j Hj. apply (f_equal (.!! Z.to_nat j)) in Hl. rewrite lookup_load_bytes in Hl by lia. unfold file_bytes in Hl.
    rewrite list_lookup_fmap, lookup_seq_lt in Hl by lia. cbn in Hl. injection Hl as Hl. rewrite Z2Nat.id in Hl by lia. exact Hl. }
  split; [|split; [|intros x [Hx1 Hx2]; by apply Hx]].
  - unfold ld16. cbn [load_le]. unfold dir_inum. pose proof (Hj 0 ltac:(done)) as E0. rewrite !Z.add_0_r in E0. rewrite E0, (Hj 1) by done. lia.
  - unfold dir_name, file_bytes. apply (name_bytes_until (fun j => file_byte a d (k * DIRENT_SIZE + 2 + Z.of_nat j))). intros i Hi2. cbn [Nat.add].
    rewrite <- Z.add_assoc, Hj by (change (Z.to_nat DIRSIZ) with 14%nat in Hi2; unfold DIRENT_SIZE; lia). f_equal. lia.
Qed.

(** The first entry from [k] on, of [n], that has the name. *)
Fixpoint dir_first (a : bstore) (d : inode) (nm : list Z) (n : nat) (k : Z) : option Z :=
  match n with
  | O => None
  | S n' => if dir_hit a d nm k then Some k else dir_first a d nm n' (k + 1)
  end.

Lemma dir_first_Some a d nm n : forall k j, dir_first a d nm n k = Some j ->
  k <= j < k + Z.of_nat n /\ dir_hit a d nm j = true /\ (forall i, k <= i < j -> dir_hit a d nm i = false).
Proof.
  induction n as [|n IH]; intros k j; cbn [dir_first]; [done|]. destruct (dir_hit a d nm k) eqn:E.
  - intros [= <-]. split; [lia|]. split; [done|]. lia.
  - intros Hf. destruct (IH _ _ Hf) as (H1' & H2' & H3'). split; [lia|]. split; [done|]. intros i Hi.
    destruct (decide (i = k)) as [->|]; [done|]. apply H3'. lia.
Qed.
Lemma dir_first_None a d nm n : forall k, dir_first a d nm n k = None -> forall i, k <= i < k + Z.of_nat n -> dir_hit a d nm i = false.
Proof.
  induction n as [|n IH]; intros k; cbn [dir_first]; [lia|]. destruct (dir_hit a d nm k) eqn:E; [done|].
  intros Hf i Hi. destruct (decide (i = k)) as [->|]; [done|]. apply (IH (k + 1)); [done|lia].
Qed.

Lemma others_inodes s s' l : others s' = others s -> others (set_k_inodes l s') = others (set_k_inodes l s).
Proof. unfold others. intros [= E1 E2 E3 E4 E5 E6 E7 E8 E9 E10 E11 E12 E13 E14]. cbn in *. congruence. Qed.

(** The state after [dirlookup] found entry [k]. *)
Definition looked_up (a : bstore) (d : inode) (s : kst) (k : Z) (o : outcome kst (option (nat * Z))) : Prop :=
  match iget_at D (dir_inum a d k) (k_inodes s) with
  | Some (i, l) => exists s', o = Ret (Some (i, k * DIRENT_SIZE)) s' /\ rep a s' /\ others s' = others (set_k_inodes l s) /\ (forall x, off_de x -> ld8 (k_mem s') x = ld8 (k_mem s) x)
  | None => o = Panic "iget: no inodes"
  end.

Lemma lookup_loop_ok a dp d name nm : bs_held a = ∅ -> (size (bs_ref a) < nbufs)%nat -> i_dev d = D ->
  0 <= i_size d <= MAXFILE * BSIZE -> has_blocks a d ((i_size d + BSIZE - 1) / BSIZE) -> (forall x, name <= x < name + DIRSIZ -> off_de x) ->
  forall n k s, rep a s -> k_inodes s !! dp = Some d -> length (k_inodes s) = ninodes_tab -> name_bytes (Z.to_nat DIRSIZ) (k_mem s) name = nm ->
  0 <= k -> (k + Z.of_nat n) * DIRENT_SIZE <= i_size d ->
  match dir_first a d nm n k with
  | Some j => looked_up a d s j (for_loop n k (lookup_round dp d name) s)
  | None => exists s', for_loop n k (lookup_round dp d name) s = Ret None s' /\ rep a s' /\ others s' = others s /\ (forall x, off_de x -> ld8 (k_mem s') x = ld8 (k_mem s) x)
  end.
Proof.
  intros Hh Hcap Hd Hsz Hb Hoff. induction n as [|n IH]; intros k s Hr Hi Hlen Hnm Hk Hks; cbn [dir_first for_loop].
  { exists s. done. }
  destruct (read_entry_ok a s dp d k Hr Hh Hcap Hi Hd Hsz Hb Hk) as (s1 & E1 & Hr1 & Ho1 & Hin & Hna & Hx1); [unfold DIRENT_SIZE in *; lia|].
  assert (name_bytes (Z.to_nat DIRSIZ) (k_mem s1) name = nm) as Hnm1.
  { rewrite <- Hnm. apply name_bytes_ext. intros x Hx. apply Hx1, Hoff. change (Z.of_nat (Z.to_nat DIRSIZ)) with DIRSIZ in Hx. done. }
  assert (lookup_round dp d name k s = (if dir_hit a d nm k then ip ← iget D (dir_inum a d k); mret (Some (ip, k * DIRENT_SIZE)) else mret None) s1) as E.
  { unfold lookup_round. rret E1. rewrite Z.eqb_refl. cbn [negb]. assert (kld16 local_de s1 = Ret (dir_inum a d k) s1) as E2 by (unfold kld16, gets; by rewrite Hin).
    rret E2. unfold dir_hit. destruct (dir_inum a d k =? 0); [done|]. cbn [negb andb].
    assert (namecmp name (local_de + 2) s1 = Ret (strncmp (k_mem s1) name (local_de + 2) DIRSIZ) s1) as E3 by done. rret E3.
    pose proof (strncmp_zero (k_mem s1) (Z.to_nat DIRSIZ) name (local_de + 2)) as Hs. rewrite Hnm1, Hna in Hs. unfold strncmp. rewrite Hd.
    case_bool_decide as Hc; [rewrite (proj2 Hs (eq_sym Hc))|rewrite (proj2 (Z.eqb_neq _ 0)) by (intros Hz; apply Hc; symmetry; by apply Hs)]; done. }
  rewrite bind_eq, E. destruct (dir_hit a d nm k).
  - unfold looked_up. rewrite bind_eq, (iget_ok D (dir_inum a d k) s1 (br_hw _ _ _ _ _ _ Hr1)) by (by rewrite (inodes_of _ _ Ho1)).
    rewrite (inodes_of _ _ Ho1). destruct (iget_at D (dir_inum a d k) (k_inodes s)) as [[i l]|]; [|done]. cbn [obind].
    eexists. split; [done|]. split; [by apply rep_hw, rep_inodes|]. split; [|done].
    exact (others_inodes s s1 l Ho1).
  - cbn [obind mret M_ret]. specialize (IH (k + 1) s1 Hr1). rewrite (inodes_of _ _ Ho1) in IH. specialize (IH Hi Hlen Hnm1 ltac:(lia) ltac:(lia)).
    destruct (dir_first a d nm n (k + 1)) as [j|].
    + unfold looked_up in *. rewrite (inodes_of _ _ Ho1) in IH. destruct (iget_at D (dir_inum a d j) (k_inodes s)) as [[i l]|]; [|done].
      destruct IH as (s' & E2 & Hr2 & Ho2 & Hx2). exists s'. split; [done|]. split; [done|]. split; [|intros x Hx; rewrite Hx2, Hx1 by done; done].
      rewrite Ho2. by apply others_inodes.
    + destruct IH as (s' & E2 & Hr2 & Ho2 & Hx2). exists s'. split; [done|]. split; [done|]. split; [congruence|]. intros x Hx. by rewrite Hx2, Hx1.
Qed.

Lemma dirlookup_ok a s dp d name nm : rep a s -> bs_held a = ∅ -> (size (bs_ref a) < nbufs)%nat -> k_inodes s !! dp = Some d -> i_dev d = D ->
  i_type d = T_DIR -> 0 <= i_size d <= MAXFILE * BSIZE -> i_size d mod DIRENT_SIZE = 0 -> has_blocks a d ((i_size d + BSIZE - 1) / BSIZE) ->
  length (k_inodes s) = ninodes_tab -> name_bytes (Z.to_nat DIRSIZ) (k_mem s) name = nm -> (forall x, name <= x < name + DIRSIZ -> off_de x) ->
  match dir_first a d nm (Z.to_nat (i_size d / DIRENT_SIZE)) 0 with
  | Some j => looked_up a d s j (dirlookup dp name s)
  | None => exists s', dirlookup dp name s = Ret None s' /\ rep a s' /\ others s' = others s /\ (forall x, off_de x -> ld8 (k_mem s') x = ld8 (k_mem s) x)
  end.
Proof.
  intros Hr Hh Hcap Hi Hd Ht Hsz Hm Hb Hlen Hnm Hoff. unfold DIRENT_SIZE in Hm.
  pose proof (lookup_loop_ok a dp d name nm Hh Hcap Hd Hsz Hb Hoff (Z.to_nat (i_size d / DIRENT_SIZE)) 0 s Hr Hi Hlen Hnm ltac:(done)) as Hl.
  assert (dirlookup dp name s = for_loop (Z.to_nat (i_size d / DIRENT_SIZE)) 0 (lookup_round dp d name) s) as ->.
  { unfold dirlookup. rret (read_inode_Ret dp d s Hi). rewrite Ht. change (negb (T_DIR =? T_DIR)) with false. cbn iota.
    replace ((i_size d + DIRENT_SIZE - 1) / DIRENT_SIZE) with (i_size d / DIRENT_SIZE) by (unfold DIRENT_SIZE; lia). done. }
  apply Hl. unfold DIRENT_SIZE. lia.
Qed.
End Blocks.

(** C17: [readi] reads the contents of an inode.  For an inode of the cached device all of
    whose blocks are there, however they are spread over direct and indirect ones, it
    returns the number of bytes between the offset and the end of the file (none when
    the offset is past the end or offset and length wrap around), stores exactly these
    bytes of the file, leaves the store of blocks and every other part of the kernel
    as they were, and writes nowhere else but into the buffer cache. *)
Theorem readi_spec `{KernelData} `{WaitFuel} h me p D a s i ip dst off n :
  bio_env h me p -> bio_rep h me p D a s -> bs_held a = ∅ -> (size (bs_ref a) < nbufs)%nat -> k_inodes s !! i = Some ip -> i_dev ip = D ->
  0 <= i_size ip <= MAXFILE * BSIZE -> has_blocks a ip ((i_size ip + BSIZE - 1) / BSIZE) -> 0 <= off < 2 ^ 32 -> 0 <= n < 2 ^ 32 ->
  0 <= dst -> dst + n < 2 ^ 64 -> (forall x, dst <= x < dst + n -> ~ in_bufs x) ->
  let r := read_len (i_size ip) off n in
  exists s', readi i KPTR dst off n s = Ret r s' /\ bio_rep h me p D a s' /\ others s' = others s /\
    load_bytes (k_mem s') dst (Z.to_nat r) = file_bytes a ip off r /\
    (forall x, ~ in_bufs x -> ~ (dst <= x < dst + r) -> ld8 (k_mem s') x = ld8 (k_mem s) x).
Proof. intros He. by apply readi_ok. Qed.

(** C18: [dirlookup] finds the first entry in use with the name (compared up to fourteen
    bytes) and hands out its inode: the slot of the table that already holds it, with
    one more reference, or else the first free slot, set up for it; it panics exactly
    when there is neither.  Without such an entry it answers NULL and changes neither
    the table nor the store.  Its local entry and the buffer cache are the only memory
    it writes to. *)
Theorem dirlookup_spec `{KernelData} `{WaitFuel} h me p D a s dp d name nm :
  bio_env h me p -> hw_locks h !! LkIcache = Some free_lock -> bio_rep h me p D a s -> bs_held a = ∅ -> (size (bs_ref a) < nbufs)%nat ->
  k_inodes s !! dp = Some d -> i_dev d = D -> i_type d = T_DIR -> 0 <= i_size d <= MAXFILE * BSIZE -> i_size d mod DIRENT_SIZE = 0 ->
  has_blocks a d ((i_size d + BSIZE - 1) / BSIZE) -> length (k_inodes s) = ninodes_tab ->
  name_bytes (Z.to_nat DIRSIZ) (k_mem s) name = nm -> (forall x, name <= x < name + DIRSIZ -> off_de x) ->
  match dir_first a d nm (Z.to_nat (i_size d / DIRENT_SIZE)) 0 with
  | Some k =>
      match iget_at D (dir_inum a d k) (k_inodes s) with
      | Some (i, l) => exists s', dirlookup dp name s = Ret (Some (i, k * DIRENT_SIZE)) s' /\ bio_rep h me p D a s' /\
          others s' = others (set_k_inodes l s) /\ (forall x, off_de x -> ld8 (k_mem s') x = ld8 (k_mem s) x)
      | None => dirlookup dp name s = Panic "iget: no inodes"
      end
  | None => exists s', dirlookup dp name s = Ret None s' /\ bio_rep h me p D a s' /\ others s' = others s /\
      (forall x, off_de x -> ld8 (k_mem s') x = ld8 (k_mem s) x)
  end.
Proof.
  intros He Hic Hr Hh Hcap Hi Hd Ht Hsz Hm Hb Hlen Hnm Hoff.
  pose proof (dirlookup_ok h me p D He Hic a s dp d name nm Hr Hh Hcap Hi Hd Ht Hsz Hm Hb Hlen Hnm Hoff) as Hl.
  by destruct (dir_first a d nm (Z.to_nat (i_size d / DIRENT_SIZE)) 0).
Qed.
