(* ===== verification/FsWrite.v ===== *)
(** * Writing to inodes in a transaction: kernel/fs/log.c (log_write), kernel/fs/fs.c (iupdate, writei)

    [log_write] records a block in the running transaction and pins it in the cache;
    [writei] changes the contents of an inode by such blocks. *)

From stdpp Require Import functions.
From S2P Require Import Prelude Hart VmSystem Mem Str Kalloc PageTable UserCopy State Critical Sleep SleepSpec Bio BioSpec Log LogSpec Fs PathSpec FsSpec.

(** ** The transaction *)

(** The log with one more block, unless it has it already. *)
Definition logged (lg : log_st) (b : Z) : log_st :=
  if decide (b ∈ tx_blocks lg) then lg
  else set_lg_n (lg_n lg + 1) (set_lg_block (<[Z.to_nat (lg_n lg) := b]> (lg_block lg)) lg).

(** A running transaction with room for [k] more blocks, in the log and in the cache. *)
Record tx_room (lg : log_st) (a : bstore) (k : Z) : Prop := {
  tr_out : 1 <= lg_outstanding lg;
  tr_n : 0 <= lg_n lg;
  tr_log : lg_n lg + k <= LOGSIZE /\ lg_n lg + k <= lg_size lg - 1;
  tr_len : length (lg_block lg) = Z.to_nat LOGSIZE;
  tr_home : Forall (fun b => 0 <= b < 2 ^ 31) (tx_blocks lg);
  tr_pinned : Forall (fun b => ref_of a b <> 0) (tx_blocks lg);
  tr_cache : Z.of_nat (size (bs_ref a)) + k < NBUF;
  tr_refs : forall b, 0 <= ref_of a b /\ ref_of a b + k < 2 ^ 31 }.

(** The store when block [b] has been changed to [l] in the transaction. *)
Definition bs_logged (lg : log_st) (b : Z) (l : list Z) (a : bstore) : bstore :=
  let a' := if decide (b ∈ tx_blocks lg) then a else bs_set_ref b (ref_of a b + 1) a in
  bs_set_view b l a'.

Lemma find_block_ok b l : Forall (fun x => 0 <= x < 2 ^ 31) l -> forall i,
  (exists j, l !! j = Some b /\ find_block b l i = i + Z.of_nat j) \/ ((b ∉ l) /\ find_block b l i = i + Z.of_nat (length l)).
Proof.
  induction 1 as [|x l Hx _ IH]; intros i; cbn [find_block].
  - right. split; [apply not_elem_of_nil|cbn; lia].
  - rewrite u32_small by lia. destruct (Z.eqb_spec x b) as [->|Hne].
    + left. exists 0%nat. split; [done|lia].
    + destruct (IH (i + 1)) as [(j & Hj & ->)|[Hn ->]].
      * left. exists (S j). split; [done|lia].
      * right. split; [rewrite not_elem_of_cons; by split|cbn [length]; lia].
Qed.

Lemma tx_logged lg b : 0 <= lg_n lg -> (Z.to_nat (lg_n lg) < length (lg_block lg))%nat ->
  tx_blocks (logged lg b) = if decide (b ∈ tx_blocks lg) then tx_blocks lg else tx_blocks lg ++ [b].
Proof.
  intros Hn Hl. unfold logged. case_decide; [done|]. unfold tx_blocks. cbn [lg_n lg_block set_lg_n set_lg_block].
  replace (Z.to_nat (lg_n lg + 1)) with (S (Z.to_nat (lg_n lg))) by lia.
  rewrite (take_S_r _ _ b) by (by apply list_lookup_insert_eq). f_equal. by rewrite take_insert_ge by lia.
Qed.

Lemma logged_room lg a k b l : tx_room lg a (k + 1) -> 0 <= k -> 0 <= b < 2 ^ 31 -> tx_room (logged lg b) (bs_logged lg b l a) k.
Proof.
  intros [Hout Hn [Hl1 Hl2] Hlen Hhome Hpin Hcache Hrefs] Hk Hb.
  assert (Z.to_nat (lg_n lg) < length (lg_block lg))%nat as Hlt by lia. pose proof (tx_logged lg b Hn Hlt) as Etx.
  assert (forall c, ref_of (bs_logged lg b l a) c = if decide (b ∈ tx_blocks lg) then ref_of a c else if decide (b = c) then ref_of a b + 1 else ref_of a c) as Hrf.
  { intros c. unfold bs_logged, ref_of at 1. cbn [bs_set_view bs_ref]. case_decide; [done|]. apply (ref_of_set b (ref_of a b + 1) a c). }
  split.
  - unfold logged. by case_decide.
  - unfold logged. case_decide; cbn; lia.
  - unfold logged. case_decide; cbn; lia.
  - unfold logged. case_decide; cbn; rewrite ?length_insert; done.
  - rewrite Etx. case_decide; [done|]. apply Forall_app. split; [done|]. by constructor.
  - rewrite Etx. case_decide as Hd.
    + eapply Forall_impl; [exact Hpin|]. intros c Hc. by rewrite Hrf.
    + apply Forall_app. split.
      * rewrite Forall_forall in Hpin |- *. intros c Hc. rewrite Hrf. case_decide as Hbc; [subst; done|]. by apply Hpin.
      * constructor; [|constructor]. rewrite Hrf, decide_True by done. specialize (Hrefs b). lia.
  - unfold bs_logged. case_decide; [change (Z.of_nat (size (bs_ref a)) + k < NBUF); lia|].
    change (Z.of_nat (size (bs_ref (bs_set_ref b (ref_of a b + 1) a))) + k < NBUF). pose proof (set_ref_size a b (ref_of a b + 1)). lia.
  - intros c. rewrite Hrf. pose proof (Hrefs c). case_decide; [lia|]. case_decide; [subst; lia|lia].
Qed.

(** ** The on-disk inode *)

(** The inode with the fields that byte [o] of a block on holds. *)
Definition disk_inode (l : list Z) (o : nat) (ip : inode) : inode :=
  set_i_type (i16 (list_le 2 l o)) (set_i_major (i16 (list_le 2 l (o + 2)))
  (set_i_minor (i16 (list_le 2 l (o + 4))) (set_i_nlink (i16 (list_le 2 l (o + 6)))
  (set_i_size (list_le 4 l (o + 8))
  (set_i_addrs (map (fun k => list_le 4 l (o + 12 + 4 * k)) (seq 0 NADDRS)) ip))))).

Lemma load_dinode_list m a o len ip : (o + 64 <= len)%nat -> load_dinode m (a + Z.of_nat o) ip = disk_inode (load_bytes m a len) o ip.
Proof.
  intros Ho. unfold load_dinode, disk_inode, ld16, ld32.
  assert (forall n k, (o + k + n <= len)%nat -> load_le n m (a + Z.of_nat o + Z.of_nat k) = list_le n (load_bytes m a len) (o + k)) as E.
  { intros n k Hk. rewrite <- (load_le_list n m a len) by lia. f_equal. lia. }
  pose proof (E 2%nat 2%nat) as E2. pose proof (E 2%nat 4%nat) as E4. pose proof (E 2%nat 6%nat) as E6. pose proof (E 4%nat 8%nat) as E8.
  change (Z.of_nat 2) with 2 in E2. change (Z.of_nat 4) with 4 in E4. change (Z.of_nat 6) with 6 in E6. change (Z.of_nat 8) with 8 in E8. rewrite (load_le_list 2 m a len o), E2, E4, E6, E8 by lia. do 6 f_equal.
  apply map_ext_in. intros k Hk%in_seq. change (0 + NADDRS)%nat with 13%nat in Hk. replace (o + 12 + 4 * k)%nat with (o + (12 + 4 * k))%nat by lia.
  rewrite <- E by lia. f_equal. lia.
Qed.

(** An inode whose fields fit the on-disk ones. *)
Record inode_fits (ip : inode) : Prop := {
  if_type : - 2 ^ 15 <= i_type ip < 2 ^ 15;
  if_major : - 2 ^ 15 <= i_major ip < 2 ^ 15;
  if_minor : - 2 ^ 15 <= i_minor ip < 2 ^ 15;
  if_nlink : - 2 ^ 15 <= i_nlink ip < 2 ^ 15;
  if_size : 0 <= i_size ip < 2 ^ 32;
  if_len : length (i_addrs ip) = NADDRS;
  if_addrs : Forall (fun x => 0 <= x < 2 ^ 32) (i_addrs ip) }.

Lemma load_store_apart n n2 m a v b : b + Z.of_nat n <= a \/ a + Z.of_nat n2 <= b -> load_le n (store_le n2 m a v) b = load_le n m b.
Proof. intros Hb. apply load_le_ext. intros c Hc. apply ld8_store_le_outside. lia. Qed.

Lemma i16_st16 m a v : - 2 ^ 15 <= v < 2 ^ 15 -> i16 (load_le 2 (store_le 2 m a (u16 v)) a) = v.
Proof. intros Hv. rewrite load_store_le. change (256 ^ Z.of_nat 2) with (2 ^ 16). unfold u16, i16. rewrite Z.mod_mod by lia. rewrite Zplus_mod_idemp_l. rewrite Z.mod_small; lia. Qed.

(** A 16-bit field is read back under stores to other places. *)
Ltac read_field := rewrite !load_store_apart by lia; by apply i16_st16.

(** The five scalar fields. *)
Definition store_fields (m : mem) (a : Z) (ip : inode) : mem :=
  st32 (st16 (st16 (st16 (st16 m a (u16 (i_type ip))) (a + 2) (u16 (i_major ip))) (a + 4) (u16 (i_minor ip))) (a + 6) (u16 (i_nlink ip))) (a + 8) (i_size ip).

Lemma store_fields_ok m a ip m' : inode_fits ip -> (forall x, x < a + 12 -> ld8 m' x = ld8 (store_fields m a ip) x) ->
  (forall k x, i_addrs ip !! k = Some x -> ld32 m' (a + 12 + 4 * Z.of_nat k) = x) -> load_dinode m' a ip = ip.
Proof.
  intros [F1 F2 F3 F4 F5 F6 F7] Hm Hk. unfold load_dinode.
  assert (forall n b, b + Z.of_nat n <= a + 12 -> load_le n m' b = load_le n (store_fields m a ip) b) as E by (intros n b Hb; apply load_le_ext; intros c Hc; apply Hm; lia).
  unfold ld16 at 1 2 3 4. unfold ld32 at 1. rewrite !E by lia. unfold store_fields, st32, st16.
  set (M := store_le 4 _ _ _).
  assert (i16 (load_le 2 M a) = i_type ip) as -> by (unfold M; read_field).
  assert (i16 (load_le 2 M (a + 2)) = i_major ip) as -> by (unfold M; read_field).
  assert (i16 (load_le 2 M (a + 4)) = i_minor ip) as -> by (unfold M; read_field).
  assert (i16 (load_le 2 M (a + 6)) = i_nlink ip) as -> by (unfold M; read_field).
  unfold M. rewrite load_store_le, Z.mod_small by (change (256 ^ Z.of_nat 4) with (2 ^ 32); lia).
  assert (map (fun k => ld32 m' (a + 12 + 4 * Z.of_nat k)) (seq 0 NADDRS) = i_addrs ip) as ->; [|by destruct ip].
  apply list_eq. intros k. destruct (decide (k < NADDRS)%nat) as [Hl|Hl].
  - rewrite list_lookup_fmap, lookup_seq_lt by done. cbn. destruct (lookup_lt_is_Some_2 (i_addrs ip) k) as [x Hx]; [lia|]. by rewrite Hx, (Hk k x Hx).
  - rewrite (lookup_ge_None_2 (i_addrs ip)) by lia. apply lookup_ge_None_2. rewrite length_map, length_seq. lia.
Qed.

Section Write.
Context `{KernelData} `{WaitFuel}.
Variables (h : hw) (me : nat) (p : process) (D : Z).
Hypothesis He : bio_env h me p.
Hypothesis Hlog : hw_locks h !! LkLog = Some free_lock.
Abbreviation rep := (bio_rep h me p D).

(** [bpin] under the lock of the log. *)
Lemma bpin_at s i b : k_bufs s !! i = Some b ->
  bpin i (set_k_hw (held_hw 0 [LkLog] h) s) = Ret tt (set_k_hw (held_hw 0 [LkLog] h) (set_k_bufs (<[i := set_b_refcnt (u32 (b_refcnt b + 1)) b]> (k_bufs s)) s)).
Proof.
  intros Hb. unfold bpin. pose proof (be_wf _ _ _ He) as Hwf. pose proof (be_bcache _ _ _ He) as Hbc.
  rret (acquire_lvl h Hwf 0 [LkLog] LkBcache (set_k_hw (held_hw 0 [LkLog] h) s) (at_lvl_held h 0 [LkLog]) Hbc ltac:(set_solver)).
  set (s1 := set_k_hw _ _). assert (k_bufs s1 !! i = Some b) as Hb1 by done. rret (upd_buf_Ret i b (fun x => set_b_refcnt (u32 (b_refcnt x + 1)) x) s1 Hb1).
  apply (release_top h Hwf 0 [LkLog] LkBcache (set_k_bufs (<[i := set_b_refcnt (u32 (b_refcnt b + 1)) b]> (k_bufs s)) s) Hbc ltac:(set_solver)).
  apply NoDup_singleton.
Qed.

Lemma rep_set_log a s l : rep a s -> rep a (set_k_log l s).
Proof.
  intros Hr. destruct (br_lru _ _ _ _ _ _ Hr) as (o & Ho & HP). apply (rep_step h me p D a a s _ o Hr); try done; apply Hr.
Qed.

Lemma log_write_ok a0 a s b i lg k : rep a s -> bs_held a !! b = Some i -> k_log s = lg -> tx_room lg a0 (k + 1) -> 0 <= k -> 0 <= b < 2 ^ 31 ->
  0 <= ref_of a b < 2 ^ 32 - 1 ->
  exists s', log_write i s = Ret tt s' /\ rep (if decide (b ∈ tx_blocks lg) then a else bs_set_ref b (ref_of a b + 1) a) s' /\
    k_mem s' = k_mem s /\ others s' = others (set_k_log (logged lg b) s).
Proof.
  intros Hr Hh Hlg Hroom Hk Hb Hrb. pose proof (be_wf _ _ _ He) as Hwf. destruct (held_buf h me p D a s b i Hr Hh) as (x & Hx & Hxd & Hxn & _ & Hi & _ & Hrc & _).
  destruct (tr_log _ _ _ Hroom) as [Hl1 Hl2]. pose proof (tr_out _ _ _ Hroom) as Hout. pose proof (tr_n _ _ _ Hroom) as Hn. pose proof (tr_len _ _ _ Hroom) as Hlen.
  unfold log_write. rret (read_log_Ret lg s Hlg). destruct (Z.geb_spec (lg_n lg) LOGSIZE), (Z.geb_spec (lg_n lg) (lg_size lg - 1)); cbn [orb]; try lia.
  rewrite (proj2 (Z.ltb_ge (lg_outstanding lg) 1)) by lia.
  rret (acquire_lvl h Hwf 0 [] LkLog s (br_hw _ _ _ _ _ _ Hr) Hlog ltac:(set_solver)). set (s1 := set_k_hw (held_hw 0 [LkLog] h) s).
  assert (k_log s1 = lg) as Hlg1 by done. rret (read_log_Ret lg s1 Hlg1). assert (k_bufs s1 !! i = Some x) as Hx1 by done. rret (read_buf_Ret i x s1 Hx1). rewrite Hxn, i32_small by lia.
  fold (tx_blocks lg). assert (length (tx_blocks lg) = Z.to_nat (lg_n lg)) as Htl by (unfold tx_blocks; rewrite length_take; lia).
  assert (forall j, 0 <= j <= lg_n lg -> set_log_block j b s1 = Ret tt (set_k_log (set_lg_block (<[Z.to_nat j := b]> (lg_block lg)) lg) s1)) as Hset.
  { intros j Hj. unfold set_log_block. rret (read_log_Ret lg s1 Hlg1). destruct (lookup_lt_is_Some_2 (lg_block lg) (Z.to_nat j)) as [y Hy]; [lia|].
    unfold log_block. rewrite Hy. cbn [lift_opt]. rewrite bind_mret. unfold upd_log, modify. by rewrite Hlg1. }
  destruct (find_block_ok b (tx_blocks lg) (tr_home _ _ _ Hroom) 0) as [(j & Hj & ->)|[Hnin ->]].
  - pose proof (lookup_lt_Some _ _ _ Hj) as Hjl. rewrite Z.add_0_l. rret (Hset (Z.of_nat j) ltac:(lia)). rewrite (proj2 (Z.eqb_neq (Z.of_nat j) (lg_n lg))) by lia. rewrite bind_mret.
    assert (b ∈ tx_blocks lg) as Hin by (by eapply list_elem_of_lookup_2). unfold logged. rewrite !decide_True by done.
    rewrite Nat2Z.id, list_insert_id; [|unfold tx_blocks in Hj; by rewrite lookup_take_lt in Hj by lia].
    replace (set_lg_block (lg_block lg) lg) with lg by (by destruct lg).
    exists (set_k_hw (held_hw 0 [] h) (set_k_log lg s)). split; [apply (release_top h Hwf 0 [] LkLog (set_k_log lg s) Hlog ltac:(set_solver) ltac:(constructor))|].
    split; [by apply rep_hw, rep_set_log|done].
  - rewrite Z.add_0_l, Htl, Z2Nat.id by lia. rret (Hset (lg_n lg) ltac:(lia)). rewrite Z.eqb_refl. unfold logged. rewrite !decide_False by done.
    set (lg1 := set_lg_block _ lg). assert (k_bufs (set_k_log lg1 s) !! i = Some x) as Hx2 by done.
    set (s2 := set_k_bufs (<[i := set_b_refcnt (u32 (b_refcnt x + 1)) x]> (k_bufs s)) (set_k_log lg1 s)).
    assert ((bpin i ;; upd_log (fun lg => set_lg_n (lg_n lg + 1) lg)) (set_k_log lg1 s1) = Ret tt (set_k_hw (held_hw 0 [LkLog] h) (set_k_log (set_lg_n (lg_n lg + 1) lg1) s2))) as E.
    { rret (bpin_at (set_k_log lg1 s) i x Hx2). done. }
    rret E. set (s3 := set_k_log (set_lg_n (lg_n lg + 1) lg1) s2).
    exists (set_k_hw (held_hw 0 [] h) s3). split; [apply (release_top h Hwf 0 [] LkLog s3 Hlog ltac:(set_solver) ltac:(constructor))|]. split; [|done].
    destruct (br_lru _ _ _ _ _ _ Hr) as (l & Hl & HP).
    assert (set_k_hw (held_hw 0 [] h) s3 = set_k_log (set_lg_n (lg_n lg + 1) lg1) (set_k_hw (held_hw 0 [] h) (set_k_bufs (<[i := set_b_refcnt (u32 (b_refcnt x + 1)) x]> (k_bufs s)) s))) as -> by done.
    apply rep_set_log. apply (cnt_ok h me p D a s b i x (set_b_refcnt (u32 (b_refcnt x + 1))) (ref_of a b + 1) l); try done; [|lia|lia].
    intros c. by rewrite Hrc, u32_small by lia.
Qed.

(** A block that is changed in the transaction: [bread], stores into the buffer,
    [log_write], [brelse]. *)
Lemma change_ok a s b lg k : rep a s -> bs_held a = ∅ -> k_log s = lg -> tx_room lg a (k + 1) -> 0 <= k -> 0 <= b < 2 ^ 31 ->
  exists i s1 a1, bread D b s = Ret i s1 /\ rep a1 s1 /\ (i < nbufs)%nat /\ load_bytes (k_mem s1) (buf_data i) block_bytes = bs_view a b /\
    others s1 = others s /\ bufs_only (k_mem s) (k_mem s1) /\
    (forall s1' m', rep a1 s1' -> k_log s1' = lg -> data_only i (k_mem s1') m' ->
      exists s2 s3, log_write i (set_k_mem m' s1') = Ret tt s2 /\ brelse i s2 = Ret tt s3 /\
        rep (bs_logged lg b (load_bytes m' (buf_data i) block_bytes) a) s3 /\ k_mem s3 = m' /\ others s3 = others (set_k_log (logged lg b) s1')).
Proof.
  intros Hr Hh Hlg Hroom Hk Hb. pose proof (tr_cache _ _ _ Hroom) as Hcache. destruct (tr_refs _ _ _ Hroom b) as [Hr0 Hr1].
  destruct (bread_ok h me p D He a s b Hr) as (i & s1 & E & Hrs1 & Ho & _ & _ & Hm); [by rewrite Hh|intros c j; by rewrite Hh|right; unfold nbufs; lia|].
  rewrite u32_small in Hrs1 by lia. set (a1 := bs_set_held b (Some i) _) in Hrs1. exists i, s1, a1.
  assert (bs_held a1 !! b = Some i) as Hh1 by (cbn; by rewrite lookup_opt, decide_True).
  destruct (held_buf h me p D a1 s1 b i Hrs1 Hh1) as (_ & _ & _ & _ & _ & Hi & _ & _ & Hd).
  do 6 (split; [done|]). intros s1' m' Hr1' Hlg1 Hdo. set (l := load_bytes m' (buf_data i) block_bytes).
  pose proof (bdata_ok h me p D a1 s1' b i m' Hr1' Hh1 Hdo) as Hr2. fold l in Hr2. set (a2 := bs_set_view b l a1) in Hr2.
  assert (ref_of a2 b = ref_of a b + 1) as Hrf2 by (unfold a2, a1; change (ref_of (bs_set_ref b (ref_of a b + 1) a) b = ref_of a b + 1); by rewrite ref_of_set, decide_True).
  destruct (log_write_ok a a2 (set_k_mem m' s1') b i lg k Hr2 Hh1 Hlg1 Hroom Hk Hb) as (s2 & E2 & Hr3 & Hm3 & Ho3); [lia|].
  set (a3 := if decide (b ∈ tx_blocks lg) then a2 else bs_set_ref b (ref_of a2 b + 1) a2) in Hr3.
  assert (bs_held a3 !! b = Some i) as Hh3 by (unfold a3; by case_decide).
  set (r := if decide (b ∈ tx_blocks lg) then ref_of a b else ref_of a b + 1).
  assert (u32 (ref_of a3 b - 1) = r) as Hrf3.
  { unfold a3, r. case_decide; [rewrite Hrf2|rewrite ref_of_set, decide_True, Hrf2 by done]; rewrite u32_small by lia; lia. }
  assert (r <> 0) as Hrn.
  { unfold r. case_decide as Hin; [|lia]. pose proof (tr_pinned _ _ _ Hroom) as HF. rewrite Forall_forall in HF. by apply HF. }
  destruct (brelse_ok h me p D He a3 s2 b i Hr3 Hh3) as (s3 & E3 & Hr4 & Ho4 & _ & Hm4 & _); [rewrite Hrf3; done|]. rewrite Hrf3 in Hr4.
  exists s2, s3. split; [exact E2|]. split; [exact E3|]. split; [|split; [rewrite Hm4; exact Hm3|rewrite Ho4; exact Ho3]].
  assert (bs_set_held b None (bs_set_ref b r a3) = bs_logged lg b l a) as <-; [|done].
  unfold bs_logged, a3, r, a2, a1. apply bs_ext; [by case_decide..| |]; intros c.
  - case_decide as Hin; cbn; rewrite !lookup_cnt; case_decide as Hc; rewrite ?lookup_cnt, ?decide_False by done; try done.
    subst c. unfold ref_of, cnt. case_decide as Hz; [|unfold ref_of in Hz; destruct (bs_ref a !! b); done].
    exfalso. apply Hrn. exact Hz.
  - case_decide; cbn; rewrite !lookup_opt; case_decide; rewrite ?lookup_opt, ?decide_False by done; try done; by rewrite Hh.
Qed.

(** ** Blocks of an inode *)

(** The first [nb] blocks are there, different from one another and from the indirect block. *)
Record own_blocks (a : bstore) (ip : inode) (nb : Z) : Prop := {
  ob_has : has_blocks a ip nb;
  ob_range : forall j, 0 <= j < nb -> 0 <= file_addr a ip j < 2 ^ 31;
  ob_inj : forall i j, 0 <= i < nb -> 0 <= j < nb -> file_addr a ip i = file_addr a ip j -> i = j;
  ob_ind : NDIRECT < nb -> forall j, 0 <= j < nb -> file_addr a ip j <> default 0 (i_addrs ip !! Z.to_nat NDIRECT) }.

Lemma view_logged lg b l a c : bs_view (bs_logged lg b l a) c = if decide (b = c) then l else bs_view a c.
Proof.
  unfold bs_logged. cbn [bs_set_view bs_view]. destruct (decide (b = c)) as [<-|Hne]; [by rewrite fn_lookup_insert|rewrite fn_lookup_insert_ne by done]. by case_decide.
Qed.
Lemma held_logged lg b l a : bs_held (bs_logged lg b l a) = bs_held a.
Proof. unfold bs_logged. cbn. by case_decide. Qed.

Lemma disk_logged lg b l a : bs_disk (bs_logged lg b l a) = bs_disk a.
Proof. unfold bs_logged. cbn. by case_decide. Qed.

Lemma tx_more lg a k b c : tx_room lg a (k + 1) -> 0 <= k -> c ∈ tx_blocks lg -> c ∈ tx_blocks (logged lg b).
Proof.
  intros [_ Hn [Hl1 Hl2] Hlen _ _ _ _] Hk Hc. rewrite tx_logged by lia. case_decide; [done|]. apply elem_of_app. by left.
Qed.
Lemma in_logged lg a k b : tx_room lg a (k + 1) -> 0 <= k -> b ∈ tx_blocks (logged lg b).
Proof.
  intros [_ Hn [Hl1 Hl2] Hlen _ _ _ _] Hk. rewrite tx_logged by lia. case_decide; [done|]. apply elem_of_app. right. by apply list_elem_of_singleton.
Qed.

Lemma file_addr_keep a a' ip nb k : (NDIRECT < nb -> bs_view a' (default 0 (i_addrs ip !! Z.to_nat NDIRECT)) = bs_view a (default 0 (i_addrs ip !! Z.to_nat NDIRECT))) ->
  0 <= k < nb -> file_addr a' ip k = file_addr a ip k.
Proof. intros Hv Hk. unfold file_addr. destruct (Z.ltb_spec k NDIRECT); [done|]. by rewrite Hv by lia. Qed.

Lemma own_keep a a' ip nb : own_blocks a ip nb ->
  (NDIRECT < nb -> bs_view a' (default 0 (i_addrs ip !! Z.to_nat NDIRECT)) = bs_view a (default 0 (i_addrs ip !! Z.to_nat NDIRECT))) ->
  own_blocks a' ip nb.
Proof.
  intros [[H1' H2' H3' H4'] Hr Hi Hind] Hv. pose proof (fun k => file_addr_keep a a' ip nb k Hv) as Hk. split; [split; try done|..].
  - intros j Hj. rewrite Hk by done. by apply H4'.
  - intros j Hj. rewrite Hk by done. by apply Hr.
  - intros i j Hi1 Hj1. rewrite !Hk by done. by apply Hi.
  - intros Hn j Hj. rewrite Hk by done. by apply Hind.
Qed.

Lemma copyin_ok a s dst src len : rep a s -> 0 <= len < 2 ^ 31 ->
  either_copyin dst KPTR src len s = Ret 0 (set_k_mem (memmove (k_mem s) dst src len) (set_k_hw (held_hw 0 [] h) s)).
Proof.
  intros Hr Hl. unfold either_copyin. rret (cur_proc_lvl h (be_wf _ _ _ He) 0 [] me s (br_hw _ _ _ _ _ _ Hr) (be_run _ _ _ He)).
  rewrite (bind_Ret _ _ _ _ _ (read_proc_Ret me p (set_k_hw (held_hw 0 [] h) s) (br_me _ _ _ _ _ _ Hr))).
  unfold kmdo, zoom, copyin_uork, modify, mret, M_ret, mbind, M_bind. cbn. rewrite i32_small by lia. done.
Qed.

Definition write_round (i : nat) (ip : inode) (n : Z) : Z * Z * Z -> M kst (Z * Z * Z + Z) := fun '(tot, off, src) =>
  if negb (tot <? n) then mret (inr off) else
  addr ← bmap i (off / BSIZE);
  bp ← bread (i_dev ip) addr;
  let m := Z.min (n - tot) (BSIZE - off mod BSIZE) in
  r ← either_copyin (buf_data bp + off mod BSIZE) KPTR src m;
  if r =? -1 then brelse bp ;; mret (inr off) else
  log_write bp ;;
  brelse bp ;;
  mret (inl (tot + m, off + m, u64 (src + m))).

(** What a round of writing, and the whole loop, leave behind: [len] bytes from [off]
    on come from [src]. *)
Record wrote (ip : inode) (nb off src len k : Z) (lg : log_st) (a : bstore) (s : kst) (lg' : log_st) (a' : bstore) (s' : kst) : Prop := {
  wr_rep : rep a' s';
  wr_held : bs_held a' = ∅;
  wr_log : k_log s' = lg';
  wr_room : tx_room lg' a' k;
  wr_own : own_blocks a' ip nb;
  wr_addr : forall j, 0 <= j < nb -> file_addr a' ip j = file_addr a ip j;
  wr_bytes : forall x, 0 <= x < nb * BSIZE ->
    file_byte a' ip x = if decide (off <= x < off + len) then ld8 (k_mem s) (src + (x - off)) else file_byte a ip x;
  wr_view : forall c, (forall j, off / BSIZE <= j <= (off + len - 1) / BSIZE -> c <> file_addr a ip j) -> bs_view a' c = bs_view a c;
  wr_disk : bs_disk a' = bs_disk a;
  wr_tx : forall c, c ∈ tx_blocks lg -> c ∈ tx_blocks lg';
  wr_changed : forall c, bs_view a' c = bs_view a c \/ c ∈ tx_blocks lg';
  wr_others : others s' = others (set_k_log lg' s);
  wr_mem : bufs_only (k_mem s) (k_mem s') }.

Lemma write_round_ok a s i ip n nb tot off src lg k : rep a s -> bs_held a = ∅ -> k_log s = lg -> tx_room lg a (k + 1) -> 0 <= k ->
  k_inodes s !! i = Some ip -> i_dev ip = D -> own_blocks a ip nb -> 0 <= off -> 0 <= tot < n -> off / BSIZE < nb -> 0 <= src -> src + (n - tot) < 2 ^ 64 ->
  (forall x, src <= x < src + (n - tot) -> ~ in_bufs x) ->
  let m := Z.min (n - tot) (BSIZE - off mod BSIZE) in
  exists lg' a' s', write_round i ip n (tot, off, src) s = Ret (inl (tot + m, off + m, src + m)) s' /\ wrote ip nb off src m k lg a s lg' a' s'.
Proof.
  intros Hr Hh Hlg Hroom Hk Hi Hd Hown Hoff Htot Hnb Hsrc Hsn Hout m.
  assert (0 < m <= BSIZE /\ m <= n - tot /\ off mod BSIZE + m <= BSIZE) as Hm by (unfold m, BSIZE; lia).
  assert (0 <= off / BSIZE < nb) as Hb0 by (unfold BSIZE in *; lia).
  pose proof (tr_cache _ _ _ Hroom) as Hcache. assert (size (bs_ref a) < nbufs)%nat as Hcap by (unfold nbufs; lia).
  unfold write_round. rewrite (proj2 (Z.ltb_lt tot n)) by lia. cbn [negb].
  destruct (bmap_ok h me p D He a s i ip (off / BSIZE) nb Hr Hh Hcap Hi Hd (ob_has _ _ _ Hown) Hb0) as (s1 & E1 & Hr1 & Ho1 & Hm1). rret E1. rewrite Hd.
  set (b := file_addr a ip (off / BSIZE)). pose proof (ob_range _ _ _ Hown _ Hb0) as Hbr. fold b in Hbr.
  assert (k_log s1 = lg) as Hlg1 by (by rewrite (log_of _ _ Ho1)).
  destruct (change_ok a s1 b lg k Hr1 Hh Hlg1 Hroom Hk Hbr) as (bi & s2 & a1 & E2 & Hr2 & Hbi & Hv & Ho2 & Hm2 & Hch). rret E2. fold m.
  rret (copyin_ok a1 s2 (buf_data bi + off mod BSIZE) src m Hr2 ltac:(unfold BSIZE in *; lia)). change (0 =? -1) with false. cbn iota.
  set (m3 := memmove (k_mem s2) (buf_data bi + off mod BSIZE) src m). set (s2' := set_k_hw (held_hw 0 [] h) s2).
  assert (forall x, ld8 m3 x = if decide (buf_data bi + off mod BSIZE <= x < buf_data bi + off mod BSIZE + m) then ld8 (k_mem s2) (x - (buf_data bi + off mod BSIZE) + src) else ld8 (k_mem s2) x) as Hm3 by (intros x; apply memmove_ok).
  assert (data_only bi (k_mem s2') m3) as Hdo.
  { intros x Hx. rewrite Hm3, decide_False; [done|]. unfold BSIZE in *. lia. }
  destruct (Hch s2' m3) as (s3 & s4 & E3 & E4 & Hr4 & Hm4 & Ho4); [by apply rep_hw|change (k_log s2' = lg); change (k_log s2') with (k_log s2); by rewrite (log_of _ _ Ho2)|done|].
  rret E3. rret E4. rewrite u64_small by lia. set (l := load_bytes m3 (buf_data bi) block_bytes) in *. set (a' := bs_logged lg b l a) in *.
  exists (logged lg b), a', s4. split; [done|].
  assert (forall j, 0 <= j < nb -> NDIRECT < nb -> bs_view a' (default 0 (i_addrs ip !! Z.to_nat NDIRECT)) = bs_view a (default 0 (i_addrs ip !! Z.to_nat NDIRECT))) as Hind.
  { intros j Hj Hn. unfold a'. rewrite view_logged, decide_False; [done|]. by apply (ob_ind _ _ _ Hown). }
  assert (forall j, 0 <= j < nb -> file_addr a' ip j = file_addr a ip j) as Hfa by (intros j Hj; apply (file_addr_keep a a' ip nb); [by apply (Hind j)|done]).
  assert (forall x, src <= x < src + m -> ld8 (k_mem s2) x = ld8 (k_mem s) x) as Hsrcm.
  { intros x Hx. rewrite (bufs_only_out _ _ x Hm2), (bufs_only_out _ _ x Hm1); [done|apply Hout; lia|apply Hout; lia]. }
  split.
  - exact Hr4.
  - unfold a'. by rewrite held_logged.
  - rewrite (log_of _ _ Ho4). done.
  - apply logged_room; [exact Hroom|lia|lia].
  - apply (own_keep a); [done|]. intros Hn. by apply (Hind (off / BSIZE)).
  - exact Hfa.
  - intros x Hx. assert (0 <= x / BSIZE < nb) as Hxb by (unfold BSIZE in *; lia). unfold file_byte. rewrite Hfa by done. unfold a'. rewrite view_logged. fold b.
    destruct (decide (b = file_addr a ip (x / BSIZE))) as [Eb|Nb].
    + apply (ob_inj _ _ _ Hown) in Eb; [|done|done]. unfold l. assert (Z.to_nat (x mod BSIZE) < block_bytes)%nat as Hxm by (unfold block_bytes, BSIZE in *; lia).
      rewrite lookup_load_bytes by done. cbn [default]. unfold id. rewrite Z2Nat.id by (unfold BSIZE; lia). rewrite Hm3.
      destruct (decide (off <= x < off + m)) as [Hin|Hnin].
      * rewrite decide_True by (unfold BSIZE in *; lia). rewrite Hsrcm by (unfold BSIZE in *; lia). f_equal. unfold BSIZE in *. lia.
      * rewrite decide_False by (unfold BSIZE in *; lia). rewrite <- Eb. fold b. rewrite <- Hv, lookup_load_bytes by done. cbn [default]. unfold id. f_equal. unfold BSIZE. lia.
    + rewrite decide_False; [done|]. intros Hin. apply Nb. unfold b. f_equal. unfold BSIZE in *. lia.
  - intros c Hc. unfold a'. rewrite view_logged, decide_False; [done|]. intros <-. apply (Hc (off / BSIZE)); [unfold BSIZE in *; lia|done].
  - by apply disk_logged.
  - intros c. by eapply tx_more.
  - intros c. unfold a'. rewrite view_logged. destruct (decide (b = c)) as [<-|]; [right|by left]. by eapply in_logged.
  - rewrite Ho4. assert (others s2' = others s) as Ho5 by (change (others s2 = others s); congruence).
    unfold others in *. injection Ho5. intros. cbn in *. congruence.
  - rewrite Hm4. eapply bufs_only_trans; [exact Hm1|]. eapply bufs_only_trans; [exact Hm2|]. by apply (data_only_bufs bi).
Qed.

Lemma room_less lg a k k' : tx_room lg a k -> k' <= k -> tx_room lg a k'.
Proof. intros [Ho Hn [Hl1 Hl2] Hlen Hhome Hp Hc Hrf] Hk. split; try done; [lia|lia|]. intros b. specialize (Hrf b). lia. Qed.

Lemma wrote_none ip nb off src k lg a s : rep a s -> bs_held a = ∅ -> k_log s = lg -> tx_room lg a k -> own_blocks a ip nb ->
  wrote ip nb off src 0 k lg a s lg a s.
Proof.
  intros Hr Hh Hlg Hroom Hown. split; try done.
  - intros x Hx. by rewrite decide_False by lia.
  - intros c. by left.
  - by rewrite <- Hlg; destruct s.
Qed.

(** Two pieces one after the other. *)
Lemma wrote_app ip nb off src l1 l2 k1 k lg a s lg1 a1 s1 lg2 a2 s2 : 0 <= off -> 0 < l1 -> 0 <= l2 -> (off + l1 + l2 - 1) / BSIZE < nb ->
  (forall x, src <= x < src + (l1 + l2) -> ~ in_bufs x) ->
  wrote ip nb off src l1 k1 lg a s lg1 a1 s1 -> wrote ip nb (off + l1) (src + l1) l2 k lg1 a1 s1 lg2 a2 s2 ->
  wrote ip nb off src (l1 + l2) k lg a s lg2 a2 s2.
Proof.
  intros Ho H1' H2' Hnb Hout [A1 A2 A3 A4 A5 A6 A7 A8 Ad At Ac A9 A10] [B1 B2 B3 B4 B5 B6 B7 B8 Bd Bt Bc B9 B10]. split; try done.
  - intros j Hj. by rewrite B6, A6.
  - intros x Hx. rewrite B7, A7 by done. destruct (decide (off + l1 <= x < off + l1 + l2)).
    + rewrite decide_True by lia. rewrite (bufs_only_out _ _ _ A10) by (apply Hout; lia). f_equal. lia.
    + destruct (decide (off <= x < off + l1)); [by rewrite decide_True by lia|by rewrite decide_False by lia].
  - intros c Hc. rewrite B8, A8; [done| |].
    + intros j Hj. apply Hc. unfold BSIZE in *. lia.
    + intros j Hj. rewrite A6 by (unfold BSIZE in *; lia). apply Hc. unfold BSIZE in *. lia.
  - congruence.
  - intros c Hc. by apply Bt, At.
  - intros c. destruct (Bc c) as [->|?]; [|by right]. destruct (Ac c) as [->|Hin]; [by left|right; by apply Bt].
  - rewrite B9. unfold others in *. injection A9. intros. cbn in *. congruence.
  - by eapply bufs_only_trans.
Qed.

(** The number of blocks that [len] bytes at [off] touch. *)
Definition blocks_at (off len : Z) : Z := if 0 <? len then (off + len - 1) / BSIZE - off / BSIZE + 1 else 0.

Lemma write_loop_ok i ip n nb k : i_dev ip = D -> 0 <= k -> forall fuel a s lg tot off src,
  rep a s -> bs_held a = ∅ -> k_log s = lg -> tx_room lg a (k + blocks_at off (n - tot)) -> k_inodes s !! i = Some ip -> own_blocks a ip nb ->
  0 <= off -> 0 <= tot <= n -> off + (n - tot) <= nb * BSIZE -> 0 <= src -> src + (n - tot) < 2 ^ 64 ->
  (forall x, src <= x < src + (n - tot) -> ~ in_bufs x) -> blocks_at off (n - tot) < Z.of_nat fuel ->
  exists lg' a' s', while_loop fuel (tot, off, src) (write_round i ip n) s = Ret (off + (n - tot)) s' /\ wrote ip nb off src (n - tot) k lg a s lg' a' s'.
Proof.
  intros Hd Hk. induction fuel as [|fuel IH]; intros a s lg tot off src Hr Hh Hlg Hroom Hi Hown Hoff Htot Hnb Hsrc Hsn Hout Hf.
  { exfalso. unfold blocks_at, BSIZE in *. case_match; lia. }
  rewrite while_S. destruct (decide (tot < n)) as [Hlt|Hge].
  2:{ rewrite bind_eq. cbn [write_round]. rewrite (proj2 (Z.ltb_ge tot n)) by lia. cbn. assert (n - tot = 0) as E0 by lia. rewrite E0 in *. rewrite Z.add_0_r.
      exists lg, a, s. split; [done|]. apply wrote_none; try done. by rewrite Z.add_0_r in Hroom. }
  set (m := Z.min (n - tot) (BSIZE - off mod BSIZE)). assert (0 < m <= n - tot) as Hm by (unfold m, BSIZE; lia).
  assert (blocks_at off (n - tot) = 1 + blocks_at (off + m) (n - (tot + m))) as Eb.
  { unfold blocks_at. rewrite (proj2 (Z.ltb_lt 0 (n - tot))) by lia. replace (off + m + (n - (tot + m)) - 1) with (off + (n - tot) - 1) by lia.
    destruct (Z.ltb_spec 0 (n - (tot + m))); [|unfold m, BSIZE in *; lia]. assert ((off + m) / BSIZE = off / BSIZE + 1) as -> by (unfold m, BSIZE in *; lia). lia. }
  assert (0 <= blocks_at (off + m) (n - (tot + m))) as Hb0 by (unfold blocks_at, BSIZE; case_match; lia).
  destruct (write_round_ok a s i ip n nb tot off src lg (k + blocks_at (off + m) (n - (tot + m))) Hr Hh Hlg) as (lg1 & a1 & s1 & E1 & W1); try done; [|lia|lia|unfold BSIZE in *; lia|].
  { eapply room_less; [exact Hroom|]. lia. }
  fold m in E1, W1. rret E1. pose proof W1 as [A1 A2 A3 A4 A5 A6 A7 A8 _ _ _ A9 A10].
  assert (k_inodes s1 = k_inodes s) as Ein by (rewrite (inodes_of _ _ A9); by destruct s).
  destruct (IH a1 s1 lg1 (tot + m) (off + m) (src + m) A1 A2 A3 A4) as (lg2 & a2 & s2 & E2 & W2); try done; [by rewrite Ein|lia|lia|lia|lia|lia| |lia|].
  { intros x Hx. apply Hout. lia. }
  exists lg2, a2, s2. replace (off + m + (n - (tot + m))) with (off + (n - tot)) in E2 by lia. split; [exact E2|].
  replace (n - (tot + m)) with (n - tot - m) in W2 by lia. replace (n - tot) with (m + (n - tot - m)) by lia.
  eapply wrote_app; [done|lia|lia|unfold BSIZE in *; lia| |exact W1|exact W2]. intros x Hx. apply Hout. lia.
Qed.

(** ** Writing an inode back *)

Lemma store_addrs_ok i ip A s : k_inodes s !! i = Some ip -> length (i_addrs ip) = NADDRS -> Forall (fun x => 0 <= x < 2 ^ 32) (i_addrs ip) ->
  exists m', for_each NADDRS 0 (fun k =>
      a ← lift_opt (i_addrs ip !! Z.to_nat k);
      kst32 (A + 12 + 4 * k) a) s = Ret tt (set_k_mem m' s) /\
    (forall x, x < A + 12 \/ A + 64 <= x -> ld8 m' x = ld8 (k_mem s) x) /\
    forall k x, i_addrs ip !! k = Some x -> ld32 m' (A + 12 + 4 * Z.of_nat k) = x.
Proof.
  intros Hi Hlen HF. assert (set_k_mem (k_mem s) s = s) as Hid by by destruct s as [[] ]. change NADDRS with 13%nat in Hlen |- *.
  match goal with |- exists m', ?code s = _ /\ _ => assert (runs code s (fun _ s' => exists m', s' = set_k_mem m' s /\
    (forall x, x < A + 12 \/ A + 64 <= x -> ld8 m' x = ld8 (k_mem s) x) /\
    forall k x, i_addrs ip !! k = Some x -> ld32 m' (A + 12 + 4 * Z.of_nat k) = x)) as Hr end.
  { apply (runs_for_each _ 0 _ (fun t s' => exists m', s' = set_k_mem m' s /\
      (forall x, x < A + 12 \/ A + 64 <= x -> ld8 m' x = ld8 (k_mem s) x) /\
      forall k x, Z.of_nat k < t -> i_addrs ip !! k = Some x -> ld32 m' (A + 12 + 4 * Z.of_nat k) = x)).
    - exists (k_mem s). split; [by rewrite Hid|]. split; [done|]. intros k x Hk. lia.
    - intros t s1 Ht (m1 & -> & Hm & Hv). destruct (lookup_lt_is_Some_2 (i_addrs ip) (Z.to_nat t)) as [v Hb]; [lia|].
      eapply runs_eq. { rewrite Hb. cbn [lift_opt]. rewrite bind_mret. reflexivity. }
      exists (st32 m1 (A + 12 + 4 * t) v). split; [done|]. split.
      + intros x Hx. rewrite ld8_st32_outside by lia. by apply Hm.
      + intros k w Hk Hw. destruct (decide (Z.of_nat k = t)) as [E|Hne].
        * subst t. rewrite Nat2Z.id in Hb. rewrite Forall_forall in HF. rewrite ld32_st32; [congruence|]. apply HF. by eapply list_elem_of_lookup_2.
        * rewrite ld32_st32_outside by lia. apply Hv; [lia|done].
    - intros s' (m' & -> & Hm & Hv). exists m'. split_and!; try done. intros k x Hx. apply Hv; [|done]. apply lookup_lt_Some in Hx. lia. }
  apply runs_elim in Hr as ([] & s' & E & m' & -> & Hrest). by exists m'.
Qed.

(** Where the inode is on the disk. *)
Definition inode_block (s : kst) (ip : inode) : Z := IBLOCK (i_inum ip) (k_sb s).
Definition inode_off (ip : inode) : nat := Z.to_nat (i_inum ip mod IPB * DINODE_SIZE).

Lemma inode_off_range ip : (inode_off ip + 64 <= block_bytes)%nat /\ Z.of_nat (inode_off ip) = i_inum ip mod IPB * DINODE_SIZE.
Proof. unfold inode_off, block_bytes. change IPB with 16. change DINODE_SIZE with 64. unfold BSIZE. lia. Qed.

Lemma iupdate_ok a s i ip lg k : rep a s -> bs_held a = ∅ -> k_log s = lg -> tx_room lg a (k + 1) -> 0 <= k ->
  k_inodes s !! i = Some ip -> i_dev ip = D -> inode_fits ip -> 0 <= inode_block s ip < 2 ^ 31 ->
  exists l s', iupdate i s = Ret tt s' /\ rep (bs_logged lg (inode_block s ip) l a) s' /\
    disk_inode l (inode_off ip) ip = ip /\
    (forall x, (x < inode_off ip \/ inode_off ip + 64 <= x)%nat -> l !! x = bs_view a (inode_block s ip) !! x) /\
    others s' = others (set_k_log (logged lg (inode_block s ip)) s) /\ bufs_only (k_mem s) (k_mem s').
Proof.
  intros Hr Hh Hlg Hroom Hk Hi Hd Hfit Hblk. destruct (inode_off_range ip) as [Ho1 Ho2].
  unfold iupdate. rret (read_inode_Ret i ip s Hi). rewrite (bind_Ret _ _ _ (k_sb s) s) by done. rewrite Hd. fold (inode_block s ip). set (b := inode_block s ip) in *.
  destruct (change_ok a s b lg k Hr Hh Hlg Hroom Hk Hblk) as (bi & s1 & a1 & E1 & Hr1 & Hbi & Hv & Ho & Hm & Hch). rret E1.
  assert (k_inodes s1 !! i = Some ip) as Hi1 by (by rewrite (inodes_of _ _ Ho)). rret (read_inode_Ret i ip s1 Hi1).
  unfold dinode_addr. rewrite <- Ho2. set (A := buf_data bi + Z.of_nat (inode_off ip)).
  set (s2 := set_k_mem (store_fields (k_mem s1) A ip) s1).
  destruct (store_addrs_ok i ip A s2) as (m' & E2 & Hout & Hk2); [done|apply Hfit|apply Hfit|].
  assert (forall T (c : M kst T), (kst16 A (u16 (i_type ip)) ;; kst16 (A + 2) (u16 (i_major ip)) ;; kst16 (A + 4) (u16 (i_minor ip)) ;;
    kst16 (A + 6) (u16 (i_nlink ip)) ;; kst32 (A + 8) (i_size ip) ;; c) s1 = c s2) as Est by done.
  rewrite Est. clear Est. rret E2.
  assert (forall x, x < A \/ A + 64 <= x -> ld8 m' x = ld8 (k_mem s1) x) as Hout2.
  { intros x Hx. rewrite Hout by lia. unfold s2, store_fields, st32, st16. match goal with |- ld8 (k_mem (set_k_mem ?m _)) _ = _ => change (ld8 m x = ld8 (k_mem s1) x) end. by rewrite !ld8_store_le_outside by lia. }
  destruct (Hch s1 m' Hr1) as (s3 & s4 & E3 & E4 & Hr4 & Hm4 & Ho4); [by rewrite (log_of _ _ Ho)|..].
  { intros x Hx. apply Hout2. unfold A. unfold block_bytes, BSIZE in *. lia. }
  change (set_k_mem m' s2) with (set_k_mem m' s1). rret E3. set (l := load_bytes m' (buf_data bi) block_bytes) in *. exists l, s4. split; [exact E4|]. split; [exact Hr4|].
  split; [|split; [|split]].
  - unfold l. rewrite <- (load_dinode_list m' (buf_data bi) _ block_bytes ip Ho1). apply (store_fields_ok (k_mem s1)); [done| |exact Hk2]. intros x Hx. fold A in Hx |- *. by rewrite Hout by (by left).
  - intros x Hx. rewrite <- Hv. unfold l. destruct (decide (x < block_bytes)%nat) as [Hl|Hl].
    + rewrite !lookup_load_bytes by done. f_equal. apply Hout2. unfold A. lia.
    + rewrite !lookup_ge_None_2; rewrite ?length_load_bytes; try lia; done.
  - rewrite Ho4. unfold others in *. injection Ho. intros. cbn in *. congruence.
  - rewrite Hm4. eapply bufs_only_trans; [exact Hm|]. apply (data_only_bufs bi); [done|]. intros x Hx. apply Hout2. unfold A. unfold block_bytes, BSIZE in *. lia.
Qed.

(** ** writei from kernel memory *)

(** The block of the inode is none of the blocks of its contents. *)
Definition apart (a : bstore) (ip : inode) (nb b : Z) : Prop :=
  (forall j, 0 <= j < nb -> b <> file_addr a ip j) /\ (NDIRECT < nb -> b <> default 0 (i_addrs ip !! Z.to_nat NDIRECT)).

(** What [writei] promises of the state after it, for the inode [ip'] with its new size. *)
Record written (a : bstore) (s : kst) (i : nat) (ip ip' : inode) (nb off src n k : Z) (lg' : log_st) (a' : bstore) (s' : kst) : Prop := {
  wn_rep : rep a' s';
  wn_held : bs_held a' = ∅;
  wn_own : own_blocks a' ip' nb;
  wn_new : file_bytes a' ip' off n = load_bytes (k_mem s) src (Z.to_nat n);
  wn_old : forall x, 0 <= x < nb * BSIZE -> ~ (off <= x < off + n) -> file_byte a' ip' x = file_byte a ip x;
  wn_inode : disk_inode (bs_view a' (inode_block s ip)) (inode_off ip) ip' = ip';
  wn_disk : bs_disk a' = bs_disk a;
  wn_changed : forall c, bs_view a' c = bs_view a c \/ c ∈ tx_blocks lg';
  wn_room : tx_room lg' a' k;
  wn_others : others s' = others (set_k_log lg' (set_k_inodes (<[i := ip']> (k_inodes s)) s));
  wn_mem : bufs_only (k_mem s) (k_mem s') }.

(** The contents do not depend on the block of the inode. *)
Lemma iupdate_keeps a ip nb lg b l : own_blocks a ip nb -> apart a ip nb b ->
  own_blocks (bs_logged lg b l a) ip nb /\ forall x, 0 <= x < nb * BSIZE -> file_byte (bs_logged lg b l a) ip x = file_byte a ip x.
Proof.
  intros Hown [Hb1 Hb2].
  assert (NDIRECT < nb -> bs_view (bs_logged lg b l a) (default 0 (i_addrs ip !! Z.to_nat NDIRECT)) = bs_view a (default 0 (i_addrs ip !! Z.to_nat NDIRECT))) as Hind.
  { intros Hn. rewrite view_logged, decide_False; [done|]. by apply Hb2. }
  split; [by apply (own_keep a)|]. intros x Hx. assert (0 <= x / BSIZE < nb) as Hxb by (unfold BSIZE in *; lia).
  unfold file_byte. rewrite (file_addr_keep a _ ip nb) by done. rewrite view_logged, decide_False; [done|]. by apply Hb1.
Qed.

(** The size grows to the end of what has been written. *)
Lemma write_grow_ok i ip s e : k_inodes s !! i = Some ip ->
  (if e >? i_size ip then upd_inode i (set_i_size e) else mret tt) s = Ret tt (set_k_inodes (<[i := set_i_size (Z.max (i_size ip) e) ip]> (k_inodes s)) s).
Proof.
  intros Hi. destruct (Z.gtb_spec e (i_size ip)) as [He'|He'].
  - rewrite (upd_inode_Ret i ip (set_i_size e) s Hi). by rewrite Z.max_r by lia.
  - rewrite Z.max_l by lia. replace (set_i_size (i_size ip) ip) with ip by (by destruct ip). rewrite list_insert_id by done. by destruct s.
Qed.

Lemma file_bytes_wrote a ip nb off n (f : Z -> Z) src m : (forall x, 0 <= x < nb * BSIZE -> file_byte a ip x = if decide (off <= x < off + n) then ld8 m (src + (x - off)) else f x) ->
  0 <= off -> off + n <= nb * BSIZE -> file_bytes a ip off n = load_bytes m src (Z.to_nat n).
Proof.
  intros Hb Hoff Hn. apply list_eq. intros j. unfold file_bytes. destruct (decide (j < Z.to_nat n)%nat) as [Hj|Hj].
  - rewrite lookup_load_bytes, list_lookup_fmap, lookup_seq_lt by done. cbn. rewrite Hb, decide_True by lia. do 2 f_equal. lia.
  - rewrite !lookup_ge_None_2; [done| |]; rewrite ?length_load_bytes, ?length_map, ?length_seq; lia.
Qed.

Lemma writei_ok a s i ip lg nb src off n k : rep a s -> bs_held a = ∅ -> k_log s = lg -> tx_room lg a (k + 1 + blocks_at off n) -> 0 <= k ->
  k_inodes s !! i = Some ip -> i_dev ip = D -> inode_fits ip -> own_blocks a ip nb -> 0 <= inode_block s ip < 2 ^ 31 -> apart a ip nb (inode_block s ip) ->
  0 <= off <= i_size ip -> 0 < n -> off + n <= nb * BSIZE -> 0 <= src -> src + n < 2 ^ 64 -> (forall x, src <= x < src + n -> ~ in_bufs x) ->
  exists lg' a' s', writei i KPTR src off n s = Ret n s' /\ written a s i ip (set_i_size (Z.max (i_size ip) (off + n)) ip) nb off src n k lg' a' s'.
Proof.
  intros Hr Hh Hlg Hroom Hk Hi Hd Hfit Hown Hblk Hap Hoff Hn Hnb Hsrc Hsn Hout.
  pose proof (hb_max _ _ _ (ob_has _ _ _ Hown)) as Hmax. assert (off + n <= 2 ^ 20) as Hsmall by (unfold MAXFILE, NDIRECT, NINDIRECT, BSIZE in *; lia).
  unfold writei. rret (read_inode_Ret i ip s Hi). destruct (Z.gtb_spec off (i_size ip)); [lia|]. rewrite (u32_small (off + n)) by lia.
  rewrite (proj2 (Z.ltb_ge (off + n) off)) by lia. cbn [orb]. destruct (Z.gtb_spec (off + n) (MAXFILE * BSIZE)); [unfold BSIZE in *; lia|]. rewrite Hd.
  destruct (write_loop_ok i ip n nb (k + 1) Hd ltac:(lia) (rw_fuel n) a s lg 0 off src Hr Hh Hlg) as (lg1 & a1 & s1 & E1 & W1); rewrite ?Z.sub_0_r; try done; try lia.
  { unfold rw_fuel, blocks_at, BSIZE. case_match; lia. }
  unfold write_round in E1. rewrite Hd in E1. rret E1. rewrite !Z.sub_0_r in *. destruct W1 as [A1 A2 A3 A4 A5 A6 A7 A8 Ad At Ac A9 A10].
  assert (k_inodes s1 = k_inodes s /\ k_sb s1 = k_sb s) as [Ein Esb] by (unfold others in A9; injection A9; intros; done).
  assert (k_inodes s1 !! i = Some ip) as Hi1 by (by rewrite Ein). destruct (Z.gtb_spec n 0); [|lia].
  set (ip' := set_i_size _ ip). rewrite bind_eq. rret (read_inode_Ret i ip s1 Hi1).
  rret (write_grow_ok i ip s1 (off + n) Hi1). fold ip'. set (s2 := set_k_inodes _ s1).
  destruct (iupdate_ok a1 s2 i ip' lg1 k) as (l & s3 & E3 & Hr3 & Hdi & _ & Ho3 & Hm3); try done; [by apply rep_inodes| | | |].
  { cbn. apply list_lookup_insert_eq. by eapply lookup_lt_Some. } { destruct Hfit. split; try done. cbn. lia. }
  { unfold inode_block. change (k_sb s2) with (k_sb s1). by rewrite Esb. }
  assert (inode_block s2 ip' = inode_block s ip) as Eblk by (unfold inode_block; change (k_sb s2) with (k_sb s1); by rewrite Esb). rewrite Eblk in *.
  set (b := inode_block s ip) in *. rewrite E3. cbn [obind]. rewrite i32_small by lia. exists (logged lg1 b), (bs_logged lg1 b l a1), s3. split; [done|].
  assert (apart a1 ip nb b) as Hap1 by (destruct Hap as [P1 P2]; split; [intros j Hj; rewrite A6 by done; by apply P1|done]).
  destruct (iupdate_keeps a1 ip nb lg1 b l A5 Hap1) as [Hown2 Hbyte].
  assert (tx_room lg1 a1 (k + 1)) as Hroom1 by done. assert (tx_room (logged lg1 b) (bs_logged lg1 b l a1) k) as Hroom2 by (apply logged_room; [done|lia|done]).
  split; try done.
  - by rewrite held_logged.
  - destruct Hown2 as [[B1 B2 B3 B4] B5 B6 B7]. split; [split|..]; done.
  - apply (file_bytes_wrote _ _ nb _ _ (file_byte a ip)); [|lia|lia]. intros x Hx. change (file_byte (bs_logged lg1 b l a1) ip' x) with (file_byte (bs_logged lg1 b l a1) ip x). by rewrite Hbyte, A7.
  - intros x Hx Hx2. change (file_byte (bs_logged lg1 b l a1) ip' x) with (file_byte (bs_logged lg1 b l a1) ip x). by rewrite Hbyte, A7, decide_False.
  - rewrite view_logged, decide_True by done. exact Hdi.
  - by rewrite disk_logged.
  - intros c. rewrite view_logged. destruct (decide (b = c)) as [<-|]; [right; by eapply in_logged|]. destruct (Ac c) as [->|Hin]; [by left|right; eapply tx_more; done].
  - rewrite Ho3. unfold s2, others in *. injection A9. intros. cbn in *. rewrite Ein. congruence.
  - by eapply bufs_only_trans.
Qed.
End Write.

(** ** The claims *)

(** C19: [log_write] absorbs writes.  In a transaction with room, a locked buffer whose
    block the transaction has already leaves the log and the reference counts as they
    were; another one is appended to the log's blocks and pinned in the cache by one more
    reference.  Outside of a transaction, or when the log is full, it panics before it
    changes anything. *)
Theorem log_write_spec `{KernelData} `{WaitFuel} h me p D a s b i :
  bio_env h me p -> hw_locks h !! LkLog = Some free_lock -> bio_rep h me p D a s -> bs_held a !! b = Some i ->
  0 <= b < 2 ^ 31 -> 0 <= ref_of a b < 2 ^ 32 - 1 ->
  let lg := k_log s in
  (tx_room lg a 1 -> exists s', log_write i s = Ret tt s' /\
     bio_rep h me p D (if decide (b ∈ tx_blocks lg) then a else bs_set_ref b (ref_of a b + 1) a) s' /\
     tx_blocks (k_log s') = (if decide (b ∈ tx_blocks lg) then tx_blocks lg else tx_blocks lg ++ [b]) /\
     k_mem s' = k_mem s /\ others s' = others (set_k_log (logged lg b) s)) /\
  (lg_n lg >= LOGSIZE \/ lg_n lg >= lg_size lg - 1 -> log_write i s = Panic "too big a transaction") /\
  (lg_n lg < LOGSIZE -> lg_n lg < lg_size lg - 1 -> lg_outstanding lg < 1 -> log_write i s = Panic "log_write outside of trans").
Proof.
  intros He Hlog Hr Hh Hb Hrb lg. split; [|split].
  - intros Hroom. destruct (log_write_ok h me p D He Hlog a a s b i lg 0 Hr Hh eq_refl) as (s' & E & Hr' & Hm & Ho); [done|done|done|done|].
    exists s'. split; [done|]. split; [done|]. split; [|done]. rewrite (log_of _ _ Ho). change (k_log (set_k_log (logged lg b) s)) with (logged lg b).
    apply tx_logged; [apply Hroom|]. pose proof (tr_log _ _ _ Hroom). pose proof (tr_n _ _ _ Hroom). pose proof (tr_len _ _ _ Hroom). lia.
  - intros Hfull. unfold log_write. rret (read_log_Ret lg s eq_refl). replace ((lg_n lg >=? LOGSIZE) || (lg_n lg >=? lg_size lg - 1)) with true; [done|].
    symmetry. apply orb_true_iff. rewrite !Z.geb_le. lia.
  - intros H1' H2' H3'. unfold log_write. rret (read_log_Ret lg s eq_refl). replace ((lg_n lg >=? LOGSIZE) || (lg_n lg >=? lg_size lg - 1)) with false.
    + by rewrite (proj2 (Z.ltb_lt _ _)) by done.
    + symmetry. apply orb_false_iff. rewrite !Z.geb_leb, !Z.leb_gt. lia.
Qed.

(** C5: [writei] replaces bytes of an inode.  In a transaction with room for the blocks
    it touches and the block of the inode, it writes all the bytes when the blocks are
    there: the contents from the offset on become the bytes of the source and every other
    byte of the file stays, the size grows to the end of what was written, and the inode
    read back from its block of the inode table is the inode with the new size.  Nothing
    reaches the disk, every block that changes is one of the transaction, and the rest of
    the kernel stays as it was. *)
Theorem writei_spec `{KernelData} `{WaitFuel} h me p D a s i ip nb src off n k :
  bio_env h me p -> hw_locks h !! LkLog = Some free_lock -> bio_rep h me p D a s -> bs_held a = ∅ ->
  tx_room (k_log s) a (k + 1 + blocks_at off n) -> 0 <= k ->
  k_inodes s !! i = Some ip -> i_dev ip = D -> inode_fits ip -> own_blocks a ip nb -> 0 <= inode_block s ip < 2 ^ 31 -> apart a ip nb (inode_block s ip) ->
  0 <= off <= i_size ip -> 0 < n -> off + n <= nb * BSIZE -> 0 <= src -> src + n < 2 ^ 64 -> (forall x, src <= x < src + n -> ~ in_bufs x) ->
  let ip' := set_i_size (Z.max (i_size ip) (off + n)) ip in
  exists lg' a' s', writei i KPTR src off n s = Ret n s' /\
    bio_rep h me p D a' s' /\ bs_held a' = ∅ /\ own_blocks a' ip' nb /\
    file_bytes a' ip' off n = load_bytes (k_mem s) src (Z.to_nat n) /\
    (forall x, 0 <= x < nb * BSIZE -> ~ (off <= x < off + n) -> file_byte a' ip' x = file_byte a ip x) /\
    disk_inode (bs_view a' (inode_block s ip)) (inode_off ip) ip' = ip' /\
    bs_disk a' = bs_disk a /\ (forall c, bs_view a' c = bs_view a c \/ c ∈ tx_blocks lg') /\ tx_room lg' a' k /\
    others s' = others (set_k_log lg' (set_k_inodes (<[i := ip']> (k_inodes s)) s)).
Proof.
  intros He Hlog Hr Hh Hroom Hk Hi Hd Hfit Hown Hblk Hap Hoff Hn Hnb Hsrc Hsn Hout ip'.
  destruct (writei_ok h me p D He Hlog a s i ip (k_log s) nb src off n k) as (lg' & a' & s' & E & []); try done.
  exists lg', a', s'. by split_and!.
Qed.

(** C6: what [writei] has written, [readi] reads: after a write in a transaction, reading
    as many bytes at the same offset answers their number and stores the bytes that were
    written, from the cache, before the transaction has been committed. *)
Theorem write_read_spec `{KernelData} `{WaitFuel} h me p D a s i ip nb src off n dst :
  bio_env h me p -> hw_locks h !! LkLog = Some free_lock -> bio_rep h me p D a s -> bs_held a = ∅ ->
  tx_room (k_log s) a (1 + blocks_at off n) ->
  k_inodes s !! i = Some ip -> i_dev ip = D -> inode_fits ip -> own_blocks a ip nb -> 0 <= inode_block s ip < 2 ^ 31 -> apart a ip nb (inode_block s ip) ->
  0 <= off <= i_size ip -> i_size ip <= nb * BSIZE -> 0 < n -> off + n <= nb * BSIZE -> 0 <= src -> src + n < 2 ^ 64 -> (forall x, src <= x < src + n -> ~ in_bufs x) ->
  0 <= dst -> dst + n < 2 ^ 64 -> (forall x, dst <= x < dst + n -> ~ in_bufs x) ->
  exists s1 s2, writei i KPTR src off n s = Ret n s1 /\ readi i KPTR dst off n s1 = Ret n s2 /\
    load_bytes (k_mem s2) dst (Z.to_nat n) = load_bytes (k_mem s) src (Z.to_nat n).
Proof.
  intros He Hlog Hr Hh Hroom Hi Hd Hfit Hown Hblk Hap Hoff Hsz Hn Hnb Hsrc Hsn Hout Hdst Hdn Hout2.
  destruct (writei_ok h me p D He Hlog a s i ip (k_log s) nb src off n 0) as (lg' & a' & s1 & E & [A1 A2 A3 A4 A5 A6 A7 A8 A9 A10 A11]); try done.
  set (ip' := set_i_size _ ip) in *. assert (i_size ip' = Z.max (i_size ip) (off + n)) as Esz by done.
  pose proof (hb_max _ _ _ (ob_has _ _ _ Hown)) as Hmax. assert (nb * BSIZE <= MAXFILE * BSIZE < 2 ^ 31) as Hmax2 by (unfold MAXFILE, NDIRECT, NINDIRECT, BSIZE in *; lia).
  pose proof (tr_cache _ _ _ A9) as Hc.
  destruct (readi_ok h me p D He a' s1 i ip' dst off n A1 A2) as (s2 & E2 & _ & _ & Hl & _); try done; try lia.
  - unfold nbufs. lia.
  - rewrite (inodes_of _ _ A10). cbn. apply list_lookup_insert_eq. by eapply lookup_lt_Some.
  - destruct (ob_has _ _ _ A3) as [B1 B2 B3 B4]. assert ((i_size ip' + BSIZE - 1) / BSIZE <= nb) as Hle by (unfold BSIZE in *; lia).
    split; [done|lia|intros; apply B3; lia|intros j Hj; apply B4; lia].
  - assert (read_len (i_size ip') off n = n) as En.
    { unfold read_len. rewrite u32_small by lia. destruct (Z.gtb_spec off (i_size ip')), (Z.ltb_spec (off + n) off); cbn [orb]; lia. }
    rewrite En in *. exists s1, s2. split; [done|]. split; [done|]. by rewrite Hl.
Qed.
