(* ===== verification/Grep.v ===== *)
(** * The pattern matcher of user_space/grep.c

    Pattern and text are C strings in memory.  A pattern is a list of items, single
    characters and starred characters, with an optional [$] at its end; [lang] says
    which strings the items describe. *)

From S2P Require Import Prelude Hart VmSystem Mem Str Bio.

Definition CARET : Z := 94.
Definition STAR : Z := 42.
Definition DOLLAR : Z := 36.
Definition DOT : Z := 46.

(** ** The code *)

(** The [do] loop of [matchstar] around [matchhere(re, _)]. *)
Fixpoint matchstar (rounds : nat) (here : Z -> option Z) (m : mem) (c text : Z) : option Z :=
  match rounds with
  | O => None
  | S rounds' =>
      r ← here text;
      if negb (r =? 0) then Some 1 else
      let x := ld8 m text in
      if negb (x =? 0) && ((x =? c) || (c =? DOT)) then matchstar rounds' here m c (text + 1)
      else Some 0
  end.

Fixpoint matchhere (fuel : nat) (m : mem) (re text : Z) : option Z :=
  match fuel with
  | O => None
  | S fuel' =>
      let r0 := ld8 m re in
      if r0 =? 0 then Some 1 else
      let r1 := ld8 m (re + 1) in
      if r1 =? STAR then matchstar fuel' (matchhere fuel' m (re + 2)) m r0 text else
      if (r0 =? DOLLAR) && (r1 =? 0) then Some (if ld8 m text =? 0 then 1 else 0) else
      if negb (ld8 m text =? 0) && ((r0 =? DOT) || (r0 =? ld8 m text))
      then matchhere fuel' m (re + 1) (text + 1)
      else Some 0
  end.

(** The [do] loop of [match]. *)
Fixpoint match_from (rounds : nat) (here : Z -> option Z) (m : mem) (text : Z) : option Z :=
  match rounds with
  | O => None
  | S rounds' =>
      r ← here text;
      if negb (r =? 0) then Some 1 else
      if negb (ld8 m text =? 0) then match_from rounds' here m (text + 1) else Some 0
  end.

(** [fuel] bounds both the recursion and the loops. *)
Definition grep_match (fuel : nat) (m : mem) (re text : Z) : option Z :=
  if ld8 m re =? CARET then matchhere fuel m (re + 1) text
  else match_from fuel (matchhere fuel m re) m text.

(** ** The reference *)

Inductive item := One (c : Z) | Many (c : Z).

Fixpoint items (r : list Z) : list item * bool :=
  match r with
  | [] => ([], false)
  | c :: r' =>
      match r' with
      | s :: r'' =>
          if s =? STAR then let '(l, e) := items r'' in (Many c :: l, e)
          else let '(l, e) := items r' in (One c :: l, e)
      | [] => if c =? DOLLAR then ([], true) else ([One c], false)
      end
  end.

Definition fits (c x : Z) : Prop := c = DOT \/ c = x.

Inductive lang : list item -> list Z -> Prop :=
| lang_nil : lang [] []
| lang_one c x l w : fits c x -> lang l w -> lang (One c :: l) (x :: w)
| lang_many c w1 l w2 : Forall (fits c) w1 -> lang l w2 -> lang (Many c :: l) (w1 ++ w2).

(** A prefix of the text is in the language, the whole text when the pattern ends in [$]. *)
Definition here (r t : list Z) : Prop :=
  exists w rest, t = w ++ rest /\ lang (fst (items r)) w /\ (snd (items r) = true -> rest = []).

Definition matches (r t : list Z) : Prop :=
  match r with
  | c :: r' => if c =? CARET then here r' t else exists pre suf, t = pre ++ suf /\ here r suf
  | [] => True
  end.

(** *** The clauses of the code, as facts about [here] *)

Lemma here_nil t : here [] t.
Proof. exists [], t. split; [done|]. split; [constructor|done]. Qed.

Lemma here_dollar t : here [DOLLAR] t <-> t = [].
Proof.
  unfold here. cbn. split.
  - intros (w & rest & -> & Hw & Hr). inversion Hw; subst. by rewrite (Hr eq_refl).
  - intros ->. exists [], []. split; [done|]. split; [constructor|done].
Qed.

Lemma here_many c r t : here (c :: STAR :: r) t <-> exists w t', t = w ++ t' /\ Forall (fits c) w /\ here r t'.
Proof.
  unfold here. cbn [items]. rewrite Z.eqb_refl. destruct (items r) as [l e]. cbn [fst snd]. split.
  - intros (w & rest & -> & Hw & Hr). inversion Hw as [| |? w1 ? w2 Hf Hl]; subst.
    exists w1, (w2 ++ rest). split; [by rewrite app_assoc|]. split; [done|]. by exists w2, rest.
  - intros (w1 & t' & -> & Hf & w2 & rest & -> & Hl & Hr). exists (w1 ++ w2), rest.
    split; [by rewrite app_assoc|]. split; [by constructor|done].
Qed.

Lemma here_one c r t : (match r with s :: _ => s <> STAR | [] => c <> DOLLAR end) ->
  here (c :: r) t <-> exists x t', t = x :: t' /\ fits c x /\ here r t'.
Proof.
  intros Hne. unfold here.
  assert (items (c :: r) = (One c :: fst (items r), snd (items r))) as ->.
  { destruct r as [|s r]; cbn [items].
    - by rewrite (proj2 (Z.eqb_neq _ _) Hne).
    - rewrite (proj2 (Z.eqb_neq _ _) Hne). by destruct (items (s :: r)) as [l e] eqn:E; cbn [items] in E |- *; rewrite E. }
  cbn [fst snd]. split.
  - intros (w & rest & -> & Hw & Hr). inversion Hw as [|? x ? w' Hf Hl|]; subst.
    exists x, (w' ++ rest). split; [done|]. split; [done|]. by exists w', rest.
  - intros (x & t' & -> & Hf & w & rest & -> & Hl & Hr). exists (x :: w), rest.
    split; [done|]. split; [by constructor|done].
Qed.

(** ** The code against the reference *)

Definition tells (o : option Z) (P : Prop) : Prop := (o = Some 1 /\ P) \/ (o = Some 0 /\ ~ P).

Lemma tells_iff o P Q : (P <-> Q) -> tells o P -> tells o Q.
Proof. unfold tells. tauto. Qed.

(** A string and what follows it. *)
Lemma cstr_cons m a c l : cstr m a (c :: l) -> c <> 0 /\ ld8 m a = c /\ cstr m (a + 1) l.
Proof. done. Qed.

Lemma matchstar_ok hf m c r : forall t rounds text,
  cstr m text t -> (length t < rounds)%nat ->
  (forall t' text', (length t' <= length t)%nat -> cstr m text' t' -> tells (hf text') (here r t')) ->
  tells (matchstar rounds hf m c text) (exists w t', t = w ++ t' /\ Forall (fits c) w /\ here r t').
Proof.
  induction t as [|x t IH]; intros [|rounds] text Hc Hl Hh; cbn [length] in Hl; try lia; cbn [matchstar];
    (destruct (Hh _ text ltac:(done) Hc) as [[-> Hp]|[-> Hn]]; cbn [mbind option_bind]);
    [left; split; [done|]; by exists [], []| |left; split; [done|]; by exists [], (x :: t)|].
  - cbn [negb Z.eqb]. rewrite (cstr_head _ _ _ Hc). cbn [negb Z.eqb andb]. right. split; [done|].
    intros (w & t' & E & _ & Hr). symmetry in E. apply app_eq_nil in E as [-> ->]. done.
  - cbn [negb Z.eqb]. apply cstr_cons in Hc as (Hx0 & -> & Hc). rewrite (proj2 (Z.eqb_neq x 0) Hx0). cbn [negb andb].
    assert (((x =? c) || (c =? DOT)) = true <-> fits c x) as Hfit by (unfold fits; lia).
    destruct ((x =? c) || (c =? DOT)).
    + eapply tells_iff; [|apply (IH rounds (text + 1) Hc); [lia|]].
      2:{ intros t' text' Hlt. apply Hh. cbn [length]. lia. }
      split.
      * intros (w & t' & -> & Hf & Hr). exists (x :: w), t'. split; [done|]. split; [|done]. constructor; [by apply Hfit|done].
      * intros ([|y w] & t' & E & Hf & Hr); cbn [app] in E; [by subst t'|].
        injection E as -> ->. apply Forall_cons_1 in Hf as [_ Hf]. by exists w, t'.
    + right. split; [done|]. intros ([|y w] & t' & E & Hf & Hr); cbn [app] in E; [by subst t'|].
      injection E as -> ->. apply Forall_cons_1 in Hf as [Hf _]. by apply Hfit in Hf.
Qed.

(** One character against one item. *)
Lemma match_one_ok (mh : Z -> Z -> option Z) m c r t re text :
  cstr m re r -> cstr m text t -> (match r with s :: _ => s <> STAR | [] => c <> DOLLAR end) ->
  (forall t' text', (length t' < length t)%nat -> cstr m text' t' -> tells (mh re text') (here r t')) ->
  tells (if negb (ld8 m text =? 0) && ((c =? DOT) || (c =? ld8 m text)) then mh re (text + 1) else Some 0) (here (c :: r) t).
Proof.
  intros Hre Ht Hne Hh. destruct t as [|x t].
  - rewrite (cstr_head _ _ _ Ht). cbn [negb Z.eqb andb]. right. split; [done|].
    intros (x & t' & E & _)%here_one; done.
  - apply cstr_cons in Ht as (Hx0 & -> & Ht). rewrite (proj2 (Z.eqb_neq x 0) Hx0). cbn [negb andb].
    assert (((c =? DOT) || (c =? x)) = true <-> fits c x) as Hfit by (unfold fits; lia).
    destruct ((c =? DOT) || (c =? x)).
    + eapply tells_iff; [|apply (Hh t (text + 1)); [cbn [length]; lia|exact Ht]].
      rewrite here_one by done. split; [intros Hr; exists x, t; split; [done|]; split; [by apply Hfit|done]|].
      intros (y & t' & E & _ & Hr). by injection E as -> ->.
    + right. split; [done|]. intros (y & t' & E & Hf & Hr)%here_one; [|done]. injection E as -> ->. by apply Hfit in Hf.
Qed.

Lemma matchhere_ok m : forall fuel r re t text, cstr m re r -> cstr m text t -> (length r + length t < fuel)%nat ->
  tells (matchhere fuel m re text) (here r t).
Proof.
  induction fuel as [|fuel IH]; intros r re t text Hre Ht Hf; [lia|]. cbn [matchhere].
  destruct r as [|c r]; [rewrite (cstr_head _ _ _ Hre); left; split; [done|apply here_nil]|].
  pose proof Hre as Hre0. apply cstr_cons in Hre0 as (Hc0 & -> & Hre1). rewrite (proj2 (Z.eqb_neq c 0) Hc0).
  rewrite (cstr_head _ _ _ Hre1). cbn [length] in Hf. destruct r as [|s r].
  - change (0 =? STAR) with false. rewrite Z.eqb_refl, andb_true_r. destruct (Z.eqb_spec c DOLLAR) as [->|Hd].
    + rewrite (cstr_head _ _ _ Ht). destruct t as [|x t]; [left; split; [done|by apply here_dollar]|].
      destruct Ht as (Hx0 & _). rewrite (proj2 (Z.eqb_neq x 0) Hx0). right. split; [done|]. by intros ?%here_dollar.
    + apply (match_one_ok (matchhere fuel m) m c [] t (re + 1) text Hre1 Ht Hd).
      intros t' text' Hl Ht'. apply IH; [done|done|cbn [length]; lia].
  - apply cstr_cons in Hre1 as Hre2. destruct Hre2 as (Hs0 & _ & Hre2). destruct (Z.eqb_spec s STAR) as [->|Hs].
    + eapply tells_iff; [symmetry; apply here_many|]. cbn [length] in Hf. apply matchstar_ok; [done|lia|].
      intros t' text' Hl Ht'. replace (re + 2) with (re + 1 + 1) by lia. apply IH; [done|done|lia].
    + rewrite (proj2 (Z.eqb_neq s 0) Hs0), andb_false_r.
      apply (match_one_ok (matchhere fuel m) m c (s :: r) t (re + 1) text Hre1 Ht Hs).
      intros t' text' Hl Ht'. apply IH; [done|done|cbn [length] in *; lia].
Qed.

Lemma match_from_ok hf m r : forall t rounds text,
  cstr m text t -> (length t < rounds)%nat ->
  (forall t' text', (length t' <= length t)%nat -> cstr m text' t' -> tells (hf text') (here r t')) ->
  tells (match_from rounds hf m text) (exists pre suf, t = pre ++ suf /\ here r suf).
Proof.
  induction t as [|x t IH]; intros [|rounds] text Hc Hl Hh; cbn [length] in Hl; try lia; cbn [match_from];
    (destruct (Hh _ text ltac:(done) Hc) as [[-> Hp]|[-> Hn]]; cbn [mbind option_bind]);
    [left; split; [done|]; by exists [], []| |left; split; [done|]; by exists [], (x :: t)|].
  - cbn [negb Z.eqb]. rewrite (cstr_head _ _ _ Hc). right. split; [done|].
    intros (w & t' & E & Hr). symmetry in E. apply app_eq_nil in E as [-> ->]. done.
  - cbn [negb Z.eqb]. apply cstr_cons in Hc as (Hx0 & -> & Hc). rewrite (proj2 (Z.eqb_neq x 0) Hx0). cbn [negb].
    eapply tells_iff; [|apply (IH rounds (text + 1) Hc); [lia|]].
    2:{ intros t' text' Hlt. apply Hh. cbn [length]. lia. }
    split; [intros (w & t' & -> & Hr); by exists (x :: w), t'|].
    intros ([|y w] & t' & E & Hr); cbn [app] in E; [by subst t'|]. injection E as -> ->. by exists w, t'.
Qed.

Lemma grep_match_ok fuel m re text r t :
  cstr m re r -> cstr m text t -> (length r + length t < fuel)%nat ->
  tells (grep_match fuel m re text) (matches r t).
Proof.
  intros Hre Ht Hf. unfold grep_match, matches. rewrite (cstr_head _ _ _ Hre).
  assert (forall t' text', (length t' <= length t)%nat -> cstr m text' t' -> tells (matchhere fuel m re text') (here r t')) as Hh.
  { intros t' text' Hl Ht'. apply matchhere_ok; [done|done|lia]. }
  destruct r as [|c r].
  - change (0 =? CARET) with false. eapply tells_iff; [|apply (match_from_ok _ m [] t fuel text Ht); [lia|exact Hh]].
    split; [done|]. intros _. exists [], t. split; [done|apply here_nil].
  - destruct (Z.eqb_spec c CARET) as [->|Hc].
    + destruct Hre as (_ & _ & Hre). apply matchhere_ok; [done|done|cbn [length] in *; lia].
    + apply (match_from_ok _ m (c :: r) t fuel text Ht); [lia|exact Hh].
Qed.

(** The recursive matcher of [grep] decides the language of the pattern.  For every
    pattern and text it ends, with fuel above the sum of their lengths, and answers 1
    exactly if the text (with a leading caret), or some suffix of it (without), has a
    prefix in the language of the pattern's items, where a dot fits every byte, a
    starred character any number of fitting bytes, and a final dollar asks for the
    whole rest. *)
Theorem grep_match_spec fuel m re text r t :
  cstr m re r -> cstr m text t -> (length r + length t < fuel)%nat ->
  tells (grep_match fuel m re text) (matches r t).
Proof. apply grep_match_ok. Qed.

(** "a.*c$" and "xabcc". *)
Definition demo_grep_mem : mem := store_bytes (store_bytes ∅ 4096 [97; 46; 42; 99; 36; 0]) 8192 [120; 97; 98; 99; 99; 0].

Lemma grep_match_spec_witness :
  grep_match 20 demo_grep_mem 4096 8192 = Some 1 /\ matches [97; 46; 42; 99; 36] [120; 97; 98; 99; 99].
Proof.
  assert (cstr demo_grep_mem 4096 [97; 46; 42; 99; 36]) as H1.
  { cbn [cstr]. repeat (split; [done|split; [by vm_compute|]]). by vm_compute. }
  assert (cstr demo_grep_mem 8192 [120; 97; 98; 99; 99]) as H2.
  { cbn [cstr]. repeat (split; [done|split; [by vm_compute|]]). by vm_compute. }
  destruct (grep_match_spec 20 demo_grep_mem 4096 8192 _ _ H1 H2 ltac:(cbn; lia)) as [[E H]|[E _]].
  - split; [exact E|exact H].
  - exfalso. assert (grep_match 20 demo_grep_mem 4096 8192 = Some 1) as E1 by (by vm_compute). congruence.
Defined.
