(* ===== verification/File.v ===== *)
(** * Open files and pipes: kernel/fs/file.c, kernel/fs/pipe.c

    A [struct pipe] is a page of the allocator: its lock (16 bytes), the ring
    [data], [nread], [nwrite], [readopen], [writeopen], at their offsets. *)

From S2P Require Import Prelude Hart VmSystem Mem Kalloc PageTable UserCopy State Sleep Uart Bio Log Fs.

Definition PIPESIZE : Z := 512.
Definition pi_data (pi i : Z) : Z := pi + 16 + i.
Definition pi_nread (pi : Z) : Z := pi + 528.
Definition pi_nwrite (pi : Z) : Z := pi + 532.
Definition pi_readopen (pi : Z) : Z := pi + 536.
Definition pi_writeopen (pi : Z) : Z := pi + 540.

Section File.
Context `{KernelData} `{WaitFuel}.

(** ** Pipes *)

Definition pipeclose (pi : Z) (writable : bool) : M kst unit :=
  acquire (LkPipe pi) ;;
  (if writable then
     kst32 (pi_writeopen pi) 0 ;; wake_up (ChPipeRead pi)
   else
     kst32 (pi_readopen pi) 0 ;; wake_up (ChPipeWrite pi)) ;;
  ro ← kld32 (pi_readopen pi);
  wo ← kld32 (pi_writeopen pi);
  if (ro =? 0) && (wo =? 0) then
    release (LkPipe pi) ;; kmdo (kfree pi)
  else release (LkPipe pi).

(** [while (pi->nwrite == pi->nread + PIPESIZE)]: true when the caller must give
    up with -1 (the lock is released then). *)
Definition pipewrite_wait (pi : Z) (pr : nat) : M kst bool :=
  while_loop wait_fuel tt (fun _ =>
    nw ← kld32 (pi_nwrite pi);
    nr ← kld32 (pi_nread pi);
    if negb (nw =? u32 (nr + PIPESIZE)) then mret (inr false) else
    ro ← kld32 (pi_readopen pi);
    p ← read_proc pr;
    if (ro =? 0) || negb (p_killed p =? 0) then release (LkPipe pi) ;; mret (inr true) else
    wake_up (ChPipeRead pi) ;;
    sleep_r (ChPipeWrite pi) (LkPipe pi) ;;
    mret (inl tt)).

Definition pipewrite (pi addr n : Z) : M kst Z :=
  pr ← cur_proc;
  acquire (LkPipe pi) ;;
  (* [inl]: left the loop with [i]; [inr]: returned from it *)
  r ← for_loop (Z.to_nat n) 0 (fun i =>
    gone ← pipewrite_wait pi pr;
    if (gone : bool) then mret (Some (inr (-1))) else
    p ← read_proc pr;
    err ← kmdo (copyin (p_pgtable p) local_ch (u64 (addr + i)) 1);
    if err =? -1 then mret (Some (inl i)) else
    ch ← kld8 local_ch;
    nw ← kld32 (pi_nwrite pi);
    kst32 (pi_nwrite pi) (u32 (nw + 1)) ;;
    kst8 (pi_data pi (nw mod PIPESIZE)) ch ;;
    mret None);
  match r with
  | Some (inr v) => mret v
  | r =>
      let i := match r with Some (inl i) => i | _ => Z.max n 0 end in
      wake_up (ChPipeRead pi) ;;
      release (LkPipe pi) ;;
      mret i
  end.

Definition piperead (pi addr n : Z) : M kst Z :=
  pr ← cur_proc;
  acquire (LkPipe pi) ;;
  gone ← while_loop wait_fuel tt (fun _ =>
    nr ← kld32 (pi_nread pi);
    nw ← kld32 (pi_nwrite pi);
    wo ← kld32 (pi_writeopen pi);
    if negb ((nr =? nw) && negb (wo =? 0)) then mret (inr false) else
    p ← read_proc pr;
    if negb (p_killed p =? 0) then release (LkPipe pi) ;; mret (inr true) else
    sleep_r (ChPipeRead pi) (LkPipe pi) ;;
    mret (inl tt));
  if (gone : bool) then mret (-1) else
  r ← for_loop (Z.to_nat n) 0 (fun i =>
    nr ← kld32 (pi_nread pi);
    nw ← kld32 (pi_nwrite pi);
    if nr =? nw then mret (Some i) else
    kst32 (pi_nread pi) (u32 (nr + 1)) ;;
    ch ← kld8 (pi_data pi (nr mod PIPESIZE));
    kst8 local_ch ch ;;
    p ← read_proc pr;
    err ← kmdo (copyout (p_pgtable p) (u64 (addr + i)) local_ch 1);
    if err =? -1 then mret (Some i) else mret None);
  wake_up (ChPipeWrite pi) ;;
  release (LkPipe pi) ;;
  mret (default (Z.max n 0) r).

(** ** Open files *)

Definition fileinit : M kst unit := hwdo (init_spin_lock LkFtable).

Definition filealloc : M kst (option nat) :=
  acquire LkFtable ;;
  r ← for_loop (Z.to_nat NFILE) 0 (fun i =>
    f ← read_file (Z.to_nat i);
    if f_ref f =? 0 then
      upd_file (Z.to_nat i) (set_f_ref 1) ;; mret (Some (Z.to_nat i))
    else mret None);
  release LkFtable ;;
  mret r.

Definition filedup (f : nat) : M kst nat :=
  acquire LkFtable ;;
  x ← read_file f;
  if f_ref x <? 1 then panic "filedup" else
  upd_file f (fun x => set_f_ref (f_ref x + 1) x) ;;
  release LkFtable ;;
  mret f.

Definition fileclose (f : nat) : M kst unit :=
  acquire LkFtable ;;
  x ← read_file f;
  if f_ref x <? 1 then panic "fileclose" else
  upd_file f (fun x => set_f_ref (f_ref x - 1) x) ;;
  x ← read_file f;
  if f_ref x >? 0 then release LkFtable else
  let ff := x in
  upd_file f (set_f_ref 0) ;;
  upd_file f (set_f_type FD_NONE) ;;
  release LkFtable ;;
  match f_type ff with
  | FD_PIPE => pipeclose (f_pipe ff) (negb (f_writable ff =? 0))
  | FD_INODE | FD_DEVICE =>
      ip ← lift_opt (f_ip ff);
      begin_op ;; iput ip ;; end_op
  | FD_NONE => mret tt
  end.

(** The [goto bad] of [pipealloc]. *)
Definition pipealloc_bad (f0 f1 : option nat) : M kst (option (nat * nat)) :=
  match f0 with Some f => fileclose f | None => mret tt end ;;
  match f1 with Some f => fileclose f | None => mret tt end ;;
  mret None.

Definition pipealloc : M kst (option (nat * nat)) :=
  f0 ← filealloc;
  match f0 with
  | None => pipealloc_bad None None
  | Some a =>
      f1 ← filealloc;
      match f1 with
      | None => pipealloc_bad (Some a) None
      | Some b =>
          pi ← kmdo kalloc;
          if pi =? NULL then pipealloc_bad (Some a) (Some b) else
          kst32 (pi_readopen pi) 1 ;;
          kst32 (pi_writeopen pi) 1 ;;
          kst32 (pi_nwrite pi) 0 ;;
          kst32 (pi_nread pi) 0 ;;
          hwdo (init_spin_lock (LkPipe pi)) ;;
          upd_file a (set_f_type FD_PIPE) ;;
          upd_file a (set_f_readable 1) ;;
          upd_file a (set_f_writable 0) ;;
          upd_file a (set_f_pipe pi) ;;
          upd_file b (set_f_type FD_PIPE) ;;
          upd_file b (set_f_readable 0) ;;
          upd_file b (set_f_writable 1) ;;
          upd_file b (set_f_pipe pi) ;;
          mret (Some (a, b))
      end
  end.

Definition STAT_SIZE : Z := 24.

Definition filestat (f : nat) (addr : Z) : M kst Z :=
  me ← cur_proc;
  x ← read_file f;
  match f_type x with
  | FD_INODE | FD_DEVICE =>
      ip ← lift_opt (f_ip x);
      ilock ip ;;
      st ← stati ip;
      kst32 local_st (u32 (st_dev st)) ;;
      kst32 (local_st + 4) (st_ino st) ;;
      kst16 (local_st + 8) (u16 (st_type st)) ;;
      kst16 (local_st + 10) (u16 (st_nlink st)) ;;
      kst64 (local_st + 16) (st_size st) ;;
      iunlock ip ;;
      p ← read_proc me;
      r ← kmdo (copyout (p_pgtable p) addr local_st STAT_SIZE);
      mret (if r <? 0 then -1 else 0)
  | _ => mret (-1)
  end.

(** [devsw[major].read] is NULL unless a device has registered. *)
Definition has_dev (major : Z) : M kst bool :=
  d ← gets k_devsw; mret (default false (d !! Z.to_nat major)).

Definition fileread (f : nat) (addr n : Z) : M kst Z :=
  x ← read_file f;
  if f_readable x =? 0 then mret (-1) else
  match f_type x with
  | FD_PIPE => piperead (f_pipe x) addr n
  | FD_DEVICE =>
      dev ← has_dev (f_major x);
      if (f_major x <? 0) || (f_major x >=? NDEV) || negb dev then mret (-1) else
      console_read_dev UPTR addr n
  | FD_INODE =>
      ip ← lift_opt (f_ip x);
      ilock ip ;;
      x ← read_file f;
      r ← readi ip UPTR addr (f_off x) (u32 n);
      (if r >? 0 then upd_file f (fun x => set_f_off (u32 (f_off x + r)) x) else mret tt) ;;
      iunlock ip ;;
      mret r
  | FD_NONE => panic "fileread"
  end.

Definition filewrite (f : nat) (addr n : Z) : M kst Z :=
  x ← read_file f;
  if f_writable x =? 0 then mret (-1) else
  match f_type x with
  | FD_PIPE => pipewrite (f_pipe x) addr n
  | FD_DEVICE =>
      dev ← has_dev (f_major x);
      if (f_major x <? 0) || (f_major x >=? NDEV) || negb dev then mret (-1) else
      console_write_dev UPTR addr n
  | FD_INODE =>
      ip ← lift_opt (f_ip x);
      let max := (MAXOPBLOCKS - 1 - 1 - 2) / 2 * BSIZE in
      i ← while_loop (S (Z.to_nat n)) 0 (fun i =>
        if negb (i <? n) then mret (inr i) else
        let n1 := if n - i >? max then max else n - i in
        begin_op ;;
        ilock ip ;;
        x ← read_file f;
        r ← writei ip UPTR (u64 (addr + i)) (f_off x) (u32 n1);
        (if r >? 0 then upd_file f (fun x => set_f_off (u32 (f_off x + r)) x) else mret tt) ;;
        iunlock ip ;;
        end_op ;;
        if r <? 0 then mret (inr i) else
        if negb (r =? n1) then panic "short filewrite" else
        mret (inl (i + r)));
      mret (if i =? n then n else -1)
  | FD_NONE => panic "filewrite"
  end.

End File.
