(* ===== verification/Loader.v ===== *)
(** * Loading an ELF executable: kernel/process/process_loader.c, process/elf.h

    The reader of the file ([readi], or [fake_elf_read] for the first process) is an
    argument, as in the code; headers are read into the locals [local_ehdr] and
    [local_phdr] and accessed through their field offsets. *)

From S2P Require Import Prelude Hart VmSystem Mem Kalloc PageTable UserCopy State.

(** ** include/process/elf.h *)

Record Elf64_Ehdr := mk_ehdr {
  e_ident : list Z; e_type : Z; e_entry : Z; e_phoff : Z; e_phentsize : Z; e_phnum : Z }.
Record Elf64_Phdr := mk_phdr {
  p_type : Z; p_flags : Z; p_offset : Z; p_vaddr : Z; p_filesz : Z; p_memsz : Z; p_align : Z }.

Definition EHDR_SIZE : Z := 64.
Definition PHDR_SIZE : Z := 56.
Definition EI_CLASS : nat := 4%nat.
Definition EI_DATA : nat := 5%nat.
Definition ELFCLASS64 : Z := 2.
Definition ELFDATA2LSB : Z := 1.
Definition ET_EXEC : Z := 2.
Definition PT_LOAD : Z := 1.
Definition PF_X : Z := 1.
Definition EI_MAGIC : list Z := [0x7f; 69; 76; 70].

(** The fields of a header at address [a] that the loader reads. *)
Definition ehdr_at (m : mem) (a : Z) : Elf64_Ehdr :=
  mk_ehdr (map (fun i => ld8 m (a + Z.of_nat i)) (seq 0 16)) (ld16 m (a + 16)) (ld64 m (a + 24))
          (ld64 m (a + 32)) (ld16 m (a + 54)) (ld16 m (a + 56)).
Definition phdr_at (m : mem) (a : Z) : Elf64_Phdr :=
  mk_phdr (ld32 m a) (ld32 m (a + 4)) (ld64 m (a + 8)) (ld64 m (a + 16)) (ld64 m (a + 32))
          (ld64 m (a + 40)) (ld64 m (a + 48)).

(** ** Checks *)

Definition check_elf_header (header : Elf64_Ehdr) : Z :=
  if negb (forallb (fun i => default 0 (e_ident header !! i) =? default 0 (EI_MAGIC !! i)) (seq 0 4))
  then -1 else
  if negb (default 0 (e_ident header !! EI_CLASS) =? ELFCLASS64) then -1 else
  if negb (default 0 (e_ident header !! EI_DATA) =? ELFDATA2LSB) then -1 else
  if negb (e_type header =? ET_EXEC) then -1 else
  if negb (e_entry header =? PROC_VA_START) then -1 else
  if (e_phoff header =? 0) || (e_phentsize header =? 0) || (e_phnum header =? 0) then -1 else 0.

Definition check_segment (segment : Elf64_Phdr) (file_size : Z) : Z :=
  if p_filesz segment >? p_memsz segment then -1 else
  if negb (p_vaddr segment mod PGSIZE =? 0) || (p_vaddr segment <? PROC_VA_START) then -1 else
  if u64 (p_vaddr segment + p_memsz segment) >? USTACK_BASE then -1 else
  if u64 (p_offset segment + p_filesz segment) >? file_size then -1 else
  if p_align segment >? PGSIZE then -1 else 0.

Definition get_attribute_from_p_flages (p_flages : Z) : Z :=
  let attribute := PTE_U in
  let attribute :=
    if negb (Z.land p_flages PF_X =? 0) || negb (Z.land p_flages PTE_R =? 0)
    then Z.lor attribute (Z.lor PTE_R PTE_X) else attribute in
  if negb (Z.land p_flages PTE_W =? 0)
  then Z.lor attribute (Z.lor (Z.lor PTE_R PTE_W) PTE_X) else attribute.

(** ** Mapping *)

Section Loader.
Context `{KernelData}.

Definition elf_read_fn : Type := ptr_kind -> Z -> Z -> Z -> M kst Z.

Definition append_map_page (pgtable va attribute : Z) : M kmem Z :=
  page ← kalloc;
  if page =? NULL then mret NULL else
  err ← map_page pgtable va page attribute;
  if negb (err =? 0) then kfree page ;; mret NULL else mret page.

Definition read_check (elf_read : elf_read_fn) (user_dst : ptr_kind) (dst off n : Z) : M kst bool :=
  sz ← elf_read user_dst dst (u32 off) (u32 n);
  mret (negb (u32 sz =? u32 n)).

(** The three phases of the segment: whole pages of the file, the page with its
    end, pages of zeros.  A phase ends in [inl] with the loop variables or in
    [inr va] on an error, for [err_ret]. *)
Definition map_segment_for_segment (pgtable : Z) (segment : Elf64_Phdr) (elf_read : elf_read_fn)
  : M kst Z :=
  let file_off_start := p_offset segment in
  let file_size := u32 (p_filesz segment) in
  let va_start := p_vaddr segment in
  let attribute := get_attribute_from_p_flages (p_flags segment) in
  let file_n_pages_end := u64 (file_off_start + ROUND_DOWN_PGSIZE file_size) in
  let err_ret va :=
    kmdo (unmap_n_pages_free pgtable va_start (i32 (u64 (va - va_start) / PGSIZE))) ;; mret (-1) in
  r1 ← while_loop (Z.to_nat (file_size / PGSIZE + 2)) (file_off_start, va_start) (fun '(file_off, va) =>
         if negb (file_off <? file_n_pages_end) then mret (inr (inl (file_off, va))) else
         page ← kmdo (append_map_page pgtable va attribute);
         if page =? NULL then mret (inr (inr va)) else
         let va := u64 (va + PGSIZE) in
         err ← read_check elf_read KPTR page file_off PGSIZE;
         if (err : bool) then mret (inr (inr va)) else
         mret (inl (u64 (file_off + PGSIZE), va)));
  match r1 with
  | inr va => err_ret va
  | inl (file_off, va) =>
      let file_end := u64 (file_off_start + file_size) in
      r2 ← (if file_off <? file_end then
              page ← kmdo (append_map_page pgtable va attribute);
              if page =? NULL then mret (inr va) else
              let va := u64 (va + PGSIZE) in
              let rest_size := u64 (file_end - file_off) in
              err ← read_check elf_read KPTR page file_off rest_size;
              if (err : bool) then mret (inr va) else
              kmemset (page + rest_size) 0 (u64 (PGSIZE - rest_size)) ;;
              mret (inl va)
            else mret (inl va));
      match r2 with
      | inr va => err_ret va
      | inl va =>
          let va_n_pages_end := u64 (va_start + ROUND_UP_PGSIZE (p_memsz segment)) in
          r3 ← while_loop (Z.to_nat (p_memsz segment / PGSIZE + 3)) va (fun va =>
                 if negb (va <? va_n_pages_end) then mret (inr (inl tt)) else
                 page ← kmdo (append_map_page pgtable va attribute);
                 if page =? NULL then mret (inr (inr va)) else
                 kmemset page 0 PGSIZE ;;
                 mret (inl (u64 (va + PGSIZE))));
          match r3 with
          | inr va => err_ret va
          | inl _ => mret 0
          end
      end
  end.

Definition load_process_elf (pgtable file_size : Z) (elf_read : elf_read_fn) : M kst Z :=
  err ← read_check elf_read KPTR local_ehdr 0 EHDR_SIZE;
  if (err : bool) then mret (u64 (-1)) else
  elf_header ← gets (fun s => ehdr_at (k_mem s) local_ehdr);
  if negb (check_elf_header elf_header =? 0) then mret (u64 (-1)) else
  let prog_header := e_phoff elf_header in
  let ph_ent_sz := e_phentsize elf_header in
  let ph_num := e_phnum elf_header in
  let err_ret mem_end :=
    kmdo (unmap_n_pages_free_hole pgtable PROC_VA_START (i32 mem_end)) ;; mret (inr (u64 (-1))) in
  while_loop (Z.to_nat ph_num + 1) (0, PROC_VA_START) (fun '(i, mem_end) =>
    if negb (i <? ph_num) then mret (inr (ROUND_UP_PGSIZE mem_end)) else
    err ← read_check elf_read KPTR local_phdr (u64 (prog_header + ph_ent_sz * i)) PHDR_SIZE;
    if (err : bool) then err_ret mem_end else
    segment ← gets (fun s => phdr_at (k_mem s) local_phdr);
    if negb (p_type segment =? PT_LOAD) || (p_memsz segment =? 0) then mret (inl (i + 1, mem_end)) else
    if negb (check_segment segment file_size =? 0) then err_ret mem_end else
    err ← map_segment_for_segment pgtable segment elf_read;
    if negb (err =? 0) then err_ret mem_end else
    let new_end := u64 (p_vaddr segment + p_memsz segment) in
    mret (inl (i + 1, if mem_end >? new_end then mem_end else new_end))).

End Loader.

(** ** What an accepted segment satisfies *)

Lemma z_gtb_false a b : (a >? b) = false <-> a <= b.
Proof. lia. Qed.

Lemma check_segment_iff segment file_size :
  check_segment segment file_size = 0 <->
  p_filesz segment <= p_memsz segment /\ p_vaddr segment mod PGSIZE = 0 /\ PROC_VA_START <= p_vaddr segment /\
  u64 (p_vaddr segment + p_memsz segment) <= USTACK_BASE /\ u64 (p_offset segment + p_filesz segment) <= file_size /\
  p_align segment <= PGSIZE.
Proof.
  unfold check_segment. generalize (u64 (p_vaddr segment + p_memsz segment)), (u64 (p_offset segment + p_filesz segment)).
  intros e f. split.
  - repeat case_match; try done. intros _. lia.
  - intros (H1 & H2 & H3 & H4 & H5 & H6). rewrite (proj2 (z_gtb_false _ _) H1), H2.
    rewrite (proj2 (Z.ltb_ge _ _) H3), (proj2 (z_gtb_false _ _) H4), (proj2 (z_gtb_false _ _) H5), (proj2 (z_gtb_false _ _) H6).
    done.
Qed.

(** A segment of four pages at the top of the address space: its end wraps around. *)
Definition wrapping_segment : Elf64_Phdr := mk_phdr PT_LOAD 5 64 (2 ^ 64 - 2 * PGSIZE) 16 (4 * PGSIZE) PGSIZE.

(** C39: A segment that [check_segment] accepts, and whose end does not wrap around 64
    bits, is page-aligned and lies between [PROC_VA_START] and the stack, so that
    loading it touches neither the stack nor the trap frame nor the trampoline; its
    file part fits its memory, and lies inside the file when its own end does not
    wrap.  The restriction is needed: the sums are not checked for overflow, and a
    segment far above the address space whose end wraps around is accepted. *)
Theorem check_segment_bounds segment file_size :
  0 <= p_vaddr segment < 2 ^ 64 -> 0 <= p_memsz segment < 2 ^ 64 -> 0 <= p_filesz segment < 2 ^ 64 ->
  0 <= p_offset segment < 2 ^ 64 -> check_segment segment file_size = 0 ->
  (p_vaddr segment + p_memsz segment < 2 ^ 64 ->
    PROC_VA_START <= p_vaddr segment /\ p_vaddr segment + p_memsz segment <= USTACK_BASE /\
    ROUND_UP_PGSIZE (p_vaddr segment + p_memsz segment) <= USTACK_BASE) /\
  p_vaddr segment mod PGSIZE = 0 /\ p_filesz segment <= p_memsz segment /\
  (p_offset segment + p_filesz segment < 2 ^ 64 -> p_offset segment + p_filesz segment <= file_size) /\
  check_segment wrapping_segment 100 = 0 /\ USTACK_BASE < p_vaddr wrapping_segment.
Proof.
  intros Hv Hm Hf Ho (Hfm & Hal & Hst & Hend & Hfile & _)%check_segment_iff.
  split; [|split; [done|split; [done|split; [|split; by vm_compute]]]].
  - intros Hw. rewrite u64_small in Hend by lia. split; [done|]. split; [done|].
    rewrite ROUND_UP_eq by vmlia. vmlia.
  - intros Hw. rewrite u64_small in Hfile by lia. done.
Qed.

(** A text segment of five pages. *)
Lemma check_segment_bounds_witness :
  p_vaddr (mk_phdr PT_LOAD 5 0x1000 0x1000 0x4800 0x5000 PGSIZE) + 0x5000 <= USTACK_BASE.
Proof.
  destruct (check_segment_bounds (mk_phdr PT_LOAD 5 0x1000 0x1000 0x4800 0x5000 PGSIZE) 0x8000
    ltac:(cbn; lia) ltac:(cbn; lia) ltac:(cbn; lia) ltac:(cbn; lia) ltac:(by vm_compute)) as (H & _).
  exact (proj1 (proj2 (H ltac:(cbn; lia)))).
Defined.
