(* ===== verification/Process.v ===== *)
(** * Processes: kernel/process/process.c

    A process is an index into [k_procs].  The trap frame is a page of memory; its
    64-bit fields are numbered in the order of [struct trap_frame]. *)

From S2P Require Import Prelude Hart ListH VmSystem Mem Kalloc PageTable UserCopy State Sleep CpuMessage ProcGroup Kprint Bio Log Fs File Loader.

Definition ARGVN : Z := 32.
Definition ARGV_STR_LEN : Z := 64.
Definition MAXPATH : Z := 128.

(** Offsets of the trap frame's fields. *)
Definition TF_sp : Z := 8 * 1.
Definition TF_a0 : Z := 8 * 9.
Definition TF_sepc : Z := 8 * 31.
Definition TF_cpu_id : Z := 8 * 32.
Definition TF_kernel_trap_entry_ptr : Z := 8 * 33.
Definition TF_user_trap_handler_ptr : Z := 8 * 34.
Definition TF_kstack : Z := 8 * 35.
Definition TF_satp : Z := 8 * 36.

Definition procs_of (s : kst) : list nat := seq 0 (Z.to_nat STATIC_PROC_NUM).

Definition process_init : M kst unit :=
  hwdo (init_spin_lock LkPid) ;;
  for_each (Z.to_nat STATIC_PROC_NUM) 0 (fun i =>
    let i := Z.to_nat i in
    upd_proc i (set_p_pid (-1)) ;;
    upd_proc i (set_p_status UNUSED) ;;
    hwdo (init_spin_lock (LkProc i)) ;;
    upd_proc i (set_p_pgroup_id (-1))).

Definition get_init_process : nat := 0%nat.

Definition read_pid (i : Z) : M kst Z := l ← gets k_pids; lift_opt (l !! Z.to_nat i).
Definition set_pid (i v : Z) : M kst unit :=
  _ ← read_pid i; modify (fun s => set_k_pids (<[Z.to_nat i := v]> (k_pids s)) s).

Definition alloc_pid : M kst Z :=
  acquire LkPid ;;
  pid ← for_loop (Z.to_nat STATIC_PROC_NUM) 0 (fun i =>
    x ← read_pid i;
    if x =? 0 then set_pid i 1 ;; mret (Some i) else mret None);
  release LkPid ;;
  mret (default (-1) pid).

Definition free_pid (i : Z) : M kst unit :=
  acquire LkPid ;;
  x ← read_pid i;
  if x =? 0 then panic "free_pid: try to free unused pid" else
  set_pid i 0 ;;
  release LkPid.

Section Process.
Context `{KernelData} `{WaitFuel}.

(** [user_trap_ret] leaves for user space: the kernel's part ends here. *)
Definition user_proc_entry : M kst unit :=
  me ← cur_proc;
  release (LkProc me) ;;
  i ← gets k_init_fs;
  if i =? 0 then modify (set_k_init_fs 1) ;; fsinit ROOTDEV else mret tt.

Definition init_user_pagetable (proc : nat) (pgtable : Z) : M kst Z :=
  trap_frame_page ← kmdo kalloc;
  if trap_frame_page =? NULL then mret (-1) else
  ustack ← kmdo kalloc;
  if ustack =? NULL then kmdo (kfree trap_frame_page) ;; mret (-1) else
  e1 ← kmdo (map_page pgtable TRAMPOLINE_BASE (ROUND_DOWN_PGSIZE user_trap_entry) (Z.lor PTE_R PTE_X));
  e2 ← kmdo (map_page pgtable TRAPFRAME_BASE trap_frame_page (Z.lor PTE_R PTE_W));
  e3 ← kmdo (map_page pgtable USTACK_BASE ustack (Z.lor (Z.lor PTE_R PTE_W) PTE_U));
  let err := Z.lor (Z.lor e1 e2) e3 in
  if negb (err =? 0) then
    kmdo (kfree trap_frame_page) ;; kmdo (kfree ustack) ;; mret (-1)
  else
    upd_proc proc (set_p_ustack ustack) ;;
    upd_proc proc (set_p_trap_frame trap_frame_page) ;;
    mret 0.

Definition init_user_process (find_proc : nat) : M kst Z :=
  pgtable ← kmdo get_pagetable;
  if pgtable =? NULL then mret (-1) else
  upd_proc find_proc (set_p_pgtable pgtable) ;;
  err ← init_user_pagetable find_proc pgtable;
  if negb (err =? 0) then
    p ← read_proc find_proc; kmdo (free_page_table (p_pgtable p)) ;; mret (-1)
  else
  let err_ret :=
    p ← read_proc find_proc;
    kmdo (free_page_table (p_pgtable p)) ;;
    kmdo (kfree (p_ustack p)) ;;
    kmdo (kfree (p_trap_frame p)) ;;
    mret (-1) in
  kstack ← kmdo kalloc;
  if kstack =? NULL then err_ret else
  upd_proc find_proc (set_p_kstack kstack) ;;
  pid ← alloc_pid;
  if pid =? -1 then kmdo (kfree kstack) ;; err_ret else
  upd_proc find_proc (set_p_pid pid) ;;
  upd_proc find_proc (set_p_status USED) ;;
  upd_proc find_proc (set_p_killed 0) ;;
  upd_proc find_proc (set_p_xstatus 0) ;;
  upd_proc find_proc (set_p_chain ChNull) ;;
  upd_proc find_proc (set_p_parent None) ;;
  p ← read_proc find_proc;
  let tf := p_trap_frame p in
  kst64 (tf + TF_kernel_trap_entry_ptr) kernel_trap_entry ;;
  kst64 (tf + TF_kstack) (p_kstack p) ;;
  kst64 (tf + TF_satp) (MAKE_SATP kernel_page_table) ;;
  kst64 (tf + TF_user_trap_handler_ptr) user_trap_handler_ptr ;;
  kst64 (tf + TF_sepc) PROC_VA_START ;;
  kst64 (tf + TF_sp) (USTACK_BASE + PGSIZE) ;;
  upd_proc find_proc (fun p => set_p_context
    (set_ctx_sp (p_kstack p + PGSIZE) (set_ctx_ra user_proc_entry_ptr (p_context p))) p) ;;
  mret 0.

(** The scan ends at the first unused slot, whether or not it can be set up. *)
Definition alloc_process : M kst (option nat) :=
  r ← for_loop (Z.to_nat STATIC_PROC_NUM) 0 (fun i =>
    let proc := Z.to_nat i in
    acquire (LkProc proc) ;;
    p ← read_proc proc;
    if negb (bool_decide (p_status p = UNUSED)) then release (LkProc proc) ;; mret None else
    upd_proc proc (set_p_status USED) ;;
    release (LkProc proc) ;;
    err ← init_user_process proc;
    if negb (err =? 0) then
      acquire (LkProc proc) ;;
      upd_proc proc (set_p_status UNUSED) ;;
      release (LkProc proc) ;;
      mret (Some None)
    else mret (Some (Some proc)));
  mret (default None r).

(** The image of the first process is a kernel array at [binary]. *)
Definition fake_elf_read (binary : Z) (user_dst : ptr_kind) (dst off n : Z) : M kst Z :=
  match user_dst with
  | UPTR => panic "fake_elf_read: try to read into user addr"
  | KPTR => kmemmove dst (binary + off) n ;; mret (i32 n)
  end.

Definition setup_init_proc (init_code_binary init_code_binary_size : Z) : M kst unit :=
  proc ← alloc_process;
  match proc with
  | None => panic "setup_init_proc: fail to setup init process, process alloc error"
  | Some proc =>
      p ← read_proc proc;
      mem_end ← load_process_elf (p_pgtable p) (u32 init_code_binary_size)
                  (fake_elf_read init_code_binary);
      if mem_end =? u64 (-1)
      then panic "setup_init_proc: fail to setup init process, elf load error" else
      upd_proc proc (set_p_status RUNABLE) ;;
      upd_proc proc (set_p_mem_start mem_end) ;;
      upd_proc proc (set_p_mem_brk mem_end) ;;
      upd_proc proc (set_p_mem_end mem_end) ;;
      cwd ← namei lit_root;
      upd_proc proc (set_p_cwd cwd) ;;
      setup_default_proc_group proc
  end.

Definition free_user_memory (pgtable mem_end : Z) : M kst unit :=
  kmdo (unmap_n_pages_free pgtable PROC_VA_START (i32 (u64 (mem_end - PROC_VA_START) / PGSIZE))).

Definition free_process_user_memory (proc : nat) : M kst unit :=
  p ← read_proc proc; free_user_memory (p_pgtable p) (p_mem_end p).

Definition free_process (proc : nat) : M kst unit :=
  p ← read_proc proc;
  free_pid (p_pid p) ;;
  free_process_user_memory proc ;;
  kmdo (kfree (p_ustack p)) ;;
  kmdo (kfree (p_trap_frame p)) ;;
  kmdo (free_page_table (p_pgtable p)) ;;
  kmdo (kfree (p_kstack p)) ;;
  upd_proc proc (set_p_pid (-1)) ;;
  upd_proc proc (set_p_status UNUSED) ;;
  upd_proc proc (set_p_killed 0) ;;
  upd_proc proc (set_p_xstatus 0) ;;
  upd_proc proc (set_p_chain ChNull) ;;
  upd_proc proc (set_p_parent None) ;;
  upd_proc proc (set_p_pgroup_id (-1)).

(** ** fork *)

Definition fork_files (proc fork_proc : nat) : M kst unit :=
  for_each (Z.to_nat NOFILE) 0 (fun i =>
    p ← read_proc proc;
    slot ← lift_opt (p_ofile p !! Z.to_nat i);
    match slot with
    | Some f =>
        f' ← filedup f;
        upd_proc fork_proc (fun q => set_p_ofile (<[Z.to_nat i := Some f']> (p_ofile q)) q)
    | None => mret tt
    end).

Definition fork (proc : nat) : M kst Z :=
  r ← alloc_process;
  match r with
  | None => mret (u64 (-1))
  | Some fork_proc =>
      p ← read_proc proc;
      q ← read_proc fork_proc;
      err ← kmdo (merge_page_table_in_interval (Z.to_nat (p_mem_end p / PGSIZE + 2))
                    (p_pgtable q) (p_pgtable p) PROC_VA_START (p_mem_end p));
      if negb (err =? 0) then
        acquire (LkProc fork_proc) ;;
        free_process fork_proc ;;
        release (LkProc fork_proc) ;;
        mret (u64 (-1))
      else
      kmemcpy (p_ustack q) (p_ustack p) PGSIZE ;;
      kmemcpy (p_trap_frame q) (p_trap_frame p) (8 * 31) ;;
      kst64 (p_trap_frame q + TF_a0) 0 ;;
      sepc ← kld64 (p_trap_frame p + TF_sepc);
      kst64 (p_trap_frame q + TF_sepc) sepc ;;
      upd_proc fork_proc (set_p_parent (Some proc)) ;;
      upd_proc fork_proc (set_p_mem_start (p_mem_start p)) ;;
      upd_proc fork_proc (set_p_mem_brk (p_mem_brk p)) ;;
      upd_proc fork_proc (set_p_mem_end (p_mem_end p)) ;;
      fork_files proc fork_proc ;;
      cwd ← lift_opt (p_cwd p);
      cwd ← idup cwd;
      upd_proc fork_proc (set_p_cwd (Some cwd)) ;;
      q ← read_proc fork_proc;
      let pid := p_pid q in
      acquire (LkProc fork_proc) ;;
      upd_proc fork_proc (set_p_status RUNABLE) ;;
      release (LkProc fork_proc) ;;
      err ← forkproc_into_pgroup (p_pgroup_id p) fork_proc;
      if negb (err =? 0) then panic "fork: fail to add child to parent's proc group" else
      mret (u64 pid)
  end.

(** ** exec *)

Definition alloc_page_copy_argv (argc str_in_argv : Z) : M kst Z :=
  page ← kmdo kalloc;
  if page =? NULL then mret NULL else
  let str_start := 8 * (argc + 1) in
  kmemcpy (page + str_start) str_in_argv (ARGV_STR_LEN * argc) ;;
  for_each (Z.to_nat argc) 0 (fun i =>
    kst64 (page + 8 * i) (str_start + ARGV_STR_LEN * i)) ;;
  kst64 (page + 8 * argc) 0 ;;
  mret page.

(** The table of pointers ends with a zero, inside the page. *)
Definition map_argv_to_page_table (pgtable uva argv_page attribute : Z) : M kst Z :=
  err ← kmdo (map_page pgtable uva argv_page attribute);
  if negb (err =? 0) then mret (-1) else
  while_loop (S (Z.to_nat ARGVN)) 0 (fun i =>
    x ← kld64 (argv_page + 8 * i);
    if x =? 0 then mret (inr tt) else
    kst64 (argv_page + 8 * i) (u64 (uva + x)) ;;
    mret (inl (i + 1))) ;;
  mret 0.

Definition load_new_process_for_exec (proc elf : nat) (argv_page : Z) : M kst Z :=
  new_pgtable ← kmdo get_pagetable;
  if new_pgtable =? NULL then mret (-1) else
  ilock elf ;;
  x ← read_inode elf;
  if negb (i_type x =? T_FILE) then iunlock elf ;; kmdo (kfree new_pgtable) ;; mret (-1) else
  new_mem_end ← load_process_elf new_pgtable (i_size x) (readi elf);
  iunlock elf ;;
  if new_mem_end =? u64 (-1) then kmdo (free_page_table new_pgtable) ;; mret (-1) else
  let fail mem_end :=
    free_user_memory new_pgtable mem_end ;; kmdo (free_page_table new_pgtable) ;; mret (-1) in
  p ← read_proc proc;
  e1 ← kmdo (map_page new_pgtable TRAMPOLINE_BASE (ROUND_DOWN_PGSIZE user_trap_entry) (Z.lor PTE_R PTE_X));
  e2 ← kmdo (map_page new_pgtable TRAPFRAME_BASE (p_trap_frame p) (Z.lor PTE_R PTE_W));
  e3 ← kmdo (map_page new_pgtable USTACK_BASE (p_ustack p) (Z.lor (Z.lor PTE_R PTE_W) PTE_U));
  if negb (Z.lor (Z.lor e1 e2) e3 =? 0) then fail new_mem_end else
  r ← (if negb (argv_page =? NULL) then
         err ← map_argv_to_page_table new_pgtable new_mem_end argv_page
                 (Z.lor (Z.lor PTE_R PTE_W) PTE_U);
         if negb (err =? 0) then mret None else mret (Some (u64 (new_mem_end + PGSIZE)))
       else mret (Some new_mem_end));
  match r with
  | None => fail new_mem_end
  | Some new_mem_end =>
      p ← read_proc proc;
      let old_pgtable := p_pgtable p in
      free_user_memory old_pgtable (p_mem_end p) ;;
      kmdo (free_page_table old_pgtable) ;;
      upd_proc proc (set_p_pgtable new_pgtable) ;;
      upd_proc proc (set_p_mem_start new_mem_end) ;;
      upd_proc proc (set_p_mem_brk new_mem_end) ;;
      upd_proc proc (set_p_mem_end new_mem_end) ;;
      mret 0
  end.

Definition exec (proc : nat) (file argc argv str_in_argv : Z) : M kst Z :=
  r ← namei file;
  match r with
  | None => mret (u64 (-1))
  | Some elf_inode =>
      argv_page ← (if negb (argc =? 0) then
                     page ← alloc_page_copy_argv argc str_in_argv;
                     if page =? NULL then begin_op ;; iput elf_inode ;; end_op ;; mret None
                     else mret (Some page)
                   else mret (Some NULL));
      match argv_page with
      | None => mret (u64 (-1))
      | Some argv_page =>
          err ← load_new_process_for_exec proc elf_inode argv_page;
          begin_op ;; iput elf_inode ;; end_op ;;
          if negb (err =? 0) then
            (if negb (argv_page =? NULL) then kmdo (kfree argv_page) else mret tt) ;;
            mret (u64 (-1))
          else
          p ← read_proc proc;
          let tf := p_trap_frame p in
          kst64 (tf + TF_a0) argc ;;
          kst64 (tf + TF_a0 + 8) (u64 (p_mem_end p - PGSIZE)) ;;
          kst64 (tf + TF_sp) (USTACK_BASE + PGSIZE) ;;
          kst64 (tf + TF_sepc) PROC_VA_START ;;
          mret 0
      end
  end.

(** ** exit, wait, kill *)

Definition reparent_children (parent : nat) : M kst unit :=
  for_each (Z.to_nat STATIC_PROC_NUM) 0 (fun i =>
    let proc := Z.to_nat i in
    p ← read_proc proc;
    if bool_decide (p_parent p = Some parent) then
      acquire (LkProc proc) ;;
      upd_proc proc (set_p_parent (Some get_init_process)) ;;
      release (LkProc proc)
    else mret tt).

Definition wake_up_parent (parent : nat) : M kst unit :=
  p ← read_proc parent;
  if bool_decide (p_status p = SLEEP) then
    upd_proc parent (set_p_status RUNABLE) ;; upd_proc parent (set_p_chain ChNull)
  else mret tt.

Definition exit_close_files (proc : nat) : M kst unit :=
  for_each (Z.to_nat NOFILE) 0 (fun i =>
    p ← read_proc proc;
    slot ← lift_opt (p_ofile p !! Z.to_nat i);
    match slot with
    | Some f =>
        fileclose f ;;
        upd_proc proc (fun q => set_p_ofile (<[Z.to_nat i := None]> (p_ofile q)) q)
    | None => mret tt
    end).

Definition exit (proc : nat) (xstatus : Z) : M kst unit :=
  me ← cur_proc;
  if negb (bool_decide (proc = me)) then panic "exit: exit on other proc" else
  p ← read_proc proc;
  if p_pid p =? 0 then panic "exit: init proc exit" else
  exit_close_files proc ;;
  p ← read_proc proc;
  cwd ← lift_opt (p_cwd p);
  begin_op ;; iput cwd ;; end_op ;;
  upd_proc proc (set_p_cwd None) ;;
  acquire (LkProc get_init_process) ;;
  acquire (LkProc proc) ;;
  reparent_children proc ;;
  wake_up_parent get_init_process ;;
  p ← read_proc proc;
  parent ← lift_opt (p_parent p);
  release (LkProc get_init_process) ;;
  release (LkProc proc) ;;
  hwdo push_introff ;;
  exit_pgroup ;;
  acquire (LkProc parent) ;;
  acquire (LkProc proc) ;;
  p ← read_proc proc;
  (if bool_decide (p_parent p = Some parent) then
     wake_up_parent parent ;;
     release (LkProc parent)
   else
     if negb (bool_decide (p_parent p = Some get_init_process))
     then panic "exit: reparent proc to other proc(not proc 0)" else
     release (LkProc parent) ;;
     release (LkProc proc) ;;
     acquire (LkProc get_init_process) ;;
     acquire (LkProc proc) ;;
     wake_up_parent get_init_process ;;
     release (LkProc get_init_process)) ;;
  upd_proc proc (set_p_status ZOMBIE) ;;
  upd_proc proc (set_p_xstatus (i32 xstatus)) ;;
  upd_proc proc (set_p_chain ChNull) ;;
  hwdo pop_introff ;;
  switch_to_scheduler ;;
  p ← read_proc proc;
  kprintf (bytes "ZOMBIE proc(pid: %d) returned") [KInt (p_pid p)] ;;
  panic "exit: ZOMBIE proc returned".

(** The answer is the return value with [*pid].  [xstatus] is copied out from the
    slot [local_st]. *)
Definition handle_exit_child (proc : nat) (int_uva : Z) : M kst (Z * Z) :=
  while_loop (S (Z.to_nat STATIC_PROC_NUM)) (0, 1) (fun '(i, no_child_err) =>
    if i >=? STATIC_PROC_NUM then mret (inr (no_child_err, -1)) else
    let other_proc := Z.to_nat i in
    o ← read_proc other_proc;
    if negb (bool_decide (p_parent o = Some proc)) then mret (inl (i + 1, no_child_err)) else
    acquire (LkProc other_proc) ;;
    o ← read_proc other_proc;
    if negb (bool_decide (p_status o = ZOMBIE)) then release (LkProc other_proc) ;; mret (inl (i + 1, 0))
    else
    let pid := p_pid o in
    err ← (if negb (int_uva =? NULL) then
             p ← read_proc proc;
             kst32 local_st (u32 (p_xstatus o)) ;;
             kmdo (copy_out (p_pgtable p) int_uva local_st 4)
           else mret 0);
    if negb (err =? 0) then release (LkProc other_proc) ;; mret (inr (-1, pid)) else
    free_process other_proc ;;
    release (LkProc other_proc) ;;
    mret (inr (0, pid))).

Definition wait (proc : nat) (int_uva : Z) : M kst Z :=
  acquire (LkProc proc) ;;
  r ← handle_exit_child proc int_uva;
  let '(err, pid) := r in
  if negb (err =? 0) then release (LkProc proc) ;; mret (u64 (-1)) else
  if negb (pid =? -1) then release (LkProc proc) ;; mret (u64 pid) else
  while_loop wait_fuel tt (fun _ =>
    sleep (LkProc proc) ChNull ;;
    r ← handle_exit_child proc int_uva;
    let '(err, pid) := r in
    if negb (err =? 0) then panic "wait: wake up parent without any child" else
    if pid =? -1 then mret (inl tt) else
    release (LkProc proc) ;;
    mret (inr (u64 pid))).

Definition kill (pid : Z) : M kst Z :=
  target ← for_loop (Z.to_nat STATIC_PROC_NUM) 0 (fun i =>
    let proc := Z.to_nat i in
    acquire (LkProc proc) ;;
    p ← read_proc proc;
    if bool_decide (p_status p = USED) || negb (p_pid p =? pid)
    then release (LkProc proc) ;; mret None else mret (Some proc));
  match target with
  | None => mret (u64 (-1))
  | Some target =>
      upd_proc target (set_p_killed 1) ;;
      release (LkProc target) ;;
      mret 0
  end.

(** [sleep_ticks] is compared as an unsigned number. *)
Definition proc_sys_sleep (sleep_ticks : Z) : M kst Z :=
  acquire LkTick ;;
  t ← gets k_ticks;
  let start_ticks := u32 t in
  while_loop wait_fuel tt (fun _ =>
    t ← gets k_ticks;
    if negb (u64 (t - start_ticks) <? u64 sleep_ticks) then release LkTick ;; mret (inr 0) else
    me ← cur_proc;
    p ← read_proc me;
    if negb (p_killed p =? 0) then release LkTick ;; mret (inr (u64 (-1))) else
    sleep LkTick ChTick ;;
    mret (inl tt)).

(** ** Counting processes under all the locks *)

Definition lock_rest_process (locked : list Z) : M kst unit :=
  for_each (Z.to_nat STATIC_PROC_NUM) 0 (fun i =>
    x ← lift_opt (locked !! Z.to_nat i);
    if x =? 0 then acquire (LkProc (Z.to_nat i)) else mret tt).

(** The array [locked] is passed along; the recursion follows the tree of children,
    at most [STATIC_PROC_NUM] deep. *)
Fixpoint lock_all_process_aux (fuel : nat) (proc : nat) (locked : list Z) : M kst (list Z) :=
  match fuel with
  | O => no_fuel
  | S fuel' =>
      acquire (LkProc proc) ;;
      while_loop (S (Z.to_nat STATIC_PROC_NUM)) (0, <[proc := 1]> locked) (fun '(i, locked) =>
        if i >=? STATIC_PROC_NUM then mret (inr locked) else
        let child := Z.to_nat i in
        c ← read_proc child;
        if bool_decide (p_parent c = Some proc) then
          locked ← lock_all_process_aux fuel' child locked;
          mret (inl (i + 1, locked))
        else mret (inl (i + 1, locked)))
  end.

Definition lock_all_process : M kst unit :=
  locked ← lock_all_process_aux (S (Z.to_nat STATIC_PROC_NUM)) get_init_process
             (replicate (Z.to_nat STATIC_PROC_NUM) 0);
  lock_rest_process locked.

Definition release_all_process : M kst unit :=
  for_each (Z.to_nat STATIC_PROC_NUM) 0 (fun i => release (LkProc (Z.to_nat i))).

Definition count_proc_num : M kst Z :=
  lock_all_process ;;
  ps ← gets k_procs;
  release_all_process ;;
  mret (Z.of_nat (length (filter (fun p => p_status p <> UNUSED) ps))).

End Process.
