(* ===== verification/ProcessSpec.v ===== *)
(** * What process identifiers and process slots promise: Process.v *)

From S2P Require Import Prelude Hart VmSystem Mem Kalloc State Critical Sleep SleepSpec Process.

(** ** Pids

    The set of pids in use. *)

Definition pid_used (s : kst) (pid : Z) : Prop :=
  0 <= pid /\ exists v, k_pids s !! Z.to_nat pid = Some v /\ v <> 0.

Definition pid_free (v : Z) : bool := v =? 0.

Section Pids.
Variables (h : hw) (k : nat) (L : list lock_id) (s : kst).
Hypothesis Hwf : hw_wf h.
Hypothesis Hs : at_lvl h k L (k_hw s).
Hypothesis HND : NoDup L.
Hypothesis Hl : hw_locks h !! LkPid = Some free_lock.
Hypothesis Hn : LkPid ∉ L.
Hypothesis Hlen : length (k_pids s) = nprocs.

Definition with_pids (l : list Z) : kst := set_k_hw (held_hw k L h) (set_k_pids l s).

Lemma read_pid_Ret i v x : k_pids x !! Z.to_nat i = Some v -> read_pid i x = Ret v x.
Proof. intros H. unfold read_pid, gets, lift_opt, mbind, M_bind. cbn [obind]. by rewrite H. Qed.

Lemma set_pid_Ret i v w x :
  k_pids x !! Z.to_nat i = Some v ->
  set_pid i w x = Ret tt (set_k_pids (<[Z.to_nat i := w]> (k_pids x)) x).
Proof. intros H. unfold set_pid. by rewrite (bind_Ret _ _ _ _ _ (read_pid_Ret i v x H)). Qed.

Lemma alloc_pid_eq :
  alloc_pid s =
  match first_index pid_free (k_pids s) with
  | Some i => Ret (Z.of_nat i) (with_pids (<[i := 1]> (k_pids s)))
  | None => Ret (-1) (with_pids (k_pids s))
  end.
Proof.
  unfold alloc_pid. rret (acquire_lvl h Hwf k L LkPid s Hs Hl Hn).
  set (s1 := set_k_hw _ s).
  assert (for_loop (Z.to_nat STATIC_PROC_NUM) 0 (fun i =>
            x ← read_pid i; if x =? 0 then set_pid i 1 ;; mret (Some i) else mret None) s1 =
          match first_index pid_free (k_pids s1) with
          | Some i => Ret (Some (Z.of_nat i)) (set_k_pids (<[i := 1]> (k_pids s1)) s1)
          | None => Ret None s1
          end) as E.
  { change (Z.to_nat STATIC_PROC_NUM) with nprocs. rewrite <- Hlen.
    apply (for_loop_scan pid_free (k_pids s1)). intros i x Hx.
    assert (k_pids s1 !! Z.to_nat (Z.of_nat i) = Some x) as Hx' by by rewrite Nat2Z.id.
    rret (read_pid_Ret (Z.of_nat i) x s1 Hx'). unfold pid_free.
    destruct (x =? 0); [|done]. rret (set_pid_Ret (Z.of_nat i) x 1 s1 Hx').
    rewrite Nat2Z.id. reflexivity. }
  change (k_pids s1) with (k_pids s) in E. destruct (first_index pid_free (k_pids s)) as [i|].
  - rret E. rret (release_top h Hwf k L LkPid (set_k_pids (<[i := 1]> (k_pids s)) s) Hl Hn HND). done.
  - rret E. rret (release_top h Hwf k L LkPid s Hl Hn HND).
    unfold with_pids. by destruct s as [[] ].
Qed.

Lemma free_pid_eq i v :
  k_pids s !! Z.to_nat i = Some v ->
  free_pid i s = if v =? 0 then Panic "free_pid: try to free unused pid"
                 else Ret tt (with_pids (<[Z.to_nat i := 0]> (k_pids s))).
Proof.
  intros Hv. unfold free_pid. rret (acquire_lvl h Hwf k L LkPid s Hs Hl Hn).
  set (s1 := set_k_hw _ s). assert (k_pids s1 !! Z.to_nat i = Some v) as Hv1 by done.
  rret (read_pid_Ret i v s1 Hv1). destruct (v =? 0); [done|].
  rret (set_pid_Ret i v 0 s1 Hv1).
  apply (release_top h Hwf k L LkPid (set_k_pids (<[Z.to_nat i := 0]> (k_pids s)) s) Hl Hn HND).
Qed.

Lemma pid_used_insert pid v i :
  (i < length (k_pids s))%nat ->
  pid_used (with_pids (<[i := v]> (k_pids s))) pid <->
  if decide (pid = Z.of_nat i) then v <> 0 else pid_used s pid.
Proof.
  intros Hi. unfold pid_used, with_pids. cbn [k_pids set_k_hw set_k_km set_k_pids].
  case_decide as Hd.
  - subst. rewrite Nat2Z.id, list_lookup_insert_eq by done. naive_solver lia.
  - split; intros [H0 H1]; (split; [done|]); revert H1;
      rewrite list_lookup_insert_ne by lia; done.
Qed.
End Pids.

(** C35: the pid allocator works on a set of pids in use: [alloc_pid] answers the
    least pid that is not in use and puts exactly it in the set, or -1, changing
    nothing, when all [STATIC_PROC_NUM] are in use; [free_pid] takes exactly its pid
    out and panics on one that is not in use.  So no two live processes share a
    pid. *)
Theorem pid_allocator h k L s :
  hw_wf h -> at_lvl h k L (k_hw s) -> NoDup L -> hw_locks h !! LkPid = Some free_lock ->
  LkPid ∉ L -> length (k_pids s) = nprocs ->
  (exists pid s', alloc_pid s = Ret pid s' /\ k_hw s' = held_hw k L h /\
     length (k_pids s') = nprocs /\ set_k_hw (k_hw s) (set_k_pids (k_pids s) s') = s /\
     ((0 <= pid < STATIC_PROC_NUM /\ ~ pid_used s pid /\ (forall q, 0 <= q < pid -> pid_used s q) /\
       forall q, pid_used s' q <-> q = pid \/ pid_used s q) \/
      (pid = -1 /\ k_pids s' = k_pids s /\ forall q, 0 <= q < STATIC_PROC_NUM -> pid_used s q))) /\
  (forall pid, 0 <= pid < STATIC_PROC_NUM ->
     (pid_used s pid -> exists s', free_pid pid s = Ret tt s' /\ k_hw s' = held_hw k L h /\
        forall q, pid_used s' q <-> q <> pid /\ pid_used s q) /\
     (~ pid_used s pid -> free_pid pid s = Panic "free_pid: try to free unused pid")).
Proof.
  intros Hwf Hs HND Hl Hn Hlen. unfold STATIC_PROC_NUM.
  assert (nprocs = 64%nat) as Hnp by reflexivity. split.
  - pose proof (alloc_pid_eq h k L s Hwf Hs HND Hl Hn Hlen) as E.
    destruct (first_index pid_free (k_pids s)) as [i|] eqn:Ei; eexists _, _.
    + pose proof (first_index_lt _ _ _ Ei) as Hlt.
      apply first_index_Some in Ei as [(v & Hv & Hf) Hbefore].
      split; [exact E|]. split; [done|]. split; [by cbn; rewrite length_insert|].
      split; [by destruct s as [[] ]|]. left. split; [lia|]. split; [|split].
      * intros (_ & v' & Hv' & Hne). rewrite Nat2Z.id, Hv in Hv'. injection Hv' as <-.
        unfold pid_free in Hf. lia.
      * intros q Hq. split; [lia|].
        destruct (lookup_lt_is_Some_2 (k_pids s) (Z.to_nat q)) as [y Hy]; [lia|].
        exists y. split; [done|]. specialize (Hbefore (Z.to_nat q) y ltac:(lia) Hy).
        unfold pid_free in Hbefore. lia.
      * intros q. rewrite pid_used_insert by done. case_decide; naive_solver lia.
    + split; [exact E|]. split; [done|]. split; [done|]. split; [by destruct s as [[] ]|].
      right. split; [done|]. split; [done|]. intros q Hq. split; [lia|].
      destruct (lookup_lt_is_Some_2 (k_pids s) (Z.to_nat q)) as [y Hy]; [lia|].
      exists y. split; [done|]. pose proof (first_index_None _ _ Ei _ _ Hy) as Hf.
      unfold pid_free in Hf. lia.
  - intros pid Hp. destruct (lookup_lt_is_Some_2 (k_pids s) (Z.to_nat pid)) as [v Hv]; [lia|].
    pose proof (free_pid_eq h k L s Hwf Hs HND Hl Hn pid v Hv) as E.
    split.
    + intros (_ & v' & Hv' & Hne). rewrite Hv in Hv'. injection Hv' as <-.
      rewrite (proj2 (Z.eqb_neq _ _) Hne) in E. eexists. split; [exact E|]. split; [done|].
      intros q. rewrite pid_used_insert by (by apply lookup_lt_Some in Hv).
      case_decide; destruct (Z.eq_dec q pid); naive_solver lia.
    + intros Hnu. destruct (Z.eqb_spec v 0) as [->|Hne]; [done|]. destruct Hnu.
      split; [lia|]. by exists v.
Qed.

(** ** kill *)

Definition kill_target (pid : Z) (p : process) : bool :=
  negb (bool_decide (p_status p = USED) || negb (p_pid p =? pid)).

(** [kill] marks exactly the first process with the pid that is not being set
    up, and answers 0; when there is none it changes nothing and answers -1.  All
    process locks are given back. *)
Theorem kill_spec h pid s :
  hw_wf h -> at_lvl h 0 [] (k_hw s) -> procs_free h [] -> length (k_procs s) = nprocs ->
  kill pid s =
  match first_index (kill_target pid) (k_procs s) with
  | Some i => Ret 0 (set_k_hw (settle h) (set_k_procs (alter (set_p_killed 1) i (k_procs s)) s))
  | None => Ret (u64 (-1)) (set_k_hw (settle h) s)
  end.
Proof.
  intros Hwf Hs Hf Hlen. unfold kill.
  set (s1 := set_k_hw (settle h) s).
  assert (for_loop (Z.to_nat STATIC_PROC_NUM) 0 (fun i =>
    let proc := Z.to_nat i in
    acquire (LkProc proc) ;;
    p ← read_proc proc;
    if bool_decide (p_status p = USED) || negb (p_pid p =? pid)
    then release (LkProc proc) ;; mret None else mret (Some proc)) s =
    match first_index (kill_target pid) (k_procs s) with
    | Some i => Ret (Some i) (set_k_hw (held_hw 0 [LkProc i] h) s)
    | None => Ret None s1
    end) as E.
  { change (Z.to_nat STATIC_PROC_NUM) with nprocs. rewrite <- Hlen.
    apply for_loop_scan_locked; [by destruct (k_procs s)|].
    intros i p st Hp Hst. cbn zeta. rewrite Nat2Z.id.
    destruct (Hf i) as [Hl Hn]; [rewrite <- Hlen; by eapply lookup_lt_Some|].
    assert (acquire (LkProc i) st = Ret tt (set_k_hw (held_hw 0 [LkProc i] h) s)) as Ea.
    { destruct Hst as [-> | ->]; [by apply acquire_lvl|].
      unfold s1. by apply (acquire_at h Hwf 0 []). }
    rret Ea. rewrite (bind_Ret _ _ _ _ _ (read_proc_Ret i p (set_k_hw (held_hw 0 [LkProc i] h) s) Hp)).
    unfold kill_target.
    destruct (bool_decide (p_status p = USED) || negb (p_pid p =? pid)); cbn [negb]; [|done].
    rret (release_top h Hwf 0 [] (LkProc i) s Hl Hn ltac:(constructor)). done. }
  destruct (first_index (kill_target pid) (k_procs s)) as [i|] eqn:Ei; rret E; [|done].
  pose proof (first_index_lt _ _ _ Ei) as Hlt.
  destruct (lookup_lt_is_Some_2 _ _ Hlt) as [p Hp]. destruct (Hf i) as [Hl Hn]; [lia|].
  rret (upd_proc_Ret i p (set_p_killed 1) (set_k_hw (held_hw 0 [LkProc i] h) s) Hp).
  rret (release_top h Hwf 0 [] (LkProc i) (set_k_procs (<[i := set_p_killed 1 p]> (k_procs s)) s) Hl Hn
          ltac:(constructor)).
  by rewrite (alter_at _ _ _ _ Hp).
Qed.
