(* ===== verification/Sysfile.v ===== *)
(** * File-system system calls: kernel/fs/sysfile.c

    The arguments are in the trap frame of the running process; strings are copied
    to the address-taken locals of the handlers ([local_path], [local_new], ...). *)

From S2P Require Import Prelude Hart VmSystem Mem Str Kalloc PageTable UserCopy State Sleep Uart Bio Log Fs File Loader Process.

Definition O_RDONLY : Z := 0x000.
Definition O_WRONLY : Z := 0x001.
Definition O_RDWR : Z := 0x002.
Definition O_CREATE : Z := 0x200.
Definition O_TRUNC : Z := 0x400.

(** kernel/syscall/syscall.c: [*(&tf->a0 + i)]. *)
Definition get_arg_n (tf i : Z) : M kst Z := kld64 (tf + TF_a0 + 8 * i).

Section Sysfile.
Context `{KernelData} `{WaitFuel}.

(** ** Arguments *)

Definition fetchaddr (addr ip : Z) : M kst Z :=
  me ← cur_proc; p ← read_proc me;
  if (addr >=? p_mem_end p) || (u64 (addr + 8) >? p_mem_end p) then mret (-1) else
  r ← kmdo (copyin (p_pgtable p) ip addr 8);
  mret (if negb (r =? 0) then -1 else 0).

(** The buffers hold at most a page. *)
Definition kstrlen (s : Z) : M kst Z :=
  m ← gets k_mem;
  match strlen (S (Z.to_nat PGSIZE)) m s with Some n => mret n | None => no_fuel end.

Definition fetchstr (addr buf max : Z) : M kst Z :=
  me ← cur_proc; p ← read_proc me;
  err ← kmdo (copyinstr (p_pgtable p) buf addr max);
  if err <? 0 then mret err else kstrlen buf.

Definition argraw (n : Z) : M kst Z :=
  me ← cur_proc; p ← read_proc me; get_arg_n (p_trap_frame p) n.
Definition argint (n : Z) : M kst Z := v ← argraw n; mret (i32 v).
Definition argaddr (n : Z) : M kst Z := argraw n.
Definition argstr (n buf max : Z) : M kst Z := addr ← argaddr n; fetchstr addr buf max.

(** [None] is -1; otherwise the descriptor and the file. *)
Definition argfd (n : Z) : M kst (option (Z * nat)) :=
  fd ← argint n;
  if (fd <? 0) || (fd >=? NOFILE) then mret None else
  me ← cur_proc; p ← read_proc me;
  slot ← lift_opt (p_ofile p !! Z.to_nat fd);
  mret (match slot with Some f => Some (fd, f) | None => None end).

Definition set_ofile (proc : nat) (fd : Z) (f : option nat) : M kst unit :=
  upd_proc proc (fun p => set_p_ofile (<[Z.to_nat fd := f]> (p_ofile p)) p).

Definition fdalloc (f : nat) : M kst Z :=
  me ← cur_proc;
  r ← for_loop (Z.to_nat NOFILE) 0 (fun fd =>
        p ← read_proc me;
        slot ← lift_opt (p_ofile p !! Z.to_nat fd);
        match slot with
        | None => set_ofile me fd (Some f) ;; mret (Some fd)
        | Some _ => mret None
        end);
  mret (default (-1) r).

(** ** System calls *)

Definition minus1 : Z := u64 (-1).

Definition sys_dup : M kst Z :=
  r ← argfd 0;
  match r with
  | None => mret minus1
  | Some (_, f) =>
      fd ← fdalloc f;
      if fd <? 0 then mret minus1 else
      filedup f ;; mret (u64 fd)
  end.

Definition sys_read : M kst Z :=
  r ← argfd 0;
  match r with
  | None => mret minus1
  | Some (_, f) => n ← argint 2; p ← argaddr 1; v ← fileread f p n; mret (u64 v)
  end.

Definition sys_write : M kst Z :=
  r ← argfd 0;
  match r with
  | None => mret minus1
  | Some (_, f) => n ← argint 2; p ← argaddr 1; v ← filewrite f p n; mret (u64 v)
  end.

Definition sys_close : M kst Z :=
  r ← argfd 0;
  match r with
  | None => mret minus1
  | Some (fd, f) =>
      me ← cur_proc; set_ofile me fd None ;; fileclose f ;; mret 0
  end.

Definition sys_fstat : M kst Z :=
  r ← argfd 0;
  match r with
  | None => mret minus1
  | Some (_, f) => st ← argaddr 1; v ← filestat f st; mret (u64 v)
  end.

Definition upd_nlink (ip : nat) (d : Z) : M kst unit :=
  upd_inode ip (fun x => set_i_nlink (i16 (i_nlink x + d)) x).

Definition sys_link : M kst Z :=
  a ← argstr 0 local_old MAXPATH;
  if a <? 0 then mret minus1 else
  b ← argstr 1 local_new MAXPATH;
  if b <? 0 then mret minus1 else
  begin_op ;;
  r ← namei local_old;
  match r with
  | None => end_op ;; mret minus1
  | Some ip =>
      ilock ip ;;
      x ← read_inode ip;
      if i_type x =? T_DIR then iunlockput ip ;; end_op ;; mret minus1 else
      upd_nlink ip 1 ;;
      iupdate ip ;;
      iunlock ip ;;
      let bad := ilock ip ;; upd_nlink ip (-1) ;; iupdate ip ;; iunlockput ip ;; end_op ;; mret minus1 in
      dp ← nameiparent local_new local_name;
      match dp with
      | None => bad
      | Some dp =>
          ilock dp ;;
          d ← read_inode dp;
          x ← read_inode ip;
          err ← (if negb (i_dev d =? i_dev x) then mret true
                 else r ← dirlink dp local_name (i_inum x); mret (r <? 0));
          if (err : bool) then iunlockput dp ;; bad else
          iunlockput dp ;;
          iput ip ;;
          end_op ;;
          mret 0
      end
  end.

Definition isdirempty (dp : nat) : M kst bool :=
  d ← read_inode dp;
  r ← for_loop (Z.to_nat ((i_size d - 2 * DIRENT_SIZE + DIRENT_SIZE - 1) / DIRENT_SIZE)) 2 (fun k =>
        r ← readi dp KPTR local_de (k * DIRENT_SIZE) DIRENT_SIZE;
        if negb (r =? DIRENT_SIZE) then panic "isdirempty: readi" else
        inum ← kld16 local_de;
        mret (if negb (inum =? 0) then Some false else None));
  mret (default true r).

Definition sys_unlink : M kst Z :=
  a ← argstr 0 local_path MAXPATH;
  if a <? 0 then mret minus1 else
  begin_op ;;
  dp ← nameiparent local_path local_name;
  match dp with
  | None => end_op ;; mret minus1
  | Some dp =>
      ilock dp ;;
      let bad := iunlockput dp ;; end_op ;; mret minus1 in
      c1 ← namecmp local_name lit_dot;
      c2 ← namecmp local_name lit_dotdot;
      if (c1 =? 0) || (c2 =? 0) then bad else
      r ← dirlookup dp local_name;
      match r with
      | None => bad
      | Some (ip, off) =>
          ilock ip ;;
          x ← read_inode ip;
          if i_nlink x <? 1 then panic "unlink: nlink < 1" else
          busy ← (if i_type x =? T_DIR then e ← isdirempty ip; mret (negb e) else mret false);
          if (busy : bool) then iunlockput ip ;; bad else
          kmemset local_de 0 DIRENT_SIZE ;;
          w ← writei dp KPTR local_de off DIRENT_SIZE;
          if negb (w =? DIRENT_SIZE) then panic "unlink: writei" else
          x ← read_inode ip;
          (if i_type x =? T_DIR then upd_nlink dp (-1) ;; iupdate dp else mret tt) ;;
          iunlockput dp ;;
          upd_nlink ip (-1) ;;
          iupdate ip ;;
          iunlockput ip ;;
          end_op ;;
          mret 0
      end
  end.

(** The inode is returned locked. *)
Definition create (path type major minor : Z) : M kst (option nat) :=
  dp ← nameiparent path local_name;
  match dp with
  | None => mret None
  | Some dp =>
      ilock dp ;;
      r ← dirlookup dp local_name;
      match r with
      | Some (ip, _) =>
          iunlockput dp ;;
          ilock ip ;;
          x ← read_inode ip;
          if (type =? T_FILE) && ((i_type x =? T_FILE) || (i_type x =? T_DEVICE)) then mret (Some ip)
          else iunlockput ip ;; mret None
      | None =>
          d ← read_inode dp;
          ip ← ialloc (i_dev d) type;
          ilock ip ;;
          upd_inode ip (set_i_major (i16 major)) ;;
          upd_inode ip (set_i_minor (i16 minor)) ;;
          upd_inode ip (set_i_nlink 1) ;;
          iupdate ip ;;
          (if type =? T_DIR then
             upd_nlink dp 1 ;;
             iupdate dp ;;
             x ← read_inode ip;
             r1 ← dirlink ip lit_dot (i_inum x);
             if r1 <? 0 then panic "create dots" else
             d ← read_inode dp;
             r2 ← dirlink ip lit_dotdot (i_inum d);
             if r2 <? 0 then panic "create dots" else mret tt
           else mret tt) ;;
          x ← read_inode ip;
          r ← dirlink dp local_name (i_inum x);
          if r <? 0 then panic "create: dirlink" else
          iunlockput dp ;;
          mret (Some ip)
      end
  end.

(** The rest of [sys_open], with [ip] locked. *)
Definition open_inode (ip : nat) (omode : Z) : M kst Z :=
  x ← read_inode ip;
  if (i_type x =? T_DEVICE) && ((i_major x <? 0) || (i_major x >=? NDEV))
  then iunlockput ip ;; end_op ;; mret minus1 else
  f ← filealloc;
  match f with
  | None => iunlockput ip ;; end_op ;; mret minus1
  | Some f =>
      fd ← fdalloc f;
      if fd <? 0 then fileclose f ;; iunlockput ip ;; end_op ;; mret minus1 else
      x ← read_inode ip;
      (if i_type x =? T_DEVICE then
         upd_file f (set_f_type FD_DEVICE) ;; upd_file f (set_f_major (i_major x))
       else
         upd_file f (set_f_type FD_INODE) ;; upd_file f (set_f_off 0)) ;;
      upd_file f (set_f_ip (Some ip)) ;;
      upd_file f (set_f_readable (if Z.land omode O_WRONLY =? 0 then 1 else 0)) ;;
      upd_file f (set_f_writable
        (if negb (Z.land omode O_WRONLY =? 0) || negb (Z.land omode O_RDWR =? 0) then 1 else 0)) ;;
      (if negb (Z.land omode O_TRUNC =? 0) && (i_type x =? T_FILE) then itrunc ip else mret tt) ;;
      iunlock ip ;;
      end_op ;;
      mret (u64 fd)
  end.

Definition sys_open : M kst Z :=
  n ← argstr 0 local_path MAXPATH;
  if n <? 0 then mret minus1 else
  omode ← argint 1;
  begin_op ;;
  if negb (Z.land omode O_CREATE =? 0) then
    r ← create local_path T_FILE 0 0;
    match r with
    | None => end_op ;; mret minus1
    | Some ip => open_inode ip omode
    end
  else
    r ← namei local_path;
    match r with
    | None => end_op ;; mret minus1
    | Some ip =>
        ilock ip ;;
        x ← read_inode ip;
        if (i_type x =? T_DIR) && negb (omode =? O_RDONLY)
        then iunlockput ip ;; end_op ;; mret minus1
        else open_inode ip omode
    end.

Definition sys_mkdir : M kst Z :=
  begin_op ;;
  n ← argstr 0 local_path MAXPATH;
  if n <? 0 then end_op ;; mret minus1 else
  r ← create local_path T_DIR 0 0;
  match r with
  | None => end_op ;; mret minus1
  | Some ip => iunlockput ip ;; end_op ;; mret 0
  end.

Definition sys_mknod : M kst Z :=
  begin_op ;;
  n ← argstr 0 local_path MAXPATH;
  if n <? 0 then end_op ;; mret minus1 else
  major ← argint 1;
  minor ← argint 2;
  r ← create local_path T_DEVICE (i16 major) (i16 minor);
  match r with
  | None => end_op ;; mret minus1
  | Some ip => iunlockput ip ;; end_op ;; mret 0
  end.

Definition sys_chdir : M kst Z :=
  me ← cur_proc;
  begin_op ;;
  n ← argstr 0 local_path MAXPATH;
  if n <? 0 then end_op ;; mret minus1 else
  r ← namei local_path;
  match r with
  | None => end_op ;; mret minus1
  | Some ip =>
      ilock ip ;;
      x ← read_inode ip;
      if negb (i_type x =? T_DIR) then iunlockput ip ;; end_op ;; mret minus1 else
      iunlock ip ;;
      p ← read_proc me;
      cwd ← lift_opt (p_cwd p);
      iput cwd ;;
      end_op ;;
      upd_proc me (set_p_cwd (Some ip)) ;;
      mret 0
  end.

(** [fd0] and [fd1] are copied out from the slot [local_st]. *)
Definition sys_pipe : M kst Z :=
  me ← cur_proc;
  fdarray ← argaddr 0;
  r ← pipealloc;
  match r with
  | None => mret minus1
  | Some (rf, wf) =>
      fd0 ← fdalloc rf;
      fd1 ← (if fd0 <? 0 then mret (-1) else fdalloc wf);
      if (fd0 <? 0) || (fd1 <? 0) then
        (if fd0 >=? 0 then set_ofile me fd0 None else mret tt) ;;
        fileclose rf ;; fileclose wf ;; mret minus1
      else
      p ← read_proc me;
      kst32 local_st (u32 fd0) ;;
      c0 ← kmdo (copyout (p_pgtable p) fdarray local_st 4);
      c1 ← (if c0 <? 0 then mret (-1) else
            kst32 (local_st + 4) (u32 fd1) ;;
            kmdo (copyout (p_pgtable p) (u64 (fdarray + 4)) (local_st + 4) 4));
      if (c0 <? 0) || (c1 <? 0) then
        set_ofile me fd0 None ;;
        set_ofile me fd1 None ;;
        fileclose rf ;; fileclose wf ;; mret minus1
      else mret 0
  end.

End Sysfile.
