(* ===== verification/FileSpec.v ===== *)
(** * What the open-file table and the descriptor tables promise: File.v, Sysfile.v *)

From S2P Require Import Prelude Hart VmSystem Mem Kalloc State Critical Sleep Bio Log Fs File Loader Process Sysfile.

(** ** Reference counts of open files *)

Definition file_free (x : file) : bool := f_ref x =? 0.

Section Files.
Context `{KernelData} `{WaitFuel}.
Variables (h : hw) (k : nat) (L : list lock_id) (s : kst).
Hypothesis Hwf : hw_wf h.
Hypothesis Hs : at_lvl h k L (k_hw s).
Hypothesis HND : NoDup L.
Hypothesis Hl : hw_locks h !! LkFtable = Some free_lock.
Hypothesis Hn : LkFtable ∉ L.

Definition with_files (l : list file) : kst := set_k_hw (held_hw k L h) (set_k_files l s).

Lemma filealloc_eq :
  length (k_files s) = Z.to_nat NFILE ->
  filealloc s =
  match first_index file_free (k_files s) with
  | Some i => Ret (Some i) (with_files (alter (set_f_ref 1) i (k_files s)))
  | None => Ret None (with_files (k_files s))
  end.
Proof.
  intros Hlen. unfold filealloc. rret (acquire_lvl h Hwf k L LkFtable s Hs Hl Hn).
  set (s1 := set_k_hw _ s).
  assert (for_loop (Z.to_nat NFILE) 0 (fun i =>
    f ← read_file (Z.to_nat i);
    if f_ref f =? 0 then
      upd_file (Z.to_nat i) (set_f_ref 1) ;; mret (Some (Z.to_nat i))
    else mret None) s1 =
    match first_index file_free (k_files s1) with
    | Some i => Ret (Some i) (set_k_files (alter (set_f_ref 1) i (k_files s1)) s1)
    | None => Ret None s1
    end) as E.
  { rewrite <- Hlen. apply (for_loop_scan file_free (k_files s1)). intros i x Hx. rewrite Nat2Z.id.
    rret (read_file_Ret i x s1 Hx). unfold file_free. destruct (f_ref x =? 0); [|done].
    rret (upd_file_Ret i x (set_f_ref 1) s1 Hx). by rewrite (alter_at _ _ _ _ Hx). }
  change (k_files s1) with (k_files s) in E. destruct (first_index file_free (k_files s)) as [i|]; rret E.
  - rret (release_top h Hwf k L LkFtable (set_k_files (alter (set_f_ref 1) i (k_files s)) s) Hl Hn HND). done.
  - rret (release_top h Hwf k L LkFtable s Hl Hn HND). unfold with_files. by destruct s as [[] ].
Qed.

Lemma filedup_eq f x :
  k_files s !! f = Some x ->
  filedup f s = if f_ref x <? 1 then Panic "filedup"
                else Ret f (with_files (<[f := set_f_ref (f_ref x + 1) x]> (k_files s))).
Proof.
  intros Hx. unfold filedup. rret (acquire_lvl h Hwf k L LkFtable s Hs Hl Hn).
  set (s1 := set_k_hw _ s). assert (k_files s1 !! f = Some x) as Hx1 by done.
  rret (read_file_Ret f x s1 Hx1). destruct (f_ref x <? 1); [done|].
  rret (upd_file_Ret f x (fun x => set_f_ref (f_ref x + 1) x) s1 Hx1).
  rret (release_top h Hwf k L LkFtable
          (set_k_files (<[f := set_f_ref (f_ref x + 1) x]> (k_files s)) s) Hl Hn HND). done.
Qed.

(** Up to the last reference. *)
Lemma fileclose_eq f x :
  k_files s !! f = Some x -> f_ref x <> 1 ->
  fileclose f s = if f_ref x <? 1 then Panic "fileclose"
                  else Ret tt (with_files (<[f := set_f_ref (f_ref x - 1) x]> (k_files s))).
Proof.
  intros Hx Hr. unfold fileclose. rret (acquire_lvl h Hwf k L LkFtable s Hs Hl Hn).
  set (s1 := set_k_hw _ s). assert (k_files s1 !! f = Some x) as Hx1 by done.
  rret (read_file_Ret f x s1 Hx1). destruct (Z.ltb_spec (f_ref x) 1) as [|Hge]; [done|].
  rret (upd_file_Ret f x (fun x => set_f_ref (f_ref x - 1) x) s1 Hx1).
  set (y := set_f_ref (f_ref x - 1) x).
  set (s2 := set_k_files (<[f := y]> (k_files s1)) s1).
  assert (k_files s2 !! f = Some y) as Hy.
  { unfold s2; cbn. apply list_lookup_insert_eq. by eapply lookup_lt_Some. }
  rret (read_file_Ret f y s2 Hy). unfold y at 1; cbn [f_ref set_f_ref].
  destruct (Z.gtb_spec (f_ref x - 1) 0); [|lia].
  apply (release_top h Hwf k L LkFtable (set_k_files (<[f := y]> (k_files s)) s) Hl Hn HND).
Qed.

(** The last reference to a file that is nothing yet only clears the slot. *)
Lemma fileclose_last_none f x :
  k_files s !! f = Some x -> f_ref x = 1 -> f_type x = FD_NONE ->
  fileclose f s = Ret tt (with_files (<[f := set_f_type FD_NONE (set_f_ref 0 x)]> (k_files s))).
Proof.
  intros Hx Hr Ht. unfold fileclose. rret (acquire_lvl h Hwf k L LkFtable s Hs Hl Hn).
  set (s1 := set_k_hw _ s). assert (k_files s1 !! f = Some x) as Hx1 by done.
  rret (read_file_Ret f x s1 Hx1). rewrite Hr. cbn [Z.ltb Z.compare Pos.compare Pos.compare_cont].
  rret (upd_file_Ret f x (fun x => set_f_ref (f_ref x - 1) x) s1 Hx1). rewrite Hr.
  set (y := set_f_ref (1 - 1) x). set (s2 := set_k_files (<[f := y]> (k_files s1)) s1).
  assert (k_files s2 !! f = Some y) as Hy.
  { unfold s2; cbn. apply list_lookup_insert_eq. by eapply lookup_lt_Some. }
  rret (read_file_Ret f y s2 Hy). change (f_ref y >? 0) with false. cbv iota.
  rret (upd_file_Ret f y (set_f_ref 0) s2 Hy). unfold s2; cbn [k_files set_k_files].
  rewrite list_insert_insert_eq.
  erewrite bind_Ret.
  2:{ apply upd_file_Ret. cbn [k_files set_k_files]. apply list_lookup_insert_eq. by eapply lookup_lt_Some. }
  cbn [k_files set_k_files]. rewrite list_insert_insert_eq.
  rret (release_top h Hwf k L LkFtable
    (set_k_files (<[f := set_f_type FD_NONE (set_f_ref 0 y)]> (k_files s)) s) Hl Hn HND).
  unfold y at 1. cbn [f_type set_f_ref]. rewrite Ht. done.
Qed.
End Files.

(** the open-file table counts references: [filealloc] hands out the first file
    without references, with one, or answers that there is none; [filedup] adds one
    and panics on a file nobody references; [fileclose] takes one away, keeping the
    file, as long as it is not the last, panics on a file nobody references, and
    frees the slot with the last one; so closing undoes duplicating.  Every other
    file is untouched and the table's lock is given back. *)
Theorem file_refcounts `{KernelData} `{WaitFuel} h k L s :
  hw_wf h -> at_lvl h k L (k_hw s) -> NoDup L -> hw_locks h !! LkFtable = Some free_lock ->
  LkFtable ∉ L -> length (k_files s) = Z.to_nat NFILE ->
  (filealloc s =
     match first_index file_free (k_files s) with
     | Some i => Ret (Some i) (with_files h k L s (alter (set_f_ref 1) i (k_files s)))
     | None => Ret None (with_files h k L s (k_files s))
     end) /\
  forall f x, k_files s !! f = Some x ->
    (f_ref x < 1 -> filedup f s = Panic "filedup" /\ fileclose f s = Panic "fileclose") /\
    (1 <= f_ref x -> exists s1, filedup f s = Ret f s1 /\
       k_files s1 = <[f := set_f_ref (f_ref x + 1) x]> (k_files s) /\
       fileclose f s1 = Ret tt (with_files h k L s (k_files s))) /\
    (1 < f_ref x -> fileclose f s =
       Ret tt (with_files h k L s (<[f := set_f_ref (f_ref x - 1) x]> (k_files s)))) /\
    (f_ref x = 1 -> f_type x = FD_NONE -> fileclose f s =
       Ret tt (with_files h k L s (<[f := set_f_type FD_NONE (set_f_ref 0 x)]> (k_files s)))).
Proof.
  intros Hwf Hs HND Hl Hn Hlen. split; [by apply filealloc_eq|]. intros f x Hx.
  pose proof (filedup_eq h k L s Hwf Hs HND Hl Hn f x Hx) as Ed.
  pose proof (fileclose_eq h k L s Hwf Hs HND Hl Hn f x Hx) as Ec. split_and!.
  - intros Hr. rewrite (proj2 (Z.ltb_lt _ _) Hr) in Ed, Ec. split; [done|]. apply Ec. lia.
  - intros Hr. destruct (Z.ltb_spec (f_ref x) 1) as [|_]; [lia|]. eexists. split; [exact Ed|].
    split; [done|].
    erewrite (fileclose_eq h k L _ Hwf); [|by left|done|done|done| |].
    2:{ cbn. apply list_lookup_insert_eq. by eapply lookup_lt_Some. }
    2:{ cbn. lia. }
    cbn [f_ref set_f_ref]. destruct (Z.ltb_spec (f_ref x + 1) 1) as [|_]; [lia|].
    unfold with_files. f_equal. cbn [k_files set_k_files set_k_hw set_k_km]. rewrite list_insert_insert_eq.
    replace (f_ref x + 1 - 1) with (f_ref x) by lia.
    rewrite list_insert_id by (rewrite Hx; by destruct x). by destruct s as [[] ].
  - intros Hr. destruct (Z.ltb_spec (f_ref x) 1) as [|_]; [lia|]. apply Ec. lia.
  - intros Hr Ht. by apply fileclose_last_none.
Qed.

(** ** Descriptors *)

Definition fd_free (slot : option nat) : bool := match slot with None => true | Some _ => false end.
Definition with_fd (fd : nat) (f : nat) (p : process) : process :=
  set_p_ofile (<[fd := Some f]> (p_ofile p)) p.

(** The argument register [n] of the running system call. *)
Definition arg_reg (s : kst) (p : process) (n : Z) : Z := ld64 (k_mem s) (p_trap_frame p + TF_a0 + 8 * n).

Section Fds.
Variables (h : hw) (me : nat) (p : process) (k : nat) (L : list lock_id) (s : kst).
Hypothesis Hwf : hw_wf h.
Hypothesis Hrun : running h me.
Hypothesis Hs : at_lvl h k L (k_hw s).
Hypothesis Hp : k_procs s !! me = Some p.
Hypothesis Hlen : length (p_ofile p) = Z.to_nat NOFILE.

Lemma fdalloc_eq f :
  fdalloc f s =
  match first_index fd_free (p_ofile p) with
  | Some fd => Ret (Z.of_nat fd)
                 (set_k_hw (held_hw k L h) (set_k_procs (<[me := with_fd fd f p]> (k_procs s)) s))
  | None => Ret (-1) (set_k_hw (held_hw k L h) s)
  end.
Proof.
  unfold fdalloc. rret (cur_proc_lvl h Hwf k L me s Hs Hrun).
  set (s1 := set_k_hw _ s). assert (k_procs s1 !! me = Some p) as Hp1 by done.
  assert (for_loop (Z.to_nat NOFILE) 0 (fun fd =>
    p ← read_proc me;
    slot ← lift_opt (p_ofile p !! Z.to_nat fd);
    match slot with
    | None => set_ofile me fd (Some f) ;; mret (Some fd)
    | Some _ => mret None
    end) s1 = match first_index fd_free (p_ofile p) with
    | Some i => Ret (Some (Z.of_nat i)) (set_k_procs (<[me := with_fd i f p]> (k_procs s1)) s1)
    | None => Ret None s1
    end) as E.
  { rewrite <- Hlen. apply (for_loop_scan fd_free). intros i slot Hi.
    rret (read_proc_Ret me p s1 Hp1). rewrite Nat2Z.id, Hi. cbn [lift_opt]. rewrite bind_mret.
    destruct slot; [done|]. cbn [fd_free]. unfold set_ofile.
    rret (upd_proc_Ret me p (fun p => set_p_ofile (<[Z.to_nat (Z.of_nat i) := Some f]> (p_ofile p)) p) s1 Hp1).
    by rewrite Nat2Z.id. }
  destruct (first_index fd_free (p_ofile p)) as [i|]; rret E; done.
Qed.

Lemma argint_eq n :
  argint n s = Ret (i32 (arg_reg s p n)) (set_k_hw (held_hw k L h) s).
Proof.
  unfold argint, argraw. rewrite bind_eq.
  rewrite (bind_Ret _ _ _ _ _ (cur_proc_lvl h Hwf k L me s Hs Hrun)).
  set (s1 := set_k_hw _ s). assert (k_procs s1 !! me = Some p) as Hp1 by done.
  rewrite (bind_Ret _ _ _ _ _ (read_proc_Ret me p s1 Hp1)). done.
Qed.

Lemma argfd_eq n :
  let fd := i32 (arg_reg s p n) in
  argfd n s = Ret (if (fd <? 0) || (fd >=? NOFILE) then None else
                   match p_ofile p !! Z.to_nat fd with Some (Some f) => Some (fd, f) | _ => None end)
                  (set_k_hw (held_hw k L h) s).
Proof.
  cbv zeta. unfold argfd. rret (argint_eq n). set (fd := i32 _).
  destruct (Z.ltb_spec fd 0) as [|H0]; cbn [orb]; [done|].
  destruct (Z.geb_spec fd NOFILE) as [|H1]; [done|].
  set (s1 := set_k_hw _ s). assert (k_procs s1 !! me = Some p) as Hp1 by done.
  rret (cur_proc_at h Hwf k L me s Hrun). rret (read_proc_Ret me p s1 Hp1).
  destruct (lookup_lt_is_Some_2 (p_ofile p) (Z.to_nat fd)) as [slot Hslot]; [unfold NOFILE in *; lia|].
  rewrite Hslot. cbn [lift_opt]. rewrite bind_mret. by destruct slot.
Qed.
End Fds.

(** descriptors: [fdalloc] takes the least free slot of the running process's
    table for the file, or answers -1, changing nothing, when all [NOFILE] are
    taken; [argfd], whatever number user code passes, answers either -1 or a
    descriptor inside the table whose slot is open, with its file, and changes
    nothing. *)
Theorem fd_table h me p k L s f n :
  hw_wf h -> running h me -> at_lvl h k L (k_hw s) -> k_procs s !! me = Some p ->
  length (p_ofile p) = Z.to_nat NOFILE ->
  (exists fd s', fdalloc f s = Ret fd s' /\ k_hw s' = held_hw k L h /\
     ((0 <= fd < NOFILE /\ p_ofile p !! Z.to_nat fd = Some None /\
       (forall j, 0 <= j < fd -> p_ofile p !! Z.to_nat j <> Some None) /\
       k_procs s' = <[me := with_fd (Z.to_nat fd) f p]> (k_procs s)) \/
      (fd = -1 /\ k_procs s' = k_procs s /\ forall j, p_ofile p !! j <> Some None))) /\
  (exists r, argfd n s = Ret r (set_k_hw (held_hw k L h) s) /\
     match r with
     | Some (fd, f') => fd = i32 (arg_reg s p n) /\ 0 <= fd < NOFILE /\ p_ofile p !! Z.to_nat fd = Some (Some f')
     | None => forall f', ~ (0 <= i32 (arg_reg s p n) < NOFILE /\
                 p_ofile p !! Z.to_nat (i32 (arg_reg s p n)) = Some (Some f'))
     end).
Proof.
  intros Hwf Hrun Hs Hp Hlen. split.
  - pose proof (fdalloc_eq h me p k L s Hwf Hrun Hs Hp Hlen f) as E.
    destruct (first_index fd_free (p_ofile p)) as [i|] eqn:Ei; eexists _, _; (split; [exact E|]); (split; [done|]).
    + pose proof (first_index_lt _ _ _ Ei) as Hlt. apply first_index_Some in Ei as [(x & Hx & Hf) Hb].
      left. rewrite Nat2Z.id. unfold NOFILE in *. split_and!; [lia|lia|by destruct x| |done].
      intros j Hj Hnone. specialize (Hb (Z.to_nat j) None ltac:(lia) Hnone). done.
    + right. split; [done|]. split; [done|]. intros j Hj. by apply (first_index_None _ _ Ei) in Hj.
  - eexists. split; [by apply (argfd_eq h me p k L s Hwf Hrun Hs Hp Hlen n)|]. set (fd := i32 _).
    destruct (Z.ltb_spec fd 0) as [|H0]; cbn [orb]; [naive_solver lia|].
    destruct (Z.geb_spec fd NOFILE) as [|H1]; [naive_solver lia|].
    destruct (p_ofile p !! Z.to_nat fd) as [[f'|]|] eqn:Ef; [done|..]; intros f' [_ Hf]; done.
Qed.

(** ** The calls on a descriptor *)

(** The file that descriptor [fd] stands for. *)
Definition open_file (p : process) (fd : Z) : option nat :=
  if (fd <? 0) || (fd >=? NOFILE) then None
  else match p_ofile p !! Z.to_nat fd with Some (Some f) => Some f | _ => None end.

Lemma argfd_open h me p k L s n :
  hw_wf h -> running h me -> at_lvl h k L (k_hw s) -> k_procs s !! me = Some p -> length (p_ofile p) = Z.to_nat NOFILE ->
  let fd := i32 (arg_reg s p n) in
  argfd n s = Ret (match open_file p fd with Some f => Some (fd, f) | None => None end) (set_k_hw (held_hw k L h) s).
Proof.
  intros Hwf Hrun Hs Hp Hlen fd. rewrite (argfd_eq h me p k L s Hwf Hrun Hs Hp Hlen n). fold fd. unfold open_file.
  destruct ((fd <? 0) || (fd >=? NOFILE)); [done|]. by destruct (p_ofile p !! Z.to_nat fd) as [ [f|]|].
Qed.

(** C20: the calls on a descriptor refuse what they must.  Whatever number user code
    passes, read, write, close, fstat and dup answer -1 when no file is open under it,
    and nothing changes; on an open file, read answers -1 when the file is not readable,
    write when it is not writable, fstat when it is not an inode or a device, and dup
    when the table of the process is full, again without any effect: no file gets
    another reference and no slot is taken. *)
Theorem fd_errors `{KernelImage} `{KernelData} `{WaitFuel} h me p k L s :
  hw_wf h -> running h me -> at_lvl h k L (k_hw s) -> k_procs s !! me = Some p -> length (p_ofile p) = Z.to_nat NOFILE ->
  let s1 := set_k_hw (held_hw k L h) s in
  match open_file p (i32 (arg_reg s p 0)) with
  | None => sys_read s = Ret minus1 s1 /\ sys_write s = Ret minus1 s1 /\ sys_close s = Ret minus1 s1 /\
      sys_fstat s = Ret minus1 s1 /\ sys_dup s = Ret minus1 s1
  | Some f => forall x, k_files s !! f = Some x ->
      (f_readable x = 0 -> sys_read s = Ret minus1 s1) /\
      (f_writable x = 0 -> sys_write s = Ret minus1 s1) /\
      (f_type x <> FD_INODE -> f_type x <> FD_DEVICE -> sys_fstat s = Ret minus1 s1) /\
      ((forall j, p_ofile p !! j <> Some None) -> sys_dup s = Ret minus1 s1)
  end.
Proof.
  intros Hwf Hrun Hs Hp Hlen s1. pose proof (argfd_open h me p k L s 0 Hwf Hrun Hs Hp Hlen) as E. cbv zeta in E. fold s1 in E.
  assert (at_lvl h k L (k_hw s1)) as Hs1 by apply at_lvl_held. assert (k_procs s1 !! me = Some p) as Hp1 by done.
  assert (set_k_hw (held_hw k L h) s1 = s1) as Eid by done.
  assert (forall n, argint n s1 = Ret (i32 (arg_reg s p n)) s1) as Ei by (intros n; rewrite (argint_eq h me p k L s1 Hwf Hrun Hs1 Hp1); by rewrite Eid).
  assert (forall n, exists v, argaddr n s1 = Ret v s1) as Ea.
  { intros n. specialize (Ei n). unfold argint in Ei. apply bind_Ret_inv in Ei as (v & s' & Ev & [= _ ->]). by exists v. }
  destruct (Ea 1) as [a1 Ea1]. destruct (open_file p _) as [f|].
  - intros x Hx. assert (k_files s1 !! f = Some x) as Hx1 by done. split; [|split; [|split] ].
    + intros Hz. unfold sys_read. rret E. rret (Ei 2). rret Ea1. unfold fileread. rewrite bind_eq. rret (read_file_Ret f x s1 Hx1). by rewrite Hz.
    + intros Hz. unfold sys_write. rret E. rret (Ei 2). rret Ea1. unfold filewrite. rewrite bind_eq. rret (read_file_Ret f x s1 Hx1). by rewrite Hz.
    + intros Hn1 Hn2. unfold sys_fstat. rret E. rret Ea1. unfold filestat. rewrite bind_eq. rret (cur_proc_lvl h Hwf k L me s1 Hs1 Hrun). rewrite Eid.
      rret (read_file_Ret f x s1 Hx1). by destruct (f_type x).
    + intros Hfull. unfold sys_dup. rret E. rewrite bind_eq, (fdalloc_eq h me p k L s1 Hwf Hrun Hs1 Hp1 Hlen f).
      destruct (first_index fd_free (p_ofile p)) as [i|] eqn:Ei2; [|cbn; by rewrite Eid].
      apply first_index_Some in Ei2 as [(y & Hy & Hf) _]. exfalso. apply (Hfull i). by destruct y.
  - unfold sys_read, sys_write, sys_close, sys_fstat, sys_dup. by rewrite !(bind_Ret _ _ _ _ _ E).
Qed.
