(* ===== verification/PipeSpec.v ===== *)
(** * What a pipe promises: kernel/fs/pipe.c

    The ring of a pipe holds a queue of at most [PIPESIZE] bytes: [pipewrite] appends
    the bytes of its caller to it and [piperead] takes them from its front, whatever the
    two counters are; a caller that cannot go on sleeps, and its peers are woken. *)

From S2P Require Import Prelude Hart VmSystem Mem Kalloc PageTable PageTableSpec UserCopy UserCopySpec State Critical Sleep SleepSpec LogSpec File.

(** ** The ring *)

Record pipe_rep (m : mem) (pi : Z) (q : list Z) : Prop := {
  pr_len : Z.of_nat (length q) <= PIPESIZE;
  pr_nwrite : ld32 m (pi_nwrite pi) = u32 (ld32 m (pi_nread pi) + Z.of_nat (length q));
  pr_data j c : q !! j = Some c -> ld8 m (pi_data pi ((ld32 m (pi_nread pi) + Z.of_nat j) mod PIPESIZE)) = c }.

(** The data and the counters. *)
Definition in_ring (pi a : Z) : Prop := pi + 16 <= a < pi + 536.

Lemma ld32_range m a : 0 <= ld32 m a < 2 ^ 32.
Proof. apply (load_le_range 4). Qed.

Lemma u32_mod_size x : u32 x mod PIPESIZE = x mod PIPESIZE.
Proof. unfold u32, PIPESIZE. lia. Qed.

Lemma ld32_ext m m' a : (forall x, a <= x < a + 4 -> ld8 m' x = ld8 m x) -> ld32 m' a = ld32 m a.
Proof. intros Hm. apply (load_le_ext 4). intros x Hx. apply Hm. lia. Qed.

Lemma pipe_rep_ext m m' pi q : pipe_rep m pi q -> (forall a, in_ring pi a -> ld8 m' a = ld8 m a) -> pipe_rep m' pi q.
Proof.
  intros [Hl Hw Hd] Hm. assert (ld32 m' (pi_nread pi) = ld32 m (pi_nread pi)) as Er by (apply ld32_ext; intros x Hx; apply Hm; unfold in_ring, pi_nread in *; lia).
  assert (ld32 m' (pi_nwrite pi) = ld32 m (pi_nwrite pi)) as Ew by (apply ld32_ext; intros x Hx; apply Hm; unfold in_ring, pi_nwrite in *; lia).
  split; [done|by rewrite Er, Ew|]. intros j c Hj. rewrite Er, Hm; [by apply Hd|]. unfold in_ring, pi_data, PIPESIZE. lia.
Qed.

(** The counters tell a full ring and an empty one. *)
Lemma pipe_full m pi q : pipe_rep m pi q -> (ld32 m (pi_nwrite pi) =? u32 (ld32 m (pi_nread pi) + PIPESIZE)) = (Z.of_nat (length q) =? PIPESIZE).
Proof.
  intros [Hl Hw _]. rewrite Hw. pose proof (ld32_range m (pi_nread pi)). unfold PIPESIZE, u32 in *. lia.
Qed.
Lemma pipe_empty m pi q : pipe_rep m pi q -> (ld32 m (pi_nread pi) =? ld32 m (pi_nwrite pi)) = (Z.of_nat (length q) =? 0).
Proof.
  intros [Hl Hw _]. rewrite Hw. pose proof (ld32_range m (pi_nread pi)). unfold PIPESIZE, u32 in *. lia.
Qed.

(** One byte in. *)
Definition ring_put (m : mem) (pi c : Z) : mem :=
  let nw := ld32 m (pi_nwrite pi) in st8 (st32 m (pi_nwrite pi) (u32 (nw + 1))) (pi_data pi (nw mod PIPESIZE)) c.

Lemma ring_put_out m pi c a : ~ in_ring pi a -> ld8 (ring_put m pi c) a = ld8 m a.
Proof.
  intros Ha. unfold ring_put. rewrite ld8_st8, decide_False by (unfold in_ring, pi_data, PIPESIZE in *; lia).
  apply ld8_st32_outside. unfold in_ring, pi_nwrite in *. lia.
Qed.

Lemma ring_put_ok m pi q c : pipe_rep m pi q -> Z.of_nat (length q) < PIPESIZE -> 0 <= c < 256 -> pipe_rep (ring_put m pi c) pi (q ++ [c]).
Proof.
  intros [Hl Hw Hd] Hlt Hc. unfold ring_put. set (nw := ld32 m (pi_nwrite pi)) in *. set (nr := ld32 m (pi_nread pi)) in *.
  set (m1 := st8 _ _ c). pose proof (ld32_range m (pi_nread pi)) as Hnr. fold nr in Hnr.
  assert (forall x, pi + 528 <= x -> ld8 m1 x = ld8 (st32 m (pi_nwrite pi) (u32 (nw + 1))) x) as Hup.
  { intros x Hx. unfold m1. rewrite ld8_st8, decide_False; [done|]. unfold pi_data, PIPESIZE. lia. }
  assert (ld32 m1 (pi_nread pi) = nr) as Er.
  { rewrite (ld32_ext _ m1) by (intros x Hx; apply Hup; unfold pi_nread in *; lia). apply ld32_st32_outside. unfold pi_nread, pi_nwrite. lia. }
  assert (ld32 m1 (pi_nwrite pi) = u32 (nw + 1)) as Ew.
  { rewrite (ld32_ext _ m1) by (intros x Hx; apply Hup; unfold pi_nwrite in *; lia). apply ld32_st32. apply u32_range. }
  split.
  - rewrite length_app. cbn [length]. lia.
  - rewrite Er, Ew, Hw, length_app. cbn [length]. unfold u32. rewrite Zplus_mod_idemp_l. f_equal. lia.
  - rewrite Er. intros j x Hj.
    assert (nw mod PIPESIZE = (nr + Z.of_nat (length q)) mod PIPESIZE) as Enw by (rewrite Hw; apply u32_mod_size).
    apply lookup_app_Some in Hj as [Hj|[Hge Hj] ].
    + pose proof (lookup_lt_Some _ _ _ Hj) as Hjl. unfold m1. rewrite ld8_st8, decide_False.
      * rewrite ld8_st32_outside by (unfold pi_data, pi_nwrite, PIPESIZE; lia). by apply Hd.
      * rewrite Enw. unfold pi_data, PIPESIZE in *. lia.
    + assert (j = length q /\ x = c) as [-> ->]. { destruct (j - length q)%nat as [|k] eqn:Ek; [|by destruct k]. cbn in Hj. split; [lia|congruence]. }
      unfold m1. rewrite ld8_st8, decide_True by (by rewrite Enw). apply Z.mod_small. lia.
Qed.

(** One byte out. *)
Lemma ring_get_ok m pi c q : pipe_rep m pi (c :: q) ->
  ld8 m (pi_data pi (ld32 m (pi_nread pi) mod PIPESIZE)) = c /\
  pipe_rep (st32 m (pi_nread pi) (u32 (ld32 m (pi_nread pi) + 1))) pi q.
Proof.
  intros [Hl Hw Hd]. set (nr := ld32 m (pi_nread pi)) in *. pose proof (ld32_range m (pi_nread pi)) as Hnr. fold nr in Hnr. cbn [length] in *. split.
  - rewrite <- (Hd 0%nat c eq_refl). by rewrite Z.add_0_r.
  - assert (ld32 (st32 m (pi_nread pi) (u32 (nr + 1))) (pi_nread pi) = u32 (nr + 1)) as Er by (apply ld32_st32, u32_range). split.
    + lia.
    + rewrite Er, ld32_st32_outside by (unfold pi_nread, pi_nwrite; lia). rewrite Hw. unfold u32. rewrite Zplus_mod_idemp_l. f_equal. lia.
    + intros j x Hj. rewrite Er, ld8_st32_outside by (unfold pi_data, pi_nread, PIPESIZE; lia). rewrite <- (Hd (S j) x Hj). do 2 f_equal.
      rewrite <- (u32_mod_size (u32 (nr + 1) + Z.of_nat j)). unfold u32. rewrite Zplus_mod_idemp_l.
      change ((nr + 1 + Z.of_nat j) mod 2 ^ 32) with (u32 (nr + 1 + Z.of_nat j)). rewrite u32_mod_size. f_equal. lia.
Qed.

(** ** Copying one byte *)

Lemma copyin_byte `{KernelImage} T root s uva kva : pt_rep (km_mem s) T -> T !! [] = Some root -> 0 <= uva < 2 ^ 64 - 1 ->
  (forall a, user_addr (km_mem s) T uva = Some a -> a <> kva) ->
  copyin root kva uva 1 s = match user_addr (km_mem s) T uva with
    | Some a => Ret 0 (set_mem (memcpy (km_mem s) kva a 1) s)
    | None => Ret (-1) s
    end.
Proof.
  intros Hr Hroot Hu Hne. unfold copyin, copy_in, copy_in_or_out_may_str. change (copy_fuel 1) with 3%nat. cbn [while_loop].
  rewrite bind_eq, (copy_round_eq T root COPY_IN uva kva 1 s Hr Hroot) by done. destruct (user_addr (km_mem s) T uva) as [a|] eqn:Ea; [|done].
  assert (Z.min (PGSIZE - uva mod PGSIZE) 1 = 1) as -> by vmlia. cbn. done.
Qed.

Lemma copyout_byte `{KernelImage} T root s uva kva : pt_rep (km_mem s) T -> T !! [] = Some root -> 0 <= uva < 2 ^ 64 - 1 ->
  copyout root uva kva 1 s = match user_addr (km_mem s) T uva with
    | Some a => Ret 0 (set_mem (memcpy (km_mem s) a kva 1) s)
    | None => Ret (-1) s
    end.
Proof.
  intros Hr Hroot Hu. unfold copyout, copy_out, copy_in_or_out_may_str. change (copy_fuel 1) with 3%nat. cbn [while_loop].
  rewrite bind_eq, (copy_round_eq T root COPY_OUT uva kva 1 s Hr Hroot) by done. destruct (user_addr (km_mem s) T uva) as [a|] eqn:Ea; [|done].
  assert (Z.min (PGSIZE - uva mod PGSIZE) 1 = 1) as -> by vmlia. cbn. done.
Qed.

(** Steps over a value that has been returned. *)
Lemma obind_mret {A B} (x : A) (f : A -> M kst B) s : obind ((mret x : M kst A) s) f = f x s.
Proof. done. Qed.
Ltac obind_ret := rewrite !obind_mret; cbv beta iota.

Section Pipe.
Context `{KernelData} `{WaitFuel}.
Variables (h : hw) (me : nat) (p : process) (T : tree) (pi : Z).

(** The hart runs the process on its tree of page tables; the pipe and the local byte are
    apart and outside of the tree. *)
Record pipe_env : Prop := {
  pe_wf : hw_wf h;
  pe_unnested : unnested h;
  pe_run : running h me;
  pe_lock : hw_locks h !! LkPipe pi = Some free_lock;
  pe_procs : procs_free h [LkPipe pi];
  pe_root : T !! [] = Some (p_pgtable p);
  pe_awake : p_status p <> SLEEP;
  pe_chain : p_chain p = ChNull;
  pe_tree : forall a, in_ring pi a \/ a = local_ch -> ~ in_tree T a;
  pe_local : ~ (pi <= local_ch < pi + 544) }.
Hypothesis He : pipe_env.

(** Between the acquire and the release of the lock of the pipe, in a state like [s0] but
    for the ring, the local byte and [W]. *)
Record pipe_state (W : Z -> Prop) (s0 s : kst) : Prop := {
  ps_others : set_k_mem (k_mem s) s0 = s;
  ps_frame : forall a, ~ in_ring pi a -> a <> local_ch -> ~ W a -> ld8 (k_mem s) a = ld8 (k_mem s0) a }.
Definition nowhere (a : Z) : Prop := False.

(** What the calls need of the state they start from. *)
Record pipe_start (s0 : kst) : Prop := {
  pt_tree : pt_rep (k_mem s0) T;
  pt_me : k_procs s0 !! me = Some p;
  pt_procs : length (k_procs s0) = nprocs;
  pt_user : forall va a, user_addr (k_mem s0) T va = Some a -> 0 <= va -> ~ in_ring pi a /\ a <> local_ch }.

Lemma pipe_state_refl W s : pipe_state W s s.
Proof. split; [by destruct s as [ [] ]|done]. Qed.

Lemma pipe_state_mem W s0 s m : pipe_state W s0 s -> (forall a, ~ in_ring pi a -> a <> local_ch -> ~ W a -> ld8 m a = ld8 (k_mem s) a) -> pipe_state W s0 (set_k_mem m s).
Proof.
  intros [Ho Hf] Hm. split; [by rewrite <- Ho|]. intros a Hx1 Hx2 Hx3. change (k_mem (set_k_mem m s)) with m. rewrite Hm by done. by apply Hf.
Qed.

(** The page tables are as they were, and so is what user code sees. *)
Lemma pipe_tree W s0 s : pipe_start s0 -> pipe_state W s0 s -> (forall a, W a -> ~ in_tree T a) -> pt_rep (k_mem s) T /\ (forall va, user_addr (k_mem s) T va = user_addr (k_mem s0) T va) /\
  k_procs s = k_procs s0 /\ k_hw s = k_hw s0.
Proof.
  intros Hs [Ho Hf] HW. assert (forall a, in_tree T a -> ld8 (k_mem s) a = ld8 (k_mem s0) a) as Ht.
  { intros a Ha. apply Hf; [intros Hp|intros ->|intros Hp]; [by apply (pe_tree He a); [left|]|by apply (pe_tree He local_ch); [right|]|by apply (HW a)]. }
  split; [by apply (pt_rep_frame _ _ T (pt_tree _ Hs) Ht)|]. split; [intros va; by apply user_addr_frame; [apply Hs|]|]. by rewrite <- Ho.
Qed.

(** ** Writing *)

Definition pipewrite_byte (addr i : Z) : M kst (option (Z + Z)) :=
  gone ← pipewrite_wait pi me;
  if (gone : bool) then mret (Some (inr (-1))) else
  p ← read_proc me;
  err ← kmdo (copyin (p_pgtable p) local_ch (u64 (addr + i)) 1);
  if err =? -1 then mret (Some (inl i)) else
  ch ← kld8 local_ch;
  nw ← kld32 (pi_nwrite pi);
  kst32 (pi_nwrite pi) (u32 (nw + 1)) ;;
  kst8 (pi_data pi (nw mod PIPESIZE)) ch ;;
  mret None.

Lemma pipewrite_room s q : pipe_rep (k_mem s) pi q -> Z.of_nat (length q) < PIPESIZE -> pipewrite_wait pi me s = Ret false s.
Proof.
  intros Hq Hlt. unfold pipewrite_wait. pose proof wait_fuel_pos. destruct wait_fuel as [|n]; [lia|]. rewrite while_S, bind_eq.
  rewrite (bind_Ret _ _ s (ld32 (k_mem s) (pi_nwrite pi)) s) by done. rewrite (bind_Ret _ _ s (ld32 (k_mem s) (pi_nread pi)) s) by done.
  rewrite (pipe_full _ _ _ Hq), (proj2 (Z.eqb_neq _ _)) by lia. done.
Qed.

Lemma pipewrite_byte_ok s0 s q addr i : pipe_start s0 -> pipe_state nowhere s0 s -> pipe_rep (k_mem s) pi q -> Z.of_nat (length q) < PIPESIZE -> 0 <= addr + i < 2 ^ 64 - 1 ->
  match user_addr (k_mem s0) T (addr + i) with
  | Some a => exists s', pipewrite_byte addr i s = Ret None s' /\ pipe_state nowhere s0 s' /\ pipe_rep (k_mem s') pi (q ++ [ld8 (k_mem s0) a])
  | None => pipewrite_byte addr i s = Ret (Some (inl i)) s
  end.
Proof.
  intros Hs Hst Hq Hlt Hai. destruct (pipe_tree nowhere s0 s Hs Hst ltac:(done)) as (Hpt & Hua & Hpr & _). unfold pipewrite_byte. rret (pipewrite_room s q Hq Hlt).
  assert (k_procs s !! me = Some p) as Hme by (rewrite Hpr; apply Hs). rret (read_proc_Ret me p s Hme). rewrite u64_small by lia.
  pose proof (copyin_byte T (p_pgtable p) (k_km s) (addr + i) local_ch Hpt (pe_root He) Hai) as E. change (km_mem (k_km s)) with (k_mem s) in E. rewrite Hua in E.
  destruct (user_addr (k_mem s0) T (addr + i)) as [a|] eqn:Ea.
  - destruct (pt_user _ Hs _ _ Ea ltac:(lia)) as [Ha1 Ha2]. specialize (E ltac:(by intros ? [= <-])).
    set (m1 := memcpy (k_mem s) local_ch a 1) in E. rret (kmdo_Ret _ s _ _ E). change (0 =? -1) with false. cbv iota.
    set (s1 := set_k_km _ s). rewrite (bind_Ret _ _ s1 (ld8 m1 local_ch) s1) by done. rewrite (bind_Ret _ _ s1 (ld32 m1 (pi_nwrite pi)) s1) by done.
    assert (forall x, ld8 m1 x = if decide (x = local_ch) then ld8 (k_mem s) a else ld8 (k_mem s) x) as Hm1.
    { intros x. unfold m1. rewrite ld8_memcpy by lia. case_decide; case_decide; [f_equal; lia|lia|lia|done]. }
    rewrite Hm1, decide_True by done. rewrite (ps_frame _ _ _ Hst a) by (done || by intros []). set (c := ld8 (k_mem s0) a).
    exists (set_k_mem (ring_put m1 pi c) s). split; [done|]. split.
    + apply pipe_state_mem; [done|]. intros x Hx1 Hx2 _. rewrite ring_put_out by done. by rewrite Hm1, decide_False.
    + apply ring_put_ok; [|done|unfold c; pose proof (ld8_range (k_mem s0) a); lia]. apply (pipe_rep_ext (k_mem s)); [done|].
      intros x Hx. rewrite Hm1, decide_False; [done|]. intros ->. apply (pe_local He). unfold in_ring in Hx. lia.
  - specialize (E ltac:(done)). rewrite (bind_Ret _ _ s (-1) s); [done|]. rewrite (kmdo_Ret _ _ _ _ E). by destruct s as [ [] ].
Qed.

(** The bytes user code has at [va] on. *)
Definition user_bytes (m : mem) (va : Z) (bs : list Z) : Prop :=
  forall j c, bs !! j = Some c -> exists a, user_addr m T (va + Z.of_nat j) = Some a /\ ld8 m a = c.

Lemma pipewrite_some s0 addr n : pipe_start s0 -> forall bs s q i, pipe_state nowhere s0 s -> pipe_rep (k_mem s) pi q -> Z.of_nat (length q) + Z.of_nat (length bs) <= PIPESIZE ->
  0 <= addr + i -> addr + i + Z.of_nat (length bs) < 2 ^ 64 -> user_bytes (k_mem s0) (addr + i) bs ->
  exists s', for_loop (length bs + n) i (pipewrite_byte addr) s = for_loop n (i + Z.of_nat (length bs)) (pipewrite_byte addr) s' /\
    pipe_state nowhere s0 s' /\ pipe_rep (k_mem s') pi (q ++ bs).
Proof.
  intros Hs. induction bs as [|c bs IH]; intros s q i Hst Hq Hlen Ha Hb Hu.
  - exists s. rewrite app_nil_r. cbn [length Nat.add]. rewrite Z.add_0_r. done.
  - cbn [length] in *. destruct (Hu 0%nat c eq_refl) as (a & Ea & <-). rewrite Z.add_0_r in Ea.
    pose proof (pipewrite_byte_ok s0 s q addr i Hs Hst Hq ltac:(lia) ltac:(lia)) as Hw. rewrite Ea in Hw. destruct Hw as (s1 & E1 & Hst1 & Hq1).
    destruct (IH s1 (q ++ [ld8 (k_mem s0) a]) (i + 1) Hst1 Hq1) as (s2 & E2 & Hst2 & Hq2); [rewrite length_app; cbn [length]; lia|lia|lia| |].
    + intros j c Hj. destruct (Hu (S j) c Hj) as (b & Eb & Hb2). exists b. split; [|done]. rewrite <- Eb. f_equal. lia.
    + exists s2. cbn [Nat.add for_loop]. rret E1. replace (i + Z.of_nat (S (length bs))) with (i + 1 + Z.of_nat (length bs)) by lia.
      split; [exact E2|]. split; [done|]. by rewrite <- app_assoc in Hq2.
Qed.

(** At the end of what fits: the ring is full, and the writer gives up or sleeps. *)
Lemma pipewrite_full s0 s q : pipe_start s0 -> k_hw s0 = held_hw 0 [LkPipe pi] h -> pipe_state nowhere s0 s -> pipe_rep (k_mem s) pi q -> Z.of_nat (length q) = PIPESIZE ->
  if (ld32 (k_mem s0) (pi_readopen pi) =? 0) || negb (p_killed p =? 0)
  then pipewrite_wait pi me s = Ret true (set_k_hw (held_hw 0 [] h) s)
  else exists k, pipewrite_wait pi me s = Switch (set_k_hw (held_hw 0 [LkProc me] (with_ie 0 h))
         (set_k_procs (<[me := asleep (ChPipeWrite pi) p]> (map (wake (ChPipeRead pi)) (k_procs s0))) s)) k.
Proof.
  intros Hs Hhw Hst Hq Hfull. destruct (pipe_tree nowhere s0 s Hs Hst ltac:(done)) as (_ & _ & Hpr & Hh). pose proof (pe_wf He) as Hwf. pose proof (pe_lock He) as Hlk.
  assert (ld32 (k_mem s) (pi_readopen pi) = ld32 (k_mem s0) (pi_readopen pi)) as Hro.
  { apply ld32_ext. intros x Hx. pose proof (pe_local He) as Hloc. unfold pi_readopen in Hx. apply (ps_frame _ _ _ Hst); [unfold in_ring; lia|lia|by intros []]. }
  assert (k_procs s !! me = Some p) as Hme by (rewrite Hpr; apply Hs).
  set (body := fun _ : unit =>
    nw ← kld32 (pi_nwrite pi);
    nr ← kld32 (pi_nread pi);
    if negb (nw =? u32 (nr + PIPESIZE)) then mret (inr false) else
    ro ← kld32 (pi_readopen pi);
    p ← read_proc me;
    if (ro =? 0) || negb (p_killed p =? 0) then release (LkPipe pi) ;; mret (inr true) else
    wake_up (ChPipeRead pi) ;;
    sleep_r (ChPipeWrite pi) (LkPipe pi) ;;
    mret (inl tt) : M kst (unit + bool)).
  assert (body tt s = if (ld32 (k_mem s0) (pi_readopen pi) =? 0) || negb (p_killed p =? 0) then (release (LkPipe pi) ;; mret (inr true)) s
    else (wake_up (ChPipeRead pi) ;; sleep_r (ChPipeWrite pi) (LkPipe pi) ;; mret (inl tt)) s) as Eb.
  { unfold body. rewrite (bind_Ret _ _ s (ld32 (k_mem s) (pi_nwrite pi)) s) by done. rewrite (bind_Ret _ _ s (ld32 (k_mem s) (pi_nread pi)) s) by done.
    rewrite (pipe_full _ _ _ Hq), (proj2 (Z.eqb_eq _ _)) by done. cbn [negb]. rewrite (bind_Ret _ _ s (ld32 (k_mem s) (pi_readopen pi)) s) by done.
    rret (read_proc_Ret me p s Hme). rewrite Hro. by case_match. }
  unfold pipewrite_wait. fold body. assert (s = set_k_hw (held_hw 0 [LkPipe pi] h) s) as Es by (rewrite <- Hhw, <- Hh; by destruct s as [ [] ]).
  case_match.
  - pose proof wait_fuel_pos. destruct wait_fuel as [|n]; [lia|]. rewrite while_S, bind_eq, Eb.
    assert (release (LkPipe pi) s = Ret tt (set_k_hw (held_hw 0 [] h) s)) as Er by (rewrite Es at 1; apply (release_top h Hwf 0 [] (LkPipe pi) s Hlk ltac:(set_solver) ltac:(constructor))).
    rret Er. done.
  - assert (at_lvl h 0 [LkPipe pi] (k_hw s)) as Hlvl by (left; congruence).
    pose proof (wake_up_eq h Hwf 0 [LkPipe pi] (ChPipeRead pi) s Hlvl ltac:(apply NoDup_singleton) (pe_procs He) ltac:(rewrite Hpr; apply Hs)) as Ew.
    set (s1 := set_k_hw _ _) in Ew.
    assert (k_procs s1 !! me = Some p) as Hme1.
    { change (map (wake (ChPipeRead pi)) (k_procs s) !! me = Some p). rewrite list_lookup_fmap, Hme. cbn. unfold wake. rewrite decide_False; [done|]. intros [Hsl _]. by apply (pe_awake He). }
    assert (hw_locks h !! LkProc me = Some free_lock) as Hlp.
    { apply (pe_procs He). rewrite <- (pt_procs _ Hs), <- Hpr. by eapply lookup_lt_Some. }
    destruct (sleep_eq h me (LkPipe pi) (ChPipeWrite pi) p s1 Hwf (pe_unnested He) (pe_run He) eq_refl Hlk Hlp Hme1 (pe_chain He)) as (k & E & _).
    destruct (while_switch tt body s (set_k_hw (held_hw 0 [LkProc me] (with_ie 0 h)) (set_k_procs (<[me := asleep (ChPipeWrite pi) p]> (k_procs s1)) s1))
      (fun s' => obind (k s') (fun _ => mret (inl tt)))) as (k' & E2).
    { rewrite Eb. rret Ew. unfold sleep_r. by rewrite (bind_Switch _ _ _ _ _ E). }
    exists k'. rewrite E2. f_equal. rewrite <- Hpr. by unfold s1.
Qed.

(** The part of [bs] that can go in now: all of it, or as much as there is room for, or
    as much as user code can read. *)
Definition fits_now (m : mem) (q bs : list Z) (addr n : Z) : Prop :=
  Z.of_nat (length q) + Z.of_nat (length bs) <= PIPESIZE /\ Z.of_nat (length bs) <= n /\ user_bytes m addr bs /\
  (Z.of_nat (length bs) = n \/ Z.of_nat (length q) + Z.of_nat (length bs) = PIPESIZE \/ user_addr m T (addr + Z.of_nat (length bs)) = None).

Lemma pipewrite_ok s q bs addr n : pipe_start s -> at_lvl h 0 [] (k_hw s) -> pipe_rep (k_mem s) pi q ->
  0 <= addr -> 0 <= n -> addr + n < 2 ^ 64 -> fits_now (k_mem s) q bs addr n ->
  exists m', pipe_rep m' pi (q ++ bs) /\ (forall a, ~ in_ring pi a -> a <> local_ch -> ld8 m' a = ld8 (k_mem s) a) /\
    let awake := map (wake (ChPipeRead pi)) (k_procs s) in
    if decide (Z.of_nat (length bs) = n \/ Z.of_nat (length q) + Z.of_nat (length bs) < PIPESIZE) then
      pipewrite pi addr n s = Ret (Z.of_nat (length bs)) (set_k_hw (held_hw 0 [] h) (set_k_procs awake (set_k_mem m' s)))
    else if (ld32 (k_mem s) (pi_readopen pi) =? 0) || negb (p_killed p =? 0) then
      pipewrite pi addr n s = Ret (-1) (set_k_hw (held_hw 0 [] h) (set_k_mem m' s))
    else exists k, pipewrite pi addr n s = Switch (set_k_hw (held_hw 0 [LkProc me] (with_ie 0 h))
      (set_k_procs (<[me := asleep (ChPipeWrite pi) p]> awake) (set_k_mem m' s))) k.
Proof.
  intros Hs Hlvl Hq Ha Hn Hend (Hfit & Hbn & Hu & Hstop). pose proof (pe_wf He) as Hwf. pose proof (pe_lock He) as Hlk.
  set (s0 := set_k_hw (held_hw 0 [LkPipe pi] h) s). assert (pipe_start s0) as Hs0 by (destruct Hs; by split).
  destruct (pipewrite_some s0 addr (Z.to_nat n - length bs) Hs0 bs s0 q 0 (pipe_state_refl nowhere s0) Hq Hfit) as (s1 & E & Hst & Hq1); [lia|lia|by rewrite Z.add_0_r|].
  rewrite Z.add_0_l in E. replace (length bs + (Z.to_nat n - length bs))%nat with (Z.to_nat n) in E by lia.
  exists (k_mem s1). split; [done|]. split; [intros a Hx1 Hx2; apply (ps_frame _ _ _ Hst a Hx1 Hx2); by intros []|]. cbv zeta.
  assert (set_k_mem (k_mem s1) s0 = s1) as Es1 by apply Hst.
  assert (forall v : Z, (wake_up (ChPipeRead pi) ;; release (LkPipe pi) ;; mret v) s1 =
    Ret v (set_k_hw (held_hw 0 [] h) (set_k_procs (map (wake (ChPipeRead pi)) (k_procs s)) (set_k_mem (k_mem s1) s)))) as Eend.
  { intros v. assert (at_lvl h 0 [LkPipe pi] (k_hw s1)) as Hl1 by (left; by rewrite <- Es1).
    rret (wake_up_eq h Hwf 0 [LkPipe pi] (ChPipeRead pi) s1 Hl1 ltac:(apply NoDup_singleton) (pe_procs He) ltac:(rewrite <- Es1; apply Hs)).
    rret (release_top h Hwf 0 [] (LkPipe pi) (set_k_procs (map (wake (ChPipeRead pi)) (k_procs s1)) s1) Hlk ltac:(set_solver) ltac:(constructor)). by rewrite <- Es1. }
  unfold pipewrite. rret (cur_proc_lvl h Hwf 0 [] me s Hlvl (pe_run He)).
  rret (acquire_lvl h Hwf 0 [] (LkPipe pi) (set_k_hw (held_hw 0 [] h) s) (at_lvl_held h 0 []) Hlk ltac:(set_solver)).
  change (set_k_hw (held_hw 0 [LkPipe pi] h) (set_k_hw (held_hw 0 [] h) s)) with s0. fold (pipewrite_byte addr). rewrite bind_eq, E.
  destruct (Z.to_nat n - length bs)%nat as [|r] eqn:Er.
  { rewrite decide_True by (left; lia). cbn [for_loop obind mret M_ret]. rewrite Eend. f_equal. lia. }
  destruct (decide (Z.of_nat (length bs) = n \/ Z.of_nat (length q) + Z.of_nat (length bs) < PIPESIZE)) as [Hd|Hd].
  - assert (user_addr (k_mem s) T (addr + Z.of_nat (length bs)) = None) as Hnone by (destruct Hstop as [?|[?|?] ]; [lia|lia|done]).
    pose proof (pipewrite_byte_ok s0 s1 (q ++ bs) addr (Z.of_nat (length bs)) Hs0 Hst Hq1 ltac:(rewrite length_app; lia) ltac:(lia)) as Hw.
    change (k_mem s0) with (k_mem s) in Hw. rewrite Hnone in Hw. cbn [for_loop]. rret Hw. cbn [obind mret M_ret]. by rewrite Eend.
  - pose proof (pipewrite_full s0 s1 (q ++ bs) Hs0 eq_refl Hst Hq1 ltac:(rewrite length_app; lia)) as Hw. change (k_mem s0) with (k_mem s) in Hw. change (k_procs s0) with (k_procs s) in Hw.
    cbn [for_loop]. case_match.
    + rewrite bind_eq. unfold pipewrite_byte at 1. rewrite bind_eq, Hw. cbn. by rewrite <- Es1.
    + destruct Hw as (k & Ek). rewrite bind_eq. unfold pipewrite_byte at 1. rewrite bind_eq, Ek. cbn. eexists. by rewrite <- Es1.
Qed.

(** ** Reading *)

Definition piperead_wait : M kst bool :=
  while_loop wait_fuel tt (fun _ =>
    nr ← kld32 (pi_nread pi);
    nw ← kld32 (pi_nwrite pi);
    wo ← kld32 (pi_writeopen pi);
    if negb ((nr =? nw) && negb (wo =? 0)) then mret (inr false) else
    p ← read_proc me;
    if negb (p_killed p =? 0) then release (LkPipe pi) ;; mret (inr true) else
    sleep_r (ChPipeRead pi) (LkPipe pi) ;;
    mret (inl tt)).

Definition piperead_byte (addr i : Z) : M kst (option Z) :=
  nr ← kld32 (pi_nread pi);
  nw ← kld32 (pi_nwrite pi);
  if nr =? nw then mret (Some i) else
  kst32 (pi_nread pi) (u32 (nr + 1)) ;;
  ch ← kld8 (pi_data pi (nr mod PIPESIZE));
  kst8 local_ch ch ;;
  p ← read_proc me;
  err ← kmdo (copyout (p_pgtable p) (u64 (addr + i)) local_ch 1);
  if err =? -1 then mret (Some i) else mret None.

(** Where user code has the [n] bytes at [addr]: nothing the kernel uses here, every byte
    at a place of its own. *)
Definition dest (m : mem) (addr n a : Z) : Prop := exists j, 0 <= j < n /\ user_addr m T (addr + j) = Some a.
Record dest_ok (m : mem) (addr n : Z) : Prop := {
  do_tree : forall a, dest m addr n a -> ~ in_tree T a;
  do_inj : forall i j a, 0 <= i < n -> 0 <= j < n -> user_addr m T (addr + i) = Some a -> user_addr m T (addr + j) = Some a -> i = j }.

Lemma ring_data_in j : in_ring pi (pi_data pi (j mod PIPESIZE)).
Proof. unfold in_ring, pi_data, PIPESIZE. lia. Qed.

Lemma piperead_byte_ok s0 s c q addr n i : pipe_start s0 -> dest_ok (k_mem s0) addr n -> pipe_state (dest (k_mem s0) addr n) s0 s ->
  pipe_rep (k_mem s) pi (c :: q) -> 0 <= c < 256 -> 0 <= i < n -> 0 <= addr -> addr + n < 2 ^ 64 ->
  exists s', pipe_state (dest (k_mem s0) addr n) s0 s' /\ pipe_rep (k_mem s') pi q /\
  match user_addr (k_mem s0) T (addr + i) with
  | Some a => piperead_byte addr i s = Ret None s' /\ ld8 (k_mem s') a = c /\
      forall x, ~ in_ring pi x -> x <> local_ch -> x <> a -> ld8 (k_mem s') x = ld8 (k_mem s) x
  | None => piperead_byte addr i s = Ret (Some i) s' /\ forall x, ~ in_ring pi x -> x <> local_ch -> ld8 (k_mem s') x = ld8 (k_mem s) x
  end.
Proof.
  intros Hs Hd Hst Hq Hc Hi Ha Hn. pose proof (pipe_empty _ _ _ Hq) as Hne. pose proof (pe_local He) as Hloc.
  destruct (ring_get_ok _ _ _ _ Hq) as [Hch Hq1]. set (nr := ld32 (k_mem s) (pi_nread pi)) in *.
  set (m1 := st32 (k_mem s) (pi_nread pi) (u32 (nr + 1))) in *. set (m2 := st8 m1 local_ch c).
  assert (forall x, x <> local_ch -> ld8 m2 x = ld8 m1 x) as Hm2 by (intros x Hx; unfold m2; rewrite ld8_st8, decide_False; done).
  assert (forall x, ~ in_ring pi x -> ld8 m1 x = ld8 (k_mem s) x) as Hm1 by (intros x Hx; apply ld8_st32_outside; unfold in_ring, pi_nread in *; lia).
  assert (ld8 m1 (pi_data pi (nr mod PIPESIZE)) = c) as Hch1 by (rewrite <- Hch; apply ld8_st32_outside; unfold pi_data, pi_nread, PIPESIZE; lia).
  assert (pipe_rep m2 pi q) as Hq2 by (apply (pipe_rep_ext m1); [done|]; intros x Hx; apply Hm2; intros ->; unfold in_ring in Hx; lia).
  assert (pipe_state (dest (k_mem s0) addr n) s0 (set_k_mem m2 s)) as Hst2.
  { apply pipe_state_mem; [done|]. intros x Hx1 Hx2 _. rewrite Hm2 by done. by apply Hm1. }
  destruct (pipe_tree _ s0 _ Hs Hst2 (do_tree _ _ _ Hd)) as (Hpt & Hua & Hpr & _).
  assert (k_procs (set_k_mem m2 s) !! me = Some p) as Hme by (rewrite Hpr; apply Hs).
  assert (piperead_byte addr i s = (err ← kmdo (copyout (p_pgtable p) (u64 (addr + i)) local_ch 1); if err =? -1 then mret (Some i) else mret None) (set_k_mem m2 s)) as E.
  { unfold piperead_byte. rewrite (bind_Ret _ _ s nr s) by done. rewrite (bind_Ret _ _ s (ld32 (k_mem s) (pi_nwrite pi)) s) by done. rewrite Hne.
    change (Z.of_nat (length (c :: q)) =? 0) with false. cbv iota. rewrite (bind_Ret _ _ s tt (set_k_mem m1 s)) by done.
    rewrite (bind_Ret _ _ (set_k_mem m1 s) c (set_k_mem m1 s)) by (unfold kld8, gets; by rewrite <- Hch1).
    rewrite (bind_Ret _ _ (set_k_mem m1 s) tt (set_k_mem m2 s)) by done. by rret (read_proc_Ret me p _ Hme). }
  rewrite u64_small in E by lia.
  pose proof (copyout_byte T (p_pgtable p) (k_km (set_k_mem m2 s)) (addr + i) local_ch Hpt (pe_root He) ltac:(lia)) as Ec.
  change (km_mem (k_km (set_k_mem m2 s))) with (k_mem (set_k_mem m2 s)) in Ec. rewrite Hua in Ec. destruct (user_addr (k_mem s0) T (addr + i)) as [a|] eqn:Eu.
  - destruct (pt_user _ Hs _ _ Eu ltac:(lia)) as [Ha1 Ha2]. change (k_mem (set_k_mem m2 s)) with m2 in Ec. set (m3 := memcpy m2 a local_ch 1) in Ec.
    assert (forall x, ld8 m3 x = if decide (x = a) then c else ld8 m2 x) as Hm3.
    { intros x. unfold m3. rewrite ld8_memcpy by lia. case_decide; case_decide; [|lia|lia|done]. replace (x - a + local_ch) with local_ch by lia.
      unfold m2. rewrite ld8_st8, decide_True by done. apply Z.mod_small. lia. }
    exists (set_k_mem m3 s). split; [|split; [|split; [|split] ] ].
    + apply pipe_state_mem; [done|]. intros x Hx1 Hx2 Hx3. rewrite Hm3, decide_False by (intros ->; apply Hx3; by exists i). rewrite Hm2 by done. by apply Hm1.
    + apply (pipe_rep_ext m2); [done|]. intros x Hx. change (k_mem (set_k_mem m3 s)) with m3. rewrite Hm3, decide_False; [done|]. by intros ->.
    + rewrite E. rret (kmdo_Ret _ _ _ _ Ec). done.
    + change (ld8 m3 a = c). by rewrite Hm3, decide_True.
    + intros x Hx1 Hx2 Hx3. change (ld8 m3 x = ld8 (k_mem s) x). rewrite Hm3, decide_False, Hm2 by done. by apply Hm1.
  - exists (set_k_mem m2 s). split; [done|]. split; [done|]. split.
    + rewrite E. rewrite (bind_Ret _ _ (set_k_mem m2 s) (-1) (set_k_mem m2 s)); [done|]. rewrite (kmdo_Ret _ _ _ _ Ec). by destruct s as [ [] ].
    + intros x Hx1 Hx2. change (ld8 m2 x = ld8 (k_mem s) x). rewrite Hm2 by done. by apply Hm1.
Qed.

(** The bytes [cs] have reached user code at [addr]. *)
Definition delivered (m0 m : mem) (addr : Z) (cs : list Z) : Prop :=
  forall j c, cs !! j = Some c -> exists a, user_addr m0 T (addr + Z.of_nat j) = Some a /\ ld8 m a = c.

Lemma piperead_some s0 addr n r : pipe_start s0 -> dest_ok (k_mem s0) addr n -> 0 <= addr -> addr + n < 2 ^ 64 -> forall cs s dn q,
  pipe_state (dest (k_mem s0) addr n) s0 s -> pipe_rep (k_mem s) pi (cs ++ q) -> Forall (fun c => 0 <= c < 256) cs ->
  Z.of_nat (length dn) + Z.of_nat (length cs) <= n -> (forall j, (j < length cs)%nat -> is_Some (user_addr (k_mem s0) T (addr + Z.of_nat (length dn + j)))) ->
  delivered (k_mem s0) (k_mem s) addr dn ->
  exists s', for_loop (length cs + r) (Z.of_nat (length dn)) (piperead_byte addr) s = for_loop r (Z.of_nat (length dn + length cs)) (piperead_byte addr) s' /\
    pipe_state (dest (k_mem s0) addr n) s0 s' /\ pipe_rep (k_mem s') pi q /\ delivered (k_mem s0) (k_mem s') addr (dn ++ cs).
Proof.
  intros Hs Hd Ha Hn. induction cs as [|c cs IH]; intros s dn q Hst Hq HF Hlen Hu Hdel.
  - exists s. rewrite app_nil_r, Nat.add_0_r. done.
  - apply Forall_cons in HF as [Hc HF]. cbn [length app] in *. destruct (Hu 0%nat ltac:(lia)) as [a Ea]. rewrite Nat.add_0_r in Ea.
    destruct (piperead_byte_ok s0 s c (cs ++ q) addr n (Z.of_nat (length dn)) Hs Hd Hst Hq Hc ltac:(lia) Ha Hn) as (s1 & Hst1 & Hq1 & Hb). rewrite Ea in Hb. destruct Hb as (E1 & Hl1 & Hf1).
    destruct (IH s1 (dn ++ [c]) q Hst1 Hq1 HF) as (s2 & E2 & Hst2 & Hq2 & Hd2); rewrite ?length_app; cbn [length]; [lia| | |].
    + intros j Hj. specialize (Hu (S j) ltac:(lia)). by replace (length dn + 1 + j)%nat with (length dn + S j)%nat by lia.
    + intros j x Hj. apply lookup_app_Some in Hj as [Hj|[Hge Hj] ].
      * destruct (Hdel j x Hj) as (b & Eb & Hb). exists b. split; [done|]. pose proof (lookup_lt_Some _ _ _ Hj). destruct (pt_user _ Hs _ _ Eb ltac:(lia)) as [Hb1 Hb2].
        rewrite Hf1; [done|done|done|]. intros ->. pose proof (do_inj _ _ _ Hd (Z.of_nat j) (Z.of_nat (length dn)) a ltac:(lia) ltac:(lia) Eb Ea). lia.
      * assert (j = length dn /\ x = c) as [-> ->]; [|by exists a]. destruct (j - length dn)%nat as [|k] eqn:Ek; [|by destruct k]. cbn in Hj. split; [lia|congruence].
    + exists s2. rewrite length_app in E2. cbn [length] in E2. cbn [Nat.add for_loop]. rret E1.
      replace (Z.of_nat (length dn) + 1) with (Z.of_nat (length dn + 1)) by lia. replace (length dn + S (length cs))%nat with (length dn + 1 + length cs)%nat by lia.
      split; [exact E2|]. split; [done|]. split; [done|]. by rewrite <- app_assoc in Hd2.
Qed.

Lemma pipe_sleep ch s : k_hw s = held_hw 0 [LkPipe pi] h -> k_procs s !! me = Some p -> length (k_procs s) = nprocs ->
  exists k, sleep_r ch (LkPipe pi) s = Switch (set_k_hw (held_hw 0 [LkProc me] (with_ie 0 h)) (set_k_procs (<[me := asleep ch p]> (k_procs s)) s)) k.
Proof.
  intros Hh Hme Hlen. assert (hw_locks h !! LkProc me = Some free_lock) as Hlp by (apply (pe_procs He); rewrite <- Hlen; by eapply lookup_lt_Some).
  destruct (sleep_eq h me (LkPipe pi) ch p s (pe_wf He) (pe_unnested He) (pe_run He) Hh (pe_lock He) Hlp Hme (pe_chain He)) as (k & E & _). by exists k.
Qed.

(** An empty pipe with a writer: the reader gives up or sleeps; any other pipe is read. *)
Lemma piperead_wait_ok s q : k_hw s = held_hw 0 [LkPipe pi] h -> k_procs s !! me = Some p -> length (k_procs s) = nprocs -> pipe_rep (k_mem s) pi q ->
  if (Z.of_nat (length q) =? 0) && negb (ld32 (k_mem s) (pi_writeopen pi) =? 0) then
    if negb (p_killed p =? 0) then piperead_wait s = Ret true (set_k_hw (held_hw 0 [] h) s)
    else exists k, piperead_wait s = Switch (set_k_hw (held_hw 0 [LkProc me] (with_ie 0 h)) (set_k_procs (<[me := asleep (ChPipeRead pi) p]> (k_procs s)) s)) k
  else piperead_wait s = Ret false s.
Proof.
  intros Hh Hme Hlen Hq. unfold piperead_wait.
  set (body := fun _ : unit =>
    nr ← kld32 (pi_nread pi);
    nw ← kld32 (pi_nwrite pi);
    wo ← kld32 (pi_writeopen pi);
    if negb ((nr =? nw) && negb (wo =? 0)) then mret (inr false) else
    p ← read_proc me;
    if negb (p_killed p =? 0) then release (LkPipe pi) ;; mret (inr true) else
    sleep_r (ChPipeRead pi) (LkPipe pi) ;;
    mret (inl tt) : M kst (unit + bool)).
  assert (body tt s = if (Z.of_nat (length q) =? 0) && negb (ld32 (k_mem s) (pi_writeopen pi) =? 0) then
      if negb (p_killed p =? 0) then (release (LkPipe pi) ;; mret (inr true)) s else (sleep_r (ChPipeRead pi) (LkPipe pi) ;; mret (inl tt)) s
    else Ret (inr false) s) as Eb.
  { unfold body. rewrite (bind_Ret _ _ s (ld32 (k_mem s) (pi_nread pi)) s) by done. rewrite (bind_Ret _ _ s (ld32 (k_mem s) (pi_nwrite pi)) s) by done.
    rewrite (bind_Ret _ _ s (ld32 (k_mem s) (pi_writeopen pi)) s) by done. rewrite (pipe_empty _ _ _ Hq). destruct (_ && _); cbn [negb]; [|done].
    rret (read_proc_Ret me p s Hme). by destruct (negb _). }
  assert (s = set_k_hw (held_hw 0 [LkPipe pi] h) s) as Es by (rewrite <- Hh; by destruct s as [ [] ]).
  pose proof wait_fuel_pos as Hf. destruct (_ && _).
  - destruct (negb (p_killed p =? 0)).
    + destruct wait_fuel as [|n]; [lia|]. rewrite while_S, bind_eq, Eb.
      assert (release (LkPipe pi) s = Ret tt (set_k_hw (held_hw 0 [] h) s)) as Er by (rewrite Es at 1; apply (release_top h (pe_wf He) 0 [] (LkPipe pi) s (pe_lock He) ltac:(set_solver) ltac:(constructor))).
      by rret Er.
    + destruct (pipe_sleep (ChPipeRead pi) s Hh Hme Hlen) as (k & Ek). eapply while_switch. rewrite Eb. by rewrite (bind_Switch _ _ _ _ _ Ek).
  - destruct wait_fuel as [|n]; [lia|]. rewrite while_S, bind_eq, Eb. done.
Qed.

(** The part of the queue that goes out now: [n] bytes, or all there are, or as many as
    user code has room for. *)
Definition takes_now (m : mem) (cs q : list Z) (addr n : Z) : Prop :=
  Z.of_nat (length cs) <= n /\ Forall (fun c => 0 <= c < 256) (cs ++ q) /\ (forall j, (j < length cs)%nat -> is_Some (user_addr m T (addr + Z.of_nat j))) /\
  (Z.of_nat (length cs) = n \/ q = [] \/ user_addr m T (addr + Z.of_nat (length cs)) = None).

Lemma piperead_ok s cs q addr n : pipe_start s -> at_lvl h 0 [] (k_hw s) -> dest_ok (k_mem s) addr n -> pipe_rep (k_mem s) pi (cs ++ q) ->
  0 <= addr -> 0 <= n -> addr + n < 2 ^ 64 -> takes_now (k_mem s) cs q addr n ->
  if (Z.of_nat (length (cs ++ q)) =? 0) && negb (ld32 (k_mem s) (pi_writeopen pi) =? 0) then
    if negb (p_killed p =? 0) then piperead pi addr n s = Ret (-1) (set_k_hw (held_hw 0 [] h) s)
    else exists k, piperead pi addr n s = Switch (set_k_hw (held_hw 0 [LkProc me] (with_ie 0 h)) (set_k_procs (<[me := asleep (ChPipeRead pi) p]> (k_procs s)) s)) k
  else exists m', pipe_rep m' pi (if Z.of_nat (length cs) =? n then q else tail q) /\ delivered (k_mem s) m' addr cs /\
    (forall a, ~ in_ring pi a -> a <> local_ch -> ~ dest (k_mem s) addr n a -> ld8 m' a = ld8 (k_mem s) a) /\
    piperead pi addr n s = Ret (Z.of_nat (length cs)) (set_k_hw (held_hw 0 [] h) (set_k_procs (map (wake (ChPipeWrite pi)) (k_procs s)) (set_k_mem m' s))).
Proof.
  intros Hs Hlvl Hd Hq Ha Hn Hend (Hcn & HF & Hu & Hstop). pose proof (pe_wf He) as Hwf. pose proof (pe_lock He) as Hlk.
  set (s0 := set_k_hw (held_hw 0 [LkPipe pi] h) s). assert (pipe_start s0) as Hs0 by (destruct Hs; by split).
  pose proof (piperead_wait_ok s0 (cs ++ q) eq_refl (pt_me _ Hs0) (pt_procs _ Hs0) Hq) as Hwait. change (k_mem s0) with (k_mem s) in Hwait.
  assert (piperead pi addr n s = (gone ← piperead_wait; if (gone : bool) then mret (-1) else
    r ← for_loop (Z.to_nat n) 0 (piperead_byte addr); wake_up (ChPipeWrite pi) ;; release (LkPipe pi) ;; mret (default (Z.max n 0) r)) s0) as E.
  { unfold piperead. rret (cur_proc_lvl h Hwf 0 [] me s Hlvl (pe_run He)).
    by rret (acquire_lvl h Hwf 0 [] (LkPipe pi) (set_k_hw (held_hw 0 [] h) s) (at_lvl_held h 0 []) Hlk ltac:(set_solver)). }
  destruct (_ && _).
  { destruct (negb _).
    - rewrite E. by rret Hwait.
    - destruct Hwait as (k & Ek). rewrite E, (bind_Switch _ _ _ _ _ Ek). by eexists. }
  assert (forall s1 (v : Z), pipe_state (dest (k_mem s0) addr n) s0 s1 -> (wake_up (ChPipeWrite pi) ;; release (LkPipe pi) ;; mret v) s1 =
    Ret v (set_k_hw (held_hw 0 [] h) (set_k_procs (map (wake (ChPipeWrite pi)) (k_procs s)) (set_k_mem (k_mem s1) s)))) as Eend.
  { intros s1 v [Es1 _]. assert (at_lvl h 0 [LkPipe pi] (k_hw s1)) as Hl1 by (left; by rewrite <- Es1).
    rret (wake_up_eq h Hwf 0 [LkPipe pi] (ChPipeWrite pi) s1 Hl1 ltac:(apply NoDup_singleton) (pe_procs He) ltac:(rewrite <- Es1; apply Hs)).
    rret (release_top h Hwf 0 [] (LkPipe pi) (set_k_procs (map (wake (ChPipeWrite pi)) (k_procs s1)) s1) Hlk ltac:(set_solver) ltac:(constructor)). by rewrite <- Es1. }
  apply Forall_app in HF as [HF HFq].
  destruct (piperead_some s0 addr n (Z.to_nat n - length cs) Hs0 Hd Ha Hend cs s0 [] q (pipe_state_refl _ s0) Hq HF ltac:(cbn; lia) Hu ltac:(by intros j c Hj)) as (s1 & E1 & Hst & Hq1 & Hdel).
  cbn [length app Nat.add] in E1, Hdel. change (Z.of_nat 0) with 0 in E1. replace (length cs + (Z.to_nat n - length cs))%nat with (Z.to_nat n) in E1 by lia.
  rewrite E. rret Hwait. cbv iota. rewrite bind_eq, E1. destruct (Z.eqb_spec (Z.of_nat (length cs)) n) as [En|En].
  - replace (Z.to_nat n - length cs)%nat with 0%nat by lia. cbn [for_loop]. obind_ret. exists (k_mem s1). split; [done|]. split; [done|]. split; [apply Hst|].
    rewrite (Eend s1) by done. f_equal. cbn. lia.
  - destruct (Z.to_nat n - length cs)%nat as [|r] eqn:Er; [lia|]. cbn [for_loop]. destruct q as [|c q].
    + rewrite bind_eq. unfold piperead_byte at 1. rewrite (bind_Ret _ _ s1 (ld32 (k_mem s1) (pi_nread pi)) s1) by done. rewrite (bind_Ret _ _ s1 (ld32 (k_mem s1) (pi_nwrite pi)) s1) by done.
      rewrite (pipe_empty _ _ _ Hq1). change (Z.of_nat (length (@nil Z)) =? 0) with true. cbv iota. obind_ret. exists (k_mem s1). split; [done|]. split; [done|]. split; [apply Hst|]. by rewrite (Eend s1).
    + assert (user_addr (k_mem s) T (addr + Z.of_nat (length cs)) = None) as Hnone by (destruct Hstop as [?|[?|?] ]; done).
      apply Forall_cons in HFq as [Hc _].
      destruct (piperead_byte_ok s0 s1 c q addr n (Z.of_nat (length cs)) Hs0 Hd Hst Hq1 Hc ltac:(lia) Ha Hend) as (s2 & Hst2 & Hq2 & Hb).
      change (k_mem s0) with (k_mem s) in Hb. rewrite Hnone in Hb. destruct Hb as [Eb Hf]. rret Eb. obind_ret. cbn [tail].
      exists (k_mem s2). split; [done|]. split; [|split; [apply Hst2|by rewrite (Eend s2)] ].
      intros j x Hj. destruct (Hdel j x Hj) as (a & Ea & <-). exists a. split; [done|]. destruct (pt_user _ Hs _ _ Ea ltac:(lia)) as [Ha1 Ha2]. by apply Hf.
Qed.
End Pipe.

(** ** The claims *)

(** C15: [pipewrite] puts the bytes of its caller behind those in the pipe.  As many go in
    now as are asked for, as there is room for in the ring, and as user code can read;
    the counters may wrap around.  When these are all bytes, or the next one cannot be
    read, it wakes the readers, gives the lock back and answers their number.  When the
    ring is full it wakes the readers and goes to sleep on the pipe, having given up the
    lock; but with no reader left, or killed, it answers -1 and gives the lock back.
    Nothing else in the kernel or in the memory but a local byte changes. *)
Theorem pipewrite_spec `{KernelData} `{WaitFuel} h me p T pi s q bs addr n :
  pipe_env h me p T pi -> pipe_start me p T pi s -> at_lvl h 0 [] (k_hw s) -> pipe_rep (k_mem s) pi q ->
  0 <= addr -> 0 <= n -> addr + n < 2 ^ 64 -> fits_now T (k_mem s) q bs addr n ->
  exists m', pipe_rep m' pi (q ++ bs) /\ (forall a, ~ in_ring pi a -> a <> local_ch -> ld8 m' a = ld8 (k_mem s) a) /\
    let awake := map (wake (ChPipeRead pi)) (k_procs s) in
    if decide (Z.of_nat (length bs) = n \/ Z.of_nat (length q) + Z.of_nat (length bs) < PIPESIZE) then
      pipewrite pi addr n s = Ret (Z.of_nat (length bs)) (set_k_hw (held_hw 0 [] h) (set_k_procs awake (set_k_mem m' s)))
    else if (ld32 (k_mem s) (pi_readopen pi) =? 0) || negb (p_killed p =? 0) then
      pipewrite pi addr n s = Ret (-1) (set_k_hw (held_hw 0 [] h) (set_k_mem m' s))
    else exists k, pipewrite pi addr n s = Switch (set_k_hw (held_hw 0 [LkProc me] (with_ie 0 h))
      (set_k_procs (<[me := asleep (ChPipeWrite pi) p]> awake) (set_k_mem m' s))) k.
Proof. intros He. by apply pipewrite_ok. Qed.

(** C16: [piperead] takes bytes from the front of the pipe, in their order.  An empty pipe
    that still has a writer puts the reader to sleep on the pipe, or answers -1 when it
    has been killed.  Otherwise as many bytes go out as are asked for, as there are, and
    as user code has memory for: they arrive at the caller's address, the writers are
    woken, the lock is given back and the answer is their number, 0 at the end of the
    stream.  A byte that user code has no memory for is gone from the pipe all the same. *)
Theorem piperead_spec `{KernelData} `{WaitFuel} h me p T pi s cs q addr n :
  pipe_env h me p T pi -> pipe_start me p T pi s -> at_lvl h 0 [] (k_hw s) -> dest_ok T (k_mem s) addr n -> pipe_rep (k_mem s) pi (cs ++ q) ->
  0 <= addr -> 0 <= n -> addr + n < 2 ^ 64 -> takes_now T (k_mem s) cs q addr n ->
  if (Z.of_nat (length (cs ++ q)) =? 0) && negb (ld32 (k_mem s) (pi_writeopen pi) =? 0) then
    if negb (p_killed p =? 0) then piperead pi addr n s = Ret (-1) (set_k_hw (held_hw 0 [] h) s)
    else exists k, piperead pi addr n s = Switch (set_k_hw (held_hw 0 [LkProc me] (with_ie 0 h)) (set_k_procs (<[me := asleep (ChPipeRead pi) p]> (k_procs s)) s)) k
  else exists m', pipe_rep m' pi (if Z.of_nat (length cs) =? n then q else tail q) /\ delivered T (k_mem s) m' addr cs /\
    (forall a, ~ in_ring pi a -> a <> local_ch -> ~ dest T (k_mem s) addr n a -> ld8 m' a = ld8 (k_mem s) a) /\
    piperead pi addr n s = Ret (Z.of_nat (length cs)) (set_k_hw (held_hw 0 [] h) (set_k_procs (map (wake (ChPipeWrite pi)) (k_procs s)) (set_k_mem m' s))).
Proof. intros He. by apply piperead_ok. Qed.
