(* ===== verification/Syscall.v ===== *)
(** * System call dispatch: kernel/syscall/syscall.c *)

From S2P Require Import Prelude Hart VmSystem Mem Str Kalloc PageTable UserCopy State Sleep CpuMessage ProcGroup Kprint Uvm Bio Log Fs File Loader Process Sysfile.

Section Syscall.
Context `{KernelData} `{WaitFuel}.

Definition arg (proc : nat) (i : Z) : M kst Z := p ← read_proc proc; get_arg_n (p_trap_frame p) i.

Definition kernelbreak : M kst Z := mret (u64 (-1)).
Definition syscall_kernelbreak (proc : nat) : M kst Z := kernelbreak.
Definition syscall_sleep (proc : nat) : M kst Z := a ← arg proc 0; proc_sys_sleep (i32 a).
Definition syscall_sbrk (proc : nat) : M kst Z := a ← arg proc 0; sbrk proc a.
Definition syscall_fork (proc : nat) : M kst Z := fork proc.

(** [argv] is the address of the array of pointers, [str_in_argv] of the strings;
    the answer is -1 or [argc]. *)
Definition copy_in_argv (proc : nat) (argv_uva argv str_in_argv : Z) : M kst (option Z) :=
  p ← read_proc proc;
  r ← for_loop (Z.to_nat ARGVN) 0 (fun i =>
        err ← kmdo (copy_in (p_pgtable p) (u64 (argv_uva + 8 * i)) (argv + 8 * i) 8);
        if negb (err =? 0) then mret (Some None) else
        a ← kld64 (argv + 8 * i);
        mret (if a =? 0 then Some (Some i) else None));
  match r with
  | Some None => mret None
  | _ =>
      let argc := match r with Some (Some i) => i | _ => 0 end in
      last ← kld64 (argv + 8 * (ARGVN - 1));
      if negb (last =? 0) then mret None else
      r ← for_loop (Z.to_nat argc) 0 (fun i =>
            a ← kld64 (argv + 8 * i);
            err ← kmdo (copy_in_str (p_pgtable p) a (str_in_argv + ARGV_STR_LEN * i) ARGV_STR_LEN);
            if negb (err =? 0) then mret (Some tt) else
            kst64 (argv + 8 * i) (str_in_argv + ARGV_STR_LEN * i) ;;
            mret None);
      mret (match r with Some _ => None | None => Some argc end)
  end.

(** The [err] of the last line is the one declared first: the branch with arguments
    assigns [exec]'s answer to a variable of its own. *)
Definition syscall_exec (proc : nat) : M kst Z :=
  let total_size := MAXPATH + ARGVN * ARGV_STR_LEN + 8 * ARGVN in
  if total_size >? PGSIZE then panic "syscall_exec: exec possible args are too big" else
  page ← kmdo kalloc;
  if page =? NULL then mret (u64 (-1)) else
  let file := page in
  let str_in_argv := file + MAXPATH in
  let argv := str_in_argv + ARGVN * ARGV_STR_LEN in
  kmemset page 0 total_size ;;
  file_pchar_uva ← arg proc 0;
  argv_uva ← arg proc 1;
  p ← read_proc proc;
  err ← kmdo (copy_in_str (p_pgtable p) file_pchar_uva file MAXPATH);
  if negb (err =? 0) then kmdo (kfree page) ;; mret (u64 (-1)) else
  r ← (if argv_uva =? NULL then
         err ← exec proc file 0 NULL NULL; mret (Some (i32 err))
       else
         a ← copy_in_argv proc argv_uva argv str_in_argv;
         match a with
         | None => mret None
         | Some argc => _ ← exec proc file argc argv str_in_argv; mret (Some err)
         end);
  match r with
  | None => kmdo (kfree page) ;; mret (u64 (-1))
  | Some err =>
      kmdo (kfree page) ;;
      if negb (err =? 0) then mret (u64 (-1)) else
      p ← read_proc proc; kld64 (p_trap_frame p + TF_a0)
  end.

Definition syscall_getpid (proc : nat) : M kst Z := p ← read_proc proc; mret (u64 (p_pid p)).
Definition syscall_exit (proc : nat) : M kst Z := a ← arg proc 0; exit proc a ;; mret 0.
Definition syscall_wait (proc : nat) : M kst Z := a ← arg proc 0; wait proc a.
Definition syscall_kill (proc : nat) : M kst Z := a ← arg proc 0; kill (i32 a).
Definition syscall_brk (proc : nat) : M kst Z := a ← arg proc 0; brk proc a.

(** [ticks] is copied out from the slot [local_st]. *)
Definition syscall_time (proc : nat) : M kst Z :=
  uva ← arg proc 0;
  ticks ← get_ticks;
  (if negb (uva =? NULL) then
     p ← read_proc proc;
     kst64 local_st ticks ;;
     _ ← kmdo (copyout (p_pgtable p) uva local_st 8); mret tt
   else mret tt) ;;
  mret ticks.

Definition syscall_get_pg_id (proc : nat) : M kst Z := v ← get_pgroup_id; mret (u64 v).
Definition syscall_create_pg (proc : nat) : M kst Z := v ← create_pgroup; mret (u64 v).
Definition syscall_enter_pg (proc : nat) : M kst Z := a ← arg proc 0; v ← enter_pgroup (i32 a); mret (u64 v).
Definition syscall_get_pg_cpus (proc : nat) : M kst Z := v ← pgroup_cpu_count; mret (u64 v).
Definition syscall_inc_pg_cpus (proc : nat) : M kst Z := v ← inc_pgroup_cpus; mret (u64 v).
Definition syscall_dec_pg_cpus (proc : nat) : M kst Z := v ← dec_pgroup_cpus; mret (u64 v).
Definition syscall_pg_procs_count (proc : nat) : M kst Z := v ← pgroup_procs_count; mret (u64 v).
Definition syscall_proc_occupy_cpu (proc : nat) : M kst Z := v ← proc_occupy_cpu; mret (u64 v).
Definition syscall_proc_release_cpu (proc : nat) : M kst Z := v ← proc_release_cpu; mret (u64 v).
Definition syscall_inc_pg_cpus_flex (proc : nat) : M kst Z := v ← inc_pgroup_cpus_flex; mret (u64 v).

Definition SYSCALL_MAX_ID : Z := 22.
Definition SYSCALL_PG_START_ID : Z := 100.
Definition SYSCALL_PG_MAX_ID : Z := SYSCALL_PG_START_ID + 9.
Definition SYSCALL_DB_COUNT_PROC_NUM : Z := 1000.

(** The file-system calls ignore their argument. *)
Definition syscall_table : list (nat -> M kst Z) :=
  [ syscall_kernelbreak; syscall_sleep; syscall_sbrk; syscall_fork; syscall_exec;
    syscall_getpid; syscall_exit; syscall_wait; syscall_kill; syscall_brk; syscall_time;
    (fun _ => sys_dup); (fun _ => sys_read); (fun _ => sys_write); (fun _ => sys_close);
    (fun _ => sys_fstat); (fun _ => sys_link); (fun _ => sys_unlink); (fun _ => sys_open);
    (fun _ => sys_mkdir); (fun _ => sys_mknod); (fun _ => sys_chdir); (fun _ => sys_pipe) ].

Definition syscall_pg_table : list (nat -> M kst Z) :=
  [ syscall_get_pg_id; syscall_create_pg; syscall_enter_pg; syscall_get_pg_cpus;
    syscall_inc_pg_cpus; syscall_dec_pg_cpus; syscall_pg_procs_count; syscall_proc_occupy_cpu;
    syscall_proc_release_cpu; syscall_inc_pg_cpus_flex ].

Definition set_ret (proc : nat) (tf v : Z) : M kst Z := kst64 (tf + TF_a0) v ;; mret 0.

Definition handle_db_syscall (proc : nat) (syscall_id : Z) : M kst Z :=
  if syscall_id =? SYSCALL_DB_COUNT_PROC_NUM then
    ret_val ← count_proc_num;
    p ← read_proc proc;
    set_ret proc (p_trap_frame p) (u64 ret_val)
  else
    kprintf (bytes "unexpect syscall id: %d" ++ [10]) [KInt (i32 syscall_id)] ;;
    mret (-1).

(** Where a number leads: a table and an index, or the debug calls. *)
Definition syscall_route (syscall_id : Z) : option (list (nat -> M kst Z) * Z) :=
  if (syscall_id >=? SYSCALL_PG_START_ID) && (syscall_id <=? SYSCALL_PG_MAX_ID)
  then Some (syscall_pg_table, syscall_id - SYSCALL_PG_START_ID)
  else if syscall_id <=? SYSCALL_MAX_ID then Some (syscall_table, syscall_id)
  else None.

Definition handle_syscall (proc : nat) : M kst Z :=
  p ← read_proc proc;
  let tf := p_trap_frame p in
  syscall_id ← get_arg_n tf 7;
  match syscall_route syscall_id with
  | None => handle_db_syscall proc syscall_id
  | Some (syscalls, i) =>
      f ← lift_opt (syscalls !! Z.to_nat i);
      ret_val ← f proc;
      set_ret proc tf ret_val
  end.

End Syscall.
