(* ===== verification/SyscallSpec.v ===== *)
(** * System calls that do not exist

    A number that leads to no table and is not the debug call: [handle_syscall] prints it
    and answers -1. *)

From S2P Require Import Prelude Hart VmSystem Mem Kalloc State Critical Sleep SleepSpec Uart UartSpec Kprint Process Sysfile Syscall.

Section Print.
Context (h : hw) (Hwf : hw_wf h) (k : nat) (L : list lock_id).

(** [s'] is [s] after [l] has been sent to the console. *)
Definition printed (l : list Z) (s s' : kst) : Prop :=
  at_lvl h k L (k_hw s') /\ set_k_hw (k_hw s) (set_k_con (k_con s) s') = s /\
  ud_tx (cs_dev (k_con s')) = map u8 (rev l) ++ ud_tx (cs_dev (k_con s)) /\
  ud_room (cs_dev (k_con s')) = (ud_room (cs_dev (k_con s)) - length l)%nat.

Lemma printed_app l l' s s1 s2 : printed l s s1 -> printed l' s1 s2 -> printed (l ++ l') s s2.
Proof.
  intros (_ & F1 & T1 & R1) (H2 & F2 & T2 & R2). split; [done|].
  rewrite T2, T1, R2, R1, rev_app_distr, map_app, length_app, app_assoc. split_and!; [|done|lia].
  rewrite <- F1 at 3. rewrite <- F2. by destruct s2 as [[] ].
Qed.
Lemma printed_nil s : at_lvl h k L (k_hw s) -> printed [] s s.
Proof. intros Hs. split; [done|]. split_and!; [by destruct s as [[] ]|done|cbn; lia]. Qed.
Lemma putc_printed c s : at_lvl h k L (k_hw s) -> (0 < ud_room (cs_dev (k_con s)))%nat ->
  exists s', console_kputc c s = Ret tt s' /\ printed [c] s s'.
Proof.
  intros Hs Hr. eexists. split; [by apply (kputc_eq h k L Hwf)|].
  split; [by left|]. split_and!; [by destruct s as [[] ]|done|cbn; lia].
Qed.
Lemma kputs_printed l : forall s, at_lvl h k L (k_hw s) -> (length l <= ud_room (cs_dev (k_con s)))%nat ->
  exists s', kputs l s = Ret tt s' /\ printed l s s'.
Proof.
  induction l as [|c l IH]; intros s Hs Hr; cbn [kputs length] in *; [exists s; split; [done|by apply printed_nil]|].
  destruct (putc_printed c s Hs ltac:(lia)) as (s1 & E1 & H1). rret E1. pose proof H1 as (Hs1 & _ & _ & R1). cbn in R1.
  destruct (IH s1 Hs1 ltac:(lia)) as (s' & E & H2). exists s'. split; [done|]. by apply (printed_app [c] l s s1).
Qed.

Lemma kprintf_char c fmt args : c <> 37 -> kprintf_loop (c :: fmt) args = (console_kputc c ;; kprintf_loop fmt args).
Proof. intros Hc. destruct c as [|c|c]; try done. do 6 (destruct c as [c|c|]; try done). Qed.

(** The characters of a format before its first percent sign. *)
Lemma kprintf_plain pre fmt args : Forall (fun c => c <> 37) pre -> forall s,
  at_lvl h k L (k_hw s) -> (length pre <= ud_room (cs_dev (k_con s)))%nat ->
  exists s', kprintf_loop (pre ++ fmt) args s = kprintf_loop fmt args s' /\ printed pre s s'.
Proof.
  induction 1 as [|c pre Hc _ IH]; intros s Hs Hr; cbn [length app] in *; [exists s; split; [done|by apply printed_nil]|].
  rewrite (kprintf_char c _ _ Hc). destruct (putc_printed c s Hs ltac:(lia)) as (s1 & E1 & H1). rret E1.
  pose proof H1 as (Hs1 & _ & _ & R1). cbn in R1.
  destruct (IH s1 Hs1 ltac:(lia)) as (s' & E & H2). exists s'. split; [done|]. by apply (printed_app [c] pre s s1).
Qed.

(** A number and a line feed behind a text. *)
Lemma kprintf_number pre x s : Forall (fun c => c <> 37) pre -> - 2 ^ 31 < x < 2 ^ 31 ->
  at_lvl h k L (k_hw s) -> (length pre + 17 <= ud_room (cs_dev (k_con s)))%nat ->
  exists num s', kprintf_loop (pre ++ [37; 100; 10]) [KInt x] s = Ret tt s' /\ parse_int 10 num = Some x /\
    printed (pre ++ num ++ [10]) s s'.
Proof.
  intros Hpre Hx Hs Hr. destruct (kprintf_plain pre [37; 100; 10] [KInt x] Hpre s Hs ltac:(lia)) as (s1 & -> & H1).
  pose proof H1 as (Hs1 & _ & _ & R1).
  destruct (printint_buf_ok x 10 Hx ltac:(lia)) as (out & Eo & Hl & _ & Hp). unfold PRINT_BUF in Hl.
  destruct (kputs_printed (rev out) s1 Hs1) as (s2 & E2 & H2); [rewrite length_rev; lia|].
  pose proof H2 as (Hs2 & _ & _ & R2). rewrite length_rev in R2.
  destruct (putc_printed 10 s2 Hs2 ltac:(lia)) as (s3 & E3 & H3).
  exists (rev out), s3. split; [|split; [done|eapply printed_app; [done|]; by eapply printed_app]].
  assert (printint x 10 1 s1 = Ret tt s2) as Ep by (unfold printint; by rewrite Eo).
  cbn [kprintf_loop Z.eqb Pos.eqb orb next_arg]. rewrite bind_mret. cbn beta iota. rret Ep. by rret E3.
Qed.
End Print.

(** A call with a number that leads nowhere prints the number and answers -1; nothing but
    the console changes, in particular nothing is stored for the caller. *)
Theorem unknown_syscall `{KernelData} `{WaitFuel} h proc p s :
  hw_wf h -> at_lvl h 0 [] (k_hw s) -> hw_locks h !! LkKprintf = Some free_lock -> k_procs s !! proc = Some p ->
  let id := ld64 (k_mem s) (p_trap_frame p + TF_a0 + 8 * 7) in
  syscall_route id = None -> id <> SYSCALL_DB_COUNT_PROC_NUM -> - 2 ^ 31 < i32 id ->
  (64 <= ud_room (cs_dev (k_con s)))%nat ->
  exists s' num, handle_syscall proc s = Ret (-1) s' /\ k_hw s' = held_hw 0 [] h /\
    set_k_hw (k_hw s) (set_k_con (k_con s) s') = s /\ parse_int 10 num = Some (i32 id) /\
    ud_tx (cs_dev (k_con s')) = map u8 (rev (bytes "unexpect syscall id: " ++ num ++ [10])) ++ ud_tx (cs_dev (k_con s)).
Proof.
  intros Hwf Hs Hl Hp id Hroute Hdb Hid Hroom.
  set (s0 := set_k_hw (held_hw 0 [LkKprintf] h) s).
  destruct (kprintf_number h Hwf 0 [LkKprintf] (bytes "unexpect syscall id: ") (i32 id) s0) as (num & s1 & E1 & Hnum & Hs1 & F1 & T1 & _);
    [by apply (bool_decide_unpack _)|split; [done|unfold i32; lia]|by left|cbn; cbn in Hroom; lia|].
  assert (acquire LkKprintf s = Ret tt s0) as Eacq by (apply (acquire_lvl h Hwf 0 [] LkKprintf s Hs Hl), not_elem_of_nil).
  assert (k_hw s1 = held_hw 0 [LkKprintf] h) as Eh by (by destruct Hs1 as [?|(_ & ? & _)]).
  exists (set_k_hw (held_hw 0 [] h) s1), num. split.
  - unfold handle_syscall. rret (read_proc_Ret proc p s Hp). cbv zeta.
    assert (get_arg_n (p_trap_frame p) 7 s = Ret id s) as E by done. rret E. rewrite Hroute.
    unfold handle_db_syscall. rewrite (proj2 (Z.eqb_neq _ _) Hdb). unfold kprintf.
    rewrite (bind_Ret _ _ _ tt (set_k_hw (held_hw 0 [] h) s1)); [done|].
    change (bytes "unexpect syscall id: %d" ++ [10]) with (bytes "unexpect syscall id: " ++ [37; 100; 10]).
    rewrite (bind_Ret _ _ _ _ _ Eacq). rewrite (bind_Ret _ _ _ _ _ E1).
    rewrite <- (at_hw_id s1) at 1. rewrite Eh. apply (release_top h Hwf 0 [] LkKprintf s1 Hl); [apply not_elem_of_nil|constructor].
  - split; [done|]. split; [|split; [done|exact T1]].
    transitivity (set_k_hw (k_hw s) s0); [rewrite <- F1; by destruct s1 as [[] ]|by destruct s as [[] ]].
Qed.
