(* ===== verification/Trap.v ===== *)
(** * Traps and interrupts

    kernel/trap/intr_handler.c (intr_handler), kernel/trap/kernel_trap.c,
    kernel/trap/user_trap_handler.c, include/riscv/plic.h, kernel/riscv/plic.c.  The
    state adds the trap registers of the hart and its context of the interrupt
    controller to the kernel with its disk.  The entry and exit code is assembler:
    a handler ends with the argument it gives to the exit code, [user_trap_ret_end]
    or [kernel_trap_ret_end]. *)

From S2P Require Import Prelude Hart VmSystem Mem Kalloc PageTable Kvm UserCopy State Sleep ProcGroup Uart Kprint Virtio Process Sysfile Syscall.

Definition SCAUSE_INTERRPUT_MASK : Z := Z.shiftl 1 63.
Definition SCAUSE_SSI : Z := Z.lor SCAUSE_INTERRPUT_MASK 1.
Definition SCAUSE_SEI : Z := Z.lor SCAUSE_INTERRPUT_MASK 9.
Definition SCAUSE_ECALL_FROM_U : Z := 8.
Definition UART_IRQ : Z := 10.
Definition VIRTIO0_IRQ : Z := 1.
Definition XIP_SSIP : Z := Z.shiftl 1 1.
Definition PLIC_I_SOURCE_ENABLE (src : Z) : Z := PLIC_BASE + src * 4.
Definition PLIC_S_I_ENABLE (hart : Z) : Z := PLIC_BASE + 0x2080 + hart * 0x100.
Definition PLIC_S_PRIORITY (hart : Z) : Z := PLIC_BASE + 0x201000 + hart * 0x2000.
Definition PLIC_S_CLAIM (hart : Z) : Z := PLIC_BASE + 0x201004 + hart * 0x2000.

(** [t_irqs] is what the claim register will show, one interrupt per read and then 0;
    [t_plic] the writes to the controller, the last one first. *)
Record tst := mk_tst {
  t_v : vst;
  t_scause : Z; t_stval : Z; t_sepc : Z; t_sip : Z;
  t_sscratch : Z; t_stvec : Z;
  t_irqs : list Z;
  t_plic : list (Z * Z);
  t_panicked : Z }.

Definition set_t_v (v : vst) (t : tst) : tst :=
  mk_tst v (t_scause t) (t_stval t) (t_sepc t) (t_sip t) (t_sscratch t) (t_stvec t) (t_irqs t) (t_plic t) (t_panicked t).
Definition set_t_sepc (x : Z) (t : tst) : tst :=
  mk_tst (t_v t) (t_scause t) (t_stval t) x (t_sip t) (t_sscratch t) (t_stvec t) (t_irqs t) (t_plic t) (t_panicked t).
Definition set_t_sip (x : Z) (t : tst) : tst :=
  mk_tst (t_v t) (t_scause t) (t_stval t) (t_sepc t) x (t_sscratch t) (t_stvec t) (t_irqs t) (t_plic t) (t_panicked t).
Definition set_t_sscratch (x : Z) (t : tst) : tst :=
  mk_tst (t_v t) (t_scause t) (t_stval t) (t_sepc t) (t_sip t) x (t_stvec t) (t_irqs t) (t_plic t) (t_panicked t).
Definition set_t_stvec (x : Z) (t : tst) : tst :=
  mk_tst (t_v t) (t_scause t) (t_stval t) (t_sepc t) (t_sip t) (t_sscratch t) x (t_irqs t) (t_plic t) (t_panicked t).
Definition set_t_irqs (x : list Z) (t : tst) : tst :=
  mk_tst (t_v t) (t_scause t) (t_stval t) (t_sepc t) (t_sip t) (t_sscratch t) (t_stvec t) x (t_plic t) (t_panicked t).
Definition set_t_plic (x : list (Z * Z)) (t : tst) : tst :=
  mk_tst (t_v t) (t_scause t) (t_stval t) (t_sepc t) (t_sip t) (t_sscratch t) (t_stvec t) (t_irqs t) x (t_panicked t).

Definition t_vL : lens tst vst := Lens t_v set_t_v.
#[export] Instance t_vL_laws : LensLaws t_vL.
Proof. split; by intros; repeat match goal with t : tst |- _ => destruct t end. Qed.
Definition vdo {A} (m : M vst A) : M tst A := zoom t_vL m.
Definition tkdo {A} (m : M kst A) : M tst A := vdo (kdo m).

(** ** The interrupt controller *)

Definition write_plic (a v : Z) : M tst unit := modify (fun t => set_t_plic ((a, v) :: t_plic t) t).

Definition plic_init : M tst unit :=
  write_plic (PLIC_I_SOURCE_ENABLE UART_IRQ) 1 ;;
  write_plic (PLIC_I_SOURCE_ENABLE VIRTIO0_IRQ) 1.

Definition plic_init_hart : M tst unit :=
  id ← tkdo (hwdo cpu_id);
  write_plic (PLIC_S_I_ENABLE id) (Z.lor (Z.shiftl 1 UART_IRQ) (Z.shiftl 1 VIRTIO0_IRQ)) ;;
  id ← tkdo (hwdo cpu_id);
  write_plic (PLIC_S_PRIORITY id) 0.

Definition plic_claim : M tst Z :=
  _ ← tkdo (hwdo cpu_id);
  irqs ← gets t_irqs;
  match irqs with
  | [] => mret 0
  | irq :: irqs' => modify (set_t_irqs irqs') ;; mret irq
  end.

Definition plic_complete (irq : Z) : M tst unit :=
  id ← tkdo (hwdo cpu_id); write_plic (PLIC_S_CLAIM id) irq.

Section Trap.
Context `{KernelData} `{WaitFuel} `{DiskData}.

(** ** kernel/trap/intr_handler.c *)

Definition intr_init : M tst unit := tkdo (hwdo (init_spin_lock LkTick)).

Definition tick : M kst unit :=
  acquire LkTick ;;
  modify (fun s => set_k_ticks (u64 (k_ticks s + 1)) s) ;;
  wake_up ChTick ;;
  release LkTick.

Definition intr_handler (scause : Z) : M tst unit :=
  if scause =? SCAUSE_SEI then
    irq ← plic_claim;
    (if irq =? UART_IRQ then tkdo uart_intr
     else if irq =? VIRTIO0_IRQ then vdo virtio_disk_intr
     else when (negb (irq =? 0)) (tkdo (kprintf (bytes "unexpect irq: %d" ++ [10]) [KInt (i32 irq)]))) ;;
    when (negb (irq =? 0)) (plic_complete irq)
  else if scause =? SCAUSE_SSI then
    modify (fun t => set_t_sip (Z.land (t_sip t) (Z.lnot XIP_SSIP)) t) ;;
    id ← tkdo (hwdo cpu_id);
    when (id =? 0) (tkdo tick) ;;
    me ← tkdo (hwdo my_proc);
    match me with
    | None => mret tt
    | Some _ =>
        proc ← tkdo cur_proc;
        ex ← tkdo (is_exclusive_occupy proc);
        if negb (ex =? 0) then mret tt else tkdo (yield RUNABLE)
    end
  else
    t ← get;
    tkdo (kprintf (bytes "unexpect intrrupt:" ++ [10] ++ bytes " scause: %p" ++ [10] ++ bytes " stval: %p" ++ [10])
      [KPtr scause; KPtr (t_stval t)]).

(** ** kernel/trap/kernel_trap.c *)

Definition kernel_trap_init_hart : M tst unit :=
  id ← tkdo (hwdo cpu_id);
  when (id =? 0) intr_init ;;
  modify (set_t_stvec kernel_trap_entry) ;;
  tkdo (hwdo (w_sie (Z.lor XIE_SSIE XIE_SEIE))).

(** The argument of [kernel_trap_ret_end]. *)
Definition kernel_trap_ret (origin_sp sepc : Z) : M tst Z :=
  sst ← tkdo (hwdo (gets hw_sstatus));
  tkdo (hwdo (w_sstatus (Z.lor (Z.lor sst XSTATUS_SPP) XSTATUS_SPIE))) ;;
  modify (set_t_sepc sepc) ;;
  mret origin_sp.

Definition kernel_trap_handler : M tst Z :=
  origin_sp ← gets t_sscratch;
  sepc ← gets t_sepc;
  sst ← tkdo (hwdo (gets hw_sstatus));
  if Z.land sst XSTATUS_SPP =? 0 then panic "trap not from kernel" else
  scause ← gets t_scause;
  (if negb (Z.land scause SCAUSE_INTERRPUT_MASK =? 0) then intr_handler scause
   else
     t ← get;
     tkdo (kprintf (bytes "unexpect exception from kernel:" ++ [10] ++ bytes " scause: %p" ++ [10] ++
       bytes " stval: %p" ++ [10] ++ bytes " spec: %p" ++ [10]) [KPtr (t_scause t); KPtr (t_stval t); KPtr (t_sepc t)]) ;;
     panic "kernel trap") ;;
  kernel_trap_ret origin_sp sepc.

(** ** kernel/trap/user_trap_handler.c *)

(** The argument of [user_trap_ret_end]. *)
Definition user_trap_ret : M tst Z :=
  tkdo (hwdo introff) ;;
  proc ← tkdo cur_proc;
  sst ← tkdo (hwdo (gets hw_sstatus));
  tkdo (hwdo (w_sstatus (Z.land (Z.lor sst XSTATUS_SPIE) (Z.lnot XSTATUS_SPP)))) ;;
  ex ← tkdo (is_exclusive_occupy proc);
  tkdo (hwdo (if negb (ex =? 0) then enable_soft_intr else enable_soft_n_external_intr)) ;;
  p ← tkdo (read_proc proc);
  sepc ← tkdo (kld64 (p_trap_frame p + TF_sepc));
  modify (set_t_sepc sepc) ;;
  modify (set_t_stvec (GET_TRAMPOLINE_FN_VA user_trap_entry)) ;;
  modify (set_t_sscratch TRAPFRAME_BASE) ;;
  id ← tkdo (hwdo cpu_id);
  tkdo (kst64 (p_trap_frame p + TF_cpu_id) id) ;;
  mret (MAKE_SATP (p_pgtable p)).

Definition user_trap_handler : M tst Z :=
  proc ← tkdo cur_proc;
  scause ← gets t_scause;
  killed ← (if scause =? SCAUSE_ECALL_FROM_U then
      p ← tkdo (read_proc proc);
      sepc ← tkdo (kld64 (p_trap_frame p + TF_sepc));
      tkdo (kst64 (p_trap_frame p + TF_sepc) (u64 (sepc + 4))) ;;
      tkdo (hwdo intron) ;;
      err ← tkdo (handle_syscall proc);
      mret (negb (err =? 0))
    else if negb (Z.land scause SCAUSE_INTERRPUT_MASK =? 0) then intr_handler scause ;; mret false
    else
      t ← get;
      p ← tkdo (read_proc proc);
      tkdo (kprintf (bytes "unexpect exception from user:" ++ [10] ++ bytes "    scause: %p stval: %p" ++ [10] ++
        bytes "    spec: %p pid: %d" ++ [10]) [KPtr scause; KPtr (t_stval t); KPtr (t_sepc t); KInt (p_pid p)]) ;;
      mret true);
  p ← tkdo (read_proc proc);
  when (killed || negb (p_killed p =? 0)) (tkdo (exit proc (-1))) ;;
  t ← get;
  if negb (t_panicked t =? 0) then spin else
  user_trap_ret.
End Trap.
