(* ===== verification/Boot.v ===== *)
(** * From the entry of the kernel to the scheduler: kernel/main.c, kernel/vm/kvm.c (kvm_init_hart), kernel/util/kprint.c (panic_2str)

    A hart's state with the kernel it shares: the trap state of file Trap, [satp] and
    [kernel_init_finish].  Hart 0 sets the kernel up and then lets the others go; every
    hart ends in the scheduler's loop. *)

From S2P Require Import Prelude Hart VmSystem Mem Kalloc PageTable Kvm State Sleep ProcGroup Scheduler Uart Kprint Virtio Bio Log Fs File Loader Process Trap.

Record bst := mk_bst { b_t : tst; b_satp : Z; b_finish : Z }.
Definition set_b_t (t : tst) (s : bst) : bst := mk_bst t (b_satp s) (b_finish s).
Definition b_tL : lens bst tst := Lens b_t set_b_t.
#[export] Instance b_tL_laws : LensLaws b_tL.
Proof. split; by intros; repeat match goal with s : bst |- _ => destruct s end. Qed.
Definition tdo {A} (m : M tst A) : M bst A := zoom b_tL m.
Definition bkdo {A} (m : M kst A) : M bst A := tdo (tkdo m).

(** What [panic_2str] does before its endless loop: only the first panic prints. *)
Definition panic_print (s1 s2 : list Z) : M tst unit :=
  p ← gets t_panicked;
  if p =? 0 then
    modify (fun t => mk_tst (t_v t) (t_scause t) (t_stval t) (t_sepc t) (t_sip t) (t_sscratch t) (t_stvec t) (t_irqs t) (t_plic t) 1) ;;
    tkdo (kprintf (bytes "panic: %s%s" ++ [10]) [KStr (Some s1); KStr (Some s2)])
  else mret tt.
Definition panic_2str (s1 s2 : list Z) : M tst unit := panic_print s1 s2 ;; spin.

Section Boot.
Context `{KernelData} `{WaitFuel} `{DiskData}.

(** The image of the first program. *)
Variables (init_code_binary init_code_binary_size : Z).

Definition kvm_init_hart : M bst unit := modify (fun s => mk_bst (b_t s) (MAKE_SATP kernel_page_table) (b_finish s)).

Definition hart_start : M bst unit :=
  id ← bkdo (hwdo cpu_id); bkdo (kprintf (bytes "hart %d start" ++ [10]) [KInt (i32 id)]).

(** [kernel_page_table] is the root that [kvm_init] answers. *)
Definition main_hart0 (fuel : nat) : M bst unit :=
  bkdo (hwdo init_cpus) ;;
  bkdo (hwdo init_my_cpu) ;;
  bkdo console_init ;;
  bkdo kprintf_init ;;
  bkdo (kprintf (bytes "myv6 starts booting" ++ [10]) []) ;;
  hart_start ;;
  bkdo (kmdo (kalloc_init fuel)) ;;
  root ← bkdo (kmdo kvm_init);
  if negb (root =? kernel_page_table) then undef else
  kvm_init_hart ;;
  bkdo binit ;;
  bkdo iinit ;;
  bkdo fileinit ;;
  tdo (vdo virtio_disk_init) ;;
  bkdo process_init ;;
  bkdo proc_group_init ;;
  bkdo (setup_init_proc init_code_binary init_code_binary_size) ;;
  tdo plic_init ;;
  tdo plic_init_hart ;;
  tdo kernel_trap_init_hart ;;
  modify (fun s => mk_bst (b_t s) (b_satp s) 1).

(** One look of another hart at [kernel_init_finish]; the other harts write nothing
    before it is set. *)
Definition main_wait (fuel : nat) : M bst unit :=
  while_loop fuel tt (fun _ => f ← gets b_finish; if f =? 0 then mret (inl tt) else mret (inr tt)).

Definition main_other (fuel : nat) : M bst unit :=
  main_wait fuel ;;
  hart_start ;;
  bkdo (hwdo init_my_cpu) ;;
  bkdo proc_group_init_hart ;;
  kvm_init_hart ;;
  tdo plic_init_hart ;;
  tdo kernel_trap_init_hart.

(** [rounds] rounds of the scheduler's endless loop. *)
Definition scheduler (rounds : nat) : M bst unit :=
  bkdo (hwdo intron) ;;
  for_each rounds 0 (fun _ => _ ← bkdo scheduler_round; mret tt).

Definition kernel_main (fuel rounds : nat) : M bst unit :=
  id ← bkdo (hwdo cpu_id);
  (if id =? 0 then main_hart0 fuel else main_other fuel) ;;
  scheduler rounds.

(** Until hart 0 has finished, another hart does nothing but look. *)
Lemma main_wait_blocks fuel s : b_finish s = 0 -> main_wait fuel s = NoFuel.
Proof.
  intros Hf. unfold main_wait. induction fuel as [|fuel IH]; [done|]. rewrite while_S, bind_eq.
  rewrite (bind_Ret _ _ s (b_finish s) s) by done. rewrite Hf. exact IH.
Qed.
Lemma main_wait_passes fuel s : b_finish s <> 0 -> main_wait (S fuel) s = Ret tt s.
Proof.
  intros Hf. unfold main_wait. rewrite while_S, bind_eq. rewrite (bind_Ret _ _ s (b_finish s) s) by done. by rewrite (proj2 (Z.eqb_neq _ _)).
Qed.

(** What hart 0 does before it lets the others go leaves them waiting: the flag is set by
    its last step and by no other. *)
Lemma finish_tdo {A} (m : M tst A) s a s' : tdo m s = Ret a s' -> b_finish s' = b_finish s.
Proof.
  unfold tdo, zoom. change (lget b_tL s) with (b_t s). destruct (m (b_t s)); try done. by intros [= _ <-].
Qed.
End Boot.
