(* ===== verification/TrapSpec.v ===== *)
(** * From a system call back to the user program

    A call may sleep and be scheduled again any number of times; [resumed o ss] is how
    [o] ends when the machine has the states [ss] at those times. *)

From S2P Require Import Prelude Hart VmSystem Mem Kalloc PageTable UserCopy State Critical Sleep SleepSpec ProcGroup Uart Virtio VirtioSpec Process Sysfile Syscall Trap.

Fixpoint resumed {S A} (o : outcome S A) (ss : list S) : option (A * S) :=
  match o, ss with
  | Ret a s, [] => Some (a, s)
  | Switch _ k, s :: ss' => resumed (k s) ss'
  | _, _ => None
  end.

Lemma resumed_bind {S A B} (o : outcome S A) (f : A -> M S B) ss a s r :
  resumed o ss = Some (a, s) -> resumed (f a s) [] = Some r -> resumed (obind o f) ss = Some r.
Proof.
  intros Ho Hr. revert o Ho. induction ss as [|s1 ss IH]; intros [] Ho; try discriminate Ho; cbn [obind resumed] in *.
  - by injection Ho as -> ->.
  - by apply IH.
Qed.

Lemma last_from {A} (l : list A) : forall x d, List.last (x :: l) d = List.last l x.
Proof. induction l as [|y l IH]; intros x d; [done|]. by rewrite (IH y x), <- (IH y d). Qed.

Lemma resumed_zoom {S T A} (l : lens S T) `{!LensLaws l} (o : outcome T A) bs b a t :
  resumed o (map (lget l) bs) = Some (a, t) ->
  resumed (ozoom l o b) bs = Some (a, lset l t (List.last bs b)).
Proof.
  revert o b. induction bs as [|b1 bs IH]; intros [] b Ho; try discriminate Ho; cbn [ozoom resumed map List.last] in *.
  - by injection Ho as -> ->.
  - rewrite (IH _ b1 Ho). by rewrite <- (last_from bs b1 b).
Qed.

(** The kernel inside the trap state. *)
Definition tk (t : tst) : kst := v_k (t_v t).
Definition set_tk (s : kst) (t : tst) : tst := set_t_v (set_v_k s (t_v t)) t.

Lemma tkdo_Ret {A} (m : M kst A) t a s : m (tk t) = Ret a s -> tkdo m t = Ret a (set_tk s t).
Proof. intros H. unfold tkdo, vdo. apply zoom_Ret. by apply kdo_Ret. Qed.

Lemma tkdo_hw {A} (m : M hw A) t a h : m (k_hw (tk t)) = Ret a h -> tkdo (hwdo m) t = Ret a (set_tk (set_k_hw h (tk t)) t).
Proof. intros H. apply tkdo_Ret. by apply hwdo_Ret. Qed.

Lemma tk_id t : set_tk (tk t) t = t.
Proof. by destruct t as [[]]. Qed.

Lemma tkdo_read {A} (m : M kst A) t a : m (tk t) = Ret a (tk t) -> tkdo m t = Ret a t.
Proof. intros H. rewrite (tkdo_Ret m t a (tk t) H). by rewrite tk_id. Qed.

Lemma resumed_tkdo {A} (m : M kst A) t ts a s :
  resumed (m (tk t)) (map tk ts) = Some (a, s) ->
  resumed (tkdo m t) ts = Some (a, set_tk s (List.last ts t)).
Proof.
  intros H. unfold tkdo, vdo, zoom. pose proof (resumed_zoom v_kL (m (tk t)) (map t_v ts) (t_v t) a s) as H1.
  rewrite map_map in H1. specialize (H1 H).
  etransitivity; [exact (resumed_zoom t_vL _ ts t a _ H1)|]. cbn [lset t_vL v_kL]. unfold set_tk. do 4 f_equal.
  clear. revert t. induction ts as [|t1 ts IH]; intros t; [done|]. cbn [map]. rewrite !last_from. apply IH.
Qed.

(** ** Going back to user mode *)

Definition set_sstatus (x : Z) (h : hw) : hw := mk_hw (hw_tp h) x (hw_sie h) (hw_cpus h) (hw_locks h).
Definition set_sie (x : Z) (h : hw) : hw := mk_hw (hw_tp h) (hw_sstatus h) x (hw_cpus h) (hw_locks h).

(** What [sret] and the next trap go by: user mode with interrupts on at [pc], the next
    trap taken by [user_trap_entry] with the address of the trap frame. *)
Record to_user `{KernelImage} (pc : Z) (t : tst) : Prop := {
  tu_mode : Z.land (hw_sstatus (k_hw (tk t))) XSTATUS_SPP = 0;
  tu_intr : Z.land (hw_sstatus (k_hw (tk t))) XSTATUS_SPIE = XSTATUS_SPIE;
  tu_off : Z.land (hw_sstatus (k_hw (tk t))) XSTATUS_SIE = 0;
  tu_pc : t_sepc t = pc;
  tu_vec : t_stvec t = GET_TRAMPOLINE_FN_VA user_trap_entry;
  tu_frame : t_sscratch t = TRAPFRAME_BASE }.

Lemma user_bits sst :
  let x := Z.land (Z.lor (Z.land sst (Z.lnot XSTATUS_SIE)) XSTATUS_SPIE) (Z.lnot XSTATUS_SPP) in
  Z.land x XSTATUS_SPP = 0 /\ Z.land x XSTATUS_SPIE = XSTATUS_SPIE /\ Z.land x XSTATUS_SIE = 0.
Proof.
  cbv zeta. set (y := Z.land sst (Z.lnot XSTATUS_SIE)). rewrite <- !Z.land_assoc.
  change (Z.land (Z.lnot XSTATUS_SPP) XSTATUS_SPP) with 0.
  change (Z.land (Z.lnot XSTATUS_SPP) XSTATUS_SPIE) with XSTATUS_SPIE.
  change (Z.land (Z.lnot XSTATUS_SPP) XSTATUS_SIE) with XSTATUS_SIE.
  rewrite Z.land_0_r, !Z.land_lor_distr_l. change (Z.land XSTATUS_SPIE XSTATUS_SIE) with 0.
  rewrite Z.land_diag, Z.lor_0_r. split; [done|]. split; [|apply sie_cleared].
  apply Z.bits_inj'. intros i _. rewrite Z.lor_spec, Z.land_spec. by destruct (Z.testbit y i), (Z.testbit XSTATUS_SPIE i).
Qed.

Lemma introff_wf h : hw_wf h -> hw_wf (set_sstatus (Z.land (hw_sstatus h) (Z.lnot XSTATUS_SIE)) h).
Proof.
  intros [Htp (c & Hc & Hn & _)]. split; [done|]. exists c. split; [done|]. split; [done|]. intros _. apply sie_cleared.
Qed.

Lemma settle_sstatus h : hw_wf h -> hw_sstatus (settle h) = hw_sstatus h.
Proof. intros [_ (c & Hc & _)]. unfold settle, held_hw, nested. by rewrite Hc. Qed.

Section Back.
Context `{KD : KernelData}.

Lemma user_trap_ret_eq proc p g t :
  hw_wf (k_hw (tk t)) -> running (k_hw (tk t)) proc -> k_procs (tk t) !! proc = Some p ->
  k_groups (tk t) !! get_proc_group (p_pgroup_id p) = Some g ->
  exists t3, user_trap_ret t = Ret (MAKE_SATP (p_pgtable p)) t3 /\
    to_user (ld64 (k_mem (tk t)) (p_trap_frame p + TF_sepc)) t3 /\
    k_mem (tk t3) = st64 (k_mem (tk t)) (p_trap_frame p + TF_cpu_id) (hw_tp (k_hw (tk t))) /\
    hw_sie (k_hw (tk t3)) = (if g_exclusively_occupy g =? 0 then Z.lor XIE_SEIE XIE_SSIE else XIE_SSIE).
Proof.
  intros Hwf Hrun Hp Hg. set (h := k_hw (tk t)) in *. set (s := tk t) in *.
  set (h1 := set_sstatus (Z.land (hw_sstatus h) (Z.lnot XSTATUS_SIE)) h).
  pose proof (introff_wf h Hwf) as Hwf1. fold h1 in Hwf1. unfold user_trap_ret.
  rret (tkdo_hw introff t tt h1 eq_refl). set (t1 := set_tk (set_k_hw h1 s) t).
  pose proof (cur_proc_lvl h1 Hwf1 0 [] proc (tk t1) (at_lvl_0 h1) Hrun) as E1.
  rret (tkdo_Ret cur_proc t1 proc _ E1). set (h2 := held_hw 0 [] h1). set (t2 := set_tk _ t1).
  assert (hw_sstatus h2 = Z.land (hw_sstatus h) (Z.lnot XSTATUS_SIE)) as Hs2 by (unfold h2; fold (settle h1); by rewrite settle_sstatus).
  assert (hw_tp h2 = hw_tp h) as Ht2 by (unfold h2; fold (settle h1); by rewrite settle_tp).
  rret (tkdo_hw (gets hw_sstatus) t2 (hw_sstatus h2) h2 eq_refl). rewrite Hs2.
  set (x := Z.land (Z.lor _ XSTATUS_SPIE) _). set (t2' := set_tk (set_k_hw h2 (tk t2)) t2).
  rret (tkdo_hw (w_sstatus x) t2' tt (set_sstatus x h2) eq_refl). set (t3 := set_tk _ t2').
  assert (is_exclusive_occupy proc (tk t3) = Ret (g_exclusively_occupy g) (tk t3)) as E3.
  { unfold is_exclusive_occupy. rret (read_proc_Ret proc p (tk t3) Hp). by rret (read_group_Ret _ g (tk t3) Hg). }
  rret (tkdo_read _ t3 _ E3).
  set (ie := if g_exclusively_occupy g =? 0 then Z.lor XIE_SEIE XIE_SSIE else XIE_SSIE).
  assert ((if negb (g_exclusively_occupy g =? 0) then enable_soft_intr else enable_soft_n_external_intr) (k_hw (tk t3)) =
    Ret tt (set_sie ie (k_hw (tk t3)))) as E4 by (unfold ie; by destruct (g_exclusively_occupy g =? 0)).
  rret (tkdo_hw _ t3 tt _ E4). set (t4 := set_tk _ t3).
  rret (tkdo_read _ t4 p (read_proc_Ret proc p (tk t4) Hp)).
  rret (tkdo_read (kld64 (p_trap_frame p + TF_sepc)) t4 _ eq_refl).
  set (pc := ld64 (k_mem (tk t4)) (p_trap_frame p + TF_sepc)).
  rewrite !(bind_eq (modify _)). cbn [modify obind]. rewrite !(bind_eq (modify _)). cbn [modify obind].
  rewrite !(bind_eq (modify _)). cbn [modify obind].
  match goal with |- context [(tkdo (hwdo cpu_id) ≫= _) ?y] => set (t5 := y) end.
  destruct (user_bits (hw_sstatus h)) as (Hspp & Hspie & Hsie). fold x in Hspp, Hspie, Hsie.
  assert (k_hw (tk t5) = set_sie ie (set_sstatus x h2)) as Hh5 by done.
  assert (cpu_id (k_hw (tk t5)) = Ret (hw_tp h) (k_hw (tk t5))) as E5.
  { rewrite <- Ht2. rewrite cpu_id_off; [by rewrite Hh5|]. rewrite Hh5. exact Hsie. }
  rret (tkdo_hw cpu_id t5 _ _ E5). set (t6 := set_tk _ t5).
  rret (tkdo_Ret (kst64 (p_trap_frame p + TF_cpu_id) (hw_tp h)) t6 tt _ eq_refl).
  eexists. split; [reflexivity|]. split; [|split; [done|done]].
  split; done.
Qed.
End Back.

Section Ecall.
Context `{KD : KernelData} `{WF : WaitFuel} `{DD : DiskData}.

(** The state a system call starts in: the saved pc is past the [ecall], interrupts are on. *)
Definition ecall_entry (tf : Z) (s : kst) : kst :=
  set_k_hw (set_sstatus (Z.lor (hw_sstatus (k_hw s)) XSTATUS_SIE) (settle (k_hw s)))
    (set_k_mem (st64 (k_mem s) (tf + TF_sepc) (u64 (ld64 (k_mem s) (tf + TF_sepc) + 4))) s).

Lemma handle_syscall_resumed proc p tbl i (f : nat -> M kst Z) v s ss s2 :
  k_procs s !! proc = Some p ->
  syscall_route (ld64 (k_mem s) (p_trap_frame p + TF_a0 + 8 * 7)) = Some (tbl, i) -> tbl !! Z.to_nat i = Some f ->
  resumed (f proc s) ss = Some (v, s2) ->
  resumed (handle_syscall proc s) ss = Some (0, set_k_mem (st64 (k_mem s2) (p_trap_frame p + TF_a0) v) s2).
Proof.
  intros Hp Hn Hf Hr. unfold handle_syscall. rret (read_proc_Ret proc p s Hp). cbv zeta.
  assert (get_arg_n (p_trap_frame p) 7 s = Ret (ld64 (k_mem s) (p_trap_frame p + TF_a0 + 8 * 7)) s) as E by done.
  rret E. rewrite Hn. cbn beta iota. rewrite Hf, (bind_Ret (lift_opt (Some f)) _ s f s eq_refl), bind_eq. by apply (resumed_bind _ _ _ v s2).
Qed.

(** C10: A system call comes back to its caller.  Whenever the handler that the number in
    a7 selects ends with [v], however often it sleeps on the way and wherever it is
    scheduled again, the trap returns to user mode with interrupts on at the saved pc
    (which the handler found four past the [ecall]), with [v] in the saved a0, the
    process's page table for the exit code, the next trap directed to the trampoline
    and its frame, and only the timer's interrupt enabled if the group owns its
    harts exclusively. *)
Theorem ecall_spec proc p tbl i (f : nat -> M kst Z) v t ts s2 p2 g :
  hw_wf (k_hw (tk t)) -> running (k_hw (tk t)) proc -> k_procs (tk t) !! proc = Some p ->
  t_scause t = SCAUSE_ECALL_FROM_U ->
  syscall_route (ld64 (k_mem (tk t)) (p_trap_frame p + TF_a0 + 8 * 7)) = Some (tbl, i) -> tbl !! Z.to_nat i = Some f ->
  resumed (f proc (ecall_entry (p_trap_frame p) (tk t))) (map tk ts) = Some (v, s2) -> 0 <= v < 2 ^ 64 ->
  hw_wf (k_hw s2) -> running (k_hw s2) proc -> k_procs s2 !! proc = Some p2 ->
  p_trap_frame p2 = p_trap_frame p -> p_killed p2 = 0 ->
  k_groups s2 !! get_proc_group (p_pgroup_id p2) = Some g -> t_panicked (List.last ts t) = 0 ->
  ld64 (k_mem (ecall_entry (p_trap_frame p) (tk t))) (p_trap_frame p + TF_sepc) =
    u64 (ld64 (k_mem (tk t)) (p_trap_frame p + TF_sepc) + 4) /\
  exists t3, resumed (user_trap_handler t) ts = Some (MAKE_SATP (p_pgtable p2), t3) /\
    ld64 (k_mem (tk t3)) (p_trap_frame p + TF_a0) = v /\
    to_user (ld64 (k_mem s2) (p_trap_frame p + TF_sepc)) t3 /\
    hw_sie (k_hw (tk t3)) = (if g_exclusively_occupy g =? 0 then Z.lor XIE_SEIE XIE_SSIE else XIE_SSIE).
Proof.
  intros Hwf Hrun Hp Hsc Hn Hf Hr Hv Hwf2 Hrun2 Hp2 Htf Hk Hg Hpan.
  split; [apply ld64_st64; unfold u64; lia|].
  set (tf := p_trap_frame p) in *. set (h := k_hw (tk t)) in *.
  unfold user_trap_handler.
  pose proof (cur_proc_lvl h Hwf 0 [] proc (tk t) (at_lvl_0 h) Hrun) as E1.
  rret (tkdo_Ret cur_proc t proc _ E1). set (t1 := set_tk _ t).
  rewrite (bind_eq (gets t_scause)). cbn [gets obind]. change (t_scause t1) with (t_scause t). rewrite Hsc, Z.eqb_refl.
  rewrite bind_eq.
  rret (tkdo_read _ t1 p (read_proc_Ret proc p (tk t1) Hp)). fold tf.
  rret (tkdo_read (kld64 (tf + TF_sepc)) t1 _ eq_refl).
  rret (tkdo_Ret (kst64 (tf + TF_sepc) (u64 (ld64 (k_mem (tk t1)) (tf + TF_sepc) + 4))) t1 tt _ eq_refl). set (t2 := set_tk _ t1).
  assert (intron (k_hw (tk t2)) = Ret tt (set_sstatus (Z.lor (hw_sstatus h) XSTATUS_SIE) (settle h))) as Ei.
  { change (k_hw (tk t2)) with (settle h). unfold intron, gets. rewrite bind_eq. cbn [obind].
    unfold w_sstatus, modify, set_sstatus. by rewrite settle_sstatus. }
  rret (tkdo_hw intron t2 tt _ Ei). set (t3 := set_tk _ t2).
  assert (tk t3 = ecall_entry tf (tk t)) as E3 by done.
  assert (syscall_route (ld64 (k_mem (tk t3)) (tf + TF_a0 + 8 * 7)) = Some (tbl, i)) as Hn3.
  { rewrite <- Hn. f_equal. rewrite E3. apply ld64_st64_outside. unfold TF_a0, TF_sepc. lia. }
  pose proof (handle_syscall_resumed proc p tbl i f v (tk t3) (map tk ts) s2 Hp Hn3 Hf) as Hh.
  rewrite E3 in Hh. specialize (Hh Hr). rewrite <- E3 in Hh. fold tf in Hh.
  set (s3 := set_k_mem (st64 (k_mem s2) (tf + TF_a0) v) s2) in *.
  pose proof (resumed_tkdo (handle_syscall proc) t3 ts 0 s3 Hh) as Hh'.
  set (t4 := set_tk s3 (List.last ts t3)) in *.
  assert (t_panicked t4 = 0) as Hpan4.
  { rewrite <- Hpan. change (t_panicked t4) with (t_panicked (List.last ts t3)).
    destruct ts as [|t' ts]; [done|]. by rewrite !last_from. }
  destruct (user_trap_ret_eq proc p2 g t4 Hwf2 Hrun2 Hp2 Hg) as (t5 & E5 & Hu & Hm & Hie).
  exists t5. split; [|split; [|split]].
  - apply (resumed_bind _ _ ts false t4).
    + rewrite bind_eq. by apply (resumed_bind _ _ ts 0 t4).
    + rret (tkdo_read _ t4 p2 (read_proc_Ret proc p2 (tk t4) Hp2)). rewrite Hk. cbn [Z.eqb negb orb when].
      rewrite bind_mret, bind_eq. cbn [get obind]. rewrite Hpan4. cbn [Z.eqb negb]. by rewrite E5.
  - rewrite Hm, Htf. fold tf. rewrite ld64_st64_outside by (unfold TF_a0, TF_cpu_id; lia). by apply ld64_st64.
  - rewrite Htf in Hu. fold tf in Hu. change (k_mem (tk t4)) with (st64 (k_mem s2) (tf + TF_a0) v) in Hu.
    rewrite ld64_st64_outside in Hu by (unfold TF_a0, TF_sepc; lia). exact Hu.
  - exact Hie.
Qed.
End Ecall.
