(* ===== verification/DemoMachine.v ===== *)
(** * A small concrete machine

    A hart, an allocator with three free pages and a page table: the inputs at
    which the theorems about memory are instantiated. *)

From S2P Require Import Prelude Hart VmSystem Mem Kalloc PageTable PageTableSpec.

#[export] Program Instance demo_image : KernelImage := {|
  kernel_end := 0x80010000; etext := 0x80004000; user_trap_entry := 0x80003000 |}.
Solve All Obligations with vm_compute; split; congruence.

Definition demo_cpu : cpu := mk_cpu 0 0 (Some 0%nat) 0 0.
Definition demo_locks : gmap lock_id spin_lock :=
  list_to_map (map (fun l => (l, free_lock))
    ([LkMem; LkPid; LkTick; LkFreeCpus; LkMsgBox; LkLog; LkBcache; LkIcache; LkFtable; LkVdisk;
      LkUartIn; LkUartOut; LkInputLines; LkKprintf]
     ++ map LkProc (seq 0 64) ++ map LkGroup (seq 0 8) ++ map LkBuf (seq 0 30)
     ++ map LkInode (seq 0 50))).
Definition demo_hw : hw := mk_hw 0 XSTATUS_SIE 0 [demo_cpu] demo_locks.

Lemma demo_hw_wf : hw_wf demo_hw.
Proof.
  split; [by vm_compute|]. exists demo_cpu. split_and!; [reflexivity|by vm_compute|].
  intros H. by vm_compute in H.
Qed.

Definition pg (i : Z) : Z := 0x80010000 + 4096 * i.

Lemma pg_valid i : 0 <= i < 32000 -> valid_page (pg i).
Proof.
  intros Hi. unfold valid_page, page_aligned, pg. cbn [kernel_end demo_image].
  vmconst. change 0x80010000 with 2147549184. lia.
Qed.

Lemma pg_inj i j : pg i = pg j -> i = j.
Proof. unfold pg. lia. Qed.

(** Free pages 0, 1, 2; page 3 is an empty root table. *)
Definition demo_mem : mem := st64 (st64 (st64 ∅ (pg 0) (pg 1)) (pg 1) (pg 2)) (pg 2) 0.
Definition demo_km : kmem := mk_kmem demo_hw demo_mem (pg 0).
Definition demo_free : list Z := [pg 0; pg 1; pg 2].

Lemma demo_lock l : l ∈ [LkMem; LkPid; LkTick; LkFreeCpus; LkMsgBox; LkLog; LkBcache; LkIcache; LkFtable]
  -> hw_locks demo_hw !! l = Some free_lock.
Proof.
  intros Hl. repeat (apply elem_of_cons in Hl as [->|Hl]; [by vm_compute|]).
  by destruct (not_elem_of_nil l).
Qed.

Lemma demo_free_list : free_list demo_mem (pg 0) demo_free.
Proof. cbn [free_list demo_free]. split_and!; by vm_compute. Qed.

Lemma demo_free_valid : Forall valid_page demo_free.
Proof. repeat constructor; apply pg_valid; lia. Qed.

Lemma demo_free_nodup : NoDup demo_free.
Proof. by apply (bool_decide_unpack _). Qed.

Lemma demo_km_inv : km_inv demo_free demo_km.
Proof.
  split.
  - apply demo_hw_wf.
  - apply demo_lock. set_solver.
  - apply demo_free_list.
  - apply demo_free_valid.
  - apply demo_free_nodup.
Qed.

Definition demo_root : Z := pg 3.
Definition demo_tree : tree := {[ [] := demo_root ]}.

Lemma demo_mem_zero a : (forall i, 0 <= i <= 2 -> ~ (pg i <= a < pg i + 8)) -> ld8 demo_mem a = 0.
Proof.
  intros Ha. pose proof (Ha 0). pose proof (Ha 1). pose proof (Ha 2).
  unfold demo_mem. rewrite !ld8_st64_outside by lia. reflexivity.
Qed.

Lemma demo_entry_zero i j : 3 <= i -> 0 <= j < 512 -> ld64 demo_mem (pte_addr (pg i) j) = 0.
Proof.
  intros Hi Hj. apply load_le_zero. intros b Hb. apply demo_mem_zero.
  unfold pte_addr, pg in *. lia.
Qed.

Lemma demo_pt_rep : pt_rep demo_mem demo_tree.
Proof.
  unfold demo_tree. split.
  - rewrite lookup_singleton_eq. by eexists.
  - intros k p [<- <-]%lookup_singleton_Some. split; [apply pg_valid; lia|cbn; lia].
  - intros k p i [<- <-]%lookup_singleton_Some _ Hi. rewrite lookup_singleton_ne by done.
    unfold demo_root. rewrite demo_entry_zero by lia. reflexivity.
  - intros k i [p [E _]%lookup_singleton_Some]. destruct k; discriminate.
  - by intros k k' p [<- <-]%lookup_singleton_Some [<- _]%lookup_singleton_Some.
Qed.

Lemma demo_vm_inv : vm_inv demo_tree demo_free demo_km.
Proof.
  split; [apply demo_km_inv|apply demo_pt_rep|]. unfold demo_tree.
  intros k p [<- <-]%lookup_singleton_Some. unfold demo_free, demo_root.
  rewrite !not_elem_of_cons. split_and!; [..|apply not_elem_of_nil]; intros E%pg_inj; lia.
Qed.

Lemma demo_unmapped va : mapped demo_mem demo_tree va = false.
Proof.
  unfold mapped, leaf, leaf_addr, demo_tree. rewrite lookup_singleton_ne; [reflexivity|].
  unfold vpn_path. done.
Qed.

(** ** A mapped page

    The tables of the first two levels are pages 4 and 5; the page at [PROC_VA_START]
    is page 6, readable and writable for the user. *)

Definition demo_va : Z := PROC_VA_START.
Definition demo_attr : Z := Z.lor (Z.lor PTE_R PTE_W) PTE_U.
Definition demo_pte : Z := MAKE_PTE (pg 6) (Z.lor demo_attr PTE_V).
Definition demo_tree1 : tree := <[ [0] := pg 4 ]> demo_tree.
Definition demo_tree2 : tree := <[ [0; 0] := pg 5 ]> demo_tree1.
Definition demo_mem1 : mem := st64 demo_mem (pte_addr (pg 3) 0) (MAKE_PTE (pg 4) PTE_V).
Definition demo_mem2 : mem := st64 demo_mem1 (pte_addr (pg 4) 0) (MAKE_PTE (pg 5) PTE_V).
Definition demo_mem3 : mem := st64 demo_mem2 (pte_addr (pg 5) 1) demo_pte.
Definition demo_km2 : kmem := mk_kmem demo_hw demo_mem2 (pg 0).
Definition demo_km3 : kmem := mk_kmem demo_hw demo_mem3 (pg 0).

Lemma pg_aligned i : page_aligned (pg i).
Proof. unfold page_aligned, pg. vmconst. lia. Qed.

Lemma demo_table_entry i j : 3 <= i <= 5 ->
  0 <= MAKE_PTE (pg (i + 1)) PTE_V < 2 ^ 64 /\ (0 <= j < 512 -> ld64 demo_mem (pte_addr (pg i) j) = 0).
Proof.
  intros Hi. split; [apply MAKE_PTE_range; unfold pg; vmlia|]. intros Hj. apply demo_entry_zero; lia.
Qed.

Lemma demo_entry1 i j : 3 <= i -> 0 <= j < 512 ->
  ld64 demo_mem1 (pte_addr (pg i) j) = if decide (pg 3 = pg i /\ 0 = j) then MAKE_PTE (pg 4) PTE_V else 0.
Proof.
  intros Hi Hj. unfold demo_mem1.
  rewrite entry_st64; try apply pg_aligned; try lia; [|apply MAKE_PTE_range; unfold pg; vmlia].
  case_decide; [done|]. by apply demo_entry_zero.
Qed.

Lemma demo_entry2 i j : 3 <= i -> 0 <= j < 512 ->
  ld64 demo_mem2 (pte_addr (pg i) j) =
  if decide (pg 4 = pg i /\ 0 = j) then MAKE_PTE (pg 5) PTE_V else ld64 demo_mem1 (pte_addr (pg i) j).
Proof.
  intros Hi Hj. unfold demo_mem2.
  rewrite entry_st64; try apply pg_aligned; try lia. apply MAKE_PTE_range; unfold pg; vmlia.
Qed.

Lemma demo_tree1_pages k p : demo_tree1 !! k = Some p -> exists i, 3 <= i <= 4 /\ p = pg i.
Proof.
  unfold demo_tree1, demo_tree. rewrite lookup_insert_Some, lookup_singleton_Some.
  intros [[_ <-]|(_ & _ & <-)]; [exists 4|exists 3]; (split; [lia|done]).
Qed.

Lemma demo_pt_rep1 : pt_rep demo_mem1 demo_tree1.
Proof.
  apply (pt_rep_extend demo_mem _ demo_tree [] (pg 3) 0 (pg 4)).
  - apply demo_pt_rep.
  - done.
  - cbn; lia.
  - lia.
  - by rewrite (demo_entry_zero 3 0) by lia.
  - apply pg_valid. lia.
  - unfold demo_tree. intros k q [<- <-]%lookup_singleton_Some E%pg_inj. lia.
  - rewrite demo_entry1 by lia. by rewrite decide_True.
  - intros j Hj. rewrite demo_entry1 by lia. rewrite decide_False; [done|]. intros [E%pg_inj _]. lia.
  - unfold demo_tree. intros k q j [<- <-]%lookup_singleton_Some Hj Hne. unfold demo_root.
    rewrite demo_entry1, demo_entry_zero by lia. rewrite decide_False; [done|]. naive_solver.
Qed.

Lemma demo_pt_rep2 : pt_rep demo_mem2 demo_tree2.
Proof.
  apply (pt_rep_extend demo_mem1 _ demo_tree1 [0] (pg 4) 0 (pg 5)).
  - apply demo_pt_rep1.
  - done.
  - cbn; lia.
  - lia.
  - rewrite demo_entry1 by lia. by rewrite decide_False by (intros [E%pg_inj _]; lia).
  - apply pg_valid. lia.
  - intros k q (i & Hi & ->)%demo_tree1_pages E%pg_inj. lia.
  - rewrite demo_entry2 by lia. by rewrite decide_True.
  - intros j Hj. rewrite demo_entry2, demo_entry1 by lia.
    by rewrite !decide_False by (intros [E%pg_inj _]; lia).
  - intros k q j (i & Hi & ->)%demo_tree1_pages Hj Hne.
    rewrite demo_entry2 by lia. rewrite decide_False; [done|]. naive_solver.
Qed.

Lemma demo_tree2_pages k p : demo_tree2 !! k = Some p -> exists i, 3 <= i <= 5 /\ p = pg i.
Proof.
  unfold demo_tree2. rewrite lookup_insert_Some. intros [[_ <-]|[_ (i & Hi & ->)%demo_tree1_pages]].
  - exists 5. split; [lia|done].
  - exists i. split; [lia|done].
Qed.

Lemma demo_not_free i : 3 <= i -> pg i ∉ demo_free.
Proof.
  intros Hi. unfold demo_free. rewrite !not_elem_of_cons.
  split_and!; [..|apply not_elem_of_nil]; intros E%pg_inj; lia.
Qed.

Lemma demo_km_inv2 : km_inv demo_free demo_km2.
Proof.
  apply (km_inv_store demo_free (mk_kmem demo_hw demo_mem1 (pg 0)) (pg 4) 0);
    [|apply pg_aligned|apply demo_not_free; lia|lia].
  apply (km_inv_store demo_free demo_km (pg 3) 0);
    [apply demo_km_inv|apply pg_aligned|apply demo_not_free; lia|lia].
Qed.

Lemma demo_vm_inv2 : vm_inv demo_tree2 demo_free demo_km2.
Proof.
  split; [apply demo_km_inv2|apply demo_pt_rep2|].
  intros k p (i & Hi & ->)%demo_tree2_pages. apply demo_not_free. lia.
Qed.

Lemma demo_leaf_addr : leaf_addr demo_tree2 demo_va = Some (pte_addr (pg 5) 1).
Proof. reflexivity. Qed.

Lemma demo_user_range : user_range demo_va.
Proof. unfold user_range, demo_va. vmlia. Qed.

Lemma demo_mapped_step :
  vm_step demo_tree2 demo_free demo_km2 demo_tree2 demo_free demo_km3 /\
  forall va', user_range va' ->
    leaf demo_mem3 demo_tree2 va' =
    if decide (same_page demo_va va') then demo_pte else leaf demo_mem2 demo_tree2 va'.
Proof.
  apply (store_leaf demo_tree2 demo_free demo_km2 demo_va (pte_addr (pg 5) 1) demo_pte).
  - apply demo_vm_inv2.
  - apply demo_user_range.
  - apply demo_leaf_addr.
  - apply MAKE_PTE_range. unfold pg. vmlia.
Qed.

Lemma demo_vm_inv3 : vm_inv demo_tree2 demo_free demo_km3.
Proof. apply demo_mapped_step. Qed.

Lemma demo_leaf : leaf demo_mem3 demo_tree2 demo_va = demo_pte.
Proof.
  destruct demo_mapped_step as [_ H]. rewrite H by apply demo_user_range. by rewrite decide_True.
Qed.

Lemma demo_mapped : mapped demo_mem3 demo_tree2 demo_va = true.
Proof. unfold mapped. rewrite demo_leaf. apply MAKE_PTE_V_valid. unfold pg. vmlia. Qed.

Lemma demo_leaf_pa : PTE_GET_PA (leaf demo_mem3 demo_tree2 demo_va) = pg 6.
Proof. rewrite demo_leaf. apply PTE_GET_PA_MAKE_PTE; [apply pg_aligned|unfold pg; vmlia]. Qed.

Lemma demo_tree2_ne k q : demo_tree2 !! k = Some q -> q <> pg 6.
Proof. intros (i & Hi & ->)%demo_tree2_pages E%pg_inj. lia. Qed.
