(* ===== verification/VmExamples.v ===== *)
(** * The theorems about memory on the small machine *)

From S2P Require Import Prelude Hart ListH VmSystem Mem Kalloc PageTable PageTableSpec UserCopy UserCopySpec DemoMachine.

(** [kalloc] hands out page 0 and keeps pages 1 and 2. *)
Lemma kalloc_spec_witness :
  exists s', kalloc demo_km = Ret (pg 0) s' /\ km_inv [pg 1; pg 2] s' /\ ld8 (km_mem s') (pg 0) = 5.
Proof.
  pose proof (kalloc_spec demo_free demo_km demo_km_inv) as H.
  destruct (runs_elim _ _ _ H) as (p & s' & E & _ & -> & _ & _ & Hi & Hm).
  exists s'. split_and!; [exact E|exact Hi|]. rewrite Hm. by rewrite decide_True by (unfold in_page; vmlia).
Defined.

Lemma kfree_spec_witness :
  exists s', kfree (pg 7) demo_km = Ret tt s' /\ km_inv (pg 7 :: demo_free) s'.
Proof.
  pose proof (kfree_spec (pg 7) demo_free demo_km demo_km_inv (pg_valid 7 ltac:(lia))
                (demo_not_free 7 ltac:(lia))) as H.
  destruct (runs_elim _ _ _ H) as ([] & s' & E & Hi & _). exists s'. split; [exact E|exact Hi].
Defined.

Lemma kfree_invalid_witness :
  kfree 0x1000 demo_km = Panic "kfree: free invalid page".
Proof.
  apply kfree_invalid. intros [[H1 _] _]. by vm_compute in H1.
Defined.

Lemma kalloc_init_spec_witness :
  exists fuel s' l, kalloc_init fuel demo_km = Ret tt s' /\ km_inv l s' /\ pg 5 ∈ l.
Proof.
  assert (exists fuel, (MEMORY_END - ROUND_UP_PGSIZE kernel_end) / PGSIZE < Z.of_nat fuel) as [fuel Hf].
  { exists (Z.to_nat 40000). rewrite Z2Nat.id by lia. by vm_compute. }
  pose proof (kalloc_init_spec fuel demo_km demo_hw_wf Hf) as H.
  destruct (runs_elim _ _ _ H) as ([] & s' & E & l & Hi & Hl).
  exists fuel, s', l. split_and!; [exact E|exact Hi|]. apply Hl. apply pg_valid. lia.
Defined.

Definition demo_user_attr : Z := Z.lor PTE_R PTE_U.

(** Mapping [demo_va] in the empty table takes two of the three free pages. *)
Lemma map_page_spec_witness :
  exists r s', map_page demo_root demo_va (pg 6) demo_user_attr demo_km = Ret r s' /\
    exists T' l', vm_step demo_tree demo_free demo_km T' l' s' /\ (r = 0 \/ l' = []).
Proof.
  pose proof (map_page_spec demo_tree demo_free demo_km demo_root demo_va (pg 6) demo_user_attr
    demo_vm_inv eq_refl demo_user_range ltac:(unfold pg; vmlia) (demo_unmapped demo_va)) as H.
  destruct (runs_elim _ _ _ H) as (r & s' & E & T' & l' & Hs & Hr).
  exists r, s'. split; [exact E|]. exists T', l'. split; [exact Hs|].
  destruct Hr as [[Hr _]|(_ & Hr & _)]; [left|right]; exact Hr.
Defined.

(** Unmapping the page at [demo_va] gives page 6 back. *)
Lemma unmap_page_free_spec_witness :
  exists s', unmap_page_free demo_root demo_va demo_km3 = Ret tt s' /\
    vm_inv demo_tree2 (pg 6 :: demo_free) s' /\ leaf (km_mem s') demo_tree2 demo_va = 0.
Proof.
  pose proof (unmap_page_free_spec demo_tree2 demo_free demo_km3 demo_root demo_va (pg 6)
    demo_vm_inv3 eq_refl demo_user_range demo_mapped (eq_sym demo_leaf_pa) (pg_valid 6 ltac:(lia))
    (demo_not_free 6 ltac:(lia))
    demo_tree2_ne) as H.
  destruct (runs_elim _ _ _ H) as ([] & s' & E & Hi & _ & Hm).
  exists s'. split_and!; [exact E|exact Hi|]. rewrite Hm by apply demo_user_range.
  by rewrite decide_True.
Defined.

Lemma map_n_pages_spec_witness :
  exists r s', map_n_pages demo_root demo_va 2 (pg 8) demo_user_attr demo_km = Ret r s' /\
    exists T' l', vm_step demo_tree demo_free demo_km T' l' s'.
Proof.
  pose proof (map_n_pages_spec demo_tree demo_free demo_km demo_root demo_va 2 (pg 8) demo_user_attr
    demo_vm_inv eq_refl ltac:(by vm_compute) ltac:(by vm_compute) ltac:(by vm_compute)
    ltac:(unfold pg; vmlia) ltac:(unfold pg; vmlia) (fun va' _ => demo_unmapped va')) as H.
  destruct (runs_elim _ _ _ H) as (r & s' & E & T' & l' & Hs & Hr).
  exists r, s'. split; [exact E|]. exists T', l'. exact Hs.
Defined.

(** Deleting the middle of three cells. *)
Definition demo_heap : gmap Z (Z * Z) :=
  {[ 0 := (1, 3); 1 := (2, 0); 2 := (3, 1); 3 := (0, 2) ]}.

Lemma list_op_refines_witness :
  exists h', run_op 100 101 0 (OpDel 2) demo_heap = Ret tt h' /\ dll h' 0 [1; 3].
Proof.
  assert (dll demo_heap 0 [1; 2; 3]) as Hd.
  { split; [by apply (bool_decide_unpack _)|]. cbn. by vm_compute. }
  assert (2 ∈ [1; 2; 3]) as Hin by by apply (bool_decide_unpack _).
  destruct (list_op_refines 100 101 demo_heap 0 [1; 2; 3] (OpDel 2) Hd Hin) as (h' & E & Hd' & _).
  by exists h'.
Defined.

(** ** Copies between the kernel buffer at [demo_kva] and the page at [demo_va] *)

Definition demo_kva : Z := 0x80005000.

Lemma demo_user_addr i : 0 <= i < 4 ->
  user_addr (km_mem demo_km3) demo_tree2 (demo_va + i) = Some (pg 6 + i).
Proof.
  intros Hi. apply user_addr_page; [unfold demo_va; vmlia| |unfold demo_va; vmlia].
  unfold user_addr. change (demo_va >? MAX_VA) with false.
  change (km_mem demo_km3) with demo_mem3. rewrite demo_leaf_pa, demo_leaf.
  assert (user_ok demo_pte = true) as -> by by vm_compute.
  change (demo_va mod PGSIZE) with 0. by rewrite Z.add_0_r.
Qed.

Lemma demo_kva_sep i j a : 0 <= i < 4 -> 0 <= j < 4 ->
  user_addr (km_mem demo_km3) demo_tree2 (demo_va + j) = Some a -> a <> demo_kva + i.
Proof. intros Hi Hj. rewrite demo_user_addr by done. intros [= <-]. unfold pg, demo_kva. lia. Qed.

Lemma demo_kva_tree i : 0 <= i < 4 -> ~ in_tree demo_tree2 (demo_kva + i).
Proof.
  intros Hi (k & p & (n & Hn & ->)%demo_tree2_pages & Hp). unfold in_page, pg, demo_kva in Hp. vmlia.
Qed.

Lemma copy_in_spec_witness :
  exists s', copy_in demo_root demo_va demo_kva 4 demo_km3 = Ret 0 s' /\
    ld8 (km_mem s') (demo_kva + 3) = ld8 demo_mem3 (pg 6 + 3).
Proof.
  pose proof (copy_in_spec demo_tree2 demo_free demo_km3 demo_root demo_va demo_kva 4 demo_vm_inv3 eq_refl
    ltac:(by vm_compute) ltac:(by vm_compute) ltac:(by vm_compute) demo_kva_sep demo_kva_tree) as H.
  destruct (runs_elim _ _ _ H) as (r & s' & E & _ & _ & _ & [[-> Hb]|(_ & i & Hi & Hn)]).
  - exists s'. split; [exact E|]. destruct (Hb 3 ltac:(lia)) as (a & Ha & Ea).
    rewrite demo_user_addr in Ha by lia. injection Ha as <-. exact Ea.
  - rewrite demo_user_addr in Hn by done. discriminate Hn.
Defined.

Lemma copy_out_spec_witness :
  exists s', copy_out demo_root demo_va demo_kva 4 demo_km3 = Ret 0 s' /\
    ld8 (km_mem s') (pg 6 + 3) = ld8 demo_mem3 (demo_kva + 3).
Proof.
  assert (forall i j a, 0 <= i < 4 -> 0 <= j < 4 ->
    user_addr (km_mem demo_km3) demo_tree2 (demo_va + i) = Some a ->
    user_addr (km_mem demo_km3) demo_tree2 (demo_va + j) = Some a -> i = j) as Hinj.
  { intros i j a Hi Hj. rewrite !demo_user_addr by done. intros [= <-] [= E]. lia. }
  assert (forall i j a, 0 <= i < 4 -> 0 <= j < 4 ->
    user_addr (km_mem demo_km3) demo_tree2 (demo_va + i) = Some a ->
    a <> demo_kva + j /\ ~ in_tree demo_tree2 a) as Hsep.
  { intros i j a Hi Hj. rewrite demo_user_addr by done. intros [= <-].
    split; [unfold pg, demo_kva; lia|].
    intros (k & p & (n & Hn & ->)%demo_tree2_pages & Hp). unfold in_page, pg in Hp. vmlia. }
  pose proof (copy_out_spec demo_tree2 demo_free demo_km3 demo_root demo_va demo_kva 4 demo_vm_inv3 eq_refl
    ltac:(by vm_compute) ltac:(by vm_compute) ltac:(by vm_compute) Hinj Hsep) as H.
  destruct (runs_elim _ _ _ H) as (r & s' & E & _ & _ & _ & [[-> Hb]|(_ & i & Hi & Hn)]).
  - exists s'. split; [exact E|]. destruct (Hb 3 ltac:(lia)) as (a & Ha & Ea).
    rewrite demo_user_addr in Ha by lia. injection Ha as <-. exact Ea.
  - rewrite demo_user_addr in Hn by done. discriminate Hn.
Defined.

(** The page holds zeros: the string is empty. *)
Lemma copy_in_str_spec_witness :
  exists r s', copy_in_str demo_root demo_va demo_kva 4 demo_km3 = Ret r s' /\ (r = 0 \/ r = -1).
Proof.
  pose proof (copy_in_str_spec demo_tree2 demo_free demo_km3 demo_root demo_va demo_kva 4 demo_vm_inv3 eq_refl
    ltac:(by vm_compute) ltac:(by vm_compute) ltac:(by vm_compute) demo_kva_sep demo_kva_tree) as H.
  destruct (runs_elim _ _ _ H) as (r & s' & E & _ & _ & _ & [[-> _]|[-> _]]).
  - exists 0, s'. split; [exact E|left; reflexivity].
  - exists (-1), s'. split; [exact E|right; reflexivity].
Defined.

(** The second page of RAM, readable and valid, at the first address of a process. *)
Lemma sv39_encoding_witness :
  PTE_GET_PA (MAKE_PTE 0x80001000 (Z.lor PTE_R PTE_V)) = 0x80001000 /\ 0 <= VPN_LEVEL_N PROC_VA_START 0 < 512.
Proof.
  destruct (sv39_encoding 0 0x80001000 (Z.lor PTE_R PTE_V) PROC_VA_START ltac:(lia) ltac:(by vm_compute)
    ltac:(lia) ltac:(split; by vm_compute) ltac:(split; by vm_compute)) as (_ & (_ & H & _) & Hv & _).
  split; [exact H|exact (Hv 0 ltac:(lia))].
Defined.
