(* ===== verification/DemoKernel.v ===== *)
(** * A small concrete kernel state

    The small machine with a process running on it and all kernel tables. *)

From S2P Require Import Prelude Hart ListH VmSystem Mem Kalloc PageTable PageTableSpec State Critical Sleep SleepSpec CpuMessage DemoMachine.

Definition demo_context : context := mk_context 0 0 [].
Definition demo_proc (pid : Z) (st : proc_status) : process :=
  mk_process pid st 0 0 ChNull None (pg 9) PROC_VA_START PROC_VA_START PROC_VA_START (pg 3)
    (replicate 16 None) (Some 0%nat) (pg 10) (pg 11) demo_context 0.
Definition demo_procs : list process :=
  demo_proc 0 RUNNING :: replicate 63 (demo_proc (-1) UNUSED).
Definition demo_group (id : Z) : proc_group := mk_proc_group id (replicate 8 (-1)) 0.
Definition demo_buf : buf := mk_buf 0 0 0 0 (mk_sleeplock 0 0) 0 BHead BHead.
Definition demo_inode : inode := mk_inode 0 0 0 (mk_sleeplock 0 0) 0 0 0 0 0 0 (replicate 13 0).
Definition demo_file : file := mk_file FD_NONE 0 0 0 0 None 0 0.
Definition demo_box : message_box := mk_message_box (replicate 8 EMPTY) 0 0 0.
Definition demo_kst_of (km : kmem) : kst :=
  mk_kst km demo_procs (1 :: replicate 63 0) (map (fun i => demo_group (Z.of_nat i)) (seq 0 8)) ∅ 0
    demo_box 0 (replicate 30 demo_buf) (BHead, BHead)
    (mk_log 0 30 0 0 1 0 (replicate 30 0)) (mk_superblock FSMAGIC 1000 900 200 30 2 32 58)
    (replicate 50 demo_inode) (replicate 100 demo_file) (mk_disk ∅ []) 1
    (mk_console (mk_uart_dev [] 16 []) (replicate 16 0) 0 0 (replicate 64 0) 0 0 0)
    (replicate 10 false).
Definition demo_kst : kst := demo_kst_of demo_km.

Lemma demo_running : running demo_hw 0.
Proof. exists demo_cpu. by split. Qed.

Lemma demo_unnested : unnested demo_hw.
Proof. exists demo_cpu. by split. Qed.

Lemma demo_procs_free L : (forall i, LkProc i ∉ L) -> procs_free demo_hw L.
Proof.
  intros HL i Hi. split; [|apply HL].
  assert (Forall (fun i => hw_locks demo_hw !! LkProc i = Some free_lock) (seq 0 nprocs)) as H.
  { apply (bool_decide_unpack _). by vm_compute. }
  rewrite Forall_forall in H. apply H. apply elem_of_seq. lia.
Qed.

(** The same with process 1 asleep on the lock of buffer 3, which process 0 holds. *)
Definition demo_sleeper : process := set_p_chain (ChBuf 3) (set_p_status SLEEP (demo_proc 1 SLEEP)).
Definition demo_kst_sleeper : kst :=
  set_k_bufs (<[3%nat := set_b_lock (mk_sleeplock 1 0) demo_buf]> (k_bufs demo_kst))
    (set_k_procs (<[1%nat := demo_sleeper]> demo_procs) demo_kst).

(** The buffers' data and the locals in the kernel's part of RAM. *)
#[export] Program Instance demo_data : KernelData := {|
  buf_data := fun i => 0x80005000 + BSIZE * Z.of_nat i; locals_addr := 0x8000F000;
  lit_dot := 0x80004800; lit_dotdot := 0x80004810; lit_root := 0x80004820;
  kernel_page_table := 0x80004000; kernel_trap_entry := 0x80002000;
  user_trap_handler_ptr := 0x80002400; user_proc_entry_ptr := 0x80002800 |}.
Next Obligation. intros i Hi. unfold NBUF, BSIZE, KERNEL_BASE in *. vmconst. unfold MAXOPBLOCKS in *. lia. Qed.
Next Obligation. intros i j Hi Hj. unfold BSIZE. lia. Qed.
Next Obligation. by vm_compute. Qed.

(** A byte from the keyboard and a line end, both waiting in the device. *)
Definition demo_kst_key (c : Z) : kst :=
  set_k_con (set_cs_dev (mk_uart_dev [c] 16 []) (k_con demo_kst)) demo_kst.
