(* ===== verification/KernelExamples.v ===== *)
(** * The theorems about the kernel's components on the small kernel state *)

From S2P Require Import Prelude Hart SpinLock ListH VmSystem Mem Kalloc PageTable PageTableSpec State Critical Sleep SleepSpec CpuMessage Uart UartSpec Kprint Uvm UvmSpec File Process ProcessSpec Sysfile FileSpec DemoMachine DemoKernel.

Definition demo_message : cpu_message := mk_cpu_message NEED_CPU (ChMessage 1) 2.

Lemma cpu_message_fifo_witness :
  exists s', send_cpu_message demo_message demo_kst = Ret tt s' /\
    box_queue (k_box s') = [demo_message].
Proof.
  assert (box_inv (k_box demo_kst)) as Hb by (split; try by vm_compute; split; by vm_compute).
  destruct (cpu_message_fifo demo_message demo_kst demo_hw_wf
    (demo_lock LkMsgBox ltac:(by apply (bool_decide_unpack _))) Hb ltac:(by constructor)) as [H _].
  specialize (H eq_refl). destruct (runs_elim _ _ _ H) as ([] & s' & E & _ & _ & Hq).
  exists s'. split; [exact E|exact Hq].
Defined.

Ltac free_lock_tac := by vm_compute.

(** Two nested locks, released in the order they were taken. *)
Definition demo_lops : list lop := [LAcq LkPid; LAcq LkMem; LPush; LRel LkPid; LPop; LRel LkMem].

Lemma lock_discipline_witness : run_lops demo_lops demo_hw = Ret tt (settle demo_hw).
Proof.
  assert (locks_free (concat (map lop_lock demo_lops)) demo_hw) as Hf.
  { intros l Hl. apply demo_lock.
    assert (Forall (fun l => l ∈ [LkMem; LkPid]) (concat (map lop_lock demo_lops))) as H
      by by apply (bool_decide_unpack _).
    rewrite Forall_forall in H. apply H in Hl. set_solver. }
  destruct (lock_discipline demo_hw demo_lops 0 [] demo_hw_wf ltac:(done) Hf
              ltac:(by vm_compute)) as [H _]. exact H.
Defined.

Lemma lock_misuse_panics_witness :
  acquire_spin_lock LkPid (held_hw 0 [LkPid] demo_hw) = Panic "check_not_hold: acquired holding lock".
Proof.
  apply (proj1 (lock_misuse_panics (held_hw 0 [LkPid] demo_hw) LkPid (mk_spin_lock 1 0)
    (held_wf demo_hw demo_hw_wf 0 [LkPid]) ltac:(by vm_compute)) eq_refl).
Defined.

(** Hart 0 has won the test-and-set, hart 1 spins. *)
Lemma spin_lock_mutex_witness :
  let s := run_schedule [0; 0; 0; 1; 1; 1]%nat lock_initial in
  sh_pcs s !! 0%nat = Some Taken /\ sh_lock s = mk_spin_lock 1 no_cpu.
Proof.
  cbn zeta. split; [by vm_compute|].
  destruct (spin_lock_mutex [0; 0; 0; 1; 1; 1]%nat 0%nat 1%nat Taken Spinning
    ltac:(by vm_compute) ltac:(by vm_compute)) as (_ & H & _). exact (H eq_refl).
Defined.

Lemma wake_up_spec_witness :
  exists s', wake_up (ChBuf 3) demo_kst_sleeper = Ret tt s' /\
    exists p', k_procs s' !! 1%nat = Some p' /\ p_status p' = RUNABLE.
Proof.
  destruct (wake_up_spec demo_hw 0 [] (ChBuf 3) demo_kst_sleeper demo_hw_wf
    (at_lvl_0 demo_hw) ltac:(constructor) (demo_procs_free [] ltac:(set_solver)) eq_refl)
    as (s' & E & _ & _ & Hp).
  exists s'. split; [exact E|]. specialize (Hp 1%nat demo_sleeper eq_refl).
  rewrite decide_True in Hp by by split. destruct Hp as (p' & Hp' & Hst & _).
  exists p'. split; [exact Hp'|exact Hst].
Defined.

(** Two harts. *)
Definition demo_hw2 : hw := mk_hw 0 XSTATUS_SIE 0 [demo_cpu; mk_cpu 1 0 None 0 0] demo_locks.

(** Process 0 goes to sleep on the log while holding the log's lock; hart 1 then ends the
    commit that it waits for. *)
Definition demo_commit_done (s : kst) : kst := set_k_log (set_lg_committing 0 (k_log s)) s.
Lemma sleep_spec_witness :
  exists s1 k s2 s3, sleep LkLog ChLog (set_k_hw (held_hw 0 [LkLog] demo_hw2) demo_kst) = Switch s1 k /\
    hw_locks (k_hw s1) !! LkLog = Some free_lock /\ release (LkProc 0) s1 = Ret tt s2 /\
    waker LkLog demo_commit_done ChLog (seen_from 1 XSTATUS_SIE 0 s2) = Ret tt s3 /\
    p_status <$> k_procs s3 !! 0%nat = Some RUNABLE.
Proof.
  assert (hw_wf demo_hw2) as Hwf.
  { split; [by vm_compute|]. exists demo_cpu. split_and!; [reflexivity|by vm_compute|]. intros H. by vm_compute in H. }
  assert (hw_wf (hart_view 1 XSTATUS_SIE 0 demo_hw2)) as Hv.
  { split; [by vm_compute|]. eexists. split_and!; [reflexivity|by vm_compute|]. intros H. by vm_compute in H. }
  destruct (sleep_spec demo_hw2 0 LkLog ChLog (demo_proc 0 RUNNING)
    (set_k_hw (held_hw 0 [LkLog] demo_hw2) demo_kst) Hwf (ex_intro _ demo_cpu (conj eq_refl eq_refl))
    (ex_intro _ demo_cpu (conj eq_refl eq_refl)) eq_refl
    ltac:(free_lock_tac) ltac:(free_lock_tac) eq_refl eq_refl) as (s1 & k & E & Hh & _ & _ & pre & _ & Hw).
  destruct (Hw 1 XSTATUS_SIE 0 demo_commit_done ltac:(done) Hv ltac:(by split) ltac:(done)
    (demo_procs_free [] ltac:(set_solver)) eq_refl) as (_ & s2 & s3 & E2 & E3 & Hp).
  exists s1, k, s2, s3. split; [exact E|]. split; [rewrite Hh; by vm_compute|]. split; [exact E2|]. split; [exact E3|].
  by rewrite Hp.
Defined.

#[export] Program Instance demo_wait : WaitFuel := {| wait_fuel := 1 |}.
Solve All Obligations with lia.

Lemma acquiresleep_spec_witness :
  exists s', acquiresleep (SlkBuf 3) demo_kst = Ret tt s' /\ holdingsleep (SlkBuf 3) s' = Ret true s'.
Proof.
  pose proof (acquiresleep_spec demo_hw 0 (demo_proc 0 RUNNING) (SlkBuf 3) (mk_sleeplock 0 0) demo_kst
    demo_hw_wf demo_unnested demo_running (at_lvl_0 demo_hw) ltac:(free_lock_tac) ltac:(free_lock_tac)
    eq_refl eq_refl eq_refl) as H.
  change (slk_locked (mk_sleeplock 0 0) =? 0) with true in H. cbn beta iota in H.
  destruct H as (s' & E & _ & Hh & _). exists s'. split; [exact E|exact Hh].
Defined.

Lemma releasesleep_spec_witness :
  exists s', releasesleep (SlkBuf 3) demo_kst_sleeper = Ret tt s' /\
    p_status <$> k_procs s' !! 1%nat = Some RUNABLE.
Proof.
  destruct (releasesleep_spec demo_hw 0 [] (SlkBuf 3) (mk_sleeplock 1 0) demo_kst_sleeper demo_hw_wf
    (at_lvl_0 demo_hw) ltac:(constructor) ltac:(free_lock_tac) ltac:(set_solver)
    (demo_procs_free [] ltac:(set_solver)) eq_refl eq_refl) as (s' & E & _ & _ & Hp & _).
  exists s'. split; [exact E|]. rewrite Hp. by vm_compute.
Defined.

Lemma demo_heap_inv : heap_inv demo_kst 0 (demo_proc 0 RUNNING) demo_tree demo_free [].
Proof.
  split.
  - reflexivity.
  - exact demo_vm_inv.
  - reflexivity.
  - split; [by vm_compute|]. split; by vm_compute.
  - by vm_compute.
  - by vm_compute.
  - by vm_compute.
  - intros j p Hp. discriminate Hp.
  - split; [constructor|constructor|intros q Hq; by apply not_elem_of_nil in Hq|intros q k r Hq; by apply not_elem_of_nil in Hq].
  - intros va _. apply demo_unmapped.
Qed.

(** Asking for eight bytes on an empty heap. *)
Lemma brk_spec_witness :
  exists r s' p' T' l' ps', brk 0 (PROC_VA_START + 8) demo_kst = Ret r s' /\ heap_inv s' 0 p' T' l' ps'.
Proof.
  pose proof (brk_spec demo_kst 0 (demo_proc 0 RUNNING) demo_tree demo_free [] (PROC_VA_START + 8)
    demo_heap_inv ltac:(by vm_compute)) as H.
  destruct (runs_elim _ _ _ H) as (r & s' & E & p' & T' & l' & ps' & Hi & _).
  exists r, s', p', T', l', ps'. split; [exact E|exact Hi].
Defined.

Lemma pid_allocator_witness :
  exists pid s', alloc_pid demo_kst = Ret pid s' /\ (0 <= pid < STATIC_PROC_NUM /\ ~ pid_used demo_kst pid \/ pid = -1).
Proof.
  destruct (pid_allocator demo_hw 0 [] demo_kst demo_hw_wf (at_lvl_0 demo_hw) ltac:(constructor)
    ltac:(free_lock_tac) ltac:(set_solver) eq_refl)
    as [(pid & s' & E & _ & _ & _ & [(Hr & Hn & _)|(Hr & _)]) _];
    exists pid, s'; (split; [exact E|]); [left; split; [exact Hr|exact Hn]|right; exact Hr].
Defined.

Lemma kill_spec_witness :
  kill 0 demo_kst =
  Ret 0 (set_k_hw (settle demo_hw) (set_k_procs (alter (set_p_killed 1) 0%nat demo_procs) demo_kst)).
Proof.
  rewrite (kill_spec demo_hw 0 demo_kst demo_hw_wf (at_lvl_0 demo_hw) (demo_procs_free [] ltac:(set_solver)) eq_refl).
  assert (first_index (kill_target 0) (k_procs demo_kst) = Some 0%nat) as -> by by vm_compute.
  reflexivity.
Defined.

(** A carriage return completes a line. *)
Lemma uart_input_refines_witness :
  exists s', uart_getc_input_queue (demo_kst_key 13) = Ret 0 s' /\ in_queue (k_con s') = [10] /\ cs_input_lines (k_con s') = 1.
Proof.
  assert (in_inv (k_con (demo_kst_key 13))) as Hi by (split; [done|by vm_compute|split; by vm_compute|split; by vm_compute]).
  pose proof (uart_input_refines demo_hw 0 [] (demo_kst_key 13) demo_hw_wf (at_lvl_0 demo_hw)
    ltac:(constructor) ltac:(free_lock_tac) ltac:(set_solver) (demo_procs_free [] ltac:(set_solver)) eq_refl
    Hi ltac:(cbn; lia)) as (s' & E & _ & Hq & _).
  exists s'. split; [exact E|]. injection Hq as Hq Hl. split; [exact Hq|exact Hl].
Defined.

Lemma file_refcounts_witness :
  exists s1, filealloc demo_kst = Ret (Some 0%nat) s1 /\ f_ref <$> k_files s1 !! 0%nat = Some 1.
Proof.
  destruct (file_refcounts demo_hw 0 [] demo_kst demo_hw_wf (at_lvl_0 demo_hw) ltac:(constructor)
    ltac:(free_lock_tac) ltac:(set_solver) eq_refl) as [H _].
  change (first_index file_free (k_files demo_kst)) with (Some 0%nat) in H.
  eexists. split; [exact H|]. reflexivity.
Defined.

(** Descriptor 0 is free and names no file. *)
Lemma fd_table_witness :
  exists fd s', fdalloc 5%nat demo_kst = Ret fd s' /\ 0 <= fd < NOFILE.
Proof.
  destruct (fd_table demo_hw 0 (demo_proc 0 RUNNING) 0 [] demo_kst 5%nat 0 demo_hw_wf demo_running
    (at_lvl_0 demo_hw) eq_refl eq_refl) as [(fd & s' & E & _ & [(Hr & _)|(_ & _ & H)]) _].
  - exists fd, s'. split; [exact E|exact Hr].
  - destruct (H 0%nat eq_refl).
Defined.

(** Reading from descriptor 0, which is not open. *)
Lemma fd_errors_witness : sys_read demo_kst = Ret minus1 (set_k_hw (held_hw 0 [] demo_hw) demo_kst).
Proof.
  pose proof (fd_errors demo_hw 0 (demo_proc 0 RUNNING) 0 [] demo_kst demo_hw_wf demo_running (at_lvl_0 demo_hw) eq_refl eq_refl) as E.
  assert (open_file (demo_proc 0 RUNNING) (i32 (arg_reg demo_kst (demo_proc 0 RUNNING) 0)) = None) as Eo by (by vm_compute).
  cbv zeta in E. rewrite Eo in E. apply E.
Defined.

(** "-120" goes out. *)
Lemma printint_roundtrip_witness :
  exists out s', printint (-120) 10 1 demo_kst = Ret tt s' /\ parse_int 10 out = Some (-120) /\
    ud_tx (cs_dev (k_con s')) = rev out ++ ud_tx (cs_dev (k_con demo_kst)).
Proof.
  destruct (printint_roundtrip demo_hw 0 [] (-120) 10 demo_kst demo_hw_wf (at_lvl_0 demo_hw)
    ltac:(vm_compute; lia) ltac:(lia) ltac:(lia)) as (out & s' & E & _ & Hp & Ht & _).
  exists out, s'. split; [exact E|]. split; [exact Hp|exact Ht].
Defined.
