(* ===== verification/PipeExamples.v ===== *)
(** * The theorems on pipes at concrete inputs

    A pipe in page 20 of the small machine, used by its process from the page that is
    mapped at [demo_va]. *)

From S2P Require Import Prelude Hart VmSystem Mem Kalloc PageTable PageTableSpec UserCopy UserCopySpec State Critical Sleep SleepSpec LogSpec File PipeSpec DemoMachine VmExamples DemoKernel KernelExamples.

Definition demo_pipe : Z := pg 20.
Definition demo_hw_pipe : hw := mk_hw 0 XSTATUS_SIE 0 [demo_cpu] (<[LkPipe demo_pipe := free_lock]> demo_locks).
Definition demo_kst_pipe (m : mem) : kst := demo_kst_of (mk_kmem demo_hw_pipe m (pg 0)).

Lemma demo_pipe_wf : hw_wf demo_hw_pipe.
Proof.
  split; [by vm_compute|]. exists demo_cpu. split_and!; [reflexivity|by vm_compute|]. intros H. by vm_compute in H.
Qed.

Lemma demo_pipe_tree a : in_tree demo_tree2 a -> pg 3 <= a < pg 6.
Proof. intros (k & q & (i & Hi & ->)%demo_tree2_pages & Hp). unfold in_page, pg in *. vmlia. Qed.

Lemma demo_pipe_env : pipe_env demo_hw_pipe 0 (demo_proc 0 RUNNING) demo_tree2 demo_pipe.
Proof.
  split; [exact demo_pipe_wf|by exists demo_cpu|by exists demo_cpu|by vm_compute| |reflexivity|done|reflexivity| |].
  - intros i Hi. split; [|set_solver].
    assert (Forall (fun i => hw_locks demo_hw_pipe !! LkProc i = Some free_lock) (seq 0 nprocs)) as H.
    { apply (bool_decide_unpack _). by vm_compute. }
    rewrite Forall_forall in H. apply H. apply elem_of_seq. lia.
  - intros a Ha Ht%demo_pipe_tree. unfold in_ring, demo_pipe, local_ch, pg in *. cbn [locals_addr demo_data] in Ha. lia.
  - unfold demo_pipe, local_ch, pg. cbn [locals_addr demo_data]. lia.
Qed.

(** User code sees page 6 and nothing else. *)
Lemma demo_user_only va a : user_addr demo_mem3 demo_tree2 va = Some a -> 0 <= va -> pg 6 <= a < pg 7.
Proof.
  intros Hu Hva. unfold user_addr in Hu. destruct (Z.gtb_spec va MAX_VA) as [|Hle]; [done|].
  destruct demo_mapped_step as [_ Hl]. rewrite Hl in Hu by (unfold user_range; lia). case_decide.
  - destruct (user_ok demo_pte); [|done]. injection Hu as <-. assert (PTE_GET_PA demo_pte = pg 6) as -> by by vm_compute. unfold pg. vmlia.
  - exfalso. assert (leaf demo_mem2 demo_tree2 va = 0) as E0; [|rewrite E0 in Hu; by vm_compute in Hu].
    unfold leaf, leaf_addr. destruct (demo_tree2 !! vpn_path va 0) as [q|] eqn:Eq; [|done]. cbn.
    assert (q = pg 5) as ->.
    { unfold demo_tree2 in Eq. apply lookup_insert_Some in Eq as [ [_ <-]|[_ Eq] ]; [done|]. unfold demo_tree1, demo_tree in Eq.
      apply lookup_insert_Some in Eq as [ [Ek _]|[_ [Ek _]%lookup_singleton_Some] ]; exfalso; by apply (f_equal length) in Ek. }
    rewrite demo_entry2, demo_entry1 by (lia || apply VPN_LEVEL_N_range; done). by rewrite !decide_False by (intros [E%pg_inj _]; lia).
Qed.

(** Memories that agree with the demo one on the tree. *)
Lemma demo_pipe_start m : (forall a, pg 3 <= a < pg 6 -> ld8 m a = ld8 demo_mem3 a) -> pipe_start 0 (demo_proc 0 RUNNING) demo_tree2 demo_pipe (demo_kst_pipe m).
Proof.
  intros Hm. assert (forall a, in_tree demo_tree2 a -> ld8 m a = ld8 demo_mem3 a) as Ht by (intros a Ha; apply Hm; by apply demo_pipe_tree).
  pose proof (vm_rep _ _ _ demo_vm_inv3) as Hr. split; [by apply (pt_rep_frame demo_mem3)|reflexivity|reflexivity|].
  intros va a Hu Hva. change (k_mem (demo_kst_pipe m)) with m in Hu. rewrite (user_addr_frame demo_mem3 m demo_tree2 va Hr Ht) in Hu. apply demo_user_only in Hu; [|done].
  unfold in_ring, demo_pipe, local_ch, pg in *. cbn [locals_addr demo_data]. lia.
Qed.

Lemma demo_pipe_user m i : (forall a, pg 3 <= a < pg 6 -> ld8 m a = ld8 demo_mem3 a) -> 0 <= i < 4 -> user_addr m demo_tree2 (demo_va + i) = Some (pg 6 + i).
Proof.
  intros Hm Hi. rewrite (user_addr_frame demo_mem3 m demo_tree2); [by apply demo_user_addr|apply (vm_rep _ _ _ demo_vm_inv3)|].
  intros a Ha. apply Hm. by apply demo_pipe_tree.
Qed.

(** Three bytes go into an empty pipe. *)
Definition demo_mem_write : mem := st8 demo_mem3 (pg 6) 65.
Lemma demo_mem_write_tree a : pg 3 <= a < pg 6 -> ld8 demo_mem_write a = ld8 demo_mem3 a.
Proof. intros Ha. unfold demo_mem_write. rewrite ld8_st8, decide_False; [done|lia]. Qed.
Lemma demo_empty_pipe m : ld32 m (pi_nread demo_pipe) = 0 -> ld32 m (pi_nwrite demo_pipe) = 0 -> pipe_rep m demo_pipe [].
Proof. intros Er Ew. split; [by vm_compute|by rewrite Er, Ew|done]. Qed.

Lemma pipewrite_spec_witness : exists m', pipe_rep m' demo_pipe [65; 0; 0] /\
  exists s', pipewrite demo_pipe demo_va 3 (demo_kst_pipe demo_mem_write) = Ret 3 s' /\ k_mem s' = m'.
Proof.
  destruct (pipewrite_spec demo_hw_pipe 0 (demo_proc 0 RUNNING) demo_tree2 demo_pipe (demo_kst_pipe demo_mem_write) [] [65; 0; 0] demo_va 3 demo_pipe_env)
    as (m' & Hr & _ & E).
  - apply demo_pipe_start. exact demo_mem_write_tree.
  - apply at_lvl_0.
  - apply demo_empty_pipe; by vm_compute.
  - by vm_compute.
  - lia.
  - by vm_compute.
  - split; [by vm_compute|]. split; [by vm_compute|]. split; [|by left]. intros j c Hj. exists (pg 6 + Z.of_nat j). split.
    + apply demo_pipe_user; [exact demo_mem_write_tree|]. apply lookup_lt_Some in Hj. cbn in Hj. lia.
    + destruct j as [|[|[|j] ] ]; [injection Hj as <-; by vm_compute..|]. by apply lookup_lt_Some in Hj; cbn in Hj; lia.
  - exists m'. split; [exact Hr|]. cbv zeta in E. rewrite decide_True in E by (by left). eexists. split; [exact E|reflexivity].
Defined.

(** Two bytes in the pipe, four asked for. *)
Definition demo_mem_read : mem := ring_put (ring_put demo_mem3 demo_pipe 120) demo_pipe 121.
Lemma demo_mem_read_tree a : pg 3 <= a < pg 6 -> ld8 demo_mem_read a = ld8 demo_mem3 a.
Proof. intros Ha. unfold demo_mem_read. rewrite !ring_put_out; [done|..]; unfold in_ring, demo_pipe, pg in *; lia. Qed.
Lemma demo_mem_read_rep : pipe_rep demo_mem_read demo_pipe [120; 121].
Proof.
  apply (ring_put_ok _ _ [120] 121); [|by vm_compute|lia]. apply (ring_put_ok _ _ [] 120); [|by vm_compute|lia]. apply demo_empty_pipe; by vm_compute.
Qed.

Lemma piperead_spec_witness : exists s', piperead demo_pipe demo_va 4 (demo_kst_pipe demo_mem_read) = Ret 2 s' /\ pipe_rep (k_mem s') demo_pipe [] /\
  delivered demo_tree2 demo_mem_read (k_mem s') demo_va [120; 121].
Proof.
  assert (forall j, 0 <= j < 4 -> user_addr demo_mem_read demo_tree2 (demo_va + j) = Some (pg 6 + j)) as Hu by (intros j Hj; apply demo_pipe_user; [exact demo_mem_read_tree|done]).
  pose proof (piperead_spec demo_hw_pipe 0 (demo_proc 0 RUNNING) demo_tree2 demo_pipe (demo_kst_pipe demo_mem_read) [120; 121] [] demo_va 4 demo_pipe_env) as E.
  destruct E as (m' & Hr & Hd & _ & E).
  - apply demo_pipe_start. exact demo_mem_read_tree.
  - apply at_lvl_0.
  - split.
    + intros a (j & Hj & Ea) Ht%demo_pipe_tree. change (k_mem (demo_kst_pipe demo_mem_read)) with demo_mem_read in Ea. rewrite Hu in Ea by done. injection Ea as <-. unfold pg in Ht. lia.
    + intros i j a Hi Hj Ea Eb. change (k_mem (demo_kst_pipe demo_mem_read)) with demo_mem_read in *. rewrite Hu in Ea, Eb by done. injection Ea as <-. injection Eb as Eb. lia.
  - exact demo_mem_read_rep.
  - by vm_compute.
  - lia.
  - by vm_compute.
  - split; [by vm_compute|]. split; [repeat (apply Forall_cons; split; [lia|]); apply Forall_nil; done|]. split; [|by right; left].
    intros j Hj. cbn in Hj. change (k_mem (demo_kst_pipe demo_mem_read)) with demo_mem_read. rewrite Hu by lia. done.
  - eexists. split; [exact E|]. split; [exact Hr|exact Hd].
Defined.
