(* ===== verification/FsExamples.v ===== *)
(** * The theorems about the cache and the log on a small kernel state

    Thirty linked buffers, the first of which holds block 100 with the byte 7 in
    front, in a transaction that has not been committed. *)

From stdpp Require Import functions.
From S2P Require Import Prelude Hart ListH VmSystem Mem Kalloc PageTable PageTableSpec UserCopy State Critical Sleep SleepSpec CpuMessage Bio BioSpec Log LogSpec Fs PathSpec FsSpec FsWrite DemoMachine DemoKernel KernelExamples.

Definition demo_link (i : nat) (b : buf) : buf :=
  set_b_prev (if decide (i = 0%nat) then BHead else BBuf (i - 1))
    (set_b_next (if decide (i = 29%nat) then BHead else BBuf (i + 1)) b).
Definition demo_cached : buf := set_b_dev 1 (set_b_blockno 100 (set_b_valid 1 (set_b_refcnt 1 demo_buf))).
Definition demo_cache : list buf :=
  demo_link 0 demo_cached :: map (fun i => demo_link i demo_buf) (seq 1 29).
Definition demo_block : list Z := 7 :: replicate 1023 0.
Definition demo_tx_log : log_st := mk_log 2 30 0 1 1 1 (100 :: replicate 29 0).
Definition demo_kst_tx : kst :=
  set_k_log demo_tx_log (set_k_bhead (BBuf 29, BBuf 0) (set_k_bufs demo_cache
    (set_k_mem (st8 demo_mem (buf_data 0) 7) demo_kst))).
Definition demo_store : bstore :=
  mk_bstore (<[100 := demo_block]> (fun _ => zero_block)) (fun _ => zero_block) {[100 := 1]} ∅.

Lemma demo_bio_env : bio_env demo_hw 0 (demo_proc 0 RUNNING).
Proof.
  split; [exact demo_hw_wf|exact demo_running|done|by vm_compute| |apply demo_procs_free; set_solver].
  intros i Hi. assert (Forall (fun i => hw_locks demo_hw !! LkBuf i = Some free_lock) (seq 0 nbufs)) as H.
  { apply (bool_decide_unpack _). by vm_compute. }
  rewrite Forall_forall in H. apply H. apply elem_of_seq. lia.
Qed.

Lemma demo_lru : lru demo_kst_tx (seq 0 30).
Proof.
  split.
  - split; [by apply (bool_decide_unpack _); vm_compute|cbn; repeat split..].
  - apply (bool_decide_unpack _). by vm_compute.
Qed.

Lemma demo_cache_lookup i b : demo_cache !! i = Some b ->
  i = 0%nat /\ b = demo_link 0 demo_cached \/
  b_dev b = 0 /\ b_refcnt b = 0 /\ slk_locked (b_lock b) = 0.
Proof.
  destruct i as [|i]; [intros [= <-]; by left|]. intros Hb. right.
  assert (Forall (fun b => b_dev b = 0 /\ b_refcnt b = 0 /\ slk_locked (b_lock b) = 0) (tail demo_cache)) as H.
  { apply (bool_decide_unpack _). by vm_compute. }
  rewrite Forall_lookup in H. by apply (H i b).
Qed.

Lemma demo_block_ok : block_ok demo_block.
Proof.
  split; [by vm_compute|]. constructor; [unfold byte; lia|]. apply Forall_replicate. unfold byte. lia.
Qed.

Lemma demo_content : bcontent (demo_proc 0 RUNNING) 1 demo_store demo_cache (k_mem demo_kst_tx).
Proof.
  split.
  - reflexivity.
  - intros bno. split; [|apply zero_block_ok]. cbn. destruct (decide (100 = bno)) as [<-|Hne];
      [rewrite fn_lookup_insert|rewrite fn_lookup_insert_ne by done]; [apply demo_block_ok|apply zero_block_ok].
  - intros i j b c [[-> ->]|(Hd & _)]%demo_cache_lookup [[-> ->]|(Hd' & _)]%demo_cache_lookup; try done; congruence.
  - intros i b [[-> ->]|(Hd & Hr & _)]%demo_cache_lookup; [by vm_compute|]. rewrite Hr, Hd. done.
  - intros i b [[-> ->]|(Hd & _ & Hl)]%demo_cache_lookup; [by vm_compute|]. rewrite Hd, Hl. done.
  - intros i b [[-> ->]|(Hd & _)]%demo_cache_lookup Hd1; [|congruence]. split; [done|].
    cbn [bs_view demo_store b_blockno demo_link demo_cached]. change (b_blockno (demo_link 0 demo_cached)) with 100.
    rewrite fn_lookup_insert. by vm_compute.
  - intros bno r. cbn. rewrite lookup_singleton_Some. intros [<- <-]. split; [lia|].
    exists 0%nat, (demo_link 0 demo_cached). done.
  - intros bno i. cbn. by rewrite lookup_empty.
  - intros bno. cbn. rewrite lookup_singleton_None. intros Hne _. by rewrite fn_lookup_insert_ne by done.
Qed.

Lemma demo_rep : bio_rep demo_hw 0 (demo_proc 0 RUNNING) 1 demo_store demo_kst_tx.
Proof.
  split; [apply at_lvl_0|done|done| | |exact demo_content].
  - exists (seq 0 30). split; [exact demo_lru|done].
  - intros bno. unfold disk_block. cbn. by rewrite lookup_empty.
Qed.

Lemma buffer_cache_refines_witness :
  exists i s', bread 1 100 demo_kst_tx = Ret i s' /\ ld8 (k_mem s') (buf_data i) = 7.
Proof.
  destruct (buffer_cache_refines demo_hw 0 (demo_proc 0 RUNNING) 1 demo_store demo_kst_tx demo_bio_env demo_rep)
    as [H _].
  destruct (H 100 ltac:(by vm_compute) ltac:(intros c i Hh; cbn in Hh; by rewrite lookup_empty in Hh) ltac:(by left; vm_compute))
    as (i & s' & E & _ & Hd & _).
  exists i, s'. split; [exact E|]. apply (f_equal (fun l => l !! 0%nat)) in Hd.
  rewrite lookup_load_bytes in Hd by (unfold block_bytes, BSIZE; lia). rewrite Z.add_0_r in Hd. injection Hd as Hd. exact Hd.
Defined.

Lemma demo_log_range : 0 <= lg_start demo_tx_log /\ lg_start demo_tx_log + LOGSIZE < 2 ^ 31.
Proof. by vm_compute. Qed.

Lemma demo_can_commit : can_commit demo_hw 0 (demo_proc 0 RUNNING) demo_tx_log demo_store demo_kst_tx.
Proof.
  split; [exact demo_rep|done| |done|done| | |by vm_compute; lia].
  - split; [by vm_compute|by vm_compute; lia|by apply (bool_decide_unpack _)|].
    constructor; [|constructor]. unfold in_log. cbn. unfold LOGSIZE, MAXOPBLOCKS. lia.
  - intros c Hc. unfold ref_of. cbn. rewrite lookup_singleton_ne; [done|].
    unfold in_log, LOGSIZE, MAXOPBLOCKS in Hc. cbn in Hc. lia.
  - constructor; [|constructor]. by vm_compute.
Qed.

(** The commit of block 100. *)
Lemma log_crash_safe_witness :
  exists s', commit demo_kst_tx = Ret tt s' /\ disk_block (k_disk s') 100 = demo_block.
Proof.
  destruct (log_crash_safe demo_hw 0 (demo_proc 0 RUNNING) demo_tx_log demo_store demo_kst_tx demo_bio_env
    demo_log_range demo_can_commit ltac:(by vm_compute)) as (s' & W & E & _ & Hd & _).
  exists s'. split; [exact E|]. rewrite Hd.
  - unfold updated. rewrite decide_True by (by vm_compute; constructor). cbn. by rewrite fn_lookup_insert.
  - unfold in_log, LOGSIZE, MAXOPBLOCKS. cbn. lia.
Defined.

(** A boot after a crash between the write of the header and the installation. *)
Definition demo_header : list Z := [1; 0; 0; 0; 100] ++ replicate 1019 0.
Definition demo_crashed : disk_st := mk_disk {[2 := demo_header; 3 := demo_block]} [].
Definition demo_empty_cache : list buf := map (fun i => demo_link i demo_buf) (seq 0 30).
Definition demo_boot_log : log_st := mk_log 2 30 0 0 1 0 (replicate 30 0).
Definition demo_kst_boot : kst :=
  set_k_disk demo_crashed (set_k_log demo_boot_log (set_k_bhead (BBuf 29, BBuf 0)
    (set_k_bufs demo_empty_cache demo_kst))).
Definition demo_disk (b : Z) : list Z := disk_block demo_crashed b.

Lemma demo_header_ok : block_ok demo_header.
Proof.
  split; [by vm_compute|]. unfold demo_header. rewrite Forall_app.
  split; [repeat constructor; unfold byte; lia|]. apply Forall_replicate. unfold byte. lia.
Qed.

Lemma demo_disk_ok b : block_ok (demo_disk b).
Proof.
  unfold demo_disk, disk_block, demo_crashed, d_blocks.
  destruct (decide (2 = b)) as [<-|H2]; [rewrite lookup_insert_eq; exact demo_header_ok|rewrite lookup_insert_ne by done].
  destruct (decide (3 = b)) as [<-|H3]; [rewrite lookup_singleton_eq; exact demo_block_ok|].
  rewrite lookup_singleton_ne by done. exact zero_block_ok.
Qed.

Lemma demo_empty_lookup i b : demo_empty_cache !! i = Some b ->
  b_dev b = 0 /\ b_refcnt b = 0 /\ slk_locked (b_lock b) = 0.
Proof.
  assert (Forall (fun b => b_dev b = 0 /\ b_refcnt b = 0 /\ slk_locked (b_lock b) = 0) demo_empty_cache) as H.
  { apply (bool_decide_unpack _). by vm_compute. }
  rewrite Forall_lookup in H. apply H.
Qed.

(** An empty cache represents its disk. *)
Lemma demo_empty_rep s : k_hw s = demo_hw -> k_procs s = demo_procs -> k_bufs s = demo_empty_cache -> k_bhead s = (BBuf 29, BBuf 0) ->
  (forall b, block_ok (disk_block (k_disk s) b)) ->
  bio_rep demo_hw 0 (demo_proc 0 RUNNING) 1 (mk_bstore (disk_block (k_disk s)) (disk_block (k_disk s)) ∅ ∅) s.
Proof.
  intros Hh Hp Hb Hl Hok. split; [rewrite Hh; apply at_lvl_0|by rewrite Hp|by rewrite Hp| |done|].
  - exists (seq 0 30). split; [|done]. apply (lru_same demo_kst_boot); [by rewrite Hl|by rewrite Hb|]. split.
    + split; [by apply (bool_decide_unpack _); vm_compute|cbn; repeat split..].
    + apply (bool_decide_unpack _). by vm_compute.
  - rewrite Hb. split; try done.
    + intros bno. split; apply Hok.
    + intros i j b c (Hd & _)%demo_empty_lookup _ Hd1. exfalso. rewrite Hd in Hd1. by vm_compute in Hd1.
    + intros i b (Hd & Hr & _)%demo_empty_lookup. rewrite Hd, Hr. done.
    + intros i b (Hd & _ & Hlk)%demo_empty_lookup. rewrite Hd, Hlk. done.
    + intros i b (Hd & _)%demo_empty_lookup Hd1. exfalso. rewrite Hd in Hd1. by vm_compute in Hd1.
Qed.

Lemma demo_booted : booted demo_hw 0 (demo_proc 0 RUNNING) demo_boot_log demo_disk demo_kst_boot.
Proof.
  split; [done|]. split; [done|]. exists (mk_bstore demo_disk demo_disk ∅ ∅). split; [|done].
  exact (demo_empty_rep demo_kst_boot eq_refl eq_refl eq_refl eq_refl demo_disk_ok).
Qed.

Lemma demo_log_disk : log_disk 2 demo_disk.
Proof.
  split; [by vm_compute|by apply (bool_decide_unpack _); vm_compute|].
  change (hdr_blocks (demo_disk 2)) with [100]. constructor; [|constructor].
  unfold in_log, LOGSIZE, MAXOPBLOCKS. lia.
Qed.

Lemma recovery_spec_witness :
  exists s', recover_from_log demo_kst_boot = Ret tt s' /\ disk_block (k_disk s') 100 = demo_block.
Proof.
  destruct (recovery_spec demo_hw 0 (demo_proc 0 RUNNING) demo_boot_log demo_disk demo_kst_boot demo_bio_env
    demo_log_range demo_booted demo_log_disk) as (s' & E & _ & Hd & _).
  exists s'. split; [exact E|]. rewrite Hd; [by vm_compute|].
  unfold in_log, LOGSIZE, MAXOPBLOCKS. cbn. lia.
Defined.

(** A directory in block 100 with the entries "." and "a", and "a" in memory. *)
Definition demo_dir_block : list Z := [1; 0; 46] ++ replicate 13 0 ++ [5; 0; 97] ++ replicate 1005 0.
Definition demo_dir_inode : inode := mk_inode 1 1 1 (mk_sleeplock 0 0) 1 T_DIR 0 0 1 32 (100 :: replicate 12 0).
Definition demo_kst_dir : kst :=
  set_k_mem (st8 demo_mem local_name 97) (set_k_inodes (demo_dir_inode :: replicate 49 demo_inode)
    (set_k_disk (mk_disk {[100 := demo_dir_block]} []) (set_k_bhead (BBuf 29, BBuf 0) (set_k_bufs demo_empty_cache demo_kst)))).
Definition demo_dir_store : bstore := let d := disk_block (k_disk demo_kst_dir) in mk_bstore d d ∅ ∅.

Lemma demo_dir_rep : bio_rep demo_hw 0 (demo_proc 0 RUNNING) 1 demo_dir_store demo_kst_dir.
Proof.
  apply demo_empty_rep; try done. intros b. unfold disk_block. cbn [k_disk demo_kst_dir set_k_mem set_k_km set_k_inodes set_k_disk d_blocks].
  destruct (decide (100 = b)) as [<-|Hb]; [|rewrite lookup_singleton_ne by done; exact zero_block_ok].
  rewrite lookup_singleton_eq. split; [by vm_compute|]. cbn [default]. unfold demo_dir_block.
  repeat (apply Forall_app; split); repeat (apply Forall_cons; split); try apply Forall_replicate; try apply Forall_nil; unfold byte; try lia; done.
Qed.
Lemma demo_dir_blocks : has_blocks demo_dir_store demo_dir_inode ((i_size demo_dir_inode + BSIZE - 1) / BSIZE).
Proof.
  split; [done|by vm_compute|by vm_compute|]. change ((i_size demo_dir_inode + BSIZE - 1) / BSIZE) with 1.
  intros j Hj. assert (j = 0) as -> by lia. by vm_compute.
Qed.

(** Reading at offset 16 of the directory, where its 32 bytes end. *)
Lemma readi_spec_witness : exists s', readi 0 KPTR local_path 16 40 demo_kst_dir = Ret 16 s' /\
  load_bytes (k_mem s') local_path 16 = [5; 0; 97] ++ replicate 13 0.
Proof.
  destruct (readi_spec demo_hw 0 (demo_proc 0 RUNNING) 1 demo_dir_store demo_kst_dir 0 demo_dir_inode local_path 16 40 demo_bio_env demo_dir_rep)
    as (s' & E & _ & _ & Hl & _).
  - reflexivity.
  - apply Nat.ltb_lt. by vm_compute.
  - reflexivity.
  - reflexivity.
  - cbn. unfold MAXFILE, NDIRECT, NINDIRECT, BSIZE. lia.
  - exact demo_dir_blocks.
  - lia.
  - lia.
  - by vm_compute.
  - by vm_compute.
  - intros x Hx (i & Hi & Hr). unfold nbufs in Hi. destruct (buf_data_range i ltac:(lia)) as [_ Hb]. unfold local_path in *. lia.
  - exists s'. split; [exact E|]. etransitivity; [exact Hl|]. by vm_compute.
Defined.

Lemma dirlookup_spec_witness : exists s', dirlookup 0 local_name demo_kst_dir = Ret (Some (1%nat, 16)) s'.
Proof.
  pose proof (dirlookup_spec demo_hw 0 (demo_proc 0 RUNNING) 1 demo_dir_store demo_kst_dir 0 demo_dir_inode local_name [97] demo_bio_env) as Hd.
  destruct Hd as (s' & E & _).
  - by vm_compute.
  - exact demo_dir_rep.
  - reflexivity.
  - apply Nat.ltb_lt. by vm_compute.
  - reflexivity.
  - reflexivity.
  - reflexivity.
  - cbn. unfold MAXFILE, NDIRECT, NINDIRECT, BSIZE. lia.
  - reflexivity.
  - exact demo_dir_blocks.
  - reflexivity.
  - by vm_compute.
  - intros x Hx. unfold DIRSIZ in Hx. split; [|unfold local_de, local_name, DIRENT_SIZE in *; lia].
    intros (i & Hi & Hr). unfold nbufs in Hi. destruct (buf_data_range i ltac:(lia)) as [_ Hb]. unfold local_name in *. lia.
  - exists s'. exact E.
Defined.

(** A file of 1030 bytes in blocks 100 and 101, in a transaction, and "xy" in memory. *)
Definition demo_file_inode : inode := mk_inode 1 7 1 (mk_sleeplock 0 0) 1 T_FILE 0 0 1 1030 ([100; 101] ++ replicate 11 0).
Definition demo_kst_write : kst :=
  set_k_mem (st8 (st8 demo_mem local_path 120) (local_path + 1) 121) (set_k_inodes (demo_file_inode :: replicate 49 demo_inode)
    (set_k_disk (mk_disk ∅ []) (set_k_log (mk_log 2 30 1 0 1 0 (replicate 30 0)) (set_k_bhead (BBuf 29, BBuf 0) (set_k_bufs demo_empty_cache demo_kst))))).
Definition demo_write_store : bstore := let d := disk_block (k_disk demo_kst_write) in mk_bstore d d ∅ ∅.

Lemma demo_write_rep : bio_rep demo_hw 0 (demo_proc 0 RUNNING) 1 demo_write_store demo_kst_write.
Proof. apply demo_empty_rep; try done. intros b. exact zero_block_ok. Qed.
Lemma demo_write_room : tx_room (k_log demo_kst_write) demo_write_store (0 + 1 + blocks_at 1015 20).
Proof.
  split; [by vm_compute|by vm_compute|by vm_compute|reflexivity|constructor|constructor|by vm_compute|]. intros b. change (ref_of demo_write_store b) with 0. by vm_compute.
Qed.
Lemma demo_write_fits : inode_fits demo_file_inode.
Proof. split; [by vm_compute..|reflexivity|]. repeat (apply Forall_cons; split; [by vm_compute|]). apply Forall_nil. done. Qed.
Lemma demo_write_addr j : 0 <= j < 2 -> file_addr demo_write_store demo_file_inode j = 100 + j.
Proof. intros Hj. assert (j = 0 \/ j = 1) as [-> | ->] by lia; by vm_compute. Qed.
Lemma demo_write_own : own_blocks demo_write_store demo_file_inode 2.
Proof.
  split; [split; [reflexivity|by vm_compute|by vm_compute|]|..].
  - intros j Hj. rewrite demo_write_addr by done. lia.
  - intros j Hj. rewrite demo_write_addr by done. lia.
  - intros i j Hi Hj. rewrite !demo_write_addr by done. lia.
  - by vm_compute.
Qed.
Lemma demo_write_apart : apart demo_write_store demo_file_inode 2 (inode_block demo_kst_write demo_file_inode).
Proof.
  split; [|by vm_compute]. intros j Hj. rewrite demo_write_addr by done. change (inode_block demo_kst_write demo_file_inode) with 32. lia.
Qed.
Lemma demo_path_out n : 0 <= n <= 64 -> forall x, local_path <= x < local_path + n -> ~ in_bufs x.
Proof. intros Hn x Hx (i & Hi & Hr). unfold nbufs in Hi. destruct (buf_data_range i ltac:(lia)) as [_ Hb]. unfold local_path in *. lia. Qed.

(** Twenty bytes over the border of the two blocks and past the end of the file. *)
Lemma writei_spec_witness : exists lg' a' s', writei 0 KPTR local_path 1015 20 demo_kst_write = Ret 20 s' /\
  file_bytes a' (set_i_size 1035 demo_file_inode) 1015 20 = [120; 121] ++ replicate 18 0 /\ (32 ∈ tx_blocks lg' \/ bs_view a' 32 = zero_block).
Proof.
  destruct (writei_spec demo_hw 0 (demo_proc 0 RUNNING) 1 demo_write_store demo_kst_write 0 demo_file_inode 2 local_path 1015 20 0 demo_bio_env)
    as (lg' & a' & s' & E & _ & _ & _ & Hb & _ & _ & _ & Hc & _).
  - reflexivity.
  - exact demo_write_rep.
  - reflexivity.
  - exact demo_write_room.
  - lia.
  - reflexivity.
  - reflexivity.
  - exact demo_write_fits.
  - exact demo_write_own.
  - by vm_compute.
  - exact demo_write_apart.
  - cbn. lia.
  - lia.
  - unfold BSIZE. lia.
  - by vm_compute.
  - by vm_compute.
  - apply demo_path_out. lia.
  - exists lg', a', s'. split; [exact E|]. split; [|destruct (Hc 32) as [->|Hin]; [by right|by left]].
    etransitivity; [exact Hb|]. by vm_compute.
Defined.

Lemma write_read_spec_witness : exists s1 s2, writei 0 KPTR local_path 1015 20 demo_kst_write = Ret 20 s1 /\ readi 0 KPTR (local_path + 20) 1015 20 s1 = Ret 20 s2 /\
  load_bytes (k_mem s2) (local_path + 20) 20 = [120; 121] ++ replicate 18 0.
Proof.
  destruct (write_read_spec demo_hw 0 (demo_proc 0 RUNNING) 1 demo_write_store demo_kst_write 0 demo_file_inode 2 local_path 1015 20 (local_path + 20) demo_bio_env)
    as (s1 & s2 & E1 & E2 & Hl).
  - reflexivity.
  - exact demo_write_rep.
  - reflexivity.
  - exact demo_write_room.
  - reflexivity.
  - reflexivity.
  - exact demo_write_fits.
  - exact demo_write_own.
  - by vm_compute.
  - exact demo_write_apart.
  - cbn. lia.
  - cbn. unfold BSIZE. lia.
  - lia.
  - unfold BSIZE. lia.
  - by vm_compute.
  - by vm_compute.
  - apply demo_path_out. lia.
  - by vm_compute.
  - by vm_compute.
  - intros x Hx. apply (demo_path_out 40); lia.
  - exists s1, s2. split; [exact E1|]. split; [exact E2|]. etransitivity; [exact Hl|]. by vm_compute.
Defined.

(** Block 100, read and locked, becomes the first block of the transaction. *)
Lemma log_write_spec_witness : exists i s1 s2, bread 1 100 demo_kst_write = Ret i s1 /\ log_write i s1 = Ret tt s2 /\ tx_blocks (k_log s2) = [100].
Proof.
  destruct (bread_ok demo_hw 0 (demo_proc 0 RUNNING) 1 demo_bio_env demo_write_store demo_kst_write 100 demo_write_rep) as (i & s1 & E1 & Hr1 & Ho & _).
  - reflexivity.
  - intros c j Hc. done.
  - right. apply Nat.ltb_lt. by vm_compute.
  - pose proof (log_write_spec demo_hw 0 (demo_proc 0 RUNNING) 1 _ s1 100 i demo_bio_env eq_refl Hr1 (lookup_insert_eq _ _ _) ltac:(by vm_compute) ltac:(by vm_compute)) as [Hw _].
    cbv zeta in Hw. rewrite (log_of _ _ Ho) in Hw. destruct Hw as (s2 & E2 & _ & Ht & _).
    + split; [by vm_compute|by vm_compute|by vm_compute|reflexivity|constructor|constructor|by vm_compute|]. intros b.
      rewrite ref_of_held, ref_of_set. by case_decide; vm_compute.
    + exists i, s1, s2. split; [exact E1|]. split; [exact E2|]. rewrite Ht. by vm_compute.
Defined.
