(* ===== verification/VirtioExamples.v ===== *)
(** * The disk driver on the small machine: a read of block 7 into buffer 2 *)

From S2P Require Import Prelude Hart VmSystem Mem Kalloc PageTable PageTableSpec State Critical Sleep SleepSpec Bio BioSpec Virtio VirtioSpec DiskService DemoMachine DemoKernel.

(** The kernel's page table is the small one; [buf0] is on its mapped page. *)
#[local] Instance demo_data_disk : KernelData := {|
  buf_data := @buf_data _ demo_data; locals_addr := @locals_addr _ demo_data;
  lit_dot := 0x80004800; lit_dotdot := 0x80004810; lit_root := 0x80004820;
  kernel_page_table := demo_root; kernel_trap_entry := 0x80002000;
  user_trap_handler_ptr := 0x80002400; user_proc_entry_ptr := 0x80002800;
  buf_data_range := @buf_data_range _ demo_data; buf_data_order := @buf_data_order _ demo_data;
  locals_range := @locals_range _ demo_data |}.
#[local] Instance demo_disk_data : DiskData :=
  {| disk_pages := 0x80010000; status_addr := fun i => 0x80012000 + Z.of_nat i; buf0_va := demo_va + 256 |}.
#[local] Program Instance demo_wait2 : WaitFuel := {| wait_fuel := 2 |}.
Solve All Obligations with lia.

Definition demo_disk : vdisk :=
  mk_vdisk (replicate 8 (mk_desc 0 0 0 0)) (replicate 10 0) 0 (replicate 8 0) [0; 1; 0; 1; 1; 1; 1; 1] 0
    (replicate 8 None) ∅ [].
Definition demo_block7 : buf := set_b_blockno 7 demo_buf.
Definition demo_vst : vst :=
  mk_vst (set_k_bufs (<[2%nat := demo_block7]> (k_bufs demo_kst)) (demo_kst_of demo_km3)) demo_disk.

Lemma demo_disk_wf : disk_wf demo_disk.
Proof. by split. Qed.

Lemma alloc3_desc_spec_witness :
  exists s', alloc3_desc demo_vst = Ret (Some [1; 3; 4]) s' /\ free_list (v_d s') = [5; 6; 7]%nat.
Proof.
  pose proof (alloc3_desc_spec demo_hw 0 [] demo_vst demo_hw_wf (at_lvl_0 demo_hw) ltac:(constructor)
    (demo_procs_free [] ltac:(set_solver)) eq_refl demo_disk_wf) as H.
  change (free_list (v_d demo_vst)) with [1; 3; 4; 5; 6; 7]%nat in H.
  destruct H as (s' & E & Hl & _). exists s'. split; [exact E|exact Hl].
Defined.

Lemma demo_buf0_page : same_page demo_va buf0_va.
Proof. unfold same_page. by vm_compute. Qed.

Lemma demo_buf0_leaf : leaf demo_mem3 demo_tree2 buf0_va = demo_pte.
Proof.
  destruct demo_mapped_step as [_ H]. rewrite H; [|split; by vm_compute].
  by rewrite decide_True by apply demo_buf0_page.
Qed.

Lemma demo_buf0_pa : buf0_pa demo_mem3 demo_tree2 = pg 6 + 256.
Proof. unfold buf0_pa. rewrite demo_buf0_leaf. by vm_compute. Qed.

Lemma virtio_disk_rw_spec_witness :
  exists s1 k, virtio_disk_rw 2 0 demo_vst = Switch s1 k /\
    device_request (k_mem (v_k s1)) (v_d s1) =
      Some (mk_request VIRTIO_BLK_T_IN 14 (buf_data 2) 1024 true (status_addr 1)).
Proof.
  destruct (virtio_disk_rw_spec demo_hw 0 (demo_proc 0 RUNNING) demo_tree2 2 demo_block7 0 0 1 3 4 [5; 6; 7]%nat demo_vst
    demo_hw_wf demo_unnested demo_running (at_lvl_0 demo_hw) ltac:(by vm_compute)
    ltac:(by vm_compute) eq_refl eq_refl eq_refl demo_disk_wf eq_refl ltac:(lia) eq_refl
    (vm_rep _ _ _ demo_vm_inv3) eq_refl ltac:(by vm_compute) ltac:(by vm_compute)) as (s1 & k & E & Hr & _).
  - change (k_mem (v_k demo_vst)) with demo_mem3. rewrite demo_buf0_leaf. by vm_compute.
  - change (k_mem (v_k demo_vst)) with demo_mem3. rewrite demo_buf0_pa. vm_compute. left. done.
  - cbn. lia.
  - exists s1, k. split; [exact E|exact Hr].
Defined.

(** The same call seen from the buffer cache: block 7 of an empty disk. *)
Lemma disk_rw_served_witness :
  exists s1 k t, virtio_disk_rw 2 0 demo_vst = Switch s1 k /\ disk_rw 2 false (v_k demo_vst) = Ret tt t /\
    load_bytes (k_mem t) (buf_data 2) 4 = [0; 0; 0; 0].
Proof.
  destruct (disk_rw_served demo_hw 0 (demo_proc 0 RUNNING) demo_tree2 2 demo_block7 0 0 1 3 4 [5; 6; 7]%nat demo_vst
    demo_hw_wf demo_unnested demo_running (at_lvl_0 demo_hw) ltac:(by vm_compute)
    ltac:(by vm_compute) eq_refl eq_refl eq_refl demo_disk_wf eq_refl ltac:(lia) eq_refl
    (vm_rep _ _ _ demo_vm_inv3) eq_refl ltac:(by vm_compute) ltac:(by vm_compute)) as (s1 & k & r & t & E & _ & Et & _).
  - change (k_mem (v_k demo_vst)) with demo_mem3. rewrite demo_buf0_leaf. by vm_compute.
  - change (k_mem (v_k demo_vst)) with demo_mem3. rewrite demo_buf0_pa. vm_compute. left. done.
  - cbn. lia.
  - cbn. lia.
  - apply zero_block_ok.
  - change (k_mem (v_k demo_vst)) with demo_mem3. rewrite demo_buf0_pa. vm_compute. right. done.
  - vm_compute. intros [_ H]. discriminate H.
  - exists s1, k, t. split; [exact E|]. split; [exact Et|]. injection Et as <-. by vm_compute.
Defined.
