(* ===== verification/TrapExamples.v ===== *)
(** * A system call on the small machine: process 0 asks for its pid *)

From S2P Require Import Prelude Hart VmSystem Mem Kalloc PageTable Kvm State Critical Sleep SleepSpec ProcGroup Virtio VirtioSpec Process Sysfile Syscall Trap TrapSpec DemoMachine DemoKernel VirtioExamples KernelExamples.

Definition demo_tf : Z := p_trap_frame (demo_proc 0 RUNNING).
Definition demo_call_kst : kst :=
  set_k_mem (st64 (st64 (k_mem demo_kst) (demo_tf + TF_a0 + 8 * 7) 5) (demo_tf + TF_sepc) PROC_VA_START) demo_kst.
Definition demo_tst : tst := mk_tst (mk_vst demo_call_kst demo_disk) SCAUSE_ECALL_FROM_U 0 0 0 0 0 [] [] 0.
#[local] Existing Instance demo_wait.
#[local] Instance demo_disk_data0 : DiskData := {| disk_pages := 0x80010000; status_addr := fun i => 0x80012000 + Z.of_nat i; buf0_va := demo_va |}.

Lemma demo_running_settled x h : hw_wf h -> running h 0 -> running (set_sstatus x (settle h)) 0.
Proof. intros Hwf H. apply (running_settle h 0) in H. destruct H as (c & Hc & Hp). by exists c. Qed.

Lemma demo_number : ld64 (k_mem (tk demo_tst)) (demo_tf + TF_a0 + 8 * 7) = 5.
Proof. by vm_compute. Qed.

Lemma demo_getpid : resumed (syscall_getpid 0 (ecall_entry demo_tf demo_call_kst)) [] =
  Some (0, ecall_entry demo_tf demo_call_kst).
Proof.
  unfold syscall_getpid. by rret (read_proc_Ret 0 (demo_proc 0 RUNNING) (ecall_entry demo_tf demo_call_kst) eq_refl).
Qed.

(** The pid, 0, arrives in a0, and the program goes on after its [ecall]. *)
Lemma ecall_spec_witness :
  exists t3, resumed (user_trap_handler demo_tst) [] = Some (MAKE_SATP (p_pgtable (demo_proc 0 RUNNING)), t3) /\
    ld64 (k_mem (tk t3)) (demo_tf + TF_a0) = 0.
Proof.
  destruct (ecall_spec 0 (demo_proc 0 RUNNING) syscall_table 5 syscall_getpid 0 demo_tst []
    (ecall_entry demo_tf demo_call_kst) (demo_proc 0 RUNNING) (demo_group 0)
    demo_hw_wf demo_running eq_refl eq_refl ltac:(change (p_trap_frame (demo_proc 0 RUNNING)) with demo_tf; rewrite demo_number; reflexivity) eq_refl demo_getpid ltac:(lia)) as (_ & t3 & E & Hv & _).
  - apply settle_wf, demo_hw_wf.
  - apply demo_running_settled; [apply demo_hw_wf|apply demo_running].
  - reflexivity.
  - reflexivity.
  - reflexivity.
  - reflexivity.
  - reflexivity.
  - exists t3. split; [exact E|exact Hv].
Defined.

(** Hart 3 boots. *)
Definition demo_mstate : mstate := mk_mstate 3 (2 ^ 17 + 2 ^ 12 + 2) 0 1 0 0 0 0 0 500 ∅ (replicate 8 (replicate 6 0)).

Lemma start_spec_witness :
  exists m', start 0x80001000 0x80001400 0x80001800 demo_mstate = Ret tt m' /\
    m_mtimecmp m' !! CLINT_MTIMECMP 3 = Some 1000500.
Proof.
  pose proof (start_spec 0x80001000 0x80001400 0x80001800 demo_mstate (replicate 6 0) ltac:(cbn; lia) ltac:(done)) as H.
  change (m_tp demo_mstate <? MAX_CPU_NUM) with true in H. cbv iota in H.
  destruct H as (m' & E & _ & _ & _ & _ & _ & _ & _ & Ht & _). exists m'. split; [exact E|exact Ht].
Defined.
