(* ===== verification/UserSys.v ===== *)
(** * User programs as trees of system calls: user_space/ulib/sys_calls.h

    A user program computes on its own memory and talks to the kernel by system calls.
    [utree] is what one process does: a call is a node, with a branch for every answer
    of the kernel (its result and the bytes it stores for the caller), so that [fork],
    which answers twice, is a node whose two branches both run.  [interp] runs a
    program against one kernel; a statement that holds of the tree holds for all. *)

From stdpp Require Import functions.
From S2P Require Import Prelude Mem Str.

(** Calls with the data the kernel reads from the caller's memory: strings up to their
    terminator, and the bytes of a buffer. *)
Inductive ucall :=
| CFork
| CExec (path : list Z) (argv : list (list Z))
| CWait
| CKill (pid : Z)
| CSbrk (increment : Z)
| COpen (path : list Z) (omode : Z)
| CClose (fd : Z)
| CRead (fd n : Z)
| CWrite (fd : Z) (data : list Z)
| CDup (fd : Z)
| CPipe
| CFstat (fd : Z)
| CChdir (path : list Z)
| CLink (old new : list Z)
| CUnlink (path : list Z)
| CMkdir (path : list Z)
| CMknod (path : list Z) (major minor : Z).

Inductive utree (S A : Type) : Type :=
| UDone (a : A) (s : S)
| UExit (status : Z)
| UUndef
| UNoFuel
| USys (c : ucall) (k : Z -> list Z -> utree S A).
Arguments UDone {S A} a s.
Arguments UExit {S A} status.
Arguments UUndef {S A}.
Arguments UNoFuel {S A}.
Arguments USys {S A} c k.

Definition U (S A : Type) : Type := S -> utree S A.

Fixpoint ubind {S A B} (t : utree S A) (f : A -> U S B) : utree S B :=
  match t with
  | UDone a s => f a s
  | UExit n => UExit n
  | UUndef => UUndef
  | UNoFuel => UNoFuel
  | USys c k => USys c (fun r d => ubind (k r d) f)
  end.

#[export] Instance U_ret S : MRet (U S) := fun A (a : A) s => UDone a s.
#[export] Instance U_bind S : MBind (U S) := fun A B f (m : U S A) s => ubind (m s) f.

Definition uget {S} : U S S := fun s => UDone s s.
Definition ugets {S A} (f : S -> A) : U S A := fun s => UDone (f s) s.
Definition umodify {S} (f : S -> S) : U S unit := fun s => UDone tt (f s).
Definition uexit {S A} (status : Z) : U S A := fun _ => UExit status.
Definition uundef {S A} : U S A := fun _ => UUndef.
Definition uno_fuel {S A} : U S A := fun _ => UNoFuel.
(** A call, with the result and the bytes that come back. *)
Definition usys2 {S} (c : ucall) : U S (Z * list Z) := fun s => USys c (fun r d => UDone (r, d) s).
Definition usys {S} (c : ucall) : U S Z := fun s => USys c (fun r _ => UDone r s).
Definition uwhen {S} (b : bool) (m : U S unit) : U S unit := if b then m else mret tt.
(** Code bounded by fuel whose end was not reached. *)
Definition ufuel {S A} (o : option A) : U S A :=
  match o with Some a => mret a | None => uno_fuel end.
(** An access that may be out of range. *)
Definition uopt {S A} (o : option A) : U S A :=
  match o with Some a => mret a | None => uundef end.

(** A part of a larger state. *)
Fixpoint utzoom {S T A} (l : lens S T) (t : utree T A) (s : S) : utree S A :=
  match t with
  | UDone a t' => UDone a (lset l t' s)
  | UExit n => UExit n
  | UUndef => UUndef
  | UNoFuel => UNoFuel
  | USys c k => USys c (fun r d => utzoom l (k r d) s)
  end.
Definition uzoom {S T A} (l : lens S T) (m : U T A) : U S A := fun s => utzoom l (m (lget l s)) s.

(** ** One kernel

    [h] answers a call in a world [w]. *)
Definition kernel (W : Type) : Type := ucall -> W -> Z * list Z * W.

Fixpoint interp {W S A} (h : kernel W) (t : utree S A) (w : W) : utree S A * W :=
  match t with
  | USys c k => let '(r, d, w') := h c w in interp h (k r d) w'
  | _ => (t, w)
  end.

(** Equal trees: the branches agree for every answer. *)
Inductive utree_eq {S A} : utree S A -> utree S A -> Prop :=
| ue_done a s : utree_eq (UDone a s) (UDone a s)
| ue_exit n : utree_eq (UExit n) (UExit n)
| ue_undef : utree_eq UUndef UUndef
| ue_fuel : utree_eq UNoFuel UNoFuel
| ue_sys c k k' : (forall r d, utree_eq (k r d) (k' r d)) -> utree_eq (USys c k) (USys c k').

Section Trees.
Context {S : Type}.

#[export] Instance utree_eq_equiv A : Equivalence (@utree_eq S A).
Proof.
  split.
  - intros t. induction t; constructor; auto.
  - intros t t' H. induction H; constructor; auto.
  - intros t t' t'' H. revert t''. induction H; intros t'' H''; inversion H''; subst; constructor; auto.
Qed.

#[export] Instance ubind_proper A B :
  Proper (utree_eq ==> pointwise_relation A (pointwise_relation S utree_eq) ==> utree_eq) (@ubind S A B).
Proof.
  intros t t' H. induction H; intros f f' Hf; cbn; try constructor; [apply Hf|]. intros r d. by apply H0.
Qed.

#[export] Instance interp_proper {W A} (h : kernel W) :
  Proper (utree_eq ==> eq ==> prod_relation utree_eq eq) (@interp W S A h).
Proof.
  intros t t' H w ? <-. revert w. induction H as [| | | |c k k' Hk IH]; intros w; cbn;
    [by split; constructor..|]. destruct (h c w) as [[r d] w']. apply IH.
Qed.

Lemma ubind_assoc {A B C} (t : utree S A) (f : A -> U S B) (g : B -> U S C) :
  utree_eq (ubind (ubind t f) g) (ubind t (fun a s => ubind (f a s) g)).
Proof. induction t; cbn; try constructor; [reflexivity|auto]. Qed.

Lemma ubind_done {A B} (m : U S A) (f : A -> U S B) s a s' :
  m s = UDone a s' -> (m ≫= f) s = f a s'.
Proof. intros H. unfold mbind, U_bind. by rewrite H. Qed.

Lemma ubind_mret {A B} (a : A) (f : A -> U S B) s : ((mret a : U S A) ≫= f) s = f a s.
Proof. reflexivity. Qed.

Lemma ubind_exit {A B} (m : U S A) (f : A -> U S B) s n :
  m s = UExit n -> (m ≫= f) s = UExit n.
Proof. intros H. unfold mbind, U_bind. by rewrite H. Qed.

Lemma ubind_sys {A B} (m : U S A) (f : A -> U S B) s c k :
  m s = USys c k -> (m ≫= f) s = USys c (fun r d => ubind (k r d) f).
Proof. intros H. unfold mbind, U_bind. by rewrite H. Qed.

(** The interpretation of a sequence. *)
Lemma interp_bind {W A B} (h : kernel W) (t : utree S A) (f : A -> U S B) w :
  interp h (ubind t f) w =
  match interp h t w with
  | (UDone a s, w') => interp h (f a s) w'
  | (UExit n, w') => (UExit n, w')
  | (UUndef, w') => (UUndef, w')
  | (UNoFuel, w') => (UNoFuel, w')
  | (USys c k, w') => (USys c (fun r d => ubind (k r d) f), w')
  end.
Proof.
  revert w. induction t as [| | | |c k IH]; intros w; cbn; try done.
  destruct (h c w) as [[r d] w']. apply IH.
Qed.
End Trees.

(** Writing bytes one by one and going on with [t] whatever the kernel answers. *)
Fixpoint uwrites {S A} (fd : Z) (out : list Z) (t : utree S A) : utree S A :=
  match out with
  | [] => t
  | c :: out' => USys (CWrite fd [c]) (fun _ _ => uwrites fd out' t)
  end.

Lemma uwrites_app {S A} fd l1 l2 (t : utree S A) : uwrites fd (l1 ++ l2) t = uwrites fd l1 (uwrites fd l2 t).
Proof. induction l1 as [|c l1 IH]; cbn; [done|]. by rewrite IH. Qed.

Lemma ubind_uwrites {S A B} fd out (t : utree S A) (f : A -> U S B) :
  ubind (uwrites fd out t) f = uwrites fd out (ubind t f).
Proof. induction out as [|c out IH]; cbn; [done|]. by rewrite IH. Qed.

(** ** Every kernel

    What a program may rely on in an answer: [read] delivers as many bytes as it says
    and no more than asked for, [pipe] stores two descriptors. *)
Definition plausible (c : ucall) (r : Z) (d : list Z) : Prop :=
  match c with
  | CRead _ n => r <= n /\ Z.of_nat (length d) = Z.max 0 r
  | CPipe => 0 <= r -> length d = 8%nat
  | _ => True
  end.

(** Whatever the kernel answers, the program ends: it exits, or it returns with [Q]. *)
Inductive always {S A} (Q : A -> S -> Prop) : utree S A -> Prop :=
| al_done a s : Q a s -> always Q (UDone a s)
| al_exit n : always Q (UExit n)
| al_sys c k : (forall r d, plausible c r d -> always Q (k r d)) -> always Q (USys c k).

Lemma always_bind {S A B} (Q : A -> S -> Prop) (R : B -> S -> Prop) t (f : A -> U S B) :
  always Q t -> (forall a s, Q a s -> always R (f a s)) -> always R (ubind t f).
Proof. intros H Hf. induction H; cbn; [by apply Hf|constructor|constructor; auto]. Qed.

Lemma always_mono {S A} (Q Q' : A -> S -> Prop) t : always Q t -> (forall a s, Q a s -> Q' a s) -> always Q' t.
Proof. intros H Hq. induction H; constructor; auto. Qed.

Lemma always_uwrites {S A} (Q : A -> S -> Prop) fd out t : always Q t -> always Q (uwrites fd out t).
Proof. intros H. induction out as [|c out IH]; cbn; [done|]. by constructor. Qed.

Lemma always_usys {S} c (s : S) : always (fun _ s' => s' = s) (usys c s).
Proof. constructor. intros r d _. by constructor. Qed.

(** ** Strings the kernel reads *)

(** The bytes at [p] up to a terminator, at most [n]. *)
Fixpoint ustr (n : nat) (m : mem) (p : Z) : list Z :=
  match n with
  | O => []
  | S n' => if ld8 m p =? 0 then [] else ld8 m p :: ustr n' m (p + 1)
  end.

Lemma ustr_cstr n m p l : cstr m p l -> (length l <= n)%nat -> ustr n m p = l.
Proof.
  revert p l. induction n as [|n IH]; intros p l Hc Hl; destruct l as [|c l]; cbn [length] in Hl; try lia; try done; cbn [ustr].
  - cbn in Hc. by rewrite Hc.
  - destruct Hc as (H0 & -> & Hc). rewrite (proj2 (Z.eqb_neq _ _) H0). by rewrite (IH _ l) by (done || lia).
Qed.

(** The string the bytes hold is determined. *)
Lemma cstr_inj m p l1 l2 : cstr m p l1 -> cstr m p l2 -> l1 = l2.
Proof.
  revert p l2. induction l1 as [|c l1 IH]; intros p [|d l2]; cbn; try done.
  - intros ? (? & ? & _). congruence.
  - intros (? & ? & _) ?. congruence.
  - intros (? & <- & ?) (? & <- & ?). f_equal. eauto.
Qed.
