(* ===== verification/Ulib.v ===== *)
(** * The user library: user_space/ulib_link/user_lib.c, statistics.c

    Functions on memory are functions on the byte map; [char] is unsigned on RISC-V.
    Loops that run to a terminator take a fuel.  Functions that make system calls are
    programs over the memory. *)

From S2P Require Import Prelude Hart VmSystem Mem Str Kprint Bio Sysfile UserSys.

(** ** Random numbers: [_rand_seed] is an [unsigned long] *)

Definition rand_seed_init : Z := 1.
Definition srand (seed : Z) : Z := u32 seed.
(** The new seed and the number. *)
Definition rand (seed : Z) : Z * Z :=
  let seed' := u64 (u64 (seed * 1103515245) + 12345) in
  (seed', Z.land (u32 (Z.shiftr seed' 16)) 32767).

(** ** Strings and memory *)

(** [while ( *s++ = *t++ ) != 0) ;] *)
Fixpoint strcpy (fuel : nat) (m : mem) (s t : Z) : option mem :=
  match fuel with
  | O => None
  | S fuel' =>
      let c := ld8 m t in
      let m' := st8 m s c in
      if c =? 0 then Some m' else strcpy fuel' m' (s + 1) (t + 1)
  end.

Fixpoint strcmp (fuel : nat) (m : mem) (p q : Z) : option Z :=
  match fuel with
  | O => None
  | S fuel' =>
      if negb (ld8 m p =? 0) && (ld8 m p =? ld8 m q) then strcmp fuel' m (p + 1) (q + 1)
      else Some (ld8 m p - ld8 m q)
  end.

(** [int n] counts; the result is converted to [uint]. *)
Fixpoint strlen_from (fuel : nat) (m : mem) (s n : Z) : option Z :=
  match fuel with
  | O => None
  | S fuel' => if ld8 m (s + n) =? 0 then Some (u32 n) else strlen_from fuel' m s (n + 1)
  end.
Definition strlen (fuel : nat) (m : mem) (s : Z) : option Z := strlen_from fuel m s 0.

(** [cdst[i] = c] for [i] below [n]. *)
Fixpoint memset_from (rounds : nat) (m : mem) (cdst c i : Z) : mem :=
  match rounds with
  | O => m
  | S rounds' => memset_from rounds' (st8 m (cdst + i) c) cdst c (i + 1)
  end.
Definition memset (m : mem) (dst c n : Z) : mem := memset_from (Z.to_nat n) m dst c 0.

(** A pointer, or 0 when [c] is not in the string.  The terminator is not found. *)
Fixpoint strchr (fuel : nat) (m : mem) (s c : Z) : option Z :=
  match fuel with
  | O => None
  | S fuel' => if ld8 m s =? 0 then Some 0 else if ld8 m s =? c then Some s else strchr fuel' m (s + 1) c
  end.

(** [n = n * 10 + *s++ - '0'] on [int]: leaving its range is undefined. *)
Fixpoint atoi_from (fuel : nat) (m : mem) (s n : Z) : utree mem Z :=
  match fuel with
  | O => UNoFuel
  | S fuel' =>
      let c := ld8 m s in
      if (48 <=? c) && (c <=? 57) then
        if 2 ^ 31 <=? n * 10 + c then UUndef else atoi_from fuel' m (s + 1) (n * 10 + c - 48)
      else UDone n m
  end.
Definition atoi (fuel : nat) (s : Z) : U mem Z := fun m => atoi_from fuel m s 0.

Definition memmove (m : mem) (vdst vsrc n : Z) : mem :=
  if vdst <? vsrc then copy_up (Z.to_nat n) m vdst vsrc
  else copy_down (Z.to_nat n) m (vdst + n) (vsrc + n).

Fixpoint memcmp_from (n : nat) (m : mem) (p1 p2 : Z) : Z :=
  match n with
  | O => 0
  | S n' => if negb (ld8 m p1 =? ld8 m p2) then ld8 m p1 - ld8 m p2 else memcmp_from n' m (p1 + 1) (p2 + 1)
  end.
Definition memcmp (m : mem) (s1 s2 n : Z) : Z := memcmp_from (Z.to_nat n) m s1 s2.

(** [n] goes from [uint] to the [int] of [memmove]. *)
Definition memcpy (m : mem) (dst src n : Z) : mem := memmove m dst src (i32 n).

(** ** Input *)

(** The reads and writes of a buffer in memory. *)
Definition sys_read_to (fd p n : Z) : U mem Z :=
  '(r, d) ← usys2 (CRead fd n);
  umodify (fun m => store_bytes m p d) ;;
  mret r.
Definition sys_write_from (fd p n : Z) : U mem Z :=
  m ← uget;
  usys (CWrite fd (load_bytes m p (Z.to_nat n))).

(** The loop of [gets]: [i] characters are in; the answer is the final [i]. *)
Fixpoint gets_loop (fuel : nat) (buf max i : Z) : U mem Z :=
  match fuel with
  | O => uno_fuel
  | S fuel' =>
      if i + 1 <? max then
        '(cc, d) ← usys2 (CRead 0 1);
        if cc <? 1 then mret i else
        c ← uopt (d !! 0%nat);
        umodify (fun m => st8 m (buf + i) c) ;;
        if (u8 c =? 10) || (u8 c =? 13) then mret (i + 1) else gets_loop fuel' buf max (i + 1)
      else mret i
  end.
Definition gets (buf max : Z) : U mem Z :=
  i ← gets_loop (S (Z.to_nat max)) buf max 0;
  umodify (fun m => st8 m (buf + i) 0) ;;
  mret buf.

Definition PATH_BYTES : nat := 128.
(** [open] and [fstat] with their arguments in memory; [fstat] fills [*st]. *)
Definition open (n omode : Z) : U mem Z := m ← uget; usys (COpen (ustr PATH_BYTES m n) omode).
Definition fstat (fd st : Z) : U mem Z :=
  '(r, d) ← usys2 (CFstat fd);
  umodify (fun m => store_bytes m st d) ;;
  mret r.
Definition stat (n st : Z) : U mem Z :=
  fd ← open n O_RDONLY;
  if fd <? 0 then mret (-1) else
  r ← fstat fd st;
  usys (CClose fd) ;;
  mret r.

(** ** Output *)

Definition putc {S} (fd c : Z) : U S unit := usys (CWrite fd [u8 c]) ;; mret tt.

(** [while (--i >= 0) putc(fd, buf[i])] *)
Fixpoint put_back {S} (fd : Z) (buf : list Z) : U S unit :=
  match buf with
  | [] => mret tt
  | c :: buf' => putc fd c ;; put_back fd buf'
  end.

(** [x] is [-xx] or [xx], as a [uint]; [char buf[16]]. *)
Definition int_digits (xx base sgn : Z) : option (list Z) :=
  let neg := negb (sgn =? 0) && (xx <? 0) in
  if neg && (xx =? - 2 ^ 31) then None else
  buf ← print_digits (S PRINT_BUF) (u32 (if neg then - xx else xx)) base [];
  if neg then buf_put buf 45 else Some buf.
Definition printint {S} (fd xx base sgn : Z) : U S unit :=
  buf ← uopt (int_digits xx base sgn);
  put_back fd (rev buf).

(** [for (i = 0; i < 16; i++, x <<= 4) putc(fd, digits[x >> 60])] *)
Fixpoint put_nibbles {S} (rounds : nat) (fd x : Z) : U S unit :=
  match rounds with
  | O => mret tt
  | S rounds' =>
      c ← uopt (digit (Z.shiftr x 60));
      putc fd c ;; put_nibbles rounds' fd (u64 (Z.shiftl x 4))
  end.
Definition printptr {S} (fd x : Z) : U S unit :=
  putc fd 48 ;; putc fd 120 ;; put_nibbles 16 fd x.

(** [while ( *s != 0) { putc(fd, *s); s++; }] *)
Fixpoint put_string (fuel : nat) (fd s : Z) : U mem unit :=
  match fuel with
  | O => uno_fuel
  | S fuel' =>
      m ← uget;
      if ld8 m s =? 0 then mret tt else putc fd (ld8 m s) ;; put_string fuel' fd (s + 1)
  end.

(** A [char *]: the address of a string in memory, or a constant of the program. *)
Inductive ustring := InMem (s : Z) | Const (l : list Z).
(** An argument: an [int], a [uint64], or a string. *)
Inductive uarg := AInt (x : Z) | ALong (x : Z) | AStr (s : ustring).
Definition next_uarg (ap : list uarg) : U mem (uarg * list uarg) :=
  match ap with a :: ap' => mret (a, ap') | [] => uundef end.
Definition va_int (ap : list uarg) : U mem (Z * list uarg) :=
  '(a, ap') ← next_uarg ap; match a with AInt x => mret (x, ap') | _ => uundef end.
Definition va_uint64 (ap : list uarg) : U mem (Z * list uarg) :=
  '(a, ap') ← next_uarg ap; match a with ALong x => mret (x, ap') | _ => uundef end.
Definition va_str (ap : list uarg) : U mem (ustring * list uarg) :=
  '(a, ap') ← next_uarg ap; match a with AStr s => mret (s, ap') | _ => uundef end.

(** One conversion, the character after the percent sign. *)
Definition convert (fuel : nat) (fd c : Z) (ap : list uarg) : U mem (list uarg) :=
  if c =? 100 then '(x, ap) ← va_int ap; printint fd x 10 1 ;; mret ap
  else if c =? 108 then '(x, ap) ← va_uint64 ap; printint fd (i32 x) 10 0 ;; mret ap
  else if c =? 120 then '(x, ap) ← va_int ap; printint fd x 16 0 ;; mret ap
  else if c =? 112 then '(x, ap) ← va_uint64 ap; printptr fd x ;; mret ap
  else if c =? 115 then
    '(s, ap) ← va_str ap;
    match s with
    | InMem p => if p =? 0 then put_back fd null_str else put_string fuel fd p
    | Const l => put_back fd l
    end ;;
    mret ap
  else if c =? 99 then '(x, ap) ← va_int ap; putc fd x ;; mret ap
  else if c =? 37 then putc fd c ;; mret ap
  else putc fd 37 ;; putc fd c ;; mret ap.

(** [state] is whether a percent sign came before. *)
Fixpoint vprintf_loop (fuel : nat) (fd : Z) (fmt : list Z) (state : bool) (ap : list uarg) : U mem unit :=
  match fmt with
  | [] => mret tt
  | c :: fmt' =>
      if state then ap ← convert fuel fd c ap; vprintf_loop fuel fd fmt' false ap
      else if c =? 37 then vprintf_loop fuel fd fmt' true ap
      else putc fd c ;; vprintf_loop fuel fd fmt' false ap
  end.
Definition vprintf (fuel : nat) (fd : Z) (fmt : list Z) (ap : list uarg) : U mem unit :=
  vprintf_loop fuel fd fmt false ap.
Definition fprintf (fuel : nat) (fd : Z) (fmt : list Z) (ap : list uarg) : U mem unit := vprintf fuel fd fmt ap.
Definition printf (fuel : nat) (fmt : list Z) (ap : list uarg) : U mem unit := vprintf fuel 1 fmt ap.

(** A string constant by its bytes. *)
Definition bytes_of (s : string) : list Z :=
  map (fun c => Z.of_N (Ascii.N_of_ascii c)) (String.list_ascii_of_string s).

(** ** statistics.c *)

(** Reads until the buffer is full; a read of no bytes goes round again. *)
Fixpoint statistics_loop (fuel : nat) (fd buf sz i : Z) : U mem Z :=
  match fuel with
  | O => uno_fuel
  | S fuel' =>
      if i <? sz then
        n ← sys_read_to fd (buf + i) (sz - i);
        if n <? 0 then mret i else statistics_loop fuel' fd buf sz (i + n)
      else mret i
  end.
Definition statistics (fuel : nat) (buf sz : Z) : U mem Z :=
  fd ← usys (COpen (bytes_of "statistics") O_RDONLY);
  if fd <? 0 then fprintf fuel 2 (bytes_of "stats: open failed" ++ [10]) [] ;; uexit 1 else
  i ← statistics_loop fuel fd buf sz 0;
  usys (CClose fd) ;;
  mret i.
