(* ===== verification/UlibSpec.v ===== *)
(** * What the user library promises

    Formatted output against a relation between formats, arguments and texts; strings
    and numbers; lines of input. *)

From stdpp Require Import functions.
From S2P Require Import Prelude Hart VmSystem Mem Str Kprint Bio BioSpec UserSys Ulib.

(** ** Numbers *)

Definition leading (w : list Z) : Prop := match w with 48 :: _ :: _ => False | _ => True end.
(** [w] is the usual way of writing [x]: it reads back, and has no leading zero. *)
Definition numeral (base : Z) (w : list Z) (x : Z) : Prop :=
  parse_int base w = Some x /\ leading (match w with 45 :: w' => w' | _ => w end).

Lemma digit_zero d c : 0 <= d -> digit d = Some c -> c = 48 -> d = 0.
Proof.
  unfold digit. intros H0 H ->. destruct (decide (d < 16)).
  - assert (d ∈ [0;1;2;3;4;5;6;7;8;9;10;11;12;13;14;15]) as Hin by (rewrite !elem_of_cons; lia).
    repeat (apply elem_of_cons in Hin as [->|Hin]; [done|]). by apply elem_of_nil in Hin.
  - apply lookup_lt_Some in H. cbn in H. lia.
Qed.

(** The most significant digit of a positive number is not zero. *)
Lemma print_digits_lead base : 2 <= base ->
  forall fuel x buf r, 0 < x -> print_digits fuel x base buf = Some r ->
  exists r' c, r = r' ++ [c] /\ c <> 48.
Proof.
  intros Hb. induction fuel as [|fuel IH]; intros x buf r Hx; cbn [print_digits]; [done|].
  destruct (digit (x mod base)) as [c|] eqn:Hd; [|done]. cbn [mbind option_bind].
  unfold buf_put. destruct (length buf <? PRINT_BUF)%nat; [|done]. cbn [mbind option_bind].
  destruct (Z.eqb_spec (x / base) 0) as [E|E].
  - intros [= <-]. exists buf, c. split; [done|]. intros ->.
    apply digit_zero in Hd; [|apply Z.mod_pos_bound; lia|done]. pose proof (Z.div_mod x base). lia.
  - apply IH. pose proof (Z.div_pos x base). lia.
Qed.

(** The digits of an unsigned number, as they are printed. *)
Lemma unsigned_numeral x base : 0 <= x < 2 ^ 32 -> 5 <= base <= 16 ->
  exists out, print_digits (S PRINT_BUF) x base [] = Some out /\ (1 <= length out < PRINT_BUF)%nat /\
    Forall digit_char out /\ parse_digits base (rev out) 0 = Some x /\ leading (rev out).
Proof.
  intros Hx Hb. assert (x < base ^ Z.of_nat 15) as Hx2.
  { apply Z.lt_le_trans with (5 ^ 15); [lia|]. apply (Z.pow_le_mono_l 5 base 15); lia. }
  destruct (print_digits_ok base 14 ltac:(lia) (S PRINT_BUF) x [] ltac:(lia)) as (out & E & Ho & Hd & Hp);
    [unfold PRINT_BUF; lia|cbn [length]; unfold PRINT_BUF; lia|].
  exists out. cbn [app] in E. split; [done|]. split; [unfold PRINT_BUF; lia|]. split; [done|].
  split; [rewrite (Hp 0); f_equal; lia|].
  destruct (decide (x = 0)) as [->|Hne].
  - cbn [print_digits] in E. rewrite Z.mod_0_l, Z.div_0_l in E by lia. injection E as <-. done.
  - destruct (print_digits_lead base ltac:(lia) _ x [] out ltac:(lia) E) as (r' & c & -> & Hc).
    rewrite rev_app_distr. cbn. repeat case_match; done.
Qed.

Lemma unsigned_is_numeral base out x : Forall digit_char out -> (1 <= length out)%nat ->
  parse_digits base (rev out) 0 = Some x -> leading (rev out) -> numeral base (rev out) x.
Proof.
  intros Hd Hl Hp Hz. split; [by apply parse_int_pos|].
  apply Forall_rev in Hd. destruct (rev out) as [|c l]; [done|].
  apply Forall_cons_1 in Hd as [[Hc Hne] _]. repeat case_match; subst; done.
Qed.

(** [printint] with a sign: every [int] but the least. *)
Lemma int_digits_signed xx base : - 2 ^ 31 < xx < 2 ^ 31 -> 5 <= base <= 16 ->
  exists out, int_digits xx base 1 = Some out /\ Forall (fun c => 0 <= c < 256) out /\ numeral base (rev out) xx.
Proof.
  intros Hx Hb. unfold int_digits. change (negb (1 =? 0)) with true. cbn [andb].
  rewrite (proj2 (Z.eqb_neq xx (- 2 ^ 31))), andb_false_r by lia.
  set (x := if xx <? 0 then - xx else xx).
  assert (0 <= x < 2 ^ 31) as Hx' by (unfold x; destruct (Z.ltb_spec xx 0); lia).
  rewrite (u32_small x) by lia.
  destruct (unsigned_numeral x base ltac:(lia) Hb) as (out & -> & Hl & Hd & Hp & Hz). cbn [mbind option_bind].
  assert (Forall (fun c => 0 <= c < 256) out) as Hd' by (eapply Forall_impl; [exact Hd|]; by intros ? []).
  unfold x in Hp. destruct (Z.ltb_spec xx 0).
  - unfold buf_put. rewrite (proj2 (Nat.ltb_lt _ _)) by (unfold PRINT_BUF in *; lia).
    exists (out ++ [45]). split; [done|]. split; [apply Forall_app; split; [done|]; apply Forall_singleton; lia|].
    unfold numeral. rewrite rev_app_distr. cbn [rev app parse_int]. rewrite Hp. cbn. split; [f_equal; lia|done].
  - exists out. split; [done|]. split; [done|]. by apply unsigned_is_numeral; [| lia| |].
Qed.

(** [printint] without a sign takes the bits as unsigned. *)
Lemma int_digits_unsigned xx base : 5 <= base <= 16 ->
  exists out, int_digits xx base 0 = Some out /\ Forall (fun c => 0 <= c < 256) out /\ numeral base (rev out) (u32 xx).
Proof.
  intros Hb. unfold int_digits. change (negb (0 =? 0)) with false. cbn [andb].
  destruct (unsigned_numeral (u32 xx) base (u32_range xx) Hb) as (out & -> & Hl & Hd & Hp & Hz). cbn [mbind option_bind].
  exists out. split; [done|]. split; [eapply Forall_impl; [exact Hd|]; by intros ? []|].
  by apply unsigned_is_numeral; [| lia| |].
Qed.

(** ** Output, piece by piece *)

Lemma map_u8 l : Forall (fun c => 0 <= c < 256) l -> map u8 l = l.
Proof. induction 1 as [|c l Hc _ IH]; [done|]. cbn [map]. rewrite IH. f_equal. by apply u8_small. Qed.

Lemma ubind_eq {S A B} (m : U S A) (f : A -> U S B) s : (m ≫= f) s = ubind (m s) f.
Proof. reflexivity. Qed.

Lemma putc_bind {S A} fd c (m : U S A) s : (putc fd c ;; m) s = USys (CWrite fd [u8 c]) (fun _ _ => m s).
Proof. reflexivity. Qed.

Lemma put_back_eq {S} fd buf (s : S) : put_back fd buf s = uwrites fd (map u8 buf) (UDone tt s).
Proof.
  induction buf as [|c buf IH]; [done|]. cbn [put_back map uwrites].
  by rewrite putc_bind, IH.
Qed.

Lemma put_string_eq fd m l : forall fuel p,
  cstr m p l -> (length l < fuel)%nat -> put_string fuel fd p m = uwrites fd l (UDone tt m).
Proof.
  induction l as [|c l IH]; intros [|fuel] p Hc Hl; cbn [length] in Hl; try lia; cbn [put_string]; rewrite ubind_eq; cbn [uget ubind].
  - cbn in Hc. by rewrite Hc.
  - destruct Hc as (H0 & Hc & Hl'). rewrite (proj2 (Z.eqb_neq _ _)) by congruence.
    rewrite putc_bind, (IH fuel (p + 1) Hl' ltac:(lia)).
    rewrite Hc, u8_small; [done|]. rewrite <- Hc. apply ld8_range.
Qed.

(** The sixteen hexadecimal digits of a pointer. *)
Lemma put_nibbles_ok {S} fd (s : S) n : forall x,
  0 <= x < 2 ^ 64 -> x mod 2 ^ (64 - 4 * Z.of_nat n) = 0 -> (n <= 16)%nat ->
  exists out, put_nibbles n fd x s = uwrites fd out (UDone tt s) /\ length out = n /\
    forall acc, parse_digits 16 out acc = Some (acc * 16 ^ Z.of_nat n + x / 2 ^ (64 - 4 * Z.of_nat n)).
Proof.
  induction n as [|n IH]; intros x Hx Hm Hn.
  - exists []. split; [done|]. split; [done|]. intros acc. cbn.
    change (64 - 4 * Z.of_nat 0) with 64. rewrite (Z.div_small x) by lia. f_equal. lia.
  - cbn [put_nibbles]. rewrite Z.shiftr_div_pow2 by lia.
    assert (0 <= x / 2 ^ 60 < 16) as Hd by lia.
    destruct (digit_undigit 16 (x / 2 ^ 60) ltac:(lia) Hd) as (c & Hc & Hu & Hr).
    rewrite Hc, ubind_eq. cbn [uopt mret U_ret ubind]. rewrite putc_bind.
    rewrite Z.shiftl_mul_pow2 by lia. change (2 ^ 4) with 16.
    assert (u64 (x * 16) = x mod 2 ^ 60 * 16) as Ex.
    { unfold u64. change (2 ^ 64) with (2 ^ 60 * 16). by rewrite Z.mul_mod_distr_r by lia. }
    rewrite Ex. set (y := x mod 2 ^ 60 * 16).
    set (k := 60 - 4 * Z.of_nat n). assert (0 <= k) as Hk by lia.
    assert (64 - 4 * Z.of_nat (Datatypes.S n) = k) as Ek by lia. rewrite Ek in Hm |- *.
    assert (64 - 4 * Z.of_nat n = k + 4) as Ek' by lia.
    assert (2 ^ 60 = 2 ^ k * 16 ^ Z.of_nat n) as E60.
    { change 16 with (2 ^ 4) at 1. rewrite <- Z.pow_mul_r by lia. rewrite <- Z.pow_add_r by lia. f_equal. lia. }
    assert (2 ^ k > 0) as Hkp by (pose proof (Z.pow_pos_nonneg 2 k); lia).
    assert (0 < 16 ^ Z.of_nat n) as Hnp by (apply Z.pow_pos_nonneg; lia).
    pose proof (Z.div_mod x (2 ^ k) ltac:(lia)) as Dx. rewrite Hm, Z.add_0_r in Dx. set (q := x / 2 ^ k) in *.
    assert (x / 2 ^ 60 = q / 16 ^ Z.of_nat n) as E1.
    { rewrite E60, Dx, Z.div_mul_cancel_l; lia. }
    assert (x mod 2 ^ 60 = 2 ^ k * (q mod 16 ^ Z.of_nat n)) as E2.
    { rewrite E60, Dx, Z.mul_mod_distr_l; lia. }
    destruct (IH y) as (out & E & Hl & Hp).
    { unfold y. lia. }
    { unfold y. rewrite Ek', Z.pow_add_r by lia. change (2 ^ 4) with 16. rewrite E2, Z.mul_mod_distr_r by lia.
      rewrite (Z.mul_comm (2 ^ k)), Z.mod_mul; lia. }
    { lia. }
    exists (c :: out). rewrite E. split; [cbn [uwrites]; rewrite u8_small; [done|]; destruct Hr; lia|]. split; [cbn; lia|].
    intros acc. cbn [parse_digits]. rewrite Hu. cbn [mbind option_bind]. rewrite Hp. f_equal.
    rewrite Ek', Z.pow_add_r by lia. change (2 ^ 4) with 16. unfold y. rewrite Z.div_mul_cancel_r by lia.
    rewrite E2, (Z.mul_comm (2 ^ k)), Z.div_mul by lia. rewrite E1.
    rewrite Nat2Z.inj_succ, Z.pow_succ_r by lia. pose proof (Z.div_mod q (16 ^ Z.of_nat n)). nia.
Qed.

(** ** Formats *)

(** [rendered m c ap out ap']: the conversion [c] takes the first of the arguments [ap]
    (or none), leaves [ap'] and prints [out].  The conversions are those that the comment
    of [vprintf] names. *)
Inductive rendered (m : mem) : Z -> list uarg -> list Z -> list uarg -> Prop :=
| r_dec x w ap : numeral 10 w x -> rendered m 100 (AInt x :: ap) w ap
| r_hex x w ap : numeral 16 w (u32 x) -> rendered m 120 (AInt x :: ap) w ap
| r_ptr x w ap : length w = 16%nat -> parse_digits 16 w 0 = Some x -> rendered m 112 (ALong x :: ap) (48 :: 120 :: w) ap
| r_str p l ap : p <> 0 -> cstr m p l -> rendered m 115 (AStr (InMem p) :: ap) l ap
| r_const l ap : rendered m 115 (AStr (Const l) :: ap) l ap
| r_null ap : rendered m 115 (AStr (InMem 0) :: ap) (bytes_of "(null)") ap
| r_percent ap : rendered m 37 ap [37] ap
| r_unknown c ap : c ∉ [100; 108; 120; 112; 115; 99; 37] -> rendered m c ap [37; u8 c] ap.

(** A text for a format: characters stand for themselves, a percent sign starts a
    conversion, and one at the end prints nothing. *)
Inductive formats (m : mem) : list Z -> list uarg -> list Z -> Prop :=
| f_end ap : formats m [] ap []
| f_cut ap : formats m [37] ap []
| f_char c fmt ap out : c <> 37 -> formats m fmt ap out -> formats m (c :: fmt) ap (u8 c :: out)
| f_conv c fmt ap w ap' out :
    rendered m c ap w ap' -> formats m fmt ap' out -> formats m (37 :: c :: fmt) ap (w ++ out).

(** The arguments a format asks for, and those that are left: strings shorter than
    [fuel], an [int] other than the least for the decimal conversion.  [%l] and [%c], which
    the code has and its comment has not, do not occur. *)
Definition takes (m : mem) (fuel : nat) (c : Z) (ap : list uarg) : option (list uarg) -> Prop := fun r =>
  match ap with
  | AInt x :: ap' =>
      if decide (c = 120) then r = Some ap'
      else if decide (c = 100) then - 2 ^ 31 < x < 2 ^ 31 /\ r = Some ap'
      else (c ∉ [99; 108; 112; 115]) /\ r = Some ap
  | ALong x :: ap' =>
      if decide (c = 112) then 0 <= x < 2 ^ 64 /\ r = Some ap' else (c ∉ [100; 120; 99; 108; 115]) /\ r = Some ap
  | AStr p :: ap' =>
      if decide (c = 115) then
        match p with
        | InMem p => p = 0 \/ exists l, cstr m p l /\ (length l < fuel)%nat
        | Const l => Forall (fun x => 0 <= x < 256) l
        end /\ r = Some ap'
      else (c ∉ [100; 120; 99; 108; 112]) /\ r = Some ap
  | [] => (c ∉ [100; 120; 99; 108; 112; 115]) /\ r = Some ap
  end.

Inductive supplied (m : mem) (fuel : nat) : list Z -> list uarg -> Prop :=
| s_end ap : supplied m fuel [] ap
| s_cut ap : supplied m fuel [37] ap
| s_char c fmt ap : c <> 37 -> supplied m fuel fmt ap -> supplied m fuel (c :: fmt) ap
| s_conv c fmt ap ap' : takes m fuel c ap (Some ap') -> supplied m fuel fmt ap' -> supplied m fuel (37 :: c :: fmt) ap.

Lemma printint_eq {S} fd x base sgn out (s : S) :
  int_digits x base sgn = Some out -> Forall (fun c => 0 <= c < 256) out ->
  printint fd x base sgn s = uwrites fd (rev out) (UDone tt s).
Proof.
  intros E Hc. unfold printint. rewrite E, ubind_eq. cbn [uopt mret U_ret ubind].
  rewrite put_back_eq, map_u8; [done|]. by apply Forall_rev.
Qed.

Lemma printptr_ok {S} fd x (s : S) : 0 <= x < 2 ^ 64 ->
  exists w, printptr fd x s = uwrites fd (48 :: 120 :: w) (UDone tt s) /\ length w = 16%nat /\ parse_digits 16 w 0 = Some x.
Proof.
  intros Hx. destruct (put_nibbles_ok fd s 16 x Hx) as (w & E & Hl & Hp); [apply Z.mod_1_r|done|].
  exists w. unfold printptr. rewrite !putc_bind, E. split; [done|]. split; [done|].
  rewrite (Hp 0). f_equal. change (64 - 4 * Z.of_nat 16) with 0. rewrite Z.div_1_r. lia.
Qed.

Lemma u32_i32 x : u32 (i32 x) = u32 x.
Proof.
  unfold u32, i32. rewrite Zminus_mod_idemp_l. f_equal. lia.
Qed.

Ltac conv_code :=
  unfold convert; cbn [Z.eqb Pos.eqb]; rewrite ?ubind_eq; unfold va_int, va_uint64, va_str, next_uarg;
  rewrite ?ubind_eq; cbn [mret U_ret ubind]; rewrite ?ubind_eq.

Lemma convert_unknown fuel fd c ap m : c ∉ [100; 120; 99; 108; 112; 115] ->
  exists w, convert fuel fd c ap m = uwrites fd w (UDone ap m) /\ rendered m c ap w ap.
Proof.
  rewrite !not_elem_of_cons. intros (H1 & H2 & H3 & H4 & H5 & H6 & _). unfold convert.
  rewrite !(proj2 (Z.eqb_neq _ _)) by done. destruct (Z.eqb_spec c 37) as [->|H7].
  - eexists. rewrite putc_bind. split; [|constructor]. done.
  - exists [37; u8 c]. rewrite !putc_bind. split; [done|]. constructor.
    rewrite !not_elem_of_cons. split_and!; try done. apply not_elem_of_nil.
Qed.

Lemma convert_ok fuel fd c ap ap' m : takes m fuel c ap (Some ap') ->
  exists w, convert fuel fd c ap m = uwrites fd w (UDone ap' m) /\ rendered m c ap w ap'.
Proof.
  unfold takes. destruct ap as [|[x|x|p] ap1].
  - intros [Hc [= ->]]. by apply convert_unknown.
  - case_decide as Hc; [|case_decide as Hd].
    + intros [= ->]. subst c. destruct (int_digits_unsigned x 16 ltac:(lia)) as (out & E & Hb & Hn).
      eexists. conv_code. rewrite (printint_eq fd x 16 0 out m E Hb), ubind_uwrites. split; [done|by constructor].
    + intros [Hx [= ->]]. subst c. destruct (int_digits_signed x 10 Hx ltac:(lia)) as (out & E & Hb & Hn).
      eexists. conv_code. rewrite (printint_eq fd x 10 1 out m E Hb), ubind_uwrites. split; [done|by constructor].
    + intros [Hu [= ->]]. rewrite !not_elem_of_cons in Hu. apply convert_unknown. rewrite !not_elem_of_cons. tauto.
  - case_decide as Hc.
    + intros [Hx [= ->]]. subst c. destruct (printptr_ok fd x m Hx) as (w & E & Hl & Hp).
      eexists. conv_code. rewrite E, ubind_uwrites. split; [done|by constructor].
    + intros [Hu [= ->]]. rewrite !not_elem_of_cons in Hu. apply convert_unknown. rewrite !not_elem_of_cons. tauto.
  - case_decide as Hc.
    + intros [Hs [= ->]]. subst c. destruct p as [p|l].
      2:{ exists l. conv_code. rewrite put_back_eq, map_u8, ubind_uwrites by done. split; [done|by constructor]. }
      destruct (Z.eqb_spec p 0) as [->|Hp0].
      * exists (bytes_of "(null)"). conv_code. split; [done|apply r_null].
      * destruct Hs as [?|(l & Hl & Hf)]; [done|]. exists l. conv_code.
        rewrite (proj2 (Z.eqb_neq _ _) Hp0), (put_string_eq fd m l fuel p Hl Hf), ubind_uwrites. split; [done|by constructor].
    + intros [Hu [= ->]]. rewrite !not_elem_of_cons in Hu. apply convert_unknown.
      rewrite !not_elem_of_cons. tauto.
Qed.

(** The conversions that the comment of [vprintf] does not name: [%l] takes a [uint64] and
    prints its low 32 bits, [%c] a character. *)
Lemma extra_conversions fuel fd x ap m :
  (exists w, convert fuel fd 108 (ALong x :: ap) m = uwrites fd w (UDone ap m) /\ numeral 10 w (u32 x)) /\
  convert fuel fd 99 (AInt x :: ap) m = uwrites fd [u8 x] (UDone ap m).
Proof.
  split; [|by conv_code]. destruct (int_digits_unsigned (i32 x) 10 ltac:(lia)) as (out & E & Hb & Hn). rewrite u32_i32 in Hn.
  eexists. conv_code. rewrite (printint_eq fd _ 10 0 out m E Hb), ubind_uwrites. by split.
Qed.

Lemma vprintf_loop_ok fuel fd m fmt ap : supplied m fuel fmt ap ->
  exists out, vprintf_loop fuel fd fmt false ap m = uwrites fd out (UDone tt m) /\ formats m fmt ap out.
Proof.
  induction 1 as [ap|ap|c fmt ap Hc _ (out & E & Hf)|c fmt ap ap' Ht _ (out & E & Hf)].
  - exists []. split; [done|constructor].
  - exists []. split; [done|constructor].
  - exists (u8 c :: out). cbn [vprintf_loop]. rewrite (proj2 (Z.eqb_neq _ _) Hc), putc_bind, E.
    split; [done|by constructor].
  - destruct (convert_ok fuel fd c ap ap' m Ht) as (w & Ew & Hw).
    exists (w ++ out). cbn [vprintf_loop]. rewrite Z.eqb_refl, ubind_eq, Ew, ubind_uwrites, uwrites_app. cbn [ubind].
    rewrite E. split; [done|by econstructor].
Qed.

(** C37: Formatted output of the user library, for the conversions [%d], [%x], [%p] and
    [%s] that its comment names.  For every format of these and arguments of the kinds it
    asks for, [fprintf] ends, changes no memory, and writes to the descriptor, byte by byte
    and whatever the kernel answers to a write, a text of the format: an int in decimal
    that reads back as the argument, in hexadecimal as its 32 bits, without superfluous
    zeros, pointers as sixteen digits, strings up to their terminator and "(null)" for a
    null pointer, [%%] as a percent sign, unknown conversions as they stand.  [%l] and [%c]
    are outside the claim, see [extra_conversions]. *)
Theorem fprintf_spec fuel fd fmt ap m :
  supplied m fuel fmt ap ->
  exists out, fprintf fuel fd fmt ap m = uwrites fd out (UDone tt m) /\ formats m fmt ap out.
Proof. apply vprintf_loop_ok. Qed.

(** A kernel that keeps what is written to a descriptor. *)
Definition recorder (fd : Z) : kernel (list Z) := fun c w =>
  match c with
  | CWrite fd' d => if fd' =? fd then (Z.of_nat (length d), [], w ++ d) else (-1, [], w)
  | _ => (-1, [], w)
  end.

Lemma interp_uwrites {S A} fd out (t : utree S A) w : interp (recorder fd) (uwrites fd out t) w = interp (recorder fd) t (w ++ out).
Proof.
  revert w. induction out as [|c out IH]; intros w; cbn [uwrites interp]; [by rewrite app_nil_r|].
  cbn [recorder]. rewrite Z.eqb_refl. cbn. by rewrite IH, <- app_assoc.
Qed.

Definition demo_user_mem : mem := store_bytes ∅ 8192 [104; 105; 0].
Definition demo_fmt : list Z := bytes_of "%s=%d %x%%".
Definition demo_args : list uarg := [AStr (InMem 8192); AInt (-20); AInt 255].

Lemma demo_supplied : supplied demo_user_mem 9 demo_fmt demo_args.
Proof.
  unfold demo_fmt, demo_args. cbn -[Z.pow demo_user_mem]. apply (s_conv _ _ _ _ _ [AInt (-20); AInt 255]).
  - split; [|done]. right. exists [104; 105]. split; [|cbn; lia]. cbn [cstr]. repeat split; by vm_compute.
  - apply s_char; [done|]. apply (s_conv _ _ _ _ _ [AInt 255]); [split; [lia|done]|].
    apply s_char; [done|]. apply (s_conv _ _ _ _ _ []); [done|].
    apply (s_conv _ _ _ _ _ []); [|constructor]. split; [|done]. by apply (bool_decide_unpack _).
Qed.

(** "%s=%d %x%%" with "hi", -20 and 255. *)
Lemma fprintf_spec_witness :
  formats demo_user_mem demo_fmt demo_args (bytes_of "hi=-20 ff%").
Proof.
  destruct (fprintf_spec 9 1 demo_fmt demo_args demo_user_mem demo_supplied) as (out & E & Hf).
  enough (bytes_of "hi=-20 ff%" = out) as -> by exact Hf.
  apply (f_equal (fun t => snd (interp (recorder 1) t []))) in E. rewrite interp_uwrites in E. cbn [interp snd app] in E.
  rewrite <- E. by vm_compute.
Defined.

(** ** Numbers from text *)

Definition is_digit (c : Z) : Prop := 48 <= c <= 57.
Definition ends_number (l : list Z) : Prop := match l with c :: _ => ~ is_digit c | [] => True end.

Lemma undigit_pos base c d : undigit base c = Some d -> 0 <= d.
Proof.
  unfold undigit. set (e := if (48 <=? c) && (c <=? 57) then c - 48 else if 97 <=? c then c - 87 else -1).
  destruct (Z.leb_spec 0 e); cbn [andb]; [|done]. destruct (e <? base); [|done]. by intros [= <-].
Qed.

Lemma parse_digits_le base l acc v : 0 <= acc -> 1 <= base -> parse_digits base l acc = Some v -> acc <= v.
Proof.
  revert acc. induction l as [|c l IH]; intros acc Ha Hb; cbn [parse_digits]; [by intros [= ->]|].
  destruct (undigit base c) as [d|] eqn:E; [|done]. apply undigit_pos in E.
  cbn [mbind option_bind]. intros H'. apply IH in H'; nia.
Qed.

Lemma atoi_from_ok m w rest v : forall fuel p n,
  cstr m p (w ++ rest) -> Forall is_digit w -> ends_number rest -> (length w < fuel)%nat ->
  0 <= n -> parse_digits 10 w n = Some v -> v + 48 < 2 ^ 31 ->
  atoi_from fuel m p n = UDone v m.
Proof.
  induction w as [|c w IH]; intros [|fuel] p n Hc Hd He Hf Hn Hp Hv; cbn [length] in Hf; try lia; cbn [atoi_from].
  - injection Hp as ->. cbn [app] in Hc. rewrite (cstr_head _ _ _ Hc).
    destruct rest as [|c rest]; [done|]. cbn in He. unfold is_digit in He.
    destruct (Z.leb_spec 48 c), (Z.leb_spec c 57); try done; lia.
  - apply Forall_cons_1 in Hd as [Hc1 Hd]. destruct Hc as (_ & -> & Hc). unfold is_digit in Hc1.
    rewrite (proj2 (Z.leb_le _ _) (proj1 Hc1)), (proj2 (Z.leb_le _ _) (proj2 Hc1)). cbn [andb].
    cbn [parse_digits] in Hp. unfold undigit in Hp.
    rewrite (proj2 (Z.leb_le _ _) (proj1 Hc1)), (proj2 (Z.leb_le _ _) (proj2 Hc1)) in Hp. cbn [andb] in Hp.
    rewrite (proj2 (Z.leb_le 0 (c - 48))), (proj2 (Z.ltb_lt (c - 48) 10)) in Hp by lia. cbn [andb mbind option_bind] in Hp.
    pose proof (parse_digits_le 10 w (n * 10 + (c - 48)) v ltac:(lia) ltac:(lia) Hp).
    rewrite (proj2 (Z.leb_gt _ _)) by lia.
    apply (IH fuel (p + 1)); try done; try lia. by replace (n * 10 + c - 48) with (n * 10 + (c - 48)) by lia.
Qed.

(** Decimal digits are digits. *)
Lemma undigit_decimal c d : undigit 10 c = Some d -> is_digit c.
Proof.
  unfold undigit, is_digit. destruct (Z.leb_spec 48 c), (Z.leb_spec c 57), (Z.leb_spec 97 c); cbn [andb]; try lia;
    repeat (match goal with |- context [?a <=? ?b] => destruct (Z.leb_spec a b) | |- context [?a <? ?b] => destruct (Z.ltb_spec a b) end); cbn; try done; lia.
Qed.
Lemma parse_digits_decimal w acc v : parse_digits 10 w acc = Some v -> Forall is_digit w.
Proof.
  revert acc. induction w as [|c w IH]; intros acc; cbn [parse_digits]; [constructor|].
  destruct (undigit 10 c) as [d|] eqn:E; [|done]. intros H. constructor; [by eapply undigit_decimal|by eapply IH].
Qed.

(** [atoi] reads back what [%d] prints.  For a number from 0 to 2^31 - 49 (above
    that the intermediate sum of [atoi] leaves [int]), printed by [printint] into a
    string and followed by anything but a digit, [atoi] ends and returns the number. *)
Theorem atoi_printint fuel m p x out rest :
  0 <= x < 2 ^ 31 - 48 -> int_digits x 10 1 = Some out ->
  cstr m p (rev out ++ rest) -> ends_number rest -> (length out < fuel)%nat ->
  atoi fuel p m = UDone x m.
Proof.
  intros Hx Ho Hc He Hf. destruct (int_digits_signed x 10 ltac:(lia) ltac:(lia)) as (out' & E & _ & Hp & _).
  rewrite E in Ho. injection Ho as ->.
  assert (parse_digits 10 (rev out) 0 = Some x) as Hp'.
  { unfold parse_int in Hp. repeat case_match; try done.
    apply fmap_Some in Hp as (v & Hv & ->). pose proof (parse_digits_le 10 _ 0 v ltac:(lia) ltac:(lia) Hv).
    assert (v = 0) as -> by lia. subst. vm_compute in E. by injection E as <-. }
  apply (atoi_from_ok m (rev out) rest); try done; try lia; [by eapply parse_digits_decimal|by rewrite length_rev].
Qed.

Lemma atoi_printint_witness :
  int_digits 407 10 1 = Some [55; 48; 52] /\
  atoi 9 8192 (store_bytes ∅ 8192 [52; 48; 55; 10; 0]) = UDone 407 (store_bytes ∅ 8192 [52; 48; 55; 10; 0]).
Proof.
  split; [by vm_compute|].
  apply (atoi_printint 9 _ 8192 407 [55; 48; 52] [10]); [lia|by vm_compute| |cbn; unfold is_digit; lia|cbn; lia].
  cbn [rev app cstr]. repeat split; by vm_compute.
Defined.

(** ** Lines of input *)

(** Descriptor 0 delivers the bytes typed so far; then its end. *)
Definition typed : kernel (list Z) := fun c w =>
  match c with
  | CRead fd n =>
      if fd =? 0 then let d := take (Z.to_nat n) w in (Z.of_nat (length d), d, drop (Z.to_nat n) w) else (-1, [], w)
  | _ => (-1, [], w)
  end.

(** At most [n] bytes, up to and with the first line feed or carriage return. *)
Fixpoint line_of (n : nat) (inp : list Z) : list Z :=
  match n, inp with
  | O, _ | _, [] => []
  | S n', c :: inp' => if (c =? 10) || (c =? 13) then [c] else c :: line_of n' inp'
  end.

Lemma line_of_prefix n inp : exists rest, inp = line_of n inp ++ rest.
Proof.
  revert inp. induction n as [|n IH]; intros [|c inp]; cbn; [by eexists..|].
  destruct ((c =? 10) || (c =? 13)); [by eexists|]. destruct (IH inp) as [rest E]. exists rest. cbn. by f_equal.
Qed.

Lemma gets_loop_ok buf max : forall n inp m i fuel, Forall (fun c => 0 <= c < 256) inp ->
  0 <= i -> i + 1 + Z.of_nat n = max -> (n < fuel)%nat ->
  interp typed (gets_loop fuel buf max i m) inp =
  (UDone (i + Z.of_nat (length (line_of n inp))) (store_bytes m (buf + i) (line_of n inp)), drop (length (line_of n inp)) inp).
Proof.
  induction n as [|n IH]; intros inp m i [|fuel] Hb Hi Hn Hf; try lia; cbn [gets_loop].
  - destruct (Z.ltb_spec (i + 1) max); [lia|]. cbn. by rewrite Z.add_0_r.
  - destruct (Z.ltb_spec (i + 1) max); [|lia]. rewrite ubind_eq. cbn [usys2 ubind interp typed].
    change (0 =? 0) with true. cbn iota. change (Z.to_nat 1) with 1%nat.
    destruct inp as [|c inp]; cbn [take drop length line_of]; [cbn; by rewrite Z.add_0_r|].
    rewrite Forall_cons in Hb. destruct Hb as [Hc Hb]. rewrite take_0, drop_0. cbn [length]. change (Z.of_nat 1 <? 1) with false. cbn iota.
    unfold mbind, U_bind. cbn [uopt lookup list_lookup mret U_ret ubind umodify].
    rewrite (u8_small c) by lia. destruct ((c =? 10) || (c =? 13)); [done|].
    rewrite (IH inp _ (i + 1) fuel Hb) by lia. cbn [length store_bytes drop]. f_equal. f_equal; [lia|].
    by rewrite Z.add_assoc.
Qed.

Lemma length_line_of n inp : (length (line_of n inp) <= n)%nat.
Proof.
  revert inp. induction n as [|n IH]; intros [|c inp]; cbn; try lia.
  destruct ((c =? 10) || (c =? 13)); cbn; [lia|]. specialize (IH inp). lia.
Qed.

Lemma cstr_store_bytes m a l : Forall (fun c => 0 < c < 256) l -> cstr (st8 (store_bytes m a l) (a + Z.of_nat (length l)) 0) a l.
Proof.
  revert m a. induction l as [|c l IH]; intros m a Hl; cbn [store_bytes length cstr].
  - rewrite Z.add_0_r, ld8_st8, decide_True; done.
  - apply Forall_cons_1 in Hl as [Hc Hl]. split; [lia|]. split.
    + rewrite ld8_st8, decide_False by lia. rewrite ld8_store_bytes, decide_False, ld8_st8, decide_True by lia. by rewrite u8_small by lia.
    + specialize (IH (st8 m a c) (a + 1) Hl). by replace (a + Z.of_nat (S (length l))) with (a + 1 + Z.of_nat (length l)) by lia.
Qed.

(** [gets] reads one line.  With input that has no NUL, [gets (buf, max)] ends,
    takes from the input at most [max - 1] bytes, up to and with the first line end,
    leaves the rest for the next call, and makes [buf] the string of what it took
    (empty at the end of the input); it writes only inside [buf .. buf + max). *)
Theorem gets_spec buf max inp m :
  1 <= max -> Forall (fun c => 0 < c < 256) inp ->
  exists m' line, interp typed (gets buf max m) inp = (UDone buf m', drop (length line) inp) /\
    line = line_of (Z.to_nat (max - 1)) inp /\ cstr m' buf line /\
    same_outside (fun a => buf <= a < buf + max) m m'.
Proof.
  intros Hmax Hb. unfold gets. rewrite ubind_eq, interp_bind.
  rewrite (gets_loop_ok buf max (Z.to_nat (max - 1))); [| |lia|lia|lia].
  2:{ eapply Forall_impl; [exact Hb|]. cbn. lia. }
  rewrite Z.add_0_l, Z.add_0_r. set (line := line_of _ inp). eexists _, line.
  split; [reflexivity|]. split; [done|].
  assert (length line <= Z.to_nat (max - 1))%nat by apply length_line_of.
  destruct (line_of_prefix (Z.to_nat (max - 1)) inp) as [rest E]. fold line in E. rewrite E in Hb.
  split; [apply cstr_store_bytes; by apply Forall_app in Hb as [Hb _]|].
  intros a Ha. rewrite ld8_st8, decide_False by lia. rewrite ld8_store_bytes, decide_False by lia. done.
Qed.

(** "ab", a line feed and more. *)
Lemma gets_spec_witness :
  exists m', interp typed (gets 4096 100 ∅) [97; 98; 10; 99] = (UDone 4096 m', [99]) /\ cstr m' 4096 [97; 98; 10].
Proof.
  destruct (gets_spec 4096 100 [97; 98; 10; 99] ∅ ltac:(lia)) as (m' & line & E & El & Hc & _).
  - repeat (constructor; [lia|]). constructor.
  - exists m'. vm_compute in El. subst line. split; [exact E|exact Hc].
Defined.

(** ** Strings *)

Lemma strlen_from_ok m s l : forall fuel n, cstr m (s + n) l -> (length l < fuel)%nat -> 0 <= n -> n + Z.of_nat (length l) < 2 ^ 32 ->
  strlen_from fuel m s n = Some (n + Z.of_nat (length l)).
Proof.
  induction l as [|c l IH]; intros [|fuel] n Hc Hf Hn Hl; cbn [length] in *; try lia; cbn [strlen_from].
  - cbn in Hc. rewrite Hc. cbn. f_equal. rewrite u32_small; lia.
  - destruct Hc as (H0 & -> & Hc). rewrite (proj2 (Z.eqb_neq _ _) H0). rewrite (IH fuel (n + 1)); [f_equal; lia| |lia|lia|lia].
    by rewrite Z.add_assoc.
Qed.

Lemma strlen_ok fuel m s l : cstr m s l -> (length l < fuel)%nat -> Z.of_nat (length l) < 2 ^ 32 ->
  strlen fuel m s = Some (Z.of_nat (length l)).
Proof. intros Hc Hf Hl. apply (strlen_from_ok m s l fuel 0); [by rewrite Z.add_0_r|done|lia|lia]. Qed.

(** [strchr] finds the first occurrence. *)
Lemma strchr_ok m l c : forall fuel s, cstr m s l -> (length l < fuel)%nat ->
  strchr fuel m s c = Some (match first_index (fun x => x =? c) l with Some i => s + Z.of_nat i | None => 0 end).
Proof.
  induction l as [|x l IH]; intros [|fuel] s Hc Hf; cbn [length] in Hf; try lia; cbn [strchr].
  - cbn in Hc. by rewrite Hc.
  - destruct Hc as (H0 & -> & Hc). rewrite (proj2 (Z.eqb_neq _ _) H0). unfold first_index. cbn [list_find].
    destruct (x =? c) eqn:E; (case_decide as Hd; cbn in Hd; try done); cbn; [f_equal; lia|].
    rewrite (IH fuel (s + 1) Hc) by lia. unfold first_index. f_equal.
    destruct (list_find _ l) as [[i y]|]; cbn; [lia|done].
Qed.

(** [strcmp] compares lexicographically: the sign of its result. *)
Fixpoint lex (l1 l2 : list Z) : comparison :=
  match l1, l2 with
  | [], [] => Eq
  | [], _ :: _ => Lt
  | _ :: _, [] => Gt
  | c :: l1', d :: l2' => match c ?= d with Eq => lex l1' l2' | r => r end
  end.
Lemma strcmp_ok m l1 : forall l2 fuel p q, cstr m p l1 -> cstr m q l2 -> (length l1 < fuel)%nat ->
  exists d, strcmp fuel m p q = Some d /\ (d ?= 0) = lex l1 l2.
Proof.
  induction l1 as [|c l1 IH]; intros l2 [|fuel] p q Hp Hq Hf; cbn [length] in Hf; try lia; cbn [strcmp].
  - rewrite (cstr_head _ _ _ Hp), (cstr_head _ _ _ Hq). cbn. eexists. split; [done|].
    destruct l2 as [|d l2]; [done|]. cbn. destruct Hq as (H0 & <- & _). pose proof (ld8_range m q). apply Z.compare_lt_iff. lia.
  - destruct Hp as (H0 & Ep & Hp). rewrite Ep, (cstr_head _ _ _ Hq). rewrite (proj2 (Z.eqb_neq _ _) H0). cbn [negb andb].
    pose proof (ld8_range m p). destruct l2 as [|d l2].
    + rewrite (proj2 (Z.eqb_neq _ _) H0). eexists. split; [done|]. cbn. apply Z.compare_gt_iff. lia.
    + destruct Hq as (H1 & Eq & Hq). cbn [lex]. destruct (Z.eqb_spec c d) as [->|Hne].
      * rewrite Z.compare_refl. apply IH; [done|done|lia].
      * eexists. split; [done|]. destruct (Z.compare_spec c d); [done| |]; [apply Z.compare_lt_iff|apply Z.compare_gt_iff]; lia.
Qed.

(** [strcpy] to a place that does not overlap. *)
Lemma strcpy_ok l : forall fuel m s t, cstr m t l -> (length l < fuel)%nat ->
  s + Z.of_nat (length l) < t \/ t + Z.of_nat (length l) < s ->
  exists m', strcpy fuel m s t = Some m' /\ cstr m' s l /\ same_outside (fun a => s <= a <= s + Z.of_nat (length l)) m m'.
Proof.
  induction l as [|c l IH]; intros [|fuel] m s t Hc Hf Hd; cbn [length] in *; try lia; cbn [strcpy].
  - cbn in Hc. rewrite Hc. cbn. eexists. split; [done|]. split; [by rewrite ld8_st8, decide_True|].
    intros a Ha. rewrite ld8_st8, decide_False; [done|lia].
  - destruct Hc as (H0 & Ec & Hc). rewrite Ec, (proj2 (Z.eqb_neq _ _) H0).
    destruct (IH fuel (st8 m s c) (s + 1) (t + 1)) as (m' & -> & Hm & Hs); [|lia|lia|].
    { eapply cstr_frame; [|exact Hc]. intros b Hb. rewrite ld8_st8, decide_False; [done|lia]. }
    eexists. split; [done|]. split.
    + cbn. split; [done|]. split; [|done]. rewrite (Hs s), ld8_st8, decide_True by (done || lia).
      apply u8_small. rewrite <- Ec. apply ld8_range.
    + intros a Ha. rewrite (Hs a) by lia. rewrite ld8_st8, decide_False; [done|lia].
Qed.

Lemma memcmp_ok m n : forall p q, memcmp_from n m p q = 0 <-> (forall i, 0 <= i < Z.of_nat n -> ld8 m (p + i) = ld8 m (q + i)).
Proof.
  induction n as [|n IH]; intros p q; cbn [memcmp_from]; [split; [lia|done]|].
  destruct (Z.eqb_spec (ld8 m p) (ld8 m q)) as [E|E]; cbn [negb].
  - rewrite IH. split.
    + intros H i Hi. destruct (decide (i = 0)) as [->|]; [by rewrite !Z.add_0_r|].
      specialize (H (i - 1) ltac:(lia)). replace (p + 1 + (i - 1)) with (p + i) in H by lia. by replace (q + 1 + (i - 1)) with (q + i) in H by lia.
    + intros H i Hi. specialize (H (i + 1) ltac:(lia)). replace (p + 1 + i) with (p + (i + 1)) by lia. by replace (q + 1 + i) with (q + (i + 1)) by lia.
  - split; [lia|]. intros H. specialize (H 0 ltac:(lia)). rewrite !Z.add_0_r in H. done.
Qed.

Lemma rand_range seed : 0 <= snd (rand seed) < 32768.
Proof.
  cbn [rand snd]. change 32767 with (Z.ones 15). rewrite Z.land_ones by lia. apply Z.mod_pos_bound. lia.
Qed.
