(* ===== verification/Shell.v ===== *)
(** * The shell: user_space/sh.c

    Commands are nodes of a heap, named by the order in which they are allocated:
    [parseexec] fills the argument vector of a node that its redirections already
    point to.  The line is in memory; words are pairs of pointers into it until
    [nulterminate] writes the terminators. *)

From stdpp Require Import functions.
From S2P Require Import Prelude Hart VmSystem Mem Str Kprint Bio Sysfile UserSys Ulib.

Definition MAXARGS : nat := 10.

(** The five structures with their type tags; [argv] and [eargv] hold 0 for NULL. *)
Inductive cmdnode :=
| EXEC (argv eargv : list Z)
| REDIR (cmd : nat) (file efile mode fd : Z)
| PIPE (leftc rightc : nat)
| LIST (leftc rightc : nat)
| BACK (cmd : nat).

(** [sh_room]: how many more nodes [malloc] can provide. *)
Record shst := ShSt { sh_mem : mem; sh_cmds : list cmdnode; sh_room : nat }.
Definition set_sh_mem (m : mem) (s : shst) : shst := ShSt m (sh_cmds s) (sh_room s).
Definition set_sh_cmds (c : list cmdnode) (s : shst) : shst := ShSt (sh_mem s) c (sh_room s).
Definition sh_mem_lens : lens shst mem := Lens sh_mem set_sh_mem.
Definition shmem {A} (m : U mem A) : U shst A := uzoom sh_mem_lens m.

(** ** Constructors.  [malloc] is not checked: its NULL is written to. *)

Definition new_cmd (c : cmdnode) : U shst nat := fun s =>
  match sh_room s with
  | O => UUndef
  | S room => UDone (length (sh_cmds s)) (ShSt (sh_mem s) (sh_cmds s ++ [c]) room)
  end.
Definition execcmd : U shst nat := new_cmd (EXEC (replicate MAXARGS 0) (replicate MAXARGS 0)).
Definition redircmd (subcmd : nat) (file efile mode fd : Z) : U shst nat := new_cmd (REDIR subcmd file efile mode fd).
Definition pipecmd (leftc rightc : nat) : U shst nat := new_cmd (PIPE leftc rightc).
Definition listcmd (leftc rightc : nat) : U shst nat := new_cmd (LIST leftc rightc).
Definition backcmd (subcmd : nat) : U shst nat := new_cmd (BACK subcmd).

Definition get_cmd (i : nat) : U shst cmdnode := s ← uget; uopt (sh_cmds s !! i).

(** [cmd->argv[i] = q; cmd->eargv[i] = eq] *)
Definition set_arg (cmd i : nat) (q eq : Z) : U shst unit :=
  c ← get_cmd cmd;
  match c with
  | EXEC argv eargv =>
      if (i <? MAXARGS)%nat
      then umodify (fun s => set_sh_cmds (<[cmd := EXEC (<[i := q]> argv) (<[i := eq]> eargv)]> (sh_cmds s)) s)
      else uundef
  | _ => uundef
  end.

(** ** Tokens *)

Definition whitespace : list Z := [32; 9; 13; 10; 11].
Definition symbols : list Z := [60; 124; 62; 38; 59; 40; 41].
(** [strchr(set, c) != 0]; the terminator is not found. *)
Definition in_set (set : list Z) (c : Z) : bool := existsb (Z.eqb c) set.
#[global] Arguments in_set _ _ : simpl never.

(** [while (s < es && strchr(whitespace, *s)) s++] *)
Fixpoint skip_white (rounds : nat) (m : mem) (s es : Z) : Z :=
  match rounds with
  | O => s
  | S rounds' => if (s <? es) && in_set whitespace (ld8 m s) then skip_white rounds' m (s + 1) es else s
  end.
Definition skip_ws (m : mem) (s es : Z) : Z := skip_white (Z.to_nat (es - s)) m s es.

(** [while (s < es && !strchr(whitespace, *s) && !strchr(symbols, *s)) s++] *)
Fixpoint skip_plain (rounds : nat) (m : mem) (s es : Z) : Z :=
  match rounds with
  | O => s
  | S rounds' =>
      if (s <? es) && negb (in_set whitespace (ld8 m s)) && negb (in_set symbols (ld8 m s))
      then skip_plain rounds' m (s + 1) es else s
  end.

Definition tok_a : Z := 97.
Definition tok_plus : Z := 43.

(** The answer: the token, its two ends, and the new value of the pointer. *)
Record token_at := TokenAt { tk : Z; tk_q : Z; tk_eq : Z; tk_ps : Z }.
Definition gettoken (m : mem) (ps es : Z) : token_at :=
  let q := skip_ws m ps es in
  let c := ld8 m q in
  let '(ret, eq) :=
    if c =? 0 then (c, q)
    else if in_set [124; 40; 41; 59; 38; 60] c then (c, q + 1)
    else if c =? 62 then if ld8 m (q + 1) =? 62 then (tok_plus, q + 2) else (c, q + 1)
    else (tok_a, skip_plain (Z.to_nat (es - q)) m q es) in
  TokenAt ret q eq (skip_ws m eq es).

Definition peek (m : mem) (ps es : Z) (toks : list Z) : bool * Z :=
  let s := skip_ws m ps es in
  (negb (ld8 m s =? 0) && in_set toks (ld8 m s), s).

(** ** The parser.  A function takes the pointer and returns its new value. *)

Section Parser.
Variable fuel : nat.   (* of the output *)

Definition sh_panic {A} (msg : string) : U shst A :=
  shmem (fprintf fuel 2 (bytes_of "%s" ++ [10]) [AStr (Const (bytes_of msg))]) ;; uexit 1.

Definition gettok (ps es : Z) : U shst token_at := ugets (fun s => gettoken (sh_mem s) ps es).
Definition peek_ (ps es : Z) (toks : list Z) : U shst (bool * Z) := ugets (fun s => peek (sh_mem s) ps es toks).

Fixpoint parseredirs (n : nat) (cmd : nat) (ps es : Z) : U shst (nat * Z) :=
  match n with
  | O => uno_fuel
  | S n' =>
      '(more, ps) ← peek_ ps es [60; 62];
      if (more : bool) then
        t ← gettok ps es;
        f ← gettok (tk_ps t) es;
        if negb (tk f =? tok_a) then sh_panic "missing file for redirection" else
        cmd ← (if tk t =? 60 then redircmd cmd (tk_q f) (tk_eq f) O_RDONLY 0
               else if tk t =? 62 then redircmd cmd (tk_q f) (tk_eq f) (Z.lor (Z.lor O_WRONLY O_CREATE) O_TRUNC) 1
               else if tk t =? tok_plus then redircmd cmd (tk_q f) (tk_eq f) (Z.lor O_WRONLY O_CREATE) 1
               else mret cmd);
        parseredirs n' cmd (tk_ps f) es
      else mret (cmd, ps)
  end.

(** The loop of [parseexec] over the arguments of node [cmd]; the answer has [argc]. *)
Fixpoint parseargs (n : nat) (cmd argc ret : nat) (ps es : Z) : U shst (nat * nat * Z) :=
  match n with
  | O => uno_fuel
  | S n' =>
      '(stop, ps) ← peek_ ps es [124; 41; 38; 59];
      if (stop : bool) then mret (argc, ret, ps) else
      t ← gettok ps es;
      if tk t =? 0 then mret (argc, ret, tk_ps t) else
      if negb (tk t =? tok_a) then sh_panic "syntax" else
      set_arg cmd argc (tk_q t) (tk_eq t) ;;
      if (MAXARGS <=? S argc)%nat then sh_panic "too many args" else
      '(ret, ps) ← parseredirs n' ret (tk_ps t) es;
      parseargs n' cmd (S argc) ret ps es
  end.

(** The loop of [parseline] over ampersands. *)
Fixpoint parsebacks (n : nat) (cmd : nat) (ps es : Z) : U shst (nat * Z) :=
  match n with
  | O => uno_fuel
  | S n' =>
      '(more, ps) ← peek_ ps es [38];
      if (more : bool) then
        t ← gettok ps es;
        cmd ← backcmd cmd;
        parsebacks n' cmd (tk_ps t) es
      else mret (cmd, ps)
  end.

Fixpoint parseline (n : nat) (ps es : Z) : U shst (nat * Z) :=
  match n with
  | O => uno_fuel
  | S n' =>
      '(cmd, ps) ← parsepipe n' ps es;
      '(cmd, ps) ← parsebacks n' cmd ps es;
      '(semi, ps) ← peek_ ps es [59];
      if (semi : bool) then
        t ← gettok ps es;
        '(rightc, ps) ← parseline n' (tk_ps t) es;
        cmd ← listcmd cmd rightc;
        mret (cmd, ps)
      else mret (cmd, ps)
  end
with parsepipe (n : nat) (ps es : Z) : U shst (nat * Z) :=
  match n with
  | O => uno_fuel
  | S n' =>
      '(cmd, ps) ← parseexec n' ps es;
      '(bar, ps) ← peek_ ps es [124];
      if (bar : bool) then
        t ← gettok ps es;
        '(rightc, ps) ← parsepipe n' (tk_ps t) es;
        cmd ← pipecmd cmd rightc;
        mret (cmd, ps)
      else mret (cmd, ps)
  end
with parseexec (n : nat) (ps es : Z) : U shst (nat * Z) :=
  match n with
  | O => uno_fuel
  | S n' =>
      '(paren, ps) ← peek_ ps es [40];
      if (paren : bool) then parseblock n' ps es else
      cmd ← execcmd;
      '(ret, ps) ← parseredirs n' cmd ps es;
      '(argc, ret, ps) ← parseargs n' cmd 0 ret ps es;
      set_arg cmd argc 0 0 ;;
      mret (ret, ps)
  end
with parseblock (n : nat) (ps es : Z) : U shst (nat * Z) :=
  match n with
  | O => uno_fuel
  | S n' =>
      '(paren, ps) ← peek_ ps es [40];
      if negb paren then sh_panic "parseblock" else
      t ← gettok ps es;
      '(cmd, ps) ← parseline n' (tk_ps t) es;
      '(close, ps) ← peek_ ps es [41];
      if negb close then sh_panic "syntax - missing )" else
      t ← gettok ps es;
      parseredirs n' cmd (tk_ps t) es
  end.

(** [for (i = 0; ecmd->argv[i]; i++) *ecmd->eargv[i] = 0] *)
Fixpoint nul_args (argv eargv : list Z) : U shst unit :=
  match argv, eargv with
  | q :: argv', eq :: eargv' =>
      if q =? 0 then mret tt
      else umodify (fun s => set_sh_mem (st8 (sh_mem s) eq 0) s) ;; nul_args argv' eargv'
  | _, _ => uundef
  end.

Fixpoint nulterminate (n : nat) (cmd : nat) : U shst nat :=
  match n with
  | O => uno_fuel
  | S n' =>
      c ← get_cmd cmd;
      match c with
      | EXEC argv eargv => nul_args argv eargv
      | REDIR sub _ efile _ _ =>
          nulterminate n' sub ;; umodify (fun s => set_sh_mem (st8 (sh_mem s) efile 0) s)
      | PIPE leftc rightc => nulterminate n' leftc ;; nulterminate n' rightc ;; mret tt
      | LIST leftc rightc => nulterminate n' leftc ;; nulterminate n' rightc ;; mret tt
      | BACK sub => nulterminate n' sub ;; mret tt
      end ;;
      mret cmd
  end.

Definition parsecmd (n : nat) (s : Z) : U shst nat :=
  st ← uget;
  len ← ufuel (Ulib.strlen fuel (sh_mem st) s);
  let es := s + len in
  '(cmd, s) ← parseline n s es;
  r ← peek_ s es [];
  let s := snd r in
  if negb (s =? es) then
    shmem (fprintf fuel 2 (bytes_of "leftovers: %s" ++ [10]) [AStr (InMem s)]) ;; sh_panic "syntax"
  else
    nulterminate n cmd ;;
    mret cmd.

(** ** Running commands *)

(** [fork] or panic. *)
Definition fork1 : U shst Z :=
  pid ← usys CFork;
  if pid =? -1 then sh_panic "fork" else mret pid.

Definition EXEC_BYTES : nat := 4096.
(** The strings of an argument vector. *)
Fixpoint argv_strings (m : mem) (argv : list Z) : list (list Z) :=
  match argv with
  | [] => []
  | q :: argv' => if q =? 0 then [] else ustr EXEC_BYTES m q :: argv_strings m argv'
  end.

(** The two ends of a pipe, as [pipe] stores them: two [int]s. *)
Definition pipe_ends (d : list Z) : option (Z * Z) :=
  match d with
  | [a0; a1; a2; a3; b0; b1; b2; b3] =>
      Some (a0 + 256 * a1 + 65536 * a2 + 16777216 * a3, b0 + 256 * b1 + 65536 * b2 + 16777216 * b3)
  | _ => None
  end.

(** Never returns: every branch ends in [exit]. *)
Fixpoint runcmd (n : nat) (cmd : nat) : U shst unit :=
  match n with
  | O => uno_fuel
  | S n' =>
      c ← get_cmd cmd;
      m ← ugets sh_mem;
      match c with
      | EXEC argv _ =>
          q ← uopt (argv !! 0%nat);
          if q =? 0 then uexit 1 else
          usys (CExec (ustr PATH_BYTES m q) (argv_strings m argv)) ;;
          shmem (fprintf fuel 2 (bytes_of "exec %s failed" ++ [10]) [AStr (InMem q)])
      | REDIR sub file _ mode fd =>
          usys (CClose fd) ;;
          r ← usys (COpen (ustr PATH_BYTES m file) mode);
          if r <? 0 then
            shmem (fprintf fuel 2 (bytes_of "open %s failed" ++ [10]) [AStr (InMem file)]) ;; uexit 1
          else runcmd n' sub
      | LIST leftc rightc =>
          pid ← fork1;
          uwhen (pid =? 0) (runcmd n' leftc) ;;
          usys CWait ;;
          runcmd n' rightc
      | PIPE leftc rightc =>
          '(r, d) ← usys2 CPipe;
          if r <? 0 then sh_panic "pipe" else
          '(p0, p1) ← uopt (pipe_ends d);
          pid ← fork1;
          uwhen (pid =? 0)
            (usys (CClose 1) ;; usys (CDup p1) ;; usys (CClose p0) ;; usys (CClose p1) ;; runcmd n' leftc) ;;
          pid ← fork1;
          uwhen (pid =? 0)
            (usys (CClose 0) ;; usys (CDup p0) ;; usys (CClose p0) ;; usys (CClose p1) ;; runcmd n' rightc) ;;
          usys (CClose p0) ;; usys (CClose p1) ;;
          usys CWait ;; usys CWait ;;
          mret tt
      | BACK sub =>
          pid ← fork1;
          uwhen (pid =? 0) (runcmd n' sub)
      end ;;
      uexit 0
  end.

(** ** Reading and running lines *)

Definition getcmd (buf nbuf : Z) : U shst Z :=
  shmem (fprintf fuel 2 (bytes_of "$ ") []) ;;
  shmem (umodify (fun m => Ulib.memset m buf 0 nbuf)) ;;
  shmem (gets buf nbuf) ;;
  m ← ugets sh_mem;
  if ld8 m buf =? 0 then mret (-1) else mret 0.

(** [while ((fd = open("console", O_RDWR)) >= 0)]: the first three descriptors. *)
Fixpoint open_console (n : nat) : U shst unit :=
  match n with
  | O => uno_fuel
  | S n' =>
      fd ← usys (COpen (bytes_of "console") O_RDWR);
      if 0 <=? fd then
        if 3 <=? fd then usys (CClose fd) ;; mret tt else open_console n'
      else mret tt
  end.

(** One line: [cd] in the shell itself, anything else in a child. *)
Definition run_line (n : nat) (buf : Z) : U shst unit :=
  m ← ugets sh_mem;
  if (ld8 m buf =? 99) && (ld8 m (buf + 1) =? 100) && (ld8 m (buf + 2) =? 32) then
    len ← ufuel (Ulib.strlen fuel m buf);
    shmem (umodify (fun m => st8 m (buf + (len - 1)) 0)) ;;
    m ← ugets sh_mem;
    r ← usys (CChdir (ustr PATH_BYTES m (buf + 3)));
    uwhen (r <? 0) (shmem (fprintf fuel 2 (bytes_of "cannot cd %s" ++ [10]) [AStr (InMem (buf + 3))]))
  else
    pid ← fork1;
    uwhen (pid =? 0) (cmd ← parsecmd n buf; runcmd n cmd) ;;
    usys CWait ;;
    mret tt.

Fixpoint run_lines (lines n : nat) (buf nbuf : Z) : U shst unit :=
  match lines with
  | O => uno_fuel
  | S lines' =>
      r ← getcmd buf nbuf;
      if 0 <=? r then run_line n buf ;; run_lines lines' n buf nbuf else mret tt
  end.
Definition sh_main (lines n : nat) (buf : Z) : U shst unit :=
  open_console n ;;
  run_lines lines n buf 100 ;;
  uexit 0.
End Parser.
