(* ===== verification/ShellSyntax.v ===== *)
(** * The language of the shell

    The tokens of a line, the grammar of command lines as relations between sequences
    of tokens and trees, and a parser on tokens that decides it.  ShellSpec relates the
    parser of sh.c to this one. *)

From S2P Require Import Prelude Sysfile Shell.

(** ** Tokens *)

Inductive token := TWord (w : list Z) | TSym (c : Z) | TAppend.

Definition plain (c : Z) : bool := negb (in_set whitespace c) && negb (in_set symbols c).
Fixpoint strip (l : list Z) : list Z :=
  match l with
  | c :: l' => if in_set whitespace c then strip l' else l
  | [] => []
  end.
(** The longest plain prefix, and the rest. *)
Fixpoint word_of (l : list Z) : list Z * list Z :=
  match l with
  | c :: l' => if plain c then let '(w, r) := word_of l' in (c :: w, r) else ([], l)
  | [] => ([], [])
  end.

(** The first token and what follows it, on a text without leading white space. *)
Definition lex1 (l : list Z) : option (token * list Z) :=
  match l with
  | [] => None
  | c :: l' =>
      if c =? 62 then match l' with
                      | d :: l'' => if d =? 62 then Some (TAppend, l'') else Some (TSym c, l')
                      | [] => Some (TSym c, l')
                      end
      else if in_set symbols c then Some (TSym c, l')
      else Some (TWord (fst (word_of l)), snd (word_of l))
  end.
Fixpoint lex_n (n : nat) (l : list Z) : list token :=
  match n with
  | O => []
  | S n' => match lex1 (strip l) with None => [] | Some (t, l') => t :: lex_n n' l' end
  end.
Definition lex (l : list Z) : list token := lex_n (length l) l.

Lemma length_strip l : (length (strip l) <= length l)%nat.
Proof. induction l as [|c l IH]; cbn; [lia|]. destruct (in_set whitespace c); cbn; lia. Qed.
Lemma strip_head l : match strip l with c :: _ => in_set whitespace c = false | [] => True end.
Proof. induction l as [|c l IH]; cbn; [done|]. by destruct (in_set whitespace c) eqn:E. Qed.
Lemma strip_idem l : strip (strip l) = strip l.
Proof. pose proof (strip_head l) as H. destruct (strip l) as [|c r]; [done|]. cbn. by rewrite H. Qed.
Lemma word_of_app l : l = fst (word_of l) ++ snd (word_of l).
Proof.
  induction l as [|c l IH]; cbn; [done|]. destruct (plain c); cbn; [|done].
  destruct (word_of l) as [w r]. cbn in *. by f_equal.
Qed.
Lemma word_of_plain l : Forall (fun c => plain c = true) (fst (word_of l)).
Proof.
  induction l as [|c l IH]; cbn; [constructor|]. destruct (plain c) eqn:E; cbn; [|constructor].
  destruct (word_of l). by constructor.
Qed.
Lemma word_of_rest l : match snd (word_of l) with c :: _ => plain c = false | [] => True end.
Proof.
  induction l as [|c l IH]; cbn; [done|]. destruct (plain c) eqn:E; cbn; [|done]. by destruct (word_of l).
Qed.
Lemma lex1_length l t l' : in_set whitespace (hd 0 l) = false -> lex1 l = Some (t, l') -> (length l' < length l)%nat.
Proof.
  destruct l as [|c l]; cbn [lex1 hd]; [done|]. intros Hw.
  destruct (c =? 62).
  - destruct l as [|d l]; [intros [= <- <-]; cbn; lia|]. destruct (d =? 62); intros [= <- <-]; cbn; lia.
  - destruct (in_set symbols c) eqn:E; [intros [= <- <-]; cbn; lia|]. cbn [word_of]. unfold plain. rewrite Hw, E.
    cbn [negb andb]. pose proof (word_of_app l). destruct (word_of l) as [w r]. intros [= <- <-]. cbn in *.
    subst l. rewrite length_app. lia.
Qed.

Lemma lex_n_enough n : forall k l, (length l <= n)%nat -> (length l <= k)%nat -> lex_n n l = lex_n k l.
Proof.
  induction n as [|n IH]; intros [|k] l Hn Hk; [done| | |].
  - destruct l; [done|cbn in *; lia].
  - destruct l; [done|cbn in *; lia].
  - cbn [lex_n]. pose proof (strip_head l). pose proof (length_strip l).
    destruct (lex1 (strip l)) as [[t l']|] eqn:E; [|done]. f_equal.
    apply lex1_length in E; [|by destruct (strip l)]. apply IH; lia.
Qed.

(** The equations of [lex]. *)
Lemma lex_eq l : lex l = match lex1 (strip l) with None => [] | Some (t, l') => t :: lex l' end.
Proof.
  unfold lex. pose proof (strip_head l). pose proof (length_strip l).
  destruct (lex1 (strip l)) as [[t l']|] eqn:E.
  - pose proof E as El. apply lex1_length in El; [|by destruct (strip l)].
    destruct l as [|c l]; [cbn in *; lia|]. cbn [length lex_n] in *. rewrite E. f_equal. apply lex_n_enough; lia.
  - destruct l as [|c l]; [done|]. cbn [length lex_n]. by rewrite E.
Qed.
Lemma lex_strip l : lex (strip l) = lex l.
Proof. by rewrite (lex_eq (strip l)), (lex_eq l), strip_idem. Qed.
Lemma length_lex l : (length (lex l) <= length l)%nat.
Proof.
  remember (length l) as n eqn:En. assert (length l <= n)%nat as Hn by lia. clear En.
  revert l Hn. induction n as [|n IH]; intros l Hn; rewrite lex_eq; pose proof (strip_head l); pose proof (length_strip l);
    (destruct (lex1 (strip l)) as [[t l']|] eqn:E; [|cbn; lia]); (apply lex1_length in E; [|by destruct (strip l)]); [lia|].
  cbn. specialize (IH l' ltac:(lia)). lia.
Qed.

(** ** Trees *)

(** What a redirection opens, and the descriptor it replaces. *)
Record redir := Redirection { r_file : list Z; r_mode : Z; r_fd : Z }.
Inductive cmd :=
| Exec (argv : list (list Z))
| Redir (sub : cmd) (r : redir)
| Pipe (c1 c2 : cmd)
| Seq (c1 c2 : cmd)
| Bg (sub : cmd).

(** Later redirections are outside, so they act first. *)
Definition wrap (t : cmd) (rs : list redir) : cmd := fold_left Redir rs t.

(** ** The grammar *)

Abbreviation AMP := (TSym 38).
Abbreviation SEMI := (TSym 59).
Abbreviation BAR := (TSym 124).
Abbreviation LP := (TSym 40).
Abbreviation RP := (TSym 41).

(** How a redirection is written. *)
Definition redir_of (t : token) (w : list Z) : option redir :=
  match t with
  | TSym 60 => Some (Redirection w O_RDONLY 0)
  | TSym 62 => Some (Redirection w (Z.lor (Z.lor O_WRONLY O_CREATE) O_TRUNC) 1)
  | TAppend => Some (Redirection w (Z.lor O_WRONLY O_CREATE) 1)
  | _ => None
  end.

Inductive g_redirs : list token -> list redir -> Prop :=
| gr_nil : g_redirs [] []
| gr_cons t w r ts rs : redir_of t w = Some r -> g_redirs ts rs -> g_redirs (t :: TWord w :: ts) (r :: rs).

(** Words and redirections in any order. *)
Inductive g_simple : list token -> list (list Z) -> list redir -> Prop :=
| gs_nil : g_simple [] [] []
| gs_redir t w r ts ws rs : redir_of t w = Some r -> g_simple ts ws rs -> g_simple (t :: TWord w :: ts) ws (r :: rs)
| gs_word w ts ws rs : g_simple ts ws rs -> g_simple (TWord w :: ts) (w :: ws) rs.

Inductive g_line : list token -> cmd -> Prop :=
| gl_last ts t n : g_pipe ts t -> g_line (ts ++ replicate n AMP) (Nat.iter n Bg t)
| gl_seq ts t n ts' t' : g_pipe ts t -> g_line ts' t' ->
    g_line (ts ++ replicate n AMP ++ SEMI :: ts') (Seq (Nat.iter n Bg t) t')
with g_pipe : list token -> cmd -> Prop :=
| gp_last ts t : g_exec ts t -> g_pipe ts t
| gp_pipe ts t ts' t' : g_exec ts t -> g_pipe ts' t' -> g_pipe (ts ++ BAR :: ts') (Pipe t t')
with g_exec : list token -> cmd -> Prop :=
| ge_simple ts ws rs : g_simple ts ws rs -> (length ws < MAXARGS)%nat -> g_exec ts (wrap (Exec ws) rs)
| ge_block ts t ts' rs : g_line ts t -> g_redirs ts' rs -> g_exec (LP :: ts ++ RP :: ts') (wrap t rs).

Scheme g_line_ind' := Minimality for g_line Sort Prop
  with g_pipe_ind' := Minimality for g_pipe Sort Prop
  with g_exec_ind' := Minimality for g_exec Sort Prop.
Combined Scheme grammar_ind from g_line_ind', g_pipe_ind', g_exec_ind'.

(** ** A parser on tokens

    One function per function of sh.c, with the same use of fuel. *)

Inductive pres (A : Type) : Type := Parsed (a : A) (rest : list token) | Syntax | Deep.
Arguments Parsed {A} a rest.
Arguments Syntax {A}.
Arguments Deep {A}.
Definition pbind {A B} (p : pres A) (f : A -> list token -> pres B) : pres B :=
  match p with Parsed a rest => f a rest | Syntax => Syntax | Deep => Deep end.

Definition is_redir (t : token) : bool := match t with TSym c => (c =? 60) || (c =? 62) | TAppend => true | TWord _ => false end.
Definition is_stop (t : token) : bool := match t with TSym c => in_set [124; 41; 38; 59] c | _ => false end.

Fixpoint p_redirs (n : nat) (ts : list token) : pres (list redir) :=
  match n with
  | O => Deep
  | S n' =>
      match ts with
      | t :: ts1 =>
          if is_redir t then
            match ts1 with
            | TWord w :: ts2 =>
                match redir_of t w with
                | Some r => pbind (p_redirs n' ts2) (fun rs rest => Parsed (r :: rs) rest)
                | None => Syntax
                end
            | _ => Syntax
            end
          else Parsed [] ts
      | [] => Parsed [] []
      end
  end.
Fixpoint p_args (n argc : nat) (ts : list token) : pres (list (list Z) * list redir) :=
  match n with
  | O => Deep
  | S n' =>
      match ts with
      | [] => Parsed ([], []) []
      | t :: ts1 =>
          if is_stop t then Parsed ([], []) ts else
          match t with
          | TWord w =>
              if (MAXARGS <=? S argc)%nat then Syntax else
              pbind (p_redirs n' ts1) (fun rs ts2 =>
              pbind (p_args n' (S argc) ts2) (fun '(ws, rs') rest => Parsed (w :: ws, rs ++ rs') rest))
          | _ => Syntax
          end
      end
  end.
Definition next_is (k : Z) (ts : list token) : bool := match ts with TSym c :: _ => c =? k | _ => false end.

Fixpoint p_backs (n : nat) (t : cmd) (ts : list token) : pres cmd :=
  match n with
  | O => Deep
  | S n' => if next_is 38 ts then p_backs n' (Bg t) (tl ts) else Parsed t ts
  end.
Fixpoint p_line (n : nat) (ts : list token) : pres cmd :=
  match n with
  | O => Deep
  | S n' =>
      pbind (p_pipe n' ts) (fun t ts =>
      pbind (p_backs n' t ts) (fun t ts =>
      if next_is 59 ts then pbind (p_line n' (tl ts)) (fun t' rest => Parsed (Seq t t') rest)
      else Parsed t ts))
  end
with p_pipe (n : nat) (ts : list token) : pres cmd :=
  match n with
  | O => Deep
  | S n' =>
      pbind (p_exec n' ts) (fun t ts =>
      if next_is 124 ts then pbind (p_pipe n' (tl ts)) (fun t' rest => Parsed (Pipe t t') rest)
      else Parsed t ts)
  end
with p_exec (n : nat) (ts : list token) : pres cmd :=
  match n with
  | O => Deep
  | S n' =>
      if next_is 40 ts then p_block n' ts else
      pbind (p_redirs n' ts) (fun rs ts =>
      pbind (p_args n' 0 ts) (fun '(ws, rs') rest => Parsed (wrap (Exec ws) (rs ++ rs')) rest))
  end
with p_block (n : nat) (ts : list token) : pres cmd :=
  match n with
  | O => Deep
  | S n' =>
      if negb (next_is 40 ts) then Syntax else
      pbind (p_line n' (tl ts)) (fun t ts =>
      if negb (next_is 41 ts) then Syntax else
      pbind (p_redirs n' (tl ts)) (fun rs rest => Parsed (wrap t rs) rest))
  end.

(** The whole line. *)
Definition p_cmd (n : nat) (ts : list token) : pres cmd :=
  pbind (p_line n ts) (fun t rest => match rest with [] => Parsed t [] | _ => Syntax end).

(** ** The parser ends *)

Definition ends {A} (ts : list token) (p : pres A) : Prop :=
  match p with Parsed _ rest => (length rest <= length ts)%nat | Syntax => True | Deep => False end.

Lemma ends_bind {A B} ts (p : pres A) (f : A -> list token -> pres B) :
  ends ts p -> (forall a rest, p = Parsed a rest -> (length rest <= length ts)%nat -> ends ts (f a rest)) -> ends ts (pbind p f).
Proof. destruct p; cbn; auto. Qed.
Lemma ends_le {A} ts ts' (p : pres A) : (length ts <= length ts')%nat -> ends ts p -> ends ts' p.
Proof. destruct p; cbn; lia. Qed.

Lemma p_redirs_ends n : forall ts, (length ts < n)%nat -> ends ts (p_redirs n ts).
Proof.
  induction n as [|n IH]; intros ts Hn; [lia|]. cbn [p_redirs]. destruct ts as [|t ts]; [cbn; lia|].
  destruct (is_redir t); [|cbn; lia]. destruct ts as [|[w| |] ts]; try done. cbn in Hn.
  destruct (redir_of t w); [|done].
  apply ends_bind; [apply (ends_le ts); [cbn; lia|]; apply IH; lia|]. by intros.
Qed.
Lemma p_args_ends n : forall argc ts, (length ts < n)%nat -> ends ts (p_args n argc ts).
Proof.
  induction n as [|n IH]; intros argc ts Hn; [lia|]. cbn [p_args]. destruct ts as [|t ts]; [cbn; lia|].
  destruct (is_stop t); [cbn; lia|]. destruct t as [w| |]; try done. destruct (_ <=? _)%nat; [done|]. cbn in Hn.
  apply ends_bind; [apply (ends_le ts); [cbn; lia|]; apply p_redirs_ends; lia|]. intros rs rest E _.
  pose proof (p_redirs_ends n ts ltac:(lia)) as Hl. rewrite E in Hl. cbn in Hl.
  apply ends_bind; [apply (ends_le rest); [cbn; lia|]; apply IH; lia|]. intros [ws rs'] rest' _ ?. done.
Qed.
Lemma next_is_true k ts : next_is k ts = true -> ts = TSym k :: tl ts.
Proof. destruct ts as [|[w|c|] ts]; cbn; try done. by intros ->%Z.eqb_eq. Qed.
Ltac next_tok k ts := destruct (next_is k ts) eqn:?Hnext; cbn [negb];
  [apply next_is_true in Hnext; let r := fresh "r" in set (r := tl ts) in *; clearbody r; try subst ts|].

Lemma p_backs_ends n : forall t ts, (length ts < n)%nat -> ends ts (p_backs n t ts).
Proof.
  induction n as [|n IH]; intros t ts Hn; [lia|]. cbn [p_backs]. next_tok 38 ts; [|cbn; lia].
  cbn in Hn. apply (ends_le r); [cbn; lia|]. apply IH. lia.
Qed.

Lemma parser_ends n :
  (forall ts, (4 * length ts + 4 <= n)%nat -> ends ts (p_line n ts)) /\
  (forall ts, (4 * length ts + 3 <= n)%nat -> ends ts (p_pipe n ts)) /\
  (forall ts, (4 * length ts + 2 <= n)%nat -> ends ts (p_exec n ts)) /\
  (forall ts, (4 * length ts + 1 <= n)%nat -> ends ts (p_block n ts)).
Proof.
  induction n as [|n (IHl & IHp & IHe & IHb)]; [split_and!; intros; lia|]. split_and!; intros ts Hn.
  - cbn [p_line]. apply ends_bind; [apply IHp; lia|]. intros t rest _ Hr.
    apply ends_bind; [apply (ends_le rest); [done|]; apply p_backs_ends; lia|]. intros t' rest' _ Hr'.
    next_tok 59 rest'; [|cbn; lia]. cbn in Hr'. apply ends_bind; [apply (ends_le r); [lia|]; apply IHl; lia|]. by intros.
  - cbn [p_pipe]. apply ends_bind; [apply IHe; lia|]. intros t rest _ Hr.
    next_tok 124 rest; [|cbn; lia]. cbn in Hr. apply ends_bind; [apply (ends_le r); [lia|]; apply IHp; lia|]. by intros.
  - cbn [p_exec]. next_tok 40 ts; [apply IHb; cbn in *; lia|].
    apply ends_bind; [apply p_redirs_ends; lia|]. intros rs rest _ Hr.
    apply ends_bind; [apply (ends_le rest); [done|]; apply p_args_ends; lia|]. by intros [??].
  - cbn [p_block]. next_tok 40 ts; [|done]. cbn in Hn. pose proof (IHl r ltac:(lia)) as Hl.
    apply ends_bind; [apply (ends_le r); [cbn; lia|done]|]. intros t rest E _. rewrite E in Hl. cbn in Hl.
    next_tok 41 rest; [|done]. cbn in Hl.
    apply ends_bind; [apply (ends_le r0); [cbn; lia|]; apply p_redirs_ends; lia|]. by intros.
Qed.

(** ** What it accepts is in the grammar *)

Lemma pbind_Parsed {A B} (p : pres A) (f : A -> list token -> pres B) b rest :
  pbind p f = Parsed b rest -> exists a r, p = Parsed a r /\ f a r = Parsed b rest.
Proof. destruct p; cbn; [by eauto| |]; done. Qed.

Lemma p_redirs_sound n : forall ts rs rest, p_redirs n ts = Parsed rs rest -> exists ts1, ts = ts1 ++ rest /\ g_redirs ts1 rs.
Proof.
  induction n as [|n IH]; intros ts rs rest; cbn [p_redirs]; [done|].
  destruct ts as [|t ts]; [intros [= <- <-]; exists []; split; [done|constructor]|].
  destruct (is_redir t); [|intros [= <- <-]; exists []; split; [done|constructor]].
  destruct ts as [|[w| |] ts]; try done. destruct (redir_of t w) as [r|] eqn:Er; [|done].
  intros (rs' & r' & E & [= <- <-])%pbind_Parsed. apply IH in E as (ts1 & -> & H).
  exists (t :: TWord w :: ts1). split; [done|by constructor].
Qed.

Lemma g_redirs_simple ts rs ts' ws rs' : g_redirs ts rs -> g_simple ts' ws rs' -> g_simple (ts ++ ts') ws (rs ++ rs').
Proof. induction 1; cbn; [done|]. intros. constructor; auto. Qed.

Lemma p_args_sound n : forall argc ts ws rs rest, p_args n argc ts = Parsed (ws, rs) rest -> (argc < MAXARGS)%nat ->
  exists ts1, ts = ts1 ++ rest /\ g_simple ts1 ws rs /\ (argc + length ws < MAXARGS)%nat.
Proof.
  induction n as [|n IH]; intros argc ts ws rs rest; cbn [p_args]; [done|].
  destruct ts as [|t ts]; [intros [= <- <- <-] ?; exists []; split; [done|]; split; [constructor|cbn; lia]|].
  destruct (is_stop t); [intros [= <- <- <-] ?; exists []; split; [done|]; split; [constructor|cbn; lia]|].
  destruct t as [w| |]; try done. destruct (Nat.leb_spec MAXARGS (S argc)) as [|Ha]; [done|].
  intros (rs1 & r1 & E & (a & r2 & E2 & H)%pbind_Parsed)%pbind_Parsed Hargc. destruct a as [ws' rs']. injection H as <- <- <-.
  apply p_redirs_sound in E as (t1 & -> & H1). apply IH in E2 as (t2 & -> & H2 & Hl); [|done].
  exists (TWord w :: t1 ++ t2). split; [cbn; by rewrite app_assoc|]. split; [constructor; by apply g_redirs_simple|cbn; lia].
Qed.

Lemma p_backs_sound n : forall t ts t' rest, p_backs n t ts = Parsed t' rest ->
  exists k, ts = replicate k AMP ++ rest /\ t' = Nat.iter k Bg t.
Proof.
  induction n as [|n IH]; intros t ts t' rest; cbn [p_backs]; [done|].
  next_tok 38 ts; [|intros [= <- <-]; by exists O].
  intros (k & -> & ->)%IH. exists (S k). split; [done|]. by rewrite Nat.iter_succ_r.
Qed.

Lemma parser_sound n :
  (forall ts t rest, p_line n ts = Parsed t rest -> exists ts1, ts = ts1 ++ rest /\ g_line ts1 t) /\
  (forall ts t rest, p_pipe n ts = Parsed t rest -> exists ts1, ts = ts1 ++ rest /\ g_pipe ts1 t) /\
  (forall ts t rest, p_exec n ts = Parsed t rest -> exists ts1, ts = ts1 ++ rest /\ g_exec ts1 t) /\
  (forall ts t rest, p_block n ts = Parsed t rest -> exists ts1, ts = ts1 ++ rest /\ g_exec ts1 t).
Proof.
  induction n as [|n (IHl & IHp & IHe & IHb)]; [done|]. split_and!; intros ts t rest.
  - cbn [p_line]. intros (t1 & r1 & E1 & (t2 & r2 & E2 & H)%pbind_Parsed)%pbind_Parsed.
    apply IHp in E1 as (ts1 & -> & G1). apply p_backs_sound in E2 as (k & -> & ->).
    revert H. next_tok 59 r2.
    + intros (t2 & r3 & E3 & [= <- <-])%pbind_Parsed. apply IHl in E3 as (ts3 & -> & G3).
      exists (ts1 ++ replicate k AMP ++ SEMI :: ts3). split; [by rewrite <- !app_assoc|by constructor].
    + intros [= <- <-]. exists (ts1 ++ replicate k AMP). split; [by rewrite app_assoc|by constructor].
  - cbn [p_pipe]. intros (t1 & r1 & E1 & H)%pbind_Parsed. apply IHe in E1 as (ts1 & -> & G1).
    revert H. next_tok 124 r1.
    + intros (t2 & r3 & E3 & [= <- <-])%pbind_Parsed. apply IHp in E3 as (ts3 & -> & G3).
      exists (ts1 ++ BAR :: ts3). split; [by rewrite <- app_assoc|by constructor].
    + intros [= <- <-]. exists ts1. split; [done|by constructor].
  - cbn [p_exec]. next_tok 40 ts; [apply IHb|].
    intros (rs1 & r1 & E1 & (a & r2 & E2 & H)%pbind_Parsed)%pbind_Parsed. destruct a as [ws rs2]. injection H as <- <-.
    apply p_redirs_sound in E1 as (ts1 & -> & G1). apply p_args_sound in E2 as (ts2 & -> & G2 & Hl); [|unfold MAXARGS; lia].
    exists (ts1 ++ ts2). split; [by rewrite app_assoc|]. constructor; [by apply g_redirs_simple|lia].
  - cbn [p_block]. next_tok 40 ts; [|done].
    intros (t1 & r1 & E1 & H)%pbind_Parsed. apply IHl in E1 as (ts1 & -> & G1).
    revert H. next_tok 41 r1; [|done].
    intros (rs & r2 & E2 & [= <- <-])%pbind_Parsed. apply p_redirs_sound in E2 as (ts2 & -> & G2).
    exists (LP :: ts1 ++ RP :: ts2). split; [cbn; by rewrite <- app_assoc|by constructor].
Qed.

(** ** What is in the grammar is accepted *)

(** What may follow a command, a pipeline, a line. *)
Definition follow (set : list Z) (ts : list token) : Prop :=
  match ts with [] => True | TSym c :: _ => in_set set c = true | _ => False end.
Definition no_redir (ts : list token) : Prop := match ts with t :: _ => is_redir t = false | [] => True end.
Definition FOLLOW_EXEC : list Z := [124; 41; 38; 59].
Definition FOLLOW_PIPE : list Z := [41; 38; 59].
Definition FOLLOW_LINE : list Z := [41].

Lemma redir_is_redir t w r : redir_of t w = Some r -> is_redir t = true.
Proof.
  destruct t as [w'|c|]; cbn; try done. destruct (Z.eqb_spec c 60) as [->|]; [done|]. destruct (Z.eqb_spec c 62) as [->|]; [done|].
  repeat (case_match; try done).
Qed.

Lemma in_set_true set c : in_set set c = true <-> c ∈ set.
Proof.
  unfold in_set. rewrite existsb_exists. split.
  - intros (x & Hx & ->%Z.eqb_eq). by apply list_elem_of_In.
  - intros H. exists c. split; [by apply list_elem_of_In|apply Z.eqb_refl].
Qed.

Lemma follow_no_redir ts : follow FOLLOW_EXEC ts -> no_redir ts.
Proof.
  destruct ts as [|[w|c|] ts]; cbn; try done. rewrite in_set_true. unfold FOLLOW_EXEC. rewrite !elem_of_cons, elem_of_nil. lia.
Qed.
Lemma follow_sub set set' ts : (forall c, c ∈ set -> c ∈ set') -> follow set ts -> follow set' ts.
Proof. intros H. destruct ts as [|[w|c|] ts]; cbn; try done. rewrite !in_set_true. auto. Qed.
Lemma follow_next set k ts : follow set ts -> k ∉ set -> next_is k ts = false.
Proof.
  destruct ts as [|[w|c|] ts]; cbn; try done. rewrite in_set_true. intros Hc Hk.
  apply Z.eqb_neq. by intros ->.
Qed.

Ltac not_in := rewrite ?elem_of_cons, ?elem_of_nil; unfold FOLLOW_LINE, FOLLOW_PIPE, FOLLOW_EXEC; rewrite ?elem_of_cons, ?elem_of_nil; lia.

Lemma p_redirs_complete ts rs : g_redirs ts rs -> forall rest n, no_redir rest -> (length (ts ++ rest) < n)%nat ->
  p_redirs n (ts ++ rest) = Parsed rs rest.
Proof.
  induction 1 as [|t w r ts rs Hr _ IH]; intros rest [|n] Hf Hn; cbn [app p_redirs length] in *; try lia.
  - destruct rest as [|t rest]; [done|]. cbn in Hf. by rewrite Hf.
  - rewrite (redir_is_redir _ _ _ Hr), Hr, IH by (done || lia). done.
Qed.

(** The redirections before the first word. *)
Lemma g_simple_split ts ws rs : g_simple ts ws rs ->
  exists ts1 ts2 rs1 rs2, ts = ts1 ++ ts2 /\ rs = rs1 ++ rs2 /\ g_redirs ts1 rs1 /\ g_simple ts2 ws rs2 /\
    match ws with
    | [] => ts2 = [] /\ rs2 = []
    | w :: ws' => exists ts3, ts2 = TWord w :: ts3 /\ g_simple ts3 ws' rs2
    end.
Proof.
  induction 1 as [|t w r ts ws rs Hr H (ts1 & ts2 & rs1 & rs2 & -> & -> & H1 & H2 & H3)|w ts ws rs H _].
  - exists [], [], [], []. split_and!; try done; constructor.
  - exists (t :: TWord w :: ts1), ts2, (r :: rs1), rs2. split_and!; try done. by constructor.
  - exists [], (TWord w :: ts), [], rs. split_and!; try done; [constructor|by constructor|]. by exists ts.
Qed.

Lemma g_simple_no_redir ts ws rs rest ts3 w : ts = TWord w :: ts3 -> g_simple ts ws rs -> no_redir (ts ++ rest).
Proof. by intros ->. Qed.

Lemma p_args_complete ws : forall ts rs, g_simple ts ws rs -> match ts with t :: _ => exists w, t = TWord w | [] => True end ->
  forall rest n argc, follow FOLLOW_EXEC rest -> (length (ts ++ rest) < n)%nat -> (argc + length ws < MAXARGS)%nat ->
  p_args n argc (ts ++ rest) = Parsed (ws, rs) rest.
Proof.
  induction ws as [|w ws IH]; intros ts rs Hg Hh rest [|n] argc Hf Hn Ha; try lia.
  - destruct ts as [|t ts]; [|destruct Hh as [w ->]; inversion Hg; subst; done].
    inversion Hg; subst. cbn. destruct rest as [|[w|c|] rest]; try done. cbn in *. unfold FOLLOW_EXEC in Hf. by rewrite Hf.
  - destruct ts as [|t ts]; [inversion Hg|]. destruct Hh as [w' ->]. inversion Hg as [| |? ? ? ? Hg']; subst; [done|].
    cbn [app p_args is_stop length] in *. destruct (Nat.leb_spec MAXARGS (S argc)); [lia|].
    destruct (g_simple_split _ _ _ Hg') as (ts1 & ts2 & rs1 & rs2 & -> & -> & H1 & H2 & H3). rewrite <- !app_assoc in *.
    assert (match ts2 with t :: _ => exists w, t = TWord w | [] => True end) as Hh2.
    { destruct ws as [|w1 ws]; [by destruct H3 as [-> _]|]. destruct H3 as (ts3 & -> & _). by eexists. }
    rewrite (p_redirs_complete ts1 rs1 H1); [|destruct ts2 as [|t2 ts2]; [by apply follow_no_redir|by destruct Hh2 as [? ->]]|lia].
    cbn [pbind]. rewrite (IH ts2 rs2 H2 Hh2 rest n (S argc) Hf); [done| |lia].
    rewrite !length_app in *. lia.
Qed.

Lemma p_backs_complete k : forall t rest n, next_is 38 rest = false -> (k < n)%nat ->
  p_backs n t (replicate k AMP ++ rest) = Parsed (Nat.iter k Bg t) rest.
Proof.
  induction k as [|k IH]; intros t rest [|n] Hf Hn; try lia; cbn [replicate app p_backs].
  - by rewrite Hf.
  - cbn [next_is tl]. rewrite Z.eqb_refl, IH by (done || lia). by rewrite Nat.iter_succ_r.
Qed.

(** A simple command does not start with a parenthesis. *)
Lemma g_simple_first ts ws rs rest : g_simple ts ws rs -> follow FOLLOW_EXEC rest -> next_is 40 (ts ++ rest) = false.
Proof.
  intros H Hf. inversion H as [|t w r ts' ws' rs' Hr|]; subst; cbn [app]; [|destruct t as [| |]; cbn; try done|done].
  - apply (follow_next FOLLOW_EXEC); [done|not_in].
  - apply Z.eqb_neq. intros ->. done.
Qed.

Lemma parser_complete :
  (forall ts t, g_line ts t -> forall rest n, follow FOLLOW_LINE rest -> (4 * length (ts ++ rest) + 4 <= n)%nat -> p_line n (ts ++ rest) = Parsed t rest) /\
  (forall ts t, g_pipe ts t -> forall rest n, follow FOLLOW_PIPE rest -> (4 * length (ts ++ rest) + 3 <= n)%nat -> p_pipe n (ts ++ rest) = Parsed t rest) /\
  (forall ts t, g_exec ts t -> forall rest n, follow FOLLOW_EXEC rest -> (4 * length (ts ++ rest) + 2 <= n)%nat -> p_exec n (ts ++ rest) = Parsed t rest).
Proof.
  apply grammar_ind.
  - intros ts t k _ IH rest [|n] Hf Hn; [lia|]. rewrite <- app_assoc in *. cbn [p_line].
    assert (follow FOLLOW_PIPE (replicate k AMP ++ rest)) as Hf'.
    { destruct k; [|done]. eapply follow_sub; [|exact Hf]. intros c. not_in. }
    rewrite (IH _ n Hf') by lia. cbn [pbind].
    rewrite p_backs_complete; [|apply (follow_next FOLLOW_LINE); [done|not_in]|rewrite !length_app, length_replicate in Hn; lia].
    cbn [pbind]. by rewrite (follow_next FOLLOW_LINE 59 rest) by (done || not_in).
  - intros ts t k ts' t' _ IH _ IH' rest [|n] Hf Hn; [lia|]. rewrite <- !app_assoc in *. cbn [app] in *. cbn [p_line].
    assert (follow FOLLOW_PIPE (replicate k AMP ++ SEMI :: ts' ++ rest)) as Hf' by (by destruct k).
    rewrite (IH _ n Hf') by lia. cbn [pbind].
    rewrite p_backs_complete; [|done|rewrite !length_app, length_replicate in Hn; lia].
    cbn [pbind next_is tl]. rewrite Z.eqb_refl.
    rewrite (IH' rest n Hf); [done|]. rewrite !length_app in *. cbn [length] in Hn. rewrite length_app in Hn. lia.
  - intros ts t _ IH rest [|n] Hf Hn; [lia|]. cbn [p_pipe]. rewrite IH; [|eapply follow_sub; [|exact Hf]; intros c; not_in|lia].
    cbn [pbind]. by rewrite (follow_next FOLLOW_PIPE 124 rest) by (done || not_in).
  - intros ts t ts' t' _ IH _ IH' rest [|n] Hf Hn; [lia|]. rewrite <- !app_assoc in *. cbn [app] in *. cbn [p_pipe].
    rewrite IH; [|done|lia]. cbn [pbind next_is tl]. rewrite Z.eqb_refl.
    rewrite IH'; [done|done|]. rewrite !length_app in *. cbn [length] in Hn. rewrite length_app in Hn. lia.
  - intros ts ws rs Hg Hl rest [|n] Hf Hn; [lia|]. cbn [p_exec]. rewrite (g_simple_first _ _ _ _ Hg Hf).
    destruct (g_simple_split _ _ _ Hg) as (ts1 & ts2 & rs1 & rs2 & -> & -> & H1 & H2 & H3). rewrite <- !app_assoc in *.
    assert (match ts2 with t :: _ => exists w, t = TWord w | [] => True end) as Hh2.
    { destruct ws as [|w1 ws]; [by destruct H3 as [-> _]|]. destruct H3 as (ts3 & -> & _). by eexists. }
    rewrite (p_redirs_complete ts1 rs1 H1); [|destruct ts2 as [|t2 ts2]; [by apply follow_no_redir|by destruct Hh2 as [? ->]]|lia].
    cbn [pbind]. rewrite (p_args_complete ws ts2 rs2 H2 Hh2 rest n 0 Hf); [done| |lia]. rewrite !length_app in *. lia.
  - intros ts t ts' rs _ IH Hr rest [|n] Hf Hn; [lia|]. cbn [app p_exec next_is]. rewrite Z.eqb_refl. rewrite <- !app_assoc in *. cbn [app] in *.
    destruct n as [|n]; [cbn in Hn; lia|]. cbn [p_block next_is tl]. rewrite Z.eqb_refl. cbn [negb].
    cbn [length] in Hn. rewrite !length_app in Hn. cbn [length] in Hn.
    rewrite IH; [|done|rewrite length_app; cbn [length]; rewrite length_app; lia].
    cbn [pbind next_is tl]. rewrite Z.eqb_refl. cbn [negb].
    rewrite (p_redirs_complete ts' rs Hr); [done|by apply follow_no_redir|rewrite length_app; lia].
Qed.

(** The parser decides the grammar: with enough fuel it accepts the derivable tree, and
    there is none when it does not accept. *)
Lemma p_cmd_decides n ts : (4 * length ts + 4 <= n)%nat ->
  (exists t, p_cmd n ts = Parsed t [] /\ g_line ts t) \/ (p_cmd n ts = Syntax /\ forall t, ~ g_line ts t).
Proof.
  intros Hn. pose proof (proj1 (parser_ends n) ts Hn) as He.
  assert (forall t, g_line ts t -> p_line n ts = Parsed t []) as Hc.
  { intros t Ht. rewrite <- (app_nil_r ts). apply (proj1 parser_complete); [done|done|by rewrite app_nil_r]. }
  unfold p_cmd. destruct (p_line n ts) as [t rest| |] eqn:E; [|right; split; [done|]; intros t Ht; by specialize (Hc t Ht)|done].
  cbn [pbind]. destruct rest as [|x rest].
  - left. exists t. split; [done|]. apply (proj1 (parser_sound n)) in E as (ts1 & -> & H). by rewrite app_nil_r.
  - right. split; [done|]. intros t' Ht. by specialize (Hc t' Ht).
Qed.

Lemma g_line_unique ts t t' : g_line ts t -> g_line ts t' -> t = t'.
Proof.
  intros H H'. set (n := (4 * length ts + 4)%nat).
  assert (forall t, g_line ts t -> p_line n ts = Parsed t []) as Hc.
  { intros u Hu. rewrite <- (app_nil_r ts). apply (proj1 parser_complete); [done|done|by rewrite app_nil_r]. }
  apply Hc in H. apply Hc in H'. congruence.
Qed.
