(* ===== verification/ShellSpec.v ===== *)
(** * The parser of the shell builds the tree of the line

    The functions of sh.c, on pointers into the line and nodes of the heap, follow the
    parser on tokens; [nulterminate] turns the words into strings. *)

From stdpp Require Import functions.
From S2P Require Import Prelude Hart VmSystem Mem Str Kprint Bio BioSpec Sysfile UserSys Ulib UlibSpec Shell ShellSyntax.

(** ** Positions in the line *)

(** The rest of the line from [s] on is [l]. *)
Definition at_pos (m : mem) (es s : Z) (l : list Z) : Prop := cstr m s l /\ s + Z.of_nat (length l) = es.

Lemma at_pos_tail m es s c l : at_pos m es s (c :: l) -> c <> 0 /\ ld8 m s = c /\ at_pos m es (s + 1) l.
Proof. intros [(H0 & H1 & H2) He]. split; [done|]. split; [done|]. split; [done|]. cbn [length] in He. lia. Qed.

Lemma at_pos_drop m es s l1 l2 : at_pos m es s (l1 ++ l2) -> at_pos m es (s + Z.of_nat (length l1)) l2.
Proof. intros [Hc He]. split; [by apply cstr_app in Hc|]. rewrite length_app in He. lia. Qed.

Lemma at_pos_head m es s l : at_pos m es s l -> ld8 m s = hd 0 l.
Proof. intros [Hc _]. rewrite (cstr_head _ _ _ Hc). by destruct l. Qed.

Lemma skip_white_ok m es l : forall s, at_pos m es s l -> at_pos m es (skip_white (length l) m s es) (strip l).
Proof.
  induction l as [|c l IH]; intros s H; [done|]. cbn [length skip_white strip].
  pose proof H as (H0 & -> & Hl)%at_pos_tail. rewrite (proj2 (Z.ltb_lt s es)) by (destruct H as [_ H]; cbn in H; lia).
  cbn [andb]. destruct (in_set whitespace c); [by apply IH|done].
Qed.
Lemma skip_ws_ok m es s l : at_pos m es s l -> at_pos m es (skip_ws m s es) (strip l).
Proof.
  intros H. unfold skip_ws. replace (Z.to_nat (es - s)) with (length l) by (destruct H; lia). by apply skip_white_ok.
Qed.

Lemma skip_plain_ok m es l : forall s, at_pos m es s l ->
  skip_plain (length l) m s es = s + Z.of_nat (length (fst (word_of l))).
Proof.
  induction l as [|c l IH]; intros s H; [cbn; lia|]. cbn [length skip_plain word_of].
  pose proof H as (H0 & -> & Hl)%at_pos_tail. rewrite (proj2 (Z.ltb_lt s es)) by (destruct H as [_ H]; cbn in H; lia).
  cbn [andb]. fold (plain c). unfold plain. destruct (in_set whitespace c), (in_set symbols c); cbn; try lia.
  rewrite (IH (s + 1) Hl). destruct (word_of l). cbn. lia.
Qed.

(** ** Tokens *)

(** Bytes that end a word. *)
Definition sep (c : Z) : bool := (c =? 0) || negb (plain c).

(** The bytes from [q] to [eq], between [lo] and [hi], are the word [w]. *)
Definition word_at (lo hi : Z) (m : mem) (q eq : Z) (w : list Z) : Prop :=
  (lo <= q /\ eq <= hi) /\ eq = q + Z.of_nat (length w) /\ sep (ld8 m eq) = true /\
  (forall i c, w !! i = Some c -> ld8 m (q + Z.of_nat i) = c /\ sep c = false).

Definition tok_code (t : token) : Z := match t with TWord _ => tok_a | TSym c => c | TAppend => tok_plus end.
Definition tok_ok (t : token) : Prop := match t with TSym c => in_set symbols c = true | _ => True end.

Lemma lex_ok l : Forall tok_ok (lex l).
Proof.
  unfold lex. generalize (length l) as n. intros n. revert l. induction n as [|n IH]; intros l; [constructor|]. cbn [lex_n].
  destruct (lex1 (strip l)) as [[t l']|] eqn:E; [|constructor]. constructor; [|apply IH].
  destruct (strip l) as [|c r]; [done|]. cbn [lex1] in E. destruct (Z.eqb_spec c 62) as [->|].
  - destruct r as [|d r]; [by injection E as <- <-|]. by destruct (d =? 62); injection E as <- <-.
  - destruct (in_set symbols c) eqn:Es; injection E as <- <-; [done|done].
Qed.

Lemma symbols_dec c : in_set symbols c = true -> c ∈ [60; 124; 62; 38; 59; 40; 41].
Proof. apply in_set_true. Qed.

Lemma word_at_start lo m es s l : lo <= s -> at_pos m es s l -> word_at lo es m s (s + Z.of_nat (length (fst (word_of l)))) (fst (word_of l)).
Proof.
  intros Hs H. pose proof (word_of_app l) as E. split.
  { split; [done|]. destruct H as [_ H]. apply (f_equal length) in E. rewrite length_app in E. lia. }
  split; [done|]. pose proof (word_of_plain l) as Hp. pose proof (word_of_rest l) as Hr.
  destruct (word_of l) as [w r]. cbn [fst snd] in *. split.
  - rewrite E in H. apply at_pos_drop, at_pos_head in H. rewrite H. destruct r as [|c r]; [done|]. cbn. unfold sep. rewrite Hr. by rewrite orb_true_r.
  - intros i c Hi. rewrite E in H. destruct H as [Hc _].
    destruct (cstr_lookup m s (w ++ r) i c Hc) as [H1 H2]; [by apply lookup_app_l_Some|]. split; [done|].
    rewrite Forall_lookup in Hp. specialize (Hp _ _ Hi). cbn in Hp. unfold sep. rewrite Hp.
    destruct (Z.eqb_spec c 0); [done|done].
Qed.

(** [gettoken] takes the first token. *)
Lemma gettoken_ok lo m es s l : lo <= s -> at_pos m es s l ->
  match lex l with
  | [] => tk (gettoken m s es) = 0 /\ at_pos m es (tk_ps (gettoken m s es)) []
  | t :: ts => tk (gettoken m s es) = tok_code t /\
      exists l', at_pos m es (tk_ps (gettoken m s es)) l' /\ lex l' = ts /\ s < tk_ps (gettoken m s es) /\
        match t with TWord w => word_at lo es m (tk_q (gettoken m s es)) (tk_eq (gettoken m s es)) w | _ => True end
  end.
Proof.
  intros Hs H. apply skip_ws_ok in H as H1. unfold gettoken. set (q := skip_ws m s es) in *.
  assert (s <= q) as Hq.
  { unfold q, skip_ws. generalize (Z.to_nat (es - s)). clear. intros n. revert s. induction n as [|n IH]; intros s; cbn; [lia|].
    destruct ((s <? es) && _); [|lia]. specialize (IH (s + 1)). lia. }
  assert (forall a b, a <= b -> a <= skip_ws m b es) as Hle.
  { intros a b Hab. unfold skip_ws. generalize (Z.to_nat (es - b)). clear -Hab. intros n. revert b Hab. induction n as [|n IH]; intros b Hab; cbn; [lia|].
    destruct ((b <? es) && _); [|lia]. apply IH. lia. }
  rewrite lex_eq. pose proof (strip_head l) as Hh. pose proof (at_pos_head _ _ _ _ H1) as Hc. rewrite Hc.
  destruct (strip l) as [|c r] eqn:El; cbn [hd lex1] in *.
  - change (0 =? 0) with true. cbn [tk tk_ps tok_code]. split; [done|]. apply skip_ws_ok in H1. done.
  - pose proof H1 as (H0 & _ & Hr)%at_pos_tail. rewrite (proj2 (Z.eqb_neq c 0) H0).
    destruct (Z.eqb_spec c 62) as [->|Hn62].
    + change (in_set [124; 40; 41; 59; 38; 60] 62) with false. cbn iota. pose proof (at_pos_head _ _ _ _ Hr) as Hc2.
      change (62 =? 62) with true. cbn iota.
      destruct r as [|d r]; cbn [hd] in Hc2; rewrite Hc2.
      * change (0 =? 62) with false. cbn [tk tk_ps tok_code]. split; [done|]. exists []. split; [by apply skip_ws_ok in Hr|]. split; [done|]. split; [|done]. specialize (Hle (q + 1) (q + 1)). lia.
      * destruct (Z.eqb_spec d 62) as [->|Hd]; cbn [tk tk_ps tok_code].
        -- split; [done|]. apply at_pos_tail in Hr as (_ & _ & Hr). replace (q + 1 + 1) with (q + 2) in Hr by lia.
           exists (strip r). split; [by apply skip_ws_ok in Hr|]. split; [apply lex_strip|]. split; [|done]. specialize (Hle (q + 2) (q + 2)). lia.
        -- split; [done|]. exists (strip (d :: r)). split; [by apply skip_ws_ok in Hr|]. split; [apply lex_strip|]. split; [|done]. specialize (Hle (q + 1) (q + 1)). lia.
    + destruct (in_set symbols c) eqn:Es.
      * assert (in_set [124; 40; 41; 59; 38; 60] c = true) as ->.
        { apply in_set_true. apply symbols_dec in Es. rewrite !elem_of_cons, elem_of_nil in *. tauto. }
        cbn [tk tk_ps tok_code]. split; [done|]. exists (strip r). split; [by apply skip_ws_ok in Hr|]. split; [apply lex_strip|]. split; [|done]. specialize (Hle (q + 1) (q + 1)). lia.
      * assert (in_set [124; 40; 41; 59; 38; 60] c = false) as ->.
        { destruct (in_set [124; 40; 41; 59; 38; 60] c) eqn:E; [|done]. apply in_set_true in E. rewrite <- Es. symmetry. apply in_set_true.
          unfold symbols. rewrite !elem_of_cons, elem_of_nil in *. tauto. }
        replace (Z.to_nat (es - q)) with (length (c :: r)) by (destruct H1; lia).
        rewrite (skip_plain_ok m es (c :: r) q H1). cbn [tk tk_ps tk_q tk_eq tok_code]. split; [done|].
        pose proof (word_of_app (c :: r)) as E. pose proof (word_at_start lo m es q (c :: r) ltac:(lia) H1) as Hw.
        assert (fst (word_of (c :: r)) <> []) as Hne.
        { cbn [word_of]. unfold plain. rewrite Hh, Es. cbn. by destruct (word_of r). }
        set (w := fst (word_of (c :: r))) in *. set (r' := snd (word_of (c :: r))) in *.
        exists (strip r'). rewrite E in H1. apply at_pos_drop in H1. split; [by apply skip_ws_ok in H1|]. split; [apply lex_strip|].
        split; [|done]. specialize (Hle (q + Z.of_nat (length w)) (q + Z.of_nat (length w))). destruct w; [done|]. cbn [length] in *. lia.
Qed.

(** [peek] looks at the first token. *)
Definition first_in (toks : list Z) (ts : list token) : bool :=
  match ts with TSym c :: _ => in_set toks c | TAppend :: _ => in_set toks 62 | _ => false end.

Lemma peek_ok m es s l toks : (forall c, in_set toks c = true -> in_set symbols c = true) -> at_pos m es s l ->
  peek m s es toks = (first_in toks (lex l), skip_ws m s es).
Proof.
  intros Ht H. unfold peek. apply skip_ws_ok in H as H1. rewrite (at_pos_head _ _ _ _ H1). f_equal.
  rewrite lex_eq. destruct (strip l) as [|c r] eqn:El; cbn [hd lex1]; [done|].
  apply at_pos_tail in H1 as (H0 & _ & _). rewrite (proj2 (Z.eqb_neq c 0) H0). cbn [negb andb].
  destruct (Z.eqb_spec c 62) as [->|].
  - destruct r as [|d r]; [done|]. by destruct (d =? 62).
  - destruct (in_set symbols c) eqn:Es; [done|]. destruct (in_set toks c) eqn:E; [|done]. apply Ht in E. congruence.
Qed.

(** ** Trees in the heap

    [W q eq w]: the pointers [q] and [eq] stand for the word [w].  Nodes point to older
    nodes. *)
Section Trees.
Variable W : Z -> Z -> list Z -> Prop.

Definition args_at (argv eargv : list Z) (ws : list (list Z)) : Prop :=
  length argv = MAXARGS /\ length eargv = MAXARGS /\
  forall k w, ws !! k = Some w -> exists q eq, argv !! k = Some q /\ eargv !! k = Some eq /\ q <> 0 /\ W q eq w.

Inductive rep (nodes : list cmdnode) : nat -> cmd -> Prop :=
| rep_exec i argv eargv ws :
    nodes !! i = Some (EXEC argv eargv) -> args_at argv eargv ws -> argv !! length ws = Some 0 -> rep nodes i (Exec ws)
| rep_redir i j q eq w mode fd t :
    nodes !! i = Some (REDIR j q eq mode fd) -> (j < i)%nat -> W q eq w -> rep nodes j t -> rep nodes i (Redir t (Redirection w mode fd))
| rep_pipe i j k t u : nodes !! i = Some (PIPE j k) -> (j < i)%nat -> (k < i)%nat -> rep nodes j t -> rep nodes k u -> rep nodes i (Pipe t u)
| rep_list i j k t u : nodes !! i = Some (LIST j k) -> (j < i)%nat -> (k < i)%nat -> rep nodes j t -> rep nodes k u -> rep nodes i (Seq t u)
| rep_back i j t : nodes !! i = Some (BACK j) -> (j < i)%nat -> rep nodes j t -> rep nodes i (Bg t).

(** Redirections on top of node [j]. *)
Inductive wraps (nodes : list cmdnode) : nat -> list redir -> nat -> Prop :=
| wraps_nil i : wraps nodes i [] i
| wraps_cons i k j q eq w mode fd rs :
    nodes !! k = Some (REDIR j q eq mode fd) -> (j < k)%nat -> W q eq w -> wraps nodes i rs k ->
    wraps nodes i (Redirection w mode fd :: rs) j.

Definition ext (nodes nodes' : list cmdnode) : Prop := forall i x, nodes !! i = Some x -> nodes' !! i = Some x.
#[global] Instance ext_preorder : PreOrder ext.
Proof. split; [by intros n i x|]. intros a b c H1 H2 i x Hx. apply H2, H1, Hx. Qed.

Lemma rep_ext nodes nodes' i t : ext nodes nodes' -> rep nodes i t -> rep nodes' i t.
Proof. intros He. induction 1; econstructor; eauto. Qed.
Lemma wraps_ext nodes nodes' i rs j :
  (forall k c q eq mo fd, nodes !! k = Some (REDIR c q eq mo fd) -> nodes' !! k = Some (REDIR c q eq mo fd)) ->
  wraps nodes i rs j -> wraps nodes' i rs j.
Proof. intros He. induction 1; econstructor; eauto. Qed.
Lemma wraps_app nodes i k j rs1 rs2 : wraps nodes k rs1 j -> wraps nodes i rs2 k -> wraps nodes i (rs1 ++ rs2) j.
Proof. induction 1; cbn; intros; [done|]. econstructor; eauto. Qed.
Lemma rep_wraps nodes i rs j t : wraps nodes i rs j -> rep nodes j t -> rep nodes i (wrap t rs).
Proof. intros H. revert t. induction H as [|i k j q eq w mode fd rs Hk Hlt Hw _ IH]; intros t Ht; [done|]. cbn. apply IH. by econstructor. Qed.
Lemma rep_lt nodes i t : rep nodes i t -> (i < length nodes)%nat.
Proof. destruct 1; by eapply lookup_lt_Some. Qed.
Lemma ext_app nodes x : ext nodes (nodes ++ [x]).
Proof. intros i y Hi. by apply lookup_app_l_Some. Qed.
Lemma lookup_new nodes (x : cmdnode) : (nodes ++ [x]) !! length nodes = Some x.
Proof. by rewrite lookup_app_r, Nat.sub_diag by lia. Qed.
End Trees.

Lemma rep_impl (W W' : Z -> Z -> list Z -> Prop) nodes i t :
  (forall q eq w, W q eq w -> W' q eq w) -> rep W nodes i t -> rep W' nodes i t.
Proof.
  intros Hi. induction 1; econstructor; eauto.
  match goal with H : args_at _ _ _ _ |- _ => destruct H as (Ha & Hb & Hc) end.
  split; [done|]. split; [done|]. intros k w Hk. destruct (Hc k w Hk) as (q & eq & ? & ? & ? & ?). exists q, eq. auto.
Qed.

(** ** Following the parser on tokens *)

Section Sim.
Context (fuel : nat) (m : mem) (lo es : Z) (Hlo : 0 < lo).

(** The process ends after a message. *)
Definition fails {A} (t : utree shst A) : Prop := exists out, t = uwrites 2 out (UExit 1).

(** The pointer [s] is at a text whose tokens are [ts]. *)
Definition reads (s : Z) (ts : list token) : Prop := lo <= s /\ exists l, at_pos m es s l /\ lex l = ts.

(** [t] does from [nodes] and [room] what the result [p] says of the tokens [ts]; every
    token pays for two nodes, and [k] more are free. *)
Definition sim {A B} (k : nat) (nodes : list cmdnode) (room : nat) (ts : list token) (p : pres A) (t : utree shst B)
    (pos : B -> Z) (R : A -> B -> list cmdnode -> Prop) : Prop :=
  match p with
  | Deep => True
  | Syntax => fails t
  | Parsed a rest => exists v nodes' room', t = UDone v (ShSt m nodes' room') /\ reads (pos v) rest /\
      (length nodes' + room' = length nodes + room)%nat /\ (room + 2 * length rest <= room' + 2 * length ts + k)%nat /\ R a v nodes'
  end.

Lemma fails_bind {A B} (t : utree shst A) (f : A -> U shst B) : fails t -> fails (ubind t f).
Proof. intros [out ->]. exists out. by rewrite ubind_uwrites. Qed.

Lemma sim_bind {A B A' B'} k n1 r1 ts1 (P1 : pres A') (T1 : utree shst B') pos1 R1 k1
    nodes room ts (P2 : A' -> list token -> pres A) (f : B' -> U shst B) pos R :
  sim k1 n1 r1 ts1 P1 T1 pos1 R1 ->
  (forall a v nodes' room' rest, reads (pos1 v) rest -> (length nodes' + room' = length n1 + r1)%nat ->
     (r1 + 2 * length rest <= room' + 2 * length ts1 + k1)%nat -> R1 a v nodes' ->
     sim k nodes room ts (P2 a rest) (f v (ShSt m nodes' room')) pos R) ->
  sim k nodes room ts (pbind P1 P2) (ubind T1 f) pos R.
Proof.
  destruct P1 as [a rest| |]; cbn [sim pbind]; intros H1 H2; [|by apply fails_bind|done].
  destruct H1 as (v & nodes' & room' & -> & Hr & Hl & Ha & HR). cbn [ubind]. by apply (H2 a).
Qed.

Lemma sim_done {A B} k nodes room ts (a : A) rest (v : B) nodes' room' pos (R : A -> B -> list cmdnode -> Prop) :
  reads (pos v) rest -> (length nodes' + room' = length nodes + room)%nat ->
  (room + 2 * length rest <= room' + 2 * length ts + k)%nat -> R a v nodes' ->
  sim k nodes room ts (Parsed a rest) (UDone v (ShSt m nodes' room')) pos R.
Proof. intros. by exists v, nodes', room'. Qed.

Lemma utzoom_uwrites {S T A} (l : lens S T) fd out (t : utree T A) s : utzoom l (uwrites fd out t) s = uwrites fd out (utzoom l t s).
Proof. induction out as [|c out IH]; cbn; [done|]. by rewrite IH. Qed.

Lemma shmem_fprintf fmt ap s {A} (f : unit -> U shst A) : supplied (sh_mem s) fuel fmt ap ->
  exists out, (shmem (fprintf fuel 2 fmt ap) ≫= f) s = uwrites 2 out (f tt s).
Proof.
  intros H. destruct (vprintf_loop_ok fuel 2 _ fmt ap H) as (out & E & _). exists out.
  rewrite ubind_eq. unfold shmem, uzoom, fprintf, vprintf. cbn [lget sh_mem_lens]. rewrite E, utzoom_uwrites, ubind_uwrites. cbn.
  by destruct s.
Qed.

Lemma bytes_of_range s : Forall (fun x => 0 <= x < 256) (bytes_of s).
Proof.
  unfold bytes_of. apply Forall_forall. intros x Hx. apply list_elem_of_fmap in Hx as (c & -> & _).
  pose proof (Ascii.N_ascii_bounded c). lia.
Qed.

Lemma sh_panic_fails {A} msg s : fails (sh_panic (A := A) fuel msg s).
Proof.
  unfold sh_panic. destruct (shmem_fprintf (bytes_of "%s" ++ [10]) [AStr (Const (bytes_of msg))] s (fun _ => uexit (A := A) 1)) as [out E].
  - cbn. apply (s_conv _ _ _ _ _ []); [|apply s_char; [done|constructor]].
    split; [apply bytes_of_range|done].
  - exists out. by rewrite E.
Qed.

(** Reading a token, testing the next. *)
Lemma gettok_bind {A} ps (f : token_at -> U shst A) nodes room :
  (gettok ps es ≫= f) (ShSt m nodes room) = f (gettoken m ps es) (ShSt m nodes room).
Proof. reflexivity. Qed.
Lemma peek_bind {A} ps toks ts (f : bool * Z -> U shst A) nodes room :
  (forall c, in_set toks c = true -> in_set symbols c = true) -> reads ps ts ->
  exists ps', reads ps' ts /\ (peek_ ps es toks ≫= f) (ShSt m nodes room) = f (first_in toks ts, ps') (ShSt m nodes room).
Proof.
  intros Ht (Hp & l & Hl & <-). exists (skip_ws m ps es). split.
  - split; [|exists (strip l); split; [by apply skip_ws_ok|apply lex_strip]].
    clear -Hp. unfold skip_ws. generalize (Z.to_nat (es - ps)). intros n. revert ps Hp. induction n as [|n IH]; intros ps Hp; cbn; [done|].
    destruct ((ps <? es) && _); [|done]. apply IH. lia.
  - change ((peek_ ps es toks ≫= f) (ShSt m nodes room)) with (f (peek m ps es toks) (ShSt m nodes room)).
    by rewrite (peek_ok m es ps l toks Ht Hl).
Qed.

Lemma gettoken_reads ps t ts : reads ps (t :: ts) ->
  tk (gettoken m ps es) = tok_code t /\ tok_ok t /\ reads (tk_ps (gettoken m ps es)) ts /\
  match t with TWord w => word_at lo es m (tk_q (gettoken m ps es)) (tk_eq (gettoken m ps es)) w | _ => True end.
Proof.
  intros (Hp & l & Hl & E). pose proof (gettoken_ok lo m es ps l Hp Hl) as H. pose proof (lex_ok l) as Ho. rewrite E in H, Ho.
  apply Forall_cons_1 in Ho as [Ho _]. destruct H as (H1 & l' & H2 & H3 & H4 & H5).
  split; [done|]. split; [done|]. split; [|done]. split; [lia|]. by exists l'.
Qed.
Lemma gettoken_end ps : reads ps [] -> tk (gettoken m ps es) = 0 /\ reads (tk_ps (gettoken m ps es)) [].
Proof.
  intros (Hp & l & Hl & E). pose proof (gettoken_ok lo m es ps l Hp Hl) as H. rewrite E in H. destruct H as [H1 H2].
  split; [done|]. split; [destruct H2 as [_ H2], Hl as [_ Hl]; cbn in H2; lia|]. exists []. split; done.
Qed.

(** A token that is not a word does not have the code of one. *)
Lemma tok_code_word t : tok_ok t -> (tok_code t =? tok_a) = match t with TWord _ => true | _ => false end.
Proof.
  destruct t as [w|c|]; cbn; try done. intros Hc%symbols_dec. unfold tok_a. apply Z.eqb_neq. rewrite !elem_of_cons, elem_of_nil in Hc. lia.
Qed.
Lemma tok_code_zero t : tok_ok t -> (tok_code t =? 0) = false.
Proof.
  destruct t as [w|c|]; cbn; try done. intros Hc%symbols_dec. apply Z.eqb_neq. rewrite !elem_of_cons, elem_of_nil in Hc. lia.
Qed.

Lemma sym_subset toks : toks ⊆ symbols -> forall c, in_set toks c = true -> in_set symbols c = true.
Proof. intros H c. rewrite !in_set_true. apply H. Qed.

Lemma first_in_redir ts : first_in [60; 62] ts = match ts with t :: _ => is_redir t | [] => false end.
Proof. destruct ts as [|[w|c|] ts]; try done. cbn. unfold in_set. cbn. by rewrite orb_false_r. Qed.
Lemma first_in_stop ts : first_in [124; 41; 38; 59] ts = match ts with t :: _ => is_stop t | [] => false end.
Proof. by destruct ts as [|[w|c|] ts]. Qed.
Lemma first_in_one k ts : k <> 62 -> first_in [k] ts = next_is k ts.
Proof.
  intros Hk. destruct ts as [|[w|c|] ts]; try done; cbn; unfold in_set; cbn; rewrite orb_false_r; [done|].
  apply Z.eqb_neq. congruence.
Qed.

Lemma peek_next {A} ps k ts (f : bool * Z -> U shst A) nodes room :
  k ∈ symbols -> k <> 62 -> reads ps ts ->
  exists ps', reads ps' ts /\ (peek_ ps es [k] ≫= f) (ShSt m nodes room) = f (next_is k ts, ps') (ShSt m nodes room).
Proof.
  intros Hk Hk62 Hr. destruct (peek_bind ps [k] ts f nodes room) as (ps' & Hr' & E); [|done|].
  - apply sym_subset. intros c Hc. by apply list_elem_of_singleton in Hc as ->.
  - exists ps'. split; [done|]. by rewrite E, first_in_one.
Qed.

Lemma redircmd_eq c q eq t w r : redir_of t w = Some r -> forall nodes room,
  (if tok_code t =? 60 then redircmd c q eq O_RDONLY 0
   else if tok_code t =? 62 then redircmd c q eq (Z.lor (Z.lor O_WRONLY O_CREATE) O_TRUNC) 1
   else if tok_code t =? tok_plus then redircmd c q eq (Z.lor O_WRONLY O_CREATE) 1
   else mret c) (ShSt m nodes (S room)) = UDone (length nodes) (ShSt m (nodes ++ [REDIR c q eq (r_mode r) (r_fd r)]) room).
Proof.
  intros Hr nodes room. destruct t as [w'|k|]; [done| |by injection Hr as <-]. cbn [tok_code].
  destruct (Z.eqb_spec k 60) as [->|]; [by injection Hr as <-|]. destruct (Z.eqb_spec k 62) as [->|]; [by injection Hr as <-|].
  exfalso. revert Hr. cbn. repeat (case_match; try done).
Qed.
Lemma redir_of_file t w r : redir_of t w = Some r -> r = Redirection w (r_mode r) (r_fd r).
Proof.
  destruct t as [w'|k|]; cbn; [done| |by intros [= <-]]. repeat (case_match; try done); by intros [= <-].
Qed.
Lemma is_redir_of t w : is_redir t = true -> exists r, redir_of t w = Some r.
Proof.
  destruct t as [w'|k|]; cbn; [done| |by eexists]. destruct (Z.eqb_spec k 60) as [->|]; [by eexists|].
  destruct (Z.eqb_spec k 62) as [->|]; [by eexists|done].
Qed.

Lemma sub_redir c : in_set [60; 62] c = true -> in_set symbols c = true.
Proof. rewrite !in_set_true. unfold symbols. rewrite !elem_of_cons, !elem_of_nil. tauto. Qed.
Lemma sub_stop c : in_set [124; 41; 38; 59] c = true -> in_set symbols c = true.
Proof. rewrite !in_set_true. unfold symbols. rewrite !elem_of_cons, !elem_of_nil. tauto. Qed.

Abbreviation W := (word_at lo es m).

(** Step over a [peek], [Hr] being what the pointer reads. *)
Ltac do_peek Hsub Hr ps' Hr' :=
  lazymatch goal with |- context [(peek_ ?ps _ ?toks ≫= ?f) (ShSt _ ?nodes ?room)] =>
    let E := fresh "E" in destruct (peek_bind ps toks _ f nodes room Hsub Hr) as (ps' & Hr' & E); rewrite E; clear E; cbn beta iota
  end.
Ltac do_next Hr ps' Hr' :=
  lazymatch goal with |- context [(peek_ ?ps _ [?k] ≫= ?f) (ShSt _ ?nodes ?room)] =>
    let E := fresh "E" in
    destruct (peek_next ps k _ f nodes room ltac:(unfold symbols; rewrite !elem_of_cons; tauto) ltac:(done) Hr) as (ps' & Hr' & E);
    rewrite E; clear E; cbn beta iota
  end.

Lemma parseredirs_sim n : forall nodes room ts c ps, reads ps ts -> (c < length nodes)%nat -> (2 * length ts <= room)%nat ->
  sim 0 nodes room ts (p_redirs n ts) (parseredirs fuel n c ps es (ShSt m nodes room)) snd
    (fun rs v nodes' => ext nodes nodes' /\ wraps W nodes' (fst v) rs c /\ (fst v < length nodes')%nat).
Proof.
  induction n as [|n IH]; intros nodes room ts c ps Hr Hc Hroom; [done|]. cbn [p_redirs parseredirs].
  do_peek sub_redir Hr ps1 Hr1. rewrite first_in_redir. destruct ts as [|t ts]; [apply sim_done; [done|lia|lia|]; split; [done|]; split; [constructor|done]|].
  destruct (is_redir t) eqn:Ht; [|apply sim_done; [done|lia|lia|]; split; [done|]; split; [constructor|done]].
  rewrite gettok_bind. apply gettoken_reads in Hr1 as (Et & _ & Hr2 & _). rewrite gettok_bind.
  destruct ts as [|t2 ts].
  { apply gettoken_end in Hr2 as [E2 _]. rewrite E2. apply sh_panic_fails. }
  apply gettoken_reads in Hr2 as (E2 & Ho2 & Hr3 & Hw). rewrite E2, tok_code_word by done.
  destruct t2 as [w| |]; cbn [negb]; [|apply sh_panic_fails..].
  destruct (is_redir_of t w Ht) as [r Er]. rewrite Er, Et. cbn [length] in Hroom.
  destruct room as [|room]; [lia|]. erewrite ubind_done; [|exact (redircmd_eq c _ _ t w r Er nodes room)].
  set (node := REDIR _ _ _ _ _). set (nodes1 := nodes ++ [node]).
  assert (length nodes1 = S (length nodes)) as Hl1 by (unfold nodes1; rewrite length_app; cbn; lia).
  pose proof (IH nodes1 room ts (length nodes) _ Hr3 ltac:(lia) ltac:(lia)) as HI.
  destruct (p_redirs n ts) as [rs rest| |]; cbn [pbind sim] in *; try done.
  destruct HI as (v & nodes' & room' & -> & Hv & Hl & Ha & He & Hwr & Hlv). exists v, nodes', room'.
  split; [done|]. split; [done|]. split; [lia|]. split; [cbn [length]; lia|]. split; [by etrans; [apply ext_app|]|].
  rewrite (redir_of_file _ _ _ Er). split; [|done]. eapply wraps_cons; [apply He, lookup_new|done|exact Hw|done].
Qed.

Lemma set_arg_bind {A} nodes room e argc q eq argv eargv (f : unit -> U shst A) :
  nodes !! e = Some (EXEC argv eargv) -> (argc < MAXARGS)%nat ->
  (set_arg e argc q eq ≫= f) (ShSt m nodes room) =
  f tt (ShSt m (<[e := EXEC (<[argc := q]> argv) (<[argc := eq]> eargv)]> nodes) room).
Proof.
  intros He Ha. rewrite ubind_eq. unfold set_arg. rewrite ubind_eq. unfold get_cmd. rewrite ubind_eq. cbn [uget ubind sh_cmds].
  rewrite He. cbn [uopt mret U_ret ubind]. by rewrite (proj2 (Nat.ltb_lt _ _) Ha).
Qed.

Lemma args_at_snoc argv eargv ws q eq w : args_at W argv eargv ws -> (length ws < MAXARGS)%nat -> q <> 0 -> W q eq w ->
  args_at W (<[length ws := q]> argv) (<[length ws := eq]> eargv) (ws ++ [w]).
Proof.
  intros (H1 & H2 & H3) Hl Hq Hw. split; [by rewrite length_insert|]. split; [by rewrite length_insert|].
  intros k x Hk. destruct (decide (k = length ws)) as [->|Hne].
  - rewrite lookup_app_r, Nat.sub_diag in Hk by lia. injection Hk as <-. exists q, eq.
    rewrite !list_lookup_insert_eq by lia. done.
  - assert (k < length ws)%nat by (apply lookup_lt_Some in Hk; rewrite length_app in Hk; cbn in Hk; lia).
    rewrite lookup_app_l in Hk by done. destruct (H3 k x Hk) as (q' & eq' & ? & ? & ? & ?). exists q', eq'.
    by rewrite !list_lookup_insert_ne by done.
Qed.

(** The redirections do not pass through the node of the arguments. *)
Lemma wraps_update nodes i rs e argv eargv argv' eargv' : nodes !! e = Some (EXEC argv eargv) ->
  wraps W nodes i rs e -> wraps W (<[e := EXEC argv' eargv']> nodes) i rs e.
Proof.
  intros He. apply wraps_ext. intros k c q eq mo fd Hk. rewrite list_lookup_insert_ne; [done|]. intros ->. congruence.
Qed.

Definition same_but (e : nat) (nodes nodes' : list cmdnode) : Prop :=
  forall i x, i <> e -> nodes !! i = Some x -> nodes' !! i = Some x.

Lemma parseargs_sim n e : forall nodes room ts ws0 rs0 ret ps argv eargv,
  reads ps ts -> (2 * length ts <= room)%nat -> (length ws0 < MAXARGS)%nat -> (ret < length nodes)%nat ->
  nodes !! e = Some (EXEC argv eargv) -> args_at W argv eargv ws0 -> wraps W nodes ret rs0 e ->
  sim 0 nodes room ts (p_args n (length ws0) ts) (parseargs fuel n e (length ws0) ret ps es (ShSt m nodes room)) snd
    (fun r v nodes' => fst (fst v) = length (ws0 ++ fst r) /\ (fst (fst v) < MAXARGS)%nat /\ same_but e nodes nodes' /\
       wraps W nodes' (snd (fst v)) (rs0 ++ snd r) e /\
       exists argv' eargv', nodes' !! e = Some (EXEC argv' eargv') /\ args_at W argv' eargv' (ws0 ++ fst r)).
Proof.
  induction n as [|n IH]; intros nodes room ts ws0 rs0 ret ps argv eargv Hr Hroom Ha Hret He Hargs Hw; [done|].
  cbn [p_args parseargs]. do_peek sub_stop Hr ps1 Hr1. rewrite first_in_stop.
  assert (fst (fst (length ws0, ret, ps1)) = length (ws0 ++ []) /\ (length ws0 < MAXARGS)%nat /\ same_but e nodes nodes /\ wraps W nodes ret (rs0 ++ []) e /\
    exists argv' eargv', nodes !! e = Some (EXEC argv' eargv') /\ args_at W argv' eargv' (ws0 ++ [])) as Hstay.
  { rewrite !app_nil_r. split; [done|]. split; [done|]. split; [by intros i x|]. split; [done|]. by exists argv, eargv. }
  destruct ts as [|t ts].
  { rewrite gettok_bind. apply gettoken_end in Hr1 as [E Hr2]. rewrite E. change (0 =? 0) with true. cbn iota.
    apply sim_done; [done|lia|lia|exact Hstay]. }
  destruct (is_stop t); [apply sim_done; [done|lia|lia|exact Hstay]|].
  rewrite gettok_bind. apply gettoken_reads in Hr1 as (E & Ho & Hr2 & Hword).
  rewrite E, tok_code_zero, tok_code_word by done. destruct t as [w| |]; cbn [negb]; [|apply sh_panic_fails..].
  rewrite (set_arg_bind _ _ _ _ _ _ _ _ _ He Ha). set (nodes1 := <[e := _]> nodes).
  destruct (Nat.leb_spec MAXARGS (S (length ws0))) as [|Hlt]; [apply sh_panic_fails|]. cbn [length] in Hroom.
  assert (length nodes1 = length nodes) as Hl1 by apply length_insert.
  assert (length (ws0 ++ [w]) = S (length ws0)) as Hlw by (rewrite length_app; cbn; lia).
  eapply sim_bind; [apply (parseredirs_sim n nodes1 room ts ret _ Hr2); lia|].
  intros rs [ret' ps'] nodes2 room2 rest Hr3 Hl2 Hacc (Hext & Hwr & Hret'). cbn [fst snd] in *.
  assert (same_but e nodes nodes2) as Hsb.
  { intros i x Hi Hx. apply Hext. unfold nodes1. by rewrite list_lookup_insert_ne. }
  assert (wraps W nodes2 ret' (rs0 ++ rs) e) as Hw2.
  { eapply wraps_app; [|exact Hwr]. apply (wraps_ext W nodes1); [intros; by apply Hext|]. by eapply wraps_update. }
  assert (nodes2 !! e = Some (EXEC (<[length ws0 := tk_q (gettoken m ps1 es)]> argv) (<[length ws0 := tk_eq (gettoken m ps1 es)]> eargv))) as He2.
  { apply Hext. unfold nodes1. apply list_lookup_insert_eq. by eapply lookup_lt_Some. }
  assert (tk_q (gettoken m ps1 es) <> 0) as Hq0 by (destruct Hword as [[? _] _]; lia).
  pose proof (IH nodes2 room2 rest (ws0 ++ [w]) (rs0 ++ rs) ret' ps' _ _ Hr3 ltac:(lia) ltac:(lia) Hret' He2
    (args_at_snoc _ _ _ _ _ _ Hargs Ha Hq0 Hword) Hw2) as HI.
  rewrite <- Hlw. destruct (p_args n _ rest) as [[ws rs'] rest'| |]; cbn [pbind sim] in *; try done.
  destruct HI as (v & nodes' & room' & -> & Hv & Hl & Hacc' & Hargc & Hargc' & Hsb' & Hw' & Hex). cbn [fst snd] in *.
  rewrite <- !app_assoc in *. cbn [app] in *.
  exists v, nodes', room'. split; [done|]. split; [done|]. split; [lia|]. split; [cbn [length]; lia|].
  split; [done|]. split; [done|]. split; [|done]. intros i x Hi Hx. by apply Hsb', Hsb.
Qed.

Lemma parsebacks_sim n : forall nodes room ts c ps t, reads ps ts -> (2 * length ts <= room)%nat -> rep W nodes c t ->
  sim 0 nodes room ts (p_backs n t ts) (parsebacks n c ps es (ShSt m nodes room)) snd
    (fun t' v nodes' => ext nodes nodes' /\ rep W nodes' (fst v) t').
Proof.
  induction n as [|n IH]; intros nodes room ts c ps t Hr Hroom Hc; [done|]. cbn [p_backs parsebacks].
  do_next Hr ps1 Hr1. next_tok 38 ts; [|apply sim_done; [done|lia|lia|]; split; [done|done]].
  rewrite gettok_bind. apply gettoken_reads in Hr1 as (_ & _ & Hr2 & _). cbn [length] in Hroom. destruct room as [|room]; [lia|].
  rewrite (ubind_done (backcmd c) _ _ (length nodes) (ShSt m (nodes ++ [BACK c]) room)) by done.
  assert (rep W (nodes ++ [BACK c]) (length nodes) (Bg t)) as Hb.
  { eapply rep_back; [apply lookup_new|by eapply rep_lt|]. eapply rep_ext; [apply ext_app|done]. }
  pose proof (IH (nodes ++ [BACK c]) room r (length nodes) _ (Bg t) Hr2 ltac:(lia) Hb) as HI.
  destruct (p_backs n (Bg t) r) as [t' rest| |]; cbn [sim] in *; try done.
  destruct HI as (v & nodes' & room' & -> & Hv & Hl & Ha & He & Ht). rewrite length_app in Hl. cbn in Hl. exists v, nodes', room'.
  split; [done|]. split; [done|]. split; [lia|]. split; [cbn [length]; lia|]. split; [by etrans; [apply ext_app|]|done].
Qed.

Definition parses (k : nat) (p : list token -> pres cmd) (f : Z -> U shst (nat * Z)) : Prop :=
  forall nodes room ts ps, reads ps ts -> (2 * length ts + k <= room)%nat ->
  sim k nodes room ts (p ts) (f ps (ShSt m nodes room)) snd (fun t v nodes' => ext nodes nodes' /\ rep W nodes' (fst v) t).

Lemma exec_done nodes nodes' e argv eargv ws i rs room :
  nodes' !! e = Some (EXEC argv eargv) -> args_at W argv eargv ws -> (length ws < MAXARGS)%nat -> wraps W nodes' i rs e ->
  e = length nodes -> same_but e (nodes ++ [room]) nodes' ->
  let nodes2 := <[e := EXEC (<[length ws := 0]> argv) (<[length ws := 0]> eargv)]> nodes' in
  ext nodes nodes2 /\ rep W nodes2 i (wrap (Exec ws) rs).
Proof.
  intros He (H1 & H2 & H3) Hl Hw -> Hs nodes2. split.
  - intros j x Hj. pose proof (lookup_lt_Some _ _ _ Hj). unfold nodes2. rewrite list_lookup_insert_ne by lia.
    apply Hs; [lia|]. by apply lookup_app_l_Some.
  - eapply rep_wraps; [by eapply wraps_update|]. eapply rep_exec.
    + unfold nodes2. apply list_lookup_insert_eq. by eapply lookup_lt_Some.
    + split; [by rewrite length_insert|]. split; [by rewrite length_insert|]. intros k w Hk.
      pose proof (lookup_lt_Some _ _ _ Hk). rewrite !list_lookup_insert_ne by lia. by apply H3.
    + apply list_lookup_insert_eq. lia.
Qed.

(** Continue with a node on top of two parsed commands. *)
Lemma two_done nodes nodes1 nodes2 i j t u :
  ext nodes nodes1 -> ext nodes1 nodes2 -> rep W nodes1 i t -> rep W nodes2 j u ->
  (ext nodes (nodes2 ++ [PIPE i j]) /\ rep W (nodes2 ++ [PIPE i j]) (length nodes2) (Pipe t u)) /\
  (ext nodes (nodes2 ++ [LIST i j]) /\ rep W (nodes2 ++ [LIST i j]) (length nodes2) (Seq t u)).
Proof.
  intros H1 H2 Hi Hj. assert (rep W nodes2 i t) as Hi2 by (by eapply rep_ext).
  split; (split; [etrans; [exact H1|]; etrans; [exact H2|apply ext_app]|]).
  - eapply rep_pipe; [apply lookup_new|by eapply rep_lt|by eapply rep_lt| |]; (eapply rep_ext; [apply ext_app|done]).
  - eapply rep_list; [apply lookup_new|by eapply rep_lt|by eapply rep_lt| |]; (eapply rep_ext; [apply ext_app|done]).
Qed.

Lemma parser_sim n :
  parses 1 (p_line n) (fun ps => parseline fuel n ps es) /\ parses 1 (p_pipe n) (fun ps => parsepipe fuel n ps es) /\
  parses 1 (p_exec n) (fun ps => parseexec fuel n ps es) /\ parses 1 (p_block n) (fun ps => parseblock fuel n ps es).
Proof.
  induction n as [|n (IHl & IHp & IHe & IHb)]; [done|]. split_and!; intros nodes room ts ps Hr Hroom.
  - cbn [p_line parseline]. eapply sim_bind; [by apply IHp|].
    intros t1 [c1 ps1] nodes1 room1 rest1 Hr1 Hl1 Ha1 (He1 & Ht1). cbn [fst snd] in *.
    eapply sim_bind; [apply (parsebacks_sim n nodes1 room1 rest1 c1 ps1 t1 Hr1); [lia|done]|].
    intros t2 [c2 ps2] nodes2 room2 rest2 Hr2 Hl2 Ha2 (He2 & Ht2). cbn [fst snd] in *.
    assert (ext nodes nodes2) as He by (by etrans).
    do_next Hr2 ps3 Hr3. next_tok 59 rest2; [|apply sim_done; [done|lia|lia|done]].
    rewrite gettok_bind. apply gettoken_reads in Hr3 as (_ & _ & Hr4 & _). cbn [length] in *.
    eapply sim_bind; [apply IHl; [exact Hr4|lia]|].
    intros t3 [c3 ps5] nodes3 room3 rest3 Hr5 Hl3 Ha3 (He3 & Ht3). cbn [fst snd] in *. destruct room3 as [|room3]; [lia|].
    apply sim_done; [done|rewrite length_app; cbn; lia|lia|]. by destruct (two_done nodes nodes2 nodes3 c2 c3 t2 t3) as [_ ?].
  - cbn [p_pipe parsepipe]. eapply sim_bind; [by apply IHe|].
    intros t1 [c1 ps1] nodes1 room1 rest1 Hr1 Hl1 Ha1 (He1 & Ht1). cbn [fst snd] in *.
    do_next Hr1 ps3 Hr3. next_tok 124 rest1; [|apply sim_done; [done|lia|lia|done]].
    rewrite gettok_bind. apply gettoken_reads in Hr3 as (_ & _ & Hr4 & _). cbn [length] in *.
    eapply sim_bind; [apply IHp; [exact Hr4|lia]|].
    intros t3 [c3 ps5] nodes3 room3 rest3 Hr5 Hl3 Ha3 (He3 & Ht3). cbn [fst snd] in *. destruct room3 as [|room3]; [lia|].
    apply sim_done; [done|rewrite length_app; cbn; lia|lia|]. by destruct (two_done nodes nodes1 nodes3 c1 c3 t1 t3) as [? _].
  - cbn [p_exec parseexec]. do_next Hr ps1 Hr1. destruct (next_is 40 ts); [by apply IHb|].
    destruct room as [|room]; [lia|]. set (node := EXEC (replicate MAXARGS 0) (replicate MAXARGS 0)).
    rewrite (ubind_done execcmd _ _ (length nodes) (ShSt m (nodes ++ [node]) room)) by done.
    assert (length (nodes ++ [node]) = S (length nodes)) as Hln by (rewrite length_app; cbn; lia).
    eapply sim_bind; [apply (parseredirs_sim n (nodes ++ [node]) room ts (length nodes) ps1 Hr1); lia|].
    intros rs [ret ps2] nodes1 room1 rest1 Hr2 Hl1 Ha1 (He1 & Hw1 & Hret). cbn [fst snd] in *.
    eapply sim_bind.
    { eapply (parseargs_sim n (length nodes) nodes1 room1 rest1 [] rs ret ps2); [exact Hr2|lia|unfold MAXARGS; cbn; lia|done| | |exact Hw1].
      - apply He1, lookup_new.
      - split; [done|]. split; [done|]. done. }
    intros [ws rs'] [[argc ret'] ps3] nodes2 room2 rest2 Hr3 Hl2 Ha2 (Hargc & Hlt & Hsb & Hw2 & argv & eargv & He2 & Hat). cbn [fst snd app] in *.
    subst argc. rewrite (set_arg_bind _ _ _ _ _ _ _ _ _ He2 Hlt).
    apply sim_done; [done|rewrite length_insert; lia|lia|].
    destruct (exec_done nodes nodes2 (length nodes) argv eargv ws ret' (rs ++ rs') node He2 Hat Hlt Hw2 eq_refl) as [? ?]; [|done].
    intros i x Hi Hx. apply Hsb; [done|]. by apply He1.
  - cbn [p_block parseblock]. do_next Hr ps1 Hr1. next_tok 40 ts; [|apply sh_panic_fails].
    rewrite gettok_bind. apply gettoken_reads in Hr1 as (_ & _ & Hr4 & _). cbn [length] in *.
    eapply sim_bind; [apply IHl; [exact Hr4|lia]|].
    intros t1 [c1 ps2] nodes1 room1 rest1 Hr2 Hl1 Ha1 (He1 & Ht1). cbn [fst snd] in *.
    do_next Hr2 ps3 Hr3. next_tok 41 rest1; [|apply sh_panic_fails].
    rewrite gettok_bind. apply gettoken_reads in Hr3 as (_ & _ & Hr5 & _). cbn [length] in *.
    pose proof (parseredirs_sim n nodes1 room1 r0 c1 _ Hr5 ltac:(by eapply rep_lt) ltac:(lia)) as HI.
    destruct (p_redirs n r0) as [rs rest| |]; cbn [pbind sim] in *; try done.
    destruct HI as (v & nodes' & room' & -> & Hv & Hl & Ha & He & Hwr & Hlv). exists v, nodes', room'.
    split; [done|]. split; [done|]. split; [lia|]. split; [cbn [length]; lia|]. split; [by etrans|].
    eapply rep_wraps; [done|]. by eapply rep_ext.
Qed.

(** ** Terminators *)

(** Bytes that end words became NULs; nothing else changed. *)
Definition nuls (m0 m1 : mem) : Prop :=
  forall a, ld8 m1 a = ld8 m0 a \/ (ld8 m1 a = 0 /\ sep (ld8 m a) = true /\ lo <= a <= es).
Lemma nuls_refl m0 : nuls m0 m0.
Proof. intros a. by left. Qed.
Lemma nuls_trans m0 m1 m2 : nuls m0 m1 -> nuls m1 m2 -> nuls m0 m2.
Proof. intros H1 H2 a. destruct (H2 a) as [->|?]; [apply H1|by right]. Qed.
Lemma nuls_zero m0 m1 a : nuls m0 m1 -> ld8 m0 a = 0 -> ld8 m1 a = 0.
Proof. intros H H0. destruct (H a) as [->|[? _]]; done. Qed.
Lemma nuls_st8 m0 q eq w : W q eq w -> nuls m0 (st8 m0 eq 0).
Proof.
  intros ((H1 & H2) & H3 & H4 & _) a. rewrite ld8_st8. case_decide; [|by left]. subst a. right. split; [done|]. split; [done|]. lia.
Qed.

Definition Wnul (m1 : mem) (q eq : Z) (w : list Z) : Prop := W q eq w /\ ld8 m1 eq = 0.
Lemma rep_nuls m0 m1 nodes i t : nuls m0 m1 -> rep (Wnul m0) nodes i t -> rep (Wnul m1) nodes i t.
Proof. intros H. apply rep_impl. intros q eq w [? ?]. split; [done|by eapply nuls_zero]. Qed.

Lemma nul_args_ok nodes room : forall ws argv eargv m0, length argv = length eargv ->
  (forall k w, ws !! k = Some w -> exists q eq, argv !! k = Some q /\ eargv !! k = Some eq /\ q <> 0 /\ W q eq w) ->
  argv !! length ws = Some 0 ->
  exists m1, nul_args argv eargv (ShSt m0 nodes room) = UDone tt (ShSt m1 nodes room) /\ nuls m0 m1 /\
    (forall k w eq, ws !! k = Some w -> eargv !! k = Some eq -> ld8 m1 eq = 0).
Proof.
  induction ws as [|w ws IH]; intros argv eargv m0 Hl Hw Hz; (destruct argv as [|q argv]; [done|]); (destruct eargv as [|eq eargv]; [done|]).
  - injection Hz as ->. exists m0. split; [done|]. split; [apply nuls_refl|done].
  - destruct (Hw 0%nat w eq_refl) as (q' & eq' & [= <-] & [= <-] & Hq & HW). cbn [nul_args]. rewrite (proj2 (Z.eqb_neq _ _) Hq).
    destruct (IH argv eargv (st8 m0 eq 0) ltac:(by injection Hl) (fun k w Hk => Hw (S k) w Hk) Hz) as (m1 & E & Hn & H1).
    exists m1. split; [exact E|]. split; [eapply nuls_trans; [by eapply nuls_st8|exact Hn]|].
    intros [|k] w' eq1 Hk He; [|by eapply (H1 k)]. injection He as <-. eapply nuls_zero; [exact Hn|]. by rewrite ld8_st8, decide_True.
Qed.

Lemma get_cmd_bind {A} m0 nodes room i c (f : cmdnode -> U shst A) : nodes !! i = Some c ->
  (get_cmd i ≫= f) (ShSt m0 nodes room) = f c (ShSt m0 nodes room).
Proof. intros Hi. rewrite ubind_eq. unfold get_cmd. rewrite ubind_eq. cbn [uget ubind sh_cmds]. by rewrite Hi. Qed.

Lemma nulterminate_ok nodes room i t : rep W nodes i t -> forall n m0, (i < n)%nat ->
  exists m1, nulterminate n i (ShSt m0 nodes room) = UDone i (ShSt m1 nodes room) /\ nuls m0 m1 /\ rep (Wnul m1) nodes i t.
Proof.
  induction 1 as [i argv eargv ws Hi Ha Hz|i j q eq w mode fd t Hi Hlt Hw Ht IH|i j k t u Hi Hj Hk Ht IHt Hu IHu|i j k t u Hi Hj Hk Ht IHt Hu IHu|i j t Hi Hlt Ht IH];
    intros [|n] m0 Hn; try lia; cbn [nulterminate]; rewrite (get_cmd_bind _ _ _ _ _ _ Hi).
  - destruct Ha as (H1 & H2 & H3). destruct (nul_args_ok nodes room ws argv eargv m0 ltac:(congruence) H3 Hz) as (m1 & E & Hs & Hnul).
    exists m1. erewrite ubind_done by exact E. split; [done|]. split; [done|]. eapply rep_exec; [done| |done].
    split; [done|]. split; [done|]. intros k w Hk. destruct (H3 k w Hk) as (q & eq & ? & ? & ? & ?). exists q, eq.
    split; [done|]. split; [done|]. split; [done|]. split; [done|by eapply Hnul].
  - destruct (IH n m0 ltac:(lia)) as (m1 & E & Hs & Hr). exists (st8 m1 eq 0).
    assert (nuls m1 (st8 m1 eq 0)) as Hs1 by (by eapply nuls_st8).
    rewrite !ubind_eq, E. cbn. split; [done|]. split; [by eapply nuls_trans|].
    econstructor; [done|done| |by eapply rep_nuls]. split; [done|]. by rewrite ld8_st8, decide_True.
  - destruct (IHt n m0 ltac:(lia)) as (m1 & E1 & Hs1 & Hr1). destruct (IHu n m1 ltac:(lia)) as (m2 & E2 & Hs2 & Hr2).
    exists m2. rewrite !ubind_eq, E1. cbn [ubind]. rewrite ubind_eq, E2. split; [done|]. split; [by eapply nuls_trans|].
    econstructor; try done. by eapply rep_nuls.
  - destruct (IHt n m0 ltac:(lia)) as (m1 & E1 & Hs1 & Hr1). destruct (IHu n m1 ltac:(lia)) as (m2 & E2 & Hs2 & Hr2).
    exists m2. rewrite !ubind_eq, E1. cbn [ubind]. rewrite ubind_eq, E2. split; [done|]. split; [by eapply nuls_trans|].
    econstructor; try done. by eapply rep_nuls.
  - destruct (IH n m0 ltac:(lia)) as (m1 & E & Hs & Hr). exists m1. rewrite !ubind_eq, E. split; [done|]. split; [done|]. by econstructor.
Qed.

Lemma cstr_lookups m1 w : forall q, (forall i c, w !! i = Some c -> ld8 m1 (q + Z.of_nat i) = c /\ c <> 0) ->
  ld8 m1 (q + Z.of_nat (length w)) = 0 -> cstr m1 q w.
Proof.
  induction w as [|c w IH]; intros q Hw Hz; cbn [cstr length] in *; [by rewrite Z.add_0_r in Hz|].
  destruct (Hw 0%nat c eq_refl) as [H1 H2]. rewrite Z.add_0_r in H1. split; [done|]. split; [done|]. apply IH.
  - intros i d Hi. destruct (Hw (S i) d Hi) as [H3 H4]. split; [|done]. by replace (q + 1 + Z.of_nat i) with (q + Z.of_nat (S i)) by lia.
  - by replace (q + 1 + Z.of_nat (length w)) with (q + Z.of_nat (S (length w))) by lia.
Qed.

Lemma Wnul_cstr m1 q eq w : nuls m m1 -> Wnul m1 q eq w -> cstr m1 q w.
Proof.
  intros Hn [(_ & He & _ & Hw) Hz]. subst eq. apply cstr_lookups; [|done].
  intros i c Hi. destruct (Hw i c Hi) as [H1 H2]. destruct (Hn (q + Z.of_nat i)) as [->|(_ & H3 & _)].
  - split; [done|]. intros ->. done.
  - congruence.
Qed.
End Sim.

(** ** The whole line *)

(** The tree in the heap, its words as strings in memory. *)
Definition holds (m : mem) (nodes : list cmdnode) (i : nat) (t : cmd) : Prop :=
  rep (fun q _ w => cstr m q w) nodes i t.

Lemma parseline_decides fuel m p l nodes room n :
  0 < p -> cstr m p l -> (2 * length l + 1 <= room)%nat -> (4 * length l + 4 <= n)%nat ->
  let es := p + Z.of_nat (length l) in
  sim m p es 1 nodes room (lex l) (p_line n (lex l)) (parseline fuel n p es (ShSt m nodes room)) snd
    (fun t v nodes' => ext nodes nodes' /\ rep (word_at p es m) nodes' (fst v) t).
Proof.
  intros Hp Hc Hroom Hn es. pose proof (length_lex l).
  apply (proj1 (parser_sim fuel m p es Hp n)); [|lia]. split; [lia|]. exists l. done.
Qed.

Lemma leftovers_fails fuel m nodes room s l : cstr m s l -> (length l < fuel)%nat ->
  fails ((shmem (fprintf fuel 2 (bytes_of "leftovers: %s" ++ [10]) [AStr (InMem s)]) ;; sh_panic (A := nat) fuel "syntax") (ShSt m nodes room)).
Proof.
  intros Hc Hf.
  destruct (shmem_fprintf fuel (bytes_of "leftovers: %s" ++ [10]) [AStr (InMem s)] (ShSt m nodes room) (fun _ => sh_panic (A := nat) fuel "syntax")) as [out Eo].
  { cbn [sh_mem]. unfold bytes_of; cbn. do 11 (apply s_char; [done|]). apply (s_conv _ _ _ _ _ []); [|apply s_char; [done|constructor]].
    split; [|done]. right. by exists l. }
  rewrite Eo. destruct (sh_panic_fails (A := nat) fuel "syntax" (ShSt m nodes room)) as [out' Ef].
  exists (out ++ out'). by rewrite uwrites_app, Ef.
Qed.

Lemma parsecmd_ok fuel n m p l nodes room :
  0 < p -> cstr m p l -> (length l < fuel)%nat -> Z.of_nat (length l) < 2 ^ 32 ->
  (2 * length l + 1 <= room)%nat -> (length nodes + 4 * length l + 4 <= n)%nat ->
  (exists t i m' nodes' room', g_line (lex l) t /\
     parsecmd fuel n p (ShSt m nodes room) = UDone i (ShSt m' nodes' room') /\ holds m' nodes' i t /\
     same_outside (fun a => p <= a <= p + Z.of_nat (length l)) m m' /\
     (i < n)%nat /\ rep (word_at p (p + Z.of_nat (length l)) m) nodes' i t) \/
  ((forall t, ~ g_line (lex l) t) /\ fails (parsecmd fuel n p (ShSt m nodes room))).
Proof.
  intros Hp Hc Hf Hl Hroom Hn. set (es := p + Z.of_nat (length l)). pose proof (length_lex l) as Hlex.
  pose proof (parseline_decides fuel m p l nodes room n Hp Hc Hroom ltac:(lia)) as Hsim. cbn zeta in Hsim. fold es in Hsim.
  pose proof (p_cmd_decides n (lex l) ltac:(lia)) as Hdec. unfold p_cmd in Hdec.
  unfold parsecmd. rewrite ubind_eq. cbn [uget ubind sh_mem]. rewrite (strlen_ok fuel m p l Hc Hf Hl), ubind_eq. cbn [ufuel mret U_ret ubind].
  fold es. destruct (p_line n (lex l)) as [t rest| |] eqn:E; cbn [pbind sim] in *; [|right|destruct Hdec as [(? & ? & _)|[? _]]; done].
  2:{ split; [destruct Hdec as [(? & ? & _)|[_ ?]]; done|]. destruct Hsim as [out Es]. exists out. by rewrite ubind_eq, Es, ubind_uwrites. }
  destruct Hsim as ([i ps] & nodes' & room' & Es & Hr & Hlen & Hacc & _ & Hrep). cbn [fst snd] in *.
  rewrite ubind_eq, Es. cbn [ubind].
  destruct Hr as (Hps & l' & Hl' & El').
  assert (peek m ps es [] = (false, skip_ws m ps es)) as Epk.
  { unfold peek. by rewrite andb_false_r. }
  lazymatch goal with |- context [(peek_ ?q ?e [] ≫= ?f) ?st] => change ((peek_ q e [] ≫= f) st) with (f (peek m q e []) st) end.
  rewrite Epk. cbn [snd]. cbv zeta.
  pose proof (skip_ws_ok m es ps l' Hl') as Hpos. set (s1 := skip_ws m ps es) in *. rewrite <- (lex_strip l') in El'.
  destruct Hpos as [Hc1 He1].
  destruct rest as [|x rest].
  - left. destruct Hdec as [(t' & [= <-] & Hg)|[? _]]; [|done]. rewrite lex_eq, strip_idem in El'.
    assert (strip l' = []) as Hnil.
    { destruct (strip l') as [|c r]; [done|]. cbn [lex1] in El'. destruct (c =? 62); [destruct r as [|d r]; [done|]; by destruct (d =? 62)|].
      by destruct (in_set symbols c). }
    rewrite Hnil in He1. cbn in He1. replace (s1 =? es) with true by lia. cbn [negb].
    pose proof (rep_lt _ _ _ _ Hrep).
    destruct (nulterminate_ok m p es nodes' room' i t Hrep n m ltac:(lia)) as (m1 & En & Hs & Hrep1).
    exists t, i, m1, nodes', room'. split; [done|]. rewrite ubind_eq, En. split; [done|]. split.
    + eapply rep_impl; [|exact Hrep1]. intros q eq w. by apply Wnul_cstr.
    + split; [|split; [lia|done]]. intros a Ha. destruct (Hs a) as [?|(_ & _ & ?)]; [done|lia].
  - right. destruct Hdec as [(t' & [=] & Hg)|[_ Hno]]. split; [done|].
    assert (s1 <> es) as Hne.
    { intros ->. destruct (strip l') as [|c r]; [done|cbn [length] in He1; lia]. }
    rewrite (proj2 (Z.eqb_neq _ _) Hne). cbn [negb].
    apply leftovers_fails with (l := strip l'); [done|]. pose proof (length_strip l'). destruct Hl' as [_ Hl']. unfold es in *. lia.
Qed.

(** C11: The command parser of the shell.  For every line without NUL, given memory for
    its nodes, [parsecmd] ends.  If the line is derivable in the grammar of command
    lines (exactly one tree then), it returns the root of that tree in the heap, every
    word and file name of it a NUL-terminated string in the line, and nothing outside
    the line changed.  If the line is not derivable, the process prints a message to
    descriptor 2 and exits with status 1. *)
Theorem parsecmd_spec fuel n m p l nodes room :
  0 < p -> cstr m p l -> (length l < fuel)%nat -> Z.of_nat (length l) < 2 ^ 32 ->
  (2 * length l + 1 <= room)%nat -> (length nodes + 4 * length l + 4 <= n)%nat ->
  (exists t i m' nodes' room', g_line (lex l) t /\
     parsecmd fuel n p (ShSt m nodes room) = UDone i (ShSt m' nodes' room') /\ holds m' nodes' i t /\
     same_outside (fun a => p <= a <= p + Z.of_nat (length l)) m m') \/
  ((forall t, ~ g_line (lex l) t) /\ fails (parsecmd fuel n p (ShSt m nodes room))).
Proof.
  intros Hp Hc Hf Hl Hroom Hn. destruct (parsecmd_ok fuel n m p l nodes room Hp Hc Hf Hl Hroom Hn)
    as [(t & i & m' & nodes' & room' & Hg & E & Hh & Hs & _)|H]; [left|by right].
  by exists t, i, m', nodes', room'.
Qed.

Definition demo_line : list Z := bytes_of "ls -l|wc >out".
Definition demo_line_mem : mem := store_bytes ∅ 4096 (demo_line ++ [0]).
Lemma demo_line_cstr : cstr demo_line_mem 4096 demo_line.
Proof. vm_compute. repeat split; discriminate. Qed.

Lemma parsecmd_spec_witness :
  exists i m' nodes' room', parsecmd 20 60 4096 (ShSt demo_line_mem [] 40) = UDone i (ShSt m' nodes' room') /\
    holds m' nodes' i (Pipe (Exec [bytes_of "ls"; bytes_of "-l"]) (Redir (Exec [bytes_of "wc"]) (Redirection (bytes_of "out") 1537 1))).
Proof.
  assert (length demo_line = 13%nat) as Hl by done.
  destruct (parsecmd_spec 20 60 demo_line_mem 4096 demo_line [] 40 ltac:(lia) demo_line_cstr ltac:(rewrite Hl; lia) ltac:(rewrite Hl; lia) ltac:(rewrite Hl; lia) ltac:(rewrite Hl; cbn; lia))
    as [(t & i & m' & nodes' & room' & Hg & E & Hh & _)|[Hno _]].
  - exists i, m', nodes', room'. split; [exact E|].
    destruct (p_cmd_decides 60 (lex demo_line) ltac:(vm_compute; lia)) as [(t' & Ep & Hg')|[Ep _]]; [|by vm_compute in Ep].
    rewrite (g_line_unique _ _ _ Hg Hg') in Hh. vm_compute in Ep. injection Ep as <-. exact Hh.
  - exfalso. destruct (p_cmd_decides 60 (lex demo_line) ltac:(vm_compute; lia)) as [(t' & _ & Hg')|[Ep _]]; [by eapply Hno|by vm_compute in Ep].
Defined.
