(* ===== verification/ShellRun.v ===== *)
(** * What the processes of a command line run

    [runcmd] forks, connects descriptors and calls [exec].  [collect] runs the tree of
    calls of a process and of all processes it forks, on their descriptor tables, and
    lists the programs that are started, each with its descriptors; [denote] is what a
    command line means.  They agree. *)

From stdpp Require Import functions.
From S2P Require Import Prelude Hart VmSystem Mem Str Kprint Bio Sysfile UserSys Ulib UlibSpec Shell ShellSyntax ShellSpec.

(** ** Descriptors

    A pipe is named by the process that made it and the number of pipes it had made;
    a process by the forks on the way to it. *)
Inductive ofile :=
| Tty
| Opened (path : list Z) (mode : Z)
| PipeRead (maker : list nat) (k : nat)
| PipeWrite (maker : list nat) (k : nat).
Abbreviation fdtab := (list (option ofile)).
Record proc := Proc { p_fds : fdtab; p_me : list nat; p_forks : nat; p_pipes : nat }.
Definition with_fds (f : fdtab) (w : proc) : proc := Proc f (p_me w) (p_forks w) (p_pipes w).
Definition child_of (w : proc) : proc := Proc (p_fds w) (p_me w ++ [p_forks w]) 0 0.
Definition forked (w : proc) : proc := Proc (p_fds w) (p_me w) (S (p_forks w)) (p_pipes w).
Definition piped (w : proc) : proc := Proc (p_fds w) (p_me w) (p_forks w) (S (p_pipes w)).

(** The lowest free descriptor. *)
Definition free_slot (x : option ofile) : bool := match x with None => true | Some _ => false end.
Definition lowest (f : fdtab) : option nat := first_index free_slot f.

(** A program that is started. *)
Record started := Started { st_path : list Z; st_argv : list (list Z); st_fds : fdtab }.

(** The answers of the kernel to the calls of one process, when they succeed as far as
    descriptors allow. *)
Definition answer (c : ucall) (w : proc) : Z * list Z * proc :=
  match c with
  | CClose fd =>
      match p_fds w !! Z.to_nat fd with
      | Some (Some _) => (0, [], with_fds (<[Z.to_nat fd := None]> (p_fds w)) w)
      | _ => (-1, [], w)
      end
  | COpen path mode =>
      match lowest (p_fds w) with
      | Some i => (Z.of_nat i, [], with_fds (<[i := Some (Opened path mode)]> (p_fds w)) w)
      | None => (-1, [], w)
      end
  | CDup fd =>
      match p_fds w !! Z.to_nat fd, lowest (p_fds w) with
      | Some (Some x), Some i => (Z.of_nat i, [], with_fds (<[i := Some x]> (p_fds w)) w)
      | _, _ => (-1, [], w)
      end
  | CPipe =>
      match lowest (p_fds w) with
      | Some i =>
          let f := <[i := Some (PipeRead (p_me w) (p_pipes w))]> (p_fds w) in
          match lowest f with
          | Some j => (0, [Z.of_nat i; 0; 0; 0; Z.of_nat j; 0; 0; 0],
                       piped (with_fds (<[j := Some (PipeWrite (p_me w) (p_pipes w))]> f) w))
          | None => (-1, [], w)
          end
      | None => (-1, [], w)
      end
  | CWait => (0, [], w)
  | CWrite _ d => (Z.of_nat (length d), [], w)
  | _ => (-1, [], w)
  end.

(** All programs started below a process; [exec] does not come back. *)
Fixpoint collect {S A} (w : proc) (t : utree S A) : list started :=
  match t with
  | USys CFork k => collect (child_of w) (k 0 []) ++ collect (forked w) (k 1 [])
  | USys (CExec path argv) _ => [Started path argv (p_fds w)]
  | USys c k => let '(r, d, w') := answer c w in collect w' (k r d)
  | _ => []
  end.

(** ** The meaning of a command line *)

Definition set_fd (i : nat) (x : ofile) (w : proc) : proc := with_fds (<[i := Some x]> (p_fds w)) w.

Fixpoint denote (t : cmd) (w : proc) : list started :=
  match t with
  | Exec [] => []
  | Exec (path :: args) => [Started path (path :: args) (p_fds w)]
  | Redir sub r => denote sub (set_fd (Z.to_nat (r_fd r)) (Opened (r_file r) (r_mode r)) w)
  | Pipe a b =>
      let w1 := piped w in
      denote a (set_fd 1 (PipeWrite (p_me w) (p_pipes w)) (child_of w1)) ++
      denote b (set_fd 0 (PipeRead (p_me w) (p_pipes w)) (child_of (forked w1)))
  | Seq a b => denote a (child_of w) ++ denote b (forked w)
  | Bg a => denote a (child_of w)
  end.

(** Words fit the buffers of the kernel; redirections replace descriptor 0 or 1. *)
Fixpoint fits_kernel (t : cmd) : Prop :=
  match t with
  | Exec ws => Forall (fun w => (length w <= PATH_BYTES)%nat) ws
  | Redir sub r => (length (r_file r) <= PATH_BYTES)%nat /\ (r_fd r = 0 \/ r_fd r = 1) /\ fits_kernel sub
  | Pipe a b | Seq a b => fits_kernel a /\ fits_kernel b
  | Bg a => fits_kernel a
  end.

(** Descriptors 0 and 1 are open and two more are free. *)
Definition fds_ok (f : fdtab) : Prop :=
  (exists x y, f !! 0%nat = Some (Some x) /\ f !! 1%nat = Some (Some y)) /\
  exists i j, lowest f = Some i /\ (i < j)%nat /\ f !! j = Some None.

(** *** Descriptor tables *)

Lemma lowest_Some f i : lowest f = Some i <-> f !! i = Some None /\ forall j, (j < i)%nat -> exists x, f !! j = Some (Some x).
Proof.
  unfold lowest, first_index. split.
  - intros ([i' x] & (Hx & HP & Hb)%list_find_Some & ->)%fmap_Some. cbn. destruct x; [done|]. split; [done|].
    intros j Hj. destruct (lookup_lt_is_Some_2 f j) as [y Hy]; [apply lookup_lt_Some in Hx; lia|].
    destruct y as [y|]; [by exists y|]. exfalso. by apply (Hb j None Hy Hj).
  - intros [Hi Hb]. apply fmap_Some. exists (i, None). split; [|done]. apply list_find_Some. split; [done|]. split; [done|].
    intros j y Hy Hj. destruct (Hb j Hj) as [x Hx]. replace y with (Some x) by congruence. cbn. tauto.
Qed.

Lemma lowest_exists f j : f !! j = Some None -> exists i, lowest f = Some i.
Proof.
  intros Hj. destruct (lowest f) as [i|] eqn:E; [by exists i|]. exfalso.
  by specialize (first_index_None _ _ E _ _ Hj).
Qed.

Lemma lowest_ge f i : fds_ok f -> lowest f = Some i -> (2 <= i)%nat.
Proof.
  intros [(x & y & H0 & H1) _] [Hi _]%lowest_Some. destruct i as [|[|i]]; [congruence|congruence|lia].
Qed.

(** Closing a low descriptor and opening another gives the same descriptor. *)
Lemma lowest_closed f k y : (k <= 1)%nat -> fds_ok f -> f !! k = Some y -> lowest (<[k := None]> f) = Some k.
Proof.
  intros Hk [(x & z & H0 & H1) _] Hy. apply lowest_Some. split; [apply list_lookup_insert_eq; by eapply lookup_lt_Some|].
  intros j Hj. assert (j = 0 /\ k = 1)%nat as [-> ->] by lia. rewrite list_lookup_insert_ne by lia. by exists x.
Qed.

Lemma fds_ok_set f k x : (k <= 1)%nat -> fds_ok f -> fds_ok (<[k := Some x]> f).
Proof.
  intros Hk Hok. pose proof (lowest_ge f) as Hge. destruct Hok as [(a & b & H0 & H1) (i & j & Hi & Hij & Hj)].
  assert (2 <= i)%nat as Hi2 by (apply Hge; [|done]; split; [by exists a, b|by exists i, j]).
  apply lowest_Some in Hi as [Hi Hb]. pose proof (lookup_lt_Some _ _ _ H0). pose proof (lookup_lt_Some _ _ _ H1).
  assert (forall q, q <> k -> <[k := Some x]> f !! q = f !! q) as Hne by (intros; by rewrite list_lookup_insert_ne).
  assert (<[k := Some x]> f !! k = Some (Some x)) as Heq by (apply list_lookup_insert_eq; lia).
  split.
  - destruct (decide (k = 0%nat)) as [->|].
    + exists x, b. split; [done|]. by rewrite Hne by lia.
    + replace k with 1%nat in * by lia. exists a, x. split; [by rewrite Hne by lia|done].
  - exists i, j. split; [|split; [done|by rewrite Hne by lia]]. apply lowest_Some. split; [by rewrite Hne by lia|].
    intros q Hq. destruct (decide (q = k)) as [->|]; [by exists x|]. rewrite Hne by done. by apply Hb.
Qed.

(** The two descriptors of a pipe: the lowest two that are free. *)
Lemma pipe_slots f : fds_ok f -> exists i j, lowest f = Some i /\ (2 <= i)%nat /\ (i < j)%nat /\ f !! i = Some None /\ f !! j = Some None /\
  forall x, lowest (<[i := Some x]> f) = Some j.
Proof.
  intros Hok. pose proof (lowest_ge f) as Hge. destruct Hok as [Ha (i & j & Hi & Hij & Hj)].
  assert (2 <= i)%nat as Hi2 by (apply Hge; [split; [done|by exists i, j]|done]).
  pose proof Hi as [Hi0 Hb]%lowest_Some.
  assert (<[i := Some Tty]> f !! j = Some None) as Hjn by (rewrite list_lookup_insert_ne by lia; done).
  destruct (lowest_exists _ _ Hjn) as [j' Hlow]. pose proof Hlow as [Hn Hb']%lowest_Some.
  assert (i <> j') as Hne.
  { intros <-. rewrite list_lookup_insert_eq in Hn by (by eapply lookup_lt_Some). done. }
  rewrite list_lookup_insert_ne in Hn by done.
  assert (i < j')%nat as Hj' by (destruct (decide (j' < i)%nat) as [Hlt|]; [destruct (Hb j' Hlt); congruence|lia]).
  exists i, j'. do 5 (split; [done|]). intros x. apply lowest_Some. rewrite list_lookup_insert_ne by lia. split; [done|].
  intros q Hq. destruct (decide (q = i)) as [->|]; [exists x; apply list_lookup_insert_eq; by eapply lookup_lt_Some|].
  destruct (Hb' q Hq) as [y Hy]. exists y. rewrite list_lookup_insert_ne in Hy |- * by lia. done.
Qed.

(** ** Trees that do not return *)

Inductive never_done {S A} : utree S A -> Prop :=
| nd_exit n : never_done (UExit n)
| nd_undef : never_done UUndef
| nd_fuel : never_done UNoFuel
| nd_sys c k : (forall r d, never_done (k r d)) -> never_done (USys c k).

Lemma never_done_exit {S A B} (t : utree S A) n : never_done (ubind t (fun _ => uexit (A := B) n)).
Proof. induction t; cbn; constructor; auto. Qed.

Lemma runcmd_never_done fuel n i s : never_done (runcmd fuel n i s).
Proof.
  destruct n as [|n]; [constructor|]. cbn [runcmd]. rewrite ubind_eq. destruct (get_cmd i s) as [c s1| | | |c k] eqn:E; try constructor.
  2:{ unfold get_cmd in E. rewrite ubind_eq in E. cbn [uget ubind] in E. by destruct (sh_cmds s !! i). }
  cbn [ubind]. rewrite ubind_eq. cbn [ugets ubind]. apply never_done_exit.
Qed.

Lemma collect_never_done {S A B} (t : utree S A) : never_done t -> forall w (f : A -> U S B), collect w (ubind t f) = collect w t.
Proof.
  induction 1 as [| | |c k _ IH]; intros w f; cbn; try done.
  destruct c; try (destruct (answer _ _) as [[r d] w']; apply IH); [by rewrite !IH|done].
Qed.

(** ** One call at a time *)

Section Collect.
Context {S A : Type}.
Implicit Types (w : proc) (s : S).

Lemma collect_close fd (f : Z -> U S A) w s : collect w ((usys (CClose fd) ≫= f) s) =
  let '(r, _, w') := answer (CClose fd) w in collect w' (f r s).
Proof. rewrite ubind_eq. unfold usys. cbn [ubind collect]. by destruct (answer (CClose fd) w) as [[r d] w']. Qed.
Lemma collect_open path mode (f : Z -> U S A) w s : collect w ((usys (COpen path mode) ≫= f) s) =
  let '(r, _, w') := answer (COpen path mode) w in collect w' (f r s).
Proof. rewrite ubind_eq. unfold usys. cbn [ubind collect]. by destruct (answer (COpen path mode) w) as [[r d] w']. Qed.
Lemma collect_dup fd (f : Z -> U S A) w s : collect w ((usys (CDup fd) ≫= f) s) =
  let '(r, _, w') := answer (CDup fd) w in collect w' (f r s).
Proof. rewrite ubind_eq. unfold usys. cbn [ubind collect]. by destruct (answer (CDup fd) w) as [[r d] w']. Qed.
Lemma collect_pipe (f : Z * list Z -> U S A) w s : collect w ((usys2 CPipe ≫= f) s) =
  let '(r, d, w') := answer CPipe w in collect w' (f (r, d) s).
Proof. rewrite ubind_eq. unfold usys2. cbn [ubind collect]. by destruct (answer CPipe w) as [[r d] w']. Qed.
Lemma collect_wait (f : Z -> U S A) w s : collect w ((usys CWait ≫= f) s) = collect w (f 0 s).
Proof. done. Qed.
End Collect.

Lemma collect_fork {A} fuel (f : Z -> U shst A) w s :
  collect w ((fork1 fuel ≫= f) s) = collect (child_of w) (f 0 s) ++ collect (forked w) (f 1 s).
Proof. done. Qed.

Lemma answer_close fd i x w : Z.of_nat i = fd -> p_fds w !! i = Some (Some x) -> answer (CClose fd) w = (0, [], with_fds (<[i := None]> (p_fds w)) w).
Proof. intros <- Hi. cbn. by rewrite Nat2Z.id, Hi. Qed.
Lemma answer_dup fd i j x w : Z.of_nat i = fd -> p_fds w !! i = Some (Some x) -> lowest (p_fds w) = Some j ->
  answer (CDup fd) w = (Z.of_nat j, [], with_fds (<[j := Some x]> (p_fds w)) w).
Proof. intros <- Hi Hj. cbn. by rewrite Nat2Z.id, Hi, Hj. Qed.

Lemma pipe_ends_small i j : pipe_ends [Z.of_nat i; 0; 0; 0; Z.of_nat j; 0; 0; 0] = Some (Z.of_nat i, Z.of_nat j).
Proof. cbn. f_equal. f_equal; lia. Qed.

(** A child of a pipeline puts the end [x] of the pipe at descriptor [k] and closes both
    ends: nothing else of its table differs from before the pipe. *)
Lemma pipe_child fuel n c (f : fdtab) i j k kz x xi xj (w : proc) s e :
  Z.of_nat k = kz -> fds_ok f -> (k <= 1)%nat -> (2 <= i)%nat -> (i < j)%nat -> f !! i = Some None -> f !! j = Some None ->
  p_fds w = <[j := Some xj]> (<[i := Some xi]> f) ->
  (e = i /\ x = xi \/ e = j /\ x = xj) ->
  collect w ((usys (CClose kz) ;; usys (CDup (Z.of_nat e)) ;; usys (CClose (Z.of_nat i)) ;; usys (CClose (Z.of_nat j)) ;; runcmd fuel n c) s)
  = collect (set_fd k x (with_fds f w)) (runcmd fuel n c s).
Proof.
  intros Hkz Hok Hk Hi Hij Hfi Hfj Hw He. pose proof Hok as [(a & b & H0 & H1) _].
  assert (i < length f /\ j < length f)%nat as [Hli Hlj] by (split; by eapply lookup_lt_Some).
  assert (exists y, f !! k = Some (Some y)) as [y Hy] by (destruct k as [|[|k]]; [by exists a|by exists b|lia]).
  rewrite collect_close, (answer_close _ k y w Hkz).
2:{ rewrite Hw, !list_lookup_insert_ne by lia. done. }
  rewrite Hw. set (f1 := <[k := None]> _).
  assert (lowest f1 = Some k) as Hlow.
  { apply lowest_Some. split; [apply list_lookup_insert_eq; rewrite !length_insert; by eapply lookup_lt_Some|].
    intros q Hq. assert (q = 0 /\ k = 1)%nat as [-> ->] by lia. unfold f1. rewrite !list_lookup_insert_ne by lia. by exists a. }
  assert (f1 !! e = Some (Some x)) as Hfe.
  { unfold f1. rewrite list_lookup_insert_ne by (destruct He as [[-> _]|[-> _]]; lia). destruct He as [[-> ->]|[-> ->]].
    - rewrite list_lookup_insert_ne by lia. apply list_lookup_insert_eq. done.
    - apply list_lookup_insert_eq. by rewrite length_insert. }
  rewrite collect_dup, (answer_dup _ e k x) by (done || (cbn; done)). cbn [p_fds with_fds].
  assert (forall q, q <> k -> <[k := Some x]> f1 !! q = <[j := Some xj]> (<[i := Some xi]> f) !! q) as Hq.
  { intros q Hqk. unfold f1. by rewrite !(list_lookup_insert_ne _ k) by done. }
  rewrite collect_close, (answer_close _ i xi); [|done|cbn; rewrite Hq, list_lookup_insert_ne by lia; by apply list_lookup_insert_eq].
  cbn [p_fds with_fds].
  rewrite collect_close, (answer_close _ j xj); [|done|cbn; rewrite list_lookup_insert_ne, Hq by lia; apply list_lookup_insert_eq; by rewrite length_insert].
  cbn [p_fds with_fds]. unfold set_fd, with_fds. cbn [p_fds p_me p_forks p_pipes]. f_equal. f_equal. unfold f1.
  apply list_eq. intros q. rewrite !list_lookup_insert, !length_insert. repeat case_decide; try done; try lia; naive_solver lia.
Qed.

Lemma collect_exit {S A B} (t : utree S A) n : forall w, collect w (ubind t (fun _ => uexit (A := B) n)) = collect w t.
Proof.
  induction t as [| | | |c k IH]; intros w; cbn; try done.
  destruct c; try (destruct (answer _ _) as [[r d] w']; apply IH); [by rewrite !IH|done].
Qed.

Lemma argv_strings_ok m ws : forall argv, (forall k w, ws !! k = Some w -> exists q, argv !! k = Some q /\ q <> 0 /\ cstr m q w) ->
  argv !! length ws = Some 0 -> Forall (fun w => (length w <= PATH_BYTES)%nat) ws -> argv_strings m argv = ws.
Proof.
  induction ws as [|w ws IH]; intros [|q argv] Hw Hz Hs; try done.
  - by injection Hz as ->.
  - destruct (Hw 0%nat w eq_refl) as (q' & [= <-] & Hq & Hc). apply Forall_cons_1 in Hs as [Hl Hs]. cbn [argv_strings].
    rewrite (proj2 (Z.eqb_neq _ _) Hq), (ustr_cstr _ _ _ _ Hc) by (unfold EXEC_BYTES, PATH_BYTES in *; lia).
    f_equal. apply IH; [|done|done]. intros k x Hk. by apply (Hw (S k)).
Qed.

(** The child of a fork, and the parent that goes on. *)
Lemma collect_uwhen_child {A} fuel n c (f : unit -> U shst A) w s :
  collect w ((uwhen (0 =? 0) (runcmd fuel n c) ≫= f) s) = collect w (runcmd fuel n c s).
Proof. cbn [uwhen Z.eqb]. rewrite ubind_eq. apply collect_never_done, runcmd_never_done. Qed.

Section Plumbing.
Context (fuel : nat) (m : mem) (nodes : list cmdnode) (room : nat).
Abbreviation st := (ShSt m nodes room).
Definition runs_as (i : nat) (t : cmd) : Prop := forall (n : nat) (w : proc), (i < n)%nat -> fits_kernel t -> fds_ok (p_fds w) ->
  collect w (runcmd fuel n i st) = denote t w.

Lemma runcmd_unfold (n i : nat) c : nodes !! i = Some c -> forall w B (X : cmdnode -> mem -> U shst B),
  collect w ((c ← get_cmd i; m ← ugets sh_mem; X c m ;; uexit (A := unit) 0) st) = collect w (X c m st).
Proof. intros Hi w B X. rewrite (get_cmd_bind _ _ _ _ _ _ Hi), ubind_eq. cbn [ugets ubind sh_mem]. rewrite ubind_eq. apply collect_exit. Qed.

Lemma run_redir i j q eq mode fd w t : nodes !! i = Some (REDIR j q eq mode fd) -> (j < i)%nat -> cstr m q w -> runs_as j t ->
  runs_as i (Redir t (Redirection w mode fd)).
Proof.
  intros Hi Hj Hc IH [|n] p Hn (Hl & Hfd & Hfit) Hok; [lia|]. cbn [runcmd r_file r_fd denote] in *.
  rewrite (runcmd_unfold n i _ Hi). set (k := Z.to_nat fd). assert (Z.of_nat k = fd) as Ek by lia.
  assert (exists y, p_fds p !! k = Some (Some y)) as [y Hy].
  { destruct Hok as [(a & b & H0 & H1) _]. destruct Hfd as [->| ->]; [by exists a|by exists b]. }
  rewrite collect_close, (answer_close fd k y p Ek Hy). rewrite (ustr_cstr _ _ _ _ Hc Hl), collect_open.
  cbn [answer p_fds with_fds]. rewrite (lowest_closed _ k (Some y)) by (done || lia). cbn iota beta.
  rewrite (proj2 (Z.ltb_ge _ 0)) by lia. rewrite list_insert_insert_eq.
  rewrite (IH n _ ltac:(lia) Hfit); [done|]. cbn. apply fds_ok_set; [lia|done].
Qed.

Lemma run_pipe i j k t u : nodes !! i = Some (PIPE j k) -> (j < i)%nat -> (k < i)%nat -> runs_as j t -> runs_as k u ->
  runs_as i (Pipe t u).
Proof.
  intros Hi Hj Hk IHt IHu [|n] p Hn (Hft & Hfu) Hok; [lia|]. cbn [runcmd denote].
  rewrite (runcmd_unfold n i _ Hi), collect_pipe. destruct (pipe_slots _ Hok) as (a & b & Ha & Ha2 & Hab & Hfa & Hfb & Hb).
  cbn [answer]. rewrite Ha, Hb. cbn iota beta. change (0 <? 0) with false. cbn iota.
  rewrite pipe_ends_small. cbn [uopt]. rewrite ubind_mret. rewrite collect_fork. f_equal.
  - change (0 =? 0) with true. cbn [uwhen].
    set (w1 := child_of _). rewrite ubind_eq, collect_never_done by (repeat (constructor; intros); apply runcmd_never_done).
    rewrite (pipe_child fuel n j (p_fds p) a b 1 1 (PipeWrite (p_me p) (p_pipes p)) (PipeRead (p_me p) (p_pipes p)) (PipeWrite (p_me p) (p_pipes p)) w1 st b);
      [|done|done|lia|done|done|done|done|done|by right].
    rewrite IHt; [done|lia|done|]. cbn. apply fds_ok_set; [lia|done].
  - change (1 =? 0) with false. cbn [uwhen]. rewrite ubind_mret, collect_fork.
    change (0 =? 0) with true. cbn [uwhen].
    set (w1 := child_of _). rewrite ubind_eq, collect_never_done by (repeat (constructor; intros); apply runcmd_never_done).
    rewrite (pipe_child fuel n k (p_fds p) a b 0 0 (PipeRead (p_me p) (p_pipes p)) (PipeRead (p_me p) (p_pipes p)) (PipeWrite (p_me p) (p_pipes p)) w1 st a);
      [|done|done|lia|done|done|done|done|done|by left].
    change (1 =? 0) with false. cbn [uwhen]. rewrite ubind_mret, !collect_close.
    rewrite IHu; [|lia|done|cbn; apply fds_ok_set; [lia|done]].
    repeat (match goal with |- context [answer (CClose ?fd) ?w] => destruct (answer (CClose fd) w) as [[??]?] end; rewrite ?collect_close).
    by rewrite app_nil_r.
Qed.

(** The programs that the process and all it forks pass to [exec] are those of the
    tree. *)
Lemma runcmd_ok n i t w :
  holds m nodes i t -> fits_kernel t -> fds_ok (p_fds w) -> (i < n)%nat ->
  collect w (runcmd fuel n i st) = denote t w.
Proof.
  intros Hh Hfit Hok Hn. enough (runs_as i t) as H by (by apply H). clear w Hfit Hok Hn n.
  induction Hh as [i argv eargv ws Hi (H1 & H2 & H3) Hz|i j q eq w mode fd t Hi Hlt Hw Ht IH|i j k t u Hi Hj Hk Ht IHt Hu IHu|i j k t u Hi Hj Hk Ht IHt Hu IHu|i j t Hi Hlt Ht IH].
  - intros [|n] w Hn Hfit _; [lia|]. cbn [runcmd]. rewrite (runcmd_unfold n i _ Hi).
    assert (forall k x, ws !! k = Some x -> exists q, argv !! k = Some q /\ q <> 0 /\ cstr m q x) as Hargs.
    { intros k x Hk. destruct (H3 k x Hk) as (q & eq & ? & ? & ? & ?). by exists q. }
    destruct ws as [|x ws].
    + cbn [length] in Hz. rewrite Hz. done.
    + destruct (Hargs 0%nat x eq_refl) as (q & Hq & Hq0 & Hc). rewrite Hq. cbn [uopt]. rewrite ubind_mret, (proj2 (Z.eqb_neq _ _) Hq0).
      cbn in Hfit. rewrite (argv_strings_ok m (x :: ws) argv Hargs Hz Hfit). apply Forall_cons_1 in Hfit as [Hl _].
      rewrite (ustr_cstr _ _ _ _ Hc Hl). reflexivity.
  - by eapply run_redir.
  - by eapply run_pipe.
  - intros [|n] w Hn (Hft & Hfu) Hok; [lia|]. cbn [runcmd denote]. rewrite (runcmd_unfold n i _ Hi), collect_fork. f_equal.
    + rewrite collect_uwhen_child. apply IHt; [lia|done|done].
    + change (1 =? 0) with false. cbn [uwhen]. rewrite ubind_mret, collect_wait. apply IHu; [lia|done|done].
  - intros [|n] w Hn Hfit Hok; [lia|]. cbn [runcmd denote]. rewrite (runcmd_unfold n i _ Hi), collect_fork.
    change (0 =? 0) with true. change (1 =? 0) with false. cbn [uwhen collect mret U_ret]. rewrite app_nil_r. apply IH; [lia|done|done].
Qed.
End Plumbing.

(** ** The processes end *)

Lemma always_shmem_fprintf {A} fuel fmt ap s (Q : A -> shst -> Prop) (f : unit -> U shst A) :
  supplied (sh_mem s) fuel fmt ap -> always Q (f tt s) -> always Q ((shmem (fprintf fuel 2 fmt ap) ≫= f) s).
Proof. intros Hs H. destruct (shmem_fprintf fuel fmt ap s f Hs) as [out ->]. by apply always_uwrites. Qed.

Lemma always_panic {A} fuel msg s (Q : A -> shst -> Prop) : always Q (sh_panic fuel msg s).
Proof. destruct (sh_panic_fails (A := A) fuel msg s) as [out ->]. apply always_uwrites. constructor. Qed.

Lemma always_sys {A} c s (Q : A -> shst -> Prop) (f : Z -> U shst A) :
  (forall r, always Q (f r s)) -> always Q ((usys c ≫= f) s).
Proof. intros H. rewrite ubind_eq. eapply always_bind; [apply always_usys|]. intros r s' ->. apply H. Qed.

Lemma always_fork1 {A} fuel s (Q : A -> shst -> Prop) (f : Z -> U shst A) :
  (forall pid, always Q (f pid s)) -> always Q ((fork1 fuel ≫= f) s).
Proof.
  intros H. rewrite ubind_eq. unfold fork1. eapply (always_bind (fun _ s' => s' = s)); [|by intros pid s' ->].
  apply always_sys. intros pid. destruct (pid =? -1); [apply always_panic|by constructor].
Qed.

(** A child that does not return. *)
Lemma always_child {A} (b : bool) (child : U shst unit) s (Q : A -> shst -> Prop) (f : unit -> U shst A) :
  always (fun _ _ => False) (child s) -> always Q (f tt s) -> always Q ((uwhen b child ≫= f) s).
Proof. intros Hc Hf. destruct b; cbn [uwhen]; [|done]. rewrite ubind_eq. by eapply always_bind. Qed.

Lemma supplied_failed m fuel pre q w : cstr m q w -> (length w < fuel)%nat -> Forall (fun c => c <> 37) pre ->
  supplied m fuel (pre ++ bytes_of " %s failed" ++ [10]) [AStr (InMem q)].
Proof.
  intros Hc Hf. induction 1 as [|c pre Hne _ IH]; [|by constructor].
  cbn. apply s_char; [done|]. apply (s_conv _ _ _ _ _ []).
  - split; [|done]. right. by exists w.
  - repeat (apply s_char; [done|]). constructor.
Qed.

Section Exits.
Context (fuel : nat) (m : mem) (nodes : list cmdnode) (room : nat).
Abbreviation st := (ShSt m nodes room).
Definition exits (t : utree shst unit) : Prop := always (fun _ _ => False) t.

Lemma runcmd_exits_step n i c : nodes !! i = Some c -> forall (X : cmdnode -> mem -> U shst unit),
  always (fun _ _ => True) (X c m st) -> exits ((c ← get_cmd i; m ← ugets sh_mem; X c m ;; uexit n) st).
Proof.
  intros Hi X H. rewrite (get_cmd_bind _ _ _ _ _ _ Hi), ubind_eq. cbn [ugets ubind sh_mem]. rewrite ubind_eq.
  eapply always_bind; [exact H|]. constructor.
Qed.

(** All words of the tree are shorter than the fuel of the messages. *)
Fixpoint short (t : cmd) : Prop :=
  match t with
  | Exec ws => Forall (fun w => (length w < fuel)%nat) ws
  | Redir sub r => (length (r_file r) < fuel)%nat /\ short sub
  | Pipe a b | Seq a b => short a /\ short b
  | Bg a => short a
  end.

(** C24: [runcmd] never returns.  For a tree that the heap holds, whatever the kernel
    answers to its calls (failing forks, pipes, opens and execs included), the process
    ends in [exit] after finitely many calls, in the parent and in every child, and
    without undefined behaviour. *)
Theorem runcmd_exits n i t : holds m nodes i t -> short t -> (i < n)%nat -> exits (runcmd fuel n i st).
Proof.
  intros Hh. revert n.
  induction Hh as [i argv eargv ws Hi (H1 & H2 & H3) Hz|i j q eq w mode fd t Hi Hlt Hw Ht IH|i j k t u Hi Hj Hk Ht IHt Hu IHu|i j k t u Hi Hj Hk Ht IHt Hu IHu|i j t Hi Hlt Ht IH];
    intros [|n] Hs Hn; try lia; cbn [runcmd short r_file] in *; apply (runcmd_exits_step 0 i _ Hi).
  - destruct ws as [|x ws].
    + cbn [length] in Hz. rewrite Hz. constructor.
    + destruct (H3 0%nat x eq_refl) as (q & eq & Hq & _ & Hq0 & Hc). rewrite Hq. cbn [uopt]. rewrite ubind_mret, (proj2 (Z.eqb_neq _ _) Hq0).
      apply Forall_cons_1 in Hs as [Hs _]. apply always_sys. intros r.
      rewrite <- (app_nil_r [AStr (InMem q)]).
      destruct (vprintf_loop_ok fuel 2 m (bytes_of "exec" ++ bytes_of " %s failed" ++ [10]) [AStr (InMem q)]) as (out & E & _).
      { apply (supplied_failed m fuel (bytes_of "exec") q x Hc Hs). repeat (constructor; [done|]). constructor. }
      unfold shmem, uzoom, fprintf, vprintf. cbn [lget sh_mem_lens sh_mem app]. change (bytes_of "exec %s failed" ++ [10]) with (bytes_of "exec" ++ bytes_of " %s failed" ++ [10]).
      rewrite E, utzoom_uwrites. apply always_uwrites. by constructor.
  - destruct Hs as [Hs Hst]. apply always_sys. intros r. apply always_sys. intros r'. destruct (r' <? 0).
    + change (bytes_of "open %s failed" ++ [10]) with (bytes_of "open" ++ bytes_of " %s failed" ++ [10]). apply always_shmem_fprintf.
      * apply (supplied_failed m fuel (bytes_of "open") q w Hw Hs). repeat (constructor; [done|]). constructor.
      * constructor.
    + eapply always_mono; [apply IH; [done|lia]|done].
  - destruct Hs as [Hst Hsu]. rewrite ubind_eq. constructor. intros r d Hp. cbn [ubind]. destruct (Z.ltb_spec r 0) as [|Hr]; [apply always_panic|].
    assert (exists p0 p1, pipe_ends d = Some (p0, p1)) as (p0 & p1 & ->).
    { specialize (Hp Hr). do 8 (destruct d as [|? d]; [done|]). destruct d; [|done]. by eexists _, _. }
    cbn [uopt]. rewrite ubind_mret. apply always_fork1. intros pid. apply always_child.
    { do 4 (apply always_sys; intros ?). apply IHt; [done|lia]. }
    apply always_fork1. intros pid'. apply always_child.
    { do 4 (apply always_sys; intros ?). apply IHu; [done|lia]. }
    do 4 (apply always_sys; intros ?). by constructor.
  - destruct Hs as [Hst Hsu]. apply always_fork1. intros pid. apply always_child; [apply IHt; [done|lia]|].
    apply always_sys. intros _. eapply always_mono; [apply IHu; [done|lia]|done].
  - apply always_fork1. intros pid. destruct (pid =? 0); cbn [uwhen]; [eapply always_mono; [apply IH; [done|lia]|done]|by constructor].
Qed.
End Exits.

Lemma demo_holds : holds (store_bytes ∅ 64 (bytes_of "ls" ++ [0])) [EXEC (64 :: replicate 9 0) (66 :: replicate 9 0); BACK 0] 1 (Bg (Exec [bytes_of "ls"])).
Proof.
  eapply rep_back; [done|lia|]. eapply rep_exec; [done| |done]. split; [done|]. split; [done|].
  intros [|k] w Hk; [|done]. injection Hk as <-. exists 64, 66. split; [done|]. split; [done|]. split; [done|].
  vm_compute. repeat split; discriminate.
Qed.

Lemma runcmd_exits_witness :
  exits (runcmd 20 5 1 (ShSt (store_bytes ∅ 64 (bytes_of "ls" ++ [0])) [EXEC (64 :: replicate 9 0) (66 :: replicate 9 0); BACK 0] 0)).
Proof. apply (runcmd_exits 20 _ _ 0 5 1 _ demo_holds); [repeat (constructor; [vm_compute; lia|]); constructor|lia]. Defined.

(** ** From the line to the programs *)

(** Words are parts of the line; redirections come with descriptor 0 or 1. *)
Fixpoint low_fds (t : cmd) : Prop :=
  match t with
  | Exec _ => True
  | Redir sub r => (r_fd r = 0 \/ r_fd r = 1) /\ low_fds sub
  | Pipe a b | Seq a b => low_fds a /\ low_fds b
  | Bg a => low_fds a
  end.

Lemma rep_fits lo hi m nodes i t : rep (word_at lo hi m) nodes i t -> low_fds t -> hi - lo <= Z.of_nat PATH_BYTES -> fits_kernel t.
Proof.
  intros H Hfd Hlen. induction H as [i argv eargv ws Hi (_ & _ & Hw) Hz|i j q eq w mode fd t Hi Hlt Hw Ht IH| | |]; cbn in *; try tauto.
  - apply Forall_lookup. intros k w Hk. destruct (Hw k w Hk) as (q & eq & _ & _ & _ & (? & ?) & ? & _). lia.
  - destruct Hw as ((? & ?) & ? & _). split; [lia|]. tauto.
Qed.

Lemma redir_of_fd t w r : redir_of t w = Some r -> r_fd r = 0 \/ r_fd r = 1.
Proof. destruct t as [w'|k|]; cbn; [done| |intros [= <-]; by right]. repeat (case_match; try done); intros [= <-]; cbn; tauto. Qed.
Lemma low_fds_wrap t rs : low_fds t -> Forall (fun r => r_fd r = 0 \/ r_fd r = 1) rs -> low_fds (wrap t rs).
Proof. intros Ht H. revert t Ht. induction H as [|r rs Hr _ IH]; intros t Ht; [done|]. by apply IH. Qed.
Lemma g_redirs_fd ts rs : g_redirs ts rs -> Forall (fun r => r_fd r = 0 \/ r_fd r = 1) rs.
Proof. induction 1; constructor; [by eapply redir_of_fd|done]. Qed.
Lemma g_simple_fd ts ws rs : g_simple ts ws rs -> Forall (fun r => r_fd r = 0 \/ r_fd r = 1) rs.
Proof. induction 1; [constructor| |done]. constructor; [by eapply redir_of_fd|done]. Qed.
Lemma low_fds_bg n t : low_fds t -> low_fds (Nat.iter n Bg t).
Proof. intros H. by induction n. Qed.

Lemma grammar_fds : (forall ts t, g_line ts t -> low_fds t) /\ (forall ts t, g_pipe ts t -> low_fds t) /\ (forall ts t, g_exec ts t -> low_fds t).
Proof.
  apply grammar_ind; cbn; intros; try done.
  - by apply low_fds_bg.
  - split; [by apply low_fds_bg|done].
  - apply low_fds_wrap; [done|by eapply g_simple_fd].
  - apply low_fds_wrap; [done|by eapply g_redirs_fd].
Qed.

(** The child of the shell for one line. *)
Definition child_line (fuel n : nat) (buf : Z) : U shst unit := cmd ← parsecmd fuel n buf; runcmd fuel n cmd.

Lemma collect_fails {A} (t : utree shst A) w : fails t -> collect w t = [].
Proof. intros [out ->]. revert w. induction out as [|c out IH]; intros w; [done|]. cbn. apply IH. Qed.

(** C7: The shell runs what the line means.  For every line without NUL of at most 128
    bytes, read by a child of the shell that has descriptors 0 and 1 open and two to
    spare: if the line is derivable in the grammar, with its one tree [t], the programs
    that the child and all processes it forks pass to [exec] are exactly those of [t],
    each with its own words, its own redirections, its ends of the pipes at descriptors
    0 and 1, and no other end of a pipe of the line left open; if it is not derivable,
    no program is started. *)
Theorem shell_runs_line fuel n m buf l room w :
  0 < buf -> cstr m buf l -> (length l < fuel)%nat -> (length l <= PATH_BYTES)%nat ->
  (2 * length l + 1 <= room)%nat -> (4 * length l + 4 <= n)%nat -> fds_ok (p_fds w) ->
  (exists t, g_line (lex l) t /\ collect w (child_line fuel n buf (ShSt m [] room)) = denote t w) \/
  ((forall t, ~ g_line (lex l) t) /\ collect w (child_line fuel n buf (ShSt m [] room)) = []).
Proof.
  intros Hp Hc Hf Hl Hroom Hn Hok. unfold child_line. rewrite ubind_eq.
  destruct (parsecmd_ok fuel n m buf l [] room Hp Hc Hf) as [(t & i & m' & nodes' & room' & Hg & E & Hh & _ & Hi & Hw)|[Hno Hfail]];
    [unfold PATH_BYTES in Hl; lia|lia|cbn; lia| |].
  - left. exists t. split; [done|]. rewrite E. cbn [ubind]. apply runcmd_ok; [done| |done|done].
    eapply rep_fits; [exact Hw|by apply (proj1 grammar_fds _ _ Hg)|lia].
  - right. split; [done|]. apply collect_fails, fails_bind, Hfail.
Qed.

Definition demo_proc : proc := Proc ([Some Tty; Some Tty; Some Tty] ++ replicate 13 None) [] 0 0.
Lemma demo_proc_ok : fds_ok (p_fds demo_proc).
Proof. split; [by exists Tty, Tty|]. exists 3%nat, 4%nat. split; [done|]. split; [lia|done]. Qed.

(** "ls -l|wc >out": [wc] has the pipe at 0 and the file at 1. *)
Lemma shell_runs_line_witness :
  collect demo_proc (child_line 20 60 4096 (ShSt demo_line_mem [] 40)) =
  [Started (bytes_of "ls") [bytes_of "ls"; bytes_of "-l"] ([Some Tty; Some (PipeWrite [] 0); Some Tty] ++ replicate 13 None);
   Started (bytes_of "wc") [bytes_of "wc"] ([Some (PipeRead [] 0); Some (Opened (bytes_of "out") 1537); Some Tty] ++ replicate 13 None)].
Proof.
  assert (length demo_line = 13%nat) as Hl by done.
  destruct (p_cmd_decides 60 (lex demo_line) ltac:(vm_compute; lia)) as [(t' & Ep & Hg')|[Ep _]]; [|by vm_compute in Ep].
  destruct (shell_runs_line 20 60 demo_line_mem 4096 demo_line 40 demo_proc ltac:(lia) demo_line_cstr ltac:(rewrite Hl; lia)
    ltac:(rewrite Hl; unfold PATH_BYTES; lia) ltac:(rewrite Hl; lia) ltac:(rewrite Hl; lia) demo_proc_ok) as [(t & Hg & E)|[Hno _]]; [|by destruct (Hno t')].
  rewrite (g_line_unique _ _ _ Hg Hg') in E. vm_compute in Ep. injection Ep as <-. rewrite E. by vm_compute.
Defined.
