(* ===== verification/Malloc.v ===== *)
(** * The allocator of user programs: user_space/ulib_link/malloc.c

    The allocator of Kernighan and Ritchie.  A header takes 16 bytes: the pointer to the
    next free block at its address, the size in units of headers 8 bytes on.  The free
    blocks form a ring sorted by address that starts at the static [base].  [freep] is
    a static pointer into the ring, NULL before the first call. *)

From stdpp Require Import functions.
From S2P Require Import Prelude Hart VmSystem Mem Bio BioSpec UserSys.

Record hst := HSt { hm : mem; freep : Z }.
Definition set_hm (m : mem) (s : hst) : hst := HSt m (freep s).
Definition set_freep (p : Z) (s : hst) : hst := HSt (hm s) p.

Definition HEADER : Z := 16.
(** [p->s.ptr] and [p->s.size]. *)
Definition h_ptr (m : mem) (p : Z) : Z := ld64 m p.
Definition h_size (m : mem) (p : Z) : Z := ld32 m (p + 8).
Definition set_ptr (p v : Z) (m : mem) : mem := st64 m p v.
Definition set_size (p v : Z) (m : mem) : mem := st32 m (p + 8) v.

(** [for (p = freep; !(bp > p && bp < p->s.ptr); p = p->s.ptr)
       if (p >= p->s.ptr && (bp > p || bp < p->s.ptr)) break;] *)
Fixpoint free_place (fuel : nat) (m : mem) (bp p : Z) : option Z :=
  match fuel with
  | O => None
  | S fuel' =>
      let nx := h_ptr m p in
      if (p <? bp) && (bp <? nx) then Some p
      else if (nx <=? p) && ((p <? bp) || (bp <? nx)) then Some p
      else free_place fuel' m bp nx
  end.

(** The block joins the next one, or points to it. *)
Definition join_next (m : mem) (bp nx : Z) : mem :=
  if bp + HEADER * h_size m bp =? nx
  then set_ptr bp (h_ptr m nx) (set_size bp (u32 (h_size m bp + h_size m nx)) m)
  else set_ptr bp nx m.
(** The one before joins the block, or points to it. *)
Definition join_prev (m : mem) (bp p : Z) : mem :=
  if p + HEADER * h_size m p =? bp
  then set_ptr p (h_ptr m bp) (set_size p (u32 (h_size m p + h_size m bp)) m)
  else set_ptr p bp m.
Definition free_link (m : mem) (bp p : Z) : mem := join_prev (join_next m bp (h_ptr m p)) bp p.

Definition free (fuel : nat) (ap : Z) : U hst unit :=
  let bp := ap - HEADER in
  s ← uget;
  p ← ufuel (free_place fuel (hm s) bp (freep s));
  umodify (fun s => HSt (free_link (hm s) bp p) p).

Definition morecore (fuel : nat) (nu : Z) : U hst Z :=
  let nu := if nu <? 4096 then 4096 else nu in
  p ← usys (CSbrk (nu * HEADER));
  if p =? -1 then mret 0 else
  umodify (fun s => set_hm (set_size p nu (hm s)) s) ;;
  free fuel (p + HEADER) ;;
  ugets freep.

Definition nunits (nbytes : Z) : Z := (nbytes + HEADER - 1) / HEADER + 1.

(** The loop of [malloc], with [prevp] and [p]. *)
Fixpoint malloc_loop (fuel : nat) (base n prevp p : Z) : U hst Z :=
  match fuel with
  | O => uno_fuel
  | S fuel' =>
      s ← uget;
      let m := hm s in
      if n <=? h_size m p then
        if h_size m p =? n then
          umodify (fun s => HSt (set_ptr prevp (h_ptr m p) m) prevp) ;;
          mret (p + HEADER)
        else
          let m1 := set_size p (h_size m p - n) m in
          let q := p + HEADER * h_size m1 p in
          umodify (fun s => HSt (set_size q n m1) prevp) ;;
          mret (q + HEADER)
      else if p =? freep s then
        p ← morecore fuel' n;
        if p =? 0 then mret 0 else
        s ← uget;
        malloc_loop fuel' base n p (h_ptr (hm s) p)
      else malloc_loop fuel' base n p (h_ptr m p)
  end.

Definition malloc (fuel : nat) (base nbytes : Z) : U hst Z :=
  let n := nunits nbytes in
  s ← uget;
  uwhen (freep s =? 0) (umodify (fun s => HSt (set_size base 0 (set_ptr base base (hm s))) base)) ;;
  s ← uget;
  malloc_loop fuel base n (freep s) (h_ptr (hm s) (freep s)).
