(* ===== verification/MallocSpec.v ===== *)
(** * What the allocator promises

    The ring of free blocks as a sorted list; [free] and [malloc] as operations on the
    set of free bytes. *)

From stdpp Require Import functions sorting.
From S2P Require Import Prelude Hart VmSystem Mem Bio BioSpec UserSys Malloc.

(** ** Headers in memory *)

Definition apart (p q : Z) : Prop := p + HEADER <= q \/ q + HEADER <= p.

Lemma h_ptr_set_ptr p v m : 0 <= v < 2 ^ 64 -> h_ptr (set_ptr p v m) p = v.
Proof. apply ld64_st64. Qed.
Lemma h_ptr_set_ptr_ne p q v m : apart p q -> h_ptr (set_ptr p v m) q = h_ptr m q.
Proof. unfold apart, HEADER. intros H. apply ld64_st64_outside. lia. Qed.
Lemma ld32_st64 m a v b : b + 4 <= a \/ a + 8 <= b -> ld32 (st64 m a v) b = ld32 m b.
Proof. intros H. apply (load_le_ext 4). intros c Hc. apply ld8_st64_outside. lia. Qed.
Lemma ld8_st32 m a v b : b < a \/ a + 4 <= b -> ld8 (st32 m a v) b = ld8 m b.
Proof. apply (ld8_store_le_outside 4). Qed.
Lemma h_size_set_ptr p q v m : apart p q \/ p = q -> h_size (set_ptr p v m) q = h_size m q.
Proof. unfold apart, HEADER. intros H. apply ld32_st64. lia. Qed.
Lemma h_size_set_size p v m : 0 <= v < 2 ^ 32 -> h_size (set_size p v m) p = v.
Proof. intros H. unfold h_size, set_size, ld32, st32. rewrite load_store_le. by apply Z.mod_small. Qed.
Lemma h_size_set_size_ne p q v m : apart p q -> h_size (set_size p v m) q = h_size m q.
Proof. unfold apart, HEADER. intros H. apply (load_le_ext 4). intros c Hc. apply ld8_st32. lia. Qed.
Lemma h_ptr_set_size p q v m : apart p q \/ p = q -> h_ptr (set_size p v m) q = h_ptr m q.
Proof. unfold apart, HEADER. intros H. apply (load_le_ext 8). intros c Hc. apply ld8_st32. lia. Qed.
Lemma ld8_set_ptr p v m a : a < p \/ p + HEADER <= a -> ld8 (set_ptr p v m) a = ld8 m a.
Proof. unfold HEADER. intros H. apply ld8_st64_outside. lia. Qed.
Lemma ld8_set_size p v m a : a < p \/ p + HEADER <= a -> ld8 (set_size p v m) a = ld8 m a.
Proof. unfold HEADER. intros H. apply ld8_st32. lia. Qed.
Lemma h_size_range m p : 0 <= h_size m p < 2 ^ 32.
Proof. apply (load_le_range 4). Qed.

(** ** The ring *)

Abbreviation block := (Z * Z)%type.
Definition head_or (L : list block) (stop : Z) : Z := match L with x :: _ => fst x | [] => stop end.

(** The headers of [L] in memory, each pointing to the next, the last to [stop]. *)
Fixpoint ring_from (m : mem) (L : list block) (stop : Z) : Prop :=
  match L with
  | [] => True
  | x :: L' => h_ptr m (fst x) = head_or L' stop /\ h_size m (fst x) = snd x /\ ring_from m L' stop
  end.

Lemma ring_from_app m l1 x l2 stop :
  ring_from m (l1 ++ x :: l2) stop <-> ring_from m l1 (fst x) /\ ring_from m (x :: l2) stop.
Proof.
  induction l1 as [|y l1 IH]; [cbn; tauto|]. cbn [app ring_from].
  assert (head_or (l1 ++ x :: l2) stop = head_or l1 (fst x)) as -> by (by destruct l1). cbn [ring_from] in IH. rewrite IH. tauto.
Qed.

Lemma ring_from_frame m m' L stop :
  (forall x, x ∈ L -> h_ptr m' (fst x) = h_ptr m (fst x) /\ h_size m' (fst x) = h_size m (fst x)) ->
  ring_from m L stop -> ring_from m' L stop.
Proof.
  induction L as [|x L IH]; intros Hf; [done|]. cbn [ring_from]. intros (H1 & H2 & H3).
  destruct (Hf x) as [-> ->]; [by left|]. split; [done|]. split; [done|]. apply IH; [|done]. intros y Hy. apply Hf. by right.
Qed.

Lemma ring_lookup m L stop j x : ring_from m L stop -> L !! j = Some x ->
  h_ptr m (fst x) = head_or (drop (S j) L) stop /\ h_size m (fst x) = snd x.
Proof.
  revert j. induction L as [|y L IH]; intros [|j] Hr Hj; try done; cbn [ring_from] in Hr.
  - injection Hj as <-. cbn [drop]. tauto.
  - cbn [drop]. apply IH; [tauto|done].
Qed.

(** ** The heap

    [x] ends before [y] begins, with something in between unless [x] is the base. *)
Definition before (x y : block) : Prop := fst x + HEADER * snd x < fst y /\ fst x + HEADER <= fst y.
Definition covers (L : list block) (a : Z) : Prop := exists x, x ∈ L /\ fst x <= a < fst x + HEADER * snd x.

(** The base header and the blocks [F], below [top]; the headers are in memory. *)
Record heap (base top : Z) (m : mem) (F : list block) : Prop := {
  hp_base : 0 < base /\ base + HEADER <= top /\ top < 2 ^ 64 /\ top - base < 2 ^ 36;
  hp_sizes : Forall (fun x => 1 <= snd x /\ fst x + HEADER * snd x <= top) F;
  hp_sorted : StronglySorted before ((base, 0) :: F);
  hp_ring : ring_from m ((base, 0) :: F) base }.

Ltac hlia := unfold apart, HEADER in *; lia.

Section Heap.
Context (base top : Z).
Implicit Types (m : mem) (F L l : list block).

Lemma sorted_mid l1 x l2 y : StronglySorted before (l1 ++ x :: l2) ->
  (y ∈ l1 -> before y x) /\ (y ∈ l2 -> before x y).
Proof.
  intros H. split; intros Hy.
  - eapply StronglySorted_app_1_elem_of; [exact H|done|by left].
  - apply StronglySorted_app_1_r, StronglySorted_cons in H as [H _]. rewrite Forall_forall in H. by apply H.
Qed.

Lemma sorted_next L j x y : StronglySorted before L -> L !! j = Some x -> L !! S j = Some y -> fst x < fst y.
Proof.
  intros Hs Hj Hy. apply list_elem_of_split_length in Hj as (k1 & k2 & -> & ->).
  rewrite lookup_app_r in Hy by lia. replace (S (length k1) - length k1)%nat with 1%nat in Hy by lia. cbn in Hy.
  apply (sorted_mid k1 x k2 y) in Hs as [_ Hs]. destruct k2; [done|]. injection Hy as ->. destruct (Hs ltac:(by left)). hlia.
Qed.

(** Blocks of a sorted ring are apart from each other. *)
Lemma sorted_apart l1 x l2 y : StronglySorted before (l1 ++ x :: l2) -> y ∈ l1 \/ y ∈ l2 -> apart (fst x) (fst y).
Proof.
  intros H [Hy|Hy]; apply (sorted_mid _ _ _ y) in H as [H1 H2]; [destruct (H1 Hy)|destruct (H2 Hy)]; hlia.
Qed.

(** [before] passes over a block. *)
Lemma before_trans x y z : 0 <= snd y -> before x y -> before y z -> before x z.
Proof. unfold before. hlia. Qed.

(** *** Where a block goes *)

(** The blocks of [l1] and [p] end at [b] or below, those of [l2] begin at [b'] or above. *)
Definition gap (l1 : list block) (p : block) (l2 : list block) (b b' : Z) : Prop :=
  (fst p + HEADER * snd p <= b /\ fst p + HEADER <= b) /\ (forall x, x ∈ l2 -> b' <= fst x).

Lemma gap_exists F b n : StronglySorted before ((base, 0) :: F) ->
  Forall (fun x => 1 <= snd x) F -> base + HEADER <= b -> 1 <= n ->
  (forall x, x ∈ F -> fst x + HEADER * snd x <= b \/ b + HEADER * n <= fst x) ->
  exists l1 p l2, (base, 0) :: F = l1 ++ p :: l2 /\ gap l1 p l2 b (b + HEADER * n).
Proof.
  intros Hs Hsz Hb Hn Hd.
  assert (forall L p, StronglySorted before (p :: L) -> fst p + HEADER * snd p <= b -> fst p + HEADER <= b ->
    (forall x, x ∈ L -> 1 <= snd x /\ (fst x + HEADER * snd x <= b \/ b + HEADER * n <= fst x)) ->
    exists l1 q l2, p :: L = l1 ++ q :: l2 /\ gap l1 q l2 b (b + HEADER * n)) as Hgo.
  { clear. induction L as [|q L IH]; intros p Hs H1 H2 Hd.
    - exists [], p, []. split; [done|]. split; [done|]. intros x Hx. by apply elem_of_nil in Hx.
    - destruct (Hd q ltac:(by left)) as [Hq [Hle|Hge]].
      + destruct (IH q) as (l1 & r & l2 & E & Hg); [by apply StronglySorted_cons in Hs as [_ Hs]|done|hlia|intros x Hx; apply Hd; by right|].
        exists (p :: l1), r, l2. split; [cbn; by rewrite E|done].
      + exists [], p, (q :: L). split; [done|]. split; [done|]. intros x [->|Hx]%elem_of_cons; [done|].
        apply StronglySorted_cons in Hs as [_ Hs]. apply StronglySorted_cons in Hs as [Hs _]. rewrite Forall_forall in Hs.
        destruct (Hs x Hx). hlia. }
  apply Hgo; [done|cbn; hlia|done|]. intros x Hx. rewrite Forall_forall in Hsz. split; [by apply Hsz|by apply Hd].
Qed.

(** The search finds it from every block of the ring. *)
Lemma free_place_ok m l1 p l2 L b n : L = l1 ++ p :: l2 -> ring_from m L base -> StronglySorted before L ->
  head_or L base = base -> Forall (fun x => 0 <= snd x) L -> 1 <= n -> base < b -> gap l1 p l2 b (b + HEADER * n) ->
  forall d fuel j x, L !! j = Some x -> (d < fuel)%nat ->
  ((j <= length l1 /\ d = length l1 - j) \/ (length l1 < j /\ d = length L - j + length l1))%nat ->
  free_place fuel m b (fst x) = Some (fst p).
Proof.
  intros EL Hr Hs Hh Hsz Hn Hb [[Hp1 Hp2] Hl2]. induction d as [|d IH]; intros [|fuel] j x Hj Hf Hd; try lia; cbn [free_place];
    (destruct (ring_lookup m L base j x Hr Hj) as [-> _]).
  - assert (j = length l1) as -> by (destruct Hd as [?|[? Hd]]; [lia|apply lookup_lt_Some in Hj; lia]).
    rewrite EL in Hj |- *. rewrite lookup_app_r, Nat.sub_diag in Hj by lia. injection Hj as <-.
    rewrite drop_app_ge by lia. replace (S (length l1) - length l1)%nat with 1%nat by lia. cbn [drop]. rewrite drop_0.
    destruct l2 as [|q l2]; cbn [head_or].
    + replace (fst p <? b) with true by hlia. replace (b <? base) with false by lia. cbn [andb orb].
      assert (base <= fst p).
      { destruct l1 as [|y l1]; cbn in EL; subst L; cbn in Hh; [lia|]. apply (sorted_mid (y :: l1) p [] y) in Hs as [Hs _]. destruct (Hs ltac:(by left)). hlia. }
      by replace (base <=? fst p) with true by lia.
    + replace (fst p <? b) with true by hlia. replace (b <? fst q) with true; [done|].
      specialize (Hl2 q ltac:(by left)). hlia.
  - assert (length L = length l1 + S (length l2))%nat as HlenL by (rewrite EL, length_app; done).
    pose proof (lookup_lt_Some _ _ _ Hj) as HjL.
    assert ((j < length l1)%nat \/ (length l1 < j)%nat) as [Hlt|Hgt] by (destruct Hd; lia).
    + (* before the place *)
      destruct (lookup_lt_is_Some_2 L (S j)) as [y Hy]; [lia|]. rewrite (drop_S _ _ _ Hy). cbn [head_or].
      assert (fst x < fst y /\ fst y <= fst p) as [Hxy Hyp].
      { split; [by eapply sorted_next|].
        destruct (decide (S j = length l1)) as [Ej|].
        - rewrite EL, Ej, lookup_app_r, Nat.sub_diag in Hy by lia. injection Hy as ->. lia.
        - rewrite EL, lookup_app_l in Hy by lia. rewrite EL in Hs. apply (sorted_mid l1 p l2 y) in Hs as [Hs _].
          destruct (Hs ltac:(by eapply list_elem_of_lookup_2)). hlia. }
      replace (b <? fst y) with false by hlia. rewrite andb_false_r. replace (fst y <=? fst x) with false by lia. cbn [andb].
      apply (IH fuel (S j) y Hy); lia.
    + (* after it *)
      assert (b < fst x).
      { specialize (Hl2 x). rewrite EL, lookup_app_r in Hj by lia. destruct (j - length l1)%nat as [|k] eqn:Ek; [lia|]. cbn in Hj.
        apply list_elem_of_lookup_2 in Hj. specialize (Hl2 Hj). hlia. }
      replace (fst x <? b) with false by lia. cbn [andb orb].
      destruct (decide (S j = length L)) as [Ej|].
      * rewrite drop_ge by lia. cbn [head_or]. replace (b <? base) with false by lia. rewrite andb_false_r.
        destruct L as [|y L]; [done|]. cbn in Hh. rewrite <- Hh. apply (IH fuel 0%nat y eq_refl); lia.
      * destruct (lookup_lt_is_Some_2 L (S j)) as [y Hy]; [lia|]. rewrite (drop_S _ _ _ Hy). cbn [head_or].
        pose proof (sorted_next L j x y Hs Hj Hy).
        replace (fst y <=? fst x) with false by lia. cbn [andb]. apply (IH fuel (S j) y Hy); lia.
Qed.

(** *** Linking a block in *)

Definition join_up (b n : Z) (l : list block) : Z * list block :=
  match l with
  | x :: l' => if b + HEADER * n =? fst x then (n + snd x, l') else (n, l)
  | [] => (n, [])
  end.
Definition insert_at (p : block) (b n : Z) (l : list block) : list block :=
  let '(n', l') := join_up b n l in
  if fst p + HEADER * snd p =? b then (fst p, snd p + n') :: l' else p :: (b, n') :: l'.

Definition in_header (p a : Z) : Prop := p <= a < p + HEADER.

(** What [join_next] makes of the block [b] in front of the blocks [l]. *)
Lemma join_next_ok m l b n :
  ring_from m l base -> (forall x, x ∈ l -> b + HEADER * n <= fst x /\ 0 <= snd x /\ fst x + HEADER * snd x <= top) ->
  h_size m b = n -> 1 <= n -> base < b -> 0 <= base -> b + HEADER * n <= top -> top < 2 ^ 64 -> top - base < 2 ^ 36 ->
  let m1 := join_next m b (head_or l base) in
  exists n' l', join_up b n l = (n', l') /\ 1 <= n' /\ b + HEADER * n' <= top /\ (forall x, x ∈ l' -> x ∈ l) /\
    ring_from m l' base /\ h_ptr m1 b = head_or l' base /\ h_size m1 b = n' /\
    (forall q, apart b q -> h_ptr m1 q = h_ptr m q /\ h_size m1 q = h_size m q) /\
    (forall a, ~ in_header b a -> ld8 m1 a = ld8 m a).
Proof.
  intros Hr Hl Hn Hn1 Hb Hbase Htop Ht64 Hspan m1. unfold m1, join_next, join_up. rewrite Hn.
  assert (forall v, 0 <= v < 2 ^ 64 -> exists m', m' = set_ptr b v m /\ h_ptr m' b = v /\ h_size m' b = n /\
    (forall q, apart b q -> h_ptr m' q = h_ptr m q /\ h_size m' q = h_size m q) /\ (forall a, ~ in_header b a -> ld8 m' a = ld8 m a)) as Hplain.
  { intros v Hv. eexists. split; [reflexivity|]. split; [by apply h_ptr_set_ptr|]. split; [rewrite h_size_set_ptr by (by right); done|].
    split; [intros q Hq; by rewrite h_ptr_set_ptr_ne, h_size_set_ptr by (done || (by left))|].
    intros a Ha. apply ld8_set_ptr. unfold in_header in Ha. hlia. }
  destruct l as [|x l]; cbn [head_or].
  - replace (b + HEADER * n =? base) with false by hlia.
    destruct (Hplain base ltac:(hlia)) as (m' & <- & H1 & H2 & H3 & H4). by exists n, [].
  - pose proof (Hl x ltac:(by left)) as (Hx1 & Hx2 & Hx3). destruct (Z.eqb_spec (b + HEADER * n) (fst x)) as [Ex|Ex].
    + destruct Hr as (Hxp & Hxs & Hr). rewrite Hxp, Hxs.
      assert (0 <= n + snd x < 2 ^ 32) as H32 by hlia. rewrite (u32_small (n + snd x)) by done.
      assert (0 <= head_or l base < 2 ^ 64) as Hhx.
      { destruct l as [|y l]; cbn; [hlia|]. destruct (Hl y ltac:(right; by left)) as (? & ? & ?). hlia. }
      exists (n + snd x), l. split; [done|]. split; [lia|]. split; [hlia|]. split; [intros; by right|]. split; [done|].
      split; [by apply h_ptr_set_ptr|]. split; [rewrite h_size_set_ptr by (by right); by apply h_size_set_size|].
      split; [intros q Hq; rewrite h_ptr_set_ptr_ne, h_size_set_ptr, h_ptr_set_size, h_size_set_size_ne by (done || (by left)); done|].
      intros a Ha. unfold in_header in Ha. rewrite ld8_set_ptr, ld8_set_size by hlia. done.
    + destruct (Hplain (fst x) ltac:(hlia)) as (m' & <- & H1 & H2 & H3 & H4). by exists n, (x :: l).
Qed.

(** What [join_prev] makes of [p] in front of the block [b], which points to [l]. *)
Lemma join_prev_ok m l p b n :
  ring_from m l base -> (forall x, x ∈ l -> apart (fst p) (fst x)) -> h_size m (fst p) = snd p ->
  h_ptr m b = head_or l base -> h_size m b = n -> 0 <= head_or l base < 2 ^ 64 ->
  0 <= snd p -> 1 <= n -> fst p + HEADER <= b -> 0 <= b < 2 ^ 64 -> snd p + n < 2 ^ 32 -> apart b (fst p) -> (forall x, x ∈ l -> apart b (fst x)) ->
  let m1 := join_prev m b (fst p) in
  ring_from m1 (if fst p + HEADER * snd p =? b then (fst p, snd p + n) :: l else p :: (b, n) :: l) base /\
  (forall q, apart (fst p) q -> h_ptr m1 q = h_ptr m q /\ h_size m1 q = h_size m q) /\
  (forall a, ~ in_header (fst p) a -> ld8 m1 a = ld8 m a).
Proof.
  intros Hr Hap Hps Hbp Hbs Hh64 Hp0 Hn Hpb Hb64 H32 Habp Hab m1. unfold m1, join_prev. rewrite Hps, Hbp, Hbs.
  destruct (fst p + HEADER * snd p =? b).
  - rewrite (u32_small (snd p + n)) by lia. set (m2 := set_ptr _ _ _).
    assert (forall q, apart (fst p) q -> h_ptr m2 q = h_ptr m q /\ h_size m2 q = h_size m q) as Hq.
    { intros q Hq. unfold m2. rewrite h_ptr_set_ptr_ne, h_size_set_ptr, h_ptr_set_size, h_size_set_size_ne by (done || (by left)). done. }
    split; [|split; [done|]].
    + cbn [ring_from fst snd]. split; [by apply h_ptr_set_ptr|]. split; [unfold m2; rewrite h_size_set_ptr by (by right); apply h_size_set_size; lia|].
      apply (ring_from_frame m); [|done]. intros x Hx. by apply Hq, Hap.
    + intros a Ha. unfold in_header in Ha. unfold m2. rewrite ld8_set_ptr, ld8_set_size by hlia. done.
  - set (m2 := set_ptr _ _ _).
    assert (forall q, apart (fst p) q -> h_ptr m2 q = h_ptr m q /\ h_size m2 q = h_size m q) as Hq.
    { intros q Hq. unfold m2. rewrite h_ptr_set_ptr_ne, h_size_set_ptr by (done || (by left)). done. }
    split; [|split; [done|]].
    + cbn [ring_from fst snd head_or]. split; [by apply h_ptr_set_ptr|]. split; [unfold m2; by rewrite h_size_set_ptr by (by right)|].
      destruct (Hq b) as [-> ->]; [hlia|]. split; [done|]. split; [done|].
      apply (ring_from_frame m); [|done]. intros x Hx. by apply Hq, Hap.
    + intros a Ha. unfold in_header in Ha. unfold m2. rewrite ld8_set_ptr by hlia. done.
Qed.

Lemma free_link_ok m l1 p l2 b n :
  ring_from m (l1 ++ p :: l2) base -> StronglySorted before (l1 ++ p :: l2) -> gap l1 p l2 b (b + HEADER * n) ->
  h_size m b = n -> 1 <= n -> base < b -> 0 <= base -> b + HEADER * n <= top -> top < 2 ^ 64 -> top - base < 2 ^ 36 ->
  base <= fst p -> Forall (fun x => 0 <= snd x /\ fst x + HEADER * snd x <= top) (p :: l2) ->
  let m' := free_link m b (fst p) in
  ring_from m' (l1 ++ insert_at p b n l2) base /\ (forall a, ~ in_header b a -> ~ in_header (fst p) a -> ld8 m' a = ld8 m a).
Proof.
  intros Hr Hs [[Hp1 Hp2] Hl2] Hn Hn1 Hb Hbase Htop Ht64 Hspan Hbp Hbd m'. rewrite Forall_forall in Hbd.
  apply ring_from_app in Hr as [Hr1 (Hrp & Hrsz & Hr2)].
  assert (forall x, x ∈ l1 -> apart (fst p) (fst x) /\ apart b (fst x)) as Ha1.
  { intros x Hx. destruct (sorted_mid l1 p l2 x Hs) as [H _]. destruct (H Hx). split; hlia. }
  assert (forall x, x ∈ l2 -> apart (fst p) (fst x) /\ apart b (fst x)) as Ha2.
  { intros x Hx. specialize (Hl2 x Hx). split; hlia. }
  destruct (Hbd p ltac:(by left)) as [Hp0 Hptop].
  unfold m', free_link, insert_at. rewrite Hrp.
  destruct (join_next_ok m l2 b n Hr2) as (n' & l' & -> & Hn' & Hbn' & Hsub & Hrl' & H1 & H2 & H3 & H4); try done.
  { intros x Hx. destruct (Hbd x ltac:(by right)). by specialize (Hl2 x Hx). }
  set (m1 := join_next m b (head_or l2 base)) in *.
  destruct (join_prev_ok m1 l' p b n') as (Hring & Hq & Hld); try done; try hlia.
  - apply (ring_from_frame m); [|done]. intros x Hx. apply H3. by apply Ha2, Hsub.
  - intros x Hx. by apply Ha2, Hsub.
  - destruct (H3 (fst p) ltac:(hlia)) as [_ ->]. done.
  - destruct l' as [|x l']; cbn; [hlia|]. destruct (Hbd x ltac:(right; apply Hsub; by left)). specialize (Hl2 x ltac:(apply Hsub; by left)). hlia.
  - intros x Hx. by apply Ha2, Hsub.
  - split.
    + assert (ring_from (join_prev m1 b (fst p)) l1 (fst p)) as Hl1.
      { apply (ring_from_frame m); [|done]. intros x Hx. destruct (Hq (fst x)) as [-> ->]; [by apply Ha1|]. apply H3. by apply Ha1. }
      destruct (fst p + HEADER * snd p =? b); apply ring_from_app; done.
    + intros a Ha1' Ha2'. rewrite Hld, H4; done.
Qed.

(** *** The set of free bytes *)

Lemma covers_nil a : covers [] a <-> False.
Proof. split; [|done]. intros (x & Hx & _). by apply elem_of_nil in Hx. Qed.
Lemma covers_cons x l a : covers (x :: l) a <-> fst x <= a < fst x + HEADER * snd x \/ covers l a.
Proof.
  unfold covers. split.
  - intros (y & [->|Hy]%elem_of_cons & Ha); [by left|right; by exists y].
  - intros [Ha|(y & Hy & Ha)]; [exists x; split; [by left|done]|exists y; split; [by right|done]].
Qed.
Lemma covers_app l l' a : covers (l ++ l') a <-> covers l a \/ covers l' a.
Proof. induction l as [|x l IH]; cbn [app]; rewrite ?covers_nil, ?covers_cons, ?IH; tauto. Qed.

Lemma covers_base l a : covers l a <-> covers ((base, 0) :: l) a.
Proof. rewrite covers_cons. cbn [fst snd]. split; [by right|intros [?|?]; [hlia|done]]. Qed.

Lemma join_up_covers b n l n' l' : 1 <= n -> Forall (fun x => 0 <= snd x) l -> join_up b n l = (n', l') -> forall a,
  (b <= a < b + HEADER * n' \/ covers l' a) <-> (b <= a < b + HEADER * n \/ covers l a).
Proof.
  unfold join_up. intros Hn Hl. destruct l as [|x l]; [by intros [= <- <-]|].
  destruct (Z.eqb_spec (b + HEADER * n) (fst x)) as [E|E]; intros [= <- <-] a; [|done].
  apply Forall_cons_1 in Hl as [Hx _]. rewrite covers_cons.
  assert (b <= a < b + HEADER * (n + snd x) <-> b <= a < b + HEADER * n \/ fst x <= a < fst x + HEADER * snd x) as -> by hlia. tauto.
Qed.

Lemma insert_at_covers p b n l : 0 <= snd p -> 1 <= n -> Forall (fun x => 0 <= snd x) l -> forall a,
  covers (insert_at p b n l) a <-> covers (p :: l) a \/ b <= a < b + HEADER * n.
Proof.
  intros Hp Hn Hl a. unfold insert_at. destruct (join_up b n l) as [n' l'] eqn:E.
  assert (1 <= n') as Hn'.
  { unfold join_up in E. destruct l as [|x l]; [injection E as <- <-; done|]. apply Forall_cons_1 in Hl as [? _].
    destruct (b + HEADER * n =? fst x); injection E as <- <-; lia. }
  pose proof (join_up_covers b n l n' l' Hn Hl E a) as Hj. rewrite covers_cons.
  destruct (Z.eqb_spec (fst p + HEADER * snd p) b) as [Ep|Ep]; rewrite !covers_cons; cbn [fst snd]; [|tauto].
  assert (fst p <= a < fst p + HEADER * (snd p + n') <-> fst p <= a < fst p + HEADER * snd p \/ b <= a < b + HEADER * n') as -> by hlia. tauto.
Qed.

Lemma join_up_sorted b n l n' l' : join_up b n l = (n', l') -> StronglySorted before l -> 1 <= n ->
  (forall x, x ∈ l -> b + HEADER * n <= fst x) -> Forall (fun x => 0 <= snd x) l ->
  StronglySorted before l' /\ (forall x, x ∈ l' -> b + HEADER * n' < fst x) /\ 1 <= n' /\ (forall x, x ∈ l' -> x ∈ l).
Proof.
  unfold join_up. intros E Hs Hn Hl Hsz. destruct l as [|x l]; [injection E as <- <-; split; [done|]; split; [intros y Hy; by apply elem_of_nil in Hy|done]|].
  apply Forall_cons_1 in Hsz as [Hx _]. pose proof Hs as [Hb Hs1]%StronglySorted_cons. rewrite Forall_forall in Hb.
  destruct (Z.eqb_spec (b + HEADER * n) (fst x)) as [Ex|Ex]; injection E as <- <-.
  - split; [done|]. split; [intros y Hy; destruct (Hb y Hy); hlia|]. split; [lia|]. intros; by right.
  - split; [done|]. split; [|done]. pose proof (Hl x ltac:(by left)). intros y [->|Hy]%elem_of_cons; [lia|]. destruct (Hb y Hy). hlia.
Qed.

Lemma insert_at_sorted l1 p b n l2 : StronglySorted before (l1 ++ p :: l2) -> gap l1 p l2 b (b + HEADER * n) -> 1 <= n ->
  0 <= snd p -> Forall (fun x => 0 <= snd x) l2 -> StronglySorted before (l1 ++ insert_at p b n l2).
Proof.
  intros Hs [[Hp1 Hp2] Hl2] Hn Hp Hsz. apply StronglySorted_app in Hs as (Hx & Hs1 & Hs2). apply StronglySorted_cons in Hs2 as [_ Hs2].
  unfold insert_at. destruct (join_up b n l2) as [n' l'] eqn:E.
  destruct (join_up_sorted _ _ _ _ _ E Hs2 Hn Hl2 Hsz) as (Hs' & Hl' & Hn' & Hsub).
  assert (forall x, x ∈ l1 -> before x p) as Hxp by (intros x Hx1; apply Hx; [done|by left]).
  apply StronglySorted_app_2; [|done|].
  - intros x y Hx1 Hy. destruct (Hxp x Hx1) as [H1 H2]. destruct (fst p + HEADER * snd p =? b); repeat (apply elem_of_cons in Hy as [->|Hy]);
      try (split; cbn [fst]; hlia); specialize (Hl' y Hy); split; hlia.
  - destruct (Z.eqb_spec (fst p + HEADER * snd p) b) as [Ep|Ep].
    + apply StronglySorted_cons. split; [|done]. apply Forall_forall. intros y Hy. specialize (Hl' y Hy). split; cbn [fst snd]; hlia.
    + apply StronglySorted_cons. split.
      * apply Forall_forall. intros y [->|Hy]%elem_of_cons; [split; cbn [fst]; hlia|]. specialize (Hl' y Hy). split; hlia.
      * apply StronglySorted_cons. split; [|done]. apply Forall_forall. intros y Hy. specialize (Hl' y Hy). split; cbn [fst snd]; hlia.
Qed.

(** The static pointer is in the ring. *)
Definition in_ring (F : list block) (q : Z) : Prop := exists x, x ∈ (base, 0) :: F /\ fst x = q.

(** Memory changes at most in free blocks and the header of the base. *)
Definition keeps (F : list block) (m m' : mem) : Prop := forall a, ~ covers F a -> ~ in_header base a -> ld8 m' a = ld8 m a.

(** A block of the heap, or the base. *)
Definition inside (x : Z * Z) : Prop :=
  base <= fst x /\ 0 <= snd x /\ fst x + HEADER * snd x <= top /\ (x = (base, 0) \/ 1 <= snd x).

Lemma inside_all m F : heap base top m F -> Forall inside ((base, 0) :: F).
Proof.
  intros [(? & ? & ? & ?) Hsz Hs _]. constructor; [unfold inside; cbn; split_and!; [lia|lia|hlia|by left]|].
  apply StronglySorted_cons in Hs as [Hb0 _]. rewrite Forall_forall in Hb0, Hsz |- *.
  intros x Hx. destruct (Hb0 x Hx) as [? Hx2]. destruct (Hsz x Hx). cbn in Hx2. unfold inside. split_and!; [hlia|lia|lia|by right].
Qed.

(** The block that [free] makes, or enlarges, and what follows it. *)
Lemma insert_at_inside l1 p b n l2 :
  StronglySorted before (l1 ++ p :: l2) -> gap l1 p l2 b (b + HEADER * n) -> Forall inside (p :: l2) ->
  1 <= n -> base + HEADER <= b -> b + HEADER * n <= top ->
  exists p' l', insert_at p b n l2 = p' :: l' /\ fst p' = fst p /\ (p = (base, 0) -> p' = (base, 0)) /\
    (exists x, x ∈ p' :: l' /\ n <= snd x /\ x <> (base, 0)) /\ (length l' <= S (length l2))%nat /\ Forall inside (p' :: l').
Proof.
  intros Hs Hg [(Hp1 & Hp2 & Hp3 & Hp4) Hall3]%Forall_cons_1 Hn1 Hb Htop.
  assert (Forall (fun x => 0 <= snd x) l2) as Hsz2 by (eapply Forall_impl; [exact Hall3|]; unfold inside; tauto).
  unfold insert_at. destruct (join_up b n l2) as [n' l'] eqn:E.
  pose proof Hs as (_ & _ & [_ Hs2]%StronglySorted_cons)%StronglySorted_app.
  destruct (join_up_sorted _ _ _ _ _ E Hs2 Hn1 (proj2 Hg) Hsz2) as (_ & _ & _ & Hsub).
  assert (1 <= n' /\ n <= n' /\ b + HEADER * n' <= top /\ (length l' <= length l2)%nat) as (Hn' & Hnn & Hbn & Hl').
  { unfold join_up in E. destruct l2 as [|x l2]; [injection E as <- <-; done|]. apply Forall_cons_1 in Hall3 as [(? & ? & ? & ?) _].
    destruct (Z.eqb_spec (b + HEADER * n) (fst x)); injection E as <- <-; cbn [length]; [hlia|done]. }
  assert (Forall inside l') as Hall'.
  { apply Forall_forall. intros x Hx. rewrite Forall_forall in Hall3. by apply Hall3, Hsub. }
  destruct (Z.eqb_spec (fst p + HEADER * snd p) b) as [Ep|Ep].
  - assert (p <> (base, 0)) as Hpne by (intros ->; cbn in Ep; hlia).
    eexists _, l'. split; [reflexivity|]. split; [done|]. split; [done|]. split.
    + eexists. split; [by left|]. cbn [snd]. split; [lia|]. intros [= ? ?]. lia.
    + split; [lia|]. constructor; [|done]. unfold inside. cbn [fst snd]. split_and!; [lia|lia|hlia|right; lia].
  - eexists _, _. split; [reflexivity|]. split; [done|]. split; [done|]. split.
    + eexists (b, n'). split; [right; by left|]. cbn [snd]. split; [lia|]. intros [= ? ?]. lia.
    + split; [cbn [length]; lia|]. constructor; [done|]. constructor; [unfold inside; cbn [fst snd]; split_and!; [hlia|lia|lia|right; lia]|done].
Qed.

Lemma heap_insert m F l1 p l2 b n :
  heap base top m F -> (base, 0) :: F = l1 ++ p :: l2 -> gap l1 p l2 b (b + HEADER * n) ->
  h_size m b = n -> 1 <= n -> base + HEADER <= b -> b + HEADER * n <= top ->
  exists F', heap base top (free_link m b (fst p)) F' /\ in_ring F' (fst p) /\ keeps F' m (free_link m b (fst p)) /\
    (forall a, covers F' a <-> covers F a \/ b <= a < b + HEADER * n) /\
    (exists x, x ∈ F' /\ n <= snd x) /\ (length F' <= S (length F))%nat.
Proof.
  intros Hheap EL Hg Hn Hn1 Hb Htop. pose proof Hheap as [Hbase Hsz Hs Hr]. pose proof Hbase as (? & ? & ? & ?).
  assert (Forall inside ((base, 0) :: F)) as Hall by (by apply (inside_all m)).
  rewrite EL in Hr, Hs, Hall. apply Forall_app in Hall as [Hall1 Hall2]. pose proof Hall2 as [Hallp Hall3]%Forall_cons_1.
  destruct Hallp as (Hp1 & Hp2 & Hp3 & Hp4).
  destruct (free_link_ok m l1 p l2 b n Hr Hs Hg Hn Hn1 ltac:(hlia) ltac:(lia) Htop ltac:(lia) ltac:(lia) Hp1) as [Hring Hld].
  { eapply Forall_impl; [exact Hall2|]. by intros x (? & ? & ? & _). }
  assert (Forall (fun x => 0 <= snd x) l2) as Hsz2 by (eapply Forall_impl; [exact Hall3|]; unfold inside; tauto).
  pose proof (insert_at_sorted l1 p b n l2 Hs Hg Hn1 Hp2 Hsz2) as Hs'.
  pose proof (insert_at_covers p b n l2 Hp2 Hn1 Hsz2) as Hcov.
  destruct (insert_at_inside l1 p b n l2 Hs Hg Hall2 Hn1 Hb Htop) as (p' & l' & Ei & Hp' & Hpb & Hex & Hlen & Hall').
  rewrite Ei in Hring, Hs', Hcov.
  assert (exists F', l1 ++ p' :: l' = (base, 0) :: F') as [F' EF].
  { destruct l1 as [|y l1]; cbn in EL |- *; [injection EL as E _; rewrite Hpb by done; by eexists|injection EL as <- _; by eexists]. }
  assert (forall a, covers F' a <-> covers F a \/ b <= a < b + HEADER * n) as HcovF.
  { intros a. assert (covers F' a <-> covers ((base, 0) :: F') a) as -> by (apply covers_base).
    assert (covers F a <-> covers ((base, 0) :: F) a) as -> by (apply covers_base).
    rewrite <- EF, EL, !covers_app, Hcov. tauto. }
  exists F'. rewrite EF in Hring, Hs'. split; [constructor; try done|].
  - assert (Forall inside ((base, 0) :: F')) as H'.
    { rewrite <- EF. by apply Forall_app. }
    apply Forall_cons_1 in H' as [_ H']. rewrite Forall_forall in H' |- *. intros x Hx. destruct (H' x Hx) as (? & ? & ? & [->|?]); [|done].
    apply StronglySorted_cons in Hs' as [Hb0 _]. rewrite Forall_forall in Hb0. destruct (Hb0 _ Hx). cbn in *. hlia.
  - split; [exists p'; split; [rewrite <- EF; apply elem_of_app; right; by left|done]|]. split.
    + intros a Ha Hab. apply Hld.
      * intros Hh. apply Ha, HcovF. right. unfold in_header in Hh. hlia.
      * intros Hh. destruct Hp4 as [->|Hp4]; [done|]. apply Ha, HcovF. left. exists p. split; [|unfold in_header in Hh; hlia].
        assert (p ∈ (base, 0) :: F) as [->|?]%elem_of_cons by (rewrite EL; apply elem_of_app; right; by left); [cbn in Hp4; lia|done].
    + split; [done|]. split.
      * destruct Hex as (x & Hx & Hxn & Hxne). exists x. split; [|done].
        assert (x ∈ (base, 0) :: F') as [->|?]%elem_of_cons by (rewrite <- EF; apply elem_of_app; by right); done.
      * apply (f_equal length) in EF, EL. rewrite length_app in EF, EL. cbn [length] in *. lia.
Qed.

(** ** free *)

Definition heap_at (s : hst) (F : list block) : Prop := heap base top (hm s) F /\ in_ring F (freep s).

(** The block of [n] units whose header is at [b] is outside the free blocks. *)
Definition busy (F : list block) (b n : Z) : Prop :=
  base + HEADER <= b /\ 1 <= n /\ b + HEADER * n <= top /\ forall x, x ∈ F -> fst x + HEADER * snd x <= b \/ b + HEADER * n <= fst x.

Lemma free_ok fuel s F b n : heap_at s F -> h_size (hm s) b = n -> busy F b n -> (S (length F) < fuel)%nat ->
  exists s' F', free fuel (b + HEADER) s = UDone tt s' /\ heap_at s' F' /\ keeps F' (hm s) (hm s') /\
    (forall a, covers F' a <-> covers F a \/ b <= a < b + HEADER * n) /\ (exists x, x ∈ F' /\ n <= snd x) /\ (length F' <= S (length F))%nat.
Proof.
  intros [Hh (x & Hx & Hxf)] Hn (Hb & Hn1 & Htop & Hd) Hf. pose proof Hh as [Hbase Hsz Hs Hr].
  assert (Forall (fun x => 1 <= snd x) F) as Hsz1 by (eapply Forall_impl; [exact Hsz|]; cbn; tauto).
  destruct (gap_exists F b n Hs Hsz1 Hb Hn1 Hd) as (l1 & p & l2 & EL & Hg).
  apply list_elem_of_lookup in Hx as [j Hj]. pose proof (lookup_lt_Some _ _ _ Hj) as Hjl. cbn [length] in Hjl.
  assert (length l1 < S (length F))%nat as Hl1 by (apply (f_equal length) in EL; rewrite length_app in EL; cbn [length] in EL; lia).
  destruct (heap_insert (hm s) F l1 p l2 b n Hh EL Hg Hn Hn1 Hb Htop) as (F' & HF' & Hin & Hk & Hc & Hex & Hlen).
  exists (HSt (free_link (hm s) b (fst p)) (fst p)), F'. split; [|by split_and!].
  unfold free. replace (b + HEADER - HEADER) with b by lia. unfold mbind, U_bind. cbn [uget ubind].
  rewrite <- Hxf, (free_place_ok (hm s) l1 p l2 ((base, 0) :: F) b n EL Hr Hs eq_refl) with (d := if decide (j <= length l1)%nat then (length l1 - j)%nat else (S (length F) - j + length l1)%nat) (j := j) (x := x); try done.
  - constructor; [done|]. eapply Forall_impl; [exact Hsz1|]. cbn. lia.
  - hlia.
  - case_decide; lia.
  - cbn [length]. case_decide; lia.
Qed.

(** ** Taking a block *)

(** [q] is a pointer to [n] units taken from the free blocks. *)
Definition taken (n : Z) (s : hst) (F : list block) (q : Z) (s' : hst) (F' : list block) : Prop :=
  heap_at s' F' /\ busy F' (q - HEADER) n /\ h_size (hm s') (q - HEADER) = n /\
  (forall a, covers F a <-> covers F' a \/ q - HEADER <= a < q - HEADER + HEADER * n) /\ keeps F (hm s) (hm s') /\ (length F' <= length F)%nat.

(** What [malloc] does with a block [x] that is large enough, after the block [y]. *)
Definition take (n : Z) (s : hst) (y x : Z) : utree hst Z :=
  if h_size (hm s) x =? n then UDone (x + HEADER) (HSt (set_ptr y (h_ptr (hm s) x) (hm s)) y)
  else let m1 := set_size x (h_size (hm s) x - n) (hm s) in
       let q := x + HEADER * h_size m1 x in UDone (q + HEADER) (HSt (set_size q n m1) y).

Lemma sorted_lt L i j x y : StronglySorted before L -> L !! i = Some x -> L !! j = Some y -> (i < j)%nat -> before x y.
Proof.
  intros Hs Hi Hj Hij. apply list_elem_of_split_length in Hi as (k1 & k2 & -> & ->).
  apply (sorted_mid k1 x k2 y) in Hs as [_ Hs]. apply Hs. rewrite lookup_app_r in Hj by lia.
  destruct (j - length k1)%nat as [|k] eqn:E; [lia|]. cbn in Hj. by eapply list_elem_of_lookup_2.
Qed.

(** What holds of two neighbours of the ring. *)
Lemma heap_cut m F l1 y x l2 : heap base top m F -> (base, 0) :: F = l1 ++ y :: x :: l2 ->
  x ∈ F /\ 1 <= snd x /\ base + HEADER <= fst x /\ fst x + HEADER * snd x <= top /\ before y x /\
  (forall z, z ∈ l1 ++ y :: l2 -> fst z + HEADER * snd z <= fst x /\ fst z + HEADER <= fst x \/ fst x + HEADER * snd x <= fst z) /\
  0 <= head_or l2 base < 2 ^ 64 /\ (forall z, z ∈ l1 \/ z ∈ l2 -> apart (fst y) (fst z)).
Proof.
  intros [Hbase Hsz Hs Hr] EL. pose proof Hbase as (? & ? & ? & ?). rewrite Forall_forall in Hsz.
  assert (x ∈ F /\ forall z, z ∈ l2 -> z ∈ F) as [HxF Hl2].
  { destruct l1 as [|z l1]; cbn in EL; injection EL as _ ->; [split; [by left|by right]|].
    split; [apply elem_of_app; right; right; by left|intros w Hw; apply elem_of_app; right; right; by right]. }
  assert (forall z, z ∈ F -> base + HEADER <= fst z) as Hbz.
  { apply StronglySorted_cons in Hs as [Hb0 _]. rewrite Forall_forall in Hb0. intros z Hz. by destruct (Hb0 z Hz). }
  rewrite EL in Hs. destruct (Hsz x HxF) as [Hx1 Hxtop].
  assert (before y x) as Hyx by (apply (sorted_mid l1 y (x :: l2) x) in Hs as [_ Hs]; apply Hs; by left).
  split; [done|]. split; [done|]. split; [by apply Hbz|]. split; [done|]. split; [done|]. split; [|split].
  - change (l1 ++ y :: x :: l2) with (l1 ++ [y] ++ x :: l2) in Hs. rewrite app_assoc in Hs. intros z Hz.
    apply elem_of_app in Hz as [Hz|[->|Hz]%elem_of_cons].
    + left. apply (sorted_mid (l1 ++ [y]) x l2 z) in Hs as [Hs _]. destruct Hs; [apply elem_of_app; by left|lia].
    + left. destruct Hyx. lia.
    + right. apply (sorted_mid (l1 ++ [y]) x l2 z) in Hs as [_ Hs]. destruct (Hs Hz). lia.
  - destruct l2 as [|z l2]; cbn; [hlia|]. assert (z ∈ F) as HzF by (apply Hl2; by left).
    destruct (Hsz z HzF). pose proof (Hbz z HzF). hlia.
  - intros z Hz. apply (sorted_apart l1 y (x :: l2)); [done|]. destruct Hz; [by left|right; by right].
Qed.

Lemma taken_exact n s F l1 y x l2 : heap base top (hm s) F -> (base, 0) :: F = l1 ++ y :: x :: l2 -> snd x = n -> 1 <= n ->
  exists F', taken n s F (fst x + HEADER) (HSt (set_ptr (fst y) (h_ptr (hm s) (fst x)) (hm s)) (fst y)) F'.
Proof.
  intros Hh EL Hn Hn1. destruct (heap_cut _ _ _ _ _ _ Hh EL) as (HxF & Hx1 & Hbx & Hxtop & Hyx & Hax & Hh64 & Hay).
  destruct Hh as [Hbase Hsz Hs Hr]. rewrite Forall_forall in Hsz.
  assert (exists F', l1 ++ y :: l2 = (base, 0) :: F') as [F' EF'].
  { destruct l1 as [|z l1]; cbn in EL |- *; injection EL as <- _; by eexists. }
  rewrite EL in Hs, Hr. apply ring_from_app in Hr as [Hr1 (Hry & Hrys & (Hrx & Hrxs & Hr2))].
  assert (forall z, z ∈ F' -> z ∈ F) as Hsub.
  { intros z Hz. destruct l1 as [|w l1]; cbn in EL, EF'; injection EL as <- ->; injection EF' as <-; [by right|].
    apply elem_of_app in Hz as [Hz|[->|Hz]%elem_of_cons]; apply elem_of_app; [by left|right; by left|right; right; by right]. }
  assert (forall z, z ∈ l1 \/ z ∈ l2 -> let m' := set_ptr (fst y) (head_or l2 base) (hm s) in
    h_ptr m' (fst z) = h_ptr (hm s) (fst z) /\ h_size m' (fst z) = h_size (hm s) (fst z)) as Hfr.
  { intros z Hz m'. unfold m'. split; [apply h_ptr_set_ptr_ne, Hay, Hz|apply h_size_set_ptr; left; apply Hay, Hz]. }
  rewrite Hrx. exists F'. split; [split; [constructor|]|].
  - done.
  - apply Forall_forall. intros z Hz. apply Hsz, Hsub, Hz.
  - rewrite <- EF'. apply StronglySorted_app in Hs as (G1 & G2 & G3). apply StronglySorted_cons in G3 as [G4 G5]. apply Forall_cons_1 in G4 as [_ G4].
    apply StronglySorted_cons in G5 as [_ G5]. apply StronglySorted_app_2; [|done|by apply StronglySorted_cons].
    intros a b Ha Hb. apply G1; [done|]. apply elem_of_cons in Hb as [->|Hb]; [by left|right; by right].
  - rewrite <- EF'. cbn [hm]. apply ring_from_app. split.
    + apply (ring_from_frame (hm s)); [|done]. intros z Hz. apply Hfr. by left.
    + cbn [ring_from]. split; [by apply h_ptr_set_ptr|]. split; [by rewrite h_size_set_ptr by (by right)|].
      apply (ring_from_frame (hm s)); [|done]. intros z Hz. apply Hfr. by right.
  - exists y. split; [rewrite <- EF'; apply elem_of_app; right; by left|done].
  - replace (fst x + HEADER - HEADER) with (fst x) by lia. cbn [hm]. split; [|split; [|split; [|split]]].
    + split; [done|]. split; [done|]. split; [by rewrite <- Hn|]. intros z Hz. rewrite <- Hn.
      destruct (Hax z) as [[? _]|?]; [rewrite EF'; by right|by left|by right].
    + rewrite h_size_set_ptr by (left; destruct Hyx; hlia). by rewrite Hrxs.
    + intros a. rewrite (covers_base F), (covers_base F'), <- EF', EL, !covers_app, !covers_cons, Hn. tauto.
    + intros a Ha Hb. apply ld8_set_ptr. unfold in_header in Hb.
      assert (y ∈ (base, 0) :: F) as [->|HyF]%elem_of_cons by (rewrite EL; apply elem_of_app; right; by left); [cbn; hlia|].
      destruct (Hsz y HyF). destruct (decide (a < fst y \/ fst y + HEADER <= a)) as [|Hne]; [done|]. exfalso. apply Ha. exists y. split; [done|hlia].
    + apply (f_equal length) in EL, EF'. rewrite length_app in EL, EF'. cbn [length] in *. lia.
Qed.

Lemma taken_split n s F l1 y x l2 : heap base top (hm s) F -> (base, 0) :: F = l1 ++ y :: x :: l2 -> n < snd x -> 1 <= n ->
  let q := fst x + HEADER * (snd x - n) in
  exists F', taken n s F (q + HEADER) (HSt (set_size q n (set_size (fst x) (snd x - n) (hm s))) (fst y)) F'.
Proof.
  intros Hh EL Hn Hn1 q. destruct (heap_cut _ _ _ _ _ _ Hh EL) as (HxF & Hx1 & Hbx & Hxtop & Hyx & Hax & _ & _).
  destruct Hh as [Hbase Hsz Hs Hr]. rewrite Forall_forall in Hsz.
  set (x' := (fst x, snd x - n)). set (m1 := set_size (fst x) (snd x - n) (hm s)). set (m2 := set_size q n m1).
  assert (exists F', l1 ++ y :: x' :: l2 = (base, 0) :: F') as [F' EF'].
  { destruct l1 as [|z l1]; cbn in EL |- *; injection EL as <- _; by eexists. }
  rewrite EL in Hs, Hr. apply ring_from_app in Hr as [Hr1 (Hry & Hrys & (Hrx & Hrxs & Hr2))].
  assert (forall z, z ∈ F' -> z = x' \/ z ∈ F /\ z ∈ l1 ++ y :: l2) as Hsub.
  { intros z Hz. destruct l1 as [|w l1]; cbn in EL, EF'; injection EL as <- ->; injection EF' as <-; cbn [app].
    - apply elem_of_cons in Hz as [->|Hz]; [by left|right; split; by right].
    - apply elem_of_app in Hz as [Hz|[->|[->|Hz]%elem_of_cons]%elem_of_cons]; [right|right|by left|right]; rewrite elem_of_cons, !elem_of_app, !elem_of_cons; tauto. }
  assert (apart q (fst x)) as Hqx by (unfold q; hlia).
  assert (forall z, z ∈ l1 ++ y :: l2 -> h_ptr m2 (fst z) = h_ptr (hm s) (fst z) /\ h_size m2 (fst z) = h_size (hm s) (fst z)) as Hfr.
  { intros z Hz. assert (apart (fst x) (fst z) /\ apart q (fst z)) as [? ?] by (destruct (Hax z Hz); unfold q; split; hlia).
    unfold m2, m1. rewrite !h_ptr_set_size, !h_size_set_size_ne by (done || (by left)). done. }
  exists F'. cbn [hm freep]. split; [split; [constructor|]|].
  - done.
  - apply Forall_forall. intros z Hz. destruct (Hsub z Hz) as [->|[? _]]; [unfold x'; cbn [fst snd]; hlia|by apply Hsz].
  - rewrite <- EF'. apply StronglySorted_app in Hs as (G1 & G2 & G3). apply StronglySorted_cons in G3 as [G4 G5]. pose proof G4 as [_ G6]%Forall_cons_1.
    apply StronglySorted_cons in G5 as [G5 G7]. apply StronglySorted_app_2; [|done|].
    + intros a b Ha [->|[->|Hb]%elem_of_cons]%elem_of_cons; [apply G1; [done|by left]| |apply G1; [done|right; by right]].
      assert (before a x) as [? ?] by (apply G1; [done|right; by left]). done.
    + apply StronglySorted_cons. split; [constructor; [destruct Hyx; done|done]|]. apply StronglySorted_cons. split; [|done].
      eapply Forall_impl; [exact G5|]. intros b [? ?]. unfold x'. split; cbn [fst snd]; hlia.
  - rewrite <- EF'. cbn [hm]. apply ring_from_app. split.
    + apply (ring_from_frame (hm s)); [|done]. intros z Hz. apply Hfr, elem_of_app. by left.
    + destruct (Hfr y) as [Hy1 Hy2]; [apply elem_of_app; right; by left|]. cbn [ring_from head_or]. rewrite Hy1, Hy2. split; [done|]. split; [done|].
      change (fst x') with (fst x). unfold m2, m1. rewrite !h_ptr_set_size by (by (left + right)).
      rewrite h_size_set_size_ne, h_size_set_size by (done || (pose proof (h_size_range (hm s) (fst x)); lia)).
      split; [done|]. split; [done|]. apply (ring_from_frame (hm s)); [|done]. intros z Hz. apply Hfr, elem_of_app. right. by right.
  - exists y. split; [rewrite <- EF'; apply elem_of_app; right; by left|done].
  - replace (q + HEADER - HEADER) with q by lia. split; [|split; [|split; [|split]]].
    + split; [unfold q; hlia|]. split; [done|]. split; [unfold q; hlia|]. intros z Hz.
      destruct (Hsub z Hz) as [->|[_ Hz']]; [left; unfold x', q; cbn [fst snd]; hlia|]. destruct (Hax z Hz') as [[? _]|?]; unfold q; hlia.
    + unfold m2. apply h_size_set_size. pose proof (h_size_range (hm s) (fst x)). lia.
    + intros a. rewrite (covers_base F), (covers_base F'), <- EF', EL, !covers_app, !covers_cons. unfold x', q. cbn [fst snd].
      assert (fst x <= a < fst x + HEADER * snd x <-> fst x <= a < fst x + HEADER * (snd x - n) \/
        fst x + HEADER * (snd x - n) <= a < fst x + HEADER * (snd x - n) + HEADER * n) as -> by hlia. tauto.
    + intros a Ha _. cbn [hm]. unfold m2, m1. rewrite !ld8_set_size; [done| |];
        destruct (decide (fst x <= a < fst x + HEADER * snd x)); try (unfold q; hlia); exfalso; apply Ha; by exists x.
    + apply (f_equal length) in EL, EF'. rewrite length_app in EL, EF'. cbn [length] in *. lia.
Qed.

Lemma take_ok n s F l1 y x l2 : heap base top (hm s) F -> (base, 0) :: F = l1 ++ y :: x :: l2 -> n <= snd x -> 1 <= n ->
  exists q s' F', take n s (fst y) (fst x) = UDone q s' /\ taken n s F q s' F'.
Proof.
  intros Hh EL Hn Hn1. assert (h_size (hm s) (fst x) = snd x) as Hx.
  { destruct Hh as [_ _ _ Hr]. rewrite EL in Hr. apply ring_from_app in Hr as [_ (_ & _ & (_ & Hr & _))]. done. }
  unfold take. rewrite Hx. destruct (Z.eqb_spec (snd x) n) as [E|E].
  - destruct (taken_exact n s F l1 y x l2 Hh EL E Hn1) as (F' & HF). by eexists _, _, F'.
  - destruct (taken_split n s F l1 y x l2 Hh EL ltac:(lia) Hn1) as (F' & HF). cbn zeta. rewrite h_size_set_size by (pose proof (h_size_range (hm s) (fst x)); lia).
    by eexists _, _, F'.
Qed.
(** ** Searching the ring

    From the block [z] at [freep] the ring is [z], the blocks [V] and [z] again. *)
Lemma pair_split {A} (P Q k1 k2 : list A) y x : P ++ Q = k1 ++ y :: x :: k2 ->
  (exists r, P = k1 ++ y :: x :: r) \/ (exists r, Q = r ++ y :: x :: k2) \/ (exists r, Q = x :: r).
Proof.
  revert P. induction k1 as [|a k1 IH]; intros P E.
  - destruct P as [|b [|c P]]; cbn in E.
    + right. left. by exists [].
    + injection E as _ E. right. right. by eexists.
    + injection E as -> -> _. left. by exists P.
  - destruct P as [|b P]; cbn in E; [right; left; by exists (a :: k1)|]. injection E as -> E.
    destruct (IH P E) as [[r ->]|[H|H]]; [left; by exists r|right; by left|right; by right].
Qed.

Lemma rotate s F : heap_at s F -> exists z V, fst z = freep s /\ h_size (hm s) (fst z) = snd z /\ ring_from (hm s) (z :: V) (fst z) /\
  (forall v, v ∈ V -> fst v <> fst z) /\ length V = length F /\ (forall x, x ∈ V ++ [z] <-> x ∈ (base, 0) :: F) /\
  (forall k1 y x k2, z :: V ++ [z] = k1 ++ y :: x :: k2 -> 1 <= snd x -> exists l1 l2, (base, 0) :: F = l1 ++ y :: x :: l2).
Proof.
  intros [[Hbase Hsz Hs Hr] (z & Hz & Ez)]. apply list_elem_of_split in Hz as (A & B & EL). rewrite EL in Hs, Hr.
  pose proof Hr as [Hr1 Hr2]%ring_from_app.
  exists z, (B ++ A). split; [done|]. split; [cbn in Hr2; tauto|]. split; [|split; [|split; [|split]]].
  - destruct A as [|a A]; cbn in EL; [injection EL as <- <-; rewrite app_nil_r; exact Hr2|].
    injection EL as <- EL. change (z :: B ++ (base, 0) :: A) with ((z :: B) ++ (base, 0) :: A). by apply ring_from_app.
  - intros v Hv. destruct (sorted_apart A z B v Hs); [apply elem_of_app in Hv; tauto| |]; hlia.
  - apply (f_equal length) in EL. rewrite length_app in EL |- *. cbn [length] in EL. lia.
  - intros x. rewrite EL, !elem_of_app, !elem_of_cons, elem_of_nil. tauto.
  - intros k1 y x k2 E Hx. replace (z :: (B ++ A) ++ [z]) with ((z :: B) ++ (A ++ [z])) in E by (cbn; by rewrite app_assoc).
    destruct (pair_split _ _ _ _ _ _ E) as [[r Er]|[[r Er]|[r Er]]].
    + exists (A ++ k1), r. by rewrite EL, <- app_assoc, Er.
    + exists r, (k2 ++ B). rewrite EL. change (z :: B) with ([z] ++ B). rewrite app_assoc, Er, <- app_assoc. done.
    + exfalso. destruct A as [|a A]; cbn in EL, Er; injection EL as <- _; injection Er as <- _; cbn in Hx; lia.
Qed.

(** Where the search asks for more memory. *)
Definition grow (fuel : nat) (n : Z) : U hst Z :=
  p ← morecore fuel n; if p =? 0 then mret 0 else s ← uget; malloc_loop fuel base n p (h_ptr (hm s) p).

Lemma malloc_step fuel n y x s : malloc_loop (S fuel) base n y x s =
  if n <=? h_size (hm s) x then take n s y x
  else if x =? freep s then grow fuel n s else malloc_loop fuel base n x (h_ptr (hm s) x) s.
Proof.
  cbn [malloc_loop]. unfold take. rewrite (ubind_done _ _ s s s) by done.
  destruct (n <=? h_size (hm s) x), (h_size (hm s) x =? n), (x =? freep s); done.
Qed.

Lemma search_ok n s z : fst z = freep s -> h_size (hm s) (fst z) = snd z -> forall V y fuel,
  ring_from (hm s) (y :: V) (fst z) -> (forall v, v ∈ V -> fst v <> fst z) -> (length V < fuel)%nat ->
  (exists k1 y' x k2, y :: V ++ [z] = k1 ++ y' :: x :: k2 /\ n <= snd x /\
     malloc_loop fuel base n (fst y) (h_ptr (hm s) (fst y)) s = take n s (fst y') (fst x)) \/
  ((forall x, x ∈ V ++ [z] -> snd x < n) /\
   malloc_loop fuel base n (fst y) (h_ptr (hm s) (fst y)) s = grow (fuel - length V - 1) n s).
Proof.
  intros Hz Hzs. induction V as [|x V IH]; intros y [|fuel] Hr Hne Hf; cbn [length] in Hf; try lia; pose proof Hr as [-> _]; cbn [head_or]; rewrite malloc_step.
  - rewrite Hzs. destruct (Z.leb_spec n (snd z)).
    + left. exists [], y, z, []. split; [done|]. done.
    + right. split; [intros x ->%list_elem_of_singleton; lia|]. rewrite Hz, Z.eqb_refl. cbn [length]. by replace (S fuel - 0 - 1)%nat with fuel by lia.
  - destruct Hr as (_ & _ & Hr). pose proof Hr as (_ & Hxs & _).
    rewrite Hxs. destruct (Z.leb_spec n (snd x)).
    + left. exists [], y, x, (V ++ [z]). split; [done|]. done.
    + rewrite <- Hz. assert (fst x <> fst z) as Hxz%Z.eqb_neq by (apply Hne; by left). rewrite Hxz.
      destruct (IH x fuel Hr) as [(k1 & y' & x' & k2 & E & Hn & ->)|[Hall ->]]; [intros v Hv; apply Hne; by right|lia| |].
      * left. exists (y :: k1), y', x', k2. split; [cbn; by rewrite <- E|done].
      * right. split; [intros v Hv; cbn [app] in Hv; apply elem_of_cons in Hv as [->|Hv]; [done|by apply Hall]|]. f_equal. 
Qed.

(** From [freep], the search takes a block where one is large enough, and otherwise all are too small. *)
Lemma search_heap n s F fuel : heap_at s F -> 1 <= n -> (length F < fuel)%nat ->
  (exists q s' F', malloc_loop fuel base n (freep s) (h_ptr (hm s) (freep s)) s = UDone q s' /\ taken n s F q s' F') \/
  ((forall x, x ∈ F -> snd x < n) /\ malloc_loop fuel base n (freep s) (h_ptr (hm s) (freep s)) s = grow (fuel - length F - 1) n s).
Proof.
  intros Hs Hn Hf. destruct (rotate s F Hs) as (z & V & Hz & Hzs & Hr & Hne & HV & Hin & Hpair). rewrite <- Hz, <- HV.
  destruct (search_ok n s z Hz Hzs V z fuel Hr Hne) as [(k1 & y & x & k2 & E & Hx & ->)|[Hall ->]]; [lia|left|right].
  - destruct (Hpair k1 y x k2 E ltac:(lia)) as (l1 & l2 & EL). destruct Hs as [Hs _]. by apply (take_ok n s F l1 y x l2).
  - split; [|done]. intros x Hx. apply Hall, Hin. by right.
Qed.
End Heap.

(** ** More memory *)

Lemma heap_top base top top' m F : heap base top m F -> top <= top' -> top' < 2 ^ 64 -> top' - base < 2 ^ 36 -> heap base top' m F.
Proof.
  intros [(? & ? & ? & ?) Hsz Hs Hr] Ht H64 H36. constructor; try done; [lia|].
  eapply Forall_impl; [exact Hsz|]. cbn. lia.
Qed.

Lemma heap_keeps base top m m' F : heap base top m F -> (forall a, base <= a < top -> ld8 m' a = ld8 m a) -> heap base top m' F.
Proof.
  intros [Hb Hsz Hs Hr] Hm. constructor; try done. eapply ring_from_frame; [|exact Hr]. intros x Hx.
  assert (base <= fst x /\ fst x + HEADER <= top) as [? ?].
  { apply elem_of_cons in Hx as [->|Hx]; [cbn; lia|]. rewrite Forall_forall in Hsz. destruct (Hsz x Hx).
    apply StronglySorted_cons in Hs as [Hs _]. rewrite Forall_forall in Hs. destruct (Hs x Hx) as [_ ?]. cbn in *. hlia. }
  split; [apply (load_le_ext 8)|apply (load_le_ext 4)]; intros c Hc; apply Hm; hlia.
Qed.

Definition fresh_units (n : Z) : Z := if n <? 4096 then 4096 else n.

(** What [malloc] makes of its state before it searches. *)
Definition ready (base : Z) (s : hst) : hst :=
  if freep s =? 0 then HSt (set_size base 0 (set_ptr base base (hm s))) base else s.

(** [q] is a pointer to [n] units, taken from the free blocks [F] and the memory from [b] to [b']. *)
Definition given (base top n : Z) (s : hst) (F : list block) (b b' q : Z) (s' : hst) (F' : list block) : Prop :=
  heap_at base top s' F' /\ busy base top F' (q - HEADER) n /\ h_size (hm s') (q - HEADER) = n /\
  (forall a, covers F a \/ b <= a < b' <-> covers F' a \/ q - HEADER <= a < q - HEADER + HEADER * n) /\
  (forall a, ~ covers F a -> ~ (b <= a < b') -> ~ in_header base a -> ld8 (hm s') a = ld8 (hm s) a) /\ (length F' <= S (length F))%nat.

Lemma taken_given base top n s F q s' F' b : taken base top n s F q s' F' -> given base top n s F b b q s' F'.
Proof.
  intros (H1 & H2 & H3 & H4 & H5 & H6). split; [done|]. split; [done|]. split; [done|]. split; [|split; [|lia]].
  - intros a. rewrite <- H4. split; [intros [?|?]; [done|lia]|by left].
  - intros a Ha _. by apply H5.
Qed.

Lemma grow_sys base fuel n s : exists k, grow base fuel n s = USys (CSbrk (fresh_units n * HEADER)) k /\ (forall d, k (-1) d = UDone 0 s) /\
  forall b d s2, b <> -1 -> free fuel (b + HEADER) (set_hm (set_size b (fresh_units n) (hm s)) s) = UDone tt s2 -> freep s2 <> 0 ->
    k b d = malloc_loop fuel base n (freep s2) (h_ptr (hm s2) (freep s2)) s2.
Proof.
  eexists. split; [reflexivity|]. split; [done|]. intros b d s2 Hb%Z.eqb_neq Hf H0%Z.eqb_neq. cbn [ubind]. rewrite Hb.
  rewrite (ubind_done _ _ _ tt (set_hm (set_size b (fresh_units n) (hm s)) s)), (ubind_done _ _ _ _ _ Hf) by done. cbn. by rewrite H0.
Qed.

(** The answer of the kernel decides: no memory, or the memory from [b] on. *)
Lemma grow_ok base top fuel n s F : heap_at base top s F -> 1 <= n -> (length F + 2 < fuel)%nat ->
  exists k, grow base fuel n s = USys (CSbrk (fresh_units n * HEADER)) k /\ (forall d, k (-1) d = UDone 0 s) /\
  forall b d, let b' := b + HEADER * fresh_units n in top <= b -> b' < 2 ^ 64 -> b' - base < 2 ^ 36 ->
    exists q s' F', k b d = UDone q s' /\ given base b' n s F b b' q s' F'.
Proof.
  intros [Hh Hin] Hn Hf. destruct (grow_sys base fuel n s) as (k & Ek & Ek1 & Ek2). exists k. split; [done|]. split; [done|].
  intros b d b' Hb H64 H36. pose proof Hh as [Hbase _ _ _].
  set (nu := fresh_units n) in *. assert (n <= nu /\ 4096 <= nu) as [Hnu H4] by (unfold nu, fresh_units; destruct (Z.ltb_spec n 4096); lia).
  set (s1 := set_hm (set_size b nu (hm s)) s).
  assert (heap_at base b' s1 F) as Hs1.
  { split; [|done]. apply (heap_top base top); [|unfold b'; hlia|done|done]. apply (heap_keeps base top (hm s)); [done|]. intros a Ha. apply ld8_set_size. lia. }
  assert (busy base b' F b nu) as Hbusy.
  { split; [lia|]. split; [lia|]. split; [done|]. intros x Hx. destruct Hh as [_ Hsz _ _]. rewrite Forall_forall in Hsz. destruct (Hsz x Hx). lia. }
  assert (h_size (hm s1) b = nu) as Hsb by (apply h_size_set_size; unfold b' in *; hlia).
  destruct (free_ok base b' fuel s1 F b nu Hs1 Hsb Hbusy ltac:(lia)) as (s2 & F2 & Efree & Hs2 & Hk & Hc & (x & HxF & Hxn) & Hlen).
  assert (freep s2 <> 0) as Hf0.
  { destruct Hs2 as [[? _ Hss _] (y & Hy & <-)]. apply elem_of_cons in Hy as [->|Hy]; [cbn; lia|].
    apply StronglySorted_cons in Hss as [Hss _]. rewrite Forall_forall in Hss. destruct (Hss y Hy) as [_ ?]. cbn in *. hlia. }
  rewrite (Ek2 b d s2) by (done || hlia). clear k Ek Ek1 Ek2.
  destruct (search_heap base b' n s2 F2 fuel Hs2 Hn ltac:(lia)) as [(q & s' & F' & E & Ht)|[Hall _]]; [|specialize (Hall x HxF); lia].
  exists q, s', F'. split; [done|]. destruct Ht as (T1 & T2 & T3 & T4 & T5 & T6). split; [done|]. split; [done|]. split; [done|]. split; [|split].
  - intros a. by rewrite <- T4, Hc.
  - intros a Ha Hab Hbase'. rewrite T5; [|rewrite Hc; tauto|done]. rewrite Hk; [|rewrite Hc; tauto|done].
    apply ld8_set_size. unfold b' in *. hlia.
  - lia.
Qed.

(** ** The contract *)

(** Before the first call [freep] is NULL and nothing is free. *)
Definition heap_ok (base top : Z) (s : hst) (F : list block) : Prop :=
  (freep s = 0 /\ F = [] /\ 0 < base /\ base + HEADER <= top /\ top < 2 ^ 64 /\ top - base < 2 ^ 36) \/ heap_at base top s F.

Lemma heap_at_freep base top s F : heap_at base top s F -> base <= freep s.
Proof.
  intros [[? _ Hss _] (y & Hy & <-)]. apply elem_of_cons in Hy as [->|Hy]; [done|].
  apply StronglySorted_cons in Hss as [Hss _]. rewrite Forall_forall in Hss. destruct (Hss y Hy) as [_ ?]. cbn in *. hlia.
Qed.

Lemma ready_ok base top s F : heap_ok base top s F -> heap_at base top (ready base s) F /\
  (forall a, ~ in_header base a -> ld8 (hm (ready base s)) a = ld8 (hm s) a).
Proof.
  unfold ready. intros [(-> & -> & Hb)|Hs].
  - cbn [Z.eqb hm]. split.
    + split; [|by exists (base, 0); split; [left|]]. constructor; [done|done|repeat constructor|]. cbn [hm ring_from fst snd head_or].
      rewrite h_ptr_set_size, h_ptr_set_ptr by (hlia || by right). split; [done|]. split; [|done]. by apply h_size_set_size.
    + intros a Ha. unfold in_header in Ha. rewrite ld8_set_size, ld8_set_ptr by hlia. done.
  - pose proof (heap_at_freep _ _ _ _ Hs). destruct (Z.eqb_spec (freep s) 0); [|done].
    destruct Hs as [[? _ _ _] _]. hlia.
Qed.

Lemma given_ready base top n s F b b' q s' F' : heap_ok base top s F -> given base b' n (ready base s) F b b' q s' F' -> given base b' n s F b b' q s' F'.
Proof.
  intros Hs (H1 & H2 & H3 & H4 & H5 & H6). destruct (ready_ok _ _ _ _ Hs) as [_ Hr].
  split; [done|]. split; [done|]. split; [done|]. split; [done|]. split; [|done]. intros a Ha Hb Hh. rewrite H5 by done. by apply Hr.
Qed.

Lemma malloc_ready base fuel nbytes s :
  malloc fuel base nbytes s = malloc_loop fuel base (nunits nbytes) (freep (ready base s)) (h_ptr (hm (ready base s)) (freep (ready base s))) (ready base s).
Proof. unfold malloc, ready, mbind, U_bind. cbn [uget ubind]. by destruct (freep s =? 0). Qed.

(** C12: [free]: given a block that malloc gave out - a header of [n] units outside the
    free blocks - the search for its place ends, and then exactly its bytes are free
    again beside the ones that were: the ring is sorted, neighbours are joined, and no
    byte outside the free blocks and the header of the base has changed. *)
Theorem free_spec base top fuel s F q n : heap_at base top s F -> h_size (hm s) (q - HEADER) = n ->
  busy base top F (q - HEADER) n -> (S (length F) < fuel)%nat ->
  exists s' F', free fuel q s = UDone tt s' /\ heap_at base top s' F' /\
    (forall a, covers F' a <-> covers F a \/ q - HEADER <= a < q - HEADER + HEADER * n) /\
    keeps base F' (hm s) (hm s') /\ (length F' <= S (length F))%nat.
Proof.
  intros Hs Hn Hb Hf. destruct (free_ok base top fuel s F (q - HEADER) n Hs Hn Hb Hf) as (s' & F' & E & H1 & H2 & H3 & _ & H4).
  exists s', F'. replace (q - HEADER + HEADER) with q in E by lia. done.
Qed.

(** C8: [malloc] ends, with room for [nbytes] bytes: it takes the units from the free
    blocks when one is large enough; otherwise it calls sbrk once, answers NULL with
    the heap unchanged when that fails, and takes the units from the free blocks and
    the memory it got when it does not.  The block is disjoint from what stays free,
    together they are what was free or is new, and no other byte has changed. *)
Theorem malloc_spec base top fuel s F nbytes : heap_ok base top s F -> 0 <= nbytes -> (2 * length F + 4 < fuel)%nat ->
  let n := nunits nbytes in
  nbytes <= HEADER * (n - 1) /\
  ((exists q s' F', malloc fuel base nbytes s = UDone q s' /\ given base top n s F top top q s' F') \/
   ((forall x, x ∈ F -> snd x < n) /\ exists k, malloc fuel base nbytes s = USys (CSbrk (fresh_units n * HEADER)) k /\
      (forall d, k (-1) d = UDone 0 (ready base s)) /\
      forall b d, let b' := b + HEADER * fresh_units n in top <= b -> b' < 2 ^ 64 -> b' - base < 2 ^ 36 ->
        exists q s' F', k b d = UDone q s' /\ given base b' n s F b b' q s' F')).
Proof.
  intros Hs Hnb Hf n. assert (1 <= n /\ nbytes <= HEADER * (n - 1)) as [Hn ?].
  { unfold n, nunits, HEADER. pose proof (Z.div_mod (nbytes + 16 - 1) 16). pose proof (Z.mod_pos_bound (nbytes + 16 - 1) 16). lia. }
  split; [done|]. destruct (ready_ok _ _ _ _ Hs) as [Hr _]. rewrite malloc_ready. fold n.
  destruct (search_heap base top n (ready base s) F fuel Hr Hn ltac:(lia)) as [(q & s' & F' & E & Ht)|[Hall ->]]; [left|right].
  - exists q, s', F'. split; [done|]. by eapply given_ready, taken_given.
  - split; [done|]. destruct (grow_ok base top (fuel - length F - 1) n (ready base s) F Hr Hn ltac:(lia)) as (k & -> & Hk1 & Hk2).
    exists k. split; [done|]. split; [done|]. intros b d b' H1 H2 H3. destruct (Hk2 b d H1 H2 H3) as (q & s' & F' & -> & Hg).
    exists q, s', F'. split; [done|]. by eapply given_ready.
Qed.

(** An empty heap, before the first call. *)
Definition first_heap : hst := HSt ∅ 0.

Lemma malloc_spec_witness : heap_ok 4096 8192 first_heap [] /\
  exists k, malloc 10 4096 100 first_heap = USys (CSbrk 65536) k /\ exists q s' F', k 8192 [] = UDone q s' /\ given 4096 73728 8 first_heap [] 8192 73728 q s' F'.
Proof.
  assert (heap_ok 4096 8192 first_heap []) as Hs by (left; cbv; done). split; [done|].
  destruct (malloc_spec 4096 8192 10 first_heap [] 100 Hs ltac:(lia) ltac:(cbn; lia)) as [_ [(q & s' & F' & E & _)|(_ & k & E & _ & H)]]; [discriminate|].
  exists k. split; [exact E|]. apply (H 8192 []); cbv; done.
Defined.

(** A block of two units given back to an empty heap. *)
Definition one_busy : hst := HSt (set_size 8192 2 ∅) 0.

Lemma free_spec_witness : heap_at 4096 16384 (ready 4096 one_busy) [] /\
  exists s' F', free 5 8208 (ready 4096 one_busy) = UDone tt s' /\ heap_at 4096 16384 s' F' /\ covers F' 8200.
Proof.
  assert (heap_at 4096 16384 (ready 4096 one_busy) []) as Hs by (apply ready_ok; left; cbv; done). split; [exact Hs|].
  destruct (free_spec 4096 16384 5 (ready 4096 one_busy) [] 8208 2 Hs) as (s' & F' & E & H1 & H2 & _).
  - vm_compute. reflexivity.
  - split; [done|]. split; [done|]. split; [done|]. intros x Hx. by apply elem_of_nil in Hx.
  - cbn. lia.
  - exists s', F'. split; [done|]. split; [done|]. apply H2. right. done.
Defined.
