(* ===== verification/Mkfs.v ===== *)
(** * The image builder: mkfs/mkfs.c

    The image file is a list of sectors, a sector a list of bytes.  [Panic] is the end of
    the program with a message and a failing status: [perror] and [exit(1)], or a failed
    [assert].  Structures are copied to and from sectors as their bytes, with the fields
    where the layout of [struct dinode], [struct dirent] and [struct superblock] has them.
    What mkfs prints on the way is left out. *)

From S2P Require Import Prelude Hart VmSystem Mem State Fs.

(** ** Little-endian numbers *)

Fixpoint le (n : nat) (v : Z) : list Z :=
  match n with O => [] | S n' => u8 v :: le n' (v / 256) end.
Fixpoint of_le (l : list Z) : Z :=
  match l with [] => 0 | b :: l' => b + 256 * of_le l' end.
Definition word_at (l : list Z) (off n : nat) : Z := of_le (take n (drop off l)).

(** The bytes [a[0] = x; a[1] = x >> 8; ...] of [y]. *)
Definition xshort (x : Z) : Z := of_le [u8 x; u8 (Z.shiftr x 8)].
Definition xint (x : Z) : Z := of_le [u8 x; u8 (Z.shiftr x 8); u8 (Z.shiftr x 16); u8 (Z.shiftr x 24)].

(** ** The layout *)

Definition FSSIZE : Z := 1000.
Definition NINODES : Z := 200.
Definition nbitmap : Z := FSSIZE / (BSIZE * 8) + 1.
Definition ninodeblocks : Z := NINODES / IPB + 1.
Definition nlog : Z := LOGSIZE.

Record dinode := Dinode { d_type : Z; d_major : Z; d_minor : Z; d_nlink : Z; d_size : Z; d_addrs : list Z }.
Definition set_d_addr (k : nat) (a : Z) (d : dinode) : dinode :=
  Dinode (d_type d) (d_major d) (d_minor d) (d_nlink d) (d_size d) (<[k := a]> (d_addrs d)).
Definition set_d_size (n : Z) (d : dinode) : dinode :=
  Dinode (d_type d) (d_major d) (d_minor d) (d_nlink d) n (d_addrs d).

Definition dinode_bytes (d : dinode) : list Z :=
  le 2 (d_type d) ++ le 2 (d_major d) ++ le 2 (d_minor d) ++ le 2 (d_nlink d) ++ le 4 (d_size d) ++ concat (map (le 4) (d_addrs d)).
Definition dinode_at (l : list Z) (off : nat) : dinode :=
  Dinode (word_at l off 2) (word_at l (off + 2) 2) (word_at l (off + 4) 2) (word_at l (off + 6) 2) (word_at l (off + 8) 4)
    (map (fun k => word_at l (off + 12 + 4 * k) 4) (seq 0 NADDRS)).
Definition dirent_bytes (inum : Z) (name : list Z) : list Z := le 2 inum ++ name.
Definition superblock_bytes (sb : superblock) : list Z :=
  le 4 (sb_magic sb) ++ le 4 (sb_size sb) ++ le 4 (sb_nblocks sb) ++ le 4 (sb_ninodes sb) ++ le 4 (sb_nlog sb) ++
  le 4 (sb_logstart sb) ++ le 4 (sb_inodestart sb) ++ le 4 (sb_bmapstart sb).

(** ** State *)

Record mkst := MkSt { img : list (list Z); m_sb : superblock; freeinode : Z; freeblock : Z }.
Definition set_img (v : list (list Z)) (s : mkst) : mkst := MkSt v (m_sb s) (freeinode s) (freeblock s).
Definition set_m_sb (v : superblock) (s : mkst) : mkst := MkSt (img s) v (freeinode s) (freeblock s).
Definition set_freeinode (v : Z) (s : mkst) : mkst := MkSt (img s) (m_sb s) v (freeblock s).
Definition set_freeblock (v : Z) (s : mkst) : mkst := MkSt (img s) (m_sb s) (freeinode s) v.

Definition zeroes : list Z := replicate (Z.to_nat BSIZE) 0.
Definition assert (b : bool) : M mkst unit := if b then mret tt else panic "assert".

(** ** Sectors

    The offset [sec * BSIZE] is a [uint]; writing past the end fills the hole with zeros,
    reading there is short. *)
Definition seek_sector (sec : Z) : nat := Z.to_nat (u32 (sec * BSIZE) / BSIZE).
Definition wsect (sec : Z) (buf : list Z) : M mkst unit :=
  let i := seek_sector sec in
  modify (fun s => set_img (<[i := buf]> (img s ++ replicate (S i - length (img s)) zeroes)) s).
Definition rsect (sec : Z) : M mkst (list Z) :=
  s ← get;
  match img s !! seek_sector sec with Some buf => mret buf | None => panic "read" end.

(** ** Inodes *)

Definition dinode_off (inum : Z) : nat := Z.to_nat (inum mod IPB * DINODE_SIZE).
Definition winode (inum : Z) (ip : dinode) : M mkst unit :=
  s ← get;
  let bn := IBLOCK inum (m_sb s) in
  buf ← rsect bn;
  wsect bn (list_inserts (dinode_off inum) (dinode_bytes ip) buf).
Definition rinode (inum : Z) : M mkst dinode :=
  s ← get;
  buf ← rsect (IBLOCK inum (m_sb s));
  mret (dinode_at buf (dinode_off inum)).

Definition ialloc (type : Z) : M mkst Z :=
  inum ← gets freeinode;
  modify (set_freeinode (u32 (inum + 1))) ;;
  winode inum (Dinode (xshort type) 0 0 (xshort 1) (xint 0) (replicate NADDRS 0)) ;;
  mret inum.

(** [buf[i/8] = buf[i/8] | (0x1 << (i%8))] for [i < used]. *)
Fixpoint set_bits (n : nat) (i : Z) (buf : list Z) : list Z :=
  match n with
  | O => buf
  | S n' => set_bits n' (i + 1) (alter (fun x => Z.lor x (Z.shiftl 1 (i mod 8))) (Z.to_nat (i / 8)) buf)
  end.
Definition balloc (used : Z) : M mkst unit :=
  assert (used <? BSIZE * 8) ;;
  sb ← gets m_sb;
  wsect (sb_bmapstart sb) (set_bits (Z.to_nat used) 0 zeroes).

(** ** Contents *)

(** [xint(freeblock++)] *)
Definition new_block : M mkst Z :=
  b ← gets freeblock; modify (set_freeblock (u32 (b + 1))) ;; mret (xint b).

(** The block of number [fbn] of the inode, and the inode with it. *)
Definition file_block (din : dinode) (fbn : Z) : M mkst (Z * dinode) :=
  if fbn <? NDIRECT then
    a ← lift_opt (d_addrs din !! Z.to_nat fbn);
    if xint a =? 0 then b ← new_block; mret (xint b, set_d_addr (Z.to_nat fbn) b din)
    else mret (xint a, din)
  else
    a ← lift_opt (d_addrs din !! Z.to_nat NDIRECT);
    '(a, din) ← (if xint a =? 0 then b ← new_block; mret (b, set_d_addr (Z.to_nat NDIRECT) b din) else mret (a, din));
    indirect ← rsect (xint a);
    let k := (4 * Z.to_nat (fbn - NDIRECT))%nat in
    if word_at indirect k 4 =? 0 then
      b ← new_block;
      wsect (xint a) (list_inserts k (le 4 b) indirect) ;;
      mret (xint b, din)
    else mret (xint (word_at indirect k 4), din).

(** The [while] loop of [iappend]: the rest [p] goes to offset [off]. *)
Fixpoint iappend_loop (rounds : nat) (din : dinode) (off : Z) (p : list Z) : M mkst (dinode * Z) :=
  match rounds with
  | O => no_fuel
  | S rounds' =>
      if 0 <? Z.of_nat (length p) then
        let fbn := off / BSIZE in
        assert (fbn <? MAXFILE) ;;
        '(x, din) ← file_block din fbn;
        let n1 := Z.to_nat (Z.min (Z.of_nat (length p)) ((fbn + 1) * BSIZE - off)) in
        buf ← rsect x;
        wsect x (list_inserts (Z.to_nat (off - fbn * BSIZE)) (take n1 p) buf) ;;
        iappend_loop rounds' din (u32 (off + Z.of_nat n1)) (drop n1 p)
      else mret (din, off)
  end.
Definition iappend (inum : Z) (xp : list Z) : M mkst unit :=
  din ← rinode inum;
  '(din, off) ← iappend_loop (S (length xp)) din (xint (d_size din)) xp;
  winode inum (set_d_size (xint off) din).

(** ** main

    [host] answers for a path what the calls of [read] on that file return, up to the
    first that returns nothing; [None] when it cannot be opened. *)
Section Main.
Context (host : list Z -> option (list (list Z))).

Definition bytes (s : string) : list Z := map (fun c => Z.of_N (Ascii.N_of_ascii c)) (String.list_ascii_of_string s).
Definition user_dir : list Z := bytes "out/user_space/".
Definition shortname (path : list Z) : list Z :=
  if bool_decide (take (length user_dir) path = user_dir) then drop (length user_dir) path else path.
(** [if(shortname[0] == '_') shortname += 1;] *)
Definition chop (name : list Z) : list Z :=
  match name with c :: name' => if c =? 95 then name' else name | [] => name end.
(** [bzero(&de); strncpy(de.name, name, DIRSIZ)] *)
Definition de_name (name : list Z) : list Z := take (Z.to_nat DIRSIZ) (name ++ replicate (Z.to_nat DIRSIZ) 0).

Fixpoint copy_in_file (inum : Z) (reads : list (list Z)) : M mkst unit :=
  match reads with
  | [] => mret tt
  | buf :: reads' => if 0 <? Z.of_nat (length buf) then iappend inum buf ;; copy_in_file inum reads' else mret tt
  end.

Definition add_file (rootino : Z) (path : list Z) : M mkst unit :=
  let name := shortname path in
  assert (forallb (fun c => negb (c =? 47)) name) ;;
  match host path with
  | None => panic "open"
  | Some reads =>
      inum ← ialloc T_FILE;
      iappend rootino (dirent_bytes (xshort inum) (de_name (chop name))) ;;
      copy_in_file inum reads
  end.

Fixpoint add_files (rootino : Z) (paths : list (list Z)) : M mkst unit :=
  match paths with
  | [] => mret tt
  | path :: paths' => add_file rootino path ;; add_files rootino paths'
  end.

Definition nmeta : Z := 2 + nlog + ninodeblocks + nbitmap.
Definition nblocks : Z := FSSIZE - nmeta.
Definition main_sb : superblock :=
  mk_superblock FSMAGIC (xint FSSIZE) (xint nblocks) (xint NINODES) (xint nlog) (xint 2) (xint (2 + nlog)) (xint (2 + nlog + ninodeblocks)).

(** [fsfd] tells whether the image file could be opened; the arguments from the third on. *)
Definition main (fsfd : bool) (paths : list (list Z)) : M mkst unit :=
  if negb fsfd then panic "open" else
  modify (set_img []) ;;
  modify (set_m_sb main_sb) ;;
  modify (set_freeblock nmeta) ;;
  for_each (Z.to_nat FSSIZE) 0 (fun i => wsect i zeroes) ;;
  wsect 1 (list_inserts 0 (superblock_bytes main_sb) zeroes) ;;
  rootino ← ialloc T_DIR;
  assert (rootino =? ROOTINO) ;;
  iappend rootino (dirent_bytes (xshort rootino) (de_name (bytes "."))) ;;
  iappend rootino (dirent_bytes (xshort rootino) (de_name (bytes ".."))) ;;
  add_files rootino paths ;;
  din ← rinode rootino;
  let off := xint (d_size din) in
  let off := u32 ((off / BSIZE + 1) * BSIZE) in
  winode rootino (set_d_size (xint off) din) ;;
  b ← gets freeblock;
  balloc b.
End Main.

(** The static data at the start of the program. *)
Definition mkfs_init : mkst := MkSt [] (mk_superblock 0 0 0 0 0 0 0 0) 1 0.
