(* ===== verification/MkfsSpec.v ===== *)
(** * What the image builder promises

    The image as a set of inodes with their contents; [mkfs] builds the image of its
    arguments, in the format the kernel reads. *)

From S2P Require Import Prelude Hart VmSystem Mem State Fs Mkfs.

(** ** Bytes of sectors *)

Lemma length_le n v : length (le n v) = n.
Proof. revert v. induction n as [|n IH]; intros v; cbn; [done|by rewrite IH]. Qed.

Lemma of_le_le n v : of_le (le n v) = v mod 256 ^ Z.of_nat n.
Proof.
  revert v. induction n as [|n IH]; intros v; [cbn; by rewrite Z.mod_1_r|]. cbn [le of_le]. rewrite IH.
  rewrite Nat2Z.inj_succ, Z.pow_succ_r by lia. rewrite Z.rem_mul_r by lia. done.
Qed.

Lemma xint_small x : 0 <= x < 2 ^ 32 -> xint x = x.
Proof. intros H. unfold xint, u8. cbn [of_le]. rewrite !Z.shiftr_div_pow2 by lia. lia. Qed.
Lemma xshort_small x : 0 <= x < 2 ^ 16 -> xshort x = x.
Proof. intros H. unfold xshort, u8. cbn [of_le]. rewrite !Z.shiftr_div_pow2 by lia. lia. Qed.

Lemma slice_inserts_same (l k : list Z) off : (off + length k <= length l)%nat -> take (length k) (drop off (list_inserts off k l)) = k.
Proof.
  intros H. apply list_eq. intros i. destruct (decide (i < length k)%nat) as [Hi|Hi].
  - rewrite lookup_take_lt, lookup_drop, list_lookup_inserts by lia. f_equal. lia.
  - rewrite lookup_take_ge by lia. symmetry. apply lookup_ge_None. lia.
Qed.

Lemma slice_inserts_other (l k : list Z) off off' n : (off + length k <= off' \/ off' + n <= off)%nat ->
  take n (drop off' (list_inserts off k l)) = take n (drop off' l).
Proof.
  intros H. apply list_eq. intros i. destruct (decide (i < n)%nat) as [Hi|Hi]; [|by rewrite !lookup_take_ge by lia].
  rewrite !lookup_take_lt, !lookup_drop by lia. destruct H; [apply list_lookup_inserts_ge|apply list_lookup_inserts_lt]; lia.
Qed.

Lemma word_at_inserts (l : list Z) off n v : (off + n <= length l)%nat -> word_at (list_inserts off (le n v) l) off n = v mod 256 ^ Z.of_nat n.
Proof.
  intros H. unfold word_at. pose proof (slice_inserts_same l (le n v) off) as E. rewrite length_le in E.
  rewrite E by lia. apply of_le_le.
Qed.
Lemma word_at_inserts_ne (l k : list Z) off off' n : (off + length k <= off' \/ off' + n <= off)%nat ->
  word_at (list_inserts off k l) off' n = word_at l off' n.
Proof. intros H. unfold word_at. by rewrite slice_inserts_other. Qed.

Lemma of_le_zeros n : of_le (replicate n 0) = 0.
Proof. induction n as [|n IH]; [done|]. cbn. by rewrite IH. Qed.
Lemma word_at_zeroes off n : word_at zeroes off n = 0.
Proof. unfold word_at, zeroes. rewrite drop_replicate, take_replicate. apply of_le_zeros. Qed.

(** ** Inodes in sectors *)

(** The fields have their widths. *)
Record dinode_ok (d : dinode) : Prop := {
  dk_halves : 0 <= d_type d < 2 ^ 16 /\ 0 <= d_major d < 2 ^ 16 /\ 0 <= d_minor d < 2 ^ 16 /\ 0 <= d_nlink d < 2 ^ 16;
  dk_size : 0 <= d_size d < 2 ^ 32;
  dk_addrs : length (d_addrs d) = NADDRS /\ Forall (fun a => 0 <= a < 2 ^ 32) (d_addrs d) }.

Lemma length_dinode_bytes d : length (d_addrs d) = NADDRS -> length (dinode_bytes d) = 64%nat.
Proof.
  intros H. unfold dinode_bytes. rewrite !length_app, !length_le. assert (length (concat (map (le 4) (d_addrs d))) = 4 * length (d_addrs d))%nat as ->.
  { induction (d_addrs d) as [|a l IH] in |- *; [done|]. cbn. cbn in IH. rewrite IH. lia. }
  rewrite H. done.
Qed.

Lemma word_at_app (A B : list Z) off n v : length A = off -> 0 <= v < 256 ^ Z.of_nat n -> word_at (A ++ le n v ++ B) off n = v.
Proof.
  intros <- Hv. unfold word_at. rewrite drop_app_length, take_app_le by (rewrite length_le; done).
  rewrite take_ge by (rewrite length_le; done). rewrite of_le_le. by apply Z.mod_small.
Qed.

Lemma words_at_app (l A : list Z) off : length A = off -> Forall (fun a => 0 <= a < 2 ^ 32) l ->
  map (fun k => word_at (A ++ concat (map (le 4) l)) (off + 4 * k) 4) (seq 0 (length l)) = l.
Proof.
  revert A off. induction l as [|a l IH]; intros A off HA Hl; [done|]. apply Forall_cons_1 in Hl as [Ha Hl].
  cbn [length seq map concat]. f_equal; [apply word_at_app; [lia|done]|].
  rewrite <- seq_shift, map_map. etransitivity; [|apply (IH (A ++ le 4 a) (off + 4)%nat); [rewrite length_app, length_le; lia|done]].
  apply map_ext. intros k. rewrite <- app_assoc. f_equal. lia.
Qed.

Lemma dinode_at_bytes d : dinode_ok d -> dinode_at (dinode_bytes d) 0 = d.
Proof.
  intros [(H1 & H2 & H3 & H4) Hs [Hl Ha]]. destruct d as [t ma mi nl sz l]. cbn [d_type d_major d_minor d_nlink d_size d_addrs] in *.
  unfold dinode_at, dinode_bytes. cbn [d_type d_major d_minor d_nlink d_size d_addrs]. f_equal.
  - by apply (word_at_app []).
  - by apply (word_at_app (le 2 t)).
  - rewrite app_assoc. by apply (word_at_app (le 2 t ++ le 2 ma)).
  - do 2 rewrite app_assoc. by apply (word_at_app ((le 2 t ++ le 2 ma) ++ le 2 mi)).
  - do 3 rewrite app_assoc. by apply (word_at_app (((le 2 t ++ le 2 ma) ++ le 2 mi) ++ le 2 nl)).
  - rewrite <- Hl. do 4 rewrite app_assoc. by apply words_at_app.
Qed.

(** An inode among the bytes of a sector. *)
Lemma dinode_at_ext l l' off off' : (forall i, (i < 64)%nat -> l !! (off + i)%nat = l' !! (off' + i)%nat) -> dinode_at l off = dinode_at l' off'.
Proof.
  intros H. assert (forall k n, (k + n <= 64)%nat -> word_at l (off + k) n = word_at l' (off' + k) n) as Hw.
  { intros k n Hk. unfold word_at. f_equal. apply list_eq. intros i. destruct (decide (i < n)%nat); [|by rewrite !lookup_take_ge by lia].
    rewrite !lookup_take_lt, !lookup_drop by lia. rewrite <- !Nat.add_assoc. apply H. lia. }
  pose proof (Hw 0%nat 2%nat) as Hw0. rewrite !Nat.add_0_r in Hw0. unfold dinode_at. f_equal; try (apply Hw; lia); [apply Hw0; lia|].
  apply map_ext_in. intros k Hk%in_seq. rewrite <- !Nat.add_assoc. apply Hw. unfold NADDRS, NDIRECT in Hk. lia.
Qed.

Lemma dinode_at_inserts_same l off d : (off + 64 <= length l)%nat -> dinode_ok d -> dinode_at (list_inserts off (dinode_bytes d) l) off = d.
Proof.
  intros Hl Hd. rewrite <- (dinode_at_bytes d Hd) at 2. apply dinode_at_ext. intros i Hi.
  assert (length (dinode_bytes d) = 64)%nat as E by (apply length_dinode_bytes; by destruct Hd as [_ _ [? _]]).
  rewrite list_lookup_inserts by lia. f_equal. lia.
Qed.
Lemma dinode_at_inserts_ne l off off' d : (off + 64 <= off' \/ off' + 64 <= off)%nat -> length (dinode_bytes d) = 64%nat ->
  dinode_at (list_inserts off (dinode_bytes d) l) off' = dinode_at l off'.
Proof.
  intros H E. apply dinode_at_ext. intros i Hi. destruct H; [apply list_lookup_inserts_ge|apply list_lookup_inserts_lt]; lia.
Qed.

(** ** Images *)

Definition sec (im : list (list Z)) (b : Z) : list Z := default [] (im !! Z.to_nat b).
Definition upd (im : list (list Z)) (b : Z) (l : list Z) : list (list Z) := <[Z.to_nat b := l]> im.
Record image (im : list (list Z)) : Prop := {
  im_len : Z.of_nat (length im) = FSSIZE;
  im_sec : Forall (fun l => length l = Z.to_nat BSIZE) im }.

Lemma sec_length im b : image im -> 0 <= b < FSSIZE -> length (sec im b) = Z.to_nat BSIZE.
Proof.
  intros [Hl Hs] Hb. unfold sec. destruct (lookup_lt_is_Some_2 im (Z.to_nat b)) as [l E]; [lia|]. rewrite E. cbn.
  rewrite Forall_lookup in Hs. by eapply Hs.
Qed.
Lemma sec_upd im b l : image im -> 0 <= b < FSSIZE -> sec (upd im b l) b = l.
Proof. intros [Hl _] Hb. unfold sec, upd. rewrite list_lookup_insert_eq by lia. done. Qed.
Lemma sec_upd_ne im b l b' : 0 <= b -> 0 <= b' -> b <> b' -> sec (upd im b l) b' = sec im b'.
Proof. intros H1 H2 H. unfold sec, upd. rewrite list_lookup_insert_ne by lia. done. Qed.
Lemma image_upd im b l : image im -> length l = Z.to_nat BSIZE -> image (upd im b l).
Proof. intros [Hl Hs] Hb. split; [unfold upd; by rewrite length_insert|]. by apply Forall_insert. Qed.

Lemma seek_small b : 0 <= b < FSSIZE -> seek_sector b = Z.to_nat b.
Proof. intros H. unfold seek_sector, u32, BSIZE, FSSIZE in *. f_equal. lia. Qed.

Lemma rsect_eq b s : image (img s) -> 0 <= b < FSSIZE -> rsect b s = Ret (sec (img s) b) s.
Proof.
  intros [Hl Hs] Hb. unfold rsect, sec. rewrite (bind_Ret get _ s s s) by done. rewrite seek_small by done.
  destruct (lookup_lt_is_Some_2 (img s) (Z.to_nat b)) as [l ->]; [lia|done].
Qed.
Lemma wsect_eq b l s : image (img s) -> 0 <= b < FSSIZE -> wsect b l s = Ret tt (set_img (upd (img s) b l) s).
Proof.
  intros [Hl Hs] Hb. unfold wsect, modify, upd. rewrite seek_small by done.
  replace (S (Z.to_nat b) - length (img s))%nat with 0%nat by lia. cbn [replicate]. by rewrite app_nil_r.
Qed.

(** ** Files in an image

    Block [k] of an inode: its direct address, or the entry of its indirect block.  An
    address of 0 stands for no block; sector 0 is full of zeros. *)
Definition addr (d : dinode) (k : Z) : Z := default 0 (d_addrs d !! Z.to_nat k).
Definition baddr (im : list (list Z)) (d : dinode) (k : Z) : Z :=
  if k <? NDIRECT then addr d k else word_at (sec im (addr d NDIRECT)) (4 * Z.to_nat (k - NDIRECT)) 4.

Definition nblk (n : Z) : Z := (n + BSIZE - 1) / BSIZE.
(** Blocks taken by [nb] blocks of contents, with the indirect one. *)
Definition blocks (nb : Z) : Z := nb + (if NDIRECT <? nb then 1 else 0).

(** A block belongs to one block of contents of one inode, or is its indirect block. *)
Abbreviation owner := (Z -> Z * Z).
Definition INDIRECT : Z := -1.

(** The inode [i] with fields [d] has [nb] blocks below [fb], of its own, that hold [c]
    and zeros after it. *)
Record holds (im : list (list Z)) (ow : owner) (fb i : Z) (d : dinode) (c : list Z) (nb : Z) (ind : bool) : Prop := {
  ho_addrs : length (d_addrs d) = NADDRS /\ Forall (fun a => 0 <= a < 2 ^ 32) (d_addrs d);
  ho_nb : 0 <= nb <= MAXFILE /\ Z.of_nat (length c) <= nb * BSIZE /\ (NDIRECT < nb -> ind = true) /\ nmeta <= fb <= FSSIZE;
  ho_blk : forall k, 0 <= k < nb -> nmeta <= baddr im d k < fb /\ ow (baddr im d k) = (i, k);
  ho_free : forall k, nb <= k < MAXFILE -> baddr im d k = 0;
  ho_ind : if ind then nmeta <= addr d NDIRECT < fb /\ ow (addr d NDIRECT) = (i, INDIRECT) else addr d NDIRECT = 0;
  ho_byte : forall j, 0 <= j < nb * BSIZE ->
    sec im (baddr im d (j / BSIZE)) !! Z.to_nat (j mod BSIZE) = Some (default 0 (c !! Z.to_nat j)) }.

Definition zero_above (im : list (list Z)) (fb : Z) : Prop := forall b, fb <= b < FSSIZE -> sec im b = zeroes.

(** Work on the inode [i]: other blocks keep their contents and their owners. *)
Record step (i fb fb' : Z) (ow ow' : owner) (im im' : list (list Z)) : Prop := {
  st_image : image im';
  st_fb : fb <= fb';
  st_sec : forall b, 0 <= b < fb -> b < nmeta \/ fst (ow b) <> i -> sec im' b = sec im b;
  st_ow : forall b, b < fb -> ow' b = ow b;
  st_zero : zero_above im' fb' }.

Ltac mlia := change nmeta with 46 in *; change MAXFILE with 268 in *; unfold FSSIZE, NDIRECT, BSIZE, INDIRECT in *; lia.

Lemma step_refl i fb ow im : image im -> zero_above im fb -> step i fb fb ow ow im im.
Proof. intros H1 H2. by split. Qed.

Lemma step_trans i fb1 fb2 fb3 ow1 ow2 ow3 im1 im2 im3 :
  step i fb1 fb2 ow1 ow2 im1 im2 -> step i fb2 fb3 ow2 ow3 im2 im3 -> step i fb1 fb3 ow1 ow3 im1 im3.
Proof.
  intros [A1 A2 A3 A4 A5] [B1 B2 B3 B4 B5]. split; [done|lia| | |done].
  - intros b Hb Ho. rewrite B3, A3; [done..|lia|]. rewrite A4 by lia. done.
  - intros b Hb. rewrite B4, A4 by lia. done.
Qed.

Lemma baddr_frame im im' d k : sec im' (addr d NDIRECT) = sec im (addr d NDIRECT) -> baddr im' d k = baddr im d k.
Proof. intros H. unfold baddr. by rewrite H. Qed.

(** The contents depend on sector 0 and the blocks of the inode. *)
Lemma holds_ext j fb fb' ow ow' im im' d c nb ind : fb <= fb' <= FSSIZE ->
  (forall b, 0 <= b < fb -> b = 0 \/ nmeta <= b /\ fst (ow b) = j -> sec im' b = sec im b) -> (forall b, b < fb -> ow' b = ow b) ->
  holds im ow fb j d c nb ind -> holds im' ow' fb' j d c nb ind.
Proof.
  intros Hfb A3 A4 [B1 (B2 & B2' & B2'' & Bfb) B3 B4 B5 B6].
  assert (forall k, baddr im' d k = baddr im d k) as Hba.
  { intros k. apply baddr_frame. destruct ind.
    - destruct B5 as [? Ho]. apply A3; [mlia|]. right. rewrite Ho. split; [lia|done].
    - rewrite B5. apply A3; [mlia|by left]. }
  split; [done|split_and!; (done || lia)| | | |].
  - intros k Hk. rewrite Hba. destruct (B3 k Hk) as [? Ho]. split; [lia|]. rewrite A4 by lia. done.
  - intros k Hk. rewrite Hba. by apply B4.
  - destruct ind; [|done]. destruct B5 as [? Ho]. split; [lia|]. rewrite A4 by lia. done.
  - intros k Hk. rewrite Hba. rewrite <- B6 by done. f_equal. destruct (B3 (k / BSIZE)) as [? Ho]; [mlia|].
    apply A3; [mlia|]. right. rewrite Ho. split; [lia|done].
Qed.

Lemma holds_frame i j fb fb' ow ow' im im' d c nb ind : step i fb fb' ow ow' im im' -> fb' <= FSSIZE -> i <> j ->
  holds im ow fb j d c nb ind -> holds im' ow' fb' j d c nb ind.
Proof.
  intros [A1 A2 A3 A4 A5] Hfb Hij. apply holds_ext; [lia| |done]. intros b Hb [->|[_ Hj]]; apply A3; [done|left; mlia|done|right; by rewrite Hj].
Qed.

Lemma addr_lookup d k : length (d_addrs d) = NADDRS -> 0 <= k <= NDIRECT -> d_addrs d !! Z.to_nat k = Some (addr d k).
Proof.
  intros H Hk. unfold addr. destruct (lookup_lt_is_Some_2 (d_addrs d) (Z.to_nat k)) as [a ->]; [rewrite H; unfold NADDRS; mlia|done].
Qed.
Lemma addr_set d k a : length (d_addrs d) = NADDRS -> 0 <= k <= NDIRECT -> addr (set_d_addr (Z.to_nat k) a d) k = a.
Proof. intros H Hk. unfold addr, set_d_addr. cbn [d_addrs]. rewrite list_lookup_insert_eq by (rewrite H; unfold NADDRS; mlia). done. Qed.
Lemma addr_set_ne d k k' a : 0 <= k -> 0 <= k' -> k <> k' -> addr (set_d_addr (Z.to_nat k) a d) k' = addr d k'.
Proof. intros H H' Hk. unfold addr, set_d_addr. cbn [d_addrs]. rewrite list_lookup_insert_ne by lia. done. Qed.

Lemma new_block_eq s : 0 <= freeblock s < 2 ^ 31 -> new_block s = Ret (freeblock s) (set_freeblock (freeblock s + 1) s).
Proof.
  intros H. unfold new_block. rewrite (bind_Ret _ _ _ (freeblock s) s) by done. rewrite u32_small by lia.
  rewrite (bind_Ret _ _ _ tt (set_freeblock (freeblock s + 1) s)) by done. rewrite xint_small by lia. done.
Qed.

Definition give (ow : owner) (b : Z) (o : Z * Z) : owner := fun b' => if b' =? b then o else ow b'.
Lemma give_same ow b o : give ow b o b = o.
Proof. unfold give. by rewrite Z.eqb_refl. Qed.
Lemma give_ne ow b o b' : b' <> b -> give ow b o b' = ow b'.
Proof. intros H%Z.eqb_neq. unfold give. by rewrite H. Qed.

Lemma step_give i fb ow o im : image im -> zero_above im fb -> step i fb (fb + 1) ow (give ow fb o) im im.
Proof. intros H1 H2. split; [done|lia|done| |intros b Hb; apply H2; lia]. intros b Hb. apply give_ne. lia. Qed.

Lemma zeroes_lookup o : 0 <= o < BSIZE -> zeroes !! Z.to_nat o = Some 0.
Proof. intros H. apply lookup_replicate. mlia. Qed.
Lemma word_zero l off n : l = zeroes -> word_at l off n = 0.
Proof. intros ->. apply word_at_zeroes. Qed.

Section Append.
Context (i fb : Z) (ow : owner) (im : list (list Z)) (d : dinode) (c : list Z) (nb : Z).
Hypothesis Him : image im.
Hypothesis Hzero : sec im 0 = zeroes.
Hypothesis Habove : zero_above im fb.

(** A new direct block. *)
Lemma alloc_direct ind : holds im ow fb i d c nb ind -> nb < NDIRECT -> fb < FSSIZE ->
  let d' := set_d_addr (Z.to_nat nb) fb d in
  holds im (give ow fb (i, nb)) (fb + 1) i d' c (nb + 1) ind /\ baddr im d' nb = fb.
Proof.
  intros [[B1 B1'] (B2 & B2' & B2'' & B2''') B3 B4 B5 B6] Hnb Hfb d'.
  assert (forall k, 0 <= k -> k <> nb -> baddr im d' k = baddr im d k) as Hba.
  { intros k Hk Hkn. unfold baddr, d'. rewrite !addr_set_ne by mlia. done. }
  assert (baddr im d' nb = fb) as Hnew.
  { unfold baddr, d'. replace (nb <? NDIRECT) with true by lia. apply addr_set; [done|lia]. }
  split; [|done]. split.
  - unfold d'. cbn [set_d_addr d_addrs]. rewrite length_insert. split; [done|]. apply Forall_insert; [done|mlia].
  - split_and!; (mlia || (intros; mlia)).
  - intros k Hk. destruct (decide (k = nb)) as [->|].
    + rewrite Hnew, give_same. split; [mlia|done].
    + rewrite Hba by lia. destruct (B3 k) as [? Ho]; [lia|]. split; [lia|]. rewrite give_ne by lia. done.
  - intros k Hk. rewrite Hba by lia. apply B4. lia.
  - unfold d'. rewrite addr_set_ne by mlia. destruct ind; [|done]. destruct B5 as [? Ho]. split; [lia|]. rewrite give_ne by lia. done.
  - intros j Hj. destruct (decide (j < nb * BSIZE)) as [Hlt|Hge].
    + rewrite Hba by mlia. apply B6. lia.
    + replace (j / BSIZE) with nb by mlia. rewrite Hnew, Habove by mlia. rewrite zeroes_lookup by mlia.
      rewrite lookup_ge_None_2 by lia. done.
Qed.

(** A new indirect block. *)
Lemma alloc_ind : holds im ow fb i d c nb false -> fb < FSSIZE ->
  let d' := set_d_addr (Z.to_nat NDIRECT) fb d in
  holds im (give ow fb (i, INDIRECT)) (fb + 1) i d' c nb true /\ addr d' NDIRECT = fb.
Proof.
  intros [[B1 B1'] (B2 & B2' & B2'' & B2''') B3 B4 B5 B6] Hfb d'.
  assert (nb <= NDIRECT) as Hnb by (destruct (decide (NDIRECT < nb)) as [H|H]; [specialize (B2'' H); done|lia]).
  assert (addr d' NDIRECT = fb) as Ha by (apply addr_set; [done|mlia]).
  assert (forall k, 0 <= k -> baddr im d' k = baddr im d k) as Hba.
  { intros k Hk. unfold baddr. destruct (Z.ltb_spec k NDIRECT).
    - unfold d'. apply addr_set_ne; mlia.
    - rewrite Ha, B5. rewrite !word_zero by (done || (apply Habove; mlia)). done. }
  split; [|done]. split.
  - unfold d'. cbn [set_d_addr d_addrs]. rewrite length_insert. split; [done|]. apply Forall_insert; [done|mlia].
  - split_and!; done || mlia.
  - intros k Hk. rewrite Hba by lia. destruct (B3 k Hk) as [? Ho]. split; [lia|]. rewrite give_ne by lia. done.
  - intros k Hk. rewrite Hba by lia. by apply B4.
  - rewrite Ha, give_same. split; [mlia|done].
  - intros j Hj. rewrite Hba by mlia. by apply B6.
Qed.

(** A new block behind the indirect one. *)
Lemma alloc_entry : holds im ow fb i d c nb true -> NDIRECT <= nb < MAXFILE -> fb < FSSIZE ->
  let a := addr d NDIRECT in
  let im' := upd im a (list_inserts (4 * Z.to_nat (nb - NDIRECT)) (le 4 fb) (sec im a)) in
  holds im' (give ow fb (i, nb)) (fb + 1) i d c (nb + 1) true /\ baddr im' d nb = fb /\ step i fb (fb + 1) ow (give ow fb (i, nb)) im im'.
Proof.
  intros [[B1 B1'] (B2 & B2' & B2'' & B2''') B3 B4 [B5 B5'] B6] Hnb Hfb a im'. fold a in B5, B5'.
  assert (length (sec im a) = Z.to_nat BSIZE) as Hlen by (apply sec_length; [done|mlia]).
  assert (sec im' a = list_inserts (4 * Z.to_nat (nb - NDIRECT)) (le 4 fb) (sec im a)) as Hsa by (apply sec_upd; [done|mlia]).
  assert (baddr im' d nb = fb) as Hnew.
  { unfold baddr. replace (nb <? NDIRECT) with false by lia. fold a. rewrite Hsa, word_at_inserts by mlia.
    apply Z.mod_small. mlia. }
  assert (forall k, 0 <= k -> k <> nb -> baddr im' d k = baddr im d k) as Hba.
  { intros k Hk Hkn. unfold baddr. destruct (k <? NDIRECT) eqn:E; [done|]. fold a. rewrite Hsa. apply word_at_inserts_ne. rewrite length_le. mlia. }
  assert (forall k o, 0 <= k < nb -> 0 <= o -> sec im' (baddr im d k) = sec im (baddr im d k)) as Hsec.
  { intros k o Hk _. apply sec_upd_ne; [mlia|destruct (B3 k Hk); mlia|]. intros E. destruct (B3 k Hk) as [_ Ho]. rewrite <- E, B5' in Ho. injection Ho. mlia. }
  split; [|split; [done|]].
  - split; [done|split_and!; (done || mlia)| | | |].
    + intros k Hk. destruct (decide (k = nb)) as [->|].
      * rewrite Hnew, give_same. split; [mlia|done].
      * rewrite Hba by lia. destruct (B3 k) as [? Ho]; [lia|]. split; [lia|]. rewrite give_ne by lia. done.
    + intros k Hk. rewrite Hba by lia. apply B4. lia.
    + fold a. split; [lia|]. rewrite give_ne by lia. done.
    + intros j Hj. destruct (decide (j < nb * BSIZE)) as [Hlt|Hge].
      * rewrite Hba, (Hsec _ 0) by mlia. apply B6. lia.
      * replace (j / BSIZE) with nb by mlia. rewrite Hnew. unfold im'. rewrite sec_upd_ne by mlia. rewrite Habove by mlia.
        rewrite zeroes_lookup by mlia. rewrite lookup_ge_None_2 by lia. done.
  - split.
    + apply image_upd; [done|]. by rewrite length_inserts.
    + lia.
    + intros b Hb Ho. apply sec_upd_ne; [mlia|lia|]. intros <-. rewrite B5' in Ho. cbn in Ho. destruct Ho; [mlia|done].
    + intros b Hb. apply give_ne. lia.
    + intros b Hb. unfold im'. rewrite sec_upd_ne by mlia. apply Habove. lia.
Qed.

(** Bytes put into the last block. *)
Lemma put_bytes ind q : holds im ow fb i d c nb ind ->
  let off := Z.of_nat (length c) in let fbn := off / BSIZE in
  fbn < nb -> off + Z.of_nat (length q) <= (fbn + 1) * BSIZE ->
  let x := baddr im d fbn in
  let im' := upd im x (list_inserts (Z.to_nat (off - fbn * BSIZE)) q (sec im x)) in
  holds im' ow fb i d (c ++ q) nb ind /\ step i fb fb ow ow im im'.
Proof.
  intros [[B1 B1'] (B2 & B2' & B2'' & B2''') B3 B4 B5 B6] off fbn Hf Hq x im'.
  destruct (B3 fbn) as [Hx Hxo]; [mlia|]. fold x in Hx, Hxo.
  assert (length (sec im x) = Z.to_nat BSIZE) as Hlen by (apply sec_length; [done|mlia]).
  assert (sec im' x = list_inserts (Z.to_nat (off - fbn * BSIZE)) q (sec im x)) as Hsx by (apply sec_upd; [done|mlia]).
  assert (forall k, baddr im' d k = baddr im d k) as Hba.
  { intros k. apply baddr_frame. apply sec_upd_ne; [mlia|destruct ind; [mlia|rewrite B5; lia]|]. intros E. destruct ind; [|mlia].
    destruct B5 as [_ Ho]. rewrite <- E, Hxo in Ho. injection Ho. mlia. }
  split.
  - split; [done|rewrite length_app; split_and!; (done || mlia)| | | |].
    + intros k Hk. rewrite Hba. by apply B3.
    + intros k Hk. rewrite Hba. by apply B4.
    + done.
    + intros j Hj. rewrite Hba. destruct (decide (j / BSIZE = fbn)) as [Ej|Ej].
      * rewrite Ej. fold x. rewrite Hsx. specialize (B6 j Hj). rewrite Ej in B6. fold x in B6.
        destruct (decide (j < off)) as [|Hjo]; [|destruct (decide (j < off + Z.of_nat (length q))) as [|Hjq]].
        -- rewrite list_lookup_inserts_lt by mlia. rewrite lookup_app_l by lia. done.
        -- rewrite list_lookup_inserts by mlia. rewrite lookup_app_r by lia.
           destruct (lookup_lt_is_Some_2 q (Z.to_nat j - length c)) as [y Hy]; [lia|]. rewrite Hy. cbn. rewrite <- Hy. f_equal. mlia.
        -- rewrite list_lookup_inserts_ge by mlia. rewrite B6. f_equal.
           rewrite !lookup_ge_None_2 by (rewrite ?length_app; lia). done.
      * assert ((c ++ q) !! Z.to_nat j = c !! Z.to_nat j) as ->.
        { destruct (decide (j < off)); [by rewrite lookup_app_l by lia|]. rewrite !lookup_ge_None_2 by (rewrite ?length_app; mlia). done. }
        rewrite <- B6 by done. f_equal. destruct (B3 (j / BSIZE)) as [? Ho]; [mlia|]. apply sec_upd_ne; [mlia|mlia|].
        intros E. rewrite <- E, Hxo in Ho. injection Ho. done.
  - split.
    + apply image_upd; [done|]. by rewrite length_inserts.
    + lia.
    + intros b Hb Ho. apply sec_upd_ne; [mlia|lia|]. intros <-. rewrite Hxo in Ho. cbn in Ho. destruct Ho; [mlia|done].
    + done.
    + intros b Hb. unfold im'. rewrite sec_upd_ne by mlia. by apply Habove.
Qed.
End Append.

(** The state of the program around the image: sector 0 is empty, so are the blocks not given out. *)
Record fresh (s : mkst) : Prop := {
  fr_image : image (img s);
  fr_zero : sec (img s) 0 = zeroes;
  fr_above : zero_above (img s) (freeblock s) }.

Definition head_of (d : dinode) := (d_type d, d_major d, d_minor d, d_nlink d, d_size d).

(** [s'] is reached from [s] by work on the inode [i]. *)
Definition moved (i : Z) (ow ow' : owner) (s s' : mkst) : Prop :=
  m_sb s' = m_sb s /\ freeinode s' = freeinode s /\ step i (freeblock s) (freeblock s') ow ow' (img s) (img s').

Lemma fresh_moved i ow ow' s s' : fresh s -> nmeta <= freeblock s -> moved i ow ow' s s' -> fresh s'.
Proof.
  intros [H1 H2 H3] Hm (_ & _ & [A1 A2 A3 A4 A5]). split; [done| |done]. rewrite A3; [done|mlia|left; mlia].
Qed.
Lemma moved_trans i ow1 ow2 ow3 s1 s2 s3 : moved i ow1 ow2 s1 s2 -> moved i ow2 ow3 s2 s3 -> moved i ow1 ow3 s1 s3.
Proof. intros (E1 & E2 & A) (E3 & E4 & B). split; [congruence|]. split; [congruence|]. by eapply step_trans. Qed.

Lemma file_block_old s d fbn : length (d_addrs d) = NADDRS -> 0 <= fbn < MAXFILE -> image (img s) ->
  0 < baddr (img s) d fbn < FSSIZE -> (NDIRECT <= fbn -> 0 < addr d NDIRECT < FSSIZE) ->
  file_block d fbn s = Ret (baddr (img s) d fbn, d) s.
Proof.
  intros Hl Hf Him Hb Ha. unfold file_block. unfold baddr in Hb |- *. revert Hb. destruct (Z.ltb_spec fbn NDIRECT); intros Hb.
  - rewrite addr_lookup by (done || lia). cbn [lift_opt]. rewrite bind_mret, xint_small by mlia.
    by replace (addr d fbn =? 0) with false by lia.
  - rewrite addr_lookup by (done || mlia). cbn [lift_opt]. rewrite bind_mret. specialize (Ha ltac:(lia)). rewrite xint_small by mlia.
    replace (addr d NDIRECT =? 0) with false by lia. rewrite (bind_Ret _ _ _ (addr d NDIRECT, d) s) by done. cbn beta iota.
    rewrite xint_small by mlia. rewrite (bind_Ret _ _ _ _ _ (rsect_eq (addr d NDIRECT) s Him ltac:(mlia))).
    cbn beta zeta. set (w := word_at (sec _ _) _ _) in *. replace (w =? 0) with false by lia. rewrite xint_small by mlia. done.
Qed.

Lemma file_block_direct s d fbn : length (d_addrs d) = NADDRS -> 0 <= fbn < NDIRECT -> addr d fbn = 0 -> 0 <= freeblock s < FSSIZE ->
  file_block d fbn s = Ret (freeblock s, set_d_addr (Z.to_nat fbn) (freeblock s) d) (set_freeblock (freeblock s + 1) s).
Proof.
  intros Hl Hf Ha Hb. unfold file_block. replace (fbn <? NDIRECT) with true by lia. rewrite addr_lookup by (done || lia).
  cbn [lift_opt]. rewrite bind_mret, Ha. change (xint 0 =? 0) with true. cbn iota.
  rewrite (bind_Ret _ _ _ _ _ (new_block_eq s ltac:(mlia))), xint_small by mlia. done.
Qed.

Lemma file_block_entry s d fbn : length (d_addrs d) = NADDRS -> NDIRECT <= fbn < MAXFILE -> image (img s) ->
  0 < addr d NDIRECT < FSSIZE -> baddr (img s) d fbn = 0 -> 0 <= freeblock s < FSSIZE ->
  let a := addr d NDIRECT in
  file_block d fbn s = Ret (freeblock s, d) (set_img (upd (img s) a (list_inserts (4 * Z.to_nat (fbn - NDIRECT)) (le 4 (freeblock s)) (sec (img s) a)))
    (set_freeblock (freeblock s + 1) s)).
Proof.
  intros Hl Hf Him Ha Hb Hfb a. unfold file_block. unfold baddr in Hb. replace (fbn <? NDIRECT) with false in * by lia.
  rewrite addr_lookup by (done || mlia). cbn [lift_opt]. rewrite bind_mret. fold a in Ha, Hb |- *. rewrite xint_small by mlia.
  replace (a =? 0) with false by lia. rewrite (bind_Ret _ _ _ (a, d) s) by done. cbn beta iota.
  rewrite xint_small by mlia. rewrite (bind_Ret _ _ _ _ _ (rsect_eq a _ Him ltac:(mlia))). rewrite Hb. cbn [Z.eqb].
  rewrite (bind_Ret _ _ _ _ _ (new_block_eq s ltac:(mlia))). rewrite (bind_Ret _ _ _ _ _ (wsect_eq a _ (set_freeblock _ s) Him ltac:(mlia))).
  rewrite xint_small by mlia. done.
Qed.

Lemma file_block_ind s d fbn : length (d_addrs d) = NADDRS -> NDIRECT <= fbn < MAXFILE -> image (img s) ->
  addr d NDIRECT = 0 -> 0 < freeblock s < FSSIZE ->
  file_block d fbn s = file_block (set_d_addr (Z.to_nat NDIRECT) (freeblock s) d) fbn (set_freeblock (freeblock s + 1) s).
Proof.
  intros Hl Hf Him Ha Hfb. unfold file_block. replace (fbn <? NDIRECT) with false by lia. set (d' := set_d_addr _ _ d).
  assert (length (d_addrs d') = NADDRS) as Hl' by (unfold d'; cbn [set_d_addr d_addrs]; by rewrite length_insert).
  assert (addr d' NDIRECT = freeblock s) as Ha' by (apply addr_set; [done|mlia]).
  rewrite !addr_lookup by (done || mlia). cbn [lift_opt]. rewrite !bind_mret, Ha, Ha'. change (xint 0 =? 0) with true. cbn iota.
  rewrite xint_small by mlia. replace (freeblock s =? 0) with false by lia.
  rewrite (bind_Ret _ _ _ (freeblock s, d') (set_freeblock (freeblock s + 1) s)).
  - rewrite (bind_Ret (mret (freeblock s, d')) _ _ (freeblock s, d') (set_freeblock (freeblock s + 1) s)) by done. done.
  - by rewrite (bind_Ret _ _ _ _ _ (new_block_eq s ltac:(mlia))).
Qed.

(** The block [fbn] is there or the next one; afterwards it is there. *)
Lemma file_block_ok s i ow d c nb fbn : fresh s -> holds (img s) ow (freeblock s) i d c nb (NDIRECT <? nb) ->
  0 <= fbn < MAXFILE -> nb = fbn \/ nb = fbn + 1 -> freeblock s + blocks (fbn + 1) - blocks nb <= FSSIZE ->
  exists d' ow' s', file_block d fbn s = Ret (baddr (img s') d' fbn, d') s' /\ moved i ow ow' s s' /\
    freeblock s' = freeblock s + blocks (fbn + 1) - blocks nb /\ head_of d' = head_of d /\
    holds (img s') ow' (freeblock s') i d' c (fbn + 1) (NDIRECT <? fbn + 1).
Proof.
  intros Hs Hh Hf Hnb Hfb. pose proof Hs as [Him Hz Hab]. pose proof Hh as [[Hl _] (_ & _ & _ & Hfb') Hblk Hfree Hind _].
  destruct Hnb as [->| ->].
  - specialize (Hfree fbn ltac:(lia)). unfold blocks in Hfb |- *. destruct (Z.ltb_spec NDIRECT fbn) as [Hlt|Hle].
    + (* behind the indirect block *)
      replace (NDIRECT <? fbn + 1) with true in * by lia.
      destruct (alloc_entry i (freeblock s) ow (img s) d c fbn Him Hab Hh ltac:(lia) ltac:(lia)) as (H1 & H2 & H3).
      exists d. eexists _, (set_img _ (set_freeblock (freeblock s + 1) s)). split; [|split; [|split; [|split; [done|]]]].
      * rewrite file_block_entry by (done || mlia). cbn [img set_img]. by rewrite H2.
      * split; [done|]. split; [done|]. cbn [img set_img set_freeblock freeblock]. exact H3.
      * cbn [freeblock set_img set_freeblock]. lia.
      * exact H1.
    + destruct (decide (fbn = NDIRECT)) as [->|Hne].
      * (* the indirect block as well *)
        change (NDIRECT <? NDIRECT + 1) with true in *. rewrite file_block_ind by (done || mlia).
        destruct (alloc_ind i (freeblock s) ow (img s) d c NDIRECT Hz Hab Hh ltac:(mlia)) as [H1 H2].
        set (d1 := set_d_addr _ _ d) in *. set (ow1 := give _ _ _) in *.
        assert (zero_above (img s) (freeblock s + 1)) as Hab1 by (intros b Hb; apply Hab; lia).
        destruct (alloc_entry i (freeblock s + 1) ow1 (img s) d1 c NDIRECT Him Hab1 H1 ltac:(mlia) ltac:(mlia)) as (H3 & H4 & H5).
        exists d1. eexists _, (set_img _ (set_freeblock (freeblock s + 1 + 1) s)). split; [|split; [|split; [|split; [done|]]]].
        -- pose proof H1 as [[Hl1 _] _ _ Hfree1 _ _]. rewrite file_block_entry; cbn [img set_freeblock freeblock]; try done; try mlia.
           ++ cbn [img set_img]. by rewrite H4.
           ++ apply Hfree1. mlia.
        -- split; [done|]. split; [done|]. cbn [img set_img set_freeblock freeblock]. eapply step_trans; [|exact H5]. by apply step_give.
        -- cbn [freeblock set_img set_freeblock]. change (NDIRECT <? NDIRECT) with false in *. lia.
        -- exact H3.
      * replace (NDIRECT <? fbn + 1) with false in * by lia.
        destruct (alloc_direct i (freeblock s) ow (img s) d c fbn Hab _ Hh ltac:(lia) ltac:(lia)) as [H1 H2].
        eexists _, _, (set_freeblock (freeblock s + 1) s). split; [|split; [|split; [|split]]].
        -- rewrite file_block_direct; [cbn [img set_freeblock]; by rewrite H2|done|lia| |mlia].
           unfold baddr in Hfree. by replace (fbn <? NDIRECT) with true in Hfree by lia.
        -- split; [done|]. split; [done|]. cbn [img set_freeblock freeblock]. by apply step_give.
        -- cbn [freeblock set_freeblock]. lia.
        -- done.
        -- exact H1.
  - destruct (Hblk fbn) as [Hb _]; [lia|]. exists d, ow, s. split; [|split; [|split; [lia|split; [done|done]]]].
    + apply file_block_old; [done|done|done|mlia|]. intros Hge. replace (NDIRECT <? fbn + 1) with true in Hind by lia. mlia.
    + split; [done|]. split; [done|]. by apply step_refl.
Qed.

Abbreviation zlen l := (Z.of_nat (length l)).
Definition stored (im : list (list Z)) (ow : owner) (fb i : Z) (d : dinode) (c : list Z) : Prop :=
  holds im ow fb i d c (nblk (zlen c)) (NDIRECT <? nblk (zlen c)).
Definition need (c : list Z) : Z := blocks (nblk (zlen c)).

Lemma blocks_mono n n' : n <= n' -> blocks n <= blocks n'.
Proof. unfold blocks. destruct (Z.ltb_spec NDIRECT n), (Z.ltb_spec NDIRECT n'); lia. Qed.
Lemma need_app c p : need c <= need (c ++ p).
Proof. apply blocks_mono. rewrite length_app. unfold nblk. mlia. Qed.

(** One round of the loop puts the bytes [q] into one block. *)
Lemma iappend_round s i ow d c q : fresh s -> stored (img s) ow (freeblock s) i d c -> q <> [] ->
  let off := zlen c in let fbn := off / BSIZE in
  off + zlen q <= (fbn + 1) * BSIZE -> fbn < MAXFILE -> freeblock s + need (c ++ q) - need c <= FSSIZE ->
  exists d' ow' s1 x, file_block d fbn s = Ret (x, d') s1 /\ 0 <= x < FSSIZE /\ image (img s1) /\
    let s' := set_img (upd (img s1) x (list_inserts (Z.to_nat (off - fbn * BSIZE)) q (sec (img s1) x))) s1 in
    moved i ow ow' s s' /\ freeblock s' = freeblock s + need (c ++ q) - need c /\ head_of d' = head_of d /\
    stored (img s') ow' (freeblock s') i d' (c ++ q).
Proof.
  intros Hs Hh Hq off fbn Hfit Hmax Hfb.
  assert (nblk (zlen (c ++ q)) = fbn + 1) as Enb.
  { rewrite length_app. assert (0 < length q)%nat by (by destruct q; cbn; [|lia]). unfold nblk. mlia. }
  assert (nblk (zlen c) = fbn \/ nblk (zlen c) = fbn + 1) as Hnb by (unfold nblk; mlia).
  unfold need in Hfb |- *. rewrite Enb in Hfb |- *.
  destruct (file_block_ok s i ow d c _ fbn Hs Hh ltac:(mlia) Hnb Hfb) as (d' & ow' & s1 & E & Hm & Hfb1 & Hd & Hh1).
  pose proof Hh as [_ (_ & _ & _ & Hfbs) _ _ _ _]. pose proof (fresh_moved _ _ _ _ _ Hs ltac:(lia) Hm) as Hs1. pose proof Hs1 as [Him1 _ Hab1].
  pose proof Hh1 as [_ _ Hblk1 _ _ _]. destruct (Hblk1 fbn ltac:(mlia)) as [Hx _].
  destruct (put_bytes i (freeblock s1) ow' (img s1) d' c (fbn + 1) Him1 Hab1 _ q Hh1 ltac:(fold off; fold fbn; lia) Hfit) as [Hp Hst].
  exists d', ow', s1, (baddr (img s1) d' fbn). split; [exact E|]. split; [mlia|]. split; [done|]. cbn [img set_img freeblock].
  split; [|split; [lia|split; [done|]]].
  - destruct Hm as (Hm1 & Hm2 & Hm3). split; [done|]. split; [done|]. cbn [img set_img freeblock]. by eapply step_trans.
  - unfold stored. rewrite Enb. exact Hp.
Qed.

Lemma iappend_loop_ok i : forall rounds p s ow d c, fresh s -> stored (img s) ow (freeblock s) i d c ->
  zlen (c ++ p) <= MAXFILE * BSIZE -> freeblock s + need (c ++ p) - need c <= FSSIZE -> (length p < rounds)%nat ->
  exists d' ow' s', iappend_loop rounds d (zlen c) p s = Ret (d', zlen (c ++ p)) s' /\ moved i ow ow' s s' /\
    freeblock s' = freeblock s + need (c ++ p) - need c /\ head_of d' = head_of d /\ stored (img s') ow' (freeblock s') i d' (c ++ p).
Proof.
  induction rounds as [|rounds IH]; intros p s ow d c Hs Hh Hmax Hfb Hr; [lia|]. cbn [iappend_loop].
  destruct (decide (p = [])) as [->|Hp].
  - rewrite app_nil_r in *. exists d, ow, s. destruct Hs as [H1 _ H3]. split; [done|]. split; [|split; [lia|done]].
    split; [done|]. split; [done|]. by apply step_refl.
  - assert (0 < length p)%nat as Hlp by (by destruct p; cbn; [|lia]). replace (0 <? zlen p) with true by lia.
    set (off := zlen c) in *. set (fbn := off / BSIZE) in *. set (n1 := Z.to_nat (Z.min (zlen p) ((fbn + 1) * BSIZE - off))).
    assert (0 < n1 /\ n1 <= length p)%nat as [Hn1 Hn1p] by mlia. assert (length (take n1 p) = n1) as Hq by (rewrite length_take; lia).
    rewrite length_app in Hmax. assert (c ++ p = (c ++ take n1 p) ++ drop n1 p) as Ecp by (by rewrite <- app_assoc, take_drop).
    pose proof (need_app (c ++ take n1 p) (drop n1 p)) as Hneed. rewrite <- Ecp in Hneed.
    assert (take n1 p <> []) as Hqne by (intros E; rewrite E in Hq; cbn in Hq; lia).
    destruct (iappend_round s i ow d c (take n1 p) Hs Hh Hqne) as (d1 & ow1 & s1 & x & E & Hx & Him1 & Hm1 & Hfb1 & Hd1 & Hh1);
      [rewrite Hq; fold off fbn; mlia|mlia|lia|]. fold off fbn in E, Hm1, Hfb1, Hh1.
    set (s' := set_img _ s1) in *. unfold assert. replace (fbn <? MAXFILE) with true by mlia.
    rewrite bind_mret, (bind_Ret _ _ _ _ _ E). cbn beta iota. rewrite (bind_Ret _ _ _ _ _ (rsect_eq x s1 Him1 Hx)).
    rewrite (bind_Ret _ _ _ _ _ (wsect_eq x _ s1 Him1 Hx)). fold n1. fold s'. rewrite u32_small by mlia.
    pose proof Hh as [_ (_ & _ & _ & Hfbs) _ _ _ _]. pose proof (fresh_moved _ _ _ _ _ Hs ltac:(lia) Hm1) as Hs1.
    replace (off + Z.of_nat n1) with (zlen (c ++ take n1 p)) by (rewrite length_app; lia).
    destruct (IH (drop n1 p) s' ow1 d1 (c ++ take n1 p) Hs1 Hh1) as (d2 & ow2 & s2 & -> & Hm2 & Hfb2 & Hd2 & Hh2);
      rewrite <- ?Ecp; [rewrite length_app; lia|lia|rewrite length_drop; lia|]. rewrite <- Ecp in *.
    exists d2, ow2, s2. split; [done|]. split; [by eapply moved_trans|]. split; [lia|]. split; [congruence|done].
Qed.

(** ** Inodes *)

Definition INODES : Z := ninodeblocks * IPB.
Definition iblock (i : Z) : Z := IBLOCK i main_sb.
Definition inode (im : list (list Z)) (i : Z) : dinode := dinode_at (sec im (iblock i)) (dinode_off i).
Definition put_inode (i : Z) (d : dinode) (im : list (list Z)) : list (list Z) :=
  upd im (iblock i) (list_inserts (dinode_off i) (dinode_bytes d) (sec im (iblock i))).
Definition no_inode : dinode := Dinode 0 0 0 0 0 (replicate NADDRS 0).

Lemma iblock_eq i : 0 <= i < INODES -> iblock i = 32 + i / 16.
Proof.
  unfold iblock, IBLOCK. change IPB with 16. change (sb_inodestart main_sb) with 32. change INODES with 208. intros H. rewrite u32_small; lia.
Qed.
Lemma dinode_off_eq i : dinode_off i = Z.to_nat (i mod 16 * 64).
Proof. reflexivity. Qed.

Section Inodes.
Context (im : list (list Z)) (i : Z).
Hypothesis Him : image im.
Hypothesis Hi : 0 <= i < INODES.

Lemma iblock_range : 32 <= iblock i < 45.
Proof using Hi. rewrite iblock_eq by done. change INODES with 208 in Hi. lia. Qed.

Lemma inode_put d : dinode_ok d -> inode (put_inode i d im) i = d.
Proof using Him Hi.
  intros Hd. pose proof iblock_range. unfold inode, put_inode. rewrite sec_upd by (done || mlia). apply dinode_at_inserts_same; [|done].
  rewrite sec_length, dinode_off_eq by (done || mlia). mlia.
Qed.

Lemma inode_put_ne j d : 0 <= j < INODES -> j <> i -> dinode_ok d -> inode (put_inode i d im) j = inode im j.
Proof using Him Hi.
  intros Hj Hne [_ _ [Hd _]]. pose proof iblock_range. unfold inode, put_inode. destruct (decide (iblock j = iblock i)) as [E|E].
  - rewrite E. rewrite sec_upd by (done || mlia). apply dinode_at_inserts_ne; [|by apply length_dinode_bytes].
    rewrite !iblock_eq in E by done. rewrite !dinode_off_eq. change INODES with 208 in *. lia.
  - rewrite sec_upd_ne; [done|lia| |done]. rewrite iblock_eq by done. change INODES with 208 in *. lia.
Qed.

Lemma sec_put_inode d b : 0 <= b -> b < 32 \/ 45 <= b -> sec (put_inode i d im) b = sec im b.
Proof using Him Hi. intros Hb H. pose proof iblock_range. apply sec_upd_ne; lia. Qed.

Lemma image_put_inode d : image (put_inode i d im).
Proof using Him Hi. pose proof iblock_range. apply image_upd; [done|]. rewrite length_inserts. apply sec_length; [done|mlia]. Qed.
End Inodes.

Lemma winode_eq i d s : image (img s) -> m_sb s = main_sb -> 0 <= i < INODES -> winode i d s = Ret tt (set_img (put_inode i d (img s)) s).
Proof.
  intros H1 H2 H3. pose proof (iblock_range i H3). unfold winode. rewrite (bind_Ret get _ s s s) by done. rewrite H2. fold (iblock i).
  rewrite (bind_Ret _ _ _ _ _ (rsect_eq (iblock i) s H1 ltac:(mlia))). apply wsect_eq; [done|mlia].
Qed.
Lemma rinode_eq i s : image (img s) -> m_sb s = main_sb -> 0 <= i < INODES -> rinode i s = Ret (inode (img s) i) s.
Proof.
  intros H1 H2 H3. pose proof (iblock_range i H3). unfold rinode. rewrite (bind_Ret get _ s s s) by done. rewrite H2. fold (iblock i).
  rewrite (bind_Ret _ _ _ _ _ (rsect_eq (iblock i) s H1 ltac:(mlia))). done.
Qed.

(** ** The image so far

    [A] lists the type and the contents of the inodes from 1 on. *)
Abbreviation files := (list (Z * list Z)).
Definition total (A : files) : Z := nmeta + foldr (fun f n => need (snd f) + n) 0 A.

Record inode_is (im : list (list Z)) (ow : owner) (fb i t : Z) (c : list Z) : Prop := {
  ii_type : d_type (inode im i) = t /\ 0 <= t < 2 ^ 16;
  ii_rest : d_major (inode im i) = 0 /\ d_minor (inode im i) = 0 /\ d_nlink (inode im i) = 1;
  ii_stored : stored im ow fb i (inode im i) c }.

Record built (s : mkst) (ow : owner) (A : files) : Prop := {
  bu_fresh : fresh s;
  bu_sb : m_sb s = main_sb;
  bu_ino : freeinode s = 1 + zlen A /\ zlen A < NINODES;
  bu_blocks : freeblock s = total A /\ total A <= FSSIZE;
  bu_super : sec (img s) 1 = list_inserts 0 (superblock_bytes main_sb) zeroes;
  bu_log : forall b, 2 <= b < 32 -> sec (img s) b = zeroes;
  bu_inodes : forall k t c, A !! k = Some (t, c) -> inode_is (img s) ow (freeblock s) (1 + Z.of_nat k) t c /\ d_size (inode (img s) (1 + Z.of_nat k)) = zlen c;
  bu_free : forall i, 1 + zlen A <= i < INODES -> inode (img s) i = no_inode }.

Lemma total_insert A k t c t' c' : A !! k = Some (t, c) -> total (<[k := (t', c')]> A) = total A + need c' - need c.
Proof.
  unfold total. revert k. induction A as [|f A IH]; intros [|k] H; try done.
  - injection H as ->. change (<[0%nat := (t', c')]> ((t, c) :: A)) with ((t', c') :: A). cbn [foldr snd]. lia.
  - change (<[S k := (t', c')]> (f :: A)) with (f :: <[k := (t', c')]> A). specialize (IH k H). cbn [foldr]. lia.
Qed.
Lemma need_nonneg c : 0 <= need c.
Proof. unfold need, blocks. destruct (NDIRECT <? nblk (zlen c)); unfold nblk; mlia. Qed.
Lemma total_ge A : nmeta <= total A.
Proof. unfold total. induction A as [|f A IH]; cbn; [lia|]. pose proof (need_nonneg (snd f)). lia. Qed.

Lemma inode_sec im im' j : 0 <= j < INODES -> (forall b, 32 <= b < 45 -> sec im' b = sec im b) -> inode im' j = inode im j.
Proof. intros Hj H. unfold inode. by rewrite H by (by apply iblock_range). Qed.
Lemma inode_step i fb fb' ow ow' im im' j : step i fb fb' ow ow' im im' -> nmeta <= fb -> 0 <= j < INODES -> inode im' j = inode im j.
Proof. intros [_ _ H _ _] Hf Hj. apply inode_sec; [done|]. intros b Hb. apply H; [mlia|left; mlia]. Qed.

Lemma stored_size im ow fb i d c n : stored im ow fb i d c -> stored im ow fb i (set_d_size n d) c.
Proof. intros [H1 H2 H3 H4 H5 H6]. by split. Qed.

(** Writing an inode leaves the contents of all as they are. *)
Lemma stored_put im ow fb i j d d' c : image im -> 0 <= i < INODES -> stored im ow fb j d' c -> stored (put_inode i d im) ow fb j d' c.
Proof.
  intros Him Hi H. pose proof H as [_ (_ & _ & _ & Hfb) _ _ _ _]. revert H. unfold stored. apply holds_ext; [lia| |done]. intros b Hb Hor. apply sec_put_inode; [done|done|lia|].
  destruct Hor as [->|[? _]]; [lia|right; mlia].
Qed.

Lemma fresh_put s i d : fresh s -> nmeta <= freeblock s -> 0 <= i < INODES -> fresh (set_img (put_inode i d (img s)) s).
Proof.
  intros [H1 H2 H3] Hfb Hi. split; cbn [img set_img freeblock].
  - by apply image_put_inode.
  - rewrite sec_put_inode by (done || lia). done.
  - intros b Hb. rewrite sec_put_inode by (done || mlia). by apply H3.
Qed.

Lemma head_of_eq d d' : head_of d' = head_of d -> d_type d' = d_type d /\ d_major d' = d_major d /\ d_minor d' = d_minor d /\ d_nlink d' = d_nlink d.
Proof. unfold head_of. by intros [= -> -> -> -> _]. Qed.

Lemma iappend_ok s ow A k t c p : built s ow A -> A !! k = Some (t, c) -> zlen (c ++ p) <= MAXFILE * BSIZE ->
  total (<[k := (t, c ++ p)]> A) <= FSSIZE ->
  exists ow' s', iappend (1 + Z.of_nat k) p s = Ret tt s' /\ built s' ow' (<[k := (t, c ++ p)]> A).
Proof.
  intros [Hf Hsb (Hino & Hlen) (Hfb & Htot) Hsup Hlog Hin Hfree] Hk Hmax Hcap. set (i := 1 + Z.of_nat k).
  pose proof (lookup_lt_Some _ _ _ Hk) as HkA. assert (0 <= i < INODES) as Hi by (change INODES with 208; unfold NINODES in Hlen; lia).
  pose proof (total_ge A) as Hge. pose proof Hf as [Him Hz Hab]. destruct (Hin k t c Hk) as [[[Ht Ht'] (Hmaj & Hmin & Hnl) Hst] Hsz]. fold i in Ht, Hmaj, Hmin, Hnl, Hst, Hsz.
  rewrite (total_insert A k t c t _ Hk) in Hcap. assert (zlen (c ++ p) < 2 ^ 31) as H31 by mlia. assert (zlen c < 2 ^ 31) by (rewrite length_app in H31; lia).
  destruct (iappend_loop_ok i (S (length p)) p s ow (inode (img s) i) c Hf Hst Hmax ltac:(lia) ltac:(lia)) as (d' & ow' & s1 & E & Hm & Hfb1 & Hhd & Hst').
  pose proof (fresh_moved _ _ _ _ _ Hf ltac:(lia) Hm) as Hf1. destruct Hm as (Hsb1 & Hino1 & Hstep). set (d2 := set_d_size (zlen (c ++ p)) d').
  apply head_of_eq in Hhd as (H1 & H2 & H3 & H4).
  assert (dinode_ok d2) as Hd2.
  { pose proof Hst' as [Ha _ _ _ _ _]. split; unfold d2; cbn [set_d_size d_type d_major d_minor d_nlink d_size d_addrs]; [rewrite H1, H2, H3, H4; lia|lia|done]. }
  exists ow', (set_img (put_inode i d2 (img s1)) s1). pose proof Hf1 as [Him1 Hz1 Hab1]. pose proof Hstep as [_ Hfbs Hsec Hows _].
  assert (forall k' t' c', A !! k' = Some (t', c') -> k' <> k -> let j := 1 + Z.of_nat k' in
    inode (put_inode i d2 (img s1)) j = inode (img s) j /\ stored (put_inode i d2 (img s1)) ow' (freeblock s1) j (inode (img s) j) c') as Hother.
  { intros k' t' c' Hk' Hne j. pose proof (lookup_lt_Some _ _ _ Hk'). assert (0 <= j < INODES) as Hj by (change INODES with 208; unfold NINODES in Hlen; lia). split.
    - rewrite inode_put_ne by (done || lia). eapply inode_step; [exact Hstep|lia|done].
    - apply stored_put; [done|done|]. destruct (Hin k' t' c' Hk') as [[_ _ Hs'] _]. revert Hs'. apply (holds_frame i); [exact Hstep|lia|lia]. }
  split.
  - unfold iappend. rewrite (bind_Ret _ _ _ _ _ (rinode_eq i s Him Hsb Hi)), Hsz, xint_small by lia. rewrite (bind_Ret _ _ _ _ _ E).
    rewrite xint_small by lia. apply winode_eq; [done|congruence|done].
  - split; cbn [img set_img freeblock freeinode m_sb].
    + apply fresh_put; [done|lia|done].
    + congruence.
    + rewrite length_insert. split; [congruence|done].
    + rewrite (total_insert A k t c t _ Hk). lia.
    + rewrite sec_put_inode by (done || lia). rewrite Hsec; [done|mlia|left; mlia].
    + intros b Hb. rewrite sec_put_inode by (done || lia). rewrite Hsec; [by apply Hlog|mlia|left; mlia].
    + intros k' t' c' Hk'. destruct (decide (k' = k)) as [->|Hne].
      * rewrite list_lookup_insert_eq in Hk' by done. injection Hk' as <- <-. fold i.
        assert (inode (put_inode i d2 (img s1)) i = d2) as E2 by (by apply inode_put).
        split; [|by rewrite E2]. split; rewrite E2; unfold d2; cbn [set_d_size d_type d_major d_minor d_nlink]; [split; [congruence|done]|split_and!; congruence|].
        apply stored_put; [done|done|]. by apply stored_size.
      * rewrite list_lookup_insert_ne in Hk' by done. destruct (Hother k' t' c' Hk' Hne) as [Ei Hs']. destruct (Hin k' t' c' Hk') as [[? ? _] ?].
        rewrite Ei. split; [|done]. split; rewrite Ei; done.
    + intros j Hj. rewrite length_insert in Hj. rewrite inode_put_ne by (done || lia). rewrite <- (Hfree j) by done. eapply inode_step; [exact Hstep|lia|lia].
Qed.

Lemma total_app A B : total (A ++ B) = total A + (total B - nmeta).
Proof. unfold total. induction A as [|f A IH]; cbn [app foldr]; lia. Qed.

Definition new_inode (t : Z) : dinode := Dinode t 0 0 1 0 (replicate NADDRS 0).
Lemma new_inode_ok t : 0 <= t < 2 ^ 16 -> dinode_ok (new_inode t).
Proof. intros H. split; cbn; [lia|lia|]. split; [done|]. repeat constructor; lia. Qed.

Lemma stored_new im ow fb i t : sec im 0 = zeroes -> nmeta <= fb <= FSSIZE -> stored im ow fb i (new_inode t) [].
Proof.
  intros Hz Hfb. assert (forall k, addr (new_inode t) k = 0) as Ha.
  { intros k. unfold addr, new_inode. cbn [d_addrs]. destruct (replicate NADDRS 0 !! Z.to_nat k) as [a|] eqn:E; [|done].
    apply lookup_replicate in E as [-> _]. done. }
  assert (forall k, baddr im (new_inode t) k = 0) as Hb.
  { intros k. unfold baddr. rewrite !Ha, Hz, word_at_zeroes. by destruct (k <? NDIRECT). }
  split.
  - split; [done|]. repeat constructor; lia.
  - split_and!; (done || lia).
  - intros k Hk. exfalso. change (nblk (zlen [])) with 0 in Hk. lia.
  - intros k _. apply Hb.
  - apply Ha.
  - intros j Hj. exfalso. change (nblk (zlen [])) with 0 in Hj. lia.
Qed.

Lemma ialloc_ok s ow A t : built s ow A -> zlen A + 1 < NINODES -> 0 <= t < 2 ^ 16 ->
  exists s', ialloc t s = Ret (1 + zlen A) s' /\ built s' ow (A ++ [(t, [])]).
Proof.
  intros [Hf Hsb (Hino & Hlen) (Hfb & Htot) Hsup Hlog Hin Hfree] Hn Ht. remember (1 + zlen A) as i eqn:Ei. pose proof Hf as [Him Hz Hab].
  pose proof (total_ge A) as Hge. assert (0 <= i < INODES) as Hi by (change INODES with 208; unfold NINODES in *; lia).
  pose proof (new_inode_ok t Ht) as Hd. set (s1 := set_freeinode (i + 1) s).
  exists (set_img (put_inode i (new_inode t) (img s)) s1). split.
  - unfold ialloc. rewrite (bind_Ret _ _ _ i s) by (unfold gets; by rewrite Hino). rewrite u32_small by (change INODES with 208 in Hi; lia).
    rewrite (bind_Ret _ _ _ tt s1) by done. rewrite !xshort_small, xint_small by lia. fold (new_inode t).
    by rewrite (bind_Ret _ _ _ _ _ (winode_eq i (new_inode t) s1 Him Hsb Hi)).
  - split; cbn [img set_img freeblock freeinode m_sb].
    + apply (fresh_put s1); [by destruct Hf|cbn [freeblock s1 set_freeinode]; lia|done].
    + done.
    + rewrite length_app. cbn [length]. unfold s1. cbn [freeinode set_freeinode]. lia.
    + rewrite total_app. change (total [(t, [])]) with nmeta. cbn [freeblock s1 set_freeinode]. lia.
    + rewrite sec_put_inode by (done || lia). done.
    + intros b Hb. rewrite sec_put_inode by (done || lia). by apply Hlog.
    + intros k t' c' Hk. cbn [freeblock s1 set_freeinode]. apply lookup_app_Some in Hk as [Hk|[Hk1 Hk]].
      * pose proof (lookup_lt_Some _ _ _ Hk). destruct (Hin k t' c' Hk) as [[H1 H2 H3] H4].
        assert (inode (put_inode i (new_inode t) (img s)) (1 + Z.of_nat k) = inode (img s) (1 + Z.of_nat k)) as E.
        { apply inode_put_ne; (done || lia). }
        rewrite E. split; [|done]. split; rewrite E; [done|done|]. by apply stored_put.
      * apply list_lookup_singleton_Some in Hk as [Hk2 [= <- <-]]. replace (1 + Z.of_nat k) with i by lia.
        assert (inode (put_inode i (new_inode t) (img s)) i = new_inode t) as E by (by apply inode_put).
        rewrite E. split; [|done]. split; rewrite E; [done|done|]. apply stored_put; [done|done|]. apply stored_new; [done|lia].
    + intros j Hj. rewrite length_app in Hj. cbn [length] in Hj. rewrite inode_put_ne by (done || lia). apply Hfree. lia.
Qed.

(** ** Copying files *)

(** The directory entries of the files, which get the inodes from [inum] on. *)
Fixpoint entries (inum : Z) (paths : list (list Z)) : list Z :=
  match paths with
  | [] => []
  | path :: paths' => dirent_bytes inum (de_name (chop (shortname path))) ++ entries (inum + 1) paths'
  end.

Lemma length_dirent inum name : zlen (dirent_bytes inum (de_name name)) = 16.
Proof.
  unfold dirent_bytes, de_name. rewrite length_app, length_le, length_take, length_app, length_replicate. change (Z.to_nat DIRSIZ) with 14%nat. lia.
Qed.
Lemma length_entries inum paths : zlen (entries inum paths) = 16 * zlen paths.
Proof.
  revert inum. induction paths as [|p ps IH]; intros inum; [done|]. cbn [entries length]. rewrite length_app, Nat2Z.inj_add, length_dirent, IH. lia.
Qed.

Lemma total_mono (A B : files) : Forall2 (fun a b => need (snd a) <= need (snd b)) A B -> total A <= total B.
Proof. unfold total. induction 1; cbn [foldr]; lia. Qed.

Section Files.
Context (host : list Z -> option (list (list Z))).

(** The file at [path] can be read and holds [c]. *)
Definition source (path c : list Z) : Prop := exists reads, host path = Some reads /\ Forall (fun l => l <> []) reads /\ c = concat reads.
Definition no_slash (path : list Z) : Prop := 47 ∉ shortname path.

Lemma copy_in_file_ok k t : forall reads s ow A c, built s ow A -> A !! k = Some (t, c) -> Forall (fun l => l <> []) reads ->
  zlen (c ++ concat reads) <= MAXFILE * BSIZE -> total (<[k := (t, c ++ concat reads)]> A) <= FSSIZE ->
  exists ow' s', copy_in_file (1 + Z.of_nat k) reads s = Ret tt s' /\ built s' ow' (<[k := (t, c ++ concat reads)]> A).
Proof.
  induction reads as [|l reads IH]; intros s ow A c Hb Hk Hne Hmax Hcap; cbn [concat] in *.
  - exists ow, s. rewrite app_nil_r in *. rewrite list_insert_id by done. done.
  - apply Forall_cons_1 in Hne as [Hl Hne]. assert (0 < length l)%nat by (by destruct l; cbn; [|lia]).
    rewrite app_assoc in Hmax, Hcap. rewrite (total_insert A k t c t _ Hk) in Hcap. pose proof (need_app (c ++ l) (concat reads)).
    destruct (iappend_ok s ow A k t c l Hb Hk) as (ow1 & s1 & E & Hb1);
      [rewrite length_app in Hmax; lia|rewrite (total_insert A k t c t _ Hk); lia|].
    assert (k < length A)%nat as HkA by (by eapply lookup_lt_Some).
    destruct (IH s1 ow1 _ (c ++ l) Hb1 (list_lookup_insert_eq _ _ _ HkA) Hne Hmax) as (ow2 & s2 & E2 & Hb2).
    { rewrite list_insert_insert_eq, (total_insert A k t c t _ Hk). lia. }
    exists ow2, s2. cbn [copy_in_file]. replace (0 <? zlen l) with true by lia. rewrite (bind_Ret _ _ _ _ _ E), E2. split; [done|].
    by rewrite list_insert_insert_eq, <- app_assoc in Hb2.
Qed.

Lemma add_file_ok s ow root F path c : built s ow ((T_DIR, root) :: F) -> source path c -> no_slash path -> zlen c <= MAXFILE * BSIZE ->
  2 + zlen F < NINODES -> zlen root + 16 <= MAXFILE * BSIZE ->
  let A := (T_DIR, root ++ dirent_bytes (2 + zlen F) (de_name (chop (shortname path)))) :: F ++ [(T_FILE, c)] in total A <= FSSIZE ->
  exists ow' s', add_file host ROOTINO path s = Ret tt s' /\ built s' ow' A.
Proof.
  intros Hb (reads & Hhost & Hne & ->) Hslash Hmax Hn Hroot A Hcap. unfold A in *. clear A. set (e := dirent_bytes _ _) in *.
  destruct (ialloc_ok s ow _ T_FILE Hb) as (s1 & E1 & Hb1); [cbn [length]; lia|done|].
  assert (1 + zlen ((T_DIR, root) :: F) = 2 + zlen F) as Ei by (cbn [length]; lia). rewrite Ei in E1. cbn [app] in Hb1.
  assert (total ((T_DIR, root ++ e) :: F ++ [(T_FILE, [])]) <= FSSIZE) as Hcap1.
  { etransitivity; [apply total_mono|exact Hcap]. constructor; [done|]. apply Forall2_app; [by apply Forall_Forall2_diag, Forall_true|].
    repeat constructor. cbn [snd]. apply (need_app []). }
  destruct (iappend_ok s1 ow _ 0%nat T_DIR root e Hb1 eq_refl) as (ow2 & s2 & E2 & Hb2);
    [rewrite length_app, Nat2Z.inj_add; unfold e; rewrite length_dirent; lia|done|].
  change (<[0%nat := (T_DIR, root ++ e)]> ((T_DIR, root) :: F ++ [(T_FILE, [])])) with ((T_DIR, root ++ e) :: F ++ [(T_FILE, @nil Z)]) in Hb2.
  set (k := S (length F)). assert (forall x y, <[k := x]> ((T_DIR, root ++ e) :: F ++ [y]) = (T_DIR, root ++ e) :: F ++ [x]) as Hins.
  { intros x y. unfold k. change (<[S (length F) := x]> ((T_DIR, root ++ e) :: F ++ [y])) with ((T_DIR, root ++ e) :: <[length F := x]> (F ++ [y])).
    rewrite insert_app_r_alt by done. by rewrite Nat.sub_diag. }
  destruct (copy_in_file_ok k T_FILE reads s2 ow2 _ [] Hb2) as (ow3 & s3 & E3 & Hb3).
  { unfold k. change (((T_DIR, root ++ e) :: F ++ [(T_FILE, @nil Z)]) !! S (length F)) with ((F ++ [(T_FILE, @nil Z)]) !! length F).
    rewrite lookup_app_r by done. by rewrite Nat.sub_diag. }
  { done. } { done. } { by rewrite Hins. }
  exists ow3, s3. rewrite Hins in Hb3. split; [|done]. unfold add_file, assert.
  assert (forallb (fun c => negb (c =? 47)) (shortname path) = true) as ->.
  { apply forallb_forall. intros x Hx. unfold no_slash in Hslash. assert (x <> 47) as ->%Z.eqb_neq; [|done]. intros ->. by apply Hslash, list_elem_of_In. }
  rewrite bind_mret, Hhost, (bind_Ret _ _ _ _ _ E1), xshort_small by (unfold NINODES in Hn; lia). fold e.
  change ROOTINO with (1 + Z.of_nat 0). rewrite (bind_Ret _ _ _ _ _ E2). replace (2 + zlen F) with (1 + Z.of_nat k) by (unfold k; lia). exact E3.
Qed.

Lemma add_files_ok : forall paths cs s ow root F, built s ow ((T_DIR, root) :: F) -> Forall2 source paths cs -> Forall no_slash paths ->
  Forall (fun c => zlen c <= MAXFILE * BSIZE) cs -> 1 + zlen F + zlen paths < NINODES -> zlen root + 16 * zlen paths <= MAXFILE * BSIZE ->
  let A := (T_DIR, root ++ entries (2 + zlen F) paths) :: F ++ map (pair T_FILE) cs in total A <= FSSIZE ->
  exists ow' s', add_files host ROOTINO paths s = Ret tt s' /\ built s' ow' A.
Proof.
  induction paths as [|path paths IH]; intros cs s ow root F Hb Hsrc Hsl Hmax Hn Hroot A Hcap; unfold A in *; clear A.
  - apply Forall2_nil_inv_l in Hsrc as ->. exists ow, s. cbn [entries map]. rewrite !app_nil_r. done.
  - apply Forall2_cons_inv_l in Hsrc as (c & cs' & Hc & Hsrc & ->). apply Forall_cons_1 in Hsl as [Hsl1 Hsl]. apply Forall_cons_1 in Hmax as [Hm1 Hmax].
    cbn [entries map length] in *. rewrite app_assoc in Hcap. set (root1 := root ++ dirent_bytes _ _) in *.
    assert ((T_DIR, root1 ++ entries (2 + zlen F + 1) paths) :: F ++ (T_FILE, c) :: map (pair T_FILE) cs' =
      (T_DIR, root1 ++ entries (2 + zlen (F ++ [(T_FILE, c)])) paths) :: (F ++ [(T_FILE, c)]) ++ map (pair T_FILE) cs') as EA.
    { assert (2 + zlen F + 1 = 2 + zlen (F ++ [(T_FILE, c)])) as -> by (rewrite length_app; cbn [length]; lia). by rewrite <- app_assoc. }
    rewrite EA in Hcap. rewrite app_assoc. fold root1. rewrite EA.
    destruct (add_file_ok s ow root F path c Hb Hc Hsl1 Hm1) as (ow1 & s1 & E1 & Hb1); [lia|lia| |].
    { etransitivity; [|exact Hcap]. fold root1. change ((T_DIR, root1) :: F ++ [(T_FILE, c)]) with ([(T_DIR, root1)] ++ (F ++ [(T_FILE, c)])).
      change (?x :: ?l ++ ?l') with ([x] ++ (l ++ l')). rewrite !total_app. change (total [?x]) with (nmeta + (need (snd x) + 0)).
      pose proof (need_app root1 (entries (2 + zlen (F ++ [(T_FILE, c)])) paths)). pose proof (total_ge (map (pair T_FILE) cs')). cbn [snd]. lia. }
    fold root1 in Hb1.
    destruct (IH cs' s1 ow1 root1 (F ++ [(T_FILE, c)]) Hb1 Hsrc Hsl Hmax) as (ow2 & s2 & E2 & Hb2).
    { rewrite length_app. cbn [length]. lia. } { unfold root1. rewrite length_app, Nat2Z.inj_add, length_dirent. lia. } { done. }
    exists ow2, s2. cbn [add_files]. rewrite (bind_Ret _ _ _ _ _ E1). done.
Qed.
End Files.

(** ** The bitmap *)

Definition bit_of (l : list Z) (b : Z) : bool := Z.testbit (default 0 (l !! Z.to_nat (b / 8))) (b mod 8).

Lemma set_bits_ok n : forall i l b, 0 <= i -> i + Z.of_nat n <= 8 * zlen l -> 0 <= b ->
  bit_of (set_bits n i l) b = bit_of l b || (i <=? b) && (b <? i + Z.of_nat n) /\ length (set_bits n i l) = length l.
Proof.
  induction n as [|n IH]; intros i l b Hi Hl Hb; cbn [set_bits].
  - split; [|done]. destruct (Z.leb_spec i b), (Z.ltb_spec b (i + Z.of_nat 0)); cbn [andb]; try lia; by rewrite orb_false_r.
  - set (l1 := alter _ _ l). assert (length l1 = length l) as Hl1 by apply length_alter.
    destruct (IH (i + 1) l1 b) as [-> ->]; [lia|rewrite Hl1; lia|done|]. split; [|done].
    assert (bit_of l1 b = bit_of l b || (b =? i)) as ->.
    { unfold bit_of, l1. destruct (decide (Z.to_nat (b / 8) = Z.to_nat (i / 8))) as [E|E].
      - rewrite E, list_lookup_alter_eq. destruct (lookup_lt_is_Some_2 l (Z.to_nat (i / 8))) as [x ->]; [lia|]. cbn.
        rewrite Z.lor_spec, Z.shiftl_1_l, Z.pow2_bits_eqb by lia. f_equal. lia.
      - rewrite list_lookup_alter_ne by done. replace (b =? i) with false by lia. by rewrite orb_false_r. }
    rewrite <- orb_assoc. f_equal. destruct (Z.eqb_spec b i), (Z.leb_spec (i + 1) b), (Z.ltb_spec b (i + 1 + Z.of_nat n)), (Z.leb_spec i b), (Z.ltb_spec b (i + Z.of_nat (S n))); cbn [andb orb]; (done || lia).
Qed.

(** ** What the kernel reads

    A buffer at [a] with a sector in it. *)
Definition sector_at (m : mem) (a : Z) (l : list Z) : Prop := forall i, 0 <= i < BSIZE -> ld8 m (a + i) = default 0 (l !! Z.to_nat i).

Lemma load_word m a l off n : sector_at m a l -> length l = Z.to_nat BSIZE -> (off + n <= Z.to_nat BSIZE)%nat ->
  load_le n m (a + Z.of_nat off) = word_at l off n.
Proof.
  intros Hs Hl. revert off. induction n as [|n IH]; intros off Hn; [done|]. cbn [load_le]. rewrite Hs by lia. rewrite Nat2Z.id.
  replace (a + Z.of_nat off + 1) with (a + Z.of_nat (S off)) by lia. rewrite IH by lia.
  unfold word_at. destruct (lookup_lt_is_Some_2 l off) as [x Hx]; [lia|]. rewrite Hx, (drop_S _ _ _ Hx). done.
Qed.

(** The inode as [ilock] loads it. *)
Lemma load_dinode_at m a l off ip : sector_at m a l -> length l = Z.to_nat BSIZE -> (off + 64 <= Z.to_nat BSIZE)%nat ->
  let d := dinode_at l off in
  load_dinode m (a + Z.of_nat off) ip = set_i_type (i16 (d_type d)) (set_i_major (i16 (d_major d)) (set_i_minor (i16 (d_minor d))
    (set_i_nlink (i16 (d_nlink d)) (set_i_size (d_size d) (set_i_addrs (d_addrs d) ip))))).
Proof.
  intros Hs Hl Hoff d. unfold load_dinode, d, dinode_at. cbn [d_type d_major d_minor d_nlink d_size d_addrs].
  assert (forall k n, (k + n <= 64)%nat -> load_le n m (a + Z.of_nat off + Z.of_nat k) = word_at l (off + k) n) as Hw.
  { intros k n Hk. rewrite <- Z.add_assoc, <- Nat2Z.inj_add. apply load_word; [done|done|lia]. }
  unfold ld16, ld32. rewrite <- (Hw 2%nat), <- (Hw 4%nat), <- (Hw 6%nat), <- (Hw 8%nat) by lia.
  rewrite <- (load_word m a l off 2 Hs Hl) by lia. f_equal. do 5 f_equal.
  apply map_ext_in. intros k Hk%in_seq. rewrite <- Nat.add_assoc, <- Hw by (unfold NADDRS, NDIRECT in Hk; lia). f_equal. lia.
Qed.

Lemma load_sb m a : sector_at m a (list_inserts 0 (superblock_bytes main_sb) zeroes) -> sb_at m a = main_sb.
Proof.
  intros Hs. assert (forall k, (k + 4 <= 32)%nat -> load_le 4 m (a + Z.of_nat k) = word_at (list_inserts 0 (superblock_bytes main_sb) zeroes) k 4) as Hw.
  { intros k Hk. apply load_word; [done|done|]. unfold BSIZE. lia. }
  unfold sb_at, ld32. rewrite <- (Z.add_0_r a) at 1.
  change 0 with (Z.of_nat 0) at 1. change 4 with (Z.of_nat 4). change 8 with (Z.of_nat 8). change 12 with (Z.of_nat 12). change 16 with (Z.of_nat 16).
  change 20 with (Z.of_nat 20). change 24 with (Z.of_nat 24). change 28 with (Z.of_nat 28). rewrite !Hw by lia. vm_compute. reflexivity.
Qed.

(** ** The whole program *)

(** A directory is rounded up to whole blocks, past the last entry. *)
Definition dir_size (n : Z) : Z := (n / BSIZE + 1) * BSIZE.
Definition size_on_disk (t : Z) (c : list Z) : Z := if t =? T_DIR then dir_size (zlen c) else zlen c.

(** The image [im] holds the inodes [A]: the kernel finds the superblock, an empty log,
    each inode with its contents in blocks that it shares with no other, no other
    inodes, and the bitmap of exactly the blocks in use. *)
Record image_of (im : list (list Z)) (A : files) : Prop := {
  io_image : image im;
  io_super : forall m a, sector_at m a (sec im 1) -> sb_at m a = mk_superblock FSMAGIC 1000 954 200 30 2 32 45;
  io_log : forall b, 2 <= b < 32 -> sec im b = zeroes;
  io_inodes : exists ow, forall k t c, A !! k = Some (t, c) -> let i := 1 + Z.of_nat k in
    inode_is im ow (total A) i t c /\ d_size (inode im i) = size_on_disk t c;
  io_free : forall i, 1 + zlen A <= i < INODES -> inode im i = no_inode;
  io_load : forall i m a ip, 0 <= i < INODES -> sector_at m a (sec im (IBLOCK i main_sb)) -> let d := inode im i in
    load_dinode m (a + i mod IPB * DINODE_SIZE) ip = set_i_type (i16 (d_type d)) (set_i_major (i16 (d_major d)) (set_i_minor (i16 (d_minor d))
      (set_i_nlink (i16 (d_nlink d)) (set_i_size (d_size d) (set_i_addrs (d_addrs d) ip)))));
  io_bitmap : forall b, 0 <= b < BPB -> bit_of (sec im 45) b = (b <? total A) }.

Definition root_dir (paths : list (list Z)) : list Z :=
  dirent_bytes ROOTINO (de_name (bytes ".")) ++ dirent_bytes ROOTINO (de_name (bytes "..")) ++ entries 2 paths.
Definition image_files (paths cs : list (list Z)) : files := (T_DIR, root_dir paths) :: map (pair T_FILE) cs.

Lemma dinode_at_zeroes off : dinode_at zeroes off = no_inode.
Proof.
  unfold dinode_at, no_inode. rewrite !word_at_zeroes. f_equal.
  replace (replicate NADDRS 0) with (map (fun _ : nat => 0) (seq 0 NADDRS)) by done. apply map_ext. intros k. apply word_at_zeroes.
Qed.

Lemma load_inode im i m a ip : image im -> 0 <= i < INODES -> sector_at m a (sec im (IBLOCK i main_sb)) -> let d := inode im i in
  load_dinode m (a + i mod IPB * DINODE_SIZE) ip = set_i_type (i16 (d_type d)) (set_i_major (i16 (d_major d)) (set_i_minor (i16 (d_minor d))
    (set_i_nlink (i16 (d_nlink d)) (set_i_size (d_size d) (set_i_addrs (d_addrs d) ip))))).
Proof.
  intros Him Hi Hs. pose proof (iblock_range i Hi). pose proof (dinode_off_eq i) as Eo. change (IPB) with 16. change DINODE_SIZE with 64.
  replace (i mod 16 * 64) with (Z.of_nat (dinode_off i)) by (rewrite Eo; lia).
  apply load_dinode_at; [exact Hs|apply sec_length; [done|unfold iblock in *; mlia]|]. rewrite Eo. change (Z.to_nat BSIZE) with 1024%nat. lia.
Qed.

(** The sectors are filled with zeros in order. *)
Lemma fill_ok s : img s = [] -> for_each (Z.to_nat FSSIZE) 0 (fun i => wsect i zeroes) s = Ret tt (set_img (replicate (Z.to_nat FSSIZE) zeroes) s).
Proof.
  intros Hs. pose proof (for_each_eq (Z.to_nat FSSIZE) 0 (fun i => wsect i zeroes) (fun i => set_img (replicate (Z.to_nat i) zeroes) s)) as H.
  assert (set_img (replicate (Z.to_nat 0) zeroes) s = s) as E0 by (destruct s; cbn in *; by subst). cbn beta in H. rewrite E0 in H. apply H. clear H E0.
  intros i Hi. unfold wsect, modify. rewrite seek_small by mlia. cbn [img set_img]. f_equal. unfold set_img at 1 3. cbn [m_sb freeinode freeblock set_img].
  f_equal. rewrite length_replicate. replace (S (Z.to_nat i) - Z.to_nat i)%nat with 1%nat by lia.
  rewrite insert_app_r_alt by (rewrite length_replicate; lia). rewrite length_replicate, Nat.sub_diag. cbn [replicate].
  replace (Z.to_nat (i + 1)) with (Z.to_nat i + 1)%nat by lia. by rewrite replicate_add.
Qed.

Lemma built_start : exists s, (forall B (f : unit -> M mkst B),
    (modify (set_img []) ;; modify (set_m_sb main_sb) ;; modify (set_freeblock nmeta) ;; for_each (Z.to_nat FSSIZE) 0 (fun i => wsect i zeroes) ;;
     wsect 1 (list_inserts 0 (superblock_bytes main_sb) zeroes) ≫= f) mkfs_init = f tt s) /\ built s (fun _ => (0, 0)) [].
Proof.
  set (s0 := MkSt [] main_sb 1 nmeta). set (im0 := replicate (Z.to_nat FSSIZE) zeroes).
  assert (image im0) as Him0 by (split; [done|by apply Forall_replicate]).
  assert (forall b, 0 <= b < FSSIZE -> sec im0 b = zeroes) as Hz0.
  { intros b Hb. unfold sec, im0. by rewrite lookup_replicate_2 by mlia. }
  set (sbs := list_inserts 0 (superblock_bytes main_sb) zeroes). exists (set_img (upd im0 1 sbs) s0). split.
  - intros B f. rewrite (bind_Ret _ _ _ tt mkfs_init) by done. rewrite (bind_Ret _ _ _ tt (set_m_sb main_sb mkfs_init)) by done.
    rewrite (bind_Ret _ _ _ tt s0) by done. rewrite (bind_Ret _ _ _ _ _ (fill_ok s0 eq_refl)).
    by rewrite (bind_Ret _ _ _ _ _ (wsect_eq 1 sbs (set_img im0 s0) Him0 ltac:(done))).
  - assert (forall b, 0 <= b < FSSIZE -> b <> 1 -> sec (upd im0 1 sbs) b = zeroes) as Hz.
    { intros b Hb H1. rewrite sec_upd_ne by lia. by apply Hz0. }
    assert (image (upd im0 1 sbs)) as Him by (by apply image_upd).
    split; cbn [img set_img freeblock freeinode m_sb].
    + split; cbn [img set_img freeblock]; [done|by apply Hz|]. intros b Hb. apply Hz; [change (freeblock s0) with 46 in Hb; mlia|change (freeblock s0) with 46 in Hb; lia].
    + done.
    + done.
    + done.
    + by apply sec_upd.
    + intros b Hb. apply Hz; mlia.
    + done.
    + intros i Hi. assert (0 <= i < INODES) as Hi' by (cbn in Hi; lia). unfold inode. pose proof (iblock_range i Hi').
      rewrite Hz by mlia. apply dinode_at_zeroes.
Qed.

(** The size of the root and the bitmap. *)
Definition finish : M mkst unit :=
  din ← rinode ROOTINO;
  winode ROOTINO (set_d_size (xint (u32 ((xint (d_size din) / BSIZE + 1) * BSIZE))) din) ;;
  b ← gets freeblock;
  balloc b.

Lemma finish_ok s ow root F : built s ow ((T_DIR, root) :: F) -> Forall (fun f => fst f <> T_DIR) F -> zlen root < 2 ^ 31 ->
  exists s', finish s = Ret tt s' /\ image_of (img s') ((T_DIR, root) :: F).
Proof.
  intros Hb HF Hroot. set (A := (T_DIR, root) :: F) in *. destruct Hb as [Hf Hsb (Hino & Hlen) (Hfb & Htot) Hsup Hlog Hin Hfree].
  pose proof Hf as [Him Hz Hab]. pose proof (total_ge A) as Hge. destruct (Hin 0%nat T_DIR root eq_refl) as [[[Ht Ht'] (Hmaj & Hmin & Hnl) Hst] Hsz].
  change (1 + Z.of_nat 0) with 1 in *. assert (0 <= 1 < INODES) as H1 by done. remember (inode (img s) 1) as d eqn:Ed.
  set (d2 := set_d_size (dir_size (zlen root)) d). assert (0 <= dir_size (zlen root) < 2 ^ 32) as Hds by (unfold dir_size; mlia).
  assert (dinode_ok d2) as Hd2.
  { pose proof Hst as [Ha _ _ _ _ _]. split; unfold d2; cbn [set_d_size d_type d_major d_minor d_nlink d_size d_addrs]; [rewrite Ht, Hmaj, Hmin, Hnl; lia|lia|done]. }
  set (im1 := put_inode 1 d2 (img s)). assert (image im1) as Him1 by (by apply image_put_inode).
  set (bm := set_bits (Z.to_nat (freeblock s)) 0 zeroes).
  assert (forall b, 0 <= b < 8192 -> bit_of bm b = (b <? freeblock s)) as Hbm.
  { intros b Hb. unfold bm. destruct (set_bits_ok (Z.to_nat (freeblock s)) 0 zeroes b) as [-> _]; [lia|change (zlen zeroes) with 1024; mlia|lia|].
    assert (bit_of zeroes b = false) as ->; [|destruct (Z.ltb_spec b (0 + Z.of_nat (Z.to_nat (freeblock s)))), (Z.ltb_spec b (freeblock s)), (Z.leb_spec 0 b); cbn; (done || lia)].
    unfold bit_of. rewrite zeroes_lookup by mlia. cbn. apply Z.testbit_0_l. }
  assert (length bm = Z.to_nat BSIZE) as Hlbm by (unfold bm; destruct (set_bits_ok (Z.to_nat (freeblock s)) 0 zeroes 0) as [_ ->]; [lia|change (zlen zeroes) with 1024; mlia|lia|done]).
  set (im2 := upd im1 45 bm). exists (set_img im2 s). split.
  - unfold finish. rewrite (bind_Ret _ _ _ _ _ (rinode_eq ROOTINO s Him Hsb H1)). change ROOTINO with 1. rewrite <- Ed, Hsz. rewrite (xint_small (zlen root)) by lia.
    rewrite u32_small by (unfold dir_size in Hds; lia). fold (dir_size (zlen root)). rewrite xint_small by lia. fold d2.
    rewrite (bind_Ret _ _ _ _ _ (winode_eq 1 d2 s Him Hsb H1)). rewrite (bind_Ret _ _ _ (freeblock s) (set_img im1 s)) by done.
    unfold balloc, assert. replace (freeblock s <? BSIZE * 8) with true by mlia. rewrite bind_mret.
    rewrite (bind_Ret _ _ _ main_sb (set_img im1 s)) by (unfold gets; cbn [m_sb set_img]; by rewrite Hsb).
    change (sb_bmapstart main_sb) with 45. exact (wsect_eq 45 bm (set_img im1 s) Him1 ltac:(done)).
  - cbn [img set_img]. assert (forall b, 0 <= b -> b <> 45 -> sec im2 b = sec im1 b) as Hs2 by (intros b Hb Hne; apply sec_upd_ne; lia).
    assert (forall j, 0 <= j < INODES -> inode im2 j = inode im1 j) as Hi2.
    { intros j Hj. apply inode_sec; [done|]. intros b Hb. apply Hs2; lia. }
    assert (forall j d' c, stored (img s) ow (freeblock s) j d' c -> stored im2 ow (freeblock s) j d' c) as Hst2.
    { intros j d' c Hs'. apply (stored_put _ _ _ 1 j d2) in Hs'; [|done|done]. fold im1 in Hs'. pose proof Hs' as [_ (_ & _ & _ & ?) _ _ _ _]. revert Hs'. unfold stored. apply holds_ext; [lia| |done].
      intros b Hb Hor. apply Hs2; [lia|]. destruct Hor as [->|[? _]]; [done|mlia]. }
    split.
    + by apply image_upd.
    + intros m a Hs'. rewrite Hs2 in Hs' by done. unfold im1 in Hs'. rewrite sec_put_inode, Hsup in Hs' by (done || lia). by rewrite (load_sb m a Hs').
    + intros b Hb. rewrite Hs2 by lia. unfold im1. rewrite sec_put_inode by (done || lia). by apply Hlog.
    + exists ow. intros k t c Hk i. rewrite <- Hfb. pose proof (lookup_lt_Some _ _ _ Hk) as HkA. assert (0 <= i < INODES) as Hi by (unfold i; change INODES with 208; unfold NINODES in Hlen; lia).
      destruct (Hin k t c Hk) as [[H2 H3 H4] H5]. fold i in H2, H3, H4, H5. destruct k as [|k].
      * injection Hk as <- <-. change i with 1 in *. rewrite <- Ed in H2, H3, H4, H5.
        assert (inode im2 1 = d2) as E2 by (rewrite Hi2 by done; by apply inode_put).
        split; [split; rewrite E2; [done|done|]; apply Hst2; by apply stored_size|]. rewrite E2. done.
      * assert (inode im2 i = inode (img s) i) as E2 by (rewrite Hi2 by done; apply inode_put_ne; unfold i; (done || lia)).
        split; [split; rewrite E2; [done|done|]; by apply Hst2|]. rewrite E2, H5. unfold size_on_disk.
        change (A !! S k) with (F !! k) in Hk. rewrite Forall_lookup in HF. specialize (HF _ _ Hk). cbn in HF. by apply Z.eqb_neq in HF as ->.
    + intros i Hi. assert (0 <= i < INODES) as Hi' by lia. rewrite Hi2 by done. unfold im1. rewrite inode_put_ne; [by apply Hfree|done|done|done| |done]. unfold A in Hi. cbn [length] in Hi. lia.
    + intros i m a ip Hi. apply load_inode; [by apply image_upd|done].
    + intros b Hb. unfold im2. rewrite sec_upd by (done || mlia). rewrite <- Hfb. by apply Hbm.
Qed.

(** C9: for files that can be read, with names that fit, and that all fit on the disk,
    [mkfs] ends well, and the image is the file system of exactly these files: the root
    directory with the entries "." and ".." and one entry for each file, in order; the
    inodes with the contents of the files, in blocks that no two share; all other
    inodes free, the log empty, the bitmap set for the blocks in use alone, and the
    superblock and every inode as the kernel's [readsb] and [ilock] read them. *)
Theorem mkfs_spec host paths cs : Forall2 (source host) paths cs -> Forall no_slash paths -> zlen paths + 2 <= 200 ->
  Forall (fun c => zlen c <= MAXFILE * BSIZE) cs -> total (image_files paths cs) <= FSSIZE ->
  exists s', main host true paths mkfs_init = Ret tt s' /\ image_of (img s') (image_files paths cs).
Proof.
  intros Hsrc Hsl Hn Hmax Hcap. unfold image_files, root_dir in *. set (e1 := dirent_bytes ROOTINO (de_name (bytes "."))) in *. set (e2 := dirent_bytes ROOTINO (de_name (bytes ".."))) in *.
  destruct built_start as (s0 & E0 & Hb0). destruct (ialloc_ok s0 _ [] T_DIR Hb0) as (s1 & E1 & Hb1); [done|done|]. cbn [app] in Hb1.
  assert (total [(T_DIR, e1 ++ e2)] <= FSSIZE) as Hc2 by done.
  destruct (iappend_ok s1 _ _ 0%nat T_DIR [] e1 Hb1 eq_refl) as (ow2 & s2 & E2 & Hb2); [done|done|].
  change (<[0%nat := _]> _) with [(T_DIR, e1)] in Hb2.
  destruct (iappend_ok s2 _ _ 0%nat T_DIR e1 e2 Hb2 eq_refl) as (ow3 & s3 & E3 & Hb3); [done|done|].
  change (<[0%nat := _]> _) with [(T_DIR, e1 ++ e2)] in Hb3. rewrite app_assoc in Hcap |- *. change 2 with (2 + zlen (@nil (Z * list Z))) in Hcap |- *.
  destruct (add_files_ok host paths cs s3 ow3 (e1 ++ e2) [] Hb3 Hsrc Hsl Hmax) as (ow4 & s4 & E4 & Hb4);
    [cbn [length]; unfold NINODES; lia|change (zlen (e1 ++ e2)) with 32; mlia|exact Hcap|].
  cbn [app] in Hb4. destruct (finish_ok s4 ow4 _ _ Hb4) as (s5 & E5 & H5).
  { apply Forall_map, Forall_true. done. }
  { rewrite length_app, Nat2Z.inj_add, length_entries. change (zlen (e1 ++ e2)) with 32. lia. }
  exists s5. split; [|exact H5]. unfold main. cbn [negb]. rewrite E0. change (1 + zlen (@nil (Z * list Z))) with ROOTINO in E1. rewrite (bind_Ret _ _ _ _ _ E1).
  unfold assert. rewrite Z.eqb_refl, bind_mret. change (xshort ROOTINO) with ROOTINO. fold e1. fold e2.
  change (1 + Z.of_nat 0) with ROOTINO in E2, E3. rewrite (bind_Ret _ _ _ _ _ E2), (bind_Ret _ _ _ _ _ E3), (bind_Ret _ _ _ _ _ E4). exact E5.
Qed.

(** One file of two bytes. *)
Definition small_host (path : list Z) : option (list (list Z)) := Some [[104]; [105]].
Lemma mkfs_spec_witness : Forall no_slash [bytes "out/user_space/_cat"] /\
  exists s', main small_host true [bytes "out/user_space/_cat"] mkfs_init = Ret tt s' /\ image_of (img s') (image_files [bytes "out/user_space/_cat"] [[104; 105]]).
Proof.
  assert (Forall no_slash [bytes "out/user_space/_cat"]) as Hs.
  { constructor; [|done]. unfold no_slash. vm_compute. intros H. by repeat (apply elem_of_cons in H as [H|H]; [discriminate H|]); apply elem_of_nil in H. }
  split; [exact Hs|]. apply (mkfs_spec small_host).
  - constructor; [|constructor]. exists [[104]; [105]]. split; [reflexivity|]. split; [by repeat constructor|reflexivity].
  - exact Hs.
  - cbn. lia.
  - constructor; [cbn; unfold MAXFILE, NINDIRECT, NDIRECT, BSIZE; lia|constructor].
  - vm_compute. discriminate.
Defined.
