(* ===== verification/Tools.v ===== *)
(** * Utility programs: user_space/{cat,wc,grep,echo,kill,ln,mkdir,rm,stats,zombie,init_code}.c

    Programs over their memory in the monad of system calls.  The addresses of their
    static buffers are parameters; [argv] is the list of the addresses of the arguments,
    the program's name first.  [fuel] bounds the loops that the input bounds. *)

From S2P Require Import Prelude Hart VmSystem Mem Str Bio Sysfile UserSys Ulib Grep.

Section Tools.
Context (fuel : nat).

(** A string at an address, as a call of the kernel takes it. *)
Definition path_at (p : Z) : U mem (list Z) := ugets (fun m => ustr PATH_BYTES m p).
(** [fprintf] with the line feed at the end of the format. *)
Definition msg (fd : Z) (fmt : string) (ap : list uarg) : U mem unit := fprintf fuel fd (bytes_of fmt ++ [10]) ap.

(** ** cat *)

Section Buffered.
(** [char buf[512]] *)
Context (buf : Z).

Fixpoint cat_loop (rounds : nat) (fd : Z) : U mem unit :=
  match rounds with
  | O => uno_fuel
  | S rounds' =>
      n ← sys_read_to fd buf 512;
      if 0 <? n then
        w ← sys_write_from 1 buf n;
        if negb (w =? n) then msg 2 "cat: write error" [] ;; uexit 1 else cat_loop rounds' fd
      else uwhen (n <? 0) (msg 2 "cat: read error" [] ;; uexit 1)
  end.
Definition cat (fd : Z) : U mem unit := cat_loop fuel fd.

(** The loop over the arguments of [cat], [wc] and [grep], with what each does with a file. *)
Fixpoint each_file (file : Z -> Z -> U mem unit) (fails : Z -> U mem unit) (args : list Z) : U mem unit :=
  match args with
  | [] => mret tt
  | a :: args' =>
      fd ← open a 0;
      if fd <? 0 then fails a ;; uexit 1 else
      file fd a ;;
      usys (CClose fd) ;;
      each_file file fails args'
  end.

Definition cat_main (argv : list Z) : U mem unit :=
  if (length argv <=? 1)%nat then cat 0 ;; uexit 0 else
  each_file (fun fd _ => cat fd) (fun a => msg 2 "cat: cannot open %s" [AStr (InMem a)]) (tail argv) ;;
  uexit 0.

(** ** wc *)

Record counts := Counts { n_l : Z; n_w : Z; n_c : Z; inword : bool }.
(** An [int] that is incremented; past its range the program is undefined. *)
Definition inc (x : Z) : option Z := if x =? 2 ^ 31 - 1 then None else Some (x + 1).
Definition blanks : list Z := [32; 13; 9; 10; 11].
Definition is_blank (c : Z) : bool := existsb (Z.eqb c) blanks.

Definition wc_char (c : Z) (k : counts) : option counts :=
  nc ← inc (n_c k);
  nl ← (if c =? 10 then inc (n_l k) else Some (n_l k));
  if is_blank c then Some (Counts nl (n_w k) nc false)
  else if negb (inword k) then nw ← inc (n_w k); Some (Counts nl nw nc true)
  else Some (Counts nl (n_w k) nc (inword k)).
Fixpoint wc_buf (n : nat) (m : mem) (p : Z) (k : counts) : option counts :=
  match n with O => Some k | S n' => k ← wc_char (ld8 m p) k; wc_buf n' m (p + 1) k end.

Fixpoint wc_loop (rounds : nat) (fd : Z) (k : counts) : U mem (counts * Z) :=
  match rounds with
  | O => uno_fuel
  | S rounds' =>
      n ← sys_read_to fd buf 512;
      if 0 <? n then
        m ← uget;
        k ← uopt (wc_buf (Z.to_nat n) m buf k);
        wc_loop rounds' fd k
      else mret (k, n)
  end.
Definition wc (fd : Z) (name : ustring) : U mem unit :=
  '(k, n) ← wc_loop fuel fd (Counts 0 0 0 false);
  if n <? 0 then msg 1 "wc: read error" [] ;; uexit 1 else
  msg 1 "%d %d %d %s" [AInt (n_l k); AInt (n_w k); AInt (n_c k); AStr name].

Definition wc_main (argv : list Z) : U mem unit :=
  if (length argv <=? 1)%nat then wc 0 (Const []) ;; uexit 0 else
  each_file (fun fd a => wc fd (InMem a)) (fun a => msg 1 "wc: cannot open %s" [AStr (InMem a)]) (tail argv) ;;
  uexit 0.

(** ** grep *)

(** [char buf[1024]] *)
Definition GREP_BUF : Z := 1024.

(** The loop over the complete lines of the buffer, from [p]; the answer is the final [p]. *)
Fixpoint grep_lines (rounds : nat) (pattern p : Z) : U mem Z :=
  match rounds with
  | O => uno_fuel
  | S rounds' =>
      m ← uget;
      q ← ufuel (Ulib.strchr fuel m p 10);
      if q =? 0 then mret p else
      umodify (fun m => st8 m q 0) ;;
      m ← uget;
      r ← ufuel (grep_match fuel m pattern p);
      uwhen (negb (r =? 0)) (umodify (fun m => st8 m q 10) ;; sys_write_from 1 p (q + 1 - p) ;; mret tt) ;;
      grep_lines rounds' pattern (q + 1)
  end.

Fixpoint grep_loop (rounds : nat) (pattern fd m0 : Z) : U mem unit :=
  match rounds with
  | O => uno_fuel
  | S rounds' =>
      n ← sys_read_to fd (buf + m0) (GREP_BUF - m0 - 1);
      if 0 <? n then
        let m1 := m0 + n in
        umodify (fun m => st8 m (buf + m1) 0) ;;
        p ← grep_lines fuel pattern buf;
        if 0 <? m1 then
          let m2 := m1 - (p - buf) in
          umodify (fun m => Ulib.memmove m buf p m2) ;;
          grep_loop rounds' pattern fd m2
        else grep_loop rounds' pattern fd m1
      else mret tt
  end.
Definition grep (pattern fd : Z) : U mem unit := grep_loop fuel pattern fd 0.

Definition grep_main (argv : list Z) : U mem unit :=
  if (length argv <=? 1)%nat then msg 2 "usage: grep pattern [file ...]" [] ;; uexit 1 else
  pattern ← uopt (argv !! 1%nat);
  if (length argv <=? 2)%nat then grep pattern 0 ;; uexit 0 else
  each_file (fun fd _ => grep pattern fd) (fun a => msg 1 "grep: cannot open %s" [AStr (InMem a)]) (drop 2 argv) ;;
  uexit 0.

(** ** stats *)

Definition SZ : Z := 4096.
Fixpoint put_bytes (n : nat) (p : Z) : U mem unit :=
  match n with O => mret tt | S n' => sys_write_from 1 p 1 ;; put_bytes n' (p + 1) end.
Fixpoint stats_loop (rounds : nat) : U mem unit :=
  match rounds with
  | O => uno_fuel
  | S rounds' =>
      n ← statistics fuel buf SZ;
      put_bytes (Z.to_nat n) buf ;;
      if negb (n =? SZ) then mret tt else stats_loop rounds'
  end.
Definition stats_main : U mem unit := stats_loop fuel ;; uexit 0.
End Buffered.

(** ** Programs that go through their arguments *)

Fixpoint echo_args (args : list Z) : U mem unit :=
  match args with [] => mret tt | a :: args' => printf fuel (bytes_of "%s") [AStr (InMem a)] ;; echo_args args' end.
(** [main] returns 0, and the start-up code hands that to [exit]. *)
Definition echo_main (argv : list Z) : U mem unit :=
  if (length argv <? 2)%nat then uexit 0 else
  echo_args (tail argv) ;; printf fuel [10] [] ;; uexit 0.

Fixpoint kill_args (args : list Z) : U mem unit :=
  match args with [] => mret tt | a :: args' => pid ← atoi fuel a; usys (CKill pid) ;; kill_args args' end.
Definition kill_main (argv : list Z) : U mem unit :=
  if (length argv <? 2)%nat then msg 2 "usage: kill pid..." [] ;; uexit 1 else
  kill_args (tail argv) ;; uexit 0.

Definition ln_main (argv : list Z) : U mem unit :=
  match argv with
  | [_; old; new] =>
      o ← path_at old; n ← path_at new;
      r ← usys (CLink o n);
      uwhen (r <? 0) (msg 2 "link %s %s: failed" [AStr (InMem old); AStr (InMem new)]) ;;
      uexit 0
  | _ => msg 2 "Usage: ln old new" [] ;; uexit 1
  end.

(** The loops of [mkdir] and [rm] end at the first failure. *)
Fixpoint until_fails (call : list Z -> ucall) (fails : Z -> U mem unit) (args : list Z) : U mem unit :=
  match args with
  | [] => mret tt
  | a :: args' =>
      path ← path_at a;
      r ← usys (call path);
      if r <? 0 then fails a else until_fails call fails args'
  end.
Definition mkdir_main (argv : list Z) : U mem unit :=
  if (length argv <? 2)%nat then msg 2 "Usage: mkdir files..." [] ;; uexit 1 else
  until_fails CMkdir (fun a => msg 2 "mkdir: %s failed to create" [AStr (InMem a)]) (tail argv) ;; uexit 0.
Definition rm_main (argv : list Z) : U mem unit :=
  if (length argv <? 2)%nat then msg 2 "Usage: rm files..." [] ;; uexit 1 else
  until_fails CUnlink (fun a => msg 2 "rm: %s failed to delete" [AStr (InMem a)]) (tail argv) ;; uexit 0.

Definition zombie_main : U mem unit := uexit 0.

(** ** init_code *)

Definition CONSOLE : Z := 1.
Definition pull_up_one (argv : list (list Z)) : U mem unit :=
  name ← uopt (argv !! 0%nat);
  pid ← usys CFork;
  if pid =? -1 then msg 1 "init_code fork fail: %s" [AStr (Const name)]
  else uwhen (pid =? 0) (usys (CExec name argv) ;; msg 1 "init_code execute after fork exec: %s" [AStr (Const name)] ;; uexit 1).
Definition pull_up_proc : U mem unit := pull_up_one [bytes_of "sh"].

(** The endless loop, for a number of rounds. *)
Fixpoint init_loop (rounds : nat) : U mem unit :=
  match rounds with
  | O => uno_fuel
  | S rounds' =>
      pid ← usys CWait;
      uwhen (pid =? 1) (msg 1 "init sh died, init code pull up it again" [] ;; pull_up_proc) ;;
      init_loop rounds'
  end.
Definition init_main (rounds : nat) : U mem unit :=
  fd ← usys (COpen (bytes_of "console") O_RDWR);
  uwhen (fd <? 0) (usys (CMknod (bytes_of "console") CONSOLE 0) ;; usys (COpen (bytes_of "console") O_RDWR) ;; mret tt) ;;
  usys (CDup 0) ;; usys (CDup 0) ;;
  printf fuel (bytes_of "init_code start" ++ [10; 10]) [] ;;
  pull_up_proc ;;
  init_loop rounds.
End Tools.
