(* ===== verification/ToolsSpec.v ===== *)
(** * What the utilities promise: cat, wc, grep

    Each reads its input in pieces, as the kernel hands them out; what it prints depends
    on the input alone. *)

From S2P Require Import Prelude Hart VmSystem Mem Str Kprint Bio BioSpec Sysfile UserSys Ulib UlibSpec Grep Tools.

(** ** A kernel with one input and one output

    [read] delivers the next piece of the input, or as much of it as asked for; what
    goes to descriptor 1 is kept. *)
Definition feed : kernel (list (list Z) * list Z) := fun c w =>
  let '(inp, out) := w in
  match c with
  | CRead _ n =>
      match inp with
      | [] => (0, [], w)
      | d :: inp' =>
          if Z.of_nat (length d) <=? n then (Z.of_nat (length d), d, (inp', out))
          else (n, take (Z.to_nat n) d, (drop (Z.to_nat n) d :: inp', out))
      end
  | CWrite fd d => (Z.of_nat (length d), [], (inp, if fd =? 1 then out ++ d else out))
  | _ => (0, [], w)
  end.

(** Pieces are not empty, and made of bytes. *)
Definition pieces (inp : list (list Z)) : Prop := Forall (fun d => d <> []) inp /\ Forall (fun c => 0 <= c < 256) (concat inp).

Lemma feed_read fd n inp out : pieces inp -> 1 <= n -> inp <> [] ->
  exists d inp', feed (CRead fd n) (inp, out) = (Z.of_nat (length d), d, (inp', out)) /\ d <> [] /\ Z.of_nat (length d) <= n /\
    concat inp = d ++ concat inp' /\ pieces inp' /\ Forall (fun c => 0 <= c < 256) d.
Proof.
  intros [Hne Hb] Hn Hi. destruct inp as [|d inp]; [done|]. cbn [feed concat] in *. apply Forall_cons_1 in Hne as [Hd Hne].
  apply Forall_app in Hb as [Hb1 Hb2]. destruct (Z.leb_spec (Z.of_nat (length d)) n).
  - by exists d, inp.
  - exists (take (Z.to_nat n) d), (drop (Z.to_nat n) d :: inp). rewrite length_take. split; [f_equal; f_equal; lia|].
    assert (length (take (Z.to_nat n) d) = Z.to_nat n) as El by (rewrite length_take; lia).
    split; [intros E; rewrite E in El; cbn in El; lia|]. split; [lia|]. cbn [concat]. rewrite app_assoc, take_drop. split; [done|].
    split; [|by apply Forall_take]. split.
    + constructor; [|done]. intros E. apply (f_equal length) in E. rewrite length_drop in E. cbn in E. lia.
    + cbn [concat]. apply Forall_app. split; [by apply Forall_drop|done].
Qed.

(** The memory from [a] on holds [l]. *)
Lemma load_stored m a d : Forall (fun c => 0 <= c < 256) d -> load_bytes (store_bytes m a d) a (length d) = d.
Proof.
  intros Hd. apply list_eq. intros i. destruct (decide (i < length d)%nat) as [Hi|Hi].
  - rewrite lookup_load_bytes by done. rewrite ld8_store_bytes, decide_True by lia.
    replace (Z.to_nat (a + Z.of_nat i - a)) with i by lia. destruct (lookup_lt_is_Some_2 d i Hi) as [x Hx].
    rewrite Hx. cbn. rewrite Forall_lookup in Hd. rewrite u8_small by (pose proof (Hd i x Hx); lia). done.
  - rewrite !lookup_ge_None_2 by (rewrite ?length_load_bytes; lia). done.
Qed.

(** Reading into memory. *)
Lemma interp_read fd p n inp out m : pieces inp -> 1 <= n -> inp <> [] ->
  exists d inp', d <> [] /\ Z.of_nat (length d) <= n /\ concat inp = d ++ concat inp' /\ pieces inp' /\ Forall (fun c => 0 <= c < 256) d /\
    forall B (f : Z -> U mem B), interp feed ((sys_read_to fd p n ≫= f) m) (inp, out) = interp feed (f (Z.of_nat (length d)) (store_bytes m p d)) (inp', out).
Proof.
  intros Hp Hn Hi. destruct (feed_read fd n inp out Hp Hn Hi) as (d & inp' & E & Hd & Hl & Hc & Hp' & Hb).
  exists d, inp'. do 5 (split; [done|]). intros B f.
  change ((sys_read_to fd p n ≫= f) m) with (USys (CRead fd n) (fun r d => f r (store_bytes m p d))). cbn [interp]. by rewrite E.
Qed.

Lemma interp_read_end {B} fd p n (f : Z -> U mem B) out m :
  interp feed ((sys_read_to fd p n ≫= f) m) ([], out) = interp feed (f 0 m) ([], out).
Proof. done. Qed.

Lemma interp_write {B} p d (f : Z -> U mem B) inp out m n : load_bytes m p (Z.to_nat n) = d ->
  interp feed ((sys_write_from 1 p n ≫= f) m) (inp, out) = interp feed (f (Z.of_nat (length d)) m) (inp, out ++ d).
Proof. intros <-. done. Qed.

(** ** cat *)

Lemma cat_loop_ok fuel buf fd : forall rounds inp out m, pieces inp -> (length (concat inp) < rounds)%nat ->
  exists m', interp feed (cat_loop fuel buf rounds fd m) (inp, out) = (UDone tt m', ([], out ++ concat inp)) /\ same_outside (fun a => buf <= a < buf + 512) m m'.
Proof.
  induction rounds as [|rounds IH]; intros inp out m Hp Hr; [lia|]. cbn [cat_loop].
  destruct (decide (inp = [])) as [->|Hne].
  - rewrite interp_read_end. exists m. cbn. rewrite app_nil_r. split; [done|]. by intros a _.
  - destruct (interp_read fd buf 512 inp out m Hp ltac:(lia) Hne) as (d & inp' & Hd & Hl & Hc & Hp' & Hb & E). rewrite E. clear E.
    assert (0 < length d)%nat by (by destruct d; cbn; [|lia]). replace (0 <? Z.of_nat (length d)) with true by lia.
    erewrite interp_write by (rewrite Nat2Z.id; by apply load_stored). rewrite Z.eqb_refl. cbn [negb].
    destruct (IH inp' (out ++ d) (store_bytes m buf d) Hp') as (m' & E & Hs); [rewrite Hc, length_app in Hr; lia|].
    exists m'. rewrite E, Hc, app_assoc. split; [done|]. intros a Ha. rewrite Hs by done. rewrite ld8_store_bytes, decide_False by lia. done.
Qed.

(** [cat] copies: for every input, however the kernel cuts it into pieces, the
    output is the input, and only the buffer changes. *)
Theorem cat_spec fuel buf fd inp out m : pieces inp -> (length (concat inp) < fuel)%nat ->
  exists m', interp feed (cat fuel buf fd m) (inp, out) = (UDone tt m', ([], out ++ concat inp)) /\ same_outside (fun a => buf <= a < buf + 512) m m'.
Proof. apply cat_loop_ok. Qed.

Lemma cat_spec_witness : pieces [[104; 105]; [10]] /\
  exists m', interp feed (cat 9 4096 0 ∅) ([[104; 105]; [10]], []) = (UDone tt m', ([], [104; 105; 10])).
Proof.
  assert (pieces [[104; 105]; [10]]) as Hp by (split; [repeat constructor; done|cbn; repeat constructor; lia]). split; [exact Hp|].
  destruct (cat_spec 9 4096 0 [[104; 105]; [10]] [] ∅ Hp ltac:(cbn; lia)) as (m' & E & _). exists m'. exact E.
Defined.

(** ** wc *)

#[local] Arguments is_blank _ : simpl never.

Fixpoint wc_list (l : list Z) (k : counts) : option counts :=
  match l with [] => Some k | c :: l' => k ← wc_char c k; wc_list l' k end.

Lemma wc_list_app l1 l2 k : wc_list (l1 ++ l2) k = wc_list l1 k ≫= wc_list l2.
Proof. revert k. induction l1 as [|c l1 IH]; intros k; cbn [app wc_list]; [done|]. destruct (wc_char c k); cbn; [apply IH|done]. Qed.

Lemma wc_buf_stored m l p k : Forall (fun c => 0 <= c < 256) l -> wc_buf (length l) (store_bytes m p l) p k = wc_list l k.
Proof.
  revert m p k. induction l as [|c l IH]; intros m p k Hl; [done|]. apply Forall_cons_1 in Hl as [Hc Hl]. cbn [length wc_buf wc_list store_bytes].
  assert (ld8 (store_bytes (st8 m p c) (p + 1) l) p = c) as ->.
  { rewrite ld8_store_bytes, decide_False by lia. rewrite ld8_st8, decide_True by done. apply u8_small. lia. }
  destruct (wc_char c k); cbn; [by apply IH|done].
Qed.

Lemma wc_loop_ok buf fd : forall rounds inp out m k k', pieces inp -> (length (concat inp) < rounds)%nat -> wc_list (concat inp) k = Some k' ->
  exists m', interp feed (wc_loop buf rounds fd k m) (inp, out) = (UDone (k', 0) m', ([], out)) /\ same_outside (fun a => buf <= a < buf + 512) m m'.
Proof.
  induction rounds as [|rounds IH]; intros inp out m k k' Hp Hr Hk; [lia|]. cbn [wc_loop].
  destruct (decide (inp = [])) as [->|Hne].
  - rewrite interp_read_end. exists m. injection Hk as <-. split; [done|]. by intros a _.
  - destruct (interp_read fd buf 512 inp out m Hp ltac:(lia) Hne) as (d & inp' & Hd & Hl & Hc & Hp' & Hb & E). rewrite E. clear E.
    assert (0 < length d)%nat by (by destruct d; cbn; [|lia]). replace (0 <? Z.of_nat (length d)) with true by lia.
    rewrite (ubind_done uget _ _ (store_bytes m buf d) (store_bytes m buf d)) by done. rewrite Nat2Z.id, wc_buf_stored by done.
    rewrite Hc, wc_list_app in Hk. destruct (wc_list d k) as [k1|]; [|done]. rewrite (ubind_done _ _ _ k1 (store_bytes m buf d)) by done.
    destruct (IH inp' out (store_bytes m buf d) k1 k' Hp') as (m' & E & Hs); [rewrite Hc, length_app in Hr; lia|done|].
    exists m'. rewrite E. split; [done|]. intros a Ha. rewrite Hs by done. rewrite ld8_store_bytes, decide_False by lia. done.
Qed.

(** What there is to count: line feeds, and the words between blanks. *)
Definition count_lines (l : list Z) : Z := Z.of_nat (length (filter (fun c => c = 10) l)).
Fixpoint fields (l : list Z) : list (list Z) :=
  match l with
  | [] => [[]]
  | c :: l' => if is_blank c then [] :: fields l' else match fields l' with w :: ws => (c :: w) :: ws | [] => [[c]] end
  end.
Definition count_words (l : list Z) : Z := Z.of_nat (length (filter (fun w => w <> []) (fields l))).

Definition begins_word (l : list Z) : Z := match l with c :: _ => if is_blank c then 0 else 1 | [] => 0 end.
Lemma fields_first l : exists w ws, fields l = w :: ws /\ begins_word l = if decide (w = []) then 0 else 1.
Proof.
  destruct l as [|c l]; cbn; [by exists [], []|]. destruct (is_blank c); [by exists [], (fields l)|].
  destruct (fields l) as [|w ws]; [by exists [c], []|by exists (c :: w), ws].
Qed.

Lemma words_cons c l : count_words (c :: l) = count_words l + (if is_blank c then 0 else 1 - begins_word l).
Proof.
  unfold count_words. cbn [fields]. destruct (is_blank c); [rewrite filter_cons_False by (intros H; by apply H); lia|].
  destruct (fields_first l) as (w & ws & -> & ->). rewrite filter_cons_True by done. cbn [length].
  destruct (decide (w = [])) as [->|Hw]; [rewrite filter_cons_False by (intros H; by apply H)|rewrite filter_cons_True by done; cbn [length]]; lia.
Qed.

Lemma wc_list_ok l : forall k, 0 <= n_l k -> 0 <= n_w k -> 0 <= n_c k ->
  n_l k + Z.of_nat (length l) < 2 ^ 31 -> n_w k + Z.of_nat (length l) < 2 ^ 31 -> n_c k + Z.of_nat (length l) < 2 ^ 31 ->
  exists iw, wc_list l k = Some (Counts (n_l k + count_lines l)
    (n_w k + count_words l - (if inword k then begins_word l else 0)) (n_c k + Z.of_nat (length l)) iw).
Proof.
  induction l as [|c l IH]; intros k H1 H2 H3 B1 B2 B3.
  - exists (inword k). destruct k as [a b d e]. cbn [wc_list n_l n_w n_c inword length]. change (count_lines []) with 0.
    change (count_words []) with 0. change (begins_word []) with 0. f_equal. f_equal; [lia|destruct e; lia|lia].
  - cbn [length] in *. cbn [wc_list]. rewrite words_cons.
    assert (count_lines (c :: l) = count_lines l + (if c =? 10 then 1 else 0)) as ->.
    { unfold count_lines. destruct (Z.eqb_spec c 10); [rewrite filter_cons_True by done; cbn [length]|rewrite filter_cons_False by done]; lia. }
    unfold wc_char, inc. replace (n_c k =? 2 ^ 31 - 1) with false by lia. replace (n_l k =? 2 ^ 31 - 1) with false by lia. replace (n_w k =? 2 ^ 31 - 1) with false by lia.
    cbn [mbind option_bind begins_word].
    assert (forall k1, n_l k1 = n_l k + (if c =? 10 then 1 else 0) -> n_c k1 = n_c k + 1 ->
      n_w k1 = n_w k + (if is_blank c then 0 else if inword k then 0 else 1) -> inword k1 = negb (is_blank c) ->
      exists iw, wc_list l k1 = Some (Counts (n_l k + (count_lines l + (if c =? 10 then 1 else 0)))
        (n_w k + (count_words l + (if is_blank c then 0 else 1 - begins_word l)) - (if inword k then if is_blank c then 0 else 1 else 0)) (n_c k + Z.of_nat (S (length l))) iw)) as Hk1.
    { intros k1 E1 E2 E3 E4. destruct (IH k1) as [iw E]; [destruct (c =? 10); lia|destruct (is_blank c), (inword k); lia|lia|destruct (c =? 10); lia|destruct (is_blank c), (inword k); lia|lia|].
      exists iw. rewrite E, E1, E2, E3, E4. f_equal. f_equal; [lia|destruct (is_blank c), (inword k); cbn [negb]; lia|lia]. }
    destruct (c =? 10), (is_blank c) eqn:Eb, (inword k) eqn:Ei; cbn [negb mbind option_bind]; apply Hk1; cbn [n_l n_w n_c inword negb]; (done || lia).
Qed.

Lemma interp_feed_writes {A} txt (t : utree mem A) inp out : interp feed (uwrites 1 txt t) (inp, out) = interp feed t (inp, out ++ txt).
Proof.
  revert out. induction txt as [|c txt IH]; intros out; [by rewrite app_nil_r|]. cbn [uwrites interp feed]. rewrite Z.eqb_refl, IH, <- app_assoc. done.
Qed.

(** A string argument that can be printed and is not in the buffer. *)
Definition printable (fuel : nat) (m : mem) (buf size : Z) (s : ustring) : Prop :=
  match s with
  | InMem p => exists l, cstr m p l /\ (length l < fuel)%nat /\ (p + Z.of_nat (length l) < buf \/ buf + size <= p)
  | Const l => Forall (fun x => 0 <= x < 256) l
  end.

Definition wc_format : list Z := bytes_of "%d %d %d %s" ++ [10].

Lemma wc_supplied m fuel buf size a b c name m' : - 2 ^ 31 < a < 2 ^ 31 -> - 2 ^ 31 < b < 2 ^ 31 -> - 2 ^ 31 < c < 2 ^ 31 ->
  printable fuel m buf size name -> same_outside (fun x => buf <= x < buf + size) m m' ->
  supplied m' fuel wc_format [AInt a; AInt b; AInt c; AStr name].
Proof.
  intros Ha Hb Hc Hn Hs. unfold wc_format. cbn.
  assert (forall x ap, - 2 ^ 31 < x < 2 ^ 31 -> takes m' fuel 100 (AInt x :: ap) (Some ap)) as Hd by (intros x ap Hx; split; [exact Hx|done]).
  apply (s_conv _ _ _ _ _ _ (Hd _ _ Ha)), s_char; [done|]. apply (s_conv _ _ _ _ _ _ (Hd _ _ Hb)), s_char; [done|].
  apply (s_conv _ _ _ _ _ _ (Hd _ _ Hc)), s_char; [done|]. eapply s_conv; [|apply s_char; [done|]; apply s_end].
  cbn. split; [|done]. destruct name as [p|l]; [|done]. destruct Hn as (l & Hl & Hf & Hd'). right. exists l. split; [|done].
  eapply cstr_frame; [|exact Hl]. intros x Hx. apply Hs. lia.
Qed.

(** C32: [wc] counts: for every input, however the kernel cuts it into pieces, it prints
    one line with the number of line feeds, the number of words (the non-empty fields
    between blanks), the number of bytes, and the name. *)
Theorem wc_spec fuel buf fd name inp out m : pieces inp -> (length (concat inp) < fuel)%nat ->
  Z.of_nat (length (concat inp)) < 2 ^ 31 -> printable fuel m buf 512 name ->
  exists txt m', interp feed (wc fuel buf fd name m) (inp, out) = (UDone tt m', ([], out ++ txt)) /\
    formats m' wc_format [AInt (count_lines (concat inp)); AInt (count_words (concat inp)); AInt (Z.of_nat (length (concat inp))); AStr name] txt.
Proof.
  intros Hp Hf Hl Hn. set (l := concat inp) in *. set (k0 := Counts 0 0 0 false).
  assert (0 <= count_lines l < 2 ^ 31) as H1.
  { unfold count_lines. pose proof (length_filter (fun c => c = 10) l). lia. }
  assert (0 <= count_words l < 2 ^ 31) as H2.
  { split; [unfold count_words; lia|]. assert (count_words l <= Z.of_nat (length l)); [|lia]. clear. induction l as [|c l IH]; [done|].
    rewrite words_cons. cbn [length]. unfold begins_word. destruct (is_blank c), l as [|d l0]; try destruct (is_blank d); lia. }
  destruct (wc_list_ok l k0) as [iw E]; [done..| | |]; [cbn; lia..|]. cbn [k0 n_l n_w n_c inword] in E. rewrite Z.sub_0_r, !Z.add_0_l in E.
  destruct (wc_loop_ok buf fd fuel inp out m k0 _ Hp Hf E) as (m' & Er & Hs).
  destruct (vprintf_loop_ok fuel 1 m' wc_format [AInt (count_lines l); AInt (count_words l); AInt (Z.of_nat (length l)); AStr name]) as (txt & Et & Hfm).
  { apply (wc_supplied m fuel buf 512); (done || lia). }
  exists txt, m'. split; [|exact Hfm]. unfold wc. fold k0. rewrite ubind_eq, interp_bind, Er. cbn iota beta. change (0 <? 0) with false. cbn iota.
  unfold msg, fprintf, vprintf. fold wc_format. cbn [n_l n_w n_c]. rewrite Et, interp_feed_writes. done.
Qed.

Lemma wc_spec_witness : pieces [[104; 105; 32]; [10; 111]] /\
  exists txt m', interp feed (wc 9 4096 0 (Const [120]) ∅) ([[104; 105; 32]; [10; 111]], []) = (UDone tt m', ([], txt)) /\
    formats m' wc_format [AInt 1; AInt 2; AInt 5; AStr (Const [120])] txt.
Proof.
  assert (pieces [[104; 105; 32]; [10; 111]]) as Hp by (split; [repeat constructor; done|cbn; repeat constructor; lia]). split; [exact Hp|].
  destruct (wc_spec 9 4096 0 (Const [120]) [[104; 105; 32]; [10; 111]] [] ∅ Hp ltac:(cbn; lia) ltac:(cbn; lia)) as (txt & m' & E & Hf); [repeat constructor; lia|].
  exists txt, m'. split; [exact E|exact Hf].
Defined.

(** ** grep *)

(** Complete lines as they stand in the input, and what [grep] prints of them. *)
Definition lines_text (ls : list (list Z)) : list Z := concat (map (fun l => l ++ [10]) ls).
Inductive greps (r : list Z) : list (list Z) -> list Z -> Prop :=
| gr_end : greps r [] []
| gr_keep l ls txt : matches r l -> greps r ls txt -> greps r (l :: ls) (l ++ [10] ++ txt)
| gr_drop l ls txt : ~ matches r l -> greps r ls txt -> greps r (l :: ls) txt.

Lemma greps_app r ls1 ls2 t1 t2 : greps r ls1 t1 -> greps r ls2 t2 -> greps r (ls1 ++ ls2) (t1 ++ t2).
Proof.
  induction 1; intros H2; [done| |]; cbn [app].
  - rewrite <- !app_assoc. apply gr_keep; [done|auto].
  - apply gr_drop; [done|auto].
Qed.

Lemma load_cstr m p l : cstr m p l -> load_bytes m p (length l) = l.
Proof.
  intros Hc. apply list_eq. intros i. destruct (decide (i < length l)%nat) as [Hi|Hi].
  - rewrite lookup_load_bytes by done. destruct (lookup_lt_is_Some_2 l i Hi) as [x Hx]. rewrite Hx. f_equal. by apply (cstr_lookup m p l i x).
  - rewrite !lookup_ge_None_2 by (rewrite ?length_load_bytes; lia). done.
Qed.

Lemma cstr_of m p l : (forall i c, l !! i = Some c -> ld8 m (p + Z.of_nat i) = c /\ c <> 0) -> ld8 m (p + Z.of_nat (length l)) = 0 -> cstr m p l.
Proof.
  revert p. induction l as [|c l IH]; intros p Hl H0; cbn [length cstr] in *; [by rewrite Z.add_0_r in H0|].
  destruct (Hl 0%nat c eq_refl) as [Hc Hc0]. rewrite Z.add_0_r in Hc. split; [done|]. split; [done|]. apply IH.
  - intros i d Hi. destruct (Hl (S i) d Hi) as [<- Hd]. split; [f_equal; lia|done].
  - rewrite <- H0. f_equal. lia.
Qed.

Lemma first_index_app (P : Z -> bool) l x l' : Forall (fun c => P c = false) l -> P x = true -> first_index P (l ++ x :: l') = Some (length l).
Proof.
  intros Hl Hx. unfold first_index. rewrite list_find_app_r; [|by apply list_find_None; eapply Forall_impl; [exact Hl|]; cbn; intros c ->; by intros ?].
  cbn [list_find]. rewrite decide_True by (by rewrite Hx). done.
Qed.
Lemma first_index_none (P : Z -> bool) l : Forall (fun c => P c = false) l -> first_index P l = None.
Proof. intros Hl. unfold first_index. by assert (list_find P l = None) as -> by (apply list_find_None; eapply Forall_impl; [exact Hl|]; cbn; intros c ->; by intros ?). Qed.

Lemma not_nl l : 10 ∉ l -> Forall (fun c => (c =? 10) = false) l.
Proof. intros H. apply Forall_forall. intros c Hc. apply Z.eqb_neq. by intros ->. Qed.

(** Memory outside of what a string and its terminator take. *)
Definition off_string (p : Z) (l : list Z) (lo hi : Z) : Prop := p + Z.of_nat (length l) < lo \/ hi <= p.

Lemma cstr_apart m m' p l lo hi : off_string p l lo hi -> same_outside (fun a => lo <= a < hi) m m' -> cstr m p l -> cstr m' p l.
Proof. intros Hd Hs. apply cstr_frame. intros b Hb. apply Hs. destruct Hd; lia. Qed.

(** Cutting a string short. *)
Lemma cstr_cut m p l c t : cstr m p (l ++ c :: t) -> cstr (st8 m (p + Z.of_nat (length l)) 0) p l.
Proof.
  intros Hc. apply cstr_of; [|by rewrite ld8_st8, decide_True].
  intros i x Hi. pose proof (lookup_lt_Some _ _ _ Hi). rewrite ld8_st8, decide_False by lia.
  apply (cstr_lookup m p (l ++ c :: t)); [done|]. by apply lookup_app_l_Some.
Qed.

(** One line: it is printed if it matches. *)
Lemma grep_line_ok {B} fuel pattern r m p l t (k : U mem B) inp out : 0 < p -> 10 ∉ l -> cstr m p (l ++ 10 :: t) -> cstr m pattern r ->
  off_string pattern r p (p + Z.of_nat (length l) + 1) -> (length r + length l < fuel)%nat ->
  let q := p + Z.of_nat (length l) in
  exists m' txt, interp feed ((umodify (fun m => st8 m q 0) ;; m ← uget; r ← ufuel (grep_match fuel m pattern p);
      uwhen (negb (r =? 0)) (umodify (fun m => st8 m q 10) ;; sys_write_from 1 p (q + 1 - p) ;; mret tt) ;; k) m) (inp, out) = interp feed (k m') (inp, out ++ txt) /\
    greps r [l] txt /\ same_outside (fun a => a = q) m m'.
Proof.
  intros Hp0 Hnl Hc Hr Hoff Hf q. set (m1 := st8 m q 0).
  assert (forall v, same_outside (fun a => p <= a < q + 1) m (st8 m q v)) as Hso by (intros v a Ha; rewrite ld8_st8, decide_False by lia; done).
  assert (cstr m1 p l) as Hc1 by (by apply (cstr_cut m p l 10 t)).
  assert (cstr m1 pattern r) as Hr1 by (eapply cstr_apart; [exact Hoff|apply Hso|exact Hr]).
  assert (tells (grep_match fuel m1 pattern p) (matches r l)) as Ht.
  { apply grep_match_ok; done. }
  rewrite (ubind_done _ _ m tt m1), (ubind_done uget _ m1 m1 m1) by done. destruct Ht as [[-> Hm]|[-> Hm]].
  - cbn [ufuel]. rewrite ubind_mret. cbn [Z.eqb negb uwhen]. set (m2 := st8 m1 q 10).
    assert (load_bytes m2 p (Z.to_nat (q + 1 - p)) = l ++ [10]) as Hload.
    { replace (Z.to_nat (q + 1 - p)) with (length (l ++ [10%Z])) by (rewrite length_app; cbn [length]; lia).
      apply list_eq. intros i. destruct (decide (i < length (l ++ [10%Z]))%nat) as [Hi|Hi]; [|rewrite !lookup_ge_None_2 by (rewrite ?length_load_bytes; lia); done].
      rewrite lookup_load_bytes by done. rewrite length_app in Hi. cbn [length] in Hi. unfold m2. rewrite ld8_st8. destruct (decide (i = length l)) as [->|Hne].
      - rewrite decide_True, lookup_app_r, Nat.sub_diag by lia. done.
      - rewrite decide_False by lia. unfold m1. rewrite ld8_st8, decide_False by lia. destruct (lookup_lt_is_Some_2 l i) as [x Hx]; [lia|].
        rewrite (lookup_app_l_Some _ _ _ _ Hx). f_equal. apply (cstr_lookup m p (l ++ 10 :: t)); [done|]. by apply lookup_app_l_Some. }
    exists m2, (l ++ [10]). split; [|split].
    + rewrite ubind_eq, interp_bind. rewrite (ubind_done _ _ m1 tt m2) by done. erewrite interp_write by exact Hload. done.
    + rewrite <- (app_nil_r [10]). by apply gr_keep; [|constructor].
    + intros a Ha. unfold m2, m1. rewrite !ld8_st8, !decide_False by done. done.
  - cbn [ufuel]. rewrite ubind_mret. cbn [Z.eqb negb uwhen]. rewrite ubind_mret. exists m1, []. rewrite app_nil_r. split; [done|]. split; [by apply gr_drop; [|constructor]|].
    intros a Ha. unfold m1. rewrite ld8_st8, decide_False by done. done.
Qed.

Lemma grep_lines_ok fuel pattern r rest inp : forall ls rounds m p out, 0 < p -> 10 ∉ rest -> Forall (fun l => 10 ∉ l) ls ->
  cstr m p (lines_text ls ++ rest) -> cstr m pattern r -> off_string pattern r p (p + Z.of_nat (length (lines_text ls))) ->
  (length r + length (lines_text ls ++ rest) < fuel)%nat -> (length ls < rounds)%nat ->
  exists m' txt, interp feed (grep_lines fuel rounds pattern p m) (inp, out) = (UDone (p + Z.of_nat (length (lines_text ls))) m', (inp, out ++ txt)) /\
    greps r ls txt /\ same_outside (fun a => p <= a < p + Z.of_nat (length (lines_text ls))) m m'.
Proof.
  induction ls as [|l ls IH]; intros [|rounds] m p out Hp0 Hrest Hls Hc Hr Hoff Hf Hrd; try (cbn in Hrd; lia); cbn [grep_lines].
  - change (lines_text [] ++ rest) with rest in *. rewrite (ubind_done uget _ m m m), (strchr_ok m rest 10 fuel p Hc) by (done || lia).
    rewrite first_index_none by (by apply not_nl). cbn [ufuel]. rewrite ubind_mret. exists m, []. cbn. rewrite Z.add_0_r, app_nil_r. split; [done|]. split; [constructor|]. by intros a _.
  - apply Forall_cons_1 in Hls as [Hl Hls]. assert (lines_text (l :: ls) = l ++ 10 :: lines_text ls) as El by (unfold lines_text; cbn; by rewrite <- app_assoc).
    rewrite El in Hc, Hoff, Hf. rewrite <- app_assoc in Hc, Hf. cbn [app] in Hc, Hf. rewrite length_app in Hoff, Hf. cbn [length] in Hoff, Hf, Hrd.
    rewrite (ubind_done uget _ m m m), (strchr_ok m _ 10 fuel p Hc) by (done || (rewrite length_app; cbn [length]; lia)).
    rewrite first_index_app by (done || by apply not_nl). cbn [ufuel]. rewrite ubind_mret. set (q := p + Z.of_nat (length l)). replace (q =? 0) with false by lia.
    destruct (grep_line_ok fuel pattern r m p l (lines_text ls ++ rest) (grep_lines fuel rounds pattern (q + 1)) inp out Hp0 Hl Hc Hr) as (m1 & t1 & E1 & Hg1 & Hs1);
      [destruct Hoff; [left|right]; lia|lia|]. fold q in E1, Hs1. rewrite E1.
    assert (cstr m1 (q + 1) (lines_text ls ++ rest)) as Hc1.
    { change (l ++ 10 :: lines_text ls ++ rest) with (l ++ [10] ++ (lines_text ls ++ rest)) in Hc. rewrite app_assoc in Hc. apply cstr_app in Hc. rewrite length_app in Hc. cbn [length] in Hc.
      replace (p + Z.of_nat (length l + 1)) with (q + 1) in Hc by lia. revert Hc. apply cstr_frame. intros b Hb. apply Hs1. lia. }
    assert (cstr m1 pattern r) as Hr1.
    { revert Hr. apply cstr_frame. intros b Hb. apply Hs1. destruct Hoff; lia. }
    destruct (IH rounds m1 (q + 1) (out ++ t1)) as (m2 & t2 & E2 & Hg2 & Hs2); [lia|done|done|done|done|destruct Hoff; [left|right]; lia|lia|lia|].
    exists m2, (t1 ++ t2). rewrite E2, El, length_app. cbn [length]. split; [f_equal; [f_equal; lia|by rewrite app_assoc]|]. split; [by apply (greps_app r [l] ls)|].
    intros a Ha. rewrite Hs2 by lia. apply Hs1. lia.
Qed.

(** The lines of a text, cut anywhere. *)
Lemma lines_cut ls : forall rest x y, 10 ∉ rest -> Forall (fun l => 10 ∉ l) ls -> lines_text ls ++ rest = x ++ y ->
  exists ls1 ls2 r1, ls = ls1 ++ ls2 /\ x = lines_text ls1 ++ r1 /\ (10 ∉ r1) /\ r1 ++ y = lines_text ls2 ++ rest.
Proof.
  induction ls as [|l ls IH]; intros rest x y Hrest Hls E.
  - exists [], [], x. split; [done|]. split; [done|]. split; [|by rewrite <- E]. intros H. apply Hrest. change rest with (lines_text [] ++ rest). rewrite E. apply elem_of_app. by left.
  - apply Forall_cons_1 in Hls as [Hl Hls]. assert (lines_text (l :: ls) = (l ++ [10]) ++ lines_text ls) as El by done.
    rewrite El, <- app_assoc in E. apply app_eq_inv in E as [(k & Ek & Ey)|(k & -> & Ek)].
    + destruct (decide (k = [])) as [->|Hk].
      * rewrite app_nil_r in Ek. exists [l], ls, []. split; [done|]. split; [rewrite <- Ek; unfold lines_text; cbn; by rewrite !app_nil_r|].
        split; [apply not_elem_of_nil|done].
      * destruct (exists_last Hk) as (k' & z & ->). rewrite app_assoc in Ek. apply app_inj_tail in Ek as [-> <-].
        exists [], ((x ++ k') :: ls), x. split; [done|]. split; [done|]. split; [intros H; apply Hl, elem_of_app; by left|].
        rewrite El, Ey, !app_assoc. done.
    + destruct (IH rest k y Hrest Hls Ek) as (ls1 & ls2 & r1 & -> & -> & Hr1 & E2).
      exists (l :: ls1), ls2, r1. split; [done|]. split; [unfold lines_text; cbn; by rewrite <- !app_assoc|done].
Qed.

(** A part of a text without a line feed is no longer than the line it is in. *)
Lemma pending_short ls rest pend y n : 10 ∉ pend -> lines_text ls ++ rest = pend ++ y -> Forall (fun l => (length l <= n)%nat) ls -> (length rest <= n)%nat ->
  (length pend <= n)%nat.
Proof.
  intros Hp E Hls Hr. destruct ls as [|l ls].
  - change (rest = pend ++ y) in E. rewrite E, length_app in Hr. lia.
  - apply Forall_cons_1 in Hls as [Hl _]. change ((l ++ [10]) ++ lines_text ls) with (lines_text (l :: ls)) in E || idtac.
    assert ((l ++ [10]) ++ (lines_text ls ++ rest) = pend ++ y) as E2 by (rewrite <- E; unfold lines_text; cbn; by rewrite <- !app_assoc).
    apply app_eq_inv in E2 as [(k & Ek & _)|(k & -> & _)].
    + destruct (decide (k = [])) as [->|Hk]; [|destruct (exists_last Hk) as (k' & z & ->); rewrite app_assoc in Ek; apply app_inj_tail in Ek as [-> _]; rewrite length_app in Hl; lia].
      rewrite app_nil_r in Ek. subst pend. exfalso. apply Hp, elem_of_app. right. by left.
    + exfalso. apply Hp, elem_of_app. left. apply elem_of_app. right. by left.
Qed.

(** New bytes behind the unfinished line, and a terminator. *)
Lemma refill_ok m buf pend d : load_bytes m buf (length pend) = pend -> Forall (fun c => c <> 0) (pend ++ d) -> Forall (fun c => 0 <= c < 256) d ->
  let m2 := st8 (store_bytes m (buf + Z.of_nat (length pend)) d) (buf + Z.of_nat (length (pend ++ d))) 0 in
  cstr m2 buf (pend ++ d) /\ same_outside (fun a => buf <= a <= buf + Z.of_nat (length (pend ++ d))) m m2.
Proof.
  intros Hm Hnz Hb m2. split.
  - apply cstr_of; [|unfold m2; by rewrite ld8_st8, decide_True]. intros i c Hi. pose proof (lookup_lt_Some _ _ _ Hi) as Hix.
    split; [|by eapply (proj1 (Forall_lookup _ _) Hnz)]. unfold m2. rewrite ld8_st8, decide_False by lia. rewrite ld8_store_bytes.
    apply lookup_app_Some in Hi as [Hi|[Hge Hi]]; pose proof (lookup_lt_Some _ _ _ Hi).
    + rewrite decide_False by lia. rewrite <- Hm in Hi. rewrite lookup_load_bytes in Hi by lia. by injection Hi.
    + rewrite decide_True by lia. replace (Z.to_nat _) with (i - length pend)%nat by lia. rewrite Hi. cbn.
      apply u8_small. eapply (proj1 (Forall_lookup _ _) Hb) in Hi. lia.
  - intros a Ha. unfold m2. rewrite length_app in *. rewrite ld8_st8, decide_False by lia. rewrite ld8_store_bytes, decide_False by lia. done.
Qed.

(** The unfinished line moved to the front. *)
Lemma shift_ok m buf p l : (forall i c, l !! i = Some c -> ld8 m (p + Z.of_nat i) = c) ->
  let m' := Ulib.memmove m buf p (Z.of_nat (length l)) in
  load_bytes m' buf (length l) = l /\ same_outside (fun a => buf <= a < buf + Z.of_nat (length l)) m m'.
Proof.
  intros Hl m'. assert (forall a, ld8 m' a = if decide (buf <= a < buf + Z.of_nat (length l)) then ld8 m (p + (a - buf)) else ld8 m a) as Hm'.
  { intros a. unfold m'. change (Ulib.memmove m buf p) with (Mem.memmove m buf p). rewrite memmove_ok. case_decide; [f_equal; lia|done]. }
  split; [|intros a Ha; by rewrite Hm', decide_False by done].
  apply list_eq. intros i. destruct (decide (i < length l)%nat) as [Hi|Hi]; [|rewrite !lookup_ge_None_2 by (rewrite ?length_load_bytes; lia); done].
  rewrite lookup_load_bytes by done. rewrite Hm', decide_True by lia. destruct (lookup_lt_is_Some_2 l i Hi) as [c Hc]. rewrite Hc. f_equal.
  replace (p + (buf + Z.of_nat i - buf)) with (p + Z.of_nat i) by lia. by apply Hl.
Qed.

(** The buffer holds the unfinished line. *)
Lemma grep_loop_ok fuel pattern r buf fd rest : 0 < buf -> off_string pattern r buf (buf + GREP_BUF) -> 10 ∉ rest -> (length rest <= 1022)%nat ->
  (length r + 1024 < fuel)%nat -> forall rounds inp ls pend m out,
  pieces inp -> Forall (fun c => c <> 0) (pend ++ concat inp) -> (length (concat inp) < rounds)%nat ->
  Forall (fun l => 10 ∉ l) ls -> Forall (fun l => (length l <= 1022)%nat) ls ->
  lines_text ls ++ rest = pend ++ concat inp -> 10 ∉ pend -> load_bytes m buf (length pend) = pend -> cstr m pattern r ->
  exists m' txt, interp feed (grep_loop fuel buf rounds pattern fd (Z.of_nat (length pend)) m) (inp, out) = (UDone tt m', ([], out ++ txt)) /\ greps r ls txt.
Proof.
  intros Hb0 Hoff Hrest Hrl Hfuel. induction rounds as [|rounds IH]; intros inp ls pend m out Hp Hnz Hr Hls Hll E Hpn Hm Hpat; [lia|]. cbn [grep_loop].
  destruct (decide (inp = [])) as [->|Hne].
  - rewrite interp_read_end. exists m, []. rewrite app_nil_r. split; [done|]. cbn [concat] in E. rewrite app_nil_r in E.
    destruct ls as [|l ls]; [constructor|]. exfalso. apply Hpn. rewrite <- E. unfold lines_text. cbn. rewrite !elem_of_app. left. left. right. by left.
  - pose proof (pending_short ls rest pend (concat inp) 1022 Hpn E Hll Hrl) as Hpl.
    destruct (interp_read fd (buf + Z.of_nat (length pend)) (GREP_BUF - Z.of_nat (length pend) - 1) inp out m Hp ltac:(unfold GREP_BUF; lia) Hne) as (d & inp' & Hd & Hl & Hc & Hp' & Hb & Er).
    rewrite Er. clear Er. assert (0 < length d)%nat by (by destruct d; cbn; [|lia]). replace (0 <? Z.of_nat (length d)) with true by lia. cbn zeta.
    set (m1 := store_bytes m (buf + Z.of_nat (length pend)) d). set (x := pend ++ d).
    replace (Z.of_nat (length pend) + Z.of_nat (length d)) with (Z.of_nat (length x)) by (unfold x; rewrite length_app; lia).
    set (m2 := st8 m1 (buf + Z.of_nat (length x)) 0). rewrite (ubind_done _ _ m1 tt m2) by done.
    assert (length x <= 1023)%nat as Hxl by (unfold x; rewrite length_app; unfold GREP_BUF in Hl; lia).
    assert (0 < Z.of_nat (length x)) as Hx0%Z.ltb_lt by (unfold x; rewrite length_app; lia).
    rewrite Hc, app_assoc in E, Hnz. fold x in E, Hnz. apply Forall_app in Hnz as [Hnzx Hnz'].
    destruct (refill_ok m buf pend d Hm Hnzx Hb) as [Hcx Hso]. fold m1 x m2 in Hcx, Hso.
    destruct (lines_cut ls rest x (concat inp') Hrest Hls E) as (ls1 & ls2 & r1 & -> & Ex & Hr1 & E2).
    apply Forall_app in Hls as [Hls1 Hls2]. apply Forall_app in Hll as [Hll1 Hll2]. rewrite Ex in Hcx.
    assert (cstr m2 pattern r) as Hpat2 by (revert Hpat; apply cstr_frame; intros b Hb1; apply Hso; unfold off_string, GREP_BUF in *; destruct Hoff; lia).
    assert (length (lines_text ls1) + length r1 = length x)%nat as Hlx by (by rewrite Ex, length_app).
    assert (length ls1 <= length (lines_text ls1))%nat as Hlls.
    { clear. unfold lines_text. induction ls1 as [|l ls IH]; cbn; [lia|]. rewrite !length_app. cbn [length]. lia. }
    destruct (grep_lines_ok fuel pattern r r1 inp' ls1 fuel m2 buf out Hb0 Hr1 Hls1 Hcx Hpat2) as (m3 & t1 & E3 & Hg1 & Hs3);
      [destruct Hoff as [?|?]; [left; lia|right; unfold GREP_BUF in *; lia]|rewrite <- Ex; lia|lia|].
    rewrite ubind_eq, interp_bind, E3. cbn iota beta. rewrite Hx0.
    set (p := buf + Z.of_nat (length (lines_text ls1))). assert (Z.of_nat (length x) - (p - buf) = Z.of_nat (length r1)) as -> by (unfold p; rewrite <- Hlx; lia).
    set (m4 := Ulib.memmove m3 buf p (Z.of_nat (length r1))). rewrite (ubind_done _ _ m3 tt m4) by done.
    destruct (shift_ok m3 buf p r1) as [Hm4 Hs4].
    { intros i c Hi. pose proof (lookup_lt_Some _ _ _ Hi). rewrite Hs3 by (unfold p; lia). apply (cstr_lookup m2 p r1); [|done]. by apply cstr_app in Hcx. }
    fold m4 in Hm4, Hs4.
    destruct (IH inp' ls2 r1 m4 (out ++ t1)) as (m5 & t2 & E5 & Hg2); try done.
    + rewrite Ex in Hnzx. apply Forall_app in Hnzx as [_ ?]. by apply Forall_app.
    + rewrite Hc, length_app in Hr. lia.
    + revert Hpat2. apply cstr_frame. intros b Hb1. unfold off_string, GREP_BUF in *. rewrite Hs4 by (destruct Hoff; lia). apply Hs3. destruct Hoff; lia.
    + exists m5, (t1 ++ t2). rewrite E5, app_assoc. split; [done|]. by apply greps_app.
Qed.

(** C40: [grep] filters lines: for every input of lines of at most 1022 bytes without
    NULs, however the kernel cuts it into pieces, it ends and prints exactly the complete
    lines that match the pattern, each with its line feed, in order; a last line
    without a line feed is not looked at. *)
Theorem grep_spec fuel buf pattern r fd inp ls rest out m :
  pieces inp -> concat inp = lines_text ls ++ rest -> Forall (fun c => c <> 0) (concat inp) ->
  Forall (fun l => (10 ∉ l) /\ (length l <= 1022)%nat) ls -> (10 ∉ rest) /\ (length rest <= 1022)%nat ->
  cstr m pattern r -> 0 < buf -> off_string pattern r buf (buf + GREP_BUF) -> (length r + 1024 + length (concat inp) < fuel)%nat ->
  exists m' txt, interp feed (grep fuel buf pattern fd m) (inp, out) = (UDone tt m', ([], out ++ txt)) /\ greps r ls txt.
Proof.
  intros Hp E Hnz Hls [Hr Hrl] Hpat Hb Hoff Hf. apply (grep_loop_ok fuel pattern r buf fd rest Hb Hoff Hr Hrl ltac:(lia) fuel inp ls [] m out Hp Hnz).
  - lia.
  - eapply Forall_impl; [exact Hls|]. by intros l [? _].
  - eapply Forall_impl; [exact Hls|]. by intros l [_ ?].
  - done.
  - apply not_elem_of_nil.
  - done.
  - done.
Qed.

(** The lines "ab" and "c" and the pattern "b", in three pieces. *)
Lemma grep_spec_witness : exists m' txt,
  interp feed (grep 1100 8192 4096 0 (store_bytes ∅ 4096 [98; 0])) ([[97]; [98; 10; 99]; [10; 120]], []) = (UDone tt m', ([], txt)) /\ greps [98] [[97; 98]; [99]] txt.
Proof.
  apply (grep_spec 1100 8192 4096 [98] 0 _ _ [120] []).
  - split; [repeat constructor; done|cbn; repeat constructor; lia].
  - reflexivity.
  - cbn. repeat constructor; lia.
  - repeat constructor; try (cbn; lia); intros H; repeat (apply elem_of_cons in H as [H|H]; [discriminate H|]); by apply elem_of_nil in H.
  - split; [|cbn; lia]. intros H. apply elem_of_cons in H as [H|H]; [discriminate H|]. by apply elem_of_nil in H.
  - cbn [cstr]. repeat split; by vm_compute.
  - lia.
  - left. cbn. lia.
  - cbn. lia.
Defined.
