(* ===== verification/Xargs.v ===== *)
(** * Programs that start others: user_space/xargs.c, primes.c

    [base_av] is an array of 32 pointers, of which those not yet assigned are undefined
    ([None]); a store or a load past its end is undefined. *)

From S2P Require Import Prelude Hart VmSystem Mem Str Bio State Sysfile UserSys Ulib Tools.

(** ** xargs *)

Definition MAXARG : nat := 32.

Section Xargs.
Context (fuel : nat) (buf : Z).

Definition set_av (i : nat) (p : Z) (av : list (option Z)) : option (list (option Z)) :=
  if (i <? length av)%nat then Some (<[i := Some p]> av) else None.

(** [for (int i = 1; argv[i] != 0; ++i) base_av[i - 1] = argv[i];] *)
Fixpoint copy_args (i : nat) (args : list Z) (av : list (option Z)) : option (list (option Z)) :=
  match args with [] => Some av | a :: args' => av ← set_av i a av; copy_args (S i) args' av end.

(** Every line feed of the buffer becomes the end of the string. *)
Fixpoint chop_lines (rounds : nat) (cur : Z) (m : mem) : option mem :=
  match rounds with
  | O => None
  | S rounds' => if ld8 m cur =? 0 then Some m else chop_lines rounds' (cur + 1) (if ld8 m cur =? 10 then st8 m cur 0 else m)
  end.

(** [while ( *cur == ' ') cur++;] *)
Fixpoint skip_blanks (rounds : nat) (m : mem) (cur : Z) : option Z :=
  match rounds with O => None | S rounds' => if ld8 m cur =? 32 then skip_blanks rounds' m (cur + 1) else Some cur end.

(** The loop over the line: the current argument starts at [arg]. *)
Fixpoint scan_args (rounds : nat) (cur arg : Z) (ac : nat) (av : list (option Z)) : U mem (Z * Z * nat * list (option Z)) :=
  match rounds with
  | O => uno_fuel
  | S rounds' =>
      m ← uget;
      if ld8 m cur =? 0 then mret (cur, arg, ac, av)
      else if negb (ld8 m cur =? 32) then scan_args rounds' (cur + 1) arg ac av
      else if (ac =? MAXARG)%nat then printf fuel (bytes_of "too many args" ++ [10]) [] ;; uexit 0
      else
        umodify (fun m => st8 m cur 0) ;;
        av ← uopt (set_av ac arg av);
        m ← uget;
        cur ← ufuel (skip_blanks fuel m (cur + 1));
        scan_args rounds' cur cur (S ac) av
  end.

(** What [exec] reads from the array: strings up to the null pointer. *)
Fixpoint av_strings (m : mem) (av : list (option Z)) : option (list (list Z)) :=
  match av with
  | Some p :: av' => if p =? 0 then Some [] else l ← av_strings m av'; Some (ustr fuel m p :: l)
  | _ => None
  end.

(** One line of the input, which is in [buf]. *)
Definition xargs_line (base_ac : nat) (av : list (option Z)) : U mem (list (option Z)) :=
  m ← uget;
  cur ← ufuel (skip_blanks fuel m buf);
  '(cur, arg, ac, av) ← scan_args fuel cur cur base_ac av;
  '(ac, av) ← (if negb (arg =? cur) then av ← uopt (set_av ac arg av); mret (S ac, av) else mret (ac, av));
  av ← uopt (set_av ac 0 av);
  pid ← usys CFork;
  uwhen (pid =? 0) (
    m ← uget;
    l ← uopt (av_strings m av);
    path ← uopt (l !! 0%nat);
    usys (CExec path l) ;; uexit 0) ;;
  usys CWait ;;
  mret av.

Fixpoint xargs_loop (rounds : nat) (base_ac : nat) (av : list (option Z)) : U mem unit :=
  match rounds with
  | O => uno_fuel
  | S rounds' =>
      gets buf 512 ;;
      m ← uget;
      m ← ufuel (chop_lines fuel buf m);
      umodify (fun _ => m) ;;
      if ld8 m buf =? 0 then mret tt else
      av ← xargs_line base_ac av;
      xargs_loop rounds' base_ac av
  end.

(** [argv] without the null pointer at its end. *)
Definition xargs_main (argv : list Z) : U mem unit :=
  av ← uopt (copy_args 0 (tail argv) (replicate MAXARG None));
  av ← uopt (set_av (length argv - 1) 0 av);
  xargs_loop fuel (length argv - 1) av ;;
  uexit 0.
End Xargs.

(** ** primes

    Descriptors are numbers; [char] is unsigned. *)
Definition MAX : Z := 35.
Record sieve := Sieve { base : Z; cur : Z; no_child : bool; used_pip1 : bool; pip_left : Z * Z; pip_right : Z * Z }.

Section Primes.
Context (fuel : nat).

Definition pipe_call : U mem (option (Z * Z)) :=
  '(_, d) ← usys2 CPipe;
  mret (match d with
        | [a0; a1; a2; a3; b0; b1; b2; b3] => Some (a0 + 256 * a1 + 65536 * a2 + 16777216 * a3, b0 + 256 * b1 + 65536 * b2 + 16777216 * b3)
        | _ => None end).
Definition prime_line (p : Z) : U mem unit := printf fuel (bytes_of "prime %d" ++ [10]) [AInt p].

(** [while (++cur <= MAX) if (cur % base != 0) write(pip_right[1], &cur, 1);] *)
Fixpoint feed_numbers (rounds : nat) (fd base cur : Z) : U mem unit :=
  match rounds with
  | O => uno_fuel
  | S rounds' =>
      let cur := u8 (cur + 1) in
      if cur <=? MAX then
        uwhen (negb (cur mod base =? 0)) (usys (CWrite fd [cur]) ;; mret tt) ;;
        feed_numbers rounds' fd base cur
      else mret tt
  end.

(** The loop of a filter: it keeps a prime and passes the rest on, to a filter that it
    starts for the first number that is left. *)
Fixpoint filter_loop (rounds : nat) (k : sieve) : U mem sieve :=
  match rounds with
  | O => uno_fuel
  | S rounds' =>
      '(r, d) ← usys2 (CRead (fst (pip_left k)) 1);
      if r =? 0 then mret k else
      let cur := match d with c :: _ => c | [] => cur k end in
      let k := Sieve (base k) cur (no_child k) (used_pip1 k) (pip_left k) (pip_right k) in
      if cur mod base k =? 0 then filter_loop rounds' k
      else if no_child k then
        o ← pipe_call;
        p ← uopt o;
        pid ← usys CFork;
        if negb (pid =? 0) then
          usys (CClose (fst p)) ;;
          filter_loop rounds' (Sieve (base k) cur false (used_pip1 k) (pip_left k) p)
        else
          usys (CClose (fst (pip_left k))) ;;
          usys (CClose (snd p)) ;;
          prime_line cur ;;
          filter_loop rounds' (Sieve cur cur (no_child k) (negb (used_pip1 k)) p p)
      else usys (CWrite (snd (pip_right k)) [cur]) ;; filter_loop rounds' k
  end.

Definition primes_main : U mem unit :=
  o ← pipe_call;
  pip1 ← uopt o;
  prime_line 2 ;;
  pid ← usys CFork;
  if negb (pid =? 0) then
    usys (CClose (fst pip1)) ;;
    feed_numbers fuel (snd pip1) 2 3 ;;
    usys (CClose (snd pip1)) ;;
    usys CWait ;;
    uexit 0
  else
    usys (CClose (snd pip1)) ;;
    prime_line 3 ;;
    k ← filter_loop fuel (Sieve 3 3 true true pip1 pip1);
    usys (CClose (fst (pip_left k))) ;;
    usys (CClose (snd (pip_right k))) ;;
    usys CWait ;;
    uexit 0.
End Primes.
