(* ===== verification/Find.v ===== *)
(** * Programs that list directories: user_space/{ls,find}.c

    Both have the same [fmtname].  The addresses of the local variables are parameters;
    [find] is recursive, and an activation has a frame of its own, given by the number of
    levels that are left. *)

From S2P Require Import Prelude Hart VmSystem Mem Str Bio State Fs Sysfile UserSys Ulib Tools.

(** [struct stat] and [struct dirent] in memory. *)
Definition st_ino (m : mem) (st : Z) : Z := ld32 m (st + 4).
Definition st_type (m : mem) (st : Z) : Z := i16 (ld16 m (st + 8)).
Definition st_size (m : mem) (st : Z) : Z := ld64 m (st + 16).
Definition de_inum (m : mem) (de : Z) : Z := ld16 m de.

Section Find.
Context (fuel : nat).
(** [static char buf[DIRSIZ + 1]] *)
Context (name_buf : Z).

Fixpoint last_slash (rounds : nat) (m : mem) (path p : Z) : option Z :=
  match rounds with
  | O => None
  | S rounds' => if (path <=? p) && negb (ld8 m p =? 47) then last_slash rounds' m path (p - 1) else Some p
  end.
Definition fmtname (path : Z) : U mem Z :=
  m ← uget;
  n ← ufuel (strlen fuel m path);
  p ← ufuel (last_slash fuel m path (path + n));
  let p := p + 1 in
  n ← ufuel (strlen fuel m p);
  if DIRSIZ <=? n then mret p else
  umodify (fun m => Ulib.memset (Ulib.memmove m name_buf p n) (name_buf + n) 32 (DIRSIZ - n)) ;;
  mret name_buf.

(** What [ls] and [find] do with one open directory: each entry's name goes behind the
    path, at [p]; [entry] looks at the path that this makes. *)
Fixpoint each_entry (skip : mem -> bool) (entry : U mem unit) (rounds : nat) (fd de p : Z) : U mem unit :=
  match rounds with
  | O => uno_fuel
  | S rounds' =>
      n ← sys_read_to fd de 16;
      if negb (n =? 16) then mret tt else
      m ← uget;
      if (de_inum m de =? 0) || skip m then each_entry skip entry rounds' fd de p else
      umodify (fun m => st8 (Ulib.memmove m p (de + 2) DIRSIZ) (p + DIRSIZ) 0) ;;
      entry ;;
      each_entry skip entry rounds' fd de p
  end.

(** [strcpy(buf, path); p = buf + strlen(buf); *p++ = '/']; the answer is [p]. *)
Definition dir_prefix (buf path : Z) : U mem Z :=
  m ← uget;
  m ← ufuel (Ulib.strcpy fuel m buf path);
  n ← ufuel (strlen fuel m buf);
  umodify (fun _ => st8 m (buf + n) 47) ;;
  mret (buf + n + 1).
Definition too_long (path : Z) : U mem bool :=
  m ← uget; n ← ufuel (strlen fuel m path); mret (512 <? n + 1 + DIRSIZ + 1).

(** ** ls

    The size is a [uint64]; the line for an entry of a directory prints it by [%d]. *)
Section Ls.
Context (buf de st : Z).

Definition ls_file (path : Z) : U mem unit :=
  name ← fmtname path;
  m ← uget;
  msg fuel 1 "%s %d %d %l" [AStr (InMem name); AInt (st_type m st); AInt (i32 (st_ino m st)); ALong (st_size m st)].
Definition ls_entry : U mem unit :=
  r ← stat buf st;
  if r <? 0 then msg fuel 1 "ls: cannot stat %s" [AStr (InMem buf)] else
  name ← fmtname buf;
  m ← uget;
  msg fuel 1 "%s %d %d %d" [AStr (InMem name); AInt (st_type m st); AInt (i32 (st_ino m st)); ALong (st_size m st)].

Definition ls (path : Z) : U mem unit :=
  fd ← open path 0;
  if fd <? 0 then msg fuel 2 "ls: cannot open %s" [AStr (InMem path)] else
  r ← Ulib.fstat fd st;
  if r <? 0 then msg fuel 2 "ls: cannot stat %s" [AStr (InMem path)] ;; usys (CClose fd) ;; mret tt else
  m ← uget;
  (if st_type m st =? T_FILE then ls_file path
   else if st_type m st =? T_DIR then
     long ← too_long path;
     if (long : bool) then msg fuel 1 "ls: path too long" [] else
     p ← dir_prefix buf path;
     each_entry (fun _ => false) ls_entry fuel fd de p
   else mret tt) ;;
  usys (CClose fd) ;;
  mret tt.

(** [dot] is where the program has the string "." *)
Fixpoint ls_args (args : list Z) : U mem unit :=
  match args with [] => mret tt | a :: args' => ls a ;; ls_args args' end.
Definition ls_main (dot : Z) (argv : list Z) : U mem unit :=
  if (length argv <? 2)%nat then ls dot ;; uexit 0 else
  ls_args (tail argv) ;; uexit 0.
End Ls.

(** ** find *)

(** 0 when the strings are equal, or differ first where one ends and the other has a blank. *)
Fixpoint file_name_cmp (rounds : nat) (m : mem) (s1 s2 : Z) : option Z :=
  match rounds with
  | O => None
  | S rounds' =>
      let c1 := ld8 m s1 in
      let c2 := ld8 m s2 in
      if (c1 =? c2) && negb (c1 =? 0) then file_name_cmp rounds' m (s1 + 1) (s2 + 1)
      else Some (Z.b2z (negb ((c1 =? c2) && (c1 =? 0) || (c1 =? 0) && (c2 =? 32) || (c1 =? 32) && (c2 =? 0))))
  end.

(** [if (!file_name_cmp(fmtname(path), target)) printf("%s\n", path);] *)
Definition show_match (path target : Z) : U mem unit :=
  name ← fmtname path;
  m ← uget;
  r ← ufuel (file_name_cmp fuel m name target);
  uwhen (r =? 0) (msg fuel 1 "%s" [AStr (InMem path)]).

(** The frame of an activation: [char buf[512]], [struct dirent], [struct stat]. *)
Context (frame : nat -> Z).

Definition find_entry (find : Z -> U mem unit) (buf st target : Z) : U mem unit :=
  r ← stat buf st;
  if r <? 0 then msg fuel 1 "find: cannot stat %s" [AStr (InMem buf)] else
  m ← uget;
  if negb (st_type m st =? T_DIR) then show_match buf target else find buf.

Fixpoint find (levels : nat) (target path : Z) : U mem unit :=
  match levels with
  | O => uno_fuel
  | S levels' =>
      let buf := frame levels' in
      let de := buf + 512 in
      let st := de + 16 in
      fd ← open path 0;
      if fd <? 0 then msg fuel 1 "find: cannot open %s" [AStr (InMem path)] else
      r ← Ulib.fstat fd st;
      if r <? 0 then msg fuel 1 "find: cannot stat %s" [AStr (InMem path)] ;; usys (CClose fd) ;; mret tt else
      m ← uget;
      (if st_type m st =? T_FILE then show_match path target
       else if st_type m st =? T_DIR then
         long ← too_long path;
         if (long : bool) then msg fuel 1 "find: path too long" [] else
         p ← dir_prefix buf path;
         each_entry (fun m => ld8 m (de + 2) =? 46) (find_entry (find levels' target) buf st target) fuel fd de p
       else mret tt) ;;
      usys (CClose fd) ;;
      mret tt
  end.

Definition find_main (levels : nat) (argv : list Z) : U mem unit :=
  match argv with
  | _ :: path :: target :: _ => find levels target path ;; uexit 0
  | _ => msg fuel 1 "enter a path and a target name" [] ;; uexit 0
  end.
End Find.
