(* ===== verification/FindSpec.v ===== *)
(** * What find promises

    First the comparison of names, then the search through a tree of directories: the
    kernel is any that hands out unused descriptors. *)

From S2P Require Import Prelude Hart VmSystem Mem Str Kprint Bio BioSpec State Fs PathSpec Sysfile UserSys Ulib UlibSpec Tools ToolsSpec Find.

(** ** Names *)

(** What follows the last slash. *)
Fixpoint base_name (l : list Z) : list Z :=
  match l with
  | [] => []
  | c :: l' => if existsb (Z.eqb slash) l' then base_name l' else if c =? slash then l' else l
  end.

Lemma slash_free l : existsb (Z.eqb slash) l = false -> no_slash l.
Proof.
  unfold no_slash. induction l as [|c l IH]; [constructor|]. cbn [existsb]. intros [H1 H2]%orb_false_iff.
  constructor; [by intros ->|auto].
Qed.
Lemma free_slash l : no_slash l -> existsb (Z.eqb slash) l = false.
Proof.
  induction 1 as [|c l Hc _ IH]; [done|]. cbn [existsb]. rewrite IH. rewrite (proj2 (Z.eqb_neq slash c)); [done|]. by intros <-.
Qed.

Lemma base_name_split l : exists d, l = d ++ base_name l /\ no_slash (base_name l) /\ (d = [] \/ exists d', d = d' ++ [slash]).
Proof.
  induction l as [|c l (d & E & Hn & Hd)]; [exists []; cbn; split; [done|]; split; [constructor|by left]|]. cbn [base_name].
  destruct (existsb (Z.eqb slash) l) eqn:Ex.
  - exists (c :: d). cbn [app]. rewrite <- E. split; [done|]. split; [done|]. right. destruct Hd as [->|(d' & ->)]; [|by exists (c :: d')].
    exfalso. cbn [app] in E. rewrite <- E in Hn. by rewrite (free_slash _ Hn) in Ex.
  - pose proof (slash_free _ Ex) as Hl. destruct (Z.eqb_spec c slash) as [->|Hc].
    + exists [slash]. split; [done|]. split; [done|]. right. by exists [].
    + exists []. split; [done|]. split; [by constructor|by left].
Qed.

Lemma base_name_child p name : no_slash name -> base_name (p ++ slash :: name) = name.
Proof.
  intros Hn. induction p as [|c p IH].
  - cbn. by rewrite (free_slash _ Hn).
  - cbn [app base_name]. assert (existsb (Z.eqb slash) (p ++ slash :: name) = true) as ->; [|done].
    rewrite existsb_app. apply orb_true_iff. right. done.
Qed.

Lemma elems_child p name : name <> [] -> no_slash name -> path_elems (p ++ slash :: name) = path_elems p ++ [name].
Proof.
  intros Hne Hn. unfold path_elems. generalize (@nil Z) at 1 2 as cur. induction p as [|c p IH]; intros cur; cbn [app split_slash].
  - rewrite Z.eqb_refl. pose proof (split_name name [] [] Hn) as Hs. rewrite app_nil_r in Hs. rewrite Hs. cbn [app split_slash List.filter].
    assert (nonempty name = true) as -> by (by destruct name). by destruct (nonempty cur).
  - destruct (c =? slash); [|apply IH]. cbn [List.filter]. destruct (nonempty cur); cbn [app]; by rewrite IH.
Qed.

(** The scan for the last slash. *)
Lemma last_slash_ok m path name d : (d = [] \/ exists d', d = d' ++ [slash]) -> no_slash name -> cstr m path (d ++ name) ->
  forall fuel n, (n <= length name)%nat -> (n + 1 < fuel)%nat ->
  last_slash fuel m path (path + Z.of_nat (length d) + Z.of_nat n) = Some (path + Z.of_nat (length d) - 1).
Proof.
  intros Hd Hn Hc. assert (forall fuel, (0 < fuel)%nat -> last_slash fuel m path (path + Z.of_nat (length d) - 1) = Some (path + Z.of_nat (length d) - 1)) as Hend.
  { intros [|fuel] Hf; [lia|]. cbn [last_slash]. destruct Hd as [->|(d' & ->)].
    - cbn [length andb]. rewrite (proj2 (Z.leb_gt path _)) by lia. done.
    - rewrite length_app. cbn [length]. rewrite <- app_assoc in Hc. destruct (cstr_lookup m path _ (length d') slash Hc) as [E _].
      { apply list_lookup_middle. done. }
      replace (path + Z.of_nat (length d' + 1) - 1) with (path + Z.of_nat (length d')) by lia. rewrite E. change (negb (slash =? 47)) with false.
      by rewrite andb_false_r. }
  assert (forall i, (i <= length name)%nat -> ld8 m (path + Z.of_nat (length d) + Z.of_nat i) <> slash) as Hns.
  { intros i Hi. apply cstr_app in Hc. destruct (decide (i < length name)%nat) as [Hlt|].
    - destruct (lookup_lt_is_Some_2 name i Hlt) as [c Ec]. destruct (cstr_lookup _ _ _ _ _ Hc Ec) as [-> _]. by eapply (proj1 (Forall_lookup _ _) Hn).
    - replace i with (length name) by lia. rewrite <- (app_nil_r name) in Hc. apply cstr_app in Hc. cbn in Hc. rewrite Hc. done. }
  intros fuel n. revert fuel. induction n as [|n IH]; intros [|fuel] Hl Hf; try lia; cbn [last_slash];
    rewrite (proj2 (Z.leb_le path _)) by lia; rewrite (proj2 (Z.eqb_neq _ 47)) by (by apply Hns); cbn [negb andb].
  - replace (path + Z.of_nat (length d) + Z.of_nat 0 - 1) with (path + Z.of_nat (length d) - 1) by lia. apply Hend. lia.
  - replace (path + Z.of_nat (length d) + Z.of_nat (S n) - 1) with (path + Z.of_nat (length d) + Z.of_nat n) by lia. apply IH; lia.
Qed.

(** A name as [fmtname] hands it out. *)
Definition shown_name (name : list Z) : list Z := name ++ replicate (Z.to_nat DIRSIZ - length name) 32.

Lemma fmtname_ok fuel name_buf path l m : cstr m path l -> (length l + 1 < fuel)%nat -> (16 <= fuel)%nat -> Z.of_nat (length l) < 2 ^ 32 ->
  ld8 m (name_buf + DIRSIZ) = 0 -> off_string path l name_buf (name_buf + DIRSIZ + 1) ->
  exists m' p, fmtname fuel name_buf path m = UDone p m' /\ cstr m' p (shown_name (base_name l)) /\
    (p = name_buf \/ exists d, l = d ++ base_name l /\ p = path + Z.of_nat (length d)) /\
    same_outside (fun a => name_buf <= a < name_buf + DIRSIZ) m m'.
Proof.
  intros Hc Hf Hf16 Hl H0 Hoff. destruct (base_name_split l) as (d & E & Hn & Hd). set (name := base_name l) in *.
  assert (length l = length d + length name)%nat as Ell by (rewrite E at 1; by rewrite length_app).
  unfold fmtname. rewrite (ubind_done uget _ m m m) by done.
  rewrite (strlen_ok fuel m path l Hc) by lia. rewrite (ubind_done _ _ m (Z.of_nat (length l)) m) by done.
  replace (path + Z.of_nat (length l)) with (path + Z.of_nat (length d) + Z.of_nat (length name)) by lia.
  rewrite E in Hc. rewrite (last_slash_ok m path name d Hd Hn Hc) by lia.
  rewrite (ubind_done _ _ m (path + Z.of_nat (length d) - 1) m) by done. cbn zeta.
  replace (path + Z.of_nat (length d) - 1 + 1) with (path + Z.of_nat (length d)) by lia. set (q := path + Z.of_nat (length d)).
  assert (cstr m q name) as Hq by (by apply cstr_app in Hc).
  rewrite (strlen_ok fuel m q name Hq) by lia. rewrite (ubind_done _ _ m (Z.of_nat (length name)) m) by done.
  unfold shown_name. change DIRSIZ with 14 in *. change (Z.to_nat 14) with 14%nat. destruct (Z.leb_spec 14 (Z.of_nat (length name))) as [Hbig|Hsmall].
  - exists m, q. split; [done|]. replace (14 - length name)%nat with 0%nat by lia. cbn [replicate]. rewrite app_nil_r. split; [done|].
    split; [right; by exists d|by intros a _].
  - set (m1 := Ulib.memmove m name_buf q (Z.of_nat (length name))).
    set (m2 := Ulib.memset m1 (name_buf + Z.of_nat (length name)) 32 (14 - Z.of_nat (length name))).
    exists m2, name_buf. split; [done|].
    assert (forall a, ld8 m1 a = if decide (name_buf <= a < name_buf + Z.of_nat (length name)) then ld8 m (a - name_buf + q) else ld8 m a) as Hm1 by (intros a; apply memmove_ok).
    assert (forall a, ld8 m2 a = if decide (name_buf + Z.of_nat (length name) <= a < name_buf + 14) then 32 else ld8 m1 a) as Hm2.
    { intros a. unfold m2. change Ulib.memset with Mem.memset. rewrite ld8_memset. replace (name_buf + Z.of_nat (length name) + (14 - Z.of_nat (length name))) with (name_buf + 14) by lia. done. }
    split; [|split; [by left|]].
    + apply cstr_of.
      * intros i c Hi. apply lookup_app_Some in Hi as [Hi|[Hge Hi]].
        -- pose proof (lookup_lt_Some _ _ _ Hi). rewrite Hm2, decide_False, Hm1, decide_True by lia.
           destruct (cstr_lookup m q name i c Hq Hi) as [<- Hc0]. split; [f_equal; lia|done].
        -- apply lookup_replicate in Hi as [-> Hi]. rewrite Hm2, decide_True by lia. done.
      * rewrite length_app, length_replicate. replace (name_buf + _) with (name_buf + 14) by lia. rewrite Hm2, decide_False, Hm1, decide_False by lia. done.
    + intros a Ha. rewrite Hm2, decide_False, Hm1, decide_False by lia. done.
Qed.

(** Without blanks, [file_name_cmp] compares for equality, whatever the padding. *)
Lemma file_name_cmp_ok m name target n : 32 ∉ name -> 32 ∉ target -> forall fuel p q,
  cstr m p (name ++ replicate n 32) -> cstr m q target -> (length name < fuel)%nat ->
  file_name_cmp fuel m p q = Some (if decide (name = target) then 0 else 1).
Proof.
  revert target. induction name as [|c name IH]; intros target Hn Ht [|fuel] p q Hp Hq Hf; cbn [length] in Hf; try lia; cbn [file_name_cmp].
  - rewrite (cstr_head _ _ _ Hp), (cstr_head _ _ _ Hq). destruct target as [|d target].
    + rewrite decide_True by done. by destruct n.
    + rewrite decide_False by done. destruct Hq as (Hd & _ & _). assert (d <> 32) by (intros ->; apply Ht; by left).
      destruct n as [|n]; cbn [app replicate]; [rewrite (proj2 (Z.eqb_neq 0 d)) by done|rewrite (proj2 (Z.eqb_neq 32 d)) by done]; cbn [andb orb Z.eqb];
        rewrite ?(proj2 (Z.eqb_neq d 32)), ?(proj2 (Z.eqb_neq d 0)) by done; done.
  - destruct Hp as (Hc & Ep & Hp). rewrite Ep, (cstr_head _ _ _ Hq). assert (c <> 32) by (intros ->; apply Hn; by left).
    assert (32 ∉ name) as Hn' by (intros H'; apply Hn; by right). destruct target as [|d target].
    + rewrite decide_False by done. rewrite (proj2 (Z.eqb_neq c 0)), (proj2 (Z.eqb_neq c 32)) by done. done.
    + destruct Hq as (Hd & _ & Hq). assert (32 ∉ target) as Ht' by (intros H'; apply Ht; by right). destruct (Z.eqb_spec c d) as [->|Hne].
      * rewrite (proj2 (Z.eqb_neq d 0)) by done. cbn [andb negb]. rewrite (IH target Hn' Ht' fuel _ _ Hp Hq) by lia. f_equal.
        repeat case_decide; try done; congruence.
      * cbn [andb orb]. rewrite (proj2 (Z.eqb_neq c 0)), (proj2 (Z.eqb_neq d 0)) by done. rewrite andb_false_r. cbn [andb orb negb Z.b2z].
        rewrite decide_False by congruence. done.
Qed.

(** ** What is printed *)

Lemma print_plain fuel fd txt fmt ap m : Forall (fun c => c <> 37 /\ 0 <= c < 256) txt ->
  vprintf_loop fuel fd (txt ++ fmt) false ap m = uwrites fd txt (vprintf_loop fuel fd fmt false ap m).
Proof.
  induction 1 as [|c txt [Hc Hb] _ IH]; [done|]. cbn [vprintf_loop app]. rewrite (proj2 (Z.eqb_neq c 37)) by done.
  rewrite putc_bind, u8_small by (change (2 ^ 8) with 256; lia). by rewrite IH.
Qed.

(** A line that ends with a string of the memory. *)
Lemma print_line fuel txt fmt p l m : bytes_of fmt = txt ++ [37; 115] -> Forall (fun c => c <> 37 /\ 0 <= c < 256) txt ->
  cstr m p l -> (length l < fuel)%nat -> p <> 0 -> msg fuel 1 fmt [AStr (InMem p)] m = uwrites 1 (txt ++ l ++ [10]) (UDone tt m).
Proof.
  intros Hfmt Ht Hc Hf Hp. unfold msg, fprintf, vprintf. rewrite Hfmt, <- app_assoc, print_plain, uwrites_app by done. f_equal.
  cbn [app vprintf_loop]. change (37 =? 37) with true. cbn iota. unfold convert. cbn [Z.eqb Pos.eqb]. rewrite !ubind_eq.
  unfold va_str, next_uarg. rewrite !ubind_eq. cbn [mret U_ret ubind]. rewrite !ubind_eq, (proj2 (Z.eqb_neq p 0)) by done.
  rewrite (put_string_eq 1 m l fuel p Hc Hf), ubind_uwrites. cbn [ubind]. rewrite uwrites_app, ubind_uwrites. cbn [ubind mret U_ret].
  f_equal.
Qed.

(** One file: its path is printed if its name is the target's. *)
Lemma show_match_ok fuel name_buf path l target t m : cstr m path l -> cstr m target t -> 32 ∉ base_name l -> 32 ∉ t ->
  (length l + 1 < fuel)%nat -> (16 <= fuel)%nat -> Z.of_nat (length l) < 2 ^ 32 -> path <> 0 -> ld8 m (name_buf + DIRSIZ) = 0 ->
  off_string path l name_buf (name_buf + DIRSIZ + 1) -> off_string target t name_buf (name_buf + DIRSIZ + 1) ->
  exists m', show_match fuel name_buf path target m = uwrites 1 (if decide (base_name l = t) then l ++ [10] else []) (UDone tt m') /\
    same_outside (fun a => name_buf <= a < name_buf + DIRSIZ) m m'.
Proof.
  intros Hc Ht Hb Hbt Hf Hf16 Hl Hp H0 Hoff Hofft.
  destruct (fmtname_ok fuel name_buf path l m Hc Hf Hf16 Hl H0 Hoff) as (m' & p & E & Hn & _ & Hs). exists m'.
  unfold show_match. rewrite (ubind_done _ _ m p m' E). rewrite (ubind_done uget _ m' m' m') by done.
  assert (same_outside (fun a => name_buf <= a < name_buf + DIRSIZ + 1) m m') as Hs' by (intros a Ha; apply Hs; lia).
  pose proof (cstr_apart _ _ _ _ _ _ Hofft Hs' Ht) as Ht'. pose proof (cstr_apart _ _ _ _ _ _ Hoff Hs' Hc) as Hc'.
  assert (length (base_name l) <= length l)%nat as Hbl.
  { destruct (base_name_split l) as (d & E2 & _). apply (f_equal length) in E2. rewrite length_app in E2. lia. }
  rewrite (file_name_cmp_ok m' (base_name l) t _ Hb Hbt fuel p target Hn Ht') by lia.
  rewrite (ubind_done _ _ m' (if decide (base_name l = t) then 0 else 1) m') by done. split; [|done].
  case_decide; [|done]. cbn [uwhen Z.eqb]. apply (print_line fuel [] "%s"); [done|constructor|done|lia|done].
Qed.

(** ** A tree of directories

    A directory is a list of slots: unused ones, names that begin with a dot (among them
    "." and ".."), and the entries proper. *)
Inductive node := NFile (typ : Z) (data : list Z) | NDir (l : list slot)
with slot := Free | Hidden (inum : Z) (name : list Z) | Entry (inum : Z) (name : list Z) (nd : node).

Definition node_type (nd : node) : Z := match nd with NFile typ _ => typ | NDir _ => T_DIR end.
Definition de_bytes (inum : Z) (name : list Z) : list Z :=
  [inum mod 256; inum / 256] ++ name ++ replicate (Z.to_nat DIRSIZ - length name) 0.
Definition slot_bytes (s : slot) : list Z :=
  match s with Free => replicate 16 0 | Hidden inum name | Entry inum name _ => de_bytes inum name end.
Definition node_data (nd : node) : list Z := match nd with NFile _ data => data | NDir l => concat (map slot_bytes l) end.

Fixpoint entry_of (name : list Z) (l : list slot) : option node :=
  match l with
  | [] => None
  | Entry _ name' nd :: l' => if decide (name = name') then Some nd else entry_of name l'
  | _ :: l' => entry_of name l'
  end.
Fixpoint resolve (nd : node) (elems : list (list Z)) : option node :=
  match elems with
  | [] => Some nd
  | e :: elems' => match nd with NDir l => nd' ← entry_of e l; resolve nd' elems' | NFile _ _ => None end
  end.

Lemma resolve_app nd es1 es2 : resolve nd (es1 ++ es2) = resolve nd es1 ≫= fun nd' => resolve nd' es2.
Proof.
  revert nd. induction es1 as [|e es1 IH]; intros nd; [done|]. cbn [app resolve]. destruct nd as [|l]; [done|].
  destruct (entry_of e l); cbn; [apply IH|done].
Qed.

Definition entry_name (s : slot) : option (list Z) := match s with Entry _ name _ => Some name | _ => None end.
Lemma entry_of_unique i name nd l : NoDup (omap entry_name l) -> Entry i name nd ∈ l -> entry_of name l = Some nd.
Proof.
  induction l as [|s l IH]; intros Hd Hin; [by apply elem_of_nil in Hin|]. apply elem_of_cons in Hin as [<-|Hin].
  - cbn. by rewrite decide_True.
  - destruct s as [| |j name' nd']; cbn in *; [by apply IH..|]. apply NoDup_cons in Hd as [Hn Hd].
    rewrite decide_False; [by apply IH|]. intros <-. apply Hn. apply list_elem_of_omap. by exists (Entry i name nd).
Qed.

(** *** A kernel with this tree *)
Record world := World { w_fds : gmap Z (node * list Z); w_out : list Z }.

Section Kernel.
(** The descriptor [open] hands out, and the bytes [fstat] stores. *)
Context (root : node) (pick : gmap Z (node * list Z) -> Z) (stat_bytes : node -> list Z).

Definition tree_kernel : kernel world := fun c w =>
  match c with
  | COpen path _ =>
      match (if (length path <? PATH_BYTES)%nat then resolve root (path_elems path) else None) with
      | Some nd => let fd := pick (w_fds w) in (fd, [], World (<[fd := (nd, node_data nd)]> (w_fds w)) (w_out w))
      | None => (-1, [], w)
      end
  | CClose fd => (0, [], World (delete fd (w_fds w)) (w_out w))
  | CFstat fd => match w_fds w !! fd with Some (nd, _) => (0, stat_bytes nd, w) | None => (-1, [], w) end
  | CRead fd n =>
      match w_fds w !! fd with
      | Some (nd, data) =>
          let d := take (Z.to_nat n) data in
          (Z.of_nat (length d), d, World (<[fd := (nd, drop (Z.to_nat n) data)]> (w_fds w)) (w_out w))
      | None => (-1, [], w)
      end
  | CWrite fd d => (Z.of_nat (length d), [], World (w_fds w) (if fd =? 1 then w_out w ++ d else w_out w))
  | _ => (-1, [], w)
  end.

Lemma tree_writes {A} txt (t : utree mem A) fds out : interp tree_kernel (uwrites 1 txt t) (World fds out) = interp tree_kernel t (World fds (out ++ txt)).
Proof.
  revert out. induction txt as [|c txt IH]; intros out; [by rewrite app_nil_r|]. cbn [uwrites interp tree_kernel w_fds w_out].
  rewrite Z.eqb_refl, IH, <- app_assoc. done.
Qed.
End Kernel.

(** ** The search *)

(** The lines printed for a node that is reached by a path: every file with the target's
    name, in the order of the directories; for a path that the kernel does not take, a
    complaint. *)
Fixpoint found (t path : list Z) (nd : node) : list (list Z) :=
  match nd with
  | NFile _ _ => if decide (base_name path = t) then [path] else []
  | NDir l =>
      flat_map (fun s => match s with
        | Entry _ name nd' =>
            let path' := path ++ slash :: name in
            if (length path' <? PATH_BYTES)%nat then found t path' nd' else [bytes_of "find: cannot stat " ++ path']
        | _ => []
        end) l
  end.
Definition lines (ls : list (list Z)) : list Z := concat (map (fun l => l ++ [10]) ls).
Lemma lines_app ls1 ls2 : lines (ls1 ++ ls2) = lines ls1 ++ lines ls2.
Proof. unfold lines. by rewrite map_app, concat_app. Qed.

(** Trees that fit: names as the file system has them, no blanks, no name twice, at
    most [n] levels, directories that the loop's fuel covers. *)
Definition name_ok (name : list Z) : Prop :=
  name <> [] /\ Z.of_nat (length name) <= DIRSIZ /\ Forall (fun c => 0 < c < 256 /\ c <> slash /\ c <> 32) name.
Definition dotted (name : list Z) : Prop := head name = Some 46.
Definition is_short (x : Z) : Prop := - 2 ^ 15 <= x < 2 ^ 15.
Fixpoint fits (fuel n : nat) (nd : node) : Prop :=
  match n with
  | O => False
  | S n' =>
      match nd with
      | NFile typ _ => typ <> T_DIR /\ is_short typ
      | NDir l => NoDup (omap entry_name l) /\ (length l < fuel)%nat /\
          Forall (fun s => match s with
            | Free => True
            | Hidden inum name => 0 < inum < 65536 /\ name_ok name /\ dotted name
            | Entry inum name nd' => 0 < inum < 65536 /\ name_ok name /\ ~ dotted name /\ fits fuel n' nd'
            end) l
      end
  end.

Lemma fits_type fuel n nd : fits fuel n nd -> is_short (node_type nd).
Proof. destruct n, nd; cbn; [done..|tauto|]. intros _. unfold is_short, T_DIR. lia. Qed.

Definition slot_ok (fuel n : nat) (s : slot) : Prop :=
  match s with
  | Free => True
  | Hidden inum name => 0 < inum < 65536 /\ name_ok name /\ dotted name
  | Entry inum name nd' => 0 < inum < 65536 /\ name_ok name /\ ~ dotted name /\ fits fuel n nd'
  end.
Definition found_slot (t path : list Z) (s : slot) : list (list Z) :=
  match s with
  | Entry _ name nd' =>
      let path' := path ++ slash :: name in
      if (length path' <? PATH_BYTES)%nat then found t path' nd' else [bytes_of "find: cannot stat " ++ path']
  | _ => []
  end.

Lemma ustr_take m l : forall n p, cstr m p l -> ustr n m p = take n l.
Proof.
  induction l as [|c l IH]; intros [|n] p Hc; try done; cbn [ustr take].
  - cbn in Hc. by rewrite Hc.
  - destruct Hc as (H0 & -> & Hc). rewrite (proj2 (Z.eqb_neq _ _) H0). f_equal. by apply IH.
Qed.


(** ** The path of an entry *)

Definition is_bytes (l : list Z) : Prop := Forall (fun c => 0 <= c < 256) l.
(** A part of a string, with no terminator. *)
Definition prefix_at (m : mem) (p : Z) (l : list Z) : Prop := forall i c, l !! i = Some c -> ld8 m (p + Z.of_nat i) = c /\ c <> 0.

Lemma prefix_frame m m' p l : (forall b, p <= b < p + Z.of_nat (length l) -> ld8 m' b = ld8 m b) -> prefix_at m p l -> prefix_at m' p l.
Proof. intros Hf Hp i c Hi. pose proof (lookup_lt_Some _ _ _ Hi). rewrite Hf by lia. by apply Hp. Qed.

Lemma dirent_inum m de inum name : 0 <= inum < 65536 -> de_inum (store_bytes m de (de_bytes inum name)) de = inum.
Proof.
  intros Hi. unfold de_inum, ld16. cbn [load_le]. assert (forall i x, de_bytes inum name !! i = Some x -> ld8 (store_bytes m de (de_bytes inum name)) (de + Z.of_nat i) = u8 x) as Hx.
  { intros i x Hl. pose proof (lookup_lt_Some _ _ _ Hl). rewrite ld8_store_bytes, decide_True by lia. replace (Z.to_nat _) with i by lia. by rewrite Hl. }
  pose proof (Hx 0%nat (inum mod 256) eq_refl) as E0. pose proof (Hx 1%nat (inum / 256) eq_refl) as E1. rewrite Z.add_0_r in E0.
  change (Z.of_nat 1) with 1 in E1. rewrite E0, E1. unfold u8. change (2 ^ 8) with 256. lia.
Qed.

Lemma dirent_name m de inum name i : is_bytes name -> Z.of_nat (length name) <= DIRSIZ -> 0 <= i < DIRSIZ ->
  ld8 (store_bytes m de (de_bytes inum name)) (de + 2 + i) = default 0 (name !! Z.to_nat i).
Proof.
  change DIRSIZ with 14. intros Hb Hl Hi. rewrite ld8_store_bytes. unfold de_bytes. change (Z.to_nat DIRSIZ) with 14%nat. rewrite decide_True by (cbn [app length]; rewrite length_app, length_replicate; lia).
  rewrite lookup_app_r by (cbn [length]; lia). replace (_ - length _)%nat with (Z.to_nat i) by (cbn [length]; lia).
  destruct (decide (Z.to_nat i < length name)%nat) as [Hlt|].
  - rewrite lookup_app_l by done. destruct (lookup_lt_is_Some_2 name _ Hlt) as [c Hc]. rewrite Hc. cbn.
    apply u8_small. change (2 ^ 8) with 256. by apply (proj1 (Forall_lookup _ _) Hb _ _ Hc).
  - rewrite lookup_app_r by lia. rewrite lookup_replicate_2 by lia. by rewrite lookup_ge_None_2 by lia.
Qed.

(** The entry's name behind the path of the directory. *)
Lemma child_path m buf de lp inum name : prefix_at m buf (lp ++ [slash]) -> name_ok name -> (length lp + 16 <= 512)%nat -> buf + 512 <= de ->
  let p := buf + Z.of_nat (length lp) + 1 in
  let m1 := store_bytes m de (de_bytes inum name) in
  let m2 := st8 (Ulib.memmove m1 p (de + 2) DIRSIZ) (p + DIRSIZ) 0 in
  cstr m2 buf (lp ++ slash :: name) /\ prefix_at m2 buf (lp ++ [slash]) /\ same_outside (fun a => p <= a < buf + 512 \/ de <= a < de + 16) m m2.
Proof.
  intros Hp (Hne & Hl & Hc) Hlp Hde p m1 m2. change DIRSIZ with 14 in *. assert (is_bytes name) as Hb by (eapply Forall_impl; [exact Hc|]; cbn; lia).
  assert (length (de_bytes inum name) = 16%nat) as Hd.
  { unfold de_bytes. cbn [app length]. rewrite length_app, length_replicate. change (Z.to_nat DIRSIZ) with 14%nat. lia. }
  assert (forall a, ld8 m2 a = if decide (a = p + 14) then 0 else if decide (p <= a < p + 14) then default 0 (name !! Z.to_nat (a - p)) else ld8 m1 a) as Hm2.
  { intros a. unfold m2. rewrite ld8_st8. case_decide; [by rewrite decide_True by done|]. rewrite decide_False by done. change Ulib.memmove with Mem.memmove. rewrite memmove_ok.
    case_decide; [|done]. replace (a - p + (de + 2)) with (de + 2 + (a - p)) by lia. apply dirent_name; [done|done|change DIRSIZ with 14; lia]. }
  assert (same_outside (fun a => p <= a < buf + 512 \/ de <= a < de + 16) m m2) as Hs.
  { intros a Ha. rewrite Hm2, !decide_False by lia. unfold m1. rewrite ld8_store_bytes, Hd, decide_False by lia. done. }
  assert (prefix_at m2 buf (lp ++ [slash])) as Hp2 by (eapply prefix_frame; [|exact Hp]; intros b; rewrite length_app; cbn [length]; intros Hb2; apply Hs; lia).
  split; [|by split]. change (slash :: name) with ([slash] ++ name). rewrite app_assoc. apply cstr_of.
  - intros i c Hi. apply lookup_app_Some in Hi as [Hi|[Hge Hi]]; [by apply Hp2|]. rewrite length_app in *. cbn [length] in *.
    pose proof (lookup_lt_Some _ _ _ Hi). rewrite Hm2, decide_False, decide_True by lia. replace (Z.to_nat _) with (i - (length lp + 1))%nat by lia. rewrite Hi. cbn.
    split; [done|]. pose proof (proj1 (Forall_lookup _ _) Hc _ _ Hi). cbn in *. lia.
  - rewrite !length_app. cbn [length]. rewrite Hm2. case_decide; [done|]. rewrite decide_True by lia. by rewrite lookup_ge_None_2 by lia.
Qed.

Lemma dir_prefix_ok fuel buf path l m : cstr m path l -> (length l < fuel)%nat -> Z.of_nat (length l) < 2 ^ 32 -> buf + Z.of_nat (length l) < path ->
  exists m', dir_prefix fuel buf path m = UDone (buf + Z.of_nat (length l) + 1) m' /\ prefix_at m' buf (l ++ [slash]) /\
    same_outside (fun a => buf <= a <= buf + Z.of_nat (length l)) m m'.
Proof.
  intros Hc Hf Hl Hd. destruct (strcpy_ok l fuel m buf path Hc Hf ltac:(lia)) as (m1 & E & Hc1 & Hs).
  unfold dir_prefix. rewrite (ubind_done uget _ m m m) by done. rewrite E, (ubind_done _ _ m m1 m) by done.
  rewrite (strlen_ok fuel m1 buf l Hc1 Hf Hl), (ubind_done _ _ m (Z.of_nat (length l)) m) by done.
  exists (st8 m1 (buf + Z.of_nat (length l)) 47). split; [done|]. split.
  - intros i c Hi. rewrite ld8_st8. apply lookup_app_Some in Hi as [Hi|[Hge Hi]].
    + pose proof (lookup_lt_Some _ _ _ Hi). rewrite decide_False by lia. by apply (cstr_lookup m1 buf l).
    + pose proof (lookup_lt_Some _ _ _ Hi) as Hlt. cbn [length] in Hlt. replace (i - length l)%nat with 0%nat in Hi by lia. injection Hi as <-. rewrite decide_True by lia. done.
  - intros a Ha. rewrite ld8_st8, decide_False by lia. apply Hs. lia.
Qed.

(** ** Calls *)

Section Search.
Context (root : node) (pick : gmap Z (node * list Z) -> Z) (stat_bytes : node -> list Z).
Context (pick_unused : forall fds, fds !! pick fds = None /\ 0 <= pick fds).
Context (stat_type : forall m st nd, is_short (node_type nd) -> st_type (store_bytes m st (stat_bytes nd)) st = node_type nd).
Context (stat_size : forall nd, length (stat_bytes nd) = 24%nat).
Let K := tree_kernel root pick stat_bytes.

(** [open] and [stat]. *)
Lemma open_ok {B} m p l nd omode (f : Z -> U mem B) fds out : cstr m p l -> (length l < PATH_BYTES)%nat -> resolve root (path_elems l) = Some nd ->
  interp K ((open p omode ≫= f) m) (World fds out) = interp K (f (pick fds) m) (World (<[pick fds := (nd, node_data nd)]> fds) out).
Proof.
  intros Hc Hl Hr. change ((open p omode ≫= f) m) with (USys (COpen (ustr PATH_BYTES m p) omode) (fun r _ => f r m)).
  cbn [interp K tree_kernel]. rewrite (ustr_take m l PATH_BYTES p Hc), take_ge by lia. rewrite (proj2 (Nat.ltb_lt _ _) Hl), Hr. done.
Qed.

Lemma open_fails {B} m p l omode (f : Z -> U mem B) fds out : cstr m p l -> (PATH_BYTES <= length l)%nat ->
  interp K ((open p omode ≫= f) m) (World fds out) = interp K (f (-1) m) (World fds out).
Proof.
  intros Hc Hl. change ((open p omode ≫= f) m) with (USys (COpen (ustr PATH_BYTES m p) omode) (fun r _ => f r m)).
  cbn [interp K tree_kernel]. rewrite (ustr_take m l PATH_BYTES p Hc), length_take. rewrite (proj2 (Nat.ltb_ge _ _)) by lia. done.
Qed.

Lemma fstat_ok {B} m fd st nd data (f : Z -> U mem B) fds out : fds !! fd = Some (nd, data) ->
  interp K ((Ulib.fstat fd st ≫= f) m) (World fds out) = interp K (f 0 (store_bytes m st (stat_bytes nd))) (World fds out).
Proof.
  intros Hfd. change ((Ulib.fstat fd st ≫= f) m) with (USys (CFstat fd) (fun r d => f r (store_bytes m st d))).
  cbn [interp K tree_kernel w_fds]. by rewrite Hfd.
Qed.

Lemma close_ok {B} (m : mem) fd (f : Z -> U mem B) fds out :
  interp K ((usys (CClose fd) ≫= f) m) (World fds out) = interp K (f 0 m) (World (delete fd fds) out).
Proof. done. Qed.

Lemma stat_ok {B} m p st l nd (f : Z -> U mem B) fds out : cstr m p l -> (length l < PATH_BYTES)%nat -> resolve root (path_elems l) = Some nd ->
  interp K ((stat p st ≫= f) m) (World fds out) = interp K (f 0 (store_bytes m st (stat_bytes nd))) (World fds out).
Proof.
  intros Hc Hl Hr. destruct (pick_unused fds) as [Hn Hp]. unfold stat. rewrite ubind_eq, interp_bind, (open_ok m p l nd) by done.
  rewrite (proj2 (Z.ltb_ge (pick fds) 0)) by done. rewrite (fstat_ok m (pick fds) st nd (node_data nd)) by apply lookup_insert_eq.
  rewrite close_ok. cbn [interp mret U_ret]. by rewrite delete_insert_id.
Qed.

Lemma stat_fails {B} m p st l (f : Z -> U mem B) fds out : cstr m p l -> (PATH_BYTES <= length l)%nat ->
  interp K ((stat p st ≫= f) m) (World fds out) = interp K (f (-1) m) (World fds out).
Proof. intros Hc Hl. unfold stat. rewrite ubind_eq, interp_bind, (open_fails m p l) by done. done. Qed.

(** One slot from an open directory. *)
Lemma length_slot_bytes fuel n s : slot_ok fuel n s -> length (slot_bytes s) = 16%nat.
Proof.
  intros Hs. destruct s as [|inum name|inum name nd]; [done|..];
    destruct Hs as (_ & (_ & Hn & _) & _); change DIRSIZ with 14 in Hn; cbn [slot_bytes de_bytes app length]; rewrite length_app, length_replicate; change (Z.to_nat DIRSIZ) with 14%nat; lia.
Qed.

Lemma read_slot {B} m fd de nd s rest (f : Z -> U mem B) fds out : fds !! fd = Some (nd, slot_bytes s ++ rest) -> length (slot_bytes s) = 16%nat ->
  interp K ((sys_read_to fd de 16 ≫= f) m) (World fds out) =
  interp K (f 16 (store_bytes m de (slot_bytes s))) (World (<[fd := (nd, rest)]> fds) out).
Proof.
  intros Hfd Hl. change ((sys_read_to fd de 16 ≫= f) m) with (USys (CRead fd 16) (fun r d => f r (store_bytes m de d))).
  cbn [interp K tree_kernel w_fds w_out]. rewrite Hfd. change (Z.to_nat 16) with 16%nat. rewrite <- Hl, take_app_length, drop_app_length. by rewrite Hl.
Qed.

Lemma read_end {B} m fd de nd (f : Z -> U mem B) fds out : fds !! fd = Some (nd, []) ->
  interp K ((sys_read_to fd de 16 ≫= f) m) (World fds out) = interp K (f 0 m) (World fds out).
Proof.
  intros Hfd. change ((sys_read_to fd de 16 ≫= f) m) with (USys (CRead fd 16) (fun r d => f r (store_bytes m de d))).
  cbn [interp K tree_kernel w_fds w_out]. rewrite Hfd. change (Z.to_nat 16) with 16%nat. cbn [take drop length store_bytes]. by rewrite insert_id.
Qed.
(** *** One activation after the other

    The frames lie above one another, the static buffer below them, the target above. *)
Context (fuel : nat) (name_buf : Z) (frame : nat -> Z) (target : Z) (t : list Z).
Context (fuel_ok : (200 <= fuel)%nat) (name_pos : 0 < name_buf) (frame_first : name_buf + 15 <= frame 0).
Context (frame_next : forall k, frame k + 552 <= frame (S k)) (t_ok : 32 ∉ t).

Lemma frame_above n : name_buf + 15 <= frame n.
Proof. induction n as [|n IH]; [done|]. specialize (frame_next n). lia. Qed.

(** What the activations of at most [n] levels use. *)
Definition scratch (n : nat) (a : Z) : Prop := name_buf <= a < name_buf + 14 \/ name_buf + 15 <= a < frame n.
Definition ready (n : nat) (m : mem) : Prop := cstr m target t /\ frame n <= target /\ ld8 m (name_buf + 14) = 0.

Lemma ready_frame n m m' : ready n m -> same_outside (scratch n) m m' -> ready n m'.
Proof.
  intros (Ht & Hf & H0) Hs. split; [|split; [done|rewrite Hs; [done|unfold scratch; lia]]].
  pose proof (frame_above n). eapply cstr_frame; [|exact Ht]. intros b Hb. apply Hs. unfold scratch. lia.
Qed.

Lemma show_in n m path l fds out : ready n m -> cstr m path l -> frame n <= path -> 32 ∉ base_name l -> (length l < 199)%nat ->
  exists m', interp K (show_match fuel name_buf path target m) (World fds out) = (UDone tt m', World fds (out ++ lines (if decide (base_name l = t) then [l] else []))) /\
    same_outside (fun a => name_buf <= a < name_buf + 14) m m'.
Proof.
  intros (Ht & Hft & H0) Hc Hf Hb Hl. pose proof (frame_above n). change DIRSIZ with 14 in *.
  destruct (show_match_ok fuel name_buf path l target t m) as (m' & E & Hs); try done;
    [lia..|right; change DIRSIZ with 14; lia|right; change DIRSIZ with 14; lia|].
  exists m'. rewrite E. split; [|done]. unfold K. rewrite tree_writes. unfold lines. by case_decide; cbn; rewrite ?app_nil_r.
Qed.

(** The statement about an activation with at most [n] levels. *)
Definition finds (n : nat) : Prop := forall nd path l m fds out,
  fits fuel n nd -> (forall typ d, nd = NFile typ d -> typ = T_FILE) -> cstr m path l -> frame n <= path -> (length l < PATH_BYTES)%nat ->
  resolve root (path_elems l) = Some nd -> 32 ∉ base_name l -> ready n m ->
  exists m', interp K (find fuel name_buf frame n target path m) (World fds out) = (UDone tt m', World fds (out ++ lines (found t l nd))) /\
    same_outside (scratch n) m m'.

Lemma entry_ok n m lp name nd fds out : finds n -> let buf := frame n in let st := buf + 512 + 16 in let child := lp ++ slash :: name in
  cstr m buf child -> name_ok name -> fits fuel n nd -> resolve root (path_elems child) = Some nd -> (length lp < PATH_BYTES)%nat -> ready (S n) m ->
  exists m', interp K (find_entry fuel name_buf (find fuel name_buf frame n target) buf st target m) (World fds out) =
      (UDone tt m', World fds (out ++ lines (if (length child <? PATH_BYTES)%nat then found t child nd else [bytes_of "find: cannot stat " ++ child]))) /\
    same_outside (fun a => scratch n a \/ st <= a < st + 24) m m'.
Proof.
  intros IH buf st child Hc (Hne & Hnl & Hnc) Hfit Hres Hlp Hrdy. change DIRSIZ with 14 in Hnl. unfold find_entry.
  assert (length child = length lp + 1 + length name)%nat as Hcl by (unfold child; rewrite length_app; cbn [length]; lia).
  pose proof (frame_above n) as Hfa. pose proof (frame_next n) as Hfn. unfold PATH_BYTES in Hlp.
  destruct (Nat.ltb_spec (length child) PATH_BYTES) as [Hlt|Hge].
  2:{ rewrite (stat_fails m buf st child) by done. exists m. change (-1 <? 0) with true. cbn iota.
      rewrite (print_line fuel (bytes_of "find: cannot stat ") "find: cannot stat %s" buf child m) by (done || lia || (unfold buf; lia) || (cbn; repeat (constructor; [lia|]); constructor)).
      unfold K. rewrite tree_writes. unfold lines. cbn [map concat]. rewrite app_nil_r, <- (app_assoc _ child). split; [done|]. by intros a _. }
  rewrite (stat_ok m buf st child nd) by done. change (0 <? 0) with false. cbn iota. set (m1 := store_bytes m st (stat_bytes nd)).
  assert (same_outside (fun a => st <= a < st + 24) m m1) as Hs1.
  { intros a Ha. unfold m1. rewrite ld8_store_bytes, stat_size, decide_False by lia. done. }
  rewrite (ubind_done uget _ m1 m1 m1) by done. unfold m1 at 1. rewrite stat_type by by eapply fits_type.
  assert (ready n m1) as Hr1.
  { destruct Hrdy as (Ht & Hft & H0). split; [|split; [lia|]].
    - eapply cstr_frame; [|exact Ht]. intros b Hb. apply Hs1. unfold st, buf. lia.
    - rewrite Hs1; [done|]. unfold st, buf. lia. }
  assert (cstr m1 buf child) as Hc1 by (eapply cstr_frame; [|exact Hc]; intros b Hb; apply Hs1; unfold st, PATH_BYTES in *; lia).
  assert (no_slash name) as Hns by (eapply Forall_impl; [exact Hnc|]; cbn; tauto).
  assert (base_name child = name) as Hbase by (by apply base_name_child).
  assert (32 ∉ name) as Hnb by (intros H; rewrite Forall_forall in Hnc; by apply Hnc in H as (_ & _ & ?)).
  assert (exists m', interp K ((if negb (node_type nd =? T_DIR) then show_match fuel name_buf buf target else find fuel name_buf frame n target buf) m1) (World fds out) =
      (UDone tt m', World fds (out ++ lines (found t child nd))) /\ same_outside (scratch n) m1 m') as (m' & E & Hs2).
  { destruct nd as [typ d|l].
    - cbn [node_type]. destruct n as [|n]; [done|]. destruct Hfit as [Hfit _]. rewrite (proj2 (Z.eqb_neq typ T_DIR)) by done. cbn [negb].
      destruct (show_in (S n) m1 buf child fds out Hr1 Hc1) as (m' & E & Hs); [unfold buf; lia|by rewrite Hbase|unfold PATH_BYTES in *; lia|].
      exists m'. rewrite E. split; [done|]. intros a Ha. apply Hs. unfold scratch in Ha. lia.
    - cbn [node_type]. rewrite Z.eqb_refl. cbn [negb]. apply IH; [done|done|done|unfold buf; lia|done|done|by rewrite Hbase|done]. }
  exists m'. rewrite E. split; [done|]. intros a Ha. rewrite Hs2 by tauto. apply Hs1. tauto.
Qed.

(** The first byte of a name. *)
Lemma dirent_dot m de inum name : name_ok name -> (ld8 (store_bytes m de (de_bytes inum name)) (de + 2) =? 46) = bool_decide (dotted name).
Proof.
  intros (Hne & Hl & Hc). rewrite <- (Z.add_0_r (de + 2)), dirent_name; [|eapply Forall_impl; [exact Hc|]; cbn; lia|done|done].
  change (Z.to_nat 0) with 0%nat. destruct name as [|c name]; [done|]. unfold dotted. cbn. destruct (Z.eqb_spec c 46) as [->|Hn].
  - by rewrite bool_decide_eq_true_2.
  - rewrite bool_decide_eq_false_2; [done|]. intros [=]. done.
Qed.

(** The loop over the slots of a directory. *)
Lemma loop_ok n : finds n -> let buf := frame n in let de := buf + 512 in let st := de + 16 in forall l rounds m fds out nd0 fd lp,
  Forall (slot_ok fuel n) l -> (forall i name nd, Entry i name nd ∈ l -> resolve root (path_elems (lp ++ slash :: name)) = Some nd) ->
  (length l < rounds)%nat -> fds !! fd = Some (nd0, concat (map slot_bytes l)) -> prefix_at m buf (lp ++ [slash]) -> (length lp < PATH_BYTES)%nat -> ready (S n) m ->
  exists m', interp K (each_entry (fun m => ld8 m (de + 2) =? 46) (find_entry fuel name_buf (find fuel name_buf frame n target) buf st target) rounds fd de (buf + Z.of_nat (length lp) + 1) m) (World fds out) =
      (UDone tt m', World (<[fd := (nd0, [])]> fds) (out ++ lines (flat_map (found_slot t lp) l))) /\ same_outside (scratch (S n)) m m'.
Proof.
  intros IHn buf de st l. pose proof (frame_above n) as Hfa. pose proof (frame_next n) as Hfn.
  induction l as [|s l IH]; intros [|rounds] m fds out nd0 fd lp Hl Hres Hr Hfd Hpre Hlp Hrdy; cbn [length] in Hr; try lia; cbn [each_entry].
  - rewrite (read_end m fd de nd0) by done. change (negb (0 =? 16)) with true. cbn iota. exists m. rewrite insert_id by done. cbn. rewrite app_nil_r. split; [done|]. by intros a _.
  - apply Forall_cons_1 in Hl as [Hs Hl]. pose proof (length_slot_bytes _ _ _ Hs) as H16. cbn [map concat] in Hfd.
    rewrite (read_slot m fd de nd0 s (concat (map slot_bytes l))) by done. change (negb (16 =? 16)) with false. cbn iota.
    set (m1 := store_bytes m de (slot_bytes s)). set (fds1 := <[fd := (nd0, concat (map slot_bytes l))]> fds).
    assert (fds1 !! fd = Some (nd0, concat (map slot_bytes l))) as Hfd1 by apply lookup_insert_eq.
    assert (forall i name nd, Entry i name nd ∈ l -> resolve root (path_elems (lp ++ slash :: name)) = Some nd) as Hres' by (intros i name nd H; apply (Hres i); by right).
    rewrite (ubind_done uget _ m1 m1 m1) by done.
    assert (same_outside (fun a => de <= a < de + 16) m m1) as Hs1 by (intros a Ha; unfold m1; rewrite ld8_store_bytes, H16, decide_False by lia; done).
    assert (forall out' , exists m', interp K (each_entry (fun m => ld8 m (de + 2) =? 46) (find_entry fuel name_buf (find fuel name_buf frame n target) buf st target) rounds fd de (buf + Z.of_nat (length lp) + 1) m1) (World fds1 out') =
      (UDone tt m', World (<[fd := (nd0, [])]> fds) (out' ++ lines (flat_map (found_slot t lp) l))) /\ same_outside (scratch (S n)) m m') as Hskip.
    { intros out'. destruct (IH rounds m1 fds1 out' nd0 fd lp Hl Hres') as (m' & E & Hs'); [lia|done| |done| |].
      - eapply prefix_frame; [|exact Hpre]. intros b. rewrite length_app. cbn [length]. intros Hb. apply Hs1. unfold de, PATH_BYTES in *. lia.
      - eapply ready_frame; [exact Hrdy|]. intros a Ha. apply Hs1. unfold scratch, de, buf in *. lia.
      - exists m'. rewrite E. unfold fds1. rewrite insert_insert_eq. split; [done|]. intros a Ha. rewrite Hs' by done. apply Hs1. unfold scratch, de, buf in *. lia. }
    destruct s as [|inum name|inum name nd].
    + replace (de_inum m1 de =? 0) with true; [apply Hskip|]. symmetry. apply Z.eqb_eq. unfold de_inum, ld16. cbn [load_le]. unfold m1. cbn [slot_bytes].
      rewrite !ld8_store_bytes, length_replicate, !decide_True by lia. rewrite !lookup_replicate_2 by lia. done.
    + destruct Hs as (Hi & Hn & Hd). unfold m1 at 2. cbn [slot_bytes]. rewrite (dirent_dot m de inum name Hn), bool_decide_eq_true_2 by done. rewrite orb_true_r. apply Hskip.
    + clear Hskip. destruct Hs as (Hi & Hn & Hd & Hfit). assert ((de_inum m1 de =? 0) = false) as -> by (apply Z.eqb_neq; unfold m1; cbn [slot_bytes]; rewrite dirent_inum by lia; lia).
      assert ((ld8 m1 (de + 2) =? 46) = false) as -> by (unfold m1; cbn [slot_bytes]; by rewrite (dirent_dot m de inum name Hn), bool_decide_eq_false_2 by done). cbn [orb].
      set (p := buf + Z.of_nat (length lp) + 1). set (m2 := st8 (Ulib.memmove m1 p (de + 2) DIRSIZ) (p + DIRSIZ) 0). rewrite (ubind_done _ _ m1 tt m2) by done.
      destruct (child_path m buf de lp inum name Hpre Hn) as (Hc & Hp2 & Hs2); [unfold PATH_BYTES in *; lia|unfold de; lia|]. fold p m1 m2 in Hc, Hp2, Hs2.
      assert (same_outside (scratch (S n)) m m2) as Hs2' by (intros a Ha; apply Hs2; unfold scratch, p, de, buf in *; lia).
      destruct (entry_ok n m2 lp name nd fds1 out IHn Hc Hn Hfit) as (m3 & E3 & Hs3); [apply (Hres inum); by left|done|by eapply ready_frame|].
      rewrite ubind_eq, interp_bind. fold buf de st in E3. change (buf + 512 + 16) with st in E3. rewrite E3. cbn iota beta.
      assert (same_outside (scratch (S n)) m m3) as Hs3'.
      { intros a Ha. rewrite Hs3; [by apply Hs2'|]. unfold scratch, st, de, buf in *. lia. }
      destruct (IH rounds m3 fds1 (out ++ lines (found_slot t lp (Entry inum name nd))) nd0 fd lp Hl Hres') as (m' & E & Hs'); [lia|done| |done|by eapply ready_frame|].
      * eapply prefix_frame; [|exact Hp2]. intros b. rewrite length_app. cbn [length]. intros Hb. apply Hs3. unfold scratch, st, de, PATH_BYTES, buf in *. lia.
      * exists m'. cbn [found_slot] in E. fold p in E. rewrite E. unfold fds1. rewrite insert_insert_eq. cbn [flat_map found_slot]. rewrite lines_app, (app_assoc out). split; [done|].
        intros a Ha. rewrite Hs' by done. by apply Hs3'.
Qed.

Lemma find_ok n : finds n.
Proof.
  induction n as [|n IH]; intros nd path l m fds out Hfit Htop Hc Hpath Hl Hres Hb Hrdy; [done|].
  pose proof (frame_above n) as Hfa. pose proof (frame_next n) as Hfn. destruct (pick_unused fds) as [Hnone Hpos]. unfold PATH_BYTES in Hl.
  cbn [find]. rewrite (open_ok m path l nd) by done. rewrite (proj2 (Z.ltb_ge (pick fds) 0)) by done.
  set (fds1 := <[pick fds := (nd, node_data nd)]> fds). rewrite (fstat_ok m (pick fds) _ nd (node_data nd)) by apply lookup_insert_eq.
  change (0 <? 0) with false. cbn iota. set (buf := frame n) in *. set (de := buf + 512). set (st := de + 16). set (m1 := store_bytes m st (stat_bytes nd)).
  rewrite (ubind_done uget _ m1 m1 m1) by done. unfold m1 at 1 2. rewrite stat_type by by eapply fits_type.
  assert (same_outside (fun a => st <= a < st + 24) m m1) as Hs1 by (intros a Ha; unfold m1; rewrite ld8_store_bytes, stat_size, decide_False by lia; done).
  assert (same_outside (scratch (S n)) m m1) as Hs1' by (intros a Ha; apply Hs1; unfold scratch, st, de in *; lia).
  pose proof (ready_frame _ _ _ Hrdy Hs1') as Hr1.
  assert (cstr m1 path l) as Hc1 by (eapply cstr_frame; [|exact Hc]; intros b Hb2; apply Hs1; unfold st, de in *; lia).
  destruct nd as [typ d|slots].
  - cbn [node_type]. rewrite (Htop typ d eq_refl), Z.eqb_refl. destruct (show_in (S n) m1 path l fds1 out Hr1 Hc1 Hpath Hb) as (m2 & E & Hs2); [lia|].
    rewrite ubind_eq, interp_bind, E. cbn iota beta. rewrite close_ok. unfold fds1. rewrite delete_insert_id by done. exists m2. split; [done|].
    intros a Ha. rewrite Hs2 by (unfold scratch in *; lia). by apply Hs1'.
  - cbn [node_type]. change (T_DIR =? T_FILE) with false. rewrite Z.eqb_refl. cbn iota. rewrite ubind_eq, interp_bind.
    assert (too_long fuel path m1 = UDone false m1) as Htl.
    { unfold too_long. rewrite (ubind_done uget _ m1 m1 m1) by done. rewrite (strlen_ok fuel m1 path l Hc1) by lia.
      rewrite (ubind_done _ _ m1 (Z.of_nat (length l)) m1) by done. change DIRSIZ with 14. by rewrite (proj2 (Z.ltb_ge 512 _)) by lia. }
    rewrite (ubind_done _ _ m1 false m1 Htl). cbn iota.
    destruct (dir_prefix_ok fuel buf path l m1 Hc1) as (m2 & E2 & Hp2 & Hs2); [lia|lia|lia|]. rewrite (ubind_done _ _ m1 _ m2 E2).
    assert (same_outside (scratch (S n)) m1 m2) as Hs2' by (intros a Ha; apply Hs2; unfold scratch in *; lia).
    cbn [fits] in Hfit. destruct Hfit as (Hnd & Hlen & Hslots).
    destruct (loop_ok n IH slots fuel m2 fds1 out (NDir slots) (pick fds) l Hslots) as (m3 & E3 & Hs3); [|done|apply lookup_insert_eq|done|done|by eapply ready_frame|].
    { intros i name nd Hin. pose proof (proj1 (Forall_forall _ _) Hslots _ Hin) as (_ & (Hne & _ & Hnc) & _).
      rewrite elems_child, resolve_app, Hres by (done || (eapply Forall_impl; [exact Hnc|]; cbn; tauto)). cbn. by rewrite (entry_of_unique i name nd). }
    fold buf de st in E3. rewrite E3. cbn iota beta. rewrite close_ok. unfold fds1. rewrite insert_insert_eq, delete_insert_id by done.
    exists m3. split; [done|]. intros a Ha. rewrite Hs3, Hs2' by done. by apply Hs1'.
Qed.
End Search.

(** C34: [find] searches: in every tree of directories of at most [n] levels (names
    without blanks), from every path that names a directory or a regular file, whatever
    descriptors the kernel hands out, it ends and prints exactly the paths of the files
    whose name is the target, in the order of the directories, a complaint in place of
    each entry whose path is longer than the kernel takes, and nothing for names that
    begin with a dot; all descriptors are closed again. *)
Theorem find_spec root pick stat_bytes fuel name_buf frame target t n nd path l m fds out :
  (forall fds, fds !! pick fds = None /\ 0 <= pick fds) ->
  (forall m st nd, is_short (node_type nd) -> st_type (store_bytes m st (stat_bytes nd)) st = node_type nd) -> (forall nd, length (stat_bytes nd) = 24%nat) ->
  (200 <= fuel)%nat -> 0 < name_buf -> name_buf + 15 <= frame 0%nat -> (forall k, frame k + 552 <= frame (S k)) -> 32 ∉ t ->
  fits fuel n nd -> (forall typ d, nd = NFile typ d -> typ = T_FILE) -> cstr m path l -> frame n <= path -> (length l < PATH_BYTES)%nat ->
  resolve root (path_elems l) = Some nd -> 32 ∉ base_name l -> cstr m target t -> frame n <= target -> ld8 m (name_buf + 14) = 0 ->
  exists m', interp (tree_kernel root pick stat_bytes) (find fuel name_buf frame n target path m) (World fds out) =
      (UDone tt m', World fds (out ++ lines (found t l nd))) /\ same_outside (scratch name_buf frame n) m m'.
Proof.
  intros. apply (find_ok root pick stat_bytes) with (t := t); (done || by split).
Qed.

(** The tree of the witness: "/a", "/d/a" and "/d/.a", searched for "a". *)
Definition demo_pick (fds : gmap Z (node * list Z)) : Z := Z.of_nat (fresh (set_map Z.to_nat (dom fds) : gset nat)).
Lemma demo_pick_ok fds : fds !! demo_pick fds = None /\ 0 <= demo_pick fds.
Proof.
  split; [|unfold demo_pick; lia]. apply not_elem_of_dom. intros H. eapply (is_fresh (set_map Z.to_nat (dom fds) : gset nat)).
  apply elem_of_map. exists (demo_pick fds). split; [|exact H]. unfold demo_pick. by rewrite Nat2Z.id.
Qed.
Definition demo_stat (nd : node) : list Z := replicate 8 0 ++ [node_type nd mod 256; node_type nd / 256 mod 256] ++ replicate 14 0.
Lemma demo_stat_ok m st nd : is_short (node_type nd) -> st_type (store_bytes m st (demo_stat nd)) st = node_type nd.
Proof.
  intros Ht. assert (forall i x, demo_stat nd !! i = Some x -> ld8 (store_bytes m st (demo_stat nd)) (st + Z.of_nat i) = u8 x) as Hx.
  { intros i x Hl. pose proof (lookup_lt_Some _ _ _ Hl). rewrite ld8_store_bytes, decide_True by lia. replace (Z.to_nat _) with i by lia. by rewrite Hl. }
  pose proof (Hx 8%nat (node_type nd mod 256) eq_refl) as E0. pose proof (Hx 9%nat (node_type nd / 256 mod 256) eq_refl) as E1.
  change (Z.of_nat 8) with 8 in E0. change (Z.of_nat 9) with (8 + 1) in E1. rewrite Z.add_assoc in E1.
  unfold st_type, ld16. cbn [load_le]. rewrite E0, E1. unfold is_short in Ht. unfold u8, i16. lia.
Qed.
Definition demo_tree : node :=
  NDir [Hidden 1 [46]; Hidden 1 [46; 46]; Entry 2 [97] (NFile T_FILE []); Free; Entry 3 [100] (NDir [Hidden 5 [46; 97]; Entry 4 [97] (NFile T_FILE [1])])].
Definition demo_find_mem : mem := store_bytes ∅ 16384 [47; 0; 97; 0].

Lemma name_ok_of name : negb (bool_decide (name = [])) && (Z.of_nat (length name) <=? DIRSIZ) && forallb (fun c => (0 <? c) && (c <? 256) && negb (c =? slash) && negb (c =? 32)) name = true ->
  name_ok name.
Proof.
  intros [[Hne%negb_true_iff%bool_decide_eq_false_1 Hl%Z.leb_le]%andb_prop Hb]%andb_prop. split; [done|]. split; [done|].
  apply Forall_forall. intros c Hc%list_elem_of_In. rewrite forallb_forall in Hb. specialize (Hb c Hc). unfold slash in *. lia.
Qed.

Lemma demo_tree_fits : fits 200 3 demo_tree.
Proof.
  assert (forall inum name, 0 < inum < 65536 -> name_ok name -> head name = Some 46 -> slot_ok 200 2 (Hidden inum name)) as Hh by done.
  assert (forall inum, 0 < inum < 65536 -> forall n x, fits 200 n x -> slot_ok 200 n (Entry inum [97] x)) as Ha by (intros; split; [done|]; split; [by apply name_ok_of|]; by split).
  assert (forall n d, fits 200 (S n) (NFile T_FILE d)) as Hf by done.
  split; [by refine (bool_decide_unpack _ _)|]. split; [cbn; lia|].
  change (Forall (slot_ok 200 2) [Hidden 1 [46]; Hidden 1 [46; 46]; Entry 2 [97] (NFile T_FILE []); Free; Entry 3 [100] (NDir [Hidden 5 [46; 97]; Entry 4 [97] (NFile T_FILE [1])])]).
  repeat (apply Forall_cons; split); [by split; [|split; [apply name_ok_of|]]..| |done| |constructor].
  - apply Ha; [done|apply Hf].
  - split; [done|]. split; [by apply name_ok_of|]. split; [done|]. split; [by refine (bool_decide_unpack _ _)|]. split; [cbn; lia|].
    change (Forall (slot_ok 200 1) [Hidden 5 [46; 97]; Entry 4 [97] (NFile T_FILE [1])]). repeat (apply Forall_cons; split); [by split; [|split; [apply name_ok_of|]]| |constructor].
    apply Ha; [done|apply Hf].
Qed.

Lemma find_spec_witness : exists m',
  interp (tree_kernel demo_tree demo_pick demo_stat) (find 200 1024 (fun k => 4096 + 552 * Z.of_nat k) 3 16386 16384 demo_find_mem) (World ∅ []) =
    (UDone tt m', World ∅ ([47; 47; 97; 10] ++ [47; 47; 100; 47; 97; 10])).
Proof.
  destruct (find_spec demo_tree demo_pick demo_stat 200 1024 (fun k => 4096 + 552 * Z.of_nat k) 16386 [97] 3 demo_tree 16384 [47] demo_find_mem ∅ []) as (m' & E & _).
  - exact demo_pick_ok.
  - exact demo_stat_ok.
  - reflexivity.
  - reflexivity.
  - reflexivity.
  - lia.
  - intros k. lia.
  - intros H. apply list_elem_of_singleton in H. discriminate H.
  - exact demo_tree_fits.
  - intros typ d H. discriminate H.
  - vm_compute. repeat split; discriminate.
  - lia.
  - cbn. unfold PATH_BYTES. lia.
  - reflexivity.
  - intros H. by apply elem_of_nil in H.
  - vm_compute. repeat split; discriminate.
  - lia.
  - vm_compute. reflexivity.
  - exists m'. exact E.
Defined.
